(* ===== verification/_CoqProject ===== *)
-Q . S2P
Prelude.v
GoString.v
Core.v
Slots.v
Daemon.v
Controls.v
CheckGraph.v
Scheduling.v
Spec.v
Governor.v
Trial.v
Landing.v
Lane.v
LaneSpec.v
Plan.v
Reconcile.v
ReconcileSpec.v
TickSpec.v
Wire.v
DaemonConfig.v
DaemonConfigSpec.v
Hooks.v
HooksSpec.v
TestReport.v
TestParse.v
KdlFmt.v
DiffLines.v
Evidence.v
Broker.v
WorkerServer.v
BrokerSpec.v
BrokerBoard.v
Agent.v
Executor.v
ExecutorSpec.v
Capacity.v
ServicePool.v
ServicePoolSpec.v
Policy.v
Flaky.v
Reuse.v
DeployGraph.v
DeployLane.v
DeployLaneSpec.v
Wiring.v
Review.v
ReviewSpec.v
Gerrit.v
