(* ===== verification/Prelude.v ===== *)
(** * Gauntlet: a merge queue and what keeps its targets green

    Gauntlet lands candidate revisions on target branches. Every candidate is
    merged into a trial commit on top of what the target will be, the checks of
    the repository's own check spec run against that trial, and only a trial
    that came out green is pushed, by compare-and-swap, as the new target. This
    development models the daemon's decision logic, function by function, as
    executable definitions over an explicit daemon state, and proves what makes
    it correct.

    ** How the parts fit together

    One pass ([ReconcileOnce], src/internal/queue/daemon.go) fetches the
    remote's refs, admits review candidates, applies the operators' commands and
    then goes over the targets ([reconcileTarget], reconcile.go). For a target
    it discovers candidates, asks the policy, keeps the queue's books, and
    drives the target's lane: a list of runs, each a trial stacked on the one
    before. A run owns a graph of checks ([advanceChecks], checkrun.go) that
    workers execute between passes; a red run discards itself and what is
    stacked on it, a green prefix lands ([landRun], landing.go), and an idle
    target is refilled with the next picks. Controls (pauses, emergencies,
    priorities, parks) are saved to a file before they take effect.

    ** Files and what they model

    - Prelude.v: record update, Go map reads, float64, sorting and list lemmas.
    - GoString.v: byte strings, UTF-8 decoding, [SanitizeName] (core/sanitize.go).
    - Core.v: the domain types (core/types.go, command.go, events.go), [NodeGreen].
    - Slots.v: the execution slots (core/slots.go), blocking acquisition as a
      step relation over waiters.
    - Daemon.v: the records of queue/daemon.go - [Config], [run], [Daemon] - and
      the persisted [controlState].
    - Controls.v: controls.go, checkpoint.go, circuit.go, autoretry.go and the
      park operations of command.go.
    - CheckGraph.v: checkrun.go and the node rules of checkspec.go.
    - Scheduling.v: discovery, priorities, picking and bookkeeping of
      reconcile.go and scheduling.go.
    - Spec.v: the validation of check specs (config/checks.go), capability gates
      (queue/checkspec.go) and the service key (config/servicekey.go).
    - Governor.v: the adaptive concurrency of adaptive.go.
    - Trial.v: the environment [World], the remote's refs with compare-and-swap,
      policy.go, prepared.go, message.go, trialref.go and the chain links of
      reconcile.go.
    - Landing.v: landing.go and the ways a run can finish; the frame [quiet].
    - Lane.v, LaneSpec.v: starting, refilling, advancing and cancelling runs
      (reconcile.go, command.go), and the theorems about lanes.
    - Plan.v: snapshot.go, drain.go and [PlanSchedule] (scheduling.go).
    - Reconcile.v, ReconcileSpec.v, TickSpec.v: commands, emergencies, review
      requests, the pass and the loop of daemon.go, and the theorems about them.
    - Wire.v: 64-bit integers and strings as JSON leaves them.
    - DaemonConfig.v, DaemonConfigSpec.v: the defaults, executor profiles and validation of
      daemon.kdl and worker.kdl (config/daemon.go, workers.go, worker_pools.go, flaky.go,
      policy.go, signing.go, circuit.go), and the theorems about a loaded configuration.
    - Hooks.v, HooksSpec.v: the runner of post-land hooks (hooks/hooks.go,
      cmd/gauntlet/hooks.go), its critical sections as interleaved steps, and the
      theorems about it.
    - TestReport.v: test reports and reruns, TestParse.v: reading them (testreport/report.go).
    - Executor.v, ExecutorSpec.v: the local and the container executor, what they run and what
      they make of its end, and the routing between executors (executor/local.go,
      container.go, tests.go, rusage.go, mux.go), and the theorems about them.
    - Reuse.v: what the goroutine of a check does (queue/checkrun.go) and the reuse of results by
      the identity of their inputs (queue/verification.go).
    - Review.v: the intake of GitHub pull requests (review/github.go, policy.go, intent.go,
      conversations.go, feedback.go, instructions.go, progress.go, webhook.go), ReviewSpec.v: the theorems
      about it; Gerrit.v: the intake of Gerrit changes (review/gerrit.go).
    - Wiring.v: the daemon put together from its configuration: the executors, the check of a
      spec against a configuration, what a start sweeps away, the credentials of the channels,
      the workers' profiles, the queue's and the tracker's configuration (cmd/gauntlet
      executor.go, validate.go, sweep.go, channels.go, reviews.go, failure_review.go,
      workers.go, deploy.go, main.go; gitx/git.go).
    - Evidence.v: passing results that runs share and that outlive them
      (verification/manager.go), its critical sections as steps.
    - KdlFmt.v: the scanner and the formatter of configuration files (kdlfmt/lex.go,
      kdlfmt.go); DiffLines.v: the line diff and the command [gauntlet fmt]
      (cmd/gauntlet/difflines.go, fmt.go).
    - Broker.v, BrokerSpec.v: the workers' broker (workers/types.go, broker.go,
      status.go): its job and peer tables, statement by statement, and the theorems
      over all interleavings of its callers; BrokerBoard.v: the board of jobs it implements.
    - Capacity.v: the scaler of worker pools (workers/capacity.go).
    - ServicePool.v, ServicePoolSpec.v: the pool of service containers that runs share
      (services/pool.go, driver.go, record.go), its critical sections as the steps of threads.
    - WorkerServer.v: the handlers workers call and the executor that waits for a
      check (workers/server.go, logs.go, executor.go).
    - Agent.v: the worker's side (workers/agent.go, client.go, and the output buffer of
      executor/local.go), and both sides together.
    - Policy.v: the policy engine around the Rego library (policy/policy.go).
    - Flaky.v: retrying flaky checks, the failure history and its budgets (flaky/retry.go,
      history.go, decision.go).
    - DeployGraph.v: one run of a graph of deploy nodes (deploy/graph.go).
    - DeployLane.v, DeployLaneSpec.v: the deploy tracker and its lanes
      (deploy/deploy.go, run.go, policy.go, snapshot.go), and the theorems over all
      interleavings of the pass, the lane goroutines and the operators.

    A definition keeps the name of the function, method or type it models; the
    comment in front of it gives the file and the lines.

    ** State and environment

    The daemon's fields are the fields of [Daemon]; a Go method becomes a
    function from a state to a state, with its result in front. Slots, parks,
    order, seq, lanes, controls and the landed pins are the maps and lists of the
    source; a Go map is a [gmap], and where the source iterates one in an
    unspecified order and the order could show, the keys are passed as a list
    and the theorems hold for every order. Everything the daemon asks of the
    outside - git, the policy engine, the forge, the clock, workers, the file
    system - is a field of [World] (Trial.v) or an argument, with no assumption
    on the answers; the theorems quantify over them. A [World] is fixed during one
    pass and free from one pass to the next, and the clock has one value per
    pass. The remote's refs and the control file are part of the state: the
    compare-and-swap of [CASUpdate] follows its documented contract, and each
    write of the control file may fail, by an answer of the state's own list.
    The deploy tracker is a second, independent machine: its state is [Tracker]
    (DeployLane.v), its lane goroutines are threads that take one stretch between
    two points where others can act, and [tstep] (DeployLaneSpec.v) interleaves
    them with the critical sections of the pass and the operators' calls. Its
    outside is a relation between revisions and answers, about which nothing is
    assumed. The broker is a third machine: its database is two tables, its
    operations are programs of a small error monad ([DB]) in which any statement may
    fail, a transaction that fails is rolled back, and [bstep] (BrokerSpec.v) lets
    the calls come in any order, with restarts; the only assumption is that a drawn
    token is new. The hook runner is a machine of the same kind: [step] (Hooks.v)
    interleaves the queue's emissions, cancellations and wake-ups with the stretches
    of the runner's goroutine and of the landing it executes. Instants are nanoseconds with 0 for the zero time, durations are
    nanoseconds, float64 is IEEE binary64.

    ** What the theorems show

    - Safety of targets: [ReconcileOnce_safe] (a whole pass, whatever the
      environment answers and the operators command, leaves each target ref
      where it was or at the tip of a chain of green, stacked runs),
      [advanceLane_target], [landRun_correct] (all the ways a landing can end).
    - Lanes: [lane_reachable_ok] (the lane invariant), [red_parks].
    - Runs: [run_graph_safe], [run_graph_progress].
    - Queue order: [pickUpTo_safe].
    - Drain: [drain_admits_nothing].
    - Configuration: [loaded_config_valid] (what a loaded daemon.kdl can be relied on for).
    - Hooks: [hooks_protocol] (the runner implements a list of landings, each run once and
      in order), [landings_accounted] (none is lost without a trace),
      [landing_cancels_itself] (a defect).
    - Deployments: [deploy_refs_move] (what may move a desired or an observed
      ref), [deploy_lane_serial], [deploy_graph_safe],
      [deploy_graph_concludes] (the graph of any valid spec comes to an end, with the
      rows it promises).
    - Workers: [claim_within_capacity] (what a claim may hand out),
      [verdict_final] (what a verdict is worth), [cut_output_blocks_worker] (a defect),
      [retry_never_invents], [broker_refines_board] (the broker implements a board of jobs),
      [scaler_asks_rightfully] (what a cloud is asked).
    - Services: [services_capped], [services_waiters_served], [held_service_destroyed] (a defect).
    - Executors: [command_environment] (what a command sees), [green_means_success] (what its
      green is worth, the same for both executors).
    - Wiring: [validated_spec_routes] (a spec that `gauntlet validate` accepts finds an executor
      for every check), [claimed_job_runs] (what a worker may claim it can run),
      [credentials_withheld] (no secret of a channel reaches a check),
      [trial_sweep_takes_branches] (a defect).
    - Reviews: [review_admission_justified] (who may let a revision in), [emergency_intent_frozen],
      [stray_request_blocks_intake] (a defect).
    - Evidence: [evidence_sound]; test reports:
      [junit_report_read].
    - Slots: [slots_reachable_safe].
    - Formatting: [format_reflows] (only white space changes).
    - Check specs: [validateAcyclic_exact].

    Lemmas of the same weight that other proofs and readers use stand next to
    them: [priorityAt_max], [slots_reserve_for_urgent], [auto_retry_once],
    [governor_aimd], [cancelInFlight_correct], [plan_priority_correct],
    [SanitizeName_correct], [syncBookkeeping_correct], [SpecRejectReason_gates],
    [SelectDeployNodes_closure], [circuit_breaker_correct], [plan_move_correct],
    [parseCandidateRef_grammar], [late_result_accepted], [Adopt_only],
    [advanceLane_concludes] (runs leave with exactly one terminal event per member), [red_run_recorded],
    [submit_resumes], [merge_rerun_covers], [evidence_shared], [normalize_indents], [runFmtTo_list],
    [pickUpTo_complete], [parked_lane_waits], [serviceEncoding_injective], [checkpoint_restart],
    [diff_patches] (what is shown is a patch, and the shortest), [validateDeployEnvAcyclic_exact],
    [pathAtOrUnder_exact], [Run_stops_drained], [stale_token_refused], [format_idempotent],
    [policy_fail_closed], [executors_agree], [containerName_shape], [sweep_exact] (what a start
    removes), [loaded_config_apart], [half_tls_accepted], [lowered_limit_wedges],
    [lingering_child_reddens], [taken_name_reddens], [sanitized_names_collide],
    [paused_green_run_vanishes], [stale_mirror_parks], [truncated_identity_reused] (eight defects),
    [valid_spec_runs], [retained_result_survives], [landing_revalidated], [failed_intake_stops_pass], [served_snapshot_fresh],
    [parseCommand_guarded], [safeMarkdown_inert], [vote_on_tested].

    ** Fuel

    Recursion that is not structural runs on fuel that is enough: the depth
    first searches of Spec.v, Scheduling.v and Plan.v on the number of nodes
    plus one (each step marks a node), [runes_fuel] on the length of the string,
    the trimming loop of [saveControls] on the number of audit entries (each
    round drops one), [trimIntents] on the number of requests, the chains of pull requests on the
    number of open ones, pages on the 1000 the code reads, [extendWindow] on the window, [orderGroup] on the size of
    the group (each round but the last adds a member). Theorems about them
    ([validateAcyclic_exact], [priorityAt_max], [SelectDeployNodes_closure],
    [pickUpTo_complete], ...) show results that an early stop would falsify.

    ** Not modelled, and why

    - Tracing spans, log files, workspaces on disk, retained source objects:
      they do not feed back into decisions.
    - The bytes of the control file: saving stores the state, and its size is a
      parameter of the configuration. A digest is a parameter.
    - Quoting with %q is modelled for printable ASCII names.
    - Git, container runtimes and the processes a check runs: other programs. What
      they answer is [World] (Trial.v) and [Host] (Executor.v); the code that
      builds their command lines is modelled, the calls are not.
    - The dashboard, the MCP server, Slack and the history's SQL: they render or
      record the state and feed nothing back into a decision of the queue but
      the operators' commands, which are arguments of the pass in
      Reconcile.v.
    - HTTP: a request to a forge is a typed question in Review.v and Gerrit.v, with URLs, headers
      and JSON left out. The queue does not use these models: what its review source says is an
      answer of [World], and the queue is proved for every answer.
    - Rego evaluation: a library; the engine around it is modelled.
    - The order in which the daemon starts and stops its goroutines, and the
      clients of the command line: plain sequencing of the parts above.
*)
From stdpp Require Export base tactics numbers option list gmap strings sorting fin_maps pretty.
From Stdlib Require Export SpecFloat.

Declare Scope gauntlet_scope.
Delimit Scope gauntlet_scope with gauntlet.
Open Scope Z_scope.

Create HintDb gauntlet.

(** ** Record update

    [eta] of a record lists its fields once; from it, [r <| f := v |>] replaces
    one field and [r <| f ::= g |>] applies a function to it. *)
Class Eta (R : Type) := eta : R -> R.

Class Setter {R A : Type} (proj : R -> A) := over : (A -> A) -> R -> R.
Arguments over {R A} proj {Setter} g r /.

Ltac derive_setter R proj :=
  let inst := constr:(_ : Eta R) in
  let body := eval red in inst in
  match eval pattern proj in body with
  | ?F _ => let s := eval cbv beta in (fun g r => F (fun r' => g (proj r')) r) in exact s
  end.

#[export] Hint Extern 1 (@Setter ?R _ ?proj) => derive_setter R proj : typeclass_instances.

#[warnings="-postfix-notation-not-level-1"]
Notation "r <| f ::= g |>" := (over f g r)
  (at level 12, f at next level, left associativity, format "r  <| f  ::=  g |>") : gauntlet_scope.
#[warnings="-postfix-notation-not-level-1"]
Notation "r <| f := v |>" := (over f (fun _ => v) r)
  (at level 12, f at next level, left associativity, format "r  <| f  :=  v |>") : gauntlet_scope.
Open Scope gauntlet_scope.

(** ** Go map reads: a missing key yields the zero value of the element type. *)
Notation "m !!! k 'else' d" := (default d (m !! k))
  (at level 20, k at next level, d at next level) : gauntlet_scope.

(** ** float64

    Go's [float64] as the Standard Library's executable IEEE 754 binary64. *)
Definition float64 := spec_float.

#[export] Instance float64_eq_dec : EqDecision float64.
Proof. solve_decision. Defined.

Definition f64_of_Z (z : Z) : float64 := binary_normalize 53 1024 z 0 false.
Definition f64_add : float64 -> float64 -> float64 := SFadd 53 1024.
Definition f64_div : float64 -> float64 -> float64 := SFdiv 53 1024.
Definition f64_zero : float64 := S754_zero false.
Definition f64_is_zero (x : float64) : bool := SFeqb x f64_zero.

(** Go's [max(0, x)] on floats. *)
Definition f64_max0 (x : float64) : float64 :=
  match x with
  | S754_nan => S754_nan
  | _ => if SFltb f64_zero x then x else f64_zero
  end.

(** [time.Duration.Seconds]. *)
Definition Seconds (d : Z) : float64 :=
  f64_add (f64_of_Z (Z.quot d 1000000000))
          (f64_div (f64_of_Z (Z.rem d 1000000000)) (f64_of_Z 1000000000)).

Example Seconds_1500ms : Seconds 1500000000 = f64_div (f64_of_Z 3) (f64_of_Z 2).
Proof. vm_compute. reflexivity. Qed.

(** ** Lists *)

(** The index and value of the first element satisfying [f]. *)
Fixpoint find_index {A} (f : A -> bool) (l : list A) : option (nat * A) :=
  match l with
  | [] => None
  | x :: l => if f x then Some (O, x)
              else match find_index f l with Some (i, y) => Some (S i, y) | None => None end
  end.

Lemma find_index_Some {A} (f : A -> bool) (l : list A) i x :
  find_index f l = Some (i, x) ->
  l !! i = Some x /\ f x = true /\
  (forall j y, (j < i)%nat -> l !! j = Some y -> f y = false).
Proof.
  revert i. induction l as [|y l IH]; intros i; cbn [find_index]; [done|].
  destruct (f y) eqn:E.
  - intros [= <- <-]. split_and!; try done. lia.
  - destruct (find_index f l) as [[k z]|]; [|done]. intros [= <- <-].
    destruct (IH k eq_refl) as (? & ? & H). split_and!; try done.
    intros [|j] w Hj Hw; simpl in Hw; [congruence|]. apply (H j); [lia|done].
Qed.

Lemma find_index_None {A} (f : A -> bool) (l : list A) x :
  find_index f l = None -> x ∈ l -> f x = false.
Proof.
  induction l as [|y l IH]; cbn [find_index]; intros H Hin.
  - by apply elem_of_nil in Hin.
  - destruct (f y) eqn:E; [done|]. destruct (find_index f l) as [[]|]; [done|].
    apply elem_of_cons in Hin as [->|]; auto.
Qed.

Lemma find_index_exists {A} (f : A -> bool) (l : list A) x :
  x ∈ l -> f x = true -> is_Some (find_index f l).
Proof.
  intros Hin Hf. destruct (find_index f l) eqn:E; [eauto|].
  by rewrite (find_index_None f l x E Hin) in Hf.
Qed.

Lemma sublist_fmap {A B} (f : A -> B) (l1 l2 : list A) :
  sublist l1 l2 -> sublist (f <$> l1) (f <$> l2).
Proof. induction 1; simpl; by constructor. Qed.


(** ** Sorting

    [sort_by less] is an insertion sort for a Go comparator. It keeps equal
    elements in their given order, so it models [sort.SliceStable]; for a
    comparator that never ties, every sorting algorithm gives its result. *)
Section SortBy.
Context {A : Type} (less : A -> A -> bool).

Fixpoint insert_by (x : A) (l : list A) : list A :=
  match l with
  | [] => [x]
  | y :: l' => if less y x then y :: insert_by x l' else x :: l
  end.

Definition sort_by (l : list A) : list A := foldr insert_by [] l.

Definition notafter (a b : A) : Prop := less b a = false.

Lemma insert_by_Permutation x l : insert_by x l ≡ₚ x :: l.
Proof.
  induction l as [|y l IH]; simpl; [done|]. destruct (less y x); [|done].
  rewrite IH. constructor.
Qed.

Lemma sort_by_Permutation l : sort_by l ≡ₚ l.
Proof. induction l as [|x l IH]; simpl; [done|]. by rewrite insert_by_Permutation, IH. Qed.

(** A strict weak order. *)
Definition weak_order : Prop :=
  (forall a b, less a b = true -> less b a = false) /\
  (forall a b c, notafter a b -> notafter b c -> notafter a c).

Hypothesis Hw : weak_order.

Lemma sort_by_sorted l : StronglySorted notafter (sort_by l).
Proof.
  destruct Hw as [Has Htr].
  assert (forall x l, StronglySorted notafter l -> StronglySorted notafter (insert_by x l)) as Hins.
  { clear l. intros x l Hl. induction Hl as [|y l Hl IH Hy]; simpl; [repeat constructor|].
    destruct (less y x) eqn:E.
    - constructor; [done|]. rewrite insert_by_Permutation. constructor; [by apply Has|done].
    - constructor; [by constructor|]. constructor; [done|].
      apply (Forall_impl _ _ _ Hy). intros z Hz. by apply (Htr _ y). }
  induction l as [|x l IH]; simpl; [constructor|auto].
Qed.

(** Without ties the result depends only on the elements. *)
Lemma sort_by_unique l k :
  (forall a b, a ∈ l -> b ∈ l -> notafter a b -> notafter b a -> a = b) ->
  l ≡ₚ k -> sort_by l = sort_by k.
Proof.
  intros Hanti Hp. apply (StronglySorted_unique_strong notafter).
  - intros a b Ha Hb. rewrite sort_by_Permutation in Ha, Hb. rewrite <- Hp in Hb. by apply Hanti.
  - apply sort_by_sorted.
  - apply sort_by_sorted.
  - by rewrite !sort_by_Permutation.
Qed.
End SortBy.

(** Go's [<] on strings is the byte order. *)
Lemma string_ltb_lt s1 s2 : String.ltb s1 s2 = true <-> String.compare s1 s2 = Lt.
Proof. unfold String.ltb. destruct (String.compare s1 s2); split; done. Qed.

Lemma string_lt_trans s1 s2 s3 :
  String.ltb s1 s2 = true -> String.ltb s2 s3 = true -> String.ltb s1 s3 = true.
Proof.
  rewrite !string_ltb_lt. revert s2 s3. induction s1 as [|a s1 IH]; intros [|b s2] [|c s3]; simpl; try done.
  unfold Ascii.compare.
  destruct (N.compare_spec (Ascii.N_of_ascii a) (Ascii.N_of_ascii b)) as [E1|E1|E1];
    destruct (N.compare_spec (Ascii.N_of_ascii b) (Ascii.N_of_ascii c)) as [E2|E2|E2];
    destruct (N.compare_spec (Ascii.N_of_ascii a) (Ascii.N_of_ascii c)) as [E3|E3|E3];
    try done; try lia; eauto.
Qed.

Lemma string_lt_irrefl s : String.ltb s s = false.
Proof.
  destruct (String.ltb s s) eqn:E; [|done]. apply string_ltb_lt in E.
  pose proof (String.compare_antisym s s) as H. rewrite E in H. done.
Qed.

Lemma string_lt_asym s1 s2 : String.ltb s1 s2 = true -> String.ltb s2 s1 = false.
Proof.
  rewrite string_ltb_lt. intros H. unfold String.ltb. rewrite String.compare_antisym, H. done.
Qed.

Lemma string_lt_total s1 s2 : String.ltb s1 s2 = false -> String.ltb s2 s1 = false -> s1 = s2.
Proof.
  unfold String.ltb. rewrite (String.compare_antisym s2 s1).
  destruct (String.compare s1 s2) eqn:E; try done. intros _ _. by apply String.compare_eq_iff.
Qed.

Lemma string_weak_order : weak_order String.ltb.
Proof.
  split; [intros a b; apply string_lt_asym|]. unfold notafter. intros a b c Hab Hbc.
  destruct (String.ltb c a) eqn:E; [|done].
  destruct (String.ltb b a) eqn:E1; [done|]. destruct (String.ltb a b) eqn:E2.
  - by rewrite (string_lt_trans c a b E E2) in Hbc.
  - rewrite (string_lt_total a b E2 E1) in E. congruence.
Qed.

(** Descending by [k], then ascending by [o], then by name. *)
Definition lex3 (k o : string -> Z) (a b : string) : bool :=
  (k b <? k a) || ((k a =? k b) && ((o a <? o b) || ((o a =? o b) && String.ltb a b))).

Lemma lex3_false k o a b :
  lex3 k o a b = false <->
  k a < k b \/ (k a = k b /\ (o b < o a \/ (o a = o b /\ String.ltb a b = false))).
Proof.
  unfold lex3. destruct (Z.ltb_spec (k b) (k a)), (Z.eqb_spec (k a) (k b)), (Z.ltb_spec (o a) (o b)),
    (Z.eqb_spec (o a) (o b)); simpl; split; intuition (try done; try lia).
Qed.

Lemma lex3_true k o a b :
  lex3 k o a b = true <->
  k b < k a \/ (k a = k b /\ (o a < o b \/ (o a = o b /\ String.ltb a b = true))).
Proof.
  unfold lex3. destruct (Z.ltb_spec (k b) (k a)), (Z.eqb_spec (k a) (k b)), (Z.ltb_spec (o a) (o b)),
    (Z.eqb_spec (o a) (o b)); simpl; split; intuition (try done; try lia).
Qed.

Lemma lex3_weak_order k o : weak_order (lex3 k o).
Proof.
  destruct string_weak_order as [Has Htr]. unfold notafter in Htr. split.
  - intros a b. rewrite lex3_false, lex3_true.
    intros [?|[? [?|[? H%Has]]]]; [left; lia|right; split; [lia|]..]; [left; lia|right; split; [lia|done]].
  - unfold notafter. intros a b c. rewrite !lex3_false.
    intros [?|[? [?|[? H1]]]] [?|[? [?|[? H2]]]]; try lia.
    right. split; [lia|]. right. split; [lia|]. eauto.
Qed.

Lemma lex3_no_ties k o a b : lex3 k o a b = false -> lex3 k o b a = false -> a = b.
Proof.
  rewrite !lex3_false. intros [?|[? [?|[? H1]]]] [?|[? [?|[? H2]]]]; try lia. by apply string_lt_total.
Qed.

Lemma StronglySorted_lookup_lt {A} (R : relation A) (l : list A) i j x y :
  StronglySorted R l -> l !! i = Some x -> l !! j = Some y -> (i < j)%nat -> R x y.
Proof.
  intros Hl. revert i j. induction Hl as [|z l Hl IH Hz]; intros i j Hi Hj Hlt; [done|].
  destruct j as [|j]; [lia|]. destruct i as [|i]; simpl in Hi, Hj.
  - injection Hi as ->. rewrite Forall_forall in Hz. by eapply Hz, list_elem_of_lookup_2.
  - apply (IH i j); auto. lia.
Qed.

Lemma sublist_List_filter {A} (f : A -> bool) (l : list A) : sublist (List.filter f l) l.
Proof. induction l as [|x l IH]; simpl; [constructor|]. destruct (f x); by constructor. Qed.

#[export] Hint Resolve find_index_exists : gauntlet.
