(* ===== verification/GoString.v ===== *)
(** Go's byte strings: UTF-8 decoding, [strings.TrimSpace], [strings.Split] and
    [strings.Join], and the name helpers of [src/internal/core] and
    [src/internal/services] built on them. *)
From S2P Require Import Prelude.
From Stdlib Require Import Ascii.

Open Scope string_scope.
Open Scope list_scope.
Open Scope Z_scope.

Abbreviation bytes := (list ascii).
Definition to_bytes : string -> bytes := String.list_ascii_of_string.
Definition of_bytes : bytes -> string := String.string_of_list_ascii.

Definition byte_val (a : ascii) : Z := Z.of_nat (nat_of_ascii a).
Definition val_byte (z : Z) : ascii := ascii_of_nat (Z.to_nat z).

(** ** Runes *)

Definition runeError : Z := 65533.

Definition cont (a : ascii) : bool := (128 <=? byte_val a) && (byte_val a <=? 191).

(** [utf8.DecodeRune]: the rune and the bytes after it; an invalid sequence is
    one byte of [U+FFFD]. *)
Definition decode_rune (b : bytes) : option (Z * bytes) :=
  match b with
  | [] => None
  | a :: t =>
      let v := byte_val a in
      let bad := Some (runeError, t) in
      if v <? 128 then Some (v, t)
      else if (194 <=? v) && (v <=? 223) then
        match t with
        | b1 :: t' => if cont b1 then Some ((v - 192) * 64 + (byte_val b1 - 128), t') else bad
        | _ => bad
        end
      else if (224 <=? v) && (v <=? 239) then
        match t with
        | b1 :: b2 :: t' =>
            let lo := if v =? 224 then 160 else 128 in
            let hi := if v =? 237 then 159 else 191 in
            if (lo <=? byte_val b1) && (byte_val b1 <=? hi) && cont b2
            then Some ((v - 224) * 4096 + (byte_val b1 - 128) * 64 + (byte_val b2 - 128), t')
            else bad
        | _ => bad
        end
      else if (240 <=? v) && (v <=? 244) then
        match t with
        | b1 :: b2 :: b3 :: t' =>
            let lo := if v =? 240 then 144 else 128 in
            let hi := if v =? 244 then 143 else 191 in
            if (lo <=? byte_val b1) && (byte_val b1 <=? hi) && cont b2 && cont b3
            then Some ((v - 240) * 262144 + (byte_val b1 - 128) * 4096 + (byte_val b2 - 128) * 64
                       + (byte_val b3 - 128), t')
            else bad
        | _ => bad
        end
      else bad
  end.

(** [for _, r := range s]: fuel is the number of bytes, each step consumes one
    or more. *)
Fixpoint runes_fuel (fuel : nat) (b : bytes) : list Z :=
  match fuel, decode_rune b with
  | S fuel, Some (r, t) => r :: runes_fuel fuel t
  | _, _ => []
  end.

Definition runes (s : string) : list Z := runes_fuel (String.length s) (to_bytes s).

Lemma decode_rune_shorter b r t : decode_rune b = Some (r, t) -> (length t < length b)%nat.
Proof.
  destruct b as [|a [|b1 [|b2 [|b3 t']]]]; unfold decode_rune; [done|..];
    repeat case_match; intros; simplify_eq; simpl; lia.
Qed.

Lemma decode_rune_ascii a t : byte_val a < 128 -> decode_rune (a :: t) = Some (byte_val a, t).
Proof. intros H. unfold decode_rune. by rewrite (proj2 (Z.ltb_lt _ _) H). Qed.

Lemma runes_fuel_enough n m b :
  (length b <= n)%nat -> (length b <= m)%nat -> runes_fuel n b = runes_fuel m b.
Proof.
  revert m b. induction n as [|n IH]; intros m b Hn Hm.
  - destruct b; simpl in *; [|lia]. by destruct m.
  - destruct b as [|a t] eqn:E; [by destruct m|]. destruct m as [|m]; simpl in Hm; [lia|].
    cbn [runes_fuel]. destruct (decode_rune (a :: t)) as [[r t']|] eqn:D; [|done].
    apply decode_rune_shorter in D. simpl in D. f_equal. apply IH; simpl in *; lia.
Qed.

Lemma byte_val_range a : 0 <= byte_val a < 256.
Proof. unfold byte_val. pose proof (nat_ascii_bounded a). lia. Qed.

Lemma val_byte_val a : val_byte (byte_val a) = a.
Proof. unfold val_byte, byte_val. rewrite Nat2Z.id. apply ascii_nat_embedding. Qed.

Lemma byte_val_byte z : 0 <= z < 256 -> byte_val (val_byte z) = z.
Proof. intros H. unfold val_byte, byte_val. rewrite nat_ascii_embedding by lia. lia. Qed.

(** ** Splitting, joining, trimming *)

Fixpoint split_bytes (sep : ascii) (acc : bytes) (b : bytes) : list bytes :=
  match b with
  | [] => [rev acc]
  | a :: t => if Ascii.eqb a sep then rev acc :: split_bytes sep [] t
              else split_bytes sep (a :: acc) t
  end.

(** [strings.Split(s, "\n")] *)
Definition newline : ascii := ascii_of_nat 10.
Definition split_lines (b : bytes) : list bytes := split_bytes newline [] b.

(** [strings.Join(l, "\n")] *)
Fixpoint join_lines (l : list bytes) : bytes :=
  match l with
  | [] => []
  | [x] => x
  | x :: l => x ++ newline :: join_lines l
  end.

(** The UTF-8 encodings of the runes [unicode.IsSpace] accepts. *)
Definition space_encodings : list bytes :=
  map (map val_byte)
    ([[9]; [10]; [11]; [12]; [13]; [32]; [194; 133]; [194; 160]; [225; 154; 128]]
     ++ map (fun k => [226; 128; 128 + Z.of_nat k]) (seq 0 11)
     ++ [[226; 128; 168]; [226; 128; 169]; [226; 128; 175]; [226; 129; 159]; [227; 128; 128]]).

(** [%q] of a printable string without quotes or backslashes. *)
Definition quoted (s : string) : string :=
  let q := String (ascii_of_nat 34) EmptyString in q +:+ s +:+ q.

(** [strings.Cut] at a one-byte separator. *)
Fixpoint cut_at (sep : ascii) (b : bytes) : option (bytes * bytes) :=
  match b with
  | [] => None
  | a :: t => if Ascii.eqb a sep then Some ([], t)
              else match cut_at sep t with Some (x, y) => Some (a :: x, y) | None => None end
  end.

Fixpoint strip_prefix (p b : bytes) : option bytes :=
  match p, b with
  | [], _ => Some b
  | x :: p, y :: b => if Ascii.eqb x y then strip_prefix p b else None
  | _, [] => None
  end.

Fixpoint strip_any (ps : list bytes) (b : bytes) : option bytes :=
  match ps with
  | [] => None
  | p :: ps => match strip_prefix p b with Some t => Some t | None => strip_any ps b end
  end.

Fixpoint trim_left (fuel : nat) (ps : list bytes) (b : bytes) : bytes :=
  match fuel with
  | O => b
  | S fuel => match strip_any ps b with Some t => trim_left fuel ps t | None => b end
  end.

(** [strings.TrimSpace]: leading, then trailing white space. *)
Definition TrimSpace_bytes (b : bytes) : bytes :=
  let b := trim_left (length b) space_encodings b in
  rev (trim_left (length b) (map (@rev ascii) space_encodings) (rev b)).

Definition TrimSpace (s : string) : string := of_bytes (TrimSpace_bytes (to_bytes s)).

Example TrimSpace_ex : TrimSpace " a b  " = "a b".
Proof. reflexivity. Qed.

(** ** Sanitised names *)

Definition between (lo hi r : Z) : bool := (lo <=? r) && (r <=? hi).

(** [A-Za-z0-9_.-] *)
Definition safe_rune (r : Z) : bool :=
  between 97 122 r || between 65 90 r || between 48 57 r || (r =? 95) || (r =? 46) || (r =? 45).

(** src/internal/core/sanitize.go:15-27 [SanitizeName] *)
Definition SanitizeName (s : string) : string :=
  of_bytes (map (fun r => if safe_rune r then val_byte r else val_byte 45) (runes s)).

Definition safe_byte (a : ascii) : bool := safe_rune (byte_val a).
Definition safe_name (s : string) : Prop := Forall (fun a => safe_byte a = true) (to_bytes s).

Lemma to_of_bytes b : to_bytes (of_bytes b) = b.
Proof. apply String.list_ascii_of_string_of_list_ascii. Qed.

Lemma of_to_bytes s : of_bytes (to_bytes s) = s.
Proof. apply String.string_of_list_ascii_of_string. Qed.

Lemma safe_rune_range r : safe_rune r = true -> 0 <= r < 128.
Proof. unfold safe_rune, between. lia. Qed.

Lemma SanitizeName_safe s : safe_name (SanitizeName s).
Proof.
  unfold safe_name, SanitizeName. rewrite to_of_bytes. apply Forall_map.
  apply Forall_true. intros r. unfold safe_byte. destruct (safe_rune r) eqn:E; [|reflexivity].
  rewrite byte_val_byte; [done|]. apply safe_rune_range in E. lia.
Qed.

Lemma runes_safe b :
  Forall (fun a => safe_byte a = true) b -> runes_fuel (length b) b = map byte_val b.
Proof.
  induction 1 as [|a b Ha Hb IH]; [done|]. cbn [length runes_fuel map].
  apply safe_rune_range in Ha as Hr. rewrite decode_rune_ascii by lia. by f_equal.
Qed.

Lemma length_to_bytes s : length (to_bytes s) = String.length s.
Proof. induction s; simpl; congruence. Qed.

(** [SanitizeName] yields only portable-safe characters, so no path
    separator can survive in a log file or container name, leaves an already
    safe name alone, and is idempotent. *)
Theorem SanitizeName_correct s :
  safe_name (SanitizeName s) /\
  (safe_name s -> SanitizeName s = s) /\
  SanitizeName (SanitizeName s) = SanitizeName s.
Proof.
  assert (forall s, safe_name s -> SanitizeName s = s) as Hid.
  { intros s' H. unfold SanitizeName, runes. rewrite <- length_to_bytes, runes_safe by done.
    rewrite map_map. rewrite <- (of_to_bytes s') at 2. f_equal.
    rewrite <- map_id. apply map_ext_in. intros a Ha%list_elem_of_In.
    eapply Forall_forall in H; [|exact Ha]. unfold safe_byte in H. rewrite H. apply val_byte_val. }
  split_and!; auto using SanitizeName_safe.
Qed.

(** ** Cutting *)

Lemma cut_at_spec sep b :
  match cut_at sep b with
  | Some (x, y) => b = x ++ sep :: y /\ sep ∉ x
  | None => sep ∉ b
  end.
Proof.
  induction b as [|a b IH]; cbn [cut_at]; [apply not_elem_of_nil|].
  destruct (Ascii.eqb_spec a sep) as [->|Hne]; [split; [done|apply not_elem_of_nil]|].
  destruct (cut_at sep b) as [[x y]|].
  - destruct IH as [-> Hx]. split; [done|]. apply not_elem_of_cons. auto.
  - apply not_elem_of_cons. auto.
Qed.

Lemma cut_at_app sep x y : sep ∉ x -> cut_at sep (x ++ sep :: y) = Some (x, y).
Proof.
  induction x as [|a x IH]; intros H; cbn [app cut_at].
  - by rewrite Ascii.eqb_refl.
  - apply not_elem_of_cons in H as [Ha Hx]. destruct (Ascii.eqb_spec a sep); [congruence|]. by rewrite IH.
Qed.

Lemma strip_prefix_spec p b r : strip_prefix p b = Some r <-> b = p ++ r.
Proof.
  revert b. induction p as [|a p IH]; intros b; cbn [strip_prefix app]; [split; congruence|].
  destruct b as [|c b]; [split; done|].
  destruct (Ascii.eqb_spec a c) as [->|Hne]; [rewrite IH|]; split; congruence.
Qed.

Lemma of_bytes_cons a b : String a (of_bytes b) = of_bytes (a :: b).
Proof. done. Qed.

Lemma to_bytes_app s t : to_bytes (s +:+ t) = to_bytes s ++ to_bytes t.
Proof. induction s as [|a s IH]; simpl; [done|]. unfold to_bytes in *. by rewrite IH. Qed.
