(* ===== verification/Core.v ===== *)
(** The shared queue, check and deployment vocabulary ([src/internal/core]):
    candidates, check results, run records, events and the emit-site contract.

    Times and durations are nanosecond counts in [Z]; the zero time is [0]. An
    [error] is [option string], with [None] for nil. *)
From S2P Require Import Prelude.

Open Scope string_scope.
Open Scope list_scope.
Open Scope Z_scope.

(** src/internal/core/types.go:9-34 [Candidate] *)
Record Candidate := mkCandidate {
  c_AdmissionBlocked : string;
  c_SkipChecks : bool;
  c_OverridePause : bool;
  c_Requester : string;
  c_RequestReason : string;
  c_EmergencyID : string;
  c_RequestID : string;
  c_RequestedCount : Z;
  c_Ref : string;
  c_Target : string;
  c_User : string;
  c_Topic : string;
  c_SHA : string;
  c_Source : string;
  c_SourceBase : string;
  c_Message : string;
  c_ReviewURL : string;
  c_Version : string;
  c_DependsOn : string;
  c_Urgent : bool;
  c_Priority : string;
  c_Preempt : bool;
}.

#[export] Instance Candidate_eq_dec : EqDecision Candidate.
Proof. solve_decision. Defined.

#[export] Instance Candidate_eta : Eta Candidate := fun c => mkCandidate
  (c_AdmissionBlocked c) (c_SkipChecks c) (c_OverridePause c) (c_Requester c)
  (c_RequestReason c) (c_EmergencyID c) (c_RequestID c) (c_RequestedCount c)
  (c_Ref c) (c_Target c) (c_User c) (c_Topic c) (c_SHA c) (c_Source c)
  (c_SourceBase c) (c_Message c) (c_ReviewURL c) (c_Version c) (c_DependsOn c)
  (c_Urgent c) (c_Priority c) (c_Preempt c).

(** [Candidate{}], Go's zero value. *)
Definition zeroCandidate : Candidate :=
  mkCandidate "" false false "" "" "" "" 0 "" "" "" "" "" "" "" "" "" "" "" false "" false.

(** src/internal/core/types.go:37-46 [TrialMerge] *)
Record TrialMerge := mkTrialMerge {
  tm_Clean : bool;
  tm_TreeOID : string;
  tm_Conflicts : list string;
}.

(** src/internal/core/types.go:49-134 [CheckJob] The fields the queue and the
    broker set; the service specifications' bytes and the log path are file
    system matters and are left out. *)
Record CheckJob := mkCheckJob {
  j_HistoryMtimes : bool;
  j_ServiceNeeds : list string;
  j_Priority : string;
  j_PreviousExecution : string;
  j_TestResults : string;
  j_RetryCommand : list string;
  j_RetryTests : list string;
  j_VerificationID : string;
  j_InputsCapture : bool;
  j_Candidates : list Candidate;
  j_RunID : string;
  j_Target : string;
  j_Name : string;
  j_Command : list string;
  j_Executor : string;
  j_OperatorOwned : bool;
  j_ImageBuild : bool;
  j_Image : string;
  j_ReceiptCapture : bool;
  j_ReceiptMaxBytes : Z;
  j_DeployEnv : string;
  j_DeployNode : string;
  j_DeployedSHA : string;
  j_BaseSHA : string;
  j_MergeSHA : string;
  j_Candidate : Candidate;
}.

#[export] Instance CheckJob_eq_dec : EqDecision CheckJob.
Proof. solve_decision. Defined.

#[export] Instance CheckJob_eta : Eta CheckJob := fun j => mkCheckJob (j_HistoryMtimes j)
  (j_ServiceNeeds j) (j_Priority j) (j_PreviousExecution j) (j_TestResults j)
  (j_RetryCommand j) (j_RetryTests j) (j_VerificationID j) (j_InputsCapture j)
  (j_Candidates j) (j_RunID j) (j_Target j) (j_Name j) (j_Command j) (j_Executor j)
  (j_OperatorOwned j) (j_ImageBuild j) (j_Image j) (j_ReceiptCapture j)
  (j_ReceiptMaxBytes j) (j_DeployEnv j) (j_DeployNode j) (j_DeployedSHA j) (j_BaseSHA j)
  (j_MergeSHA j) (j_Candidate j).

Definition zeroCheckJob : CheckJob :=
  mkCheckJob false [] "" "" "" [] [] "" false [] "" "" "" [] "" false false "" false 0 "" "" "" "" ""
    zeroCandidate.

(** src/internal/core/types.go:137-159 [CheckStatus] *)
Inductive CheckStatus :=
  | CheckFailed | CheckPassed | CheckSkipped | CheckBlocked | CheckWaived.

#[export] Instance CheckStatus_eq_dec : EqDecision CheckStatus.
Proof. solve_decision. Defined.

(** src/internal/core/tests.go:5-9 [TestCase] *)
Record TestCase := mkTestCase { tc_ID : string; tc_Status : string; tc_Message : string }.

#[export] Instance TestCase_eq_dec : EqDecision TestCase.
Proof. solve_decision. Defined.

(** src/internal/core/tests.go:11-19 [TestAttempt] *)
Record TestAttempt := mkTestAttempt {
  ta_LogDigest : string;
  ta_ExecutionID : string;
  ta_Worker : string;
  ta_Command : list string;
  ta_LogPath : string;
  ta_Number : Z;
  ta_Tests : list TestCase;
}.

#[export] Instance TestAttempt_eq_dec : EqDecision TestAttempt.
Proof. solve_decision. Defined.

(** src/internal/core/types.go:164-232 [CheckResult] The receipt is [None] for
    a nil slice, which is distinct from an empty one. *)
Record CheckResult := mkCheckResult {
  r_ExecutionID : string;
  r_Worker : string;
  r_Tests : list TestCase;
  r_TestAttempts : list TestAttempt;
  r_InputsKey : string;
  r_VerificationID : string;
  r_ExecutedRun : string;
  r_ExecutedSHA : string;
  r_Reused : bool;
  r_SuspectedRefs : list string;
  r_FailureKind : string;
  r_Name : string;
  r_Image : string;
  r_Receipt : option string;
  r_Seq : Z;
  r_Command : list string;
  r_Status : CheckStatus;
  r_Output : string;
  r_LogPath : string;
  r_Duration : Z;
  r_Waited : Z;
  r_Materialized : Z;
  r_PeakRSS : Z;
  r_UserCPU : Z;
  r_SysCPU : Z;
  r_BlockedBy : list string;
  r_Err : option string;
}.

#[export] Instance CheckResult_eq_dec : EqDecision CheckResult.
Proof. solve_decision. Defined.

#[export] Instance CheckResult_eta : Eta CheckResult := fun r => mkCheckResult
  (r_ExecutionID r) (r_Worker r) (r_Tests r) (r_TestAttempts r) (r_InputsKey r)
  (r_VerificationID r) (r_ExecutedRun r) (r_ExecutedSHA r) (r_Reused r)
  (r_SuspectedRefs r) (r_FailureKind r) (r_Name r) (r_Image r) (r_Receipt r)
  (r_Seq r) (r_Command r) (r_Status r) (r_Output r) (r_LogPath r) (r_Duration r)
  (r_Waited r) (r_Materialized r) (r_PeakRSS r) (r_UserCPU r) (r_SysCPU r)
  (r_BlockedBy r) (r_Err r).

(** [CheckResult{}]: an unassigned result is [CheckFailed]. *)
Definition zeroCheckResult : CheckResult :=
  mkCheckResult "" "" [] [] "" "" "" "" false [] "" "" "" None 0 [] CheckFailed "" "" 0 0 0 0 0 0
    [] None.

(** src/internal/core/green.go:25-27 [NodeGreen] *)
Definition NodeGreen (res : CheckResult) : bool :=
  match r_Err res, r_Status res with
  | None, (CheckPassed | CheckSkipped) => true
  | _, _ => false
  end.

Lemma NodeGreen_true res :
  NodeGreen res = true <->
  r_Err res = None /\ (r_Status res = CheckPassed \/ r_Status res = CheckSkipped).
Proof.
  unfold NodeGreen. destruct (r_Err res), (r_Status res); split; try done;
    intros; destruct_and?; destruct_or?; try done; auto.
Qed.

(** src/internal/core/types.go:299-326 [Outcome] *)
Inductive Outcome :=
  | OutcomeLanded | OutcomeRejected | OutcomeConflict | OutcomeSkipped | OutcomeError.

#[export] Instance Outcome_eq_dec : EqDecision Outcome.
Proof. solve_decision. Defined.

(** src/internal/core/types.go:332-389 [RunRecord] *)
Record RunRecord := mkRunRecord {
  rr_RunID : string;
  rr_Target : string;
  rr_Candidate : Candidate;
  rr_BaseOID : string;
  rr_MergeSHA : string;
  rr_Trial : TrialMerge;
  rr_Checks : list CheckResult;
  rr_Outcome : Outcome;
  rr_Detail : string;
  rr_StartedAt : Z;
  rr_EndedAt : Z;
  rr_BatchID : string;
  rr_Position : Z;
  rr_BatchSize : Z;
  rr_Speculated : bool;
  rr_Recovered : bool;
  rr_ReceiptRef : string;
  rr_ReceiptBlob : string;
  rr_ReceiptPublished : string;
}.

#[export] Instance RunRecord_eta : Eta RunRecord := fun r => mkRunRecord
  (rr_RunID r) (rr_Target r) (rr_Candidate r) (rr_BaseOID r) (rr_MergeSHA r)
  (rr_Trial r) (rr_Checks r) (rr_Outcome r) (rr_Detail r) (rr_StartedAt r)
  (rr_EndedAt r) (rr_BatchID r) (rr_Position r) (rr_BatchSize r) (rr_Speculated r)
  (rr_Recovered r) (rr_ReceiptRef r) (rr_ReceiptBlob r) (rr_ReceiptPublished r).

Definition zeroTrial : TrialMerge := mkTrialMerge false "" [].

(** [RunRecord{}]. *)
Definition zeroRunRecord : RunRecord :=
  mkRunRecord "" "" zeroCandidate "" "" zeroTrial [] OutcomeLanded "" 0 0 "" 0 0 false false
    "" "" "".

(** src/internal/core/failure.go:9-17 [FirstFailure] *)
Fixpoint FirstFailure_in (checks : list CheckResult) : option CheckResult :=
  match checks with
  | [] => None
  | cr :: rest =>
      if bool_decide (r_Status cr = CheckFailed) || bool_decide (r_Err cr <> None)
      then Some cr else FirstFailure_in rest
  end.

(** src/internal/core/failure.go:9-17 [FirstFailure] *)
Definition FirstFailure (r : RunRecord) : option CheckResult := FirstFailure_in (rr_Checks r).

(** src/internal/core/types.go:398-557 [EventKind] *)
Inductive EventKind :=
  | EventQueued | EventTrialClean | EventTrialConflict | EventCheckStarted
  | EventCheckFinished | EventLanded | EventRejected | EventSkipped | EventError
  | EventIgnoredRef | EventHookFinished | EventHookStarted | EventHookSkipped
  | EventTrialMerged | EventVerified | EventRetryRequested | EventDeployStarted
  | EventDeployNodeFinished | EventDeployFinished.

#[export] Instance EventKind_eq_dec : EqDecision EventKind.
Proof. solve_decision. Defined.

(** src/internal/core/types.go:653-701 [DeployRecord] *)
Record DeployRecord := mkDeployRecord {
  dr_Env : string;
  dr_RunID : string;
  dr_DeploySHA : string;
  dr_DeployedSHA : string;
  dr_Nodes : list CheckResult;
  dr_Outcome : Outcome;
  dr_Culprit : string;
  dr_Detail : string;
  dr_StartedAt : Z;
  dr_EndedAt : Z;
}.

(** src/internal/core/types.go:564-641 [Event] *)
Record Event := mkEvent {
  e_Kind : EventKind;
  e_At : Z;
  e_Target : string;
  e_Candidate : Candidate;
  e_RunID : string;
  e_CheckName : string;
  e_HookIndex : Z;
  e_HookCount : Z;
  e_Check : option CheckResult;
  e_Record : option RunRecord;
  e_MergeSHA : string;
  e_DeployEnv : string;
  e_DeploySHA : string;
  e_DeployedSHA : string;
  e_Deploy : option DeployRecord;
  e_Detail : string;
}.

#[export] Instance Event_eta : Eta Event := fun e => mkEvent
  (e_Kind e) (e_At e) (e_Target e) (e_Candidate e) (e_RunID e) (e_CheckName e)
  (e_HookIndex e) (e_HookCount e) (e_Check e) (e_Record e) (e_MergeSHA e)
  (e_DeployEnv e) (e_DeploySHA e) (e_DeployedSHA e) (e_Deploy e) (e_Detail e).

(** An event with every field after the run identity at its zero value. *)
Definition event (k : EventKind) (at' : Z) (target : string) (c : Candidate) (run : string) : Event :=
  mkEvent k at' target c run "" 0 0 None None "" "" "" "" None "".

(** src/internal/core/events.go:23-32 [TerminalKind] *)
Definition TerminalKind (k : EventKind) : bool :=
  match k with
  | EventLanded | EventRejected | EventTrialConflict | EventSkipped | EventError => true
  | EventDeployFinished => true
  | _ => false
  end.

(** src/internal/core/events.go:36-43 [DeployKind] *)
Definition DeployKind (k : EventKind) : bool :=
  match k with
  | EventDeployStarted | EventDeployNodeFinished | EventDeployFinished => true
  | _ => false
  end.

Definition isSome {A} (o : option A) : bool := match o with Some _ => true | None => false end.

(** src/internal/core/events.go:57-131 [ValidateEvent] The error is the message
    without its formatted event kind. *)
Definition ValidateEvent (ev : Event) : option string :=
  let k := e_Kind ev in
  if TerminalKind k && negb (DeployKind k) && negb (isSome (e_Record ev)) then
    Some "is terminal and must carry a Record"
  else if negb (TerminalKind k) && isSome (e_Record ev) then
    Some "is not terminal and must not carry a Record"
  else
  let check :=
    match k with
    | EventCheckFinished | EventHookFinished | EventDeployNodeFinished =>
        if negb (isSome (e_Check ev)) then Some "must carry the finished Check"
        else if String.eqb (e_CheckName ev) "" then Some "must name what finished"
        else None
    | _ => if isSome (e_Check ev) then Some "must not carry a Check" else None
    end in
  match check with
  | Some err => Some err
  | None =>
  if negb (DeployKind k) then
    if isSome (e_Deploy ev) then
      Some "is not a deploy event and must not carry a DeployRecord"
    else if negb (String.eqb (e_DeployEnv ev) "") || negb (String.eqb (e_DeploySHA ev) "")
            || negb (String.eqb (e_DeployedSHA ev) "") then
      Some "is not a deploy event and must not carry deploy coordinates"
    else None
  else if isSome (e_Record ev) then Some "must not carry a RunRecord"
  else if String.eqb (e_DeployEnv ev) "" then Some "must carry DeployEnv"
  else if String.eqb (e_RunID ev) "" then Some "must carry the deploy RunID"
  else if String.eqb (e_DeploySHA ev) "" then Some "must carry DeploySHA"
  else if negb (bool_decide (e_Candidate ev = zeroCandidate)) then
    Some "must not carry a Candidate: a deploy lane has no candidate ref"
  else
    match k, e_Deploy ev with
    | EventDeployFinished, None => Some "is terminal and must carry a DeployRecord"
    | EventDeployFinished, Some d =>
        if negb (String.eqb (dr_Env d) (e_DeployEnv ev)) || negb (String.eqb (dr_RunID d) (e_RunID ev))
           || negb (String.eqb (dr_DeploySHA d) (e_DeploySHA ev))
           || negb (String.eqb (dr_DeployedSHA d) (e_DeployedSHA ev)) then
          Some "disagrees with its DeployRecord about the run's identity"
        else None
    | _, Some _ => Some "is not terminal and must not carry a DeployRecord"
    | _, None => None
    end
  end.

(** src/internal/queue/landing.go:609-622 [eventKindForOutcome] *)
Definition eventKindForOutcome (o : Outcome) : EventKind :=
  match o with
  | OutcomeLanded => EventLanded
  | OutcomeRejected => EventRejected
  | OutcomeConflict => EventTrialConflict
  | OutcomeSkipped => EventSkipped
  | OutcomeError => EventError
  end.

(** src/internal/queue/reconcile.go:260-267 [isRedOutcome] *)
Definition isRedOutcome (o : Outcome) : bool :=
  match o with
  | OutcomeRejected | OutcomeConflict | OutcomeError => true
  | _ => false
  end.

(** An event of the shape the queue's emit sites build for a terminal record. *)
Lemma terminal_event_valid o now target c run rec detail :
  ValidateEvent (event (eventKindForOutcome o) now target c run
                   <| e_Record := Some rec |> <| e_Detail := detail |>) = None.
Proof. by destruct o. Qed.

#[export] Hint Resolve terminal_event_valid : gauntlet.
