(* ===== verification/Slots.v ===== *)
(** The daemon-wide execution slots ([src/internal/core/slots.go]): a counting
    semaphore with a reserve that only urgent work may use, and the waiters of
    its blocking [Acquire].

    [changed] is the channel a [Release] closes to wake every waiter; it is
    modelled by a generation number, so that a waiter holding the channel of an
    older generation is exactly a waiter whose channel is closed. *)
From S2P Require Import Prelude.

(** src/internal/core/slots.go:10-14 [Slots] *)
Record Slots := mkSlots {
  sl_limit : Z;
  sl_reserve : Z;
  sl_used : Z;
  sl_changed : nat;
}.

(** src/internal/core/slots.go:18-23 [NewReservedSlots] [None] is the panic. *)
Definition NewReservedSlots (n reserve : Z) : option Slots :=
  if (n <=? 0) || (reserve <? 0) || (n <=? reserve) then None
  else Some (mkSlots n reserve 0 0).

(** src/internal/core/slots.go:16-16 [NewSlots] *)
Definition NewSlots (n : Z) : option Slots := NewReservedSlots n 0.

(** src/internal/core/slots.go:36-46 [acquire] *)
Definition acquire (s : Slots) (urgent : bool) : bool * Slots :=
  let limit := if urgent then sl_limit s else sl_limit s - sl_reserve s in
  if limit <=? sl_used s then (false, s)
  else (true, mkSlots (sl_limit s) (sl_reserve s) (sl_used s + 1) (sl_changed s)).

(** src/internal/core/slots.go:27-34 [TryAcquirePriority] A nil receiver is
    [None] and is unlimited. *)
Definition TryAcquirePriority (os : option Slots) (urgent : bool) : bool * option Slots :=
  match os with
  | None => (true, None)
  | Some s => let '(ok, s') := acquire s urgent in (ok, Some s')
  end.

(** src/internal/core/slots.go:25-25 [TryAcquire] *)
Definition TryAcquire (os : option Slots) : bool * option Slots :=
  TryAcquirePriority os false.

(** src/internal/core/slots.go:72-84 [Release] The outer [None] is the panic. *)
Definition Release (os : option Slots) : option (option Slots) :=
  match os with
  | None => Some None
  | Some s =>
      if sl_used s =? 0 then None
      else Some (Some (mkSlots (sl_limit s) (sl_reserve s) (sl_used s - 1) (S (sl_changed s))))
  end.

(** src/internal/core/slots.go:86-93 [InUse] *)
Definition InUse (os : option Slots) : Z :=
  match os with None => 0 | Some s => sl_used s end.

(** src/internal/core/slots.go:96-103 [Saturated] *)
Definition Saturated (os : option Slots) : bool :=
  match os with None => false | Some s => sl_limit s - sl_reserve s <=? sl_used s end.

(** Where one call of the blocking [Acquire] stands: at the head of its loop,
    blocked in the select on the channel it read, or returned. *)
Inductive Waiter :=
  | WaitLoop
  | WaitSelect (ch : nat)
  | WaitGot
  | WaitErr (err : string).

(** src/internal/core/slots.go:48-69 [Acquire] One iteration of the loop up to
    the select, under the lock; [ctxErr] is [ctx.Err()]. *)
Definition acquire_iter (ctxErr : option string) (s : Slots) : Waiter * Slots :=
  match ctxErr with
  | Some e => (WaitErr e, s)
  | None =>
      let '(ok, s') := acquire s false in
      if ok then (WaitGot, s') else (WaitSelect (sl_changed s), s)
  end.

(** The semaphore shared by non-blocking callers, blocked callers and
    releasing holders: every interleaving of their critical sections. *)
Inductive slots_step : Slots * list Waiter -> Slots * list Waiter -> Prop :=
  | step_try s ws urgent :
      slots_step (s, ws) (snd (acquire s urgent), ws)
  | step_call s ws :
      slots_step (s, ws) (s, ws ++ [WaitLoop])
  | step_iter s ws i ctxErr :
      ws !! i = Some WaitLoop ->
      slots_step (s, ws)
        (snd (acquire_iter ctxErr s), <[i := fst (acquire_iter ctxErr s)]> ws)
  | step_wake s ws i ch :
      ws !! i = Some (WaitSelect ch) -> ch <> sl_changed s ->
      slots_step (s, ws) (s, <[i := WaitLoop]> ws)
  | step_cancel s ws i ch e :
      ws !! i = Some (WaitSelect ch) ->
      slots_step (s, ws) (s, <[i := WaitErr e]> ws)
  | step_release s ws s' :
      Release (Some s) = Some (Some s') ->
      slots_step (s, ws) (s', ws).

(** Capacity is within the limits the constructor checked. *)
Definition slots_ok (s : Slots) : Prop :=
  0 <= sl_reserve s < sl_limit s /\ 0 <= sl_used s <= sl_limit s.

(** A blocked caller holds either a closed channel or the current one, and in
    the latter case there is still no ordinary slot for it. *)
Definition waiter_ok (s : Slots) (w : Waiter) : Prop :=
  match w with
  | WaitSelect ch =>
      (ch < sl_changed s)%nat \/
      (ch = sl_changed s /\ Saturated (Some s) = true)
  | _ => True
  end.

Definition sys_ok (st : Slots * list Waiter) : Prop :=
  slots_ok (fst st) /\ Forall (waiter_ok (fst st)) (snd st).

Section SlotsLemmas.
Implicit Types (s : Slots) (ws : list Waiter) (urgent : bool).

Lemma acquire_cases s urgent :
  let limit := if urgent then sl_limit s else sl_limit s - sl_reserve s in
  (limit <= sl_used s /\ acquire s urgent = (false, s)) \/
  (sl_used s < limit /\
   acquire s urgent =
     (true, mkSlots (sl_limit s) (sl_reserve s) (sl_used s + 1) (sl_changed s))).
Proof. unfold acquire. destruct urgent; case_match; [left|right|left|right]; split; auto; lia. Qed.

Lemma acquire_ok s urgent : slots_ok s -> slots_ok (snd (acquire s urgent)).
Proof.
  unfold slots_ok. intros H.
  destruct (acquire_cases s urgent) as [[? ->]|[? ->]]; simpl in *; destruct urgent; lia.
Qed.

Lemma Release_ok s s' :
  Release (Some s) = Some (Some s') -> slots_ok s ->
  slots_ok s' /\ sl_used s' = sl_used s - 1 /\ sl_changed s' = S (sl_changed s) /\
  sl_limit s' = sl_limit s /\ sl_reserve s' = sl_reserve s.
Proof.
  unfold Release, slots_ok. case_match; intros; simplify_eq; simpl; lia.
Qed.

Lemma waiter_ok_grow s s' w :
  sl_limit s' = sl_limit s -> sl_reserve s' = sl_reserve s ->
  ((sl_changed s < sl_changed s')%nat \/
   (sl_changed s' = sl_changed s /\ sl_used s <= sl_used s')) ->
  waiter_ok s w -> waiter_ok s' w.
Proof.
  intros Hl Hr H. destruct w; simpl; auto. rewrite Hl, Hr.
  destruct H as [H|[-> H]]; intros [?|[-> ?]]; try (left; lia). right. lia.
Qed.

Lemma waiters_acquire s ws urgent :
  Forall (waiter_ok s) ws -> Forall (waiter_ok (snd (acquire s urgent))) ws.
Proof.
  intros Hw. eapply Forall_impl; [exact Hw|]. intros w.
  destruct (acquire_cases s urgent) as [[? ->]|[? ->]]; simpl; [done|].
  apply waiter_ok_grow; simpl; auto. right; lia.
Qed.

Lemma acquire_iter_spec ctxErr s :
  snd (acquire_iter ctxErr s) = s \/ snd (acquire_iter ctxErr s) = snd (acquire s false).
Proof.
  unfold acquire_iter. destruct ctxErr; simpl; auto.
  destruct (acquire s false) as [[] s']; simpl; auto.
Qed.

Lemma acquire_iter_waiter ctxErr s :
  waiter_ok (snd (acquire_iter ctxErr s)) (fst (acquire_iter ctxErr s)).
Proof.
  unfold acquire_iter. destruct ctxErr; simpl; auto.
  destruct (acquire_cases s false) as [[? ->]|[? ->]]; simpl; auto.
  right. split; auto. lia.
Qed.

Lemma sys_step_ok st st' : slots_step st st' -> sys_ok st -> sys_ok st'.
Proof.
  intros Hst [Hs Hw]. destruct Hst; simpl in *; split; simpl; auto using acquire_ok.
  all: try (apply Forall_insert; simpl; auto; fail).
  - auto using waiters_acquire.
  - apply Forall_app; split; auto. repeat constructor.
  - destruct (acquire_iter_spec ctxErr s) as [->| ->]; auto using acquire_ok.
  - apply Forall_insert; auto using acquire_iter_waiter.
    destruct (acquire_iter_spec ctxErr s) as [->| ->]; auto using waiters_acquire.
  - eapply Release_ok; eauto.
  - eapply Forall_impl; [exact Hw|]. intros w.
    destruct (Release_ok _ _ H Hs) as (_ & _ & Hc & ? & ?).
    apply waiter_ok_grow; auto. left; lia.
Qed.
End SlotsLemmas.

#[export] Hint Resolve acquire_ok waiters_acquire : gauntlet.

(** C30. Across every interleaving of non-blocking acquires, blocking acquires,
    wake-ups, cancellations and releases of a semaphore built by
    [NewReservedSlots], the used count stays within the limit, and no blocked
    [Acquire] is ever asleep on a live channel while an ordinary slot is free
    (no lost wake-up). *)
Theorem slots_reachable_safe n reserve s0 s ws :
  NewReservedSlots n reserve = Some s0 ->
  rtc slots_step (s0, []) (s, ws) ->
  0 <= sl_used s <= sl_limit s /\
  (forall i ch, ws !! i = Some (WaitSelect ch) -> ch = sl_changed s ->
     sl_limit s - sl_reserve s <= sl_used s).
Proof.
  intros Hnew Hrtc.
  assert (sys_ok (s0, [])) as H0.
  { revert Hnew. unfold NewReservedSlots. case_match; intros; simplify_eq.
    split; [|constructor]. unfold slots_ok; simpl. lia. }
  assert (sys_ok (s, ws)) as [[_ Hu] Hw].
  { revert H0. generalize dependent (s, ws). generalize (s0, [] : list Waiter).
    clear. induction 1; eauto using sys_step_ok. }
  split; [done|]. intros i ch Hi ->. simpl in *.
  rewrite Forall_lookup in Hw. specialize (Hw _ _ Hi). simpl in Hw. lia.
Qed.

Lemma slots_reachable_safe_witness :
  NewReservedSlots 3 1 = Some (mkSlots 3 1 0 0) /\
  rtc slots_step (mkSlots 3 1 0 0, []) (mkSlots 3 1 2 0, [WaitSelect 0]) /\
  (0 <= 2 <= 3).
Proof.
  assert (H1 : NewReservedSlots 3 1 = Some (mkSlots 3 1 0 0)) by reflexivity.
  assert (H2 : rtc slots_step (mkSlots 3 1 0 0, []) (mkSlots 3 1 2 0, [WaitSelect 0])).
  { eapply rtc_l; [apply (step_try _ _ false)|]. simpl.
    eapply rtc_l; [apply (step_try _ _ false)|]. simpl.
    eapply rtc_l; [apply step_call|]. simpl.
    eapply rtc_l; [apply (step_iter _ _ 0%nat None); reflexivity|].
    apply rtc_refl. }
  split; [exact H1|]. split; [exact H2|].
  exact (proj1 (slots_reachable_safe 3 1 _ _ _ H1 H2)).
Defined.

(** Ordinary acquires and releases in any order, counting what succeeds. *)
Fixpoint ordinary_run (ops : list bool) (s : Slots) : option Slots :=
  match ops with
  | [] => Some s
  | true :: ops => ordinary_run ops (snd (acquire s false))
  | false :: ops =>
      match Release (Some s) with Some (Some s') => ordinary_run ops s' | _ => None end
  end.

(** Successive urgent acquires, with the number that succeed. *)
Fixpoint urgent_grants (n : nat) (s : Slots) : nat :=
  match n with
  | O => O
  | S n => let '(ok, s') := acquire s true in
           ((if ok then 1 else 0) + urgent_grants n s')%nat
  end.

Lemma ordinary_run_keeps ops s s' :
  ordinary_run ops s = Some s' -> slots_ok s ->
  sl_used s <= sl_limit s - sl_reserve s ->
  slots_ok s' /\ sl_limit s' = sl_limit s /\ sl_reserve s' = sl_reserve s /\
  sl_used s' <= sl_limit s' - sl_reserve s'.
Proof.
  revert s. induction ops as [|[] ops IH]; cbn [ordinary_run]; intros s H Hok Hu.
  - simplify_eq. auto.
  - destruct (acquire_cases s false) as [[? E]|[? E]]; rewrite E in H; simpl in H.
    + eauto.
    + apply IH in H; simpl in *; [done| |lia]. unfold slots_ok in *; simpl; lia.
  - destruct (Release (Some s)) as [[s1|]|] eqn:E; try done.
    destruct (Release_ok _ _ E Hok) as (? & ? & ? & E1 & E2).
    apply IH in H; [rewrite E1, E2 in H; done|done|lia].
Qed.

Lemma urgent_grants_all n s :
  sl_used s + Z.of_nat n <= sl_limit s -> urgent_grants n s = n.
Proof.
  revert s. induction n as [|n IH]; intros s H; [done|].
  cbn [urgent_grants]. destruct (acquire_cases s true) as [[? E]|[? E]]; rewrite E; simpl in *.
  - lia.
  - rewrite IH; simpl; lia.
Qed.

(** The reserve works: whatever ordinary work acquires and releases, as many
    urgent acquisitions as there are reserved slots succeed afterwards. *)
Theorem slots_reserve_for_urgent n reserve s0 ops s :
  NewReservedSlots n reserve = Some s0 ->
  ordinary_run ops s0 = Some s ->
  urgent_grants (Z.to_nat reserve) s = Z.to_nat reserve.
Proof.
  unfold NewReservedSlots. case_match eqn:E; intros Hn Hrun; simplify_eq.
  apply ordinary_run_keeps in Hrun as (? & Hl & Hr & Hu); simpl in *.
  - apply urgent_grants_all. lia.
  - unfold slots_ok; simpl; lia.
  - lia.
Qed.

Lemma slots_reserve_for_urgent_witness :
  ordinary_run [true; true; true; false; true] (mkSlots 4 2 0 0) = Some (mkSlots 4 2 2 1) /\
  urgent_grants 2 (mkSlots 4 2 2 1) = 2%nat.
Proof.
  split; [reflexivity|].
  apply (slots_reserve_for_urgent 4 2 (mkSlots 4 2 0 0) [true; true; true; false; true]);
    reflexivity.
Defined.
