(* ===== verification/Daemon.v ===== *)
(** The queue daemon's state ([src/internal/queue]: daemon.go, controls.go,
    checkpoint.go, circuit.go, autoretry.go, command.go): runs and lanes,
    persisted controls, parks, the infrastructure circuit breaker, automatic
    retries, and the scheduler checkpoint that survives a restart.

    Effects are explicit. [d_events] is what the channels were sent, [d_disk] is
    the content of the control file, [d_writes] the outcomes the environment
    gives to the next writes of it (success once exhausted), and [d_now] the
    clock during the current step. Maps that Go clones before editing are
    persistent here, so [clone] and [cloneNested] are the identity. *)
From S2P Require Import Prelude Core Slots.

Open Scope string_scope.
Open Scope list_scope.
Open Scope Z_scope.

(** ** Configuration *)

(** src/internal/config/checks.go:99-149 [Check] A nil slice is [None] where the
    code tells it from an empty one. *)
Record Check := mkCheck {
  k_TestResults : string;
  k_RetryCommand : option (list string);
  k_Inputs : option (list string);
  k_Name : string;
  k_Command : list string;
  k_Needs : list string;
  k_After : list string;
  k_Executor : string;
  k_Image : string;
}.

#[export] Instance Check_eta : Eta Check := fun k => mkCheck (k_TestResults k)
  (k_RetryCommand k) (k_Inputs k) (k_Name k) (k_Command k) (k_Needs k) (k_After k)
  (k_Executor k) (k_Image k).

(** src/internal/config/daemon.go:696-699 [AdaptiveScheduling] *)
Record AdaptiveScheduling := mkAdaptive { ad_Start : Z; ad_Successes : Z }.

(** src/internal/config/daemon.go:663-694 [Target] The hooks are not used by
    the queue. *)
Record Target := mkTarget {
  t_Name : string;
  t_Branch : string;
  t_Landing : string;
  t_Mode : string;
  t_MaxBatch : Z;
  t_Window : Z;
  t_OnBatchRed : string;
  t_Adaptive : option AdaptiveScheduling;
}.

(** src/internal/queue/reconcile.go:73-73 [targetRefName] *)
Definition targetRefName (t : Target) : string := "refs/heads/" +:+ t_Branch t.

(** src/internal/config/circuit.go:8-13 [CircuitBreaker] *)
Record CircuitBreaker := mkBreaker {
  cb_Threshold : Z;
  cb_Window : Z;
  cb_Backoff : Z;
  cb_MaxBackoff : Z;
}.

(** src/internal/config/circuit.go:29-34 [validate] *)
Definition breaker_validate (c : CircuitBreaker) : bool :=
  negb ((cb_Threshold c <? 2) || (100 <? cb_Threshold c) || (cb_Window c <=? 0)
        || (cb_Backoff c <=? 0) || (cb_MaxBackoff c <? cb_Backoff c)
        || (3600 * 1000000000 <? cb_MaxBackoff c)).

(** src/internal/queue/daemon.go:121-124 [Config] *)
Record ReceiptNotes := mkReceiptNotes { rn_Ref : string; rn_MaxBytes : Z }.

(** ** Persisted controls *)

(** src/internal/core/types.go:707-711 [Revision] *)
Record Revision := mkRevision { rv_Ref : string; rv_SHA : string; rv_Version : string }.

#[export] Instance Revision_eq_dec : EqDecision Revision.
Proof. solve_decision. Defined.

(** src/internal/core/types.go:723-737 [Command] The principal is consumed by
    authorization alone. *)
Record Command := mkCommand {
  m_Priority : string;
  m_Preempt : bool;
  m_Before : string;
  m_After : string;
  m_PlanToken : string;
  m_RequestID : string;
  m_Actor : string;
  m_Reason : string;
  m_OverridePause : bool;
  m_Revisions : list Revision;
  m_Kind : string;
  m_Target : string;
  m_Ref : string;
}.

#[export] Instance Command_eq_dec : EqDecision Command.
Proof. solve_decision. Defined.

#[export] Instance Command_eta : Eta Command := fun m => mkCommand (m_Priority m)
  (m_Preempt m) (m_Before m) (m_After m) (m_PlanToken m) (m_RequestID m) (m_Actor m)
  (m_Reason m) (m_OverridePause m) (m_Revisions m) (m_Kind m) (m_Target m) (m_Ref m).

(** src/internal/queue/adaptive.go:13-25 [Governor] *)
Record Governor := mkGovernor {
  g_Limit : Z;
  g_Clean : Z;
  g_Landed : Z;
  g_Retried : Z;
  g_Failed : Z;
  g_Invalidated : Z;
  g_UsefulSeconds : float64;
  g_WastedSeconds : float64;
  g_Reason : string;
  g_At : Z;
  g_Recent : list string;
}.

#[export] Instance Governor_eta : Eta Governor := fun g => mkGovernor (g_Limit g)
  (g_Clean g) (g_Landed g) (g_Retried g) (g_Failed g) (g_Invalidated g)
  (g_UsefulSeconds g) (g_WastedSeconds g) (g_Reason g) (g_At g) (g_Recent g).

Definition zeroGovernor : Governor :=
  mkGovernor 0 0 0 0 0 0 f64_zero f64_zero "" 0 [].

(** src/internal/queue/prepared.go:12-15 [preparedEntry] *)
Record preparedEntry := mkPrepared {
  pe_RunID : string; pe_Commit : string; pe_Tree : string; pe_At : Z }.

#[export] Instance preparedEntry_eq_dec : EqDecision preparedEntry.
Proof. solve_decision. Defined.

Definition zeroPrepared : preparedEntry := mkPrepared "" "" "" 0.

(** src/internal/queue/scheduling.go:16-19 [priorityEntry] *)
Record priorityEntry := mkPriorityEntry { py_Revision : Revision; py_Class : string }.

(** src/internal/queue/landing.go:579-594 [parkEntry] *)
Record parkEntry := mkPark {
  pk_Version : string;
  pk_SHA : string;
  pk_Outcome : Outcome;
  pk_Reason : string;
  pk_At : Z;
  pk_RunID : string;
}.

#[export] Instance parkEntry_eq_dec : EqDecision parkEntry.
Proof. solve_decision. Defined.

(** src/internal/queue/circuit.go:11-14 [InfrastructureFailure] *)
Record InfrastructureFailure := mkInfra { if_Revision : string; if_At : Z }.

(** src/internal/queue/circuit.go:15-21 [Circuit] *)
Record Circuit := mkCircuit {
  ci_ProbeRunID : string;
  ci_Failures : list InfrastructureFailure;
  ci_Until : Z;
  ci_Backoff : Z;
  ci_Reason : string;
}.

#[export] Instance Circuit_eta : Eta Circuit := fun c =>
  mkCircuit (ci_ProbeRunID c) (ci_Failures c) (ci_Until c) (ci_Backoff c) (ci_Reason c).

Definition zeroCircuit : Circuit := mkCircuit "" [] 0 0 "".

(** src/internal/queue/controls.go:21-25 [Pause] *)
Record Pause := mkPause { pa_Actor : string; pa_Reason : string; pa_At : Z }.

(** src/internal/queue/controls.go:87-90 [controlAudit] *)
Record controlAudit := mkAudit { au_At : Z; au_Command : Command }.

(** src/internal/queue/policy.go:18-23 [PolicyAudit] *)
Record PolicyAudit := mkPolicyAudit {
  po_At : Z;
  po_Target : string;
  po_Phase : string;
  po_Ref : string;
  po_SHA : string;
  po_InputHash : string;
  po_Allow : bool;
  po_Version : string;
  po_Error : string;
}.

(** src/internal/queue/controls.go:27-47 [controlState] *)
Record controlState := mkControls {
  cs_Governors : gmap string Governor;
  cs_Prepared : gmap string preparedEntry;
  cs_Scheduled : gmap string string;
  cs_Priorities : gmap string priorityEntry;
  cs_Enqueued : gmap string Z;
  cs_Checkpoint : bool;
  cs_Order : gmap string (gmap string Z);
  cs_Parks : gmap string (gmap string parkEntry);
  cs_AutoRetried : gmap string (gmap string string);
  cs_ReviewFloor : Z;
  cs_ProcessedReviews : gmap string bool;
  cs_PolicyAudit : list PolicyAudit;
  cs_Circuits : gmap string Circuit;
  cs_Version : Z;
  cs_Pauses : gmap string Pause;
  cs_Emergency : gmap string Command;
  cs_Audit : list controlAudit;
  cs_LastError : string;
  cs_Uncertain : bool;
}.

#[export] Instance controlState_eta : Eta controlState := fun s => mkControls
  (cs_Governors s) (cs_Prepared s) (cs_Scheduled s) (cs_Priorities s) (cs_Enqueued s)
  (cs_Checkpoint s) (cs_Order s) (cs_Parks s) (cs_AutoRetried s) (cs_ReviewFloor s)
  (cs_ProcessedReviews s) (cs_PolicyAudit s) (cs_Circuits s) (cs_Version s) (cs_Pauses s)
  (cs_Emergency s) (cs_Audit s) (cs_LastError s) (cs_Uncertain s).

Definition freshControls : controlState :=
  mkControls ∅ ∅ ∅ ∅ ∅ false ∅ ∅ ∅ 0 ∅ [] ∅ 1 ∅ ∅ [] "" false.

(** src/internal/queue/daemon.go:154-165 [ParkSeed] *)
Record ParkSeed := mkSeed {
  sd_Ref : string; sd_SHA : string; sd_Version : string; sd_Outcome : Outcome;
  sd_Reason : string; sd_At : Z; sd_RunID : string }.

(** src/internal/queue/daemon.go:29-125 [Config] The parts of the configuration
    and of the environment this model uses: [cfg_jsonLen] is the length of the
    JSON encoding of the controls, the [cfg_fmt] functions are [time.Format]. *)
Record Config := mkConfig {
  cfg_Targets : list Target;
  cfg_ControlPath : string;
  cfg_TrialRefs : bool;
  cfg_ReceiptNotes : option ReceiptNotes;
  cfg_AutoRetryErrors : bool;
  cfg_CircuitBreaker : option CircuitBreaker;
  cfg_RemoteExecutorProfile : option (string -> bool);
  cfg_HistoryMtimes : bool;
  cfg_TrialRefPrefix : string;
  cfg_TrialRefRetention : Z;
  cfg_CheckSpec : string;
  cfg_Services : bool;
  cfg_KnownExecutorProfile : option (string -> bool);
  cfg_ImageCapableProfile : option (string -> bool);
  cfg_AllowEmergency : bool;
  cfg_Reviews : bool;
  cfg_SeedParks : option (string -> list ParkSeed);
  cfg_jsonLen : controlState -> Z;
  cfg_fmtRFC3339 : Z -> string;
  cfg_fmtRunID : Z -> string;
}.

(** ** Runs, lanes and the daemon *)

(** src/internal/queue/daemon.go:171-183 [checkInFlight] [f_result] is the
    content of the one-shot result channel, [f_job] the job its worker runs. *)
Record checkInFlight := mkInFlight {
  f_job : CheckJob;
  f_start : Z;
  f_waited : Z;
  f_result : option CheckResult;
}.

(** src/internal/queue/daemon.go:189-197 [runVerdict] *)
Inductive runVerdict := verdictNone | verdictGreen | verdictRejected | verdictErrored.

#[export] Instance runVerdict_eq_dec : EqDecision runVerdict.
Proof. solve_decision. Defined.

(** src/internal/queue/daemon.go:201-205 [runMember] *)
Record runMember := mkMember {
  rm_cand : Candidate;
  rm_mergeOID : string;
  rm_rec : RunRecord;
}.

#[export] Instance runMember_eta : Eta runMember := fun m =>
  mkMember (rm_cand m) (rm_mergeOID m) (rm_rec m).

(** src/internal/queue/daemon.go:213-295 [run] Contexts, spans and the source
    release callback are not state the queue reads back. *)
Record run := mkRun {
  u_abandonedSeconds : float64;
  u_emergencyReason : string;
  u_pauseOverrideReason : string;
  u_controlPrepared : bool;
  u_overridePause : bool;
  u_target : string;
  u_members : list runMember;
  u_baseOID : string;
  u_chainTip : string;
  u_chainTree : string;
  u_predicted : bool;
  u_batchID : string;
  u_runID : string;
  u_checks : list Check;
  u_maxParallel : Z;
  u_inflight : gmap string checkInFlight;
  u_results : gmap string CheckResult;
  u_readyAt : gmap string Z;
  u_culprit : string;
  u_imageRefs : gmap string string;
  u_materialized : bool;
  u_receiptPayload : option string;
  u_receiptProducer : string;
  u_receiptBlobSHA : string;
  u_receiptPublished : string;
  u_isolated : bool;
  u_verdict : runVerdict;
  u_verifiedEmitted : bool;
  u_trialRef : string;
}.

#[export] Instance run_eta : Eta run := fun r => mkRun
  (u_abandonedSeconds r) (u_emergencyReason r) (u_pauseOverrideReason r)
  (u_controlPrepared r) (u_overridePause r) (u_target r) (u_members r) (u_baseOID r)
  (u_chainTip r) (u_chainTree r) (u_predicted r) (u_batchID r) (u_runID r) (u_checks r)
  (u_maxParallel r) (u_inflight r) (u_results r) (u_readyAt r) (u_culprit r)
  (u_imageRefs r) (u_materialized r) (u_receiptPayload r) (u_receiptProducer r)
  (u_receiptBlobSHA r) (u_receiptPublished r) (u_isolated r) (u_verdict r)
  (u_verifiedEmitted r) (u_trialRef r).

(** The remote repository: its refs, and the transport outcome the environment
    gives to the next pushes ([None] delivers the push; [Some (msg, true)]
    loses the acknowledgement of a push that was applied). *)
Record GitRemote := mkGit {
  gr_refs : gmap string string;
  gr_faults : list (option (string * bool));
}.

(** src/internal/queue/daemon.go:317-393 [Daemon] A lane is its list of runs. *)
Record Daemon := mkDaemon {
  d_controls : controlState;
  d_schedulerDirty : bool;
  d_external : gmap string Candidate;
  d_now : Z;
  d_order : gmap string (gmap string Z);
  d_done : gmap string (gmap string parkEntry);
  d_seq : Z;
  d_autoRetried : gmap string (gmap string string);
  d_lanes : gmap string (list run);
  d_urgentBurst : gmap string Z;
  d_batchRecovery : gmap string Z;
  d_batchFallback : gmap string bool;
  d_admission : gmap string Z;
  d_landedPins : gmap string string;
  d_pins : gset string;
  d_draining : bool;
  d_drainSince : Z;
  d_drainDeadline : Z;
  d_drainReq : bool;
  d_drainReqDL : Z;
  d_ignoredRefs : gmap string string;
  d_seeded : gset string;
  d_trialReap : gmap string (string * Z);
  d_tick : Z;
  d_idleSince : Z;
  d_reaperArmed : bool;
  d_runCounter : Z;
  d_slots : option Slots;
  d_git : GitRemote;
  d_disk : option controlState;
  d_writes : list (option string);
  d_events : list Event;
}.

#[export] Instance Daemon_eta : Eta Daemon := fun d => mkDaemon
  (d_controls d) (d_schedulerDirty d) (d_external d) (d_now d) (d_order d) (d_done d)
  (d_seq d) (d_autoRetried d) (d_lanes d) (d_urgentBurst d) (d_batchRecovery d)
  (d_batchFallback d) (d_admission d) (d_landedPins d) (d_pins d) (d_draining d)
  (d_drainSince d) (d_drainDeadline d) (d_drainReq d) (d_drainReqDL d) (d_ignoredRefs d)
  (d_seeded d) (d_trialReap d) (d_tick d) (d_idleSince d) (d_reaperArmed d) (d_runCounter d) (d_slots d) (d_git d) (d_disk d) (d_writes d) (d_events d).

(** [d.order[t]], [d.done[t]], [d.autoRetried[t]]: a missing inner map reads as
    the empty map. *)
Definition order_of (d : Daemon) (t : string) : gmap string Z := d_order d !!! t else ∅.
Definition done_of (d : Daemon) (t : string) : gmap string parkEntry := d_done d !!! t else ∅.
Definition retried_of (d : Daemon) (t : string) : gmap string string :=
  d_autoRetried d !!! t else ∅.
Definition lane_of (d : Daemon) (t : string) : list run := d_lanes d !!! t else [].
