(* ===== verification/Controls.v ===== *)
(** Operations on the daemon's persisted controls ([src/internal/queue]:
    controls.go, checkpoint.go, circuit.go, autoretry.go and the park half of
    landing.go and command.go). *)
From S2P Require Import Prelude Core Slots Daemon.

Open Scope string_scope.
Open Scope list_scope.
Open Scope Z_scope.

Section Controls.
Context (cfg : Config).
Implicit Types (d : Daemon) (c : Candidate) (o : Outcome).

(** ** Saving *)

(** src/internal/queue/controls.go:136-136 [saveControls] *)
Definition maxControlBytes : Z := Z.shiftl 3 20.

(** src/internal/queue/controls.go:134-151 [saveControls] The trimming loop:
    drop the oldest audit entries, then the oldest policy audit entries, until
    the encoding fits; [None] when nothing is left to drop. *)
Fixpoint trimControls (fuel : nat) (next : controlState) : controlState + controlState :=
  if cfg_jsonLen cfg next <=? maxControlBytes then inl next
  else
    match fuel with
    | O => inr next
    | S fuel =>
        match cs_Audit next, cs_PolicyAudit next with
        | _ :: rest, _ => trimControls fuel (next <| cs_Audit := rest |>)
        | [], _ :: rest => trimControls fuel (next <| cs_PolicyAudit := rest |>)
        | [], [] => inr next
        end
    end.

Definition trimFuel (next : controlState) : nat :=
  (length (cs_Audit next) + length (cs_PolicyAudit next))%nat.

(** src/internal/queue/controls.go:131-133 [saveControls] *)
Definition boundAudit (next : controlState) : controlState :=
  if 500 <? Z.of_nat (length (cs_Audit next))
  then next <| cs_Audit := drop (length (cs_Audit next) - 500) (cs_Audit next) |>
  else next.

(** src/internal/queue/controls.go:165-171 [writeControls] The write itself is
    the environment's: the next outcome of [d_writes], success once exhausted. *)
Definition writeControls (next : controlState) (d : Daemon) : option string * Daemon :=
  match d_writes d with
  | Some err :: rest => (Some err, d <| d_writes := rest |>)
  | None :: rest => (None, d <| d_writes := rest |> <| d_disk := Some next |>)
  | [] => (None, d <| d_disk := Some next |>)
  end.

(** src/internal/queue/controls.go:130-163 [saveControls] *)
Definition saveControls (next : controlState) (d : Daemon) : bool * Daemon :=
  let next := boundAudit next in
  match trimControls (trimFuel next) next with
  | inr next =>
      (false, d <| d_controls := next <| cs_LastError := "incident control state exceeds storage limit" |>
                                      <| cs_Uncertain := true |> |>)
  | inl next =>
      let '(err, d) := if String.eqb (cfg_ControlPath cfg) "" then (None, d) else writeControls next d in
      match err with
      | Some e =>
          (false, d <| d_controls := next <| cs_LastError := "cannot persist incident control: " +:+ e |>
                                          <| cs_Uncertain := true |> |>)
      | None => (true, d <| d_controls := next <| cs_Uncertain := false |> |>)
      end
  end.

(** src/internal/queue/controls.go:92-128 [loadControls] [file] is the control
    file, already decoded; [None] when there is none. *)
Definition loadControls (file : option controlState) : option controlState :=
  if String.eqb (cfg_ControlPath cfg) "" then Some freshControls
  else match file with
       | None => Some freshControls
       | Some s => if cs_Version s =? 1 then Some (s <| cs_Uncertain := false |>) else None
       end.

(** ** The scheduler checkpoint *)

#[local] Instance nested_eq_dec {V} `{EqDecision V} : EqDecision (gmap string (gmap string V)) :=
  _.

(** src/internal/queue/checkpoint.go:18-35 [persistScheduler] *)
Definition persistScheduler (d : Daemon) : bool * Daemon :=
  if negb (d_schedulerDirty d) && negb (cs_Uncertain (d_controls d))
     && cs_Checkpoint (d_controls d)
     && bool_decide (d_order d = cs_Order (d_controls d))
     && bool_decide (d_done d = cs_Parks (d_controls d))
     && bool_decide (d_autoRetried d = cs_AutoRetried (d_controls d))
  then (true, d)
  else
    let next := d_controls d in
    let next := if cs_Uncertain next then next <| cs_LastError := "" |> else next in
    let next := next <| cs_Checkpoint := true |> <| cs_Order := d_order d |>
                     <| cs_Parks := d_done d |> <| cs_AutoRetried := d_autoRetried d |> in
    let '(ok, d) := saveControls next d in
    if ok then (true, d <| d_schedulerDirty := false |>) else (false, d).

(** One past the largest sequence number in use. *)
Definition nextSeq (order : gmap string (gmap string Z)) : Z :=
  map_fold (fun _ refs seq =>
    map_fold (fun _ n seq => if seq <=? n then n + 1 else seq) seq refs) 0 order.

(** src/internal/queue/daemon.go:451-490 [New] The state a daemon starts with,
    from the controls it loads. *)
Definition newDaemon (controls : controlState) (slots : option Slots) (git : GitRemote)
    (counter now : Z) (disk : option controlState) : Daemon :=
  mkDaemon controls false ∅ now (cs_Order controls) (cs_Parks controls)
    (nextSeq (cs_Order controls)) (cs_AutoRetried controls) ∅ ∅ ∅ ∅ ∅ ∅ ∅ false
    0 0 false 0 ∅ ∅ ∅ 0 0 false counter
    slots git disk [] [].

(** ** The infrastructure circuit breaker *)

(** src/internal/queue/circuit.go:32-32 [observeInfrastructure] [d.controls.Circuits[target]] *)
Definition circuitOf (d : Daemon) (target : string) : Circuit :=
  cs_Circuits (d_controls d) !!! target else zeroCircuit.

(** src/internal/queue/circuit.go:23-25 [circuitBlocked] *)
Definition circuitBlocked (d : Daemon) (target : string) : bool :=
  d_now d <? ci_Until (circuitOf d target).

(** src/internal/queue/circuit.go:53-76 [observeInfrastructure] One failure of
    [revision] recorded on a circuit. *)
Definition recordFailure (b : CircuitBreaker) (now : Z) (revision : string) (c : Circuit) : Circuit :=
  let cutoff := now - cb_Window b in
  let fresh := filter (fun f => cutoff < if_At f) (ci_Failures c) in
  let duplicate := existsb (fun f => String.eqb (if_Revision f) revision) fresh in
  let c := c <| ci_Failures := if duplicate then fresh else fresh ++ [mkInfra revision now] |> in
  if (cb_Threshold b <=? Z.of_nat (length (ci_Failures c))) || (0 <? ci_Backoff c) then
    let c := if negb (now <? ci_Until c)
             then let back := Z.min (cb_MaxBackoff b) (Z.max (cb_Backoff b) (2 * ci_Backoff c)) in
                  c <| ci_Backoff := back |> <| ci_Until := now + back |>
             else c in
    c <| ci_Reason := "infrastructure failures across " +:+ pretty (Z.of_nat (length (ci_Failures c)))
           +:+ " revisions; next probe after " +:+ cfg_fmtRFC3339 cfg (ci_Until c) |>
  else c.

(** src/internal/queue/circuit.go:37-43 [observeInfrastructure] The probe run's record shows the infrastructure working again. *)
Definition probeHealthy (c : Circuit) (ev : Event) : bool :=
  match e_Record ev with
  | Some rec =>
      (0 <? ci_Backoff c) && negb (String.eqb (e_RunID ev) "")
      && String.eqb (e_RunID ev) (ci_ProbeRunID c)
      && (bool_decide (rr_Outcome rec = OutcomeLanded) || bool_decide (rr_Outcome rec = OutcomeRejected))
      && forallb (fun chk => negb (isSome (r_Err chk))) (rr_Checks rec)
  | None => false
  end.

(** src/internal/queue/circuit.go:33-36 [observeInfrastructure] Whether an event reports an infrastructure failure. *)
Definition infraFailed (ev : Event) : bool :=
  match e_Check ev with
  | Some chk => isSome (r_Err chk)
  | None => match e_Record ev with
            | Some rec => bool_decide (rr_Outcome rec = OutcomeError)
            | None => false
            end
  end.

(** src/internal/queue/circuit.go:26-80 [observeInfrastructure] *)
Definition observeInfrastructure (ev : Event) (d : Daemon) : Daemon :=
  match cfg_CircuitBreaker cfg with
  | None => d
  | Some b =>
      if String.eqb (e_Target ev) "" || String.eqb (c_Ref (e_Candidate ev)) "" then d
      else
        let c := circuitOf d (e_Target ev) in
        if probeHealthy c ev then
          snd (saveControls (d_controls d <| cs_Circuits ::= delete (e_Target ev) |>) d)
        else if negb (infraFailed ev) then d
        else
          let revision := c_Ref (e_Candidate ev) +:+ "@" +:+ c_SHA (e_Candidate ev) in
          let c := recordFailure b (d_now d) revision c in
          snd (saveControls (d_controls d <| cs_Circuits ::= <[e_Target ev := c]> |>) d)
  end.

(** src/internal/queue/daemon.go:698-716 [emit] The channels' own behaviour is
    outside the daemon; [d_events] is what they are sent. *)
Definition emit (ev : Event) (d : Daemon) : Daemon :=
  observeInfrastructure ev d <| d_events ::= (fun l => l ++ [ev]) |>.

Definition emits (evs : list Event) (d : Daemon) : Daemon :=
  fold_left (fun d ev => emit ev d) evs d.

(** src/internal/queue/circuit.go:108-120 [markCircuitProbe] *)
Definition markCircuitProbe (r : run) (d : Daemon) : Daemon :=
  let c := circuitOf d (u_target r) in
  if (ci_Backoff c =? 0) || circuitBlocked d (u_target r)
     || String.eqb (ci_ProbeRunID c) (u_runID r) then d
  else
    match u_members r with
    | m :: _ =>
        if rr_StartedAt (rm_rec m) <? ci_Until c then d
        else snd (saveControls
               (d_controls d <| cs_Circuits ::= <[u_target r := c <| ci_ProbeRunID := u_runID r |>]> |>) d)
    | [] => d
    end.

(** ** Parks and automatic retries *)

(** src/internal/queue/landing.go:600-607 [park] *)
Definition park (target : string) c o (detail runID : string) (d : Daemon) : Daemon :=
  d <| d_done ::= <[target := <[c_Ref c :=
         mkPark (c_Version c) (c_SHA c) o detail (d_now d) runID]> (done_of d target)]> |>.

(** src/internal/queue/command.go:103-131 [clearParkAndRetry] *)
Definition clearParkAndRetry (target ref queuedDetail retryDetail : string) (d : Daemon) : bool * Daemon :=
  match done_of d target !! ref with
  | None => (false, d)
  | Some entry =>
      let d := d <| d_done ::= <[target := delete ref (done_of d target)]> |> in
      let cand := zeroCandidate <| c_Ref := ref |> <| c_Target := target |> <| c_SHA := pk_SHA entry |> in
      let d := emit (event EventQueued (d_now d) target cand "" <| e_Detail := queuedDetail |>) d in
      let d := emit (event EventRetryRequested (d_now d) target cand "" <| e_Detail := retryDetail |>) d in
      (true, d)
  end.

(** src/internal/queue/command.go:89-91 [applyRetry] *)
Definition applyRetry (cmd : Command) (d : Daemon) : Daemon :=
  snd (clearParkAndRetry (m_Target cmd) (m_Ref cmd) "retry: park cleared" "" d).

(** src/internal/queue/autoretry.go:27-27 [autoRetryQueuedDetail] *)
Definition autoRetryQueuedDetail := "auto-retry: park cleared (infra error)".
(** src/internal/queue/autoretry.go:28-28 [autoRetryDetail] *)
Definition autoRetryDetail := "automatic retry: infra error, once per SHA".

(** src/internal/queue/autoretry.go:48-69 [maybeAutoRetry] *)
Definition maybeAutoRetry (target : string) c o (d : Daemon) : Daemon :=
  if negb (bool_decide (o = OutcomeError)) || negb (cfg_AutoRetryErrors cfg) then d
  else if d_draining d then d
  else
    let m := retried_of d target in
    let d := d <| d_autoRetried ::= <[target := m]> |> in
    if bool_decide ((m !!! c_Ref c else "") = c_SHA c) then d
    else
      let d := d <| d_autoRetried ::= <[target := <[c_Ref c := c_SHA c]> m]> |> in
      snd (clearParkAndRetry target (c_Ref c) autoRetryQueuedDetail autoRetryDetail d).

(** src/internal/queue/circuit.go:82-106 [prepareCircuitProbe] [keys] is the
    order in which Go ranges over the parked refs. *)
Definition prepareCircuitProbe (target : string) (cands : gmap string Candidate)
    (keys : list string) (d : Daemon) : Daemon :=
  if (ci_Backoff (circuitOf d target) =? 0) || circuitBlocked d target || d_draining d then d
  else if negb (bool_decide (lane_of d target = [])) then d
  else
    let order := order_of d target in
    let chosen := fold_left (fun chosen ref =>
      match done_of d target !! ref with
      | Some entry =>
          if negb (bool_decide (pk_Outcome entry = OutcomeError)) then chosen
          else if negb (isSome (cands !! ref)) then chosen
          else if String.eqb chosen "" || ((order !!! ref else 0) <? (order !!! chosen else 0))
          then ref else chosen
      | None => chosen
      end) keys "" in
    if String.eqb chosen "" then d
    else snd (clearParkAndRetry target chosen "circuit recovery probe" "automatic infrastructure probe" d).

(** ** Emergency controls *)

(** src/internal/queue/controls.go:326-331 [clearEmergency] *)
Definition clearEmergency (target reason : string) (d : Daemon) : Daemon :=
  snd (saveControls (d_controls d <| cs_Emergency ::= delete target |> <| cs_LastError := reason |>) d).

(** src/internal/queue/checkspec.go:103-105 [imageNodeName] *)
Definition imageNodeName (node : string) : option string :=
  if String.prefix "image:" node then Some (String.substring 6 (String.length node - 6) node) else None.

(** src/internal/queue/checkspec.go:109-111 [receiptNodeName] *)
Definition receiptNodeName (node : string) : option string :=
  if String.prefix "receipt:" node then Some (String.substring 8 (String.length node - 8) node) else None.

(** src/internal/queue/controls.go:338-346 [prepareEmergency] The members of a run are exactly the revisions of a command, in order. *)
Definition matchesRevisions (revs : list Revision) (members : list runMember) : bool :=
  (length revs =? length members)%nat &&
  forallb (fun '(rev, m) =>
    String.eqb (rv_Ref rev) (c_Ref (rm_cand m)) && String.eqb (rv_SHA rev) (c_SHA (rm_cand m))
    && String.eqb (rv_Version rev) (c_Version (rm_cand m))) (combine revs members).

(** src/internal/queue/controls.go:361-361 [prepareEmergency] The waived result of the check at position [i]. *)
Definition waivedResult (reason : string) (i : nat) (k : Check) : CheckResult :=
  zeroCheckResult <| r_Name := k_Name k |> <| r_Seq := Z.of_nat i + 1 |>
    <| r_Command := k_Command k |> <| r_Status := CheckWaived |>
    <| r_Output := "Operator bypass: " +:+ reason |>.

(** src/internal/queue/controls.go:355-362 [prepareEmergency] *)
Fixpoint waiveChecks (reason : string) (i : nat) (checks : list Check) (res : gmap string CheckResult)
  : gmap string CheckResult :=
  match checks with
  | [] => res
  | k :: rest =>
      let keep := isSome (receiptNodeName (k_Name k))
                  || (isSome (imageNodeName (k_Name k)) && isSome (cfg_ReceiptNotes cfg)) in
      waiveChecks reason (S i) rest
        (if keep then res else <[k_Name k := waivedResult reason i k]> res)
  end.

(** src/internal/queue/controls.go:333-363 [prepareEmergency] *)
Definition prepareEmergency (d : Daemon) (r : run) : run :=
  if u_controlPrepared r then r
  else match cs_Emergency (d_controls d) !! u_target r with
  | None => r
  | Some cmd =>
      if negb (matchesRevisions (m_Revisions cmd) (u_members r)) then r
      else
        let reason := m_Actor cmd +:+ ": " +:+ m_Reason cmd in
        let r := r <| u_controlPrepared := true |> in
        if String.eqb (m_Kind cmd) "merge-paused" then
          r <| u_overridePause := true |> <| u_pauseOverrideReason := reason |>
        else
          r <| u_emergencyReason := reason |> <| u_overridePause := m_OverridePause cmd |>
            <| u_results ::= waiveChecks reason 0 (u_checks r) |>
  end.

(** src/internal/queue/controls.go:365-367 [nodeGreen] *)
Definition nodeGreen (r : run) (res : CheckResult) : bool :=
  NodeGreen res ||
  (negb (String.eqb (u_emergencyReason r) "") && negb (isSome (r_Err res))
   && bool_decide (r_Status res = CheckWaived)).

End Controls.

(** ** What control operations leave alone

    A [ctl_step] changes only the controls, the control file, the pending write
    outcomes and the emitted events (by appending). *)
Definition ctl_step (d d' : Daemon) : Prop :=
  exists cs k w evs,
    d' = d <| d_controls := cs |> <| d_disk := k |> <| d_writes := w |>
           <| d_events := d_events d ++ evs |>.

#[export] Instance ctl_step_preorder : PreOrder ctl_step.
Proof.
  split.
  - intros d. exists (d_controls d), (d_disk d), (d_writes d), []. destruct d; simpl.
    by rewrite app_nil_r.
  - intros d d1 d2 (cs & k & w & evs & ->) (cs' & k' & w' & evs' & ->).
    exists cs', k', w', (evs ++ evs'). simpl. by rewrite app_assoc.
Qed.

Ltac ctl_done := simpl; by repeat eexists; (reflexivity || (rewrite app_nil_r; reflexivity)).

Section ControlsLemmas.
Context (cfg : Config).
Implicit Types (d : Daemon) (c : Candidate) (o : Outcome).

Lemma ctl_step_controls d cs : ctl_step d (d <| d_controls := cs |>).
Proof. exists cs, (d_disk d), (d_writes d), []. destruct d; simpl. by rewrite app_nil_r. Qed.

Lemma writeControls_step next d : ctl_step d (snd (writeControls next d)).
Proof.
  exists (d_controls d), (d_disk (snd (writeControls next d))),
    (d_writes (snd (writeControls next d))), [].
  unfold writeControls. destruct d as [? ? ? ? ? ? ? ? ? ? ? ? ? ? ? ? ? ? ? ? ? ? ? ? ? ? ? ? ? ? [|[] ?] ?];
    simpl; by rewrite app_nil_r.
Qed.

Lemma saveControls_step next d : ctl_step d (snd (saveControls cfg next d)).
Proof.
  unfold saveControls. destruct (trimControls _ _ _) as [next'|next']; cbn [snd].
  2: apply ctl_step_controls.
  destruct (String.eqb _ ""); [apply ctl_step_controls|].
  pose proof (writeControls_step next' d) as H.
  destruct (writeControls next' d) as [[e|] d1]; cbn [snd] in *;
    etrans; try exact H; apply ctl_step_controls.
Qed.

Lemma observeInfrastructure_step ev d : ctl_step d (observeInfrastructure cfg ev d).
Proof.
  unfold observeInfrastructure. repeat case_match; try reflexivity; apply saveControls_step.
Qed.

Lemma emit_step ev d : ctl_step d (emit cfg ev d).
Proof.
  unfold emit. destruct (observeInfrastructure_step ev d) as (cs & k & w & evs & ->).
  exists cs, k, w, (evs ++ [ev]). simpl. by rewrite app_assoc.
Qed.

Lemma emits_step evs d : ctl_step d (emits cfg evs d).
Proof.
  unfold emits. revert d. induction evs as [|ev evs IH]; intros d; simpl; [reflexivity|].
  etrans; [apply emit_step|apply IH].
Qed.

Lemma markCircuitProbe_step r d : ctl_step d (markCircuitProbe cfg r d).
Proof. unfold markCircuitProbe. repeat case_match; try reflexivity; apply saveControls_step. Qed.

Lemma clearEmergency_step target reason d : ctl_step d (clearEmergency cfg target reason d).
Proof. apply saveControls_step. Qed.

(** ** Saving *)

(** [s'] is [s] with the oldest audit entries dropped. *)
Definition trimmed (s s' : controlState) : Prop :=
  exists i j, s' = s <| cs_Audit := drop i (cs_Audit s) |>
                     <| cs_PolicyAudit := drop j (cs_PolicyAudit s) |>.

Lemma trimmed_refl s : trimmed s s.
Proof. exists 0%nat, 0%nat. by destruct s. Qed.

Lemma trimmed_trans s1 s2 s3 : trimmed s1 s2 -> trimmed s2 s3 -> trimmed s1 s3.
Proof.
  intros (i & j & ->) (i' & j' & ->). exists (i + i')%nat, (j + j')%nat. simpl.
  by rewrite !drop_drop.
Qed.

Lemma trimControls_spec fuel s :
  trimFuel s = fuel ->
  match trimControls cfg fuel s with
  | inl s' => trimmed s s' /\ cfg_jsonLen cfg s' <= maxControlBytes
  | inr s' => trimmed s s' /\ maxControlBytes < cfg_jsonLen cfg s' /\
              cs_Audit s' = [] /\ cs_PolicyAudit s' = []
  end.
Proof.
  revert s. induction fuel as [|fuel IH]; intros s Hf; cbn [trimControls].
  - destruct (Z.leb_spec (cfg_jsonLen cfg s) maxControlBytes); [split; [apply trimmed_refl|lia]|].
    unfold trimFuel in Hf. split_and!; [apply trimmed_refl|lia|..];
      apply nil_length_inv; lia.
  - destruct (Z.leb_spec (cfg_jsonLen cfg s) maxControlBytes); [split; [apply trimmed_refl|lia]|].
    unfold trimFuel in Hf.
    destruct (cs_Audit s) as [|a rest] eqn:Ea;
      [destruct (cs_PolicyAudit s) as [|p rest] eqn:Ep; [done|]|];
      (match goal with |- context [trimControls _ _ ?s1] =>
         assert (trimmed s s1) as Ht; [|specialize (IH s1)] end).
    + exists 0%nat, 1%nat. destruct s; simpl in *. by rewrite Ep.
    + destruct (trimControls _ _ _); [destruct IH as [? ?]|destruct IH as (? & ? & ?)];
        eauto using trimmed_trans; unfold trimFuel; simpl; rewrite ?Ea; simpl in *; lia.
    + exists 1%nat, 0%nat. destruct s; simpl in *. by rewrite Ea.
    + destruct (trimControls _ _ _); [destruct IH as [? ?]|destruct IH as (? & ? & ?)];
        eauto using trimmed_trans; unfold trimFuel; simpl in *; lia.
Qed.

Lemma boundAudit_trimmed s :
  trimmed s (boundAudit s) /\ (length (cs_Audit (boundAudit s)) <= 500)%nat.
Proof.
  unfold boundAudit. case_match; simpl.
  - split; [|rewrite length_drop; lia].
    exists (length (cs_Audit s) - 500)%nat, 0%nat. by destruct s.
  - split; [apply trimmed_refl|lia].
Qed.

Lemma saveControls_cases next d :
  exists s, trimmed next s /\
   ((fst (saveControls cfg next d) = true /\
     d_controls (snd (saveControls cfg next d)) = s <| cs_Uncertain := false |> /\
     (cfg_ControlPath cfg <> "" -> d_disk (snd (saveControls cfg next d)) = Some s)) \/
    (fst (saveControls cfg next d) = false /\
     exists err, d_controls (snd (saveControls cfg next d)) =
       s <| cs_LastError := err |> <| cs_Uncertain := true |>)).
Proof.
  destruct (boundAudit_trimmed next) as [Hb _]. unfold saveControls.
  pose proof (trimControls_spec (trimFuel (boundAudit next)) (boundAudit next) eq_refl) as Ht.
  destruct (trimControls _ _ _) as [s|s]; exists s.
  - destruct Ht as [Ht _]. split; [eauto using trimmed_trans|].
    destruct (String.eqb_spec (cfg_ControlPath cfg) "") as [E|E]; [by left|].
    unfold writeControls. destruct (d_writes d) as [|[] ?]; simpl; auto. right. eauto.
  - destruct Ht as [Ht _]. split; [eauto using trimmed_trans|]. right. simpl. eauto.
Qed.
End ControlsLemmas.

#[export] Hint Resolve saveControls_step emit_step emits_step markCircuitProbe_step
  clearEmergency_step observeInfrastructure_step : gauntlet.

(** ** Checkpoint and restart *)

(** The control file agrees with memory on the scheduler state whenever the
    daemon is certain of what it persisted. *)
Definition disk_sync (cfg : Config) (d : Daemon) : Prop :=
  cs_Version (d_controls d) = 1 /\
  (cs_Uncertain (d_controls d) = false -> cs_Checkpoint (d_controls d) = true ->
   exists s, d_disk d = Some s /\ cs_Version s = 1 /\
     cs_Order s = cs_Order (d_controls d) /\ cs_Parks s = cs_Parks (d_controls d) /\
     cs_AutoRetried s = cs_AutoRetried (d_controls d)).

Lemma nextSeq_inner (refs : gmap string Z) seq0 :
  seq0 <= map_fold (fun _ n seq => if seq <=? n then n + 1 else seq) seq0 refs /\
  (forall ref n, refs !! ref = Some n ->
     n < map_fold (fun _ n seq => if seq <=? n then n + 1 else seq) seq0 refs).
Proof.
  apply (map_fold_weak_ind (fun seq refs => seq0 <= seq /\
    forall ref n, refs !! ref = Some n -> n < seq)).
  - split; [lia|]. intros ref n H. by rewrite lookup_empty in H.
  - intros ref n m seq Hm [Hle IH]. destruct (Z.leb_spec seq n); (split; [lia|]);
      intros ref' n' [[-> ->]|[_ H']]%lookup_insert_Some; try lia;
      specialize (IH _ _ H'); lia.
Qed.

Lemma nextSeq_fresh order t refs ref n :
  order !! t = Some refs -> refs !! ref = Some n -> n < nextSeq order.
Proof.
  unfold nextSeq. revert t refs ref n.
  apply (map_fold_weak_ind (fun seq order => forall t refs ref n,
    order !! t = Some refs -> refs !! ref = Some n -> n < seq)).
  - intros t refs ref n H. by rewrite lookup_empty in H.
  - intros t' refs' m seq Hm IH t refs ref n
      [[-> ->]|[_ H]]%lookup_insert_Some Href.
    + exact (proj2 (nextSeq_inner refs seq) _ _ Href).
    + specialize (IH _ _ _ _ H Href). destruct (nextSeq_inner refs' seq). lia.
Qed.

Lemma saveControls_sync cfg next d :
  cfg_ControlPath cfg <> "" -> cs_Version next = 1 -> disk_sync cfg (snd (saveControls cfg next d)).
Proof.
  intros Hp Hv. destruct (saveControls_cases cfg next d) as (s & (i & j & ->) & [H|H]).
  - destruct H as (_ & Hc & Hd). specialize (Hd Hp). split; rewrite Hc; [done|].
    intros _ _. eexists. by rewrite Hd.
  - destruct H as (_ & err & Hc). split; rewrite Hc; [done|]. by intros.
Qed.

(** Scheduler checkpoint: when [persistScheduler] reports success, a daemon
    restarted from the control file has the same queue order, parks and spent
    automatic retries, and its next sequence number is above every restored one,
    so restored candidates keep their places and new ones queue behind them. *)
Theorem checkpoint_restart cfg d d' slots git counter now :
  cfg_ControlPath cfg <> "" -> disk_sync cfg d ->
  persistScheduler cfg d = (true, d') ->
  exists s, loadControls cfg (d_disk d') = Some s /\
    let d2 := newDaemon s slots git counter now (d_disk d') in
    d_order d2 = d_order d /\ d_done d2 = d_done d /\ d_autoRetried d2 = d_autoRetried d /\
    (forall t ref n, order_of d2 t !! ref = Some n -> n < d_seq d2).
Proof.
  intros Hp [Hv Hsync] Hok.
  assert (exists s, d_disk d' = Some s /\ cs_Version s = 1 /\ cs_Order s = d_order d /\
     cs_Parks s = d_done d /\ cs_AutoRetried s = d_autoRetried d) as (s & Hs & Hs1 & Ho & Hk & Ha).
  { revert Hok. unfold persistScheduler. case_match eqn:E; intros Hok.
    - injection Hok as <-. apply andb_prop in E as [[[[[_ E1]%andb_prop E2]%andb_prop
        E3%bool_decide_eq_true]%andb_prop E4%bool_decide_eq_true]%andb_prop E5%bool_decide_eq_true].
      apply negb_true_iff in E1. destruct (Hsync E1 E2) as (s & ? & ? & ? & ? & ?).
      exists s. split_and!; congruence.
    - match type of Hok with context [saveControls cfg ?n d] =>
        destruct (saveControls_cases cfg n d) as (s & (i & j & ->) & [(H1 & _ & H2)|(H1 & _)]);
        destruct (saveControls cfg n d) as [ok d1]; simpl in *; subst ok end; [|done].
      injection Hok as <-. eexists. split; [exact (H2 Hp)|]. simpl.
      destruct (cs_Uncertain (d_controls d)); auto. }
  exists (s <| cs_Uncertain := false |>). unfold loadControls.
  destruct (String.eqb_spec (cfg_ControlPath cfg) "") as [|_]; [done|].
  rewrite Hs, Hs1. simpl. split_and!; auto.
  intros t ref n. unfold order_of; simpl. destruct (cs_Order s !! t) as [refs|] eqn:E; simpl.
  - eauto using nextSeq_fresh.
  - by rewrite lookup_empty.
Qed.

(** A configuration for concrete inputs: a breaker tripping on two revisions in
    five minutes, automatic retries on, and a control file. *)
Definition demoConfig : Config :=
  mkConfig [mkTarget "main" "main" "squash" "serial" 1 1 "serial" None] "/state/controls.json" false
    None true (Some (mkBreaker 2 300 30 100)) None false "refs/gauntlet/trials" 0 ".gauntlet.kdl" false
    None None false false None (fun _ => 100) (fun _ => "T") (fun _ => "T").

Definition demoDaemon : Daemon :=
  newDaemon freshControls None (mkGit ∅ []) 0 1000 None
    <| d_order := {[ "main" := {[ "refs/heads/for/main/a" := 4 ]} ]} |> <| d_seq := 5 |>.

Lemma checkpoint_restart_witness :
  let d' := snd (persistScheduler demoConfig demoDaemon) in
  exists s, loadControls demoConfig (d_disk d') = Some s /\
    d_order (newDaemon s None (mkGit ∅ []) 0 2000 (d_disk d')) = d_order demoDaemon.
Proof.
  destruct (checkpoint_restart demoConfig demoDaemon
    (snd (persistScheduler demoConfig demoDaemon)) None (mkGit ∅ []) 0 2000)
    as (s & H1 & H2 & _); [done|split; [done|by intros]|by vm_compute|].
  exists s. split; [exact H1|exact H2].
Defined.

(** ** The circuit breaker *)

(** A circuit's failures are of distinct revisions and its backoff is bounded. *)
Definition circuit_ok (b : CircuitBreaker) (c : Circuit) : Prop :=
  NoDup (if_Revision <$> ci_Failures c) /\
  (ci_Backoff c = 0 \/ cb_Backoff b <= ci_Backoff c <= cb_MaxBackoff b).

Section Circuit.
Context (cfg : Config) (b : CircuitBreaker).
Hypothesis Hb : breaker_validate b = true.

Lemma breaker_bounds : 2 <= cb_Threshold b /\ 0 < cb_Window b /\ 0 < cb_Backoff b <= cb_MaxBackoff b.
Proof using Hb. clear cfg. revert Hb. unfold breaker_validate. lia. Qed.

Lemma recordFailure_failures now revision c :
  exists fresh, sublist fresh (ci_Failures c) /\
   Forall (fun f => now - cb_Window b < if_At f) fresh /\
   ci_Failures (recordFailure cfg b now revision c) =
     (if existsb (fun f => String.eqb (if_Revision f) revision) fresh then fresh
      else fresh ++ [mkInfra revision now]).
Proof.
  exists (filter (fun f => now - cb_Window b < if_At f) (ci_Failures c)). split_and!.
  - apply sublist_filter.
  - apply Forall_forall. intros f Hf. by apply list_elem_of_filter in Hf as [? _].
  - unfold recordFailure. simpl.
    destruct ((cb_Threshold b <=? _) || _); [|done]. by destruct (negb _).
Qed.

Lemma recordFailure_nodup now revision c :
  NoDup (if_Revision <$> ci_Failures c) ->
  NoDup (if_Revision <$> ci_Failures (recordFailure cfg b now revision c)) /\
  revision ∈ (if_Revision <$> ci_Failures (recordFailure cfg b now revision c)).
Proof.
  intros Hnd. destruct (recordFailure_failures now revision c) as (fresh & Hs & _ & ->).
  assert (NoDup (if_Revision <$> fresh)) as Hf.
  { eapply sublist_NoDup; [exact Hnd|]. by apply sublist_fmap. }
  destruct (existsb _ fresh) eqn:E.
  - split; [done|]. apply existsb_exists in E as (f & Hin & Hf'%String.eqb_eq).
    subst. apply list_elem_of_fmap_2. by apply list_elem_of_In.
  - rewrite fmap_app. split.
    + apply NoDup_app. split_and!; [done| |apply NoDup_singleton].
      intros x Hx Hx2. apply list_elem_of_singleton in Hx2 as ->.
      apply list_elem_of_fmap in Hx as (f & Heq & Hin%list_elem_of_In).
      assert (existsb (fun f => String.eqb (if_Revision f) revision) fresh = true); [|congruence].
      apply existsb_exists. exists f. split; [done|]. by apply String.eqb_eq.
    + apply elem_of_app. right. by apply list_elem_of_singleton.
Qed.

Lemma recordFailure_backoff now revision c :
  let c' := recordFailure cfg b now revision c in
  let open := (cb_Threshold b <=? Z.of_nat (length (ci_Failures c'))) || (0 <? ci_Backoff c) in
  if open && negb (now <? ci_Until c)
  then ci_Backoff c' = Z.min (cb_MaxBackoff b) (Z.max (cb_Backoff b) (2 * ci_Backoff c)) /\
       ci_Until c' = now + ci_Backoff c'
  else ci_Backoff c' = ci_Backoff c /\ ci_Until c' = ci_Until c.
Proof.
  unfold recordFailure. cbv zeta. simpl.
  match goal with |- context [if (?x <=? ?y) || ?z then _ else _] =>
    destruct ((x <=? y) || z) eqn:E end; simpl; [|rewrite E; done].
  destruct (now <? ci_Until c) eqn:E2; simpl; rewrite E; simpl; auto.
Qed.
End Circuit.

(** Infrastructure circuit breaker, on a validated configuration: recording
    a failure keeps the failed revisions distinct and the backoff within its
    configured bounds; a closed circuit opens only when at least [Threshold]
    distinct revisions failed, each within the window; and an open circuit whose
    wait has elapsed doubles its backoff up to the maximum, while one still
    waiting is not extended. *)
Theorem circuit_breaker_correct cfg b now revision c :
  breaker_validate b = true -> circuit_ok b c ->
  (forall f, f ∈ ci_Failures c -> if_At f <= now) ->
  let c' := recordFailure cfg b now revision c in
  circuit_ok b c' /\
  (ci_Backoff c = 0 -> 0 < ci_Backoff c' ->
     cb_Threshold b <= Z.of_nat (length (ci_Failures c')) /\
     forall f, f ∈ ci_Failures c' -> now - cb_Window b < if_At f <= now) /\
  (0 < ci_Backoff c -> ci_Until c <= now ->
     ci_Backoff c' = Z.min (cb_MaxBackoff b) (2 * ci_Backoff c) /\ ci_Until c' = now + ci_Backoff c') /\
  (now < ci_Until c -> ci_Backoff c' = ci_Backoff c /\ ci_Until c' = ci_Until c).
Proof.
  intros Hb [Hnd Hbk] Hat c'. destruct (breaker_bounds b Hb) as (Ht & Hw & Hb1).
  pose proof (recordFailure_backoff cfg b now revision c) as Hk. fold c' in Hk. cbv zeta in Hk.
  destruct (recordFailure_nodup cfg b now revision c Hnd) as [Hnd' _]. fold c' in Hnd'.
  destruct (recordFailure_failures cfg b now revision c) as (fresh & Hsub & Hfr & Hf).
  fold c' in Hf.
  destruct (Z.leb_spec (cb_Threshold b) (Z.of_nat (length (ci_Failures c')))) as [Hth|Hth];
    destruct (Z.ltb_spec 0 (ci_Backoff c)); destruct (Z.ltb_spec now (ci_Until c));
    simpl in Hk; destruct Hk as [Hk1 Hk2]; (split; [split; [done|lia]|]);
    split_and!; try (intros; lia).
  all: intros Hz Hpos; split; [lia|]; intros f Hin; rewrite Hf in Hin.
  all: assert (forall g, g ∈ fresh -> now - cb_Window b < if_At g <= now) as Hg
    by (intros g Hg; split; [by eapply Forall_forall in Hfr|]; apply Hat; by eapply elem_of_sublist).
  all: destruct (existsb _ fresh); [by apply Hg|].
  all: apply elem_of_app in Hin as [Hin| ->%list_elem_of_singleton]; [by apply Hg|simpl; lia].
Qed.

Lemma circuit_breaker_correct_witness :
  let b := mkBreaker 2 300 30 100 in
  let c := mkCircuit "" [mkInfra "a@1" 900] 0 0 "" in
  ci_Backoff (recordFailure demoConfig b 1000 "b@2" c) = 30 /\
  circuit_ok b (recordFailure demoConfig b 1000 "b@2" c).
Proof.
  intros b c. split; [reflexivity|].
  refine (proj1 (circuit_breaker_correct demoConfig b 1000 "b@2" c _ _ _)).
  - reflexivity.
  - split; [|left; reflexivity]. apply NoDup_singleton.
  - intros f ->%list_elem_of_singleton. simpl. lia.
Defined.

(** ** Parks and automatic retries *)

Lemma ctl_step_queue d d' :
  ctl_step d d' -> d_done d' = d_done d /\ d_order d' = d_order d /\ d_lanes d' = d_lanes d /\
    d_autoRetried d' = d_autoRetried d /\ d_git d' = d_git d /\ d_draining d' = d_draining d /\
    d_now d' = d_now d.
Proof. by intros (cs & k & w & evs & ->). Qed.

Lemma clearParkAndRetry_spec cfg target ref q1 q2 d :
  let '(ok, d') := clearParkAndRetry cfg target ref q1 q2 d in
  match done_of d target !! ref with
  | None => ok = false /\ d' = d
  | Some _ => ok = true /\
      ctl_step (d <| d_done ::= <[target := delete ref (done_of d target)]> |>) d'
  end.
Proof.
  unfold clearParkAndRetry. destruct (done_of d target !! ref); [|done].
  split; [done|]. etrans; apply emit_step.
Qed.

Lemma done_of_insert d t m : done_of (d <| d_done ::= <[t := m]> |>) t = m.
Proof. unfold done_of. simpl. by rewrite lookup_insert_eq. Qed.

(** Whether [maybeAutoRetry] spends the budget of this revision now. *)
Definition autoRetryDue (cfg : Config) (target : string) (cand : Candidate) (o : Outcome) (d : Daemon) : bool :=
  bool_decide (o = OutcomeError) && cfg_AutoRetryErrors cfg && negb (d_draining d)
  && negb (bool_decide (retried_of d target !! c_Ref cand = Some (c_SHA cand))).

Lemma maybeAutoRetry_cases cfg target cand o d :
  c_SHA cand <> "" ->
  let d' := maybeAutoRetry cfg target cand o d in
  if autoRetryDue cfg target cand o d
  then done_of d' target = delete (c_Ref cand) (done_of d target) /\
       retried_of d' target = <[c_Ref cand := c_SHA cand]> (retried_of d target) /\
       d_draining d' = false
  else done_of d' target = done_of d target.
Proof.
  intros Hsha d'. unfold autoRetryDue. subst d'. unfold maybeAutoRetry.
  destruct (bool_decide (o = OutcomeError)); simpl; [|done].
  destruct (cfg_AutoRetryErrors cfg); simpl; [|done].
  destruct (d_draining d) eqn:Ed; simpl; [done|].
  rewrite (bool_decide_ext ((retried_of d target !!! c_Ref cand else "") = c_SHA cand)
    (retried_of d target !! c_Ref cand = Some (c_SHA cand)))
    by (destruct (retried_of d target !! c_Ref cand); simpl; split; congruence).
  case_bool_decide; simpl; [done|].
  match goal with |- context [clearParkAndRetry cfg target (c_Ref cand) ?q1 ?q2 ?d1] =>
    pose proof (clearParkAndRetry_spec cfg target (c_Ref cand) q1 q2 d1) as Hc;
    destruct (clearParkAndRetry cfg target (c_Ref cand) q1 q2 d1) as [ok d3] end.
  simpl. unfold done_of, retried_of in *; simpl in *.
  destruct ((d_done d !!! target else ∅) !! c_Ref cand) eqn:Ep.
  - destruct Hc as [_ (-> & _ & _ & -> & _ & -> & _)%ctl_step_queue]. simpl.
    by rewrite !lookup_insert_eq.
  - destruct Hc as [_ ->]. simpl. rewrite !lookup_insert_eq, delete_id by done. done.
Qed.

(** Automatic retry spends one budget per (ref, SHA): a candidate parked on
    an infrastructure error is unparked by [maybeAutoRetry] exactly when the
    feature is on, the daemon is not draining and this SHA was not auto-retried
    before, and then the budget is spent: a second infrastructure error at the
    same revision stays parked. Other outcomes never clear a park. *)
Theorem auto_retry_once cfg target cand o d entry :
  c_SHA cand <> "" -> done_of d target !! c_Ref cand = Some entry ->
  let d' := maybeAutoRetry cfg target cand o d in
  if autoRetryDue cfg target cand o d
  then done_of d' target !! c_Ref cand = None /\
       forall detail runID, let d2 := park target cand OutcomeError detail runID d' in
         isSome (done_of (maybeAutoRetry cfg target cand OutcomeError d2) target !! c_Ref cand) = true
  else done_of d' target !! c_Ref cand = Some entry.
Proof.
  intros Hsha Hpark d'. pose proof (maybeAutoRetry_cases cfg target cand o d Hsha) as H.
  fold d' in H. cbv zeta in H. destruct (autoRetryDue cfg target cand o d); [|by rewrite H].
  destruct H as (Hd & Hr & Hdr). split; [rewrite Hd; apply lookup_delete_eq|].
  intros detail runID d2.
  pose proof (maybeAutoRetry_cases cfg target cand OutcomeError d2 Hsha) as H2. cbv zeta in H2.
  assert (retried_of d2 target = retried_of d' target) as Hr2 by done.
  unfold autoRetryDue in H2. rewrite Hr2, Hr, lookup_insert_eq in H2.
  rewrite (bool_decide_true (Some _ = Some _)), andb_false_r in H2 by done.
  rewrite H2. unfold d2, park. rewrite done_of_insert, lookup_insert_eq. done.
Qed.

Definition demoCand : Candidate :=
  zeroCandidate <| c_Ref := "refs/heads/for/main/a" |> <| c_SHA := "s1" |> <| c_Target := "main" |>.

Lemma auto_retry_once_witness :
  let d := park "main" demoCand OutcomeError "boom" "r1" demoDaemon in
  done_of (maybeAutoRetry demoConfig "main" demoCand OutcomeError d) "main" !! c_Ref demoCand = None.
Proof.
  intros d.
  refine (proj1 (auto_retry_once demoConfig "main" demoCand OutcomeError d
    (mkPark "" "s1" OutcomeError "boom" 1000 "r1") _ _)).
  - discriminate.
  - vm_compute. reflexivity.
Defined.
