(* ===== verification/CheckGraph.v ===== *)
(** The run graph ([src/internal/queue/checkrun.go] and checkspec.go): one
    reconcile pass over a run's checks drains finished workers, fixes the root
    failure, starts ready nodes within the run's and the daemon's limits, and
    turns the run green when every node is.

    Workers run concurrently with the reconcile loop. What they do to the run is
    only to fill the one-shot channel [f_result] of their in-flight entry, at
    any moment between passes. *)
From S2P Require Import Prelude GoString Core Slots Daemon Controls.
From Stdlib Require Import Ascii.

Open Scope string_scope.
Open Scope list_scope.
Open Scope Z_scope.

(** ** Node results *)

(** src/internal/queue/checkspec.go:241-247 [truncateForError] *)
Definition truncateForError (s : string) : string :=
  if (String.length s <=? 200)%nat then s else String.substring 0 200 s +:+ "...".

Definition hex_byte (a : ascii) : bool :=
  between 48 57 (byte_val a) || between 97 102 (byte_val a).

(** [^sha256:[0-9a-f]{64}$] *)
Definition localImageID (b : bytes) : bool :=
  match strip_prefix (to_bytes "sha256:") b with
  | Some h => (length h =? 64)%nat && forallb hex_byte h
  | None => false
  end.

(** [[a-zA-Z0-9._/:-]] *)
Definition ref_byte (a : ascii) : bool :=
  let v := byte_val a in
  between 97 122 v || between 65 90 v || between 48 57 v || (v =? 46) || (v =? 95) || (v =? 47)
  || (v =? 58) || (v =? 45).

(** src/internal/queue/checkspec.go:249-252 [digestRefPattern] Neither side of
    the separator can contain it, so cutting at the first one decides the match. *)
Definition digestRef (b : bytes) : bool :=
  match cut_at "@"%char b with
  | Some (repo, digest) => negb (bool_decide (repo = [])) && forallb ref_byte repo && localImageID digest
  | None => false
  end.

(** src/internal/queue/checkspec.go:198-210 [validImageRef] *)
Definition validImageRef (raw : string) : string + string :=
  let ref := TrimSpace raw in
  if String.eqb ref "" then inl "build wrote no image reference to $GAUNTLET_IMAGE_RESULT_FILE"
  else if existsb (fun a => let v := byte_val a in (v =? 32) || (v =? 9) || (v =? 10) || (v =? 13)) (to_bytes ref)
  then inl ("image result must be exactly one reference, got " +:+ truncateForError ref)
  else if localImageID (to_bytes ref) || digestRef (to_bytes ref) then inr ref
  else inl ("image result is not immutable: " +:+ truncateForError ref).

(** src/internal/queue/checkspec.go:223-234 [validReceipt] *)
Definition validReceipt (raw : option string) (maxBytes : Z) : string + string :=
  match raw with
  | None => inl "receipt result file could not be read (missing, or left unwritten/unreadable by the command)"
  | Some raw =>
      if String.eqb raw "" then inl "receipt result file is empty"
      else if (0 <? maxBytes) && (maxBytes <? Z.of_nat (String.length raw))
      then inl "receipt result exceeds the configured max-bytes"
      else inr raw
  end.

(** Flip a result red, appending a reason to its output. *)
Definition failNode (reason : string) (res : CheckResult) : CheckResult :=
  let res := res <| r_Status := CheckFailed |> in
  let out := if String.eqb (r_Output res) "" then "" else r_Output res +:+ String newline "" in
  res <| r_Output := out +:+ "gauntlet: " +:+ reason |>.

(** src/internal/queue/checkrun.go:62-96 [advanceChecks] An image build's green
    is conditional on an immutable reference. *)
Definition validateImage (name : string) (res : CheckResult) (r : run) : CheckResult * run :=
  match imageNodeName name, r_Err res with
  | Some img, None =>
      match r_Status res with
      | CheckPassed =>
          match validImageRef (r_Image res) with
          | inl err => (failNode err (res <| r_Image := "" |>), r)
          | inr ref => (res <| r_Image := ref |>, r <| u_imageRefs ::= <[img := ref]> |>)
          end
      | CheckSkipped => (failNode "an image build cannot report skipped" res, r)
      | _ => (res, r)
      end
  | _, _ => (res, r)
  end.

(** src/internal/queue/checkrun.go:97-133 [advanceChecks] The receipt node's
    green is conditional on a usable payload. *)
Definition validateReceipt (cfg : Config) (name : string) (res : CheckResult) (r : run)
  : CheckResult * run :=
  match receiptNodeName name, r_Err res with
  | Some rcp, None =>
      let '(res, r) :=
        match r_Status res with
        | CheckPassed =>
            let maxBytes := match cfg_ReceiptNotes cfg with Some n => rn_MaxBytes n | None => 0 end in
            match validReceipt (r_Receipt res) maxBytes with
            | inl err => (failNode err res, r)
            | inr payload => (res, r <| u_receiptPayload := Some payload |> <| u_receiptProducer := rcp |>)
            end
        | CheckSkipped => (failNode "a receipt cannot report skipped" res, r)
        | _ => (res, r)
        end in
      (res <| r_Receipt := None |>, r)
  | _, _ => (res, r)
  end.

Section CheckGraph.
Context (cfg : Config).
Implicit Types (d : Daemon) (r : run) (k : Check).

Definition headCand r : Candidate :=
  match u_members r with m :: _ => rm_cand m | [] => zeroCandidate end.

(** ** Draining *)

(** src/internal/queue/checkrun.go:52-156 [advanceChecks] One check's turn in
    the drain: a result waiting in its channel is validated, recorded and
    announced; a check still running is left alone. *)
Definition consumeOne k r d : run * Daemon :=
  match u_inflight r !! k_Name k with
  | Some inf =>
      match f_result inf with
      | Some res =>
          let res := res <| r_Waited := f_waited inf |> in
          let '(res, r) := validateImage (k_Name k) res r in
          let '(res, r) := validateReceipt cfg (k_Name k) res r in
          let r := r <| u_inflight ::= delete (k_Name k) |>
                     <| u_results ::= <[k_Name k := res]> |> in
          (r, emit cfg (event EventCheckFinished (d_now d) (u_target r) (headCand r) (u_runID r)
                          <| e_CheckName := r_Name res |> <| e_Check := Some res |>) d)
      | None => (r, d)
      end
  | None => (r, d)
  end.

(** src/internal/queue/checkrun.go:52-156 [advanceChecks] *)
Fixpoint consume (checks : list Check) r d : run * Daemon :=
  match checks with
  | [] => (r, d)
  | k :: rest => let '(r, d) := consumeOne k r d in consume rest r d
  end.

(** ** Root failure *)

(** src/internal/queue/checkrun.go:516-531 [cancelRun] The workers keep running
    until their executor stops them; the queue forgets them at once. *)
Definition cancelRun d r : run :=
  let charge acc (p : string * checkInFlight) :=
    let '(name, inf) := p in
    let reusable := existsb (fun k => String.eqb (k_Name k) name && negb (bool_decide (default [] (k_Inputs k) = [])))
                      (u_checks r) in
    if negb reusable && negb (f_start inf =? 0)
    then f64_add acc (f64_max0 (Seconds (d_now d - f_start inf))) else acc in
  r <| u_abandonedSeconds := fold_left charge (map_to_list (u_inflight r)) (u_abandonedSeconds r) |>
    <| u_inflight := ∅ |>.

(** src/internal/queue/checkrun.go:158-173 [advanceChecks] A finished check that is not green. *)
Definition redCheck r k : bool :=
  match u_results r !! k_Name k with
  | Some res => negb (nodeGreen r res)
  | None => false
  end.

(** src/internal/queue/checkrun.go:158-173 [advanceChecks] *)
Definition findCulprit d r : run :=
  if negb (String.eqb (u_culprit r) "") then r
  else match find_index (redCheck r) (u_checks r) with
       | Some (_, k) => cancelRun d (r <| u_culprit := k_Name k |>)
       | None => r
       end.

(** ** Recorded rows *)

(** src/internal/queue/checkrun.go:209-218 [advanceChecks] A prerequisite that finished green. *)
Definition depGreen r (dep : string) : bool :=
  match u_results r !! dep with
  | Some res => nodeGreen r res
  | None => false
  end.

(** src/internal/queue/checkrun.go:290-298 [materializeChecks] The failed or
    missing prerequisites of [k], or the root culprit. *)
Definition blockers r k : list string :=
  match List.filter (fun dep => negb (depGreen r dep)) (k_After k) with
  | [] => [u_culprit r]
  | l => l
  end.

(** src/internal/queue/checkrun.go:274-300 [materializeChecks] The row of the
    check at position [i], if it gets one. *)
Definition checkRow r (i : nat) k : option CheckResult :=
  match u_results r !! k_Name k with
  | Some res => Some (res <| r_Seq := Z.of_nat i + 1 |>)
  | None =>
      if String.eqb (u_culprit r) "" then None
      else
        Some (zeroCheckResult <| r_Name := k_Name k |> <| r_Seq := Z.of_nat i + 1 |>
                <| r_Status := CheckBlocked |> <| r_BlockedBy := blockers r k |>)
  end.

(** src/internal/queue/checkrun.go:274-300 [materializeChecks] *)
Fixpoint checkRows r (i : nat) (checks : list Check) : list CheckResult :=
  match checks with
  | [] => []
  | k :: rest =>
      match checkRow r i k with
      | Some row => row :: checkRows r (S i) rest
      | None => checkRows r (S i) rest
      end
  end.

(** src/internal/queue/checkrun.go:268-304 [materializeChecks] *)
Definition materializeChecks r : run :=
  if u_materialized r then r
  else
    let out := checkRows r 0 (u_checks r) in
    r <| u_materialized := true |>
      <| u_members ::= map (fun m => m <| rm_rec ::= (fun rec => rec <| rr_Checks := out |>) |>) |>.

(** ** Starting *)

Definition isRemote (executor : string) : bool :=
  match cfg_RemoteExecutorProfile cfg with Some f => f executor | None => false end.

(** src/internal/queue/checkrun.go:319-360 [startCheck] [rank] is the run's
    priority, sent to remote executors. *)
Definition jobFor (rank : Z) k r : CheckJob :=
  let remote := isRemote (k_Executor k) in
  zeroCheckJob
    <| j_HistoryMtimes := cfg_HistoryMtimes cfg |>
    <| j_TestResults := k_TestResults k |> <| j_RetryCommand := default [] (k_RetryCommand k) |>
    <| j_RunID := u_runID r |> <| j_Target := u_target r |> <| j_Name := k_Name k |>
    <| j_Command := k_Command k |> <| j_Executor := k_Executor k |>
    <| j_Image := u_imageRefs r !!! k_Image k else "" |>
    <| j_BaseSHA := u_baseOID r |> <| j_MergeSHA := u_chainTip r |>
    <| j_Candidate := headCand r |>
    <| j_ServiceNeeds := if remote then k_Needs k else [] |>
    <| j_Priority := if remote then nth (Z.to_nat rank) ["low"; "normal"; "high"; "urgent"] "" else "" |>
    <| j_Candidates := map rm_cand (u_members r) |>
    <| j_ImageBuild := isSome (imageNodeName (k_Name k)) |>
    <| j_ReceiptCapture := isSome (receiptNodeName (k_Name k)) |>
    <| j_ReceiptMaxBytes := match receiptNodeName (k_Name k), cfg_ReceiptNotes cfg with
                            | Some _, Some n => rn_MaxBytes n | _, _ => 0 end |>.

(** src/internal/queue/checkrun.go:385-497 [startCheck] The worker is the
    environment's from here on; its entry's channel is empty. *)
Definition startCheck (rank : Z) k r d : run * Daemon :=
  let d := markCircuitProbe cfg r d in
  let waited := match u_readyAt r !! k_Name k with Some at' => d_now d - at' | None => 0 end in
  let job := jobFor rank k r in
  let r := r <| u_readyAt ::= delete (k_Name k) |>
             <| u_inflight ::= <[k_Name k := mkInFlight job (d_now d) waited None]> |> in
  (r, emit cfg (event EventCheckStarted (d_now d) (u_target r) (headCand r) (u_runID r)
                  <| e_CheckName := k_Name k |>) d).

(** src/internal/queue/checkrun.go:209-218 [advanceChecks] *)
Definition depsGreen r k : bool := forallb (depGreen r) (k_After k).

(** Neither finished nor running, with every prerequisite green. *)
Definition ready r k : bool :=
  negb (isSome (u_results r !! k_Name k)) && negb (isSome (u_inflight r !! k_Name k)) && depsGreen r k.

(** src/internal/queue/checkrun.go:190-236 [advanceChecks] The start scan. The
    slot a check takes is released by its worker. *)
Fixpoint startReady (rank : Z) (checks : list Check) (capacity : Z) (slotDenied : bool) r d
  : run * Daemon :=
  match checks with
  | [] => (r, d)
  | k :: rest =>
      if capacity <=? 0 then (r, d)
      else if negb (ready r k) then startReady rank rest capacity slotDenied r d
      else
        let capacity := capacity - 1 in
        let '(got, slots) := if slotDenied then (false, d_slots d)
                             else TryAcquirePriority (d_slots d) (3 <=? rank) in
        if got then
          let '(r, d) := startCheck rank k r (d <| d_slots := slots |>) in
          startReady rank rest capacity slotDenied r d
        else
          let r := if isSome (u_readyAt r !! k_Name k) then r
                   else r <| u_readyAt ::= <[k_Name k := d_now d]> |> in
          startReady rank rest capacity true r d
  end.

(** ** One pass *)

(** src/internal/queue/checkrun.go:24-41 [advanceChecks] [keep] is the outcome
    of [KeepExecutions] when the graph has remote nodes: renewing their leases
    must succeed before the run advances. *)
Definition keepExecutions (keep : option (option string)) r d : bool * Daemon :=
  match cfg_RemoteExecutorProfile cfg, keep with
  | Some _, Some err =>
      if existsb (fun k => isRemote (k_Executor k)) (u_checks r) then
        match err with
        | Some e => (false, d <| d_controls ::= (fun s => s <| cs_LastError := "worker recovery: " +:+ e |>) |>)
        | None =>
            if String.prefix "worker recovery: " (cs_LastError (d_controls d))
            then (true, d <| d_controls ::= (fun s => s <| cs_LastError := "" |>) |>)
            else (true, d)
        end
      else (true, d)
  | _, _ => (true, d)
  end.

(** src/internal/queue/checkrun.go:175-188 [advanceChecks] *)
Definition concludeRed r : run :=
  if bool_decide (u_inflight r = ∅) then
    let r := materializeChecks r in
    match u_results r !!! u_culprit r else zeroCheckResult with
    | res => r <| u_verdict := if isSome (r_Err res) then verdictErrored else verdictRejected |>
    end
  else r.

(** src/internal/queue/checkrun.go:238-262 [advanceChecks] *)
Definition concludeGreen r d : run * Daemon :=
  if (size (u_results r) =? length (u_checks r))%nat && bool_decide (u_inflight r = ∅) then
    let r := materializeChecks r <| u_verdict := verdictGreen |> in
    if cfg_TrialRefs cfg && negb (u_verifiedEmitted r) then
      let r := r <| u_verifiedEmitted := true |> in
      let detail := if String.eqb (u_emergencyReason r) "" then ""
                    else "EMERGENCY: checks waived; " +:+ u_emergencyReason r in
      (r, emit cfg (event EventVerified (d_now d) (u_target r) (headCand r) (u_runID r)
                      <| e_MergeSHA := u_chainTip r |> <| e_Detail := detail |>) d)
    else (r, d)
  else (r, d).

(** src/internal/queue/checkrun.go:23-263 [advanceChecks] *)
Definition advanceChecks (keep : option (option string)) (rank : Z) r d : run * Daemon :=
  let '(ok, d) := keepExecutions keep r d in
  if negb ok then (r, d)
  else if negb (bool_decide (u_verdict r = verdictNone)) then (r, d)
  else
    let '(r, d) := consume (u_checks r) r d in
    let r := findCulprit d r in
    if negb (String.eqb (u_culprit r) "") then (concludeRed r, d)
    else
      let '(r, d) := startReady rank (u_checks r) (u_maxParallel r - Z.of_nat (size (u_inflight r))) false r d in
      concludeGreen r d.

(** A worker reports: the environment's move between passes. *)
Definition workerReports (name : string) (res : CheckResult) r : run :=
  r <| u_inflight ::= alter (fun inf => mkInFlight (f_job inf) (f_start inf) (f_waited inf) (Some res)) name |>.

End CheckGraph.

(** ** The graph invariant *)

Definition names r : list string := k_Name <$> u_checks r.

(** What every pass and every worker report preserve. *)
Record graph_ok (r : run) : Prop := {
  go_names : NoDup (names r);
  go_named : "" ∉ names r;
  go_inflight : forall n, is_Some (u_inflight r !! n) -> n ∈ names r;
  go_results : forall n, is_Some (u_results r !! n) -> n ∈ names r;
  go_disjoint : forall n, is_Some (u_inflight r !! n) -> u_results r !! n = None;
  go_parallel : Z.of_nat (size (u_inflight r)) <= Z.max 0 (u_maxParallel r);
  go_started : forall k, k ∈ u_checks r -> is_Some (u_inflight r !! k_Name k) -> depsGreen r k = true;
  go_culprit : u_culprit r <> "" ->
    u_inflight r = ∅ /\ exists k, k ∈ u_checks r /\ k_Name k = u_culprit r /\ redCheck r k = true;
  go_verdict : u_verdict r = verdictNone -> u_culprit r = "";
  go_green : u_verdict r = verdictGreen ->
    u_inflight r = ∅ /\ forall k, k ∈ u_checks r ->
      exists res, u_results r !! k_Name k = Some res /\ nodeGreen r res = true;
}.

Section GraphLemmas.
Context (cfg : Config).
Implicit Types (d : Daemon) (r : run) (k : Check) (res : CheckResult).

(** What validation leaves of the run: everything but image and receipt data. *)
Lemma validateImage_frame n res r :
  exists refs, snd (validateImage n res r) = r <| u_imageRefs := refs |>.
Proof.
  unfold validateImage. repeat case_match; simpl; eauto; exists (u_imageRefs r); by destruct r.
Qed.

Lemma validateReceipt_frame n res r :
  exists pay prod, snd (validateReceipt cfg n res r)
    = r <| u_receiptPayload := pay |> <| u_receiptProducer := prod |>.
Proof.
  assert (r = r <| u_receiptPayload := u_receiptPayload r |> <| u_receiptProducer := u_receiptProducer r |>)
    as E by (by destruct r).
  unfold validateReceipt. destruct (receiptNodeName n); [|eauto].
  destruct (r_Err res); [eauto|].
  destruct (r_Status res); try (by simpl; eauto). destruct (validReceipt _ _); simpl; eauto.
Qed.

(** The result recorded for a delivered one. *)
Definition recorded n (inf : checkInFlight) res r : CheckResult :=
  let '(res, r) := validateImage n (res <| r_Waited := f_waited inf |>) r in
  fst (validateReceipt cfg n res r).

Lemma consumeOne_cases k r d :
  let '(r', d') := consumeOne cfg k r d in
  ctl_step d d' /\
  ((r' = r /\ forall inf, u_inflight r !! k_Name k = Some inf -> f_result inf = None) \/
   (exists inf res refs pay prod,
      u_inflight r !! k_Name k = Some inf /\ f_result inf = Some res /\
      r' = r <| u_imageRefs := refs |> <| u_receiptPayload := pay |> <| u_receiptProducer := prod |>
             <| u_inflight ::= delete (k_Name k) |>
             <| u_results ::= <[k_Name k := recorded (k_Name k) inf res r]> |>)).
Proof.
  unfold consumeOne. destruct (u_inflight r !! k_Name k) as [inf|] eqn:E.
  2: { split; [reflexivity|]. left. split; [done|]. by intros. }
  destruct (f_result inf) as [res|] eqn:F.
  2: { split; [reflexivity|]. left. split; [done|]. intros ? [= <-]. done. }
  destruct (validateImage_frame (k_Name k) (res <| r_Waited := f_waited inf |>) r) as [refs Hi].
  destruct (validateImage (k_Name k) _ r) as [res1 r1] eqn:E1. cbn [snd] in Hi. subst r1.
  destruct (validateReceipt_frame (k_Name k) res1 (r <| u_imageRefs := refs |>)) as (pay & prod & Hr).
  destruct (validateReceipt cfg (k_Name k) res1 _) as [res2 r2] eqn:E2. cbn [snd] in Hr. subst r2.
  split; [apply emit_step|]. right. exists inf, res, refs, pay, prod. split_and!; auto.
  unfold recorded. rewrite E1. cbv iota beta. by rewrite E2.
Qed.

(** Green prerequisites stay green when a missing result is recorded. *)
Lemma depsGreen_insert r r' n res k :
  u_results r !! n = None -> u_results r' = <[n := res]> (u_results r) ->
  u_emergencyReason r' = u_emergencyReason r ->
  depsGreen r k = true -> depsGreen r' k = true.
Proof.
  intros Hn Hr He. unfold depsGreen. rewrite !forallb_forall. intros H dep Hin.
  specialize (H dep Hin). unfold depGreen, nodeGreen in *. rewrite Hr, He.
  destruct (decide (dep = n)) as [->|]; [by rewrite Hn in H|]. by rewrite lookup_insert_ne.
Qed.

Lemma consumeOne_ok k r d :
  k ∈ u_checks r -> u_verdict r = verdictNone -> graph_ok r ->
  let r' := fst (consumeOne cfg k r d) in
  graph_ok r' /\ u_verdict r' = verdictNone /\ u_checks r' = u_checks r /\
  (u_inflight r = ∅ -> r' = r).
Proof.
  intros Hk Hv Hok. pose proof (consumeOne_cases k r d) as H.
  destruct (consumeOne cfg k r d) as [r' d']. simpl. destruct H as [_ [[-> _]|H]]; [done|].
  destruct H as (inf & res & refs & pay & prod & Hinf & Hres & ->).
  pose proof (go_verdict r Hok Hv) as Hc.
  pose proof (go_disjoint r Hok (k_Name k) ltac:(eauto)) as Hnone.
  assert (forall n, is_Some (delete (k_Name k) (u_inflight r) !! n) ->
            n <> k_Name k /\ is_Some (u_inflight r !! n)) as Hdel.
  { intros n [x Hx]. apply lookup_delete_Some in Hx as [? Hx]. eauto. }
  split_and!; simpl; auto.
  2: { intros E. by rewrite E, lookup_empty in Hinf. }
  destruct Hok. split; unfold names in *; simpl; auto.
  - intros n [? ?]%Hdel. auto.
  - intros n Hn. destruct (decide (n = k_Name k)) as [->|]; [by apply list_elem_of_fmap_2|].
    rewrite lookup_insert_ne in Hn; auto.
  - intros n [? ?]%Hdel. rewrite lookup_insert_ne; auto.
  - assert (size (delete (k_Name k) (u_inflight r)) <= size (u_inflight r))%nat
      by (rewrite map_size_delete, Hinf; lia). lia.
  - intros k2 Hk2 [? ?]%Hdel. eapply depsGreen_insert; eauto.
  - intros. congruence.
  - intros. congruence.
Qed.

Lemma consume_ok checks r d :
  (forall k, k ∈ checks -> k ∈ u_checks r) -> u_verdict r = verdictNone -> graph_ok r ->
  let r' := fst (consume cfg checks r d) in
  graph_ok r' /\ u_verdict r' = verdictNone /\ u_checks r' = u_checks r /\
  (u_inflight r = ∅ -> r' = r).
Proof.
  revert r d. induction checks as [|k rest IH]; intros r d Hsub Hv Hok; cbn [consume]; [done|].
  pose proof (consumeOne_ok k r d (Hsub k ltac:(constructor)) Hv Hok) as H1.
  destruct (consumeOne cfg k r d) as [r1 d1]. simpl in H1. destruct H1 as (Hok1 & Hv1 & Hc1 & He1).
  pose proof (IH r1 d1) as H2. rewrite Hc1 in H2. destruct H2 as (H2 & H3 & H4 & H5); auto.
  { intros k2 Hk2. apply Hsub. by constructor. }
  split_and!; auto. intros E. specialize (He1 E). subst r1. auto.
Qed.

Lemma consume_frame checks r d :
  let '(r', d') := consume cfg checks r d in
  ctl_step d d' /\ u_emergencyReason r' = u_emergencyReason r /\ u_maxParallel r' = u_maxParallel r.
Proof.
  revert r d. induction checks as [|k rest IH]; intros r d; cbn [consume]; [done|].
  pose proof (consumeOne_cases k r d) as H. destruct (consumeOne cfg k r d) as [r1 d1].
  specialize (IH r1 d1). destruct (consume cfg rest r1 d1) as [r2 d2].
  destruct IH as (? & -> & ->). destruct H as [? [[-> _]|(? & ? & ? & ? & ? & _ & _ & ->)]];
    split_and!; auto; etrans; eauto.
Qed.

(** Fixing the culprit: nothing finished is red, or the first red check in
    spec order is recorded and everything running is cancelled. *)
Lemma findCulprit_cases d r :
  u_culprit r = "" ->
  (findCulprit d r = r /\ forall k, k ∈ u_checks r -> redCheck r k = false) \/
  (exists i k ab, u_checks r !! i = Some k /\ redCheck r k = true /\
     (forall j k', (j < i)%nat -> u_checks r !! j = Some k' -> redCheck r k' = false) /\
     findCulprit d r = r <| u_culprit := k_Name k |> <| u_abandonedSeconds := ab |> <| u_inflight := ∅ |>).
Proof.
  intros Hc. unfold findCulprit. rewrite Hc. simpl.
  destruct (find_index (redCheck r) (u_checks r)) as [[i k]|] eqn:E.
  - apply find_index_Some in E as (? & ? & ?). right. eexists i, k, _. split_and!; eauto.
  - left. split; [done|]. intros k Hk. by eapply find_index_None.
Qed.

Lemma findCulprit_ok d r :
  graph_ok r -> u_verdict r = verdictNone ->
  let r' := findCulprit d r in
  u_checks r' = u_checks r /\
  ((r' = r /\ forall k, k ∈ u_checks r -> redCheck r k = false) \/
   (u_culprit r' <> "" /\ u_inflight r' = ∅ /\
    graph_ok (r' <| u_verdict := verdictRejected |>) /\ graph_ok (r' <| u_verdict := verdictErrored |>))).
Proof.
  intros Hok Hv. destruct (findCulprit_cases d r (go_verdict r Hok Hv)) as [[-> H]|H]; [auto|].
  destruct H as (i & k & ab & Hi & Hred & _ & ->). split; [done|]. right.
  apply list_elem_of_lookup_2 in Hi as Hin.
  assert (k_Name k <> "") as Hne.
  { intros E. apply (go_named r Hok). rewrite <- E. by apply list_elem_of_fmap_2. }
  simpl. split_and!; auto.
  all: destruct Hok; split; unfold names in *; simpl; auto; try done;
    try (intros n [x Hx]; by rewrite lookup_empty in Hx); try (rewrite map_size_empty; lia);
    try (intros ? ? [x Hx]; by rewrite lookup_empty in Hx).
  all: intros _; split; [done|]; exists k; auto.
Qed.

Lemma startCheck_frame rank k r d :
  let '(r', d') := startCheck cfg rank k r d in
  ctl_step d d' /\
  r' = r <| u_readyAt := delete (k_Name k) (u_readyAt r) |>
         <| u_inflight ::= <[k_Name k := mkInFlight (jobFor cfg rank k r) (d_now d)
              (match u_readyAt r !! k_Name k with Some a => d_now d - a | None => 0 end) None]> |>.
Proof.
  unfold startCheck. destruct (markCircuitProbe_step cfg r d) as (cs & q & w & evs & Hm).
  rewrite Hm. split; [|done]. etrans; [|apply emit_step]. by exists cs, q, w, evs.
Qed.

Lemma ready_true r k :
  ready r k = true <-> u_results r !! k_Name k = None /\ u_inflight r !! k_Name k = None /\ depsGreen r k = true.
Proof.
  unfold ready, isSome.
  destruct (u_results r !! k_Name k), (u_inflight r !! k_Name k); simpl; split; intros; destruct_and?; auto; done.
Qed.

(** The run changes a start scan makes: marks on [readyAt] and new entries. *)
Definition start_frame r r' : Prop :=
  exists ra inf, r' = r <| u_readyAt := ra |> <| u_inflight := inf |> /\ u_inflight r ⊆ inf.

#[local] Instance start_frame_preorder : PreOrder start_frame.
Proof.
  split.
  - intros r. exists (u_readyAt r), (u_inflight r). by destruct r.
  - intros r r1 r2 (ra & inf & -> & Hs) (ra' & inf' & -> & Hs'). exists ra', inf'.
    split; [done|]. simpl in Hs'. by etrans.
Qed.

Lemma start_insert_ok k r ra inf :
  k ∈ u_checks r -> ready r k = true ->
  Z.of_nat (size (u_inflight r)) + 1 <= u_maxParallel r -> u_verdict r = verdictNone ->
  graph_ok r ->
  graph_ok (r <| u_readyAt := ra |> <| u_inflight ::= <[k_Name k := inf]> |>).
Proof.
  intros Hk (Hres & Hinf & Hdeps)%ready_true Hcap Hv Hok.
  pose proof (go_verdict r Hok Hv) as Hc. destruct Hok.
  split; unfold names in *; simpl; auto; try congruence.
  - intros n. destruct (decide (n = k_Name k)) as [->|]; [intros; by apply list_elem_of_fmap_2|].
    rewrite lookup_insert_ne; auto.
  - intros n. destruct (decide (n = k_Name k)) as [->|]; [done|]. rewrite lookup_insert_ne; auto.
  - rewrite map_size_insert_None by done. lia.
  - intros k2 Hk2. destruct (decide (k_Name k2 = k_Name k)) as [E|];
      [|rewrite lookup_insert_ne by auto; intros H'; exact (go_started0 k2 Hk2 H')].
    intros _. assert (k2 = k) as ->; [|done].
    apply list_elem_of_lookup_1 in Hk as [i Hi]. apply list_elem_of_lookup_1 in Hk2 as [j Hj].
    assert (i = j) as ->; [|congruence].
    apply (NoDup_lookup (k_Name <$> u_checks r) i j (k_Name k)); [done|..];
      rewrite list_lookup_fmap; [by rewrite Hi|rewrite Hj; simpl; by rewrite E].
Qed.

Lemma startReady_ok rank checks cap denied r d :
  (forall k, k ∈ checks -> k ∈ u_checks r) -> u_verdict r = verdictNone ->
  Z.of_nat (size (u_inflight r)) + cap <= u_maxParallel r ->
  graph_ok r ->
  let '(r', d') := startReady cfg rank checks cap denied r d in
  graph_ok r' /\ start_frame r r'.
Proof.
  revert cap denied r d. induction checks as [|k rest IH]; intros cap denied r d Hsub Hv Hcap Hok;
    cbn [startReady]; [by split|].
  destruct (Z.leb_spec cap 0); [by split|].
  assert (forall k2, k2 ∈ rest -> k2 ∈ u_checks r) as Hsub' by (intros; apply Hsub; by constructor).
  destruct (ready r k) eqn:Hr; simpl negb; cbn [negb]; [|apply IH; auto; lia].
  destruct (if denied then _ else _) as [got slots]. destruct got.
  - match goal with |- context [startCheck cfg rank k r ?d0] =>
      pose proof (startCheck_frame rank k r d0) as Hst;
      destruct (startCheck cfg rank k r d0) as [r1 d1] end.
    destruct Hst as [_ ->].
    match goal with |- context [startReady _ _ _ _ _ ?r1 _] => set (r2 := r1) end.
    assert (graph_ok r2) as Hok2.
    { apply start_insert_ok; auto; [apply Hsub, list_elem_of_here|lia]. }
    assert (start_frame r r2) as Hf.
    { exists (delete (k_Name k) (u_readyAt r)), (u_inflight r2). split; [reflexivity|].
      apply insert_subseteq. by apply ready_true in Hr as (_ & ? & _). }
    specialize (IH (cap - 1) denied r2 d1). destruct (startReady _ _ _ _ _ r2 d1) as [r3 d3].
    apply ready_true in Hr as (_ & Hn & _).
    destruct IH as [? ?]; auto; [|split; [done|by etrans]].
    unfold r2. simpl. rewrite map_size_insert_None by done. lia.
  - match goal with |- context [startReady _ _ _ _ _ ?r1 _] =>
      assert (graph_ok r1 /\ start_frame r r1 /\ u_inflight r1 = u_inflight r /\ u_checks r1 = u_checks r
              /\ u_verdict r1 = u_verdict r /\ u_maxParallel r1 = u_maxParallel r)
        as (Hok1 & Hf1 & Ei & Ec & Ev & Em) end.
    { case_match; [by split_and!|]. split_and!; auto.
      - destruct Hok; by split.
      - exists (<[k_Name k := d_now d]> (u_readyAt r)), (u_inflight r). split; [by destruct r|done]. }
    match goal with |- context [startReady _ _ _ _ _ ?r1 _] => 
      specialize (IH (cap - 1) true r1 d); destruct (startReady _ _ _ _ _ r1 d) as [r3 d3] end.
    destruct IH as [? ?]; [by rewrite Ec|by rewrite Ev|rewrite Ei, Em; lia|done|].
    split; [done|by etrans].
Qed.

(** If some check is ready, the scan has room and the slot is granted, the run
    ends the scan with something in flight. *)
Lemma startReady_progress rank checks cap r d k :
  0 < cap -> k ∈ checks -> ready r k = true ->
  fst (TryAcquirePriority (d_slots d) (3 <=? rank)) = true ->
  u_inflight (fst (startReady cfg rank checks cap false r d)) <> ∅.
Proof.
  revert r d. induction checks as [|k1 rest IH]; intros r d Hcap Hin Hr Hslot; [by apply elem_of_nil in Hin|].
  cbn [startReady]. destruct (Z.leb_spec cap 0); [lia|].
  destruct (ready r k1) eqn:Hr1; cbn [negb].
  2: { apply elem_of_cons in Hin as [->|Hin]; [congruence|]. by apply IH. }
  destruct (TryAcquirePriority (d_slots d) (3 <=? rank)) as [got slots]. simpl in Hslot. subst got.
  match goal with |- context [startCheck cfg rank k1 r ?d0] =>
    pose proof (startCheck_frame rank k1 r d0) as Hst;
    destruct (startCheck cfg rank k1 r d0) as [r1 d1] end.
  destruct Hst as [_ ->].
  match goal with |- context [startReady _ _ _ _ _ ?r1 _] => set (r2 := r1) end.
  assert (u_inflight r2 <> ∅) as Hne by (unfold r2; simpl; apply insert_non_empty).
  clearbody r2. clear -Hne. generalize (cap - 1) false. clear cap. revert r2 d1 Hne.
  induction rest as [|k2 rest IH]; intros r2 d1 Hne cap denied; cbn [startReady]; [done|].
  destruct (cap <=? 0); [done|]. destruct (negb (ready r2 k2)); [by apply IH|].
  destruct (if denied then _ else _) as [[] slots].
  - match goal with |- context [startCheck cfg rank k2 r2 ?d0] =>
      pose proof (startCheck_frame rank k2 r2 d0) as Hst;
      destruct (startCheck cfg rank k2 r2 d0) as [r3 d3] end.
    destruct Hst as [_ ->]. apply IH. simpl. apply insert_non_empty.
  - apply IH. by case_match.
Qed.

(** The members with the run's rows written to their records. *)
Definition withRows r : list runMember :=
  map (fun m => m <| rm_rec ::= (fun rec => rec <| rr_Checks := checkRows r 0 (u_checks r) |>) |>)
    (u_members r).

Lemma materializeChecks_frame r :
  materializeChecks r = r \/
  materializeChecks r = r <| u_materialized := true |> <| u_members := withRows r |>.
Proof. unfold materializeChecks. destruct (u_materialized r); auto. Qed.

(** As many results as checks means a result for every check. *)
Lemma all_results r :
  graph_ok r -> size (u_results r) = length (u_checks r) ->
  forall k, k ∈ u_checks r -> is_Some (u_results r !! k_Name k).
Proof.
  intros Hok Hsz k Hk. apply elem_of_dom.
  assert (dom (u_results r) = list_to_set (names r)) as ->.
  { apply set_subseteq_size_eq.
    - intros n Hn%elem_of_dom. apply elem_of_list_to_set. by apply (go_results r Hok).
    - rewrite size_list_to_set by apply (go_names r Hok).
      unfold names. rewrite length_fmap, size_dom, Hsz. done. }
  apply elem_of_list_to_set. by apply list_elem_of_fmap_2.
Qed.

Lemma concludeRed_ok r :
  u_inflight r = ∅ -> graph_ok (r <| u_verdict := verdictRejected |>) ->
  graph_ok (r <| u_verdict := verdictErrored |>) -> graph_ok (concludeRed r) /\ u_verdict (concludeRed r) <> verdictNone
  /\ u_verdict (concludeRed r) <> verdictGreen /\ u_inflight (concludeRed r) = ∅.
Proof.
  intros He H1 H2. unfold concludeRed. rewrite bool_decide_true by done. cbv zeta.
  destruct (materializeChecks_frame r) as [->| ->].
  - destruct (isSome _); split_and!; auto; done.
  - simpl. split_and!; auto; try (by destruct (isSome _)).
    destruct (isSome _); [destruct H2|destruct H1]; by split.
Qed.

Lemma concludeGreen_cases r d :
  let '(r', d') := concludeGreen cfg r d in
  ctl_step d d' /\
  if (size (u_results r) =? length (u_checks r))%nat && bool_decide (u_inflight r = ∅)
  then exists mem mat ver, r' = r <| u_members := mem |> <| u_materialized := mat |>
         <| u_verifiedEmitted := ver |> <| u_verdict := verdictGreen |>
  else r' = r.
Proof.
  unfold concludeGreen. destruct (_ && bool_decide _); [|by split].
  destruct (materializeChecks_frame r) as [->| ->]; destruct (cfg_TrialRefs cfg && _);
    (split; [first [reflexivity|apply emit_step]|]).
  - exists (u_members r), (u_materialized r), true. by destruct r.
  - exists (u_members r), (u_materialized r), (u_verifiedEmitted r). by destruct r.
  - by exists (withRows r), true, true.
  - by exists (withRows r), true, (u_verifiedEmitted r).
Qed.

Lemma keepExecutions_step keep r d : 
  let '(ok, d') := keepExecutions cfg keep r d in ctl_step d d' /\ d_slots d' = d_slots d.
Proof.
  unfold keepExecutions. repeat case_match; simplify_eq; split; auto; try reflexivity; apply ctl_step_controls.
Qed.

(** The outcome of a pass over an undecided run, phase by phase. *)
Lemma advanceChecks_cases keep rank r d :
  graph_ok r -> u_verdict r = verdictNone -> fst (keepExecutions cfg keep r d) = true ->
  let '(r', d') := advanceChecks cfg keep rank r d in
  graph_ok r' /\
  (u_verdict r' = verdictNone \/
   (u_verdict r' <> verdictGreen /\ u_inflight r' = ∅) \/
   (u_verdict r' = verdictGreen)).
Proof.
  intros Hok Hv Hkeep. unfold advanceChecks.
  destruct (keepExecutions cfg keep r d) as [ok d0]. simpl in Hkeep. subst ok. cbn [negb].
  rewrite bool_decide_true by done. cbn [negb].
  pose proof (consume_ok (u_checks r) r d0 (fun _ H => H) Hv Hok) as Hc.
  destruct (consume cfg (u_checks r) r d0) as [r1 d1]. cbn [fst] in Hc. destruct Hc as (Hok1 & Hv1 & Hc1 & _).
  destruct (findCulprit_ok d1 r1 Hok1 Hv1) as [Hc2 [[-> Hnr]|(Hc3 & He & Ha & Hb)]].
  - rewrite (go_verdict r1 Hok1 Hv1). cbn [String.eqb negb].
    match goal with |- context [startReady cfg rank ?cs ?cap false r1 d1] =>
      pose proof (startReady_ok rank cs cap false r1 d1 (fun _ H => H) Hv1 ltac:(lia) Hok1) as Hs;
      destruct (startReady cfg rank cs cap false r1 d1) as [r2 d2] end.
    destruct Hs as [Hok2 (ra & inf & -> & Hsub)].
    pose proof (concludeGreen_cases (r1 <| u_readyAt := ra |> <| u_inflight := inf |>) d2) as Hg.
    destruct (concludeGreen cfg _ d2) as [r3 d3]. destruct Hg as [_ Hg].
    destruct (_ && bool_decide _) eqn:E; [|subst r3; auto].
    destruct Hg as (mem & mat & ver & ->). split; [|by auto].
    apply andb_prop in E as [E1%Nat.eqb_eq E2%bool_decide_eq_true]. simpl in E1, E2.
    destruct Hok2; split; simpl in *; auto; try done. intros _. split; [done|].
    intros k Hk. destruct (all_results r1 Hok1 E1 k Hk) as [res Hres].
    exists res. split; [done|]. specialize (Hnr k Hk). unfold redCheck in Hnr. rewrite Hres in Hnr.
    by apply negb_false_iff in Hnr.
  - destruct (String.eqb_spec (u_culprit (findCulprit d1 r1)) ""); [done|]. cbn [negb].
    destruct (concludeRed_ok (findCulprit d1 r1) He Ha Hb) as (? & ? & ? & ?). auto.
Qed.

Lemma advanceChecks_ok keep rank r d : graph_ok r -> graph_ok (fst (advanceChecks cfg keep rank r d)).
Proof.
  intros Hok. destruct (decide (u_verdict r = verdictNone)) as [Hv|Hv].
  - destruct (fst (keepExecutions cfg keep r d)) eqn:Hk.
    + pose proof (advanceChecks_cases keep rank r d Hok Hv Hk) as H.
      destruct (advanceChecks cfg keep rank r d). by destruct H.
    + unfold advanceChecks. destruct (keepExecutions cfg keep r d) as [ok d0]. simpl in Hk. by subst ok.
  - unfold advanceChecks. destruct (keepExecutions cfg keep r d) as [[] d0]; simpl; [|done].
    by rewrite bool_decide_false.
Qed.

Lemma workerReports_ok n res r : graph_ok r -> graph_ok (workerReports n res r).
Proof.
  assert (forall m, is_Some (u_inflight (workerReports n res r) !! m) <-> is_Some (u_inflight r !! m)) as Hd.
  { intros m. unfold workerReports. simpl. rewrite lookup_alter. case_decide; subst; [|done].
    destruct (u_inflight r !! m); simpl; split; intros []; eauto; done. }
  intros Hok. assert (u_inflight r = ∅ -> u_inflight (workerReports n res r) = ∅) as He.
  { intros E. unfold workerReports. simpl. rewrite E. apply map_eq. intros m.
    rewrite lookup_alter, lookup_empty. by case_decide. }
  destruct Hok. split; auto; try (intros; apply Hd in H; auto).
  - unfold workerReports; simpl. rewrite <- !size_dom, dom_alter_L, size_dom. done.
  - intros k Hk Hi%Hd. exact (go_started0 k Hk Hi).
  - intros Hc. destruct (go_culprit0 Hc). auto.
  - intros Hg. destruct (go_green0 Hg). auto.
Qed.
End GraphLemmas.

#[export] Hint Resolve advanceChecks_ok workerReports_ok : gauntlet.

(** ** Runs as interleavings of passes and worker reports *)

Inductive graph_step (cfg : Config) : run -> run -> Prop :=
  | gs_pass r keep rank d : graph_step cfg r (fst (advanceChecks cfg keep rank r d))
  | gs_report r n res inf :
      u_inflight r !! n = Some inf -> f_result inf = None ->
      graph_step cfg r (workerReports n res r).

(** A run as [startRun] and [finishBatchStart] build it. *)
Definition fresh_run (r : run) : Prop :=
  NoDup (names r) /\ ("" ∉ names r) /\ u_inflight r = ∅ /\ u_results r = ∅ /\
  u_imageRefs r = ∅ /\ u_culprit r = "" /\ u_verdict r = verdictNone.

Lemma fresh_run_ok r : fresh_run r -> graph_ok r.
Proof.
  intros (? & ? & Hi & Hr & _ & Hc & Hv). split; rewrite ?Hi, ?Hr, ?Hc, ?Hv; auto; try done;
    try (intros n [x Hx]; by rewrite lookup_empty in Hx).
  - rewrite map_size_empty. lia.
  - intros k _ [x Hx]. by rewrite lookup_empty in Hx.
Qed.

Lemma graph_step_ok cfg r r' : graph_step cfg r r' -> graph_ok r -> graph_ok r'.
Proof. destruct 1; auto using advanceChecks_ok, workerReports_ok. Qed.

Lemma graph_steps_ok cfg r r' : rtc (graph_step cfg) r r' -> graph_ok r -> graph_ok r'.
Proof. induction 1; eauto using graph_step_ok. Qed.

(** C6. Safety of the run graph, over every interleaving of reconcile passes
    and worker reports from a freshly built run: at most [maxParallel] checks are
    in flight, a check in flight has every prerequisite finished green, and a
    green verdict means every check of the spec has a green result with nothing
    left running. *)
Theorem run_graph_safe cfg r0 r :
  fresh_run r0 -> rtc (graph_step cfg) r0 r ->
  Z.of_nat (size (u_inflight r)) <= Z.max 0 (u_maxParallel r) /\
  (forall k, k ∈ u_checks r -> is_Some (u_inflight r !! k_Name k) ->
     forall dep, dep ∈ k_After k -> exists res, u_results r !! dep = Some res /\ nodeGreen r res = true) /\
  (u_verdict r = verdictGreen ->
     u_inflight r = ∅ /\ forall k, k ∈ u_checks r ->
       exists res, u_results r !! k_Name k = Some res /\ nodeGreen r res = true).
Proof.
  intros H0 Hsteps. pose proof (graph_steps_ok _ _ _ Hsteps (fresh_run_ok _ H0)) as Hok.
  split_and!; [apply (go_parallel r Hok)| |apply (go_green r Hok)].
  intros k Hk Hi dep Hdep. pose proof (go_started r Hok k Hk Hi) as Hd.
  unfold depsGreen in Hd. rewrite forallb_forall in Hd.
  specialize (Hd dep ltac:(by apply list_elem_of_In)). unfold depGreen in Hd.
  destruct (u_results r !! dep); eauto. done.
Qed.

(** A two-check run for concrete inputs: [test] waits for [build]. *)
Definition demoCheck (name : string) (after : list string) : Check :=
  mkCheck "" None None name ["make"; name] [] after "" "".

Definition demoRunOf (checks : list Check) : run :=
  mkRun f64_zero "" "" false false "main"
    [mkMember demoCand "m1" (zeroRunRecord <| rr_RunID := "run1" |> <| rr_Candidate := demoCand |>
       <| rr_BaseOID := "b0" |> <| rr_MergeSHA := "m1" |>)]
    "b0" "m1" "t1" false "" "run1" checks 2 ∅ ∅ ∅ "" ∅ false None "" "" "" false verdictNone false "".

Definition demoRun : run := demoRunOf [demoCheck "build" []; demoCheck "test" ["build"]].

Definition passed (name : string) : CheckResult :=
  zeroCheckResult <| r_Name := name |> <| r_Status := CheckPassed |>.

Lemma demoRun_fresh : fresh_run demoRun.
Proof.
  unfold fresh_run. split_and!; try reflexivity.
  - apply (bool_decide_unpack (NoDup (names demoRun))). vm_compute. exact I.
  - apply (bool_decide_unpack ("" ∉ names demoRun)). vm_compute. exact I.
Qed.

Definition demoPass (r : run) : run := fst (advanceChecks demoConfig None 1 r demoDaemon).

Definition demoGreen : run :=
  demoPass (workerReports "test" (passed "test")
    (demoPass (workerReports "build" (passed "build") (demoPass demoRun)))).

Lemma run_graph_safe_witness :
  rtc (graph_step demoConfig) demoRun demoGreen /\ u_verdict demoGreen = verdictGreen /\
  (u_inflight demoGreen = ∅ /\ forall k, k ∈ u_checks demoGreen ->
     exists res, u_results demoGreen !! k_Name k = Some res /\ nodeGreen demoGreen res = true).
Proof.
  assert (rtc (graph_step demoConfig) demoRun demoGreen) as Hs.
  { eapply rtc_l; [apply (gs_pass _ _ None 1 demoDaemon)|].
    eapply rtc_l; [eapply (gs_report _ _ "build" (passed "build")); vm_compute; reflexivity|].
    eapply rtc_l; [apply (gs_pass _ _ None 1 demoDaemon)|].
    eapply rtc_l; [eapply (gs_report _ _ "test" (passed "test")); vm_compute; reflexivity|].
    eapply rtc_l; [apply (gs_pass _ _ None 1 demoDaemon)|]. apply rtc_refl. }
  assert (u_verdict demoGreen = verdictGreen) as Hv by (vm_compute; reflexivity).
  split; [exact Hs|]. split; [exact Hv|].
  exact (proj2 (proj2 (run_graph_safe demoConfig demoRun demoGreen demoRun_fresh Hs)) Hv).
Defined.

(** ** No run gets stuck *)

(** The dependencies are declared and acyclic, witnessed by a depth. *)
Definition acyclic (checks : list Check) (depth : string -> nat) : Prop :=
  forall k dep, k ∈ checks -> dep ∈ k_After k ->
    dep ∈ (k_Name <$> checks) /\ (depth dep < depth (k_Name k))%nat.

(** Among the checks without a result, one of least depth. *)
Lemma least_pending (depth : string -> nat) (P : Check -> bool) (l : list Check) k :
  k ∈ l -> P k = true ->
  exists m, m ∈ l /\ P m = true /\
    forall k', k' ∈ l -> (depth (k_Name k') < depth (k_Name m))%nat -> P k' = false.
Proof.
  remember (depth (k_Name k)) as n eqn:Hn. revert k Hn.
  induction n as [n IH] using lt_wf_ind. intros k -> Hk HP.
  destruct (find_index (fun k' => P k' && (depth (k_Name k') <? depth (k_Name k))%nat) l) as [[i k']|] eqn:E.
  - apply find_index_Some in E as (Hi & [HP' Hlt%Nat.ltb_lt]%andb_prop & _).
    eapply (IH _ Hlt k'); eauto using list_elem_of_lookup_2.
  - exists k. split_and!; auto. intros k' Hk' Hlt.
    pose proof (find_index_None _ _ _ E Hk') as H. simpl in H.
    apply andb_false_iff in H as [H|H]; [done|]. apply Nat.ltb_ge in H. lia.
Qed.

(** C31. Liveness of a pass: an undecided run with nothing in flight, an acyclic
    spec, positive parallelism and a free execution slot either starts a check or
    reaches a verdict, so a run never waits forever on its own graph. *)
Theorem run_graph_progress cfg keep rank r d depth :
  graph_ok r -> u_verdict r = verdictNone -> u_inflight r = ∅ ->
  acyclic (u_checks r) depth -> 0 < u_maxParallel r ->
  fst (keepExecutions cfg keep r d) = true ->
  (forall d1, ctl_step (snd (keepExecutions cfg keep r d)) d1 ->
     fst (TryAcquirePriority (d_slots d1) (3 <=? rank)) = true) ->
  let r' := fst (advanceChecks cfg keep rank r d) in
  u_inflight r' <> ∅ \/ u_verdict r' <> verdictNone.
Proof.
  intros Hok Hv He Hac Hmax Hkeep Hslot. unfold advanceChecks.
  destruct (keepExecutions cfg keep r d) as [ok d0]. simpl in Hkeep, Hslot. subst ok. cbn [negb].
  rewrite bool_decide_true by done. cbn [negb].
  pose proof (consume_ok cfg (u_checks r) r d0 (fun _ H => H) Hv Hok) as (_ & _ & _ & Hc).
  pose proof (consume_frame cfg (u_checks r) r d0) as Hf.
  destruct (consume cfg (u_checks r) r d0) as [r1 d1]. destruct Hf as [Hst _]. cbn [fst] in Hc.
  rewrite (Hc He) in *. clear r1 Hc.
  destruct (findCulprit_ok d1 r Hok Hv) as [Hc2 [[-> Hnr]|(Hc3 & He3 & Ha & Hb)]].
  2: { destruct (String.eqb_spec (u_culprit (findCulprit d1 r)) ""); [done|]. cbn [negb].
       destruct (concludeRed_ok (findCulprit d1 r) He3 Ha Hb) as (? & ? & ? & ?). auto. }
  rewrite (go_verdict r Hok Hv). cbn [String.eqb negb]. rewrite He, map_size_empty.
  destruct (find_index (fun k => negb (isSome (u_results r !! k_Name k))) (u_checks r)) as [[i k]|] eqn:E.
  - (* some check is pending: one of least depth is ready *)
    apply find_index_Some in E as (Hi%list_elem_of_lookup_2 & Hk & _).
    destruct (least_pending depth (fun k => negb (isSome (u_results r !! k_Name k))) _ _ Hi Hk) as (m & Hm & Hpm & Hleast).
    assert (ready r m = true) as Hready.
    { apply ready_true. split_and!; [by destruct (u_results r !! k_Name m)|by rewrite He|].
      unfold depsGreen. apply forallb_forall. intros dep Hdep%list_elem_of_In.
      destruct (Hac m dep Hm Hdep) as [(k' & -> & Hk')%list_elem_of_fmap Hlt].
      specialize (Hleast k' Hk' Hlt). specialize (Hnr k' Hk').
      unfold redCheck in Hnr. unfold depGreen.
      destruct (u_results r !! k_Name k'); [by apply negb_false_iff in Hnr|done]. }
    pose proof (startReady_progress cfg rank (u_checks r) (u_maxParallel r - Z.of_nat 0) r d1 m
      ltac:(lia) Hm Hready (Hslot d1 Hst)) as Hp.
    destruct (startReady _ _ _ _ _ r d1) as [r2 d2]. cbn [fst] in Hp.
    pose proof (concludeGreen_cases cfg r2 d2) as Hg. destruct (concludeGreen cfg r2 d2) as [r3 d3].
    destruct Hg as [_ Hg]. rewrite (bool_decide_false _ Hp), andb_false_r in Hg. subst r3. by left.
  - (* every check has a result *)
    pose proof (startReady_ok cfg rank (u_checks r) (u_maxParallel r - Z.of_nat 0) false r d1
      (fun _ H => H) Hv ltac:(rewrite He, map_size_empty; lia) Hok) as Hs.
    destruct (startReady _ _ _ _ _ r d1) as [r2 d2]. destruct Hs as [Hok2 (ra & inf & -> & _)].
    pose proof (concludeGreen_cases cfg (r <| u_readyAt := ra |> <| u_inflight := inf |>) d2) as Hg.
    destruct (concludeGreen cfg _ d2) as [r3 d3]. destruct Hg as [_ Hg]. simpl in Hg.
    destruct (bool_decide_reflect (inf = ∅)) as [->|Hne].
    2: { rewrite andb_false_r in Hg. subst r3. by left. }
    right. replace (size (u_results r)) with (length (u_checks r)) in Hg.
    { rewrite Nat.eqb_refl in Hg. simpl in Hg. destruct Hg as (? & ? & ? & ->). done. }
    assert (dom (u_results r) = list_to_set (names r)) as Hdom.
    { apply set_eq. intros n. rewrite elem_of_dom, elem_of_list_to_set. split; [apply (go_results r Hok)|].
      intros (k & -> & Hk)%list_elem_of_fmap. pose proof (find_index_None _ _ _ E Hk) as H. simpl in H.
      destruct (u_results r !! k_Name k); [eauto|done]. }
    rewrite <- size_dom, Hdom, size_list_to_set by apply (go_names r Hok).
    unfold names. by rewrite length_fmap.
Qed.

Lemma run_graph_progress_witness :
  u_inflight (demoPass demoRun) <> ∅ \/ u_verdict (demoPass demoRun) <> verdictNone.
Proof.
  apply (run_graph_progress demoConfig None 1 demoRun demoDaemon
    (fun n => if String.eqb n "test" then 1%nat else 0%nat)).
  - apply fresh_run_ok, demoRun_fresh.
  - reflexivity.
  - reflexivity.
  - intros k dep Hk Hdep. repeat (apply elem_of_cons in Hk as [->|Hk]); [..|by apply elem_of_nil in Hk].
    + by apply elem_of_nil in Hdep.
    + apply list_elem_of_singleton in Hdep as ->. split; [apply list_elem_of_here|vm_compute; lia].
  - vm_compute. reflexivity.
  - reflexivity.
  - intros d1 (cs & q & w & evs & ->). reflexivity.
Defined.

(** ** Red runs *)

Lemma checkRow_red r i k : u_culprit r <> "" -> is_Some (checkRow r i k).
Proof.
  intros Hc. unfold checkRow. destruct (u_results r !! k_Name k); [eauto|].
  destruct (String.eqb_spec (u_culprit r) ""); [done|eauto].
Qed.

Lemma checkRows_red r i checks :
  u_culprit r <> "" ->
  length (checkRows r i checks) = length checks /\
  forall j k, checks !! j = Some k -> checkRows r i checks !! j = checkRow r (i + j) k.
Proof.
  intros Hc. revert i. induction checks as [|k0 rest IH]; intros i; [done|]. cbn [checkRows].
  destruct (checkRow_red r i k0 Hc) as [row Hrow]. rewrite Hrow. destruct (IH (S i)) as [Hl Hj].
  split; [simpl; lia|]. intros [|j] k Hk; simpl in Hk |- *.
  - injection Hk as ->. by rewrite Nat.add_0_r, Hrow.
  - rewrite (Hj j k Hk). f_equal. lia.
Qed.

(** A red pass: when a pass over an undecided run fixes a culprit, the
    culprit is the first non-green result in spec order whatever order the
    workers finished in, nothing is left in flight, the verdict tells an
    infrastructure error from a failed check, and every member's record gets one
    row per check, numbered by spec position, where a check that ran keeps its
    own result and a check that never ran is blocked by a non-empty list. *)
Theorem red_run_recorded cfg keep rank r d :
  graph_ok r -> u_verdict r = verdictNone -> u_materialized r = false ->
  fst (keepExecutions cfg keep r d) = true ->
  let r' := fst (advanceChecks cfg keep rank r d) in
  u_culprit r' <> "" ->
  u_inflight r' = ∅ /\
  (exists i k res, u_checks r' !! i = Some k /\ k_Name k = u_culprit r' /\
     u_results r' !! k_Name k = Some res /\ nodeGreen r' res = false /\
     (forall j k', (j < i)%nat -> u_checks r' !! j = Some k' -> redCheck r' k' = false) /\
     u_verdict r' = (if isSome (r_Err res) then verdictErrored else verdictRejected)) /\
  (forall m, m ∈ u_members r' -> length (rr_Checks (rm_rec m)) = length (u_checks r') /\
     forall i k, u_checks r' !! i = Some k -> exists row, rr_Checks (rm_rec m) !! i = Some row /\
       r_Seq row = Z.of_nat i + 1 /\
       match u_results r' !! k_Name k with
       | Some res => row = res <| r_Seq := Z.of_nat i + 1 |>
       | None => r_Name row = k_Name k /\ r_Status row = CheckBlocked /\ r_BlockedBy row <> []
       end).
Proof.
  intros Hok Hv Hm Hkeep. unfold advanceChecks.
  destruct (keepExecutions cfg keep r d) as [ok d0]. simpl in Hkeep. subst ok. cbn [negb].
  rewrite bool_decide_true by done. cbn [negb].
  pose proof (consume_ok cfg (u_checks r) r d0 (fun _ H => H) Hv Hok) as Hc.
  assert (u_materialized (fst (consume cfg (u_checks r) r d0)) = false) as Hm1.
  { clear -Hm. generalize (u_checks r). intros l. revert r d0 Hm.
    induction l as [|k rest IH]; intros r d0 Hm; cbn [consume]; [done|].
    pose proof (consumeOne_cases cfg k r d0) as H. destruct (consumeOne cfg k r d0) as [r1 d1].
    apply IH. by destruct H as [_ [[-> _]|(? & ? & ? & ? & ? & _ & _ & ->)]]. }
  destruct (consume cfg (u_checks r) r d0) as [r1 d1]. cbn [fst] in Hc, Hm1. destruct Hc as (Hok1 & Hv1 & Hc1 & _).
  pose proof (go_verdict r1 Hok1 Hv1) as Hcul.
  destruct (findCulprit_cases d1 r1 Hcul) as [[-> Hnr]|(i & k & ab & Hi & Hred & Hfirst & E)].
  - rewrite Hcul. cbn [String.eqb negb].
    match goal with |- context [startReady cfg rank ?cs ?cap false r1 d1] =>
      pose proof (startReady_ok cfg rank cs cap false r1 d1 (fun _ H => H) Hv1 ltac:(lia) Hok1) as Hs;
      destruct (startReady cfg rank cs cap false r1 d1) as [r2 d2] end.
    destruct Hs as [_ (ra & inf & -> & _)].
    pose proof (concludeGreen_cases cfg (r1 <| u_readyAt := ra |> <| u_inflight := inf |>) d2) as Hg.
    destruct (concludeGreen cfg _ d2) as [r3 d3]. destruct Hg as [_ Hg]. cbn [fst].
    intros Hne. exfalso. apply Hne. destruct (_ && bool_decide _); [destruct Hg as (? & ? & ? & ->)|subst r3];
      exact Hcul.
  - rewrite E. set (r2 := r1 <| u_culprit := _ |> <| u_abandonedSeconds := _ |> <| u_inflight := _ |>).
    apply list_elem_of_lookup_2 in Hi as Hin.
    assert (k_Name k <> "") as Hne.
    { intros En. apply (go_named r1 Hok1). rewrite <- En. by apply list_elem_of_fmap_2. }
    change (u_culprit r2) with (k_Name k). destruct (String.eqb_spec (k_Name k) ""); [done|]. cbn [negb fst].
    unfold concludeRed. rewrite (bool_decide_true (u_inflight r2 = ∅)) by done. cbv zeta.
    assert (materializeChecks r2 = r2 <| u_materialized := true |> <| u_members := withRows r2 |>) as ->.
    { unfold materializeChecks. change (u_materialized r2) with (u_materialized r1). by rewrite Hm1. }
    intros _. unfold redCheck in Hred. destruct (u_results r1 !! k_Name k) as [res|] eqn:Hres; [|done].
    split; [done|]. split.
    + exists i, k, res. simpl. rewrite Hres. simpl. split_and!; auto. by apply negb_true_iff in Hred.
    + intros m Hmem. change (m ∈ withRows r2) in Hmem. apply list_elem_of_In, in_map_iff in Hmem as (m0 & <- & _).
      change (rr_Checks _) with (checkRows r2 0 (u_checks r2)).
      destruct (checkRows_red r2 0 (u_checks r2) Hne) as [Hlen Hrows]. split; [exact Hlen|].
      intros i2 k2 H2. rewrite (Hrows i2 k2 H2). unfold checkRow. cbn [Nat.add].
      change (u_results r2) with (u_results r1). destruct (u_results r1 !! k_Name k2) as [res2|] eqn:E2.
      * eexists. split; [reflexivity|]. split; [done|]. simpl. by rewrite E2.
      * change (u_culprit r2) with (k_Name k). destruct (String.eqb_spec (k_Name k) ""); [done|].
        eexists. split; [reflexivity|]. split; [done|]. simpl. rewrite E2. simpl. split_and!; auto.
        unfold blockers. by destruct (List.filter _ _).
Qed.

Definition demoBoth : run := demoRunOf [demoCheck "lint" []; demoCheck "unit" []; demoCheck "ship" ["unit"]].

Definition demoBothDone : run :=
  workerReports "lint" (passed "lint")
    (workerReports "unit" (passed "unit" <| r_Status := CheckFailed |>) (demoPass demoBoth)).

Lemma demoBoth_fresh : fresh_run demoBoth.
Proof.
  unfold fresh_run. split_and!; try reflexivity.
  - apply (bool_decide_unpack (NoDup (names demoBoth))). vm_compute. exact I.
  - apply (bool_decide_unpack ("" ∉ names demoBoth)). vm_compute. exact I.
Qed.

Lemma red_run_recorded_witness :
  u_culprit (demoPass demoBothDone) = "unit" /\ u_inflight (demoPass demoBothDone) = ∅.
Proof.
  split; [vm_compute; reflexivity|].
  refine (proj1 (red_run_recorded demoConfig None 1 demoBothDone demoDaemon _ _ _ _ _)).
  - unfold demoBothDone. do 2 apply workerReports_ok. apply advanceChecks_ok, fresh_run_ok, demoBoth_fresh.
  - vm_compute. reflexivity.
  - vm_compute. reflexivity.
  - reflexivity.
  - vm_compute. discriminate.
Defined.
