(* ===== verification/Scheduling.v ===== *)
(** Candidate discovery and ordering ([src/internal/queue]: the first half of
    reconcile.go and scheduling.go): the ref grammar, per-tick bookkeeping of
    FIFO positions and parks, priority inheritance along dependencies, the pick
    that respects both, and the planner behind priority and move commands.

    Go ranges over maps in an unspecified order. Where a loop's effect could
    depend on it, the definition takes the order as a list of keys. *)
From S2P Require Import Prelude GoString Core Slots Daemon Controls.
From Stdlib Require Import Ascii.

Open Scope string_scope.
Open Scope list_scope.
Open Scope Z_scope.

(** ** Candidate refs *)

(** src/internal/queue/reconcile.go:23-23 [candidatePrefix] *)
Definition candidatePrefix := "refs/heads/for/".

(** src/internal/queue/reconcile.go:32-56 [parseCandidateRef] Target, user and
    topic. *)
Definition parseCandidateRef (ref : string) : option (string * string * string) :=
  match strip_prefix (to_bytes candidatePrefix) (to_bytes ref) with
  | None => None
  | Some rest =>
      match cut_at "/"%char rest with
      | None | Some ([], _) | Some (_, []) => None
      | Some (target, remainder) =>
          match cut_at "/"%char remainder with
          | Some ([], _) | Some (_, []) => None
          | Some (user, topic) => Some (of_bytes target, of_bytes user, of_bytes topic)
          | None => Some (of_bytes target, "", of_bytes remainder)
          end
      end
  end.

(** src/internal/queue/reconcile.go:60-70 [discoverCandidates] *)
Definition discoverCandidates (target : string) (refs : gmap string string) : gmap string Candidate :=
  map_imap (fun ref sha =>
    match parseCandidateRef ref with
    | Some (t, user, topic) =>
        if String.eqb t target
        then Some (zeroCandidate <| c_Ref := ref |> <| c_Target := target |> <| c_User := user |>
                     <| c_Topic := topic |> <| c_SHA := sha |>)
        else None
    | None => None
    end) refs.

(** src/internal/queue/reconcile.go:121-126 [reconcileTarget] Review candidates
    replace discovered ones under the same ref. *)
Definition candidatesFor (d : Daemon) (target : string) (refs : gmap string string) : gmap string Candidate :=
  filter (fun p => c_Target p.2 = target) (d_external d) ∪ discoverCandidates target refs.

(** ** Priorities *)

(** src/internal/queue/scheduling.go:28-40 [PriorityRank] *)
Definition PriorityRank (class : string) : Z * bool :=
  if String.eqb class "low" then (0, true)
  else if String.eqb class "" || String.eqb class "normal" then (1, true)
  else if String.eqb class "high" then (2, true)
  else if String.eqb class "urgent" then (3, true)
  else (0, false).

Definition agingStep : Z := 30 * 60 * 1000000000.

(** src/internal/queue/scheduling.go:269-284 [ownPriority] A control override
    holds for the exact revision; waiting raises low and normal classes to high
    at most. *)
Definition ownPriority (d : Daemon) (c : Candidate) (now : Z) : Z :=
  let value := fst (PriorityRank (c_Priority c)) in
  let value := if c_Urgent c then 3 else value in
  let value := match cs_Priorities (d_controls d) !! c_Ref c with
               | Some entry =>
                   if String.eqb (rv_SHA (py_Revision entry)) (c_SHA c)
                      && String.eqb (rv_Version (py_Revision entry)) (c_Version c)
                   then fst (PriorityRank (py_Class entry)) else value
               | None => value
               end in
  let at' := cs_Enqueued (d_controls d) !!! c_Ref c else 0 in
  if negb (at' =? 0) && (value <? 2) then
    let age := Z.quot (now - at') agingStep in
    if 0 <? age then Z.min 2 (value + age) else value
  else value.

(** The depth-first search [priorityAt] and [PlanSchedule] share: the value of
    [ref] and of the nodes below it not seen before. [keys] is the order in
    which the candidates are ranged over. *)
Section RankFrom.
Context (own : string -> Z) (cands : gmap string Candidate) (keys : list string).

(** src/internal/queue/scheduling.go:295-295 [priorityAt] *)
Definition dependsOn (child : string) : string := c_DependsOn (cands !!! child else zeroCandidate).

(** src/internal/queue/scheduling.go:294-300 [priorityAt] *)
Definition children (ref : string) : list string :=
  List.filter (fun child => String.eqb (dependsOn child) ref) keys.

(** src/internal/queue/scheduling.go:296-298 [priorityAt] *)
Definition visit (rank : string -> gset string -> Z * gset string) (acc : Z * gset string)
    (child : string) : Z * gset string :=
  let '(value, seen) := acc in
  let '(childRank, seen) := rank child seen in
  (if value <? childRank then childRank else value, seen).

(** src/internal/queue/scheduling.go:289-303 [priorityAt] *)
Fixpoint rankFrom (fuel : nat) (ref : string) (seen : gset string) : Z * gset string :=
  match fuel with
  | O => (0, seen)
  | S fuel =>
      if decide (ref ∈ seen) then (0, seen)
      else fold_left (visit (rankFrom fuel)) (children ref) (own ref, {[ref]} ∪ seen)
  end.
End RankFrom.

Definition keys_of (cands : gmap string Candidate) : list string := (map_to_list cands).*1.

(** src/internal/queue/scheduling.go:286-305 [priorityAt] Each nested call that
    does work sees a new candidate, so [2 + size cands] levels are enough. *)
Definition priorityAt (d : Daemon) (ref : string) (cands : gmap string Candidate) (now : Z) : Z :=
  fst (rankFrom (fun ref => ownPriority d (cands !!! ref else zeroCandidate) now) cands
         (keys_of cands) (S (S (size cands))) ref ∅).

(** src/internal/queue/scheduling.go:404-417 [runPriority] *)
Definition runPriority (d : Daemon) (r : run) : Z :=
  let candidates := fold_left (fun m mem => <[c_Ref (rm_cand mem) := rm_cand mem]> m)
                      (u_members r) (d_external d) in
  fold_left (fun rank mem => Z.max rank (priorityAt d (c_Ref (rm_cand mem)) candidates (d_now d)))
    (u_members r) 0.

(** src/internal/queue/scheduling.go:419-419 [runUrgent] *)
Definition runUrgent (d : Daemon) (r : run) : bool := 3 <=? runPriority d r.

(** ** Picking *)

Section Pick.
Context (d : Daemon) (target : string) (cands : gmap string Candidate).
Implicit Types (inFlight : gset string) (ref : string).

(** src/internal/queue/reconcile.go:293-295 [pickUpTo] *)
Definition paused : bool := isSome (cs_Pauses (d_controls d) !! target).

(** src/internal/queue/reconcile.go:289-307 [pickUpTo] *)
Definition eligible inFlight ref : bool :=
  match cands !! ref with
  | None => false
  | Some c =>
      String.eqb (c_AdmissionBlocked c) "" && negb (c_SkipChecks c)
      && negb (paused && negb (c_OverridePause c))
      && negb (match done_of d target !! ref with
               | Some parked => String.eqb (pk_SHA parked) (c_SHA c)
               | None => false
               end)
      && negb (bool_decide (ref ∈ inFlight))
  end.

(** src/internal/queue/reconcile.go:308-325 [pickUpTo] The comparator: rank, or
    others before urgent ones after a burst of three; then FIFO position; then
    the ref. *)
Definition pickLess (a b : string) : bool :=
  let pi := priorityAt d a cands (d_now d) in
  let pj := priorityAt d b cands (d_now d) in
  let order := order_of d target in
  if negb (Bool.eqb (pi =? 3) (pj =? 3)) && (3 <=? (d_urgentBurst d !!! target else 0))
  then negb (pi =? 3)
  else if negb (pi =? pj) then pj <? pi
  else if negb ((order !!! a else 0) =? (order !!! b else 0))
  then (order !!! a else 0) <? (order !!! b else 0)
  else String.ltb a b.

(** src/internal/queue/reconcile.go:334-336 [pickUpTo] The candidate's prerequisite is chosen, in flight or not needed. *)
Definition depMet inFlight (out : list string) ref : bool :=
  let dep := dependsOn cands ref in
  String.eqb dep "" || bool_decide (dep ∈ out) || bool_decide (dep ∈ inFlight).

(** src/internal/queue/reconcile.go:332-343 [pickUpTo] One pass over the sorted
    refs; [out] lists the refs of the selected candidates. *)
Fixpoint pickPass (n : Z) inFlight (refs : list string) (out : list string) (progress : bool)
  : list string * bool :=
  match refs with
  | [] => (out, progress)
  | ref :: rest =>
      if bool_decide (ref ∈ out) || negb (depMet inFlight out ref)
      then pickPass n inFlight rest out progress
      else
        let out := out ++ [ref] in
        if (0 <=? n) && (Z.of_nat (length out) =? n) then (out, true)
        else pickPass n inFlight rest out true
  end.

(** src/internal/queue/reconcile.go:330-346 [pickUpTo] Every pass but the last
    selects something. *)
Fixpoint pickLoop (fuel : nat) (n : Z) inFlight (refs out : list string) : list string :=
  match fuel with
  | O => out
  | S fuel =>
      if (length out <? length refs)%nat && ((n <? 0) || (Z.of_nat (length out) <? n)) then
        let '(out, progress) := pickPass n inFlight refs out false in
        if progress then pickLoop fuel n inFlight refs out else out
      else out
  end.

(** src/internal/queue/reconcile.go:284-346 [pickUpTo] The selected refs, with
    the candidates ranged over in the order [keys]. *)
Definition pickRefs (keys : list string) (n : Z) inFlight : list string :=
  let refs := sort_by pickLess (List.filter (eligible inFlight) keys) in
  pickLoop (S (length refs)) n inFlight refs [].

(** src/internal/queue/reconcile.go:284-346 [pickUpTo] *)
Definition pickUpTo (n : Z) inFlight : list Candidate :=
  map (fun ref => cands !!! ref else zeroCandidate) (pickRefs (keys_of cands) n inFlight).

(** src/internal/queue/reconcile.go:272-278 [pickHead] *)
Definition pickHead : option Candidate := head (pickUpTo 1 ∅).

(** src/internal/queue/reconcile.go:358-360 [pickNext] *)
Definition pickNext inFlight : option Candidate := head (pickUpTo 1 inFlight).
End Pick.

(** ** Bookkeeping *)

Section Sync.
Context (cfg : Config).

(** src/internal/queue/reconcile.go:172-180 [syncBookkeeping] Vanished refs
    lose their position and their overrides. *)
Definition dropVanished (target : string) (cands : gmap string Candidate) (d : Daemon) : Daemon :=
  let order := order_of d target in
  let gone := filter (fun p => cands !! p.1 = None) order in
  d <| d_order ::= <[target := filter (fun p => is_Some (cands !! p.1)) order]> |>
    <| d_schedulerDirty ::= orb (negb (bool_decide (gone = ∅))) |>
    <| d_controls ::= (fun s => s <| cs_Enqueued ::= filter (fun p => gone !! p.1 = None) |>
                                  <| cs_Priorities ::= filter (fun p => gone !! p.1 = None) |>
                                  <| cs_Scheduled ::= filter (fun p => gone !! p.1 = None) |>) |>.

(** src/internal/queue/reconcile.go:181-192 [syncBookkeeping] A park is kept for
    the same revision, and for a review that merely lost readiness. *)
Definition parkKept (cands : gmap string Candidate) (ref : string) (entry : parkEntry) : bool :=
  match cands !! ref with
  | None => negb (String.eqb (pk_Version entry) "")
  | Some c => String.eqb (c_SHA c) (pk_SHA entry) && String.eqb (c_Version c) (pk_Version entry)
  end.

(** src/internal/queue/reconcile.go:193-200 [syncBookkeeping] *)
Definition retryKept (cands : gmap string Candidate) (ref sha : string) : bool :=
  match cands !! ref with Some c => String.eqb (c_SHA c) sha | None => false end.

(** src/internal/queue/reconcile.go:181-200 [syncBookkeeping] *)
Definition dropStale (target : string) (cands : gmap string Candidate) (d : Daemon) : Daemon :=
  d <| d_done ::= <[target := filter (fun p => parkKept cands p.1 p.2 = true) (done_of d target)]> |>
    <| d_autoRetried ::= alter (fun m => filter (fun p => retryKept cands p.1 p.2 = true) m) target |>.

(** src/internal/queue/reconcile.go:202-214 [syncBookkeeping] *)
Definition stampEnqueued (cands : gmap string Candidate) (d : Daemon) : Daemon :=
  let missing := filter (fun p => (cs_Enqueued (d_controls d) !!! p.1 else 0) = 0) cands in
  if bool_decide (missing = ∅) then d
  else d <| d_controls ::= (fun s => s <| cs_Enqueued ::= (fun m => ((fun _ => d_now d) <$> missing) ∪ m) |>) |>
         <| d_schedulerDirty := true |>.

(** src/internal/queue/reconcile.go:216-229 [syncBookkeeping] One new ref. Its
    enqueue time was set above. *)
Definition enqueueRef (target : string) (cands : gmap string Candidate) (ref : string) (d : Daemon) : Daemon :=
  let d := d <| d_order ::= <[target := <[ref := d_seq d]> (order_of d target)]> |> in
  let d := if (cs_Enqueued (d_controls d) !!! ref else 0) =? 0
           then d <| d_controls ::= (fun s => s <| cs_Enqueued ::= <[ref := d_now d]> |>) |> else d in
  let d := d <| d_seq ::= Z.succ |> in
  let c := cands !!! ref else zeroCandidate in
  match done_of d target !! ref with
  | Some parked =>
      if String.eqb (pk_SHA parked) (c_SHA c) then d
      else emit cfg (event EventQueued (d_now d) target c "") d
  | None => emit cfg (event EventQueued (d_now d) target c "") d
  end.

(** src/internal/queue/reconcile.go:160-230 [syncBookkeeping] *)
Definition syncBookkeeping (target : string) (cands : gmap string Candidate) (d : Daemon) : Daemon :=
  let d := dropStale target cands (dropVanished target cands d) in
  let newRefs := sort_by String.ltb
    (List.filter (fun ref => negb (isSome (order_of d target !! ref))) (keys_of cands)) in
  fold_left (fun d ref => enqueueRef target cands ref d) newRefs (stampEnqueued cands d).

(** src/internal/queue/reconcile.go:234-254 [seedParksOnce] *)
Definition seedParksOnce (target : string) (d : Daemon) : Daemon :=
  if bool_decide (target ∈ d_seeded d) then d
  else
    let d := d <| d_seeded ::= union {[target]} |> in
    match cfg_SeedParks cfg with
    | None => d
    | Some seeds =>
        fold_left (fun d s =>
          if isRedOutcome (sd_Outcome s)
          then d <| d_done ::= <[target := <[sd_Ref s := mkPark (sd_Version s) (sd_SHA s) (sd_Outcome s)
                      (sd_Reason s) (sd_At s) (sd_RunID s)]> (done_of d target)]> |>
          else d) (seeds target) d
    end.

(** src/internal/queue/reconcile.go:82-112 [checkIgnoredRefs] *)
Definition checkIgnoredRefs (refs : gmap string string) (d : Daemon) : Daemon :=
  let configured t := existsb (fun x => String.eqb (t_Name x) t) (cfg_Targets cfg) in
  let ignored := map_imap (fun ref sha =>
    match parseCandidateRef ref with
    | Some (t, _, _) => if configured t then None else Some (t, sha)
    | None => None
    end) refs in
  let step d p :=
    let '(ref, (t, sha)) := p in
    if bool_decide (d_ignoredRefs d !! ref = Some sha) then d
    else emit cfg (event EventIgnoredRef (d_now d) t
                     (zeroCandidate <| c_Ref := ref |> <| c_Target := t |> <| c_SHA := sha |>) ""
                     <| e_Detail := "target " +:+ quoted t +:+ " is not configured" |>) d in
  fold_left step (map_to_list ignored) d <| d_ignoredRefs := snd <$> ignored |>.
End Sync.

(** ** Candidate refs: the grammar *)

Definition slash_free (s : string) : Prop := "/"%char ∉ to_bytes s.

(** The ref a target, user and topic name. *)
Definition candidateRef (target user topic : string) : string :=
  candidatePrefix +:+ target +:+ "/" +:+ (if String.eqb user "" then topic else user +:+ "/" +:+ topic).

(** The components a ref can have: without a user the topic is one segment. *)
Definition refParts (target user topic : string) : Prop :=
  target <> "" /\ topic <> "" /\ slash_free target /\
  (if String.eqb user "" then slash_free topic else slash_free user).

Lemma to_bytes_nil s : to_bytes s = [] <-> s = "".
Proof. split; [|by intros ->]. by destruct s. Qed.

(** Round trip: [parseCandidateRef] accepts exactly the refs that the
    grammar [refs/heads/for/<target>/[<user>/]<topic>] writes, and gives back
    the components they were written from. *)
Theorem parseCandidateRef_grammar ref target user topic :
  parseCandidateRef ref = Some (target, user, topic) <->
  refParts target user topic /\ ref = candidateRef target user topic.
Proof.
  unfold parseCandidateRef, refParts, slash_free, candidateRef. split.
  - destruct (strip_prefix _ _) as [rest|] eqn:Ep; [|done]. apply strip_prefix_spec in Ep.
    pose proof (cut_at_spec "/"%char rest) as Hc.
    destruct (cut_at "/"%char rest) as [[[|t0 tg] [|r0 rem]]|]; try done. destruct Hc as [-> Ht].
    pose proof (cut_at_spec "/"%char (r0 :: rem)) as Hr.
    assert (forall s, to_bytes ref = to_bytes s -> ref = s) as Hinj.
    { intros s E. rewrite <- (of_to_bytes ref), E. apply of_to_bytes. }
    destruct (cut_at "/"%char (r0 :: rem)) as [[[|u0 us] [|p0 tp]]|]; try done; intros [= <- <- <-];
      rewrite !of_bytes_cons.
    + destruct Hr as [Er Hu]. rewrite Er in Ep. split.
      { split_and!; [done|done|by rewrite to_of_bytes|].
        change (String.eqb (of_bytes (u0 :: us)) "") with false. cbv iota. by rewrite to_of_bytes. }
      apply Hinj. rewrite Ep. simpl String.eqb. cbv iota.
        rewrite !to_bytes_app, !to_of_bytes. done.
    + split.
      { split_and!; [done|done|by rewrite to_of_bytes|]. change (String.eqb "" "") with true. cbv iota.
        by rewrite to_of_bytes. }
      apply Hinj. rewrite Ep. simpl String.eqb. cbv iota. rewrite !to_bytes_app, !to_of_bytes. done.
  - intros [(Ht & Hp & Hst & Hu) ->].
    rewrite !to_bytes_app. rewrite (proj2 (strip_prefix_spec _ _ _) eq_refl).
    change (to_bytes "/" ++ ?x) with ("/"%char :: x). rewrite cut_at_app by done.
    destruct (to_bytes target) as [|t0 tg] eqn:Et; [by apply to_bytes_nil in Et|].
    destruct (String.eqb_spec user "") as [->|Hne].
    + pose proof (cut_at_spec "/"%char (to_bytes topic)) as Hc.
      destruct (to_bytes topic) as [|p0 tp] eqn:Ep; [by apply to_bytes_nil in Ep|].
      destruct (cut_at "/"%char (p0 :: tp)) as [[x y]|].
      * destruct Hc as [E _]. exfalso. apply Hu. rewrite E. set_solver.
      * by rewrite <- Et, <- Ep, !of_to_bytes.
    + rewrite !to_bytes_app. change (to_bytes "/" ++ ?x) with ("/"%char :: x).
      destruct (to_bytes user) as [|u0 us] eqn:Eu; [by apply to_bytes_nil in Eu|].
      destruct (to_bytes topic) as [|p0 tp] eqn:Ep; [by apply to_bytes_nil in Ep|].
      cbn [app]. change (u0 :: us ++ "/"%char :: p0 :: tp) with ((u0 :: us) ++ "/"%char :: p0 :: tp).
      rewrite cut_at_app by done. by rewrite <- Et, <- Eu, <- Ep, !of_to_bytes.
Qed.

(** ** Priorities: the search computes a maximum *)

Section RankSpec.
Context (own : string -> Z) (cands : gmap string Candidate) (keys : list string).
Hypothesis Hkeys : keys ≡ₚ keys_of cands.
Hypothesis Hown : forall x, 0 <= own x.

Definition child_of (a b : string) : Prop := is_Some (cands !! b) /\ dependsOn cands b = a.

Lemma elem_of_keys x : x ∈ keys <-> is_Some (cands !! x).
Proof.
  rewrite Hkeys. unfold keys_of. rewrite list_elem_of_fmap. split.
  - intros ((k & c) & -> & H%elem_of_map_to_list). simpl. eauto.
  - intros [c H]. exists (x, c). split; [done|]. by apply elem_of_map_to_list.
Qed.

Lemma children_spec ref x : x ∈ children cands keys ref <-> child_of ref x.
Proof.
  unfold children, child_of. rewrite list_elem_of_In, filter_In, <- list_elem_of_In, elem_of_keys.
  by rewrite String.eqb_eq.
Qed.

(** A search from [roots] that extended [seen] to [seen'] and found value [v]. *)
Record search (roots : list string) (seen seen' : gset string) (v : Z) : Prop := {
  se_mono : seen ⊆ seen';
  se_roots : forall x, x ∈ roots -> x ∈ seen';
  se_reach : forall x, x ∈ seen' -> x ∈ seen \/ exists r, r ∈ roots /\ rtc child_of r x;
  se_closed : forall x y, x ∈ seen' -> x ∉ seen -> child_of x y -> y ∈ seen';
  se_upper : forall x, x ∈ seen' -> x ∉ seen -> own x <= v;
  se_value : v = 0 \/ (exists x, x ∈ seen' /\ (x ∉ seen) /\ own x = v);
}.

Lemma search_nonneg roots seen seen' v : search roots seen seen' v -> 0 <= v.
Proof. intros [_ _ _ _ _ [->|(x & _ & _ & <-)]]; [done|apply Hown]. Qed.

Lemma search_nil seen : search [] seen seen 0.
Proof. split; try done; auto. by intros x ?%elem_of_nil. Qed.

(** Searching one root and then the others. *)
Lemma search_cons x roots s0 s1 s2 v w :
  search [x] s0 s1 v -> search roots s1 s2 w -> search (x :: roots) s0 s2 (Z.max v w).
Proof.
  intros A B. pose proof (search_nonneg _ _ _ _ A). pose proof (search_nonneg _ _ _ _ B).
  destruct A as [A1 A2 A3 A4 A5 A6], B as [B1 B2 B3 B4 B5 B6]. split.
  - set_solver.
  - intros y [->|Hy]%elem_of_cons; [apply B1, A2, list_elem_of_here|by apply B2].
  - intros y Hy. destruct (B3 y Hy) as [Hy1|(r & Hr & Hp)].
    + destruct (A3 y Hy1) as [|(r & ->%list_elem_of_singleton & Hp)]; [by left|].
      right. exists x. split; [apply list_elem_of_here|done].
    + right. exists r. split; [by apply list_elem_of_further|done].
  - intros y z Hy Hn Hc. destruct (decide (y ∈ s1)) as [Hy1|Hy1].
    + by apply B1, (A4 y z).
    + by apply (B4 y z).
  - intros y Hy Hn. destruct (decide (y ∈ s1)) as [Hy1|Hy1].
    + pose proof (A5 y Hy1 Hn). lia.
    + pose proof (B5 y Hy Hy1). lia.
  - destruct (Z.max_spec v w) as [[? ->]|[? ->]].
    + destruct B6 as [->|(y & ? & ? & ?)]; [by left|]. right. exists y. set_solver.
    + destruct A6 as [->|(y & ? & ? & ?)]; [by left|]. right. exists y. set_solver.
Qed.

(** A root never seen, after its children. *)
Lemma search_root x seen s' w :
  x ∉ seen -> search (children cands keys x) ({[x]} ∪ seen) s' w ->
  search [x] seen s' (Z.max (own x) w).
Proof.
  intros Hx B. pose proof (search_nonneg _ _ _ _ B). pose proof (Hown x).
  destruct B as [B1 B2 B3 B4 B5 B6]. split.
  - set_solver.
  - intros y ->%list_elem_of_singleton. set_solver.
  - intros y Hy. destruct (B3 y Hy) as [[->%elem_of_singleton|?]%elem_of_union|(r & Hr & Hp)]; auto.
    + right. exists x. split; [apply list_elem_of_here|done].
    + right. exists x. split; [apply list_elem_of_here|]. eapply rtc_l; [|done]. by apply children_spec.
  - intros y z Hy Hn Hc. destruct (decide (y = x)) as [->|]; [by apply B2, children_spec|].
    apply (B4 y z); set_solver.
  - intros y Hy Hn. destruct (decide (y = x)) as [->|]; [lia|].
    pose proof (B5 y Hy ltac:(set_solver)). lia.
  - destruct (Z.max_spec (own x) w) as [[? ->]|[? ->]].
    + destruct B6 as [->|(y & ? & ? & ?)]; [by left|]. right. exists y. set_solver.
    + right. exists x. set_solver.
Qed.

Definition unseen (root : string) (seen : gset string) : nat := size (({[root]} ∪ dom cands) ∖ seen).

Lemma rankFrom_search root fuel ref seen :
  ref ∈ ({[root]} ∪ dom cands : gset string) -> (unseen root seen < fuel)%nat ->
  let '(v, seen') := rankFrom own cands keys fuel ref seen in search [ref] seen seen' v.
Proof.
  revert ref seen. induction fuel as [|fuel IH]; intros ref seen Hr Hf; [lia|]. cbn [rankFrom].
  destruct (decide (ref ∈ seen)) as [Hs|Hs].
  { split; try done; auto. by intros x ->%list_elem_of_singleton. }
  assert (forall l v0 s0, 0 <= v0 -> (forall x, x ∈ l -> is_Some (cands !! x)) -> (unseen root s0 < fuel)%nat ->
    let '(v1, s1) := fold_left (visit (rankFrom own cands keys fuel)) l (v0, s0) in
    exists w, v1 = Z.max v0 w /\ search l s0 s1 w) as Hfold.
  { induction l as [|x l IHl]; intros v0 s0 Hv0 Hl Hs0; cbn [fold_left].
    - exists 0. split; [lia|apply search_nil].
    - cbn [visit].
      pose proof (IH x s0 ltac:(apply elem_of_union_r, elem_of_dom, Hl, list_elem_of_here) Hs0) as Hx.
      destruct (rankFrom own cands keys fuel x s0) as [v1 s1].
      pose proof (search_nonneg _ _ _ _ Hx) as Hnn.
      replace (if v0 <? v1 then v1 else v0) with (Z.max v0 v1) by (destruct (Z.ltb_spec v0 v1); lia).
      specialize (IHl (Z.max v0 v1) s1 ltac:(lia) (fun y Hy => Hl y (list_elem_of_further y x l Hy))).
      assert (unseen root s1 < fuel)%nat as Hs1.
      { eapply Nat.le_lt_trans; [|exact Hs0]. apply subseteq_size. pose proof (se_mono _ _ _ _ Hx). set_solver. }
      specialize (IHl Hs1). destruct (fold_left _ l (Z.max v0 v1, s1)) as [v2 s2].
      destruct IHl as (w & -> & Hl2). exists (Z.max v1 w). split; [lia|]. by eapply search_cons. }
  specialize (Hfold (children cands keys ref) (own ref) ({[ref]} ∪ seen) (Hown ref)
    ltac:(intros x Hx%children_spec; apply Hx)).
  assert (unseen root ({[ref]} ∪ seen) < fuel)%nat as Hf2.
  { apply (Nat.lt_le_trans _ (unseen root seen)); [|lia]. apply subset_size. set_solver. }
  specialize (Hfold Hf2). destruct (fold_left _ _ _) as [v1 s1]. destruct Hfold as (w & -> & Hs1).
  by apply search_root.
Qed.

(** From an empty [seen] the search covers the root and all its transitive
    dependents. *)
Lemma rankFrom_max fuel ref :
  (S (size cands) < fuel)%nat ->
  let v := fst (rankFrom own cands keys fuel ref ∅) in
  (exists x, rtc child_of ref x /\ own x = v) /\ (forall x, rtc child_of ref x -> own x <= v).
Proof.
  intros Hf.
  assert (unseen ref ∅ < fuel)%nat as Hu.
  { eapply Nat.le_lt_trans; [|exact Hf]. unfold unseen. rewrite difference_empty_L.
    rewrite size_union_alt, size_singleton. apply le_n_S. rewrite <- size_dom.
    apply subseteq_size. set_solver. }
  pose proof (rankFrom_search ref fuel ref ∅ ltac:(set_solver) Hu) as H.
  destruct (rankFrom own cands keys fuel ref ∅) as [v s]. cbn [fst].
  destruct H as [_ Hroot Hreach Hclosed Hupper Hvalue].
  assert (forall x, rtc child_of ref x -> x ∈ s) as Hall.
  { apply (rtc_ind_r (fun x => x ∈ s)); [by apply Hroot, list_elem_of_singleton|].
    intros x y _ Hy Hx. apply (Hclosed x y); [done|set_solver|done]. }
  split; [|intros x Hx; apply Hupper; [by apply Hall|set_solver]].
  destruct Hvalue as [->|(x & Hx & _ & Hv)].
  - exists ref. split; [done|]. apply Z.le_antisymm; [apply Hupper; [by apply Hroot, list_elem_of_singleton|set_solver]|apply Hown].
  - exists x. split; [|done]. destruct (Hreach x Hx) as [?|(r & ->%list_elem_of_singleton & ?)]; [set_solver|done].
Qed.
End RankSpec.

Lemma PriorityRank_range class : 0 <= fst (PriorityRank class) <= 3.
Proof. unfold PriorityRank. repeat case_match; simpl; lia. Qed.

Lemma ownPriority_range d c now : 0 <= ownPriority d c now <= 3.
Proof.
  unfold ownPriority. pose proof (PriorityRank_range (c_Priority c)).
  set (v1 := if c_Urgent c then 3 else _). assert (0 <= v1 <= 3) as H1 by (unfold v1; case_match; lia).
  clearbody v1. set (v2 := match _ !! _ with Some _ => _ | None => _ end).
  assert (0 <= v2 <= 3) as H2.
  { unfold v2. destruct (_ !! _) as [e|]; [|done]. case_match; [apply PriorityRank_range|done]. }
  clearbody v2. destruct (negb _ && _); [|done]. destruct (Z.ltb_spec 0 (Z.quot (now - cs_Enqueued (d_controls d) !!! c_Ref c else 0) agingStep)); lia.
Qed.

Lemma priorityAt_range d ref cands now : 0 <= priorityAt d ref cands now <= 3.
Proof.
  assert (let v := priorityAt d ref cands now in exists x, rtc (child_of cands) ref x /\
    ownPriority d (cands !!! x else zeroCandidate) now = v) as (x & _ & Hv).
  { eapply rankFrom_max; [done|intros x; apply ownPriority_range|lia]. }
  rewrite <- Hv. apply ownPriority_range.
Qed.

(** Priority inheritance: a candidate's effective priority is the maximum of
    the own priorities of itself and of everything that transitively depends on
    it (cycles included), it is a valid class rank, and it does not depend on
    the order in which the candidates are ranged over. *)
Theorem priorityAt_max d ref cands now :
  let own x := ownPriority d (cands !!! x else zeroCandidate) now in
  let p := priorityAt d ref cands now in
  0 <= p <= 3 /\
  (exists x, rtc (child_of cands) ref x /\ own x = p) /\
  (forall x, rtc (child_of cands) ref x -> own x <= p) /\
  (forall keys, keys ≡ₚ keys_of cands -> fst (rankFrom own cands keys (S (S (size cands))) ref ∅) = p).
Proof.
  intros own p.
  assert (forall keys, keys ≡ₚ keys_of cands ->
    let v := fst (rankFrom own cands keys (S (S (size cands))) ref ∅) in
    (exists x, rtc (child_of cands) ref x /\ own x = v) /\ (forall x, rtc (child_of cands) ref x -> own x <= v)) as H.
  { intros keys Hk. apply rankFrom_max; [done| |lia]. intros x. apply ownPriority_range. }
  destruct (H (keys_of cands) (reflexivity _)) as [(x & Hx & Hv) Hup]. change (own x = p) in Hv.
  change (forall x, rtc (child_of cands) ref x -> own x <= p) in Hup.
  split; [rewrite <- Hv; apply ownPriority_range|]. split; [by eauto|]. split; [done|].
  intros keys Hk. destruct (H keys Hk) as [(y & Hy & Hw) Hup']. cbv zeta in *.
  apply Z.le_antisymm.
  - rewrite <- Hw. apply Hup, Hy.
  - rewrite <- Hv. apply Hup', Hx.
Qed.

(** ** Picking *)

Section PickSpec.
Context (d : Daemon) (target : string) (cands : gmap string Candidate).
Implicit Types (inFlight : gset string) (ref : string) (refs out : list string).

(** The comparator is a lexicographic order on (rank, position, ref), with
    urgent ranks moved last after a burst. *)
Definition burstRank ref : Z :=
  let p := priorityAt d ref cands (d_now d) in
  if (3 <=? (d_urgentBurst d !!! target else 0)) && (p =? 3) then -1 else p.

Definition fifoPos ref : Z := order_of d target !!! ref else 0.

Lemma pickLess_lex a b : pickLess d target cands a b = lex3 burstRank fifoPos a b.
Proof.
  unfold pickLess, lex3, burstRank, fifoPos.
  pose proof (priorityAt_range d a cands (d_now d)) as Ha. pose proof (priorityAt_range d b cands (d_now d)) as Hb.
  revert Ha Hb. generalize (priorityAt d a cands (d_now d)), (priorityAt d b cands (d_now d)). intros pa pb Ha Hb.
  generalize (order_of d target !!! a else 0), (order_of d target !!! b else 0). intros oa ob.
  generalize (String.ltb a b). intros lt.
  destruct (3 <=? (d_urgentBurst d !!! target else 0)), (Z.eqb_spec pa 3), (Z.eqb_spec pb 3);
    cbn [andb orb negb Bool.eqb];
    repeat match goal with
           | |- context [?x =? ?y] => destruct (Z.eqb_spec x y); cbn [andb orb negb]
           | |- context [?x <? ?y] => destruct (Z.ltb_spec x y); cbn [andb orb negb]
           end; done || lia.
Qed.

Lemma pickLess_weak_order : weak_order (pickLess d target cands).
Proof.
  destruct (lex3_weak_order burstRank fifoPos) as [Ha Ht]. unfold notafter in Ht.
  split; unfold notafter; intros *; rewrite !pickLess_lex; eauto.
Qed.

Lemma pickLess_no_ties a b : pickLess d target cands a b = false -> pickLess d target cands b a = false -> a = b.
Proof. rewrite !pickLess_lex. apply lex3_no_ties. Qed.

(** What the selection loop keeps true of its output. *)
Record picked inFlight refs out : Prop := {
  pk_nodup : NoDup out;
  pk_from : forall ref, ref ∈ out -> ref ∈ refs;
  pk_deps : forall i ref, out !! i = Some ref -> depMet cands inFlight (take i out) ref = true;
}.

Lemma picked_snoc inFlight refs out ref :
  picked inFlight refs out -> ref ∈ refs -> ref ∉ out -> depMet cands inFlight out ref = true ->
  picked inFlight refs (out ++ [ref]).
Proof.
  intros [Hn Hf Hd] Hr Ho Hm. split.
  - apply NoDup_app. split_and!; [done| |apply NoDup_singleton].
    intros x Hx ->%list_elem_of_singleton. done.
  - intros x [?| ->%list_elem_of_singleton]%elem_of_app; auto.
  - intros i x Hx. destruct (decide (i < length out)%nat) as [Hi|Hi].
    + rewrite lookup_app_l in Hx by done. rewrite take_app_le by lia. by apply Hd.
    + rewrite lookup_app_r in Hx by lia. apply list_lookup_singleton_Some in Hx as [Hi2 <-].
      rewrite take_app_length' by lia. done.
Qed.

(** A pass extends the output; without progress nothing more was selectable. *)
Lemma pickPass_spec n inFlight all refs out pr :
  picked inFlight all out -> (forall x, x ∈ refs -> x ∈ all) ->
  (0 <= n -> Z.of_nat (length out) < n) ->
  let '(out', pr') := pickPass cands n inFlight refs out pr in
  picked inFlight all out' /\ (0 <= n -> Z.of_nat (length out') <= n) /\ out `prefix_of` out' /\
  ((pr' = pr /\ out' = out /\ forall x, x ∈ refs -> x ∈ out \/ depMet cands inFlight out x = false) \/
   (pr' = true /\ (length out < length out')%nat)).
Proof.
  revert out pr. induction refs as [|ref refs IH]; intros out pr Hp Hall Hn; cbn [pickPass].
  - split_and!; [done|lia|done|]. left. split_and!; try done. by intros x ?%elem_of_nil.
  - assert (forall x, x ∈ refs -> x ∈ all) as Hall' by (intros x Hx; by apply Hall, list_elem_of_further).
    destruct (bool_decide_reflect (ref ∈ out)) as [Hin|Hin];
      [|destruct (depMet cands inFlight out ref) eqn:Hm]; cbn [orb negb].
    1, 3: (specialize (IH out pr Hp Hall' Hn); destruct (pickPass _ _ _ _ _ _) as [out' pr'];
      destruct IH as (? & ? & ? & [(-> & -> & H)|?]); split_and!; auto; left; split_and!; auto;
      intros x [->|Hx]%elem_of_cons; auto).
    assert (picked inFlight all (out ++ [ref])) as Hp'
      by (apply picked_snoc; auto; apply Hall, list_elem_of_here).
    rewrite length_app. cbn [length].
    destruct (Z.leb_spec 0 n), (Z.eqb_spec (Z.of_nat (length out + 1)) n); cbn [andb].
    1: { split_and!; [done|rewrite length_app; simpl; lia|by eexists|]. right. rewrite length_app. simpl. split; [done|lia]. }
    all: specialize (IH (out ++ [ref]) true Hp' Hall' ltac:(rewrite length_app; simpl; lia));
      destruct (pickPass _ _ _ _ _ _) as [out' pr']; destruct IH as (? & ? & Hpre & Hor);
      split_and!; auto; [etrans; [|exact Hpre]; by eexists|];
      apply prefix_length in Hpre; rewrite length_app in Hpre; simpl in Hpre;
      right; split; [by destruct Hor as [(-> & _)|[-> _]]|lia].
Qed.

Lemma pickLoop_spec fuel n inFlight refs out :
  picked inFlight refs out -> (0 <= n -> Z.of_nat (length out) <= n) ->
  (length refs < fuel + length out)%nat ->
  let out' := pickLoop cands fuel n inFlight refs out in
  picked inFlight refs out' /\ (0 <= n -> Z.of_nat (length out') <= n) /\ out `prefix_of` out' /\
  (Z.of_nat (length out') = n \/
   forall x, x ∈ refs -> x ∈ out' \/ depMet cands inFlight out' x = false).
Proof.
  revert out. induction fuel as [|fuel IH]; intros out Hp Hn Hf; cbn [pickLoop].
  all: pose proof Hp as [Hnd Hfrom Hdeps].
  all: assert (length out <= length refs)%nat as Hle
    by (apply submseteq_length, NoDup_submseteq; auto).
  1: lia.
  destruct (Nat.ltb_spec (length out) (length refs)) as [Hlt|Hge]; cbn [andb].
  2: { split_and!; auto. right. intros x Hx. left.
       assert (out ≡ₚ refs) as E; [|by rewrite E].
       apply submseteq_length_Permutation; [by apply NoDup_submseteq|lia]. }
  destruct (Z.ltb_spec n 0), (Z.ltb_spec (Z.of_nat (length out)) n); cbn [orb];
    try (split_and!; auto; left; lia); [lia|..].
  all: pose proof (pickPass_spec n inFlight refs refs out false Hp (fun _ H => H) ltac:(lia)) as Hpass;
    destruct (pickPass cands n inFlight refs out false) as [out1 pr1];
    destruct Hpass as (Hp1 & Hn1 & Hpre & [(-> & -> & Hstop)|[-> Hgrow]]); [by auto|];
    destruct (IH out1 Hp1 Hn1 ltac:(lia)) as (? & ? & ? & ?); split_and!; auto; by etrans.
Qed.

(** The first pick is the first selectable ref of the sorted list. *)
Lemma pickPass_head n inFlight refs pr out' pr' r0 :
  pickPass cands n inFlight refs [] pr = (out', pr') -> out' !! O = Some r0 ->
  exists l1 l2, refs = l1 ++ r0 :: l2 /\ forall x, x ∈ l1 -> depMet cands inFlight [] x = false.
Proof.
  induction refs as [|ref refs IH]; cbn [pickPass]; [by intros [= <- <-]|].
  rewrite bool_decide_false by apply not_elem_of_nil. cbn [orb].
  destruct (depMet cands inFlight [] ref) eqn:Hm; cbn [negb].
  - intros E H0. exists [], refs. split; [|by intros x ?%elem_of_nil]. cbn [app] in *. f_equal.
    enough ([ref] `prefix_of` out') as [k ->] by (simpl in H0; congruence).
    destruct (_ && _); [by injection E as <- <-|].
    clear -E. revert E. generalize true. generalize [ref] as out. induction refs as [|r refs IH]; intros out pr.
    + by intros [= <- <-].
    + cbn [pickPass]. destruct (_ || _); [apply IH|]. destruct (_ && _).
      * intros [= <- <-]. by eexists.
      * intros E. etrans; [|by apply IH in E]. by eexists.
  - intros E H0. destruct (IH E H0) as (l1 & l2 & -> & H). exists (ref :: l1), l2. split; [done|].
    intros x [->|Hx]%elem_of_cons; auto.
Qed.

Lemma pickLoop_head fuel n inFlight refs r0 :
  pickLoop cands fuel n inFlight refs [] !! O = Some r0 ->
  exists l1 l2, refs = l1 ++ r0 :: l2 /\ forall x, x ∈ l1 -> depMet cands inFlight [] x = false.
Proof.
  destruct fuel as [|fuel]; cbn [pickLoop]; [done|]. destruct (_ && _) eqn:Hc; [|done].
  destruct (pickPass cands n inFlight refs [] false) as [out pr] eqn:E.
  apply andb_prop in Hc as [_ Hc]. rewrite orb_true_iff, !Z.ltb_lt in Hc.
  pose proof (pickPass_spec n inFlight refs refs [] false ltac:(split; [constructor|by intros ? ?%elem_of_nil|done])
    (fun _ H => H) ltac:(lia)) as Hs.
  rewrite E in Hs. destruct Hs as (Hp & Hn & _ & [(-> & -> & _)|[-> Hlen]]); [done|].
  intros H0. apply (pickPass_head n inFlight refs false out true r0 E).
  destruct out as [|x out]; [simpl in Hlen; lia|].
  pose proof (pickLoop_spec fuel n inFlight refs (x :: out)) as Hl.
  destruct (decide (length refs < fuel + length (x :: out))%nat) as [Hf|Hf].
  - destruct (Hl Hp Hn Hf) as (_ & _ & [k Hk] & _). rewrite Hk in H0. done.
  - clear -H0. revert H0. generalize dependent out. revert x. induction fuel as [|fuel IH]; intros x out; [done|].
    cbn [pickLoop]. destruct (_ && _); [|done].
    assert (forall pr, exists k, (pickPass cands n inFlight refs (x :: out) pr).1 = x :: k) as Hx.
    { clear. revert out. induction refs as [|r refs IH]; intros out pr; cbn [pickPass]; [by eexists|].
      destruct (_ || _); [apply IH|]. destruct (_ && _); [by eexists|]. apply (IH (out ++ [r])). }
    specialize (Hx false). destruct (pickPass _ _ _ _ _ _) as [o [|]]; simpl in Hx; destruct Hx as [k ->]; [|done].
    intros H. by apply IH in H.
Qed.

Lemma pick_sorted inFlight keys :
  keys ≡ₚ keys_of cands ->
  let refs := sort_by (pickLess d target cands) (List.filter (eligible d target cands inFlight) keys) in
  (forall x, x ∈ refs <-> eligible d target cands inFlight x = true) /\
  StronglySorted (notafter (pickLess d target cands)) refs /\
  refs = sort_by (pickLess d target cands) (List.filter (eligible d target cands inFlight) (keys_of cands)).
Proof.
  intros Hk refs. split_and!.
  - intros x. unfold refs. rewrite sort_by_Permutation, list_elem_of_In, filter_In, <- list_elem_of_In.
    rewrite (elem_of_keys cands keys Hk). split; [by intros []|]. intros He. split; [|done].
    unfold eligible in He. destruct (cands !! x); [eauto|done].
  - apply sort_by_sorted, pickLess_weak_order.
  - apply sort_by_unique; [apply pickLess_weak_order|intros a b _ _ H1 H2; by apply pickLess_no_ties|].
    clear refs. induction Hk; cbn [List.filter]; repeat case_match; try done.
    + by constructor.
    + by constructor.
    + by etrans.
Qed.
End PickSpec.

Lemma picked_nil cands inFlight refs : picked cands inFlight refs [].
Proof. split; [constructor|by intros ? ?%elem_of_nil|done]. Qed.

Lemma pickRefs_spec d target cands keys n inFlight :
  let refs := sort_by (pickLess d target cands) (List.filter (eligible d target cands inFlight) keys) in
  let out := pickRefs d target cands keys n inFlight in
  picked cands inFlight refs out /\ (0 <= n -> Z.of_nat (length out) <= n) /\
  (Z.of_nat (length out) = n \/ forall x, x ∈ refs -> x ∈ out \/ depMet cands inFlight out x = false).
Proof.
  intros refs out.
  destruct (pickLoop_spec cands (S (length refs)) n inFlight refs []) as (? & ? & _ & ?);
    [apply picked_nil|done|simpl; lia|]. split_and!; auto.
Qed.

Lemma depMet_true cands inFlight out ref :
  depMet cands inFlight out ref = true <->
  dependsOn cands ref = "" \/ dependsOn cands ref ∈ inFlight \/ dependsOn cands ref ∈ out.
Proof.
  unfold depMet. rewrite !orb_true_iff, String.eqb_eq, !bool_decide_eq_true. tauto.
Qed.

(** C32. What a pick may contain: no candidate twice, only eligible ones (not
    blocked, parked at this revision, in flight, or held by a pause), at most
    [n], each after its prerequisite unless that one is already in flight; and
    the picked list is the same whatever order Go ranges over the map. *)
Theorem pickUpTo_safe d target cands n inFlight keys :
  keys ≡ₚ keys_of cands ->
  let out := pickRefs d target cands keys n inFlight in
  NoDup out /\
  (forall ref, ref ∈ out -> eligible d target cands inFlight ref = true) /\
  (0 <= n -> Z.of_nat (length out) <= n) /\
  (forall i ref, out !! i = Some ref ->
     let dep := dependsOn cands ref in
     dep = "" \/ dep ∈ inFlight \/ exists j, (j < i)%nat /\ out !! j = Some dep) /\
  map (fun ref => cands !!! ref else zeroCandidate) out = pickUpTo d target cands n inFlight.
Proof.
  intros Hk out. destruct (pick_sorted d target cands inFlight keys Hk) as (Hel & _ & Huniq). cbv zeta in Hel, Huniq.
  destruct (pickRefs_spec d target cands keys n inFlight) as ([Hnd Hfrom Hdeps] & Hn & _). fold out in Hnd, Hfrom, Hdeps, Hn.
  split_and!; [done| |done| |].
  - intros ref Hr. by apply Hel, Hfrom.
  - intros i ref Hi dep. specialize (Hdeps i ref Hi). apply depMet_true in Hdeps as [?|[?|Ht]]; auto.
    right. right. apply list_elem_of_lookup_1 in Ht as [j Hj]. apply lookup_take_Some in Hj as [Hj Hlt]. eauto.
  - unfold pickUpTo. f_equal. unfold out, pickRefs. by rewrite Huniq.
Qed.

(** A pick is maximal and respects precedence: a candidate left behind by a
    pick that is not full waits for a prerequisite that is neither picked nor
    in flight; and the first pick precedes, in the order (burst-adjusted
    priority, FIFO position, ref), every other candidate that could have been
    picked first. In particular a selectable candidate never makes the queue
    idle. *)
Theorem pickUpTo_complete d target cands n inFlight keys :
  keys ≡ₚ keys_of cands -> n <> 0 ->
  let out := pickRefs d target cands keys n inFlight in
  (Z.of_nat (length out) <> n -> forall ref, eligible d target cands inFlight ref = true ->
     ref ∈ out \/ (dependsOn cands ref <> "" /\ (dependsOn cands ref ∉ inFlight) /\ (dependsOn cands ref ∉ out))) /\
  (forall ref, eligible d target cands inFlight ref = true -> depMet cands inFlight [] ref = true ->
     exists r0, out !! O = Some r0 /\ (ref = r0 \/ pickLess d target cands r0 ref = true)).
Proof.
  intros Hk Hn0 out. destruct (pick_sorted d target cands inFlight keys Hk) as (Hel & Hsort & _). cbv zeta in Hel, Hsort.
  destruct (pickRefs_spec d target cands keys n inFlight) as (Hp & _ & Hstop). fold out in Hp, Hstop.
  split.
  - intros Hlen ref He. destruct Hstop as [|Hstop]; [done|].
    destruct (Hstop ref (proj2 (Hel ref) He)) as [|Hm]; [by left|right].
    split_and!; intros H; enough (depMet cands inFlight out ref = true) by congruence; apply depMet_true; auto.
  - intros ref He Hm. destruct (out !! O) as [r0|] eqn:H0.
    + exists r0. split; [done|].
      destruct (pickLoop_head cands (S (length (sort_by (pickLess d target cands)
        (List.filter (eligible d target cands inFlight) keys)))) n inFlight _ r0 H0) as (l1 & l2 & E & Hl1).
      rewrite E in Hsort. apply StronglySorted_app_1_r in Hsort. apply StronglySorted_inv in Hsort as [_ Hall].
      apply Hel in He. rewrite E in He. apply elem_of_app in He as [He|[->|He]%elem_of_cons]; [|by left|].
      * by rewrite Hl1 in Hm.
      * rewrite Forall_forall in Hall. specialize (Hall ref He).
        destruct (pickLess d target cands r0 ref) eqn:El; [by right|left]. by apply (pickLess_no_ties d target cands).
    + exfalso. apply lookup_ge_None in H0.
      destruct out as [|? ?] eqn:Eo; [|simpl in H0; lia]. destruct Hstop as [|Hstop]; [simpl in *; lia|].
      destruct (Hstop ref (proj2 (Hel ref) He)) as [?%elem_of_nil|]; [done|congruence].
Qed.

(** ** Bookkeeping *)

Lemma emit_plain cfg ev d :
  e_Check ev = None -> e_Record ev = None ->
  emit cfg ev d = d <| d_events ::= (fun l => l ++ [ev]) |>.
Proof.
  intros Hc Hr. unfold emit. f_equal. unfold observeInfrastructure, probeHealthy, infraFailed.
  rewrite Hc, Hr. repeat case_match; done.
Qed.

(** Whether a new ref's arrival is announced. *)
Definition announced (target : string) (cands : gmap string Candidate) (d : Daemon) (ref : string) : bool :=
  match done_of d target !! ref with
  | Some parked => negb (String.eqb (pk_SHA parked) (c_SHA (cands !!! ref else zeroCandidate)))
  | None => true
  end.

Definition queuedEvents target cands d (refs : list string) : list Event :=
  map (fun ref => event EventQueued (d_now d) target (cands !!! ref else zeroCandidate) "")
    (List.filter (announced target cands d) refs).

Lemma enqueueRef_frame cfg target cands ref d :
  exists cs, enqueueRef cfg target cands ref d =
    d <| d_order ::= <[target := <[ref := d_seq d]> (order_of d target)]> |>
      <| d_controls := cs |> <| d_seq := Z.succ (d_seq d) |>
      <| d_events := d_events d ++ queuedEvents target cands d [ref] |>.
Proof.
  set (d1 := d <| d_order ::= <[target := <[ref := d_seq d]> (order_of d target)]> |>).
  set (d2 := if (cs_Enqueued (d_controls d1) !!! ref else 0) =? 0
    then d1 <| d_controls ::= (fun s => s <| cs_Enqueued ::= <[ref := d_now d1]> |>) |> else d1).
  assert (exists cs, d2 = d1 <| d_controls := cs |>) as [cs Hd2].
  { unfold d2. case_match; [by eexists|]. exists (d_controls d1). by destruct d1. }
  exists cs. unfold enqueueRef. fold d1. fold d2. rewrite Hd2.
  unfold queuedEvents, announced. cbn [List.filter].
  change (done_of _ target) with (done_of d target).
  destruct (done_of d target !! ref) as [parked|];
    [destruct (String.eqb _ _)|]; cbn [negb map]; rewrite ?emit_plain by done; simpl; rewrite ?app_nil_r; done.
Qed.

(** What the enqueue loop does to the positions, parks and events. *)
Lemma enqueue_spec cfg target cands refs d :
  NoDup refs ->
  let d' := fold_left (fun d ref => enqueueRef cfg target cands ref d) refs d in
  (forall i ref, refs !! i = Some ref -> order_of d' target !! ref = Some (d_seq d + Z.of_nat i)) /\
  (forall ref, ref ∉ refs -> order_of d' target !! ref = order_of d target !! ref) /\
  d_seq d' = d_seq d + Z.of_nat (length refs) /\ d_done d' = d_done d /\
  d_autoRetried d' = d_autoRetried d /\ d_lanes d' = d_lanes d /\ d_git d' = d_git d /\
  d_now d' = d_now d /\ d_events d' = d_events d ++ queuedEvents target cands d refs.
Proof.
  revert d. induction refs as [|r refs IH]; intros d Hnd d'.
  - subst d'. cbn [fold_left]. split_and!; try done; [simpl; lia|]. unfold queuedEvents. simpl. by rewrite app_nil_r.
  - apply NoDup_cons in Hnd as [Hr Hnd]. subst d'. cbn [fold_left].
    destruct (enqueueRef_frame cfg target cands r d) as [cs E].
    specialize (IH (enqueueRef cfg target cands r d) Hnd).
    destruct IH as (Hin & Hout & Hseq & Hd & Ha & Hl & Hg & Ht & He).
    set (d' := fold_left _ refs _) in *. clearbody d'.
    assert (d_seq (enqueueRef cfg target cands r d) = d_seq d + 1) as E1 by (by rewrite E).
    assert (order_of (enqueueRef cfg target cands r d) target = <[r := d_seq d]> (order_of d target)) as E2
      by (rewrite E; unfold order_of at 1; simpl; by rewrite lookup_insert_eq).
    rewrite E1 in Hin, Hseq. rewrite E2 in Hout. split_and!.
    + intros [|i] ref Hi; simpl in Hi.
      * injection Hi as <-. rewrite Hout by done. rewrite lookup_insert_eq. f_equal. lia.
      * rewrite (Hin i ref Hi). f_equal. lia.
    + intros ref [Hne Hn]%not_elem_of_cons. rewrite Hout by done. by rewrite lookup_insert_ne.
    + simpl. lia.
    + by rewrite Hd, E.
    + by rewrite Ha, E.
    + by rewrite Hl, E.
    + by rewrite Hg, E.
    + by rewrite Ht, E.
    + rewrite He. assert (queuedEvents target cands (enqueueRef cfg target cands r d) refs
                          = queuedEvents target cands d refs) as -> by (by rewrite E).
      rewrite E. simpl. rewrite <- app_assoc. f_equal. unfold queuedEvents. cbn [List.filter].
      by destruct (announced target cands d r).
Qed.

(** The refs that get a position on this tick. *)
Definition newRefs target (cands : gmap string Candidate) d : list string :=
  sort_by String.ltb
    (List.filter (fun ref => negb (isSome (order_of d target !! ref))) (keys_of cands)).

Lemma newRefs_spec target cands d :
  NoDup (newRefs target cands d) /\
  (forall ref, ref ∈ newRefs target cands d <-> is_Some (cands !! ref) /\ order_of d target !! ref = None) /\
  (forall i j x y, newRefs target cands d !! i = Some x -> newRefs target cands d !! j = Some y ->
     (i < j)%nat -> String.ltb y x = false).
Proof.
  unfold newRefs. split_and!.
  - rewrite sort_by_Permutation.
    apply NoDup_ListNoDup, List.NoDup_filter, NoDup_ListNoDup, NoDup_fst_map_to_list.
  - intros ref. rewrite sort_by_Permutation, list_elem_of_In, filter_In, <- list_elem_of_In.
    rewrite (elem_of_keys cands (keys_of cands) (reflexivity _)).
    destruct (order_of d target !! ref); simpl; intuition congruence.
  - intros i j x y Hi Hj Hlt.
    apply (StronglySorted_lookup_lt _ _ _ _ _ _ (sort_by_sorted _ string_weak_order _) Hi Hj Hlt).
Qed.

Lemma dropped_order target cands d ref :
  order_of (dropStale target cands (dropVanished target cands d)) target !! ref =
  match cands !! ref with Some _ => order_of d target !! ref | None => None end.
Proof.
  unfold order_of at 1. simpl. rewrite lookup_insert_eq. simpl. apply option_eq. intros n.
  rewrite map_lookup_filter_Some. destruct (cands !! ref) eqn:E; simpl; rewrite E.
  - split; [by intros []|]. intros ->. split; [done|]. by eexists.
  - split; [by intros [_ []]|done].
Qed.

(** The whole of [syncBookkeeping], as seen by the target's queue. *)
Lemma syncBookkeeping_view cfg target cands d :
  let d' := syncBookkeeping cfg target cands d in
  let d1 := dropStale target cands (dropVanished target cands d) in
  let refs := newRefs target cands d1 in
  (forall i ref, refs !! i = Some ref -> order_of d' target !! ref = Some (d_seq d + Z.of_nat i)) /\
  (forall ref, ref ∉ refs -> order_of d' target !! ref = order_of d1 target !! ref) /\
  d_seq d' = d_seq d + Z.of_nat (length refs) /\ d_done d' = d_done d1 /\
  d_autoRetried d' = d_autoRetried d1 /\ d_lanes d' = d_lanes d /\ d_git d' = d_git d /\
  d_events d' = d_events d ++ queuedEvents target cands d' refs.
Proof.
  intros d' d1 refs.
  assert (exists cs dirty, stampEnqueued cands d1 = d1 <| d_controls := cs |> <| d_schedulerDirty := dirty |>) as (cs & dirty & Hst).
  { unfold stampEnqueued. case_bool_decide; [|by eexists _, _].
    exists (d_controls d1), (d_schedulerDirty d1). by destruct d1. }
  destruct (newRefs_spec target cands d1) as [Hnd _].
  assert (d' = fold_left (fun d ref => enqueueRef cfg target cands ref d) refs (stampEnqueued cands d1)) as E by done.
  clearbody d'. subst d'. rewrite Hst.
  destruct (enqueue_spec cfg target cands refs (d1 <| d_controls := cs |> <| d_schedulerDirty := dirty |>) Hnd)
    as (Hin & Hout & Hs & Hd & Ha & Hl & Hg & Ht & He).
  split_and!; try done. rewrite He. f_equal. unfold queuedEvents, announced, done_of. by rewrite Hd, Ht.
Qed.

(** Per-tick bookkeeping. After [syncBookkeeping] exactly the present refs
    have FIFO positions: a ref seen before keeps its own, the new ones take
    fresh, larger positions in ref order, so no two refs share one. A park
    survives exactly for the same revision (or for an absent review), a retry
    budget exactly for the same SHA, and one queued event is emitted for each
    new ref that is not parked at its SHA. Lanes and git are untouched. *)
Theorem syncBookkeeping_correct cfg target cands d :
  (forall ref n, order_of d target !! ref = Some n -> n < d_seq d) ->
  let d' := syncBookkeeping cfg target cands d in
  (forall ref, is_Some (order_of d' target !! ref) <-> is_Some (cands !! ref)) /\
  (forall ref n, order_of d target !! ref = Some n -> is_Some (cands !! ref) ->
     order_of d' target !! ref = Some n) /\
  (forall a b n m, order_of d target !! a = None -> order_of d' target !! a = Some n ->
     order_of d' target !! b = Some m -> d_seq d <= n < d_seq d' /\
     match order_of d target !! b with
     | Some _ => m < n
     | None => a <> b -> (String.ltb a b = true <-> n < m)
     end) /\
  (forall ref e, done_of d' target !! ref = Some e <->
     done_of d target !! ref = Some e /\ parkKept cands ref e = true) /\
  (forall ref sha, retried_of d' target !! ref = Some sha <->
     retried_of d target !! ref = Some sha /\ retryKept cands ref sha = true) /\
  (exists refs, d_events d' = d_events d ++ queuedEvents target cands d' refs /\
     forall ref, ref ∈ refs <-> is_Some (cands !! ref) /\ order_of d target !! ref = None) /\
  d_lanes d' = d_lanes d /\ d_git d' = d_git d.
Proof.
  intros Hseq d'. pose proof (syncBookkeeping_view cfg target cands d) as H. cbv zeta in H.
  change (syncBookkeeping cfg target cands d) with d' in H. clearbody d'.
  set (d1 := dropStale target cands (dropVanished target cands d)) in *.
  destruct (newRefs_spec target cands d1) as (_ & Hmem & Hmono).
  destruct H as (Hin & Hout & Hs & Hd & Ha & Hl & Hg & He).
  assert (forall ref, order_of d1 target !! ref =
    match cands !! ref with Some _ => order_of d target !! ref | None => None end) as Hord
    by (intros; apply dropped_order).
  assert (forall ref, ref ∈ newRefs target cands d1 <-> is_Some (cands !! ref) /\ order_of d target !! ref = None) as Hnews.
  { intros ref. rewrite Hmem, Hord. destruct (cands !! ref); [done|]. split; [by intros [[] _]|by intros [[] _]]. }
  assert (forall ref, ref ∉ newRefs target cands d1 -> order_of d' target !! ref =
    match cands !! ref with Some _ => order_of d target !! ref | None => None end) as Hold
    by (intros ref Hr; by rewrite (Hout ref Hr)).
  split_and!; try done.
  - intros ref. destruct (decide (ref ∈ newRefs target cands d1)) as [Hr|Hr].
    + pose proof (proj1 (Hnews ref) Hr) as [? _]. apply list_elem_of_lookup_1 in Hr as [i Hi].
      rewrite (Hin i ref Hi). split; eauto.
    + rewrite (Hold ref Hr). destruct (cands !! ref) eqn:Ec; [|split; by intros []].
      split; [eauto|]. intros _. destruct (order_of d target !! ref) eqn:Eo; [eauto|].
      exfalso. apply Hr, Hnews. rewrite Ec. eauto.
  - intros ref n Hn [c Hc]. rewrite Hold by (intros [_ ?]%Hnews; congruence). by rewrite Hc.
  - intros a b n m Ha0 Hn Hm.
    assert (a ∈ newRefs target cands d1) as [i Hi]%list_elem_of_lookup_1.
    { destruct (decide (a ∈ newRefs target cands d1)) as [|Hx]; [done|].
      rewrite (Hold a Hx) in Hn. destruct (cands !! a); congruence. }
    pose proof (lookup_lt_Some _ _ _ Hi). rewrite (Hin i a Hi) in Hn. injection Hn as <-. split; [lia|].
    destruct (order_of d target !! b) as [m0|] eqn:Hb0.
    + rewrite Hold in Hm by (intros [_ ?]%Hnews; congruence).
      destruct (cands !! b); [|done]. rewrite Hb0 in Hm. injection Hm as <-. apply Hseq in Hb0. lia.
    + intros Hab. destruct (decide (b ∈ newRefs target cands d1)) as [[j Hj]%list_elem_of_lookup_1|Hb];
        [|rewrite (Hold b Hb) in Hm; destruct (cands !! b); congruence].
      rewrite (Hin j b Hj) in Hm. injection Hm as <-. split; intros Hlt.
      * destruct (Nat.lt_total i j) as [?|[->|Hji]]; [lia|congruence|].
        rewrite (Hmono j i b a Hj Hi Hji) in Hlt. done.
      * pose proof (Hmono i j a b Hi Hj ltac:(lia)) as Hf.
        destruct (String.ltb a b) eqn:E; [done|]. exfalso. by apply Hab, string_lt_total.
  - intros ref e. unfold done_of at 1. rewrite Hd. simpl. rewrite lookup_insert_eq. simpl.
    by rewrite map_lookup_filter_Some.
  - intros ref sha. unfold retried_of. rewrite Ha. simpl.
    rewrite lookup_alter_eq. destruct (d_autoRetried d !! target); simpl; [by rewrite map_lookup_filter_Some|].
    rewrite lookup_empty. split; [done|by intros []].
  - eexists. split; [exact He|done].
Qed.

(** ** Concrete queues *)

(** Three candidates: [b] depends on [a], [c] is urgent. *)
Definition demoCands : gmap string Candidate :=
  <["a" := zeroCandidate <| c_Ref := "a" |> <| c_SHA := "sa" |>]>
  (<["b" := zeroCandidate <| c_Ref := "b" |> <| c_SHA := "sb" |> <| c_DependsOn := "a" |> <| c_Priority := "high" |>]>
  (<["c" := zeroCandidate <| c_Ref := "c" |> <| c_SHA := "sc" |> <| c_Urgent := true |>]> ∅)).

Example demo_pick :
  pickRefs demoDaemon "main" demoCands (keys_of demoCands) 3 ∅ = ["c"; "a"; "b"].
Proof. vm_compute. reflexivity. Qed.

Lemma priorityAt_max_witness :
  fst (rankFrom (fun x => ownPriority demoDaemon (demoCands !!! x else zeroCandidate) 0) demoCands
         (keys_of demoCands) (S (S (size demoCands))) "a" ∅) = 2.
Proof.
  etrans; [exact (proj2 (proj2 (proj2 (priorityAt_max demoDaemon "a" demoCands 0))) (keys_of demoCands) (reflexivity _))|].
  vm_compute. reflexivity.
Defined.

Lemma pickUpTo_safe_witness :
  NoDup (pickRefs demoDaemon "main" demoCands (keys_of demoCands) 2 ∅) /\
  pickRefs demoDaemon "main" demoCands (keys_of demoCands) 2 ∅ = ["c"; "a"].
Proof.
  split; [|vm_compute; reflexivity].
  exact (proj1 (pickUpTo_safe demoDaemon "main" demoCands 2 ∅ (keys_of demoCands) (reflexivity _))).
Defined.

Lemma pickUpTo_complete_witness :
  exists r0, pickRefs demoDaemon "main" demoCands (keys_of demoCands) 1 ∅ !! O = Some r0 /\
    ("a" = r0 \/ pickLess demoDaemon "main" demoCands r0 "a" = true).
Proof.
  refine (proj2 (pickUpTo_complete demoDaemon "main" demoCands 1 ∅ (keys_of demoCands) (reflexivity _) _) "a" _ _).
  - discriminate.
  - vm_compute. reflexivity.
  - vm_compute. reflexivity.
Defined.

Lemma syncBookkeeping_correct_witness :
  order_of (syncBookkeeping demoConfig "main" demoCands demoDaemon) "main" !! "b" = Some 6 /\
  (is_Some (order_of (syncBookkeeping demoConfig "main" demoCands demoDaemon) "main" !! "c")
     <-> is_Some (demoCands !! "c")).
Proof.
  split; [vm_compute; reflexivity|].
  refine (proj1 (syncBookkeeping_correct demoConfig "main" demoCands demoDaemon _) "c").
  intros ref n H. change (order_of demoDaemon "main") with ({[ "refs/heads/for/main/a" := 4 ]} : gmap string Z) in H.
  apply lookup_singleton_Some in H as [_ <-]. simpl. lia.
Defined.
