(* ===== verification/Spec.v ===== *)
(** Check specs ([src/internal/config/checks.go], servicekey.go and the first
    half of [src/internal/queue/checkspec.go]): what a parsed spec must satisfy,
    its dependency graphs, the deploy subgraph an environment selects, the
    capability gates, and the nodes a run is built from.

    KDL parsing is third-party code; a [CheckSpec] here is its result. *)
From S2P Require Import Prelude GoString Core Slots Daemon Controls CheckGraph.
From Stdlib Require Import Ascii.

Open Scope string_scope.
Open Scope list_scope.
Open Scope Z_scope.

(** ** Data *)

(** src/internal/config/checks.go:237-240 [EnvVar] *)
Record EnvVar := mkEnvVar { ev_Name : string; ev_Value : string }.

#[export] Instance EnvVar_eq_dec : EqDecision EnvVar.
Proof. solve_decision. Defined.

(** src/internal/config/checks.go:251-288 [Service] *)
Record Service := mkService {
  sv_Name : string;
  sv_Image : string;
  sv_Port : Z;
  sv_Env : list EnvVar;
  sv_ReadyCommand : list string;
  sv_ReadyTimeout : Z;
  sv_IdleTTL : Z;
  sv_Memory : string;
  sv_CPUs : string;
}.

#[export] Instance Service_eta : Eta Service := fun s => mkService (sv_Name s) (sv_Image s)
  (sv_Port s) (sv_Env s) (sv_ReadyCommand s) (sv_ReadyTimeout s) (sv_IdleTTL s)
  (sv_Memory s) (sv_CPUs s).

(** src/internal/config/checks.go:158-168 [Image] *)
Record Image := mkImage { im_Name : string; im_Command : list string; im_Executor : string }.

(** src/internal/config/checks.go:190-214 [Receipt] *)
Record Receipt := mkReceipt {
  rc_Name : string;
  rc_Command : list string;
  rc_Executor : string;
  rc_Image : string;
  rc_After : list string;
}.

(** src/internal/config/checks.go:219-234 [DeployNode] *)
Record DeployNode := mkDeployNode {
  dn_Name : string;
  dn_Command : list string;
  dn_After : list string;
  dn_Executor : string;
}.

(** src/internal/config/checks.go:17-94 [CheckSpec] *)
Record CheckSpec := mkCheckSpec {
  sp_Checks : list Check;
  sp_Services : list Service;
  sp_Images : list Image;
  sp_Receipts : list Receipt;
  sp_MaxParallel : Z;
  sp_Deploys : list DeployNode;
  sp_Workspace : string;
}.

#[export] Instance CheckSpec_eta : Eta CheckSpec := fun s => mkCheckSpec (sp_Checks s)
  (sp_Services s) (sp_Images s) (sp_Receipts s) (sp_MaxParallel s) (sp_Deploys s) (sp_Workspace s).

(** src/internal/config/checks.go:779-784 [Receipt] The method. *)
Definition spec_Receipt (cs : CheckSpec) : option Receipt := head (sp_Receipts cs).

(** src/internal/config/checks.go:773-773 [Isolated] *)
Definition Isolated (cs : CheckSpec) : bool := String.eqb (sp_Workspace cs) "isolated".

(** src/internal/config/checks.go:306-316 [RequiresServices] *)
Definition RequiresServices (cs : CheckSpec) : bool :=
  (0 <? length (sp_Services cs))%nat || existsb (fun c => (0 <? length (k_Needs c))%nat) (sp_Checks cs).

(** src/internal/config/daemon.go:106-106 [defaultReadyTimeout] *)
Definition defaultReadyTimeout : Z := 60 * 1000000000.
(** src/internal/config/daemon.go:107-107 [defaultIdleTTL] *)
Definition defaultIdleTTL : Z := 30 * 60 * 1000000000.

(** src/internal/config/checks.go:322-329 [applyServiceDefaults] *)
Definition applyServiceDefaults (s : Service) : Service :=
  let s := if sv_ReadyTimeout s =? 0 then s <| sv_ReadyTimeout := defaultReadyTimeout |> else s in
  if sv_IdleTTL s =? 0 then s <| sv_IdleTTL := defaultIdleTTL |> else s.

(** [unicode.ToUpper], as far as an ASCII letter comes out. *)
Definition upper_rune (r : Z) : Z :=
  if between 97 122 r then r - 32 else if r =? 305 then 73 else if r =? 383 then 83 else r.

(** src/internal/config/checks.go:339-351 [envSafeName] *)
Definition envSafeName (name : string) : string :=
  of_bytes (map (fun r => let u := upper_rune r in
    if between 65 90 u || between 48 57 u then val_byte u else val_byte 95) (runes name)).

Definition digits (b : bytes) : bool :=
  negb (bool_decide (b = [])) && forallb (fun a => between 48 57 (byte_val a)) b.

(** Bytes the case-insensitive class [[bkmg]] accepts at the end: the letters
    in both cases and the Kelvin sign, which folds to [k]. *)
Definition unit_suffixes : list bytes :=
  map (map val_byte) ([[66]; [75]; [77]; [71]; [98]; [107]; [109]; [103]; [226; 132; 170]] ++ [[]]).

(** src/internal/config/checks.go:296-296 [memoryPattern] *)
Definition memoryPattern (s : string) : bool :=
  existsb (fun suf => let b := to_bytes s in
    let n := (length b - length suf)%nat in
    bool_decide (drop n b = suf) && (length suf <=? length b)%nat && digits (take n b)) unit_suffixes.

(** src/internal/config/checks.go:297-297 [cpusPattern] *)
Definition cpusPattern (s : string) : bool :=
  match cut_at "."%char (to_bytes s) with
  | Some (x, y) => digits x && digits y
  | None => digits (to_bytes s)
  end.

(** ** Validation

    An [error] is [option string]; the first failing condition decides. *)
Fixpoint first_error (l : list (bool * string)) : option string :=
  match l with
  | [] => None
  | (true, msg) :: _ => Some msg
  | (false, _) :: rest => first_error rest
  end.

Fixpoint first_some {A} (f : A -> option string) (l : list A) : option string :=
  match l with
  | [] => None
  | x :: rest => match f x with Some e => Some e | None => first_some f rest end
  end.

Definition orElse (a b : option string) : option string := match a with Some e => Some e | None => b end.
Infix "orelse" := orElse (at level 60, right associativity).

(** The first element of [l] whose name was already seen. *)
Fixpoint dup_of {A} (name : A -> string) (seen : list string) (l : list A) : option A :=
  match l with
  | [] => None
  | x :: rest => if bool_decide (name x ∈ seen) then Some x else dup_of name (name x :: seen) rest
  end.

Section Validate.
(** [time.Duration.String] *)
Context (durationString : Z -> string).

(** src/internal/config/checks.go:418-462 [validate] One service, given the
    names and environment names of the services before it. *)
Definition validateService (before : list Service) (s : Service) : option string :=
  let envName := envSafeName (sv_Name s) in
  let q := quoted (sv_Name s) in
  first_error [
    (String.eqb (sv_Name s) "", "service: name must not be empty");
    (existsb (fun o => String.eqb (sv_Name o) (sv_Name s)) before, "service " +:+ q +:+ ": duplicate")] orelse
  match find_index (fun o => String.eqb (envSafeName (sv_Name o)) envName) before with
  | Some (_, owner) =>
      Some ("service " +:+ q +:+ ": collides with service " +:+ quoted (sv_Name owner)
            +:+ " under env var name GAUNTLET_SVC_" +:+ envName +:+ "_* — rename one")
  | None => None
  end orelse
  first_error [
    (String.eqb (sv_Image s) "", "service " +:+ q +:+ ": image must not be empty");
    ((sv_Port s <? 1) || (65535 <? sv_Port s),
      "service " +:+ q +:+ ": port must be between 1 and 65535, got " +:+ pretty (sv_Port s));
    (sv_ReadyTimeout s <=? 0,
      "service " +:+ q +:+ ": ready-timeout must be positive, got " +:+ durationString (sv_ReadyTimeout s));
    (sv_IdleTTL s <=? 0,
      "service " +:+ q +:+ ": idle-ttl must be positive, got " +:+ durationString (sv_IdleTTL s));
    (negb (String.eqb (sv_Memory s) "") && negb (memoryPattern (sv_Memory s)),
      "service " +:+ q +:+ ": memory " +:+ quoted (sv_Memory s) +:+ ": must match (?i)^[0-9]+[bkmg]?$ (e.g. "
      +:+ quoted "2g" +:+ ")");
    (negb (String.eqb (sv_CPUs s) "") && negb (cpusPattern (sv_CPUs s)),
      "service " +:+ q +:+ ": cpus " +:+ quoted (sv_CPUs s) +:+ ": must match ^[0-9]+(\.[0-9]+)?$ (e.g. "
      +:+ quoted "1.5" +:+ ")")].

(** src/internal/config/checks.go:416-462 [validate] *)
Fixpoint validateServices (before l : list Service) : option string :=
  match l with
  | [] => None
  | s :: rest => validateService before s orelse validateServices (before ++ [s]) rest
  end.
End Validate.

(** src/internal/config/checks.go:464-476 [validate] *)
Fixpoint validateImages (before l : list Image) : option string :=
  match l with
  | [] => None
  | i :: rest =>
      let q := quoted (im_Name i) in
      first_error [
        (String.eqb (im_Name i) "", "image: name must not be empty");
        (existsb (fun o => String.eqb (im_Name o) (im_Name i)) before, "image " +:+ q +:+ ": duplicate");
        ((length (im_Command i) =? 0)%nat, "image " +:+ q +:+ ": command must not be empty")]
      orelse validateImages (before ++ [i]) rest
  end.

(** src/internal/config/checks.go:481-508 [validate] The pass over check names. *)
Fixpoint validateNames (workspace : string) (before l : list Check) : option string :=
  match l with
  | [] => None
  | c :: rest =>
      let q := quoted (k_Name c) in
      first_error [
        (bool_decide (k_Inputs c = Some []), "check " +:+ q +:+ ": inputs command must not be empty");
        (negb (bool_decide (default [] (k_Inputs c) = [])) && negb (String.eqb workspace "isolated"),
          "check " +:+ q +:+ ": inputs requires workspace isolated");
        (String.eqb (k_Name c) "", "check: name must not be empty");
        (String.prefix "image:" (k_Name c),
          "check " +:+ q +:+ ": the " +:+ quoted "image:" +:+ " name prefix is reserved for image-build nodes");
        (String.prefix "receipt:" (k_Name c),
          "check " +:+ q +:+ ": the " +:+ quoted "receipt:" +:+ " name prefix is reserved for the receipt node");
        (existsb (fun o => String.eqb (k_Name o) (k_Name c)) before, "check " +:+ q +:+ ": duplicate")]
      orelse validateNames workspace (before ++ [c]) rest
  end.

(** src/internal/config/checks.go:536-548 [validate] The edges of one node: no self edge (when [self] is given), every
    prerequisite declared, none repeated. *)
Fixpoint validateAfter (label : string) (kind : string) (self : option string) (declared seen l : list string)
  : option string :=
  match l with
  | [] => None
  | a :: rest =>
      let pre := label +:+ ": after " +:+ quoted a in
      first_error [
        (bool_decide (self = Some a), pre +:+ ": a " +:+ kind +:+ " cannot depend on itself");
        (negb (bool_decide (a ∈ declared)), pre +:+ ": no such " +:+ kind +:+ " declared");
        (bool_decide (a ∈ seen), pre +:+ ": duplicate")]
      orelse validateAfter label kind self declared (a :: seen) rest
  end.

(** src/internal/config/checks.go:521-530 [validate] *)
Fixpoint validateNeeds (label : string) (declared seen l : list string) : option string :=
  match l with
  | [] => None
  | n :: rest =>
      first_error [
        (negb (bool_decide (n ∈ declared)), label +:+ ": needs " +:+ quoted n +:+ ": no such service declared");
        (bool_decide (n ∈ seen), label +:+ ": needs " +:+ quoted n +:+ ": duplicate")]
      orelse validateNeeds label declared (n :: seen) rest
  end.

Section ValidateSpec.
Context (durationString : Z -> string) (cs : CheckSpec).

Definition checkNames : list string := k_Name <$> sp_Checks cs.
Definition imageNames : list string := im_Name <$> sp_Images cs.
Definition deployNames : list string := dn_Name <$> sp_Deploys cs.

(** src/internal/config/checks.go:510-549 [validate] One check's fields and
    edges. *)
Definition validateCheck (c : Check) : option string :=
  let label := "check " +:+ quoted (k_Name c) in
  first_error [
    (negb (existsb (String.eqb (k_TestResults c)) [""; "json"; "junit"; "trx"]),
      label +:+ ": test-results must be json, junit, or trx");
    (match k_RetryCommand c with
     | Some cmd => bool_decide (cmd = []) || String.eqb (k_TestResults c) ""
     | None => false
     end, label +:+ ": retry-command needs test-results and a command");
    ((length (k_Command c) =? 0)%nat, label +:+ ": command must not be empty")] orelse
  validateNeeds label (sv_Name <$> sp_Services cs) [] (k_Needs c) orelse
  first_error [
    (negb (String.eqb (k_Image c) "") && negb (bool_decide (k_Image c ∈ imageNames)),
      label +:+ ": image " +:+ quoted (k_Image c) +:+ ": no such image declared")] orelse
  validateAfter label "check" (Some (k_Name c)) checkNames [] (k_After c).

(** src/internal/config/checks.go:555-593 [validate] *)
Definition validateReceiptNode : option string :=
  first_error [((1 <? length (sp_Receipts cs))%nat, "receipt: declared more than once (at most one is allowed)")] orelse
  match spec_Receipt cs with
  | None => None
  | Some r =>
      let label := "receipt " +:+ quoted (rc_Name r) in
      first_error [
        (String.eqb (rc_Name r) "", "receipt: name must not be empty");
        (bool_decide (rc_Name r ∈ checkNames), label +:+ ": collides with check " +:+ quoted (rc_Name r));
        (bool_decide (rc_Name r ∈ imageNames), label +:+ ": collides with image " +:+ quoted (rc_Name r));
        ((length (rc_Command r) =? 0)%nat, label +:+ ": command must not be empty");
        (negb (String.eqb (rc_Image r) "") && negb (bool_decide (rc_Image r ∈ imageNames)),
          label +:+ ": image " +:+ quoted (rc_Image r) +:+ ": no such image declared")] orelse
      validateAfter label "check" None checkNames [] (rc_After r)
  end.
End ValidateSpec.

(** ** Cycle detection *)

(** src/internal/config/checks.go:802-806 [validateAcyclic] *)
Inductive Color := white | gray | black.

#[export] Instance Color_eq_dec : EqDecision Color.
Proof. solve_decision. Defined.

Section Acyclic.
(** The edges, by node name, and the report of a cycle through one of them. *)
Context (edges : gmap string (list string)) (report : string -> string -> string).

Definition colorOf (color : gmap string Color) (n : string) : Color := color !!! n else white.

(** src/internal/config/checks.go:811-820 [validateAcyclic] The loop over a node's edges, stopping at the first error. *)
Fixpoint visitDeps (visit : string -> gmap string Color -> gmap string Color + string)
    (name : string) (deps : list string) (color : gmap string Color) : gmap string Color + string :=
  match deps with
  | [] => inl color
  | dep :: rest =>
      match colorOf color dep with
      | gray => inr (report name dep)
      | white => match visit dep color with
                 | inl color => visitDeps visit name rest color
                 | inr err => inr err
                 end
      | black => visitDeps visit name rest color
      end
  end.

(** src/internal/config/checks.go:808-823 [validateAcyclic] Every nested visit
    greys one more node, so [fuel] above the number of white nodes is enough. *)
Fixpoint visitNode (fuel : nat) (name : string) (color : gmap string Color) : gmap string Color + string :=
  match fuel with
  | O => inr "out of fuel"
  | S fuel =>
      match visitDeps (visitNode fuel) name (edges !!! name else []) (<[name := gray]> color) with
      | inl color => inl (<[name := black]> color)
      | inr err => inr err
      end
  end.

(** src/internal/config/checks.go:824-831 [validateAcyclic] *)
Fixpoint visitAll (fuel : nat) (names : list string) (color : gmap string Color) : gmap string Color + string :=
  match names with
  | [] => inl color
  | n :: rest =>
      match colorOf color n with
      | white => match visitNode fuel n color with
                 | inl color => visitAll fuel rest color
                 | inr err => inr err
                 end
      | _ => visitAll fuel rest color
      end
  end.

(** src/internal/config/checks.go:824-831 [validateAcyclic] *)
Definition acyclicError (names : list string) : option string :=
  match visitAll (S (length names)) names ∅ with inl _ => None | inr err => Some err end.
End Acyclic.

(** src/internal/config/checks.go:814-814 [validateAcyclic] *)
Definition cycleReport (kind : string) (name dep : string) : string :=
  kind +:+ " " +:+ quoted name +:+ ": after " +:+ quoted dep +:+ ": dependency cycle".

(** src/internal/config/checks.go:798-801 [validateAcyclic] A later node of the same name replaces an earlier one. *)
Definition edgeMap {A} (name : A -> string) (after : A -> list string) (l : list A) : gmap string (list string) :=
  fold_left (fun m x => <[name x := after x]> m) l ∅.

(** src/internal/config/checks.go:797-832 [validateAcyclic] *)
Definition validateAcyclic (cs : CheckSpec) : option string :=
  acyclicError (edgeMap k_Name k_After (sp_Checks cs)) (cycleReport "check") (checkNames cs).

(** src/internal/config/checks.go:678-713 [validateDeployAcyclic] *)
Definition validateDeployAcyclic (cs : CheckSpec) : option string :=
  acyclicError (edgeMap dn_Name dn_After (sp_Deploys cs)) (cycleReport "deploy") (deployNames cs).

(** src/internal/config/checks.go:629-648 [validateDeploys] The pass over names. *)
Fixpoint validateDeployNames (before l : list DeployNode) : option string :=
  match l with
  | [] => None
  | d :: rest =>
      let q := quoted (dn_Name d) in
      first_error [
        (String.eqb (dn_Name d) "", "deploy: name must not be empty");
        (String.prefix "image:" (dn_Name d),
          "deploy " +:+ q +:+ ": the " +:+ quoted "image:" +:+ " name prefix is reserved for image-build nodes");
        (String.prefix "receipt:" (dn_Name d),
          "deploy " +:+ q +:+ ": the " +:+ quoted "receipt:" +:+ " name prefix is reserved for the receipt node");
        (existsb (fun o => String.eqb (dn_Name o) (dn_Name d)) before, "deploy " +:+ q +:+ ": duplicate")]
      orelse validateDeployNames (before ++ [d]) rest
  end.

(** src/internal/config/checks.go:650-670 [validateDeploys] One node's fields. *)
Definition validateDeploy (cs : CheckSpec) (d : DeployNode) : option string :=
  let label := "deploy " +:+ quoted (dn_Name d) in
  first_error [((length (dn_Command d) =? 0)%nat, label +:+ ": command must not be empty")] orelse
  validateAfter label "deploy node" (Some (dn_Name d)) (deployNames cs) [] (dn_After d).

(** src/internal/config/checks.go:626-673 [validateDeploys] *)
Definition validateDeploys (cs : CheckSpec) : option string :=
  validateDeployNames [] (sp_Deploys cs) orelse
  first_some (validateDeploy cs) (sp_Deploys cs) orelse validateDeployAcyclic cs.

(** src/internal/config/checks.go:791-791 [maxAllowedMaxParallel] *)
Definition maxAllowedMaxParallel : Z := 64.

(** src/internal/config/checks.go:411-618 [validate] *)
Definition validate (durationString : Z -> string) (cs : CheckSpec) : option string :=
  first_error [((length (sp_Checks cs) =? 0)%nat, "no checks defined")] orelse
  validateServices durationString [] (sp_Services cs) orelse
  validateImages [] (sp_Images cs) orelse
  validateNames (sp_Workspace cs) [] (sp_Checks cs) orelse
  first_some (validateCheck cs) (sp_Checks cs) orelse
  validateReceiptNode cs orelse
  validateAcyclic cs orelse
  validateDeploys cs orelse
  first_error [
    (sp_MaxParallel cs <? 0, "max-parallel must not be negative, got " +:+ pretty (sp_MaxParallel cs));
    (maxAllowedMaxParallel <? sp_MaxParallel cs,
      "max-parallel " +:+ pretty (sp_MaxParallel cs) +:+ " exceeds the maximum of " +:+ pretty maxAllowedMaxParallel);
    (negb (existsb (String.eqb (sp_Workspace cs)) [""; "isolated"]),
      "workspace must be " +:+ quoted "isolated" +:+ " (or absent for shared), got " +:+ quoted (sp_Workspace cs))].

(** src/internal/config/checks.go:391-409 [ParseChecks] What follows the KDL
    decoding: defaults, then validation. *)
Definition checkParsed (durationString : Z -> string) (cs : CheckSpec) : CheckSpec + string :=
  let cs := cs <| sp_Services ::= map applyServiceDefaults |> in
  match validate durationString cs with
  | Some err => inr ("config: check spec: " +:+ err)
  | None => inl cs
  end.

(** ** Deploy selection *)

Section Select.
Context (cs : CheckSpec).

(** src/internal/config/checks.go:734-737 [SelectDeployNodes] [byName]: the last declaration of a name. *)
Definition deployByName (name : string) : option DeployNode :=
  find (fun d => String.eqb (dn_Name d) name) (rev (sp_Deploys cs)).

(** src/internal/config/checks.go:746-746 [SelectDeployNodes] *)
Definition unknownDeploy (name : string) : string :=
  "deploy node " +:+ quoted name +:+ ": no such deploy node declared".

(** src/internal/config/checks.go:739-755 [SelectDeployNodes] [pull]; each
    nested call adds a name, so fuel above the number of nodes is enough. *)
Fixpoint pull (fuel : nat) (name : string) (wanted : gset string) : gset string + string :=
  match fuel with
  | O => inr "out of fuel"
  | S fuel =>
      if decide (name ∈ wanted) then inl wanted
      else match deployByName name with
           | None => inr (unknownDeploy name)
           | Some node =>
               fold_left (fun acc a => match acc with inl w => pull fuel a w | inr e => inr e end)
                 (dn_After node) (inl ({[name]} ∪ wanted))
           end
  end.

(** src/internal/config/checks.go:730-768 [SelectDeployNodes] *)
Definition SelectDeployNodes (names : list string) : list DeployNode + string :=
  match names with
  | [] => inl (sp_Deploys cs)
  | _ =>
      match fold_left (fun acc a => match acc with inl w => pull (S (S (length (sp_Deploys cs)))) a w | inr e => inr e end)
              names (inl ∅) with
      | inl wanted => inl (List.filter (fun d => bool_decide (dn_Name d ∈ wanted)) (sp_Deploys cs))
      | inr err => inr err
      end
  end.
End Select.

(** ** Run nodes and capability gates *)

(** src/internal/queue/checkspec.go:96-96 [imageNodePrefix] *)
Definition imageNodePrefix := "image:".
(** src/internal/queue/checkspec.go:99-99 [receiptNodePrefix] *)
Definition receiptNodePrefix := "receipt:".

(** src/internal/queue/checkspec.go:258-263 [effectiveMaxParallel] *)
Definition effectiveMaxParallel (cs : CheckSpec) : Z :=
  if sp_MaxParallel cs <=? 0 then 1 else sp_MaxParallel cs.

(** src/internal/queue/checkspec.go:161-166 [buildRunNodes] *)
Definition imageNode (i : Image) : Check :=
  mkCheck "" None None (imageNodePrefix +:+ im_Name i) (im_Command i) [] [] (im_Executor i) "".

(** src/internal/queue/checkspec.go:168-175 [buildRunNodes] *)
Definition consumerNode (c : Check) : Check :=
  if String.eqb (k_Image c) "" then c
  else mkCheck (k_TestResults c) (k_RetryCommand c) (k_Inputs c) (k_Name c) (k_Command c) (k_Needs c)
         (k_After c ++ [imageNodePrefix +:+ k_Image c]) (k_Executor c) (k_Image c).

(** src/internal/queue/checkspec.go:176-188 [buildRunNodes] *)
Definition receiptNode (r : Receipt) : Check :=
  mkCheck "" None None (receiptNodePrefix +:+ rc_Name r) (rc_Command r) []
    (rc_After r ++ (if String.eqb (rc_Image r) "" then [] else [imageNodePrefix +:+ rc_Image r]))
    (rc_Executor r) (rc_Image r).

(** src/internal/queue/checkspec.go:155-190 [buildRunNodes] *)
Definition buildRunNodes (cs : CheckSpec) : list Check :=
  match sp_Images cs, spec_Receipt cs with
  | [], None => sp_Checks cs
  | _, rcp => map imageNode (sp_Images cs) ++ map consumerNode (sp_Checks cs)
              ++ match rcp with Some r => [receiptNode r] | None => [] end
  end.

(** src/internal/queue/checkspec.go:62-91 [unknownExecutorProfile] *)
Definition unknownExecutorProfile (cs : CheckSpec) (known : option (string -> bool)) : option (string * string) :=
  let bad e := negb (String.eqb e "") && negb (match known with Some f => f e | None => false end) in
  match find_index (fun c => bad (k_Executor c)) (sp_Checks cs) with
  | Some (_, c) => Some (k_Name c, k_Executor c)
  | None =>
      match find_index (fun i => bad (im_Executor i)) (sp_Images cs) with
      | Some (_, i) => Some (imageNodePrefix +:+ im_Name i, im_Executor i)
      | None =>
          match spec_Receipt cs with
          | Some r => if bad (rc_Executor r) then Some (receiptNodePrefix +:+ rc_Name r, rc_Executor r) else None
          | None => None
          end
      end
  end.

(** src/internal/queue/checkspec.go:132-151 [imageOnIncapableProfile] *)
Definition imageOnIncapableProfile (cs : CheckSpec) (capable : option (string -> bool)) : option (string * string) :=
  let bad image e := negb (String.eqb image "") && negb (match capable with Some f => f e | None => false end) in
  match find_index (fun c => bad (k_Image c) (k_Executor c)) (sp_Checks cs) with
  | Some (_, c) => Some (k_Name c, k_Image c)
  | None =>
      match spec_Receipt cs with
      | Some r => if bad (rc_Image r) (rc_Executor r) then Some (receiptNodePrefix +:+ rc_Name r, rc_Image r) else None
      | None => None
      end
  end.

(** src/internal/queue/checkspec.go:26-26 [SpecRejectReason] *)
Definition servicesMissing := "check spec declares services but this daemon has no services block".

(** src/internal/queue/checkspec.go:16-35 [SpecRejectReason] The loop over the
    checks: its error, and whether a remote check needs services. *)
Fixpoint remoteGate (remote : string -> bool) (workspace : string) (hasServices : bool) (checks : list Check)
  : bool * option string :=
  match checks with
  | [] => (false, None)
  | c :: rest =>
      let needs := (0 <? length (k_Needs c))%nat in
      match first_error [
        (remote (k_Executor c) && negb (String.eqb workspace "isolated"), "remote checks require workspace isolated");
        (needs && negb (remote (k_Executor c)) && negb hasServices, servicesMissing)] with
      | Some err => (false, Some err)
      | None => let '(has, err) := remoteGate remote workspace hasServices rest in
                ((needs && remote (k_Executor c)) || has, err)
      end
  end.

(** src/internal/queue/checkspec.go:15-55 [SpecRejectReason] [None] accepts. *)
Definition SpecRejectReason (cs : CheckSpec) (hasServices : bool) (known imageCapable : option (string -> bool))
    (receiptPolicy : bool) (remoteProfile : option (string -> bool)) : option string :=
  let remote e := match remoteProfile with Some f => f e | None => false end in
  let notIsolated := negb (Isolated cs) in
  let '(hasRemoteServices, err) := remoteGate remote (sp_Workspace cs) hasServices (sp_Checks cs) in
  err orelse
  first_error [
    (existsb (fun i => remote (im_Executor i)) (sp_Images cs) && notIsolated,
      "remote image builds require workspace isolated");
    (match spec_Receipt cs with Some r => remote (rc_Executor r) && notIsolated | None => false end,
      "remote receipts require workspace isolated");
    (RequiresServices cs && negb hasServices && negb hasRemoteServices, servicesMissing)] orelse
  match unknownExecutorProfile cs known with
  | Some (chk, prof) =>
      Some ("check spec: check " +:+ quoted chk +:+ " selects unknown executor profile " +:+ quoted prof)
  | None => None
  end orelse
  match imageOnIncapableProfile cs imageCapable with
  | Some (chk, img) =>
      Some ("check spec: check " +:+ quoted chk +:+ " runs candidate-built image " +:+ quoted img
                 +:+ " but its executor profile is not a container profile")
  | None => None
  end orelse
  match receiptPolicy, spec_Receipt cs with
  | true, None => Some "this daemon requires a receipt (receipt-notes is configured) but the check spec declares none"
  | false, Some r => Some ("check spec declares receipt " +:+ quoted (rc_Name r) +:+ " but this daemon has no receipt-notes policy")
  | _, _ => None
  end.

(** ** The error combinators *)

Lemma orelse_None a b : (a orelse b) = None <-> a = None /\ b = None.
Proof. destruct a; simpl; intuition congruence. Qed.

Lemma first_error_None l : first_error l = None <-> Forall (fun p => p.1 = false) l.
Proof.
  induction l as [|[[] msg] l IH]; simpl; [split; [constructor|done]|..].
  - split; [done|]. inversion 1; done.
  - rewrite IH. split; [by constructor|]. by inversion 1.
Qed.

Lemma first_some_None {A} (f : A -> option string) l : first_some f l = None <-> forall x, x ∈ l -> f x = None.
Proof.
  induction l as [|x l IH]; simpl; [split; [by intros _ ? ?%elem_of_nil|done]|].
  destruct (f x) eqn:E.
  - split; [done|]. intros H. rewrite <- E. apply H, list_elem_of_here.
  - rewrite IH. split.
    + by intros H y [->|Hy]%elem_of_cons; auto.
    + intros H y Hy. apply H. by apply list_elem_of_further.
Qed.

Ltac noerr := repeat match goal with
  | H : (_ orelse _) = None |- _ => apply orelse_None in H as [? ?]
  | H : first_error _ = None |- _ => apply first_error_None in H; decompose_Forall
  | H : Forall _ (_ :: _) |- _ => apply Forall_cons in H as [? H]; cbn [fst] in *
  | H : Forall _ [] |- _ => clear H
  end.

(** ** Cycle detection *)

Section AcyclicSpec.
Context (edges : gmap string (list string)) (report : string -> string -> string).
Context (names : list string).

Definition edge (a b : string) : Prop := b ∈ (edges !!! a else []).

Hypothesis Hclosed : forall a b, edge a b -> b ∈ names.

(** Sets built by adding nodes whose prerequisites are already in. *)
Inductive topo : gset string -> Prop :=
  | topo_empty : topo ∅
  | topo_add x B : topo B -> x ∉ B -> (forall b, edge x b -> b ∈ B) -> topo ({[x]} ∪ B).

Lemma topo_rank B :
  topo B -> exists (rank : string -> nat) n, forall x, x ∈ B ->
    (rank x < n)%nat /\ forall b, edge x b -> b ∈ B /\ (rank b < rank x)%nat.
Proof.
  induction 1 as [|x B HB IH Hx Hb]; [exists (fun _ => O), O; set_solver|].
  destruct IH as (rank & n & IH). exists (fun y => if decide (y = x) then n else rank y), (S n).
  intros y Hy. destruct (decide (y = x)) as [->|Hne].
  - split; [lia|]. intros b Eb. pose proof (Hb b Eb) as HbB. split; [set_solver|].
    destruct (decide (b = x)) as [->|]; [done|]. by destruct (IH b HbB).
  - apply elem_of_union in Hy as [?%elem_of_singleton|Hy]; [done|]. destruct (IH y Hy) as [Hn Hr].
    split; [lia|]. intros b Eb. destruct (Hr b Eb). split; [set_solver|].
    destruct (decide (b = x)) as [->|]; [done|lia].
Qed.

Definition blacks (color : gmap string Color) (B : gset string) : Prop :=
  forall n, n ∈ B <-> colorOf color n = black.

(** What a successful search from colors [c] leaves in [c']. *)
Definition explored (c : gmap string Color) (B : gset string) (c' : gmap string Color) (B' : gset string) : Prop :=
  blacks c' B' /\ topo B' /\ B ⊆ B' /\
  (forall n, colorOf c' n = gray <-> colorOf c n = gray) /\
  (forall n, colorOf c' n = white -> colorOf c n = white).

Definition whites (c : gmap string Color) : nat :=
  size (filter (fun n => colorOf c n = white) (list_to_set names : gset string)).

Lemma whites_mono c c' : (forall n, colorOf c' n = white -> colorOf c n = white) -> (whites c' <= whites c)%nat.
Proof. intros H. unfold whites. apply subseteq_size. intros n. rewrite !elem_of_filter. intros []; auto. Qed.

Lemma colorOf_insert c n x m : colorOf (<[n := x]> c) m = if decide (m = n) then x else colorOf c m.
Proof.
  unfold colorOf. destruct (decide (m = n)) as [->|]; [by rewrite lookup_insert_eq|].
  by rewrite lookup_insert_ne.
Qed.

Lemma whites_gray c n : n ∈ names -> colorOf c n = white -> (whites (<[n := gray]> c) < whites c)%nat.
Proof.
  intros Hn Hw. unfold whites. apply subset_size. split.
  - intros m. rewrite !elem_of_filter, colorOf_insert. by destruct (decide (m = n)) as [->|]; intros [].
  - intros H. specialize (H n). rewrite !elem_of_filter, colorOf_insert, decide_True in H by done.
    destruct H; [|done]. split; [done|]. by apply elem_of_list_to_set.
Qed.

Definition cyclic : Prop := exists x, tc edge x x.

(** The contract of [visitNode], for a white node reached from every grey one. *)
Definition visit_ok (visit : string -> gmap string Color -> gmap string Color + string) (bound : nat) : Prop :=
  forall name c B, colorOf c name = white -> name ∈ names -> blacks c B -> topo B ->
    (forall g, colorOf c g = gray -> tc edge g name) -> (whites c < bound)%nat ->
    match visit name c with
    | inl c' => exists B', explored c B c' B' /\ name ∈ B'
    | inr _ => cyclic
    end.

Lemma visitDeps_ok visit bound name deps c B :
  visit_ok visit bound -> (forall dep, dep ∈ deps -> edge name dep) -> blacks c B -> topo B ->
  (forall g, colorOf c g = gray -> rtc edge g name) -> (whites c < bound)%nat ->
  match visitDeps report visit name deps c with
  | inl c' => exists B', explored c B c' B' /\ forall dep, dep ∈ deps -> dep ∈ B'
  | inr _ => cyclic
  end.
Proof.
  intros Hv. revert c B. induction deps as [|dep deps IH]; intros c B He Hb Ht Hg Hw; cbn [visitDeps].
  { exists B. split; [by split_and!|]. by intros ? ?%elem_of_nil. }
  assert (edge name dep) as Hedge by apply He, list_elem_of_here.
  assert (forall d, d ∈ deps -> edge name d) as He' by (intros d Hd; by apply He, list_elem_of_further).
  destruct (colorOf c dep) eqn:Ec.
  - pose proof (Hv dep c B Ec (Hclosed _ _ Hedge) Hb Ht) as Hd.
    specialize (Hd ltac:(intros g Eg; eapply tc_rtc_l; [by apply Hg|by apply tc_once]) Hw).
    destruct (visit dep c) as [c1|err]; [|done]. destruct Hd as (B1 & (Hb1 & Ht1 & Hs1 & Hg1 & Hw1) & Hin).
    specialize (IH c1 B1 He' Hb1 Ht1 ltac:(intros g Eg; apply Hg; by apply Hg1)
      ltac:(eapply Nat.le_lt_trans; [by apply whites_mono|done])).
    destruct (visitDeps report visit name deps c1) as [c2|err]; [|done].
    destruct IH as (B2 & (Hb2 & Ht2 & Hs2 & Hg2 & Hw2) & Hd2). exists B2. split.
    + split_and!; try done; [set_solver| |auto]. intros n. by rewrite Hg2, Hg1.
    + intros d [->|Hd]%elem_of_cons; auto.
  - exists dep. eapply tc_rtc_l; [by apply Hg|by apply tc_once].
  - specialize (IH c B He' Hb Ht Hg Hw). destruct (visitDeps report visit name deps c) as [c2|err]; [|done].
    destruct IH as (B2 & He2 & Hd2). exists B2. split; [done|].
    intros d [->|Hd]%elem_of_cons; [|auto]. destruct He2 as (_ & _ & Hs & _). by apply Hs, Hb.
Qed.

Lemma visitNode_ok fuel : visit_ok (visitNode edges report fuel) fuel.
Proof.
  induction fuel as [|fuel IH]; intros name c B Hw Hn Hb Ht Hg Hf; [lia|]. cbn [visitNode].
  assert (name ∉ B) as HnB by (rewrite (Hb name); congruence).
  pose proof (visitDeps_ok _ fuel name (edges !!! name else []) (<[name := gray]> c) B IH (fun _ H => H)) as Hd.
  specialize (Hd ltac:(intros n; rewrite colorOf_insert, (Hb n); destruct (decide (n = name)) as [->|]; [rewrite Hw|]; done) Ht).
  specialize (Hd ltac:(intros g; rewrite colorOf_insert; destruct (decide (g = name)) as [->|];
    [done|intros Eg; by apply tc_rtc, Hg])).
  specialize (Hd ltac:(pose proof (whites_gray c name Hn Hw); lia)).
  destruct (visitDeps report (visitNode edges report fuel) name _ _) as [c1|err]; [|done].
  destruct Hd as (B1 & (Hb1 & Ht1 & Hs1 & Hg1 & Hw1) & Hdeps).
  assert (name ∉ B1) as HnB1.
  { rewrite (Hb1 name). enough (colorOf c1 name = gray) by congruence.
    apply Hg1. by rewrite colorOf_insert, decide_True. }
  exists ({[name]} ∪ B1). split; [split_and!|set_solver].
  - intros n. rewrite colorOf_insert, elem_of_union, elem_of_singleton, (Hb1 n).
    destruct (decide (n = name)); naive_solver.
  - by constructor.
  - set_solver.
  - intros n. specialize (Hg1 n). rewrite colorOf_insert in *. destruct (decide (n = name)) as [->|]; [|done].
    rewrite Hw. done.
  - intros n. specialize (Hw1 n). rewrite colorOf_insert in *. destruct (decide (n = name)) as [->|]; done || auto.
Qed.

Lemma visitAll_ok fuel l c B :
  (forall n, n ∈ l -> n ∈ names) -> (whites c < fuel)%nat -> blacks c B -> topo B ->
  (forall g, colorOf c g <> gray) ->
  match visitAll edges report fuel l c with
  | inl _ => exists B', topo B' /\ B ⊆ B' /\ forall n, n ∈ l -> n ∈ B'
  | inr _ => cyclic
  end.
Proof.
  revert c B. induction l as [|n l IH]; intros c B Hl Hf Hb Ht Hg; cbn [visitAll].
  { exists B. split_and!; [done|done|]. by intros ? ?%elem_of_nil. }
  assert (forall m, m ∈ l -> m ∈ names) as Hl' by (intros m Hm; by apply Hl, list_elem_of_further).
  destruct (colorOf c n) eqn:Ec; [|by destruct (Hg n)|].
  - pose proof (visitNode_ok fuel n c B Ec (Hl n (list_elem_of_here _ _)) Hb Ht ltac:(intros g Eg; by destruct (Hg g)) Hf) as Hn.
    destruct (visitNode edges report fuel n c) as [c1|err]; [|done].
    destruct Hn as (B1 & (Hb1 & Ht1 & Hs1 & Hg1 & Hw1) & Hin).
    specialize (IH c1 B1 Hl' ltac:(eapply Nat.le_lt_trans; [by apply whites_mono|done]) Hb1 Ht1
      ltac:(intros g Eg; by apply Hg1, Hg in Eg)).
    destruct (visitAll edges report fuel l c1) as [c2|err]; [|done]. destruct IH as (B2 & Ht2 & Hs2 & Hl2).
    exists B2. split_and!; [done|set_solver|]. intros m [->|Hm]%elem_of_cons; auto.
  - specialize (IH c B Hl' Hf Hb Ht Hg). destruct (visitAll edges report fuel l c) as [c2|err]; [|done].
    destruct IH as (B2 & Ht2 & Hs2 & Hl2). exists B2. split_and!; [done..|].
    intros m [->|Hm]%elem_of_cons; [|auto]. by apply Hs2, Hb.
Qed.

(** A ranking is a certificate that no cycle exists; without one there is. *)
Lemma acyclicError_None :
  (forall a b, edge a b -> a ∈ names) ->
  acyclicError edges report names = None <->
  exists rank : string -> nat, forall a b, edge a b -> (rank b < rank a)%nat.
Proof.
  intros Hdom. unfold acyclicError.
  pose proof (visitAll_ok (S (length names)) names ∅ ∅ (fun _ H => H)) as H.
  assert (whites ∅ < S (length names))%nat as Hw.
  { apply Nat.lt_succ_r. unfold whites.
    etrans; [apply subseteq_size; intros x [_ Hx]%elem_of_filter; exact Hx|].
    clear. induction names as [|n l IH]; cbn [list_to_set length]; [by rewrite size_empty|].
    rewrite size_union_alt, size_singleton. apply le_n_S. etrans; [|exact IH]. apply subseteq_size. set_solver. }
  specialize (H Hw). specialize (H ltac:(intros n; unfold colorOf; rewrite lookup_empty; set_solver) topo_empty).
  specialize (H ltac:(intros g; unfold colorOf; by rewrite lookup_empty)).
  destruct (visitAll edges report (S (length names)) names ∅) as [c|err].
  - split; [|done]. intros _. destruct H as (B & Ht & _ & Hall). apply topo_rank in Ht as (rank & n & Hr).
    exists rank. intros a b Hab. destruct (Hr a (Hall a (Hdom a b Hab))) as [_ Hb]. by apply Hb.
  - split; [done|]. intros (rank & Hr). destruct H as [x Hx].
    assert (forall a b, tc edge a b -> (rank b < rank a)%nat) as Htc.
    { intros a b. induction 1 as [a b Hab|a b c' Hab _ IH]; [by apply Hr|]. specialize (Hr a b Hab). lia. }
    specialize (Htc x x Hx). lia.
Qed.
End AcyclicSpec.

Section EdgeMap.
Context {A : Type} (name : A -> string) (after : A -> list string).

Lemma edgeMap_fold l (m : gmap string (list string)) n :
  n ∉ (name <$> l) -> fold_left (fun m x => <[name x := after x]> m) l m !! n = m !! n.
Proof.
  revert m. induction l as [|x l IH]; intros m Hn; [done|]. cbn [fold_left].
  apply not_elem_of_cons in Hn as [Hne Hn]. rewrite IH by done. by apply lookup_insert_ne.
Qed.

Lemma edgeMap_lookup l x : NoDup (name <$> l) -> x ∈ l -> edgeMap name after l !! name x = Some (after x).
Proof.
  unfold edgeMap. generalize (∅ : gmap string (list string)).
  induction l as [|y l IH]; intros m Hnd Hx; [by apply elem_of_nil in Hx|]. cbn [fold_left].
  apply NoDup_cons in Hnd as [Hy Hnd]. apply elem_of_cons in Hx as [->|Hx]; [|by apply IH].
  rewrite edgeMap_fold by done. apply lookup_insert_eq.
Qed.

(** The edges are those of the nodes. *)
Lemma edgeMap_edge l a b :
  NoDup (name <$> l) -> edge (edgeMap name after l) a b <-> exists x, x ∈ l /\ name x = a /\ b ∈ after x.
Proof.
  intros Hnd. unfold edge. split.
  - intros Hb. destruct (decide (a ∈ name <$> l)) as [Ha|Ha].
    + apply list_elem_of_fmap in Ha as (x & -> & Hx). rewrite (edgeMap_lookup l x Hnd Hx) in Hb. eauto.
    + unfold edgeMap in Hb. rewrite edgeMap_fold, lookup_empty in Hb by done. by apply elem_of_nil in Hb.
  - intros (x & Hx & <- & Hb). by rewrite (edgeMap_lookup l x Hnd Hx).
Qed.

Lemma acyclic_edges report l :
  NoDup (name <$> l) -> (forall x dep, x ∈ l -> dep ∈ after x -> dep ∈ name <$> l) ->
  acyclicError (edgeMap name after l) report (name <$> l) = None <->
  exists depth : string -> nat, forall x dep, x ∈ l -> dep ∈ after x -> (depth dep < depth (name x))%nat.
Proof.
  intros Hnd Hdecl. rewrite acyclicError_None.
  - split; intros (rank & H); exists rank.
    + intros x dep Hx Hd. apply H. apply edgeMap_edge; eauto.
    + intros a b (x & Hx & <- & Hb)%edgeMap_edge; eauto.
  - intros a b (x & Hx & <- & Hb)%edgeMap_edge; eauto.
  - intros a b (x & Hx & <- & Hb)%edgeMap_edge; [|done]. by apply list_elem_of_fmap_2.
Qed.
End EdgeMap.

(** C36. The cycle check is exact: on a spec whose check names are distinct and
    whose edges name declared checks, [validateAcyclic] accepts exactly when
    some depth function strictly decreases along every [after] edge, that is,
    when the graph has no cycle. *)
Theorem validateAcyclic_exact cs :
  NoDup (checkNames cs) ->
  (forall c dep, c ∈ sp_Checks cs -> dep ∈ k_After c -> dep ∈ checkNames cs) ->
  validateAcyclic cs = None <-> exists depth, acyclic (sp_Checks cs) depth.
Proof.
  intros Hnd Hdecl. unfold validateAcyclic. rewrite (acyclic_edges k_Name k_After _ (sp_Checks cs) Hnd Hdecl).
  split; intros (depth & H); exists depth.
  - intros c dep Hc Hd. split; [by apply (Hdecl c)|by apply H].
  - intros c dep Hc Hd. by apply H.
Qed.

(** ** What a valid spec guarantees *)

Lemma existsb_name {A} (name : A -> string) (l : list A) n :
  existsb (fun o => String.eqb (name o) n) l = false <-> n ∉ (name <$> l).
Proof.
  rewrite list_elem_of_fmap. split.
  - intros H (x & -> & Hx). apply Is_true_false_1 in H || idtac. apply not_true_iff_false in H. apply H.
    apply existsb_exists. exists x. rewrite <- list_elem_of_In, String.eqb_refl. done.
  - intros H. apply not_true_iff_false. intros (x & Hx & E)%existsb_exists.
    apply H. exists x. apply String.eqb_eq in E. by rewrite list_elem_of_In.
Qed.

(** A pass that rejects names of earlier elements leaves distinct names. *)
Lemma NoDup_pass {A} (name : A -> string) (before l : list A) :
  NoDup (name <$> before) -> (forall i x, l !! i = Some x -> name x ∉ (name <$> before ++ take i l)) ->
  NoDup (name <$> before ++ l).
Proof.
  revert before. induction l as [|x l IH]; intros before Hb Hl; [by rewrite app_nil_r|].
  replace (before ++ x :: l) with ((before ++ [x]) ++ l) by (by rewrite <- app_assoc). apply IH.
  - rewrite fmap_app. apply NoDup_app. split_and!; [done| |apply NoDup_singleton].
    pose proof (Hl O x eq_refl) as H. rewrite take_0, app_nil_r in H.
    intros y Hy ->%list_elem_of_singleton. done.
  - intros i y Hi. pose proof (Hl (S i) y Hi) as H. simpl in H. by rewrite <- app_assoc.
Qed.

Lemma validateNames_None ws before l :
  validateNames ws before l = None ->
  (forall i c, l !! i = Some c -> k_Name c ∉ (k_Name <$> before ++ take i l)) /\
  (forall c, c ∈ l -> k_Name c <> "" /\ String.prefix "image:" (k_Name c) = false /\
     String.prefix "receipt:" (k_Name c) = false).
Proof.
  revert before. induction l as [|c l IH]; intros before H; [split; [done|by intros ? ?%elem_of_nil]|].
  cbn [validateNames] in H. apply orelse_None in H as [H Hr]. noerr.
  destruct (IH _ Hr) as [Hi Hn]. split.
  - intros [|i] x Hx; simpl in Hx.
    + injection Hx as <-. rewrite take_0, app_nil_r. by apply existsb_name.
    + pose proof (Hi i x Hx) as Hx'. rewrite <- app_assoc in Hx'. exact Hx'.
  - intros x [->|Hx]%elem_of_cons; [|auto]. split_and!; try done. by apply String.eqb_neq.
Qed.

Lemma validateImages_None before l :
  validateImages before l = None ->
  (forall i c, l !! i = Some c -> im_Name c ∉ (im_Name <$> before ++ take i l)).
Proof.
  revert before. induction l as [|c l IH]; intros before H; [done|].
  cbn [validateImages] in H. apply orelse_None in H as [H Hr]. noerr.
  pose proof (IH _ Hr) as Hi. intros [|i] x Hx; simpl in Hx.
  - injection Hx as <-. rewrite take_0, app_nil_r. by apply existsb_name.
  - pose proof (Hi i x Hx) as Hx'. rewrite <- app_assoc in Hx'. exact Hx'.
Qed.

Lemma validateDeployNames_None before l :
  validateDeployNames before l = None ->
  (forall i c, l !! i = Some c -> dn_Name c ∉ (dn_Name <$> before ++ take i l)).
Proof.
  revert before. induction l as [|c l IH]; intros before H; [done|].
  cbn [validateDeployNames] in H. apply orelse_None in H as [H Hr]. noerr.
  pose proof (IH _ Hr) as Hi. intros [|i] x Hx; simpl in Hx.
  - injection Hx as <-. rewrite take_0, app_nil_r. by apply existsb_name.
  - pose proof (Hi i x Hx) as Hx'. rewrite <- app_assoc in Hx'. exact Hx'.
Qed.

Lemma validateDeployNames_named before l : validateDeployNames before l = None -> "" ∉ (dn_Name <$> l).
Proof.
  revert before. induction l as [|c l IH]; intros before H; [by intros ?%elem_of_nil|].
  cbn [validateDeployNames] in H. apply orelse_None in H as [H Hr]. noerr. specialize (IH _ Hr).
  intros [E|Hx]%elem_of_cons; [|done]. symmetry in E. simpl in E. by apply String.eqb_eq in E as E'; congruence.
Qed.

Lemma validateAfter_None label kind self declared seen l :
  validateAfter label kind self declared seen l = None -> forall a, a ∈ l -> a ∈ declared.
Proof.
  revert seen. induction l as [|a l IH]; intros seen H; [by intros ? ?%elem_of_nil|].
  cbn [validateAfter] in H. apply orelse_None in H as [H Hr]. noerr.
  intros x [->|Hx]%elem_of_cons; [|by eapply IH].
  match goal with H : negb (bool_decide (a ∈ declared)) = false |- _ =>
    by apply negb_false_iff, bool_decide_eq_true in H end.
Qed.

(** The part of validity that a run's graph depends on. *)
Record spec_graph (cs : CheckSpec) : Prop := {
  sg_nodup : NoDup (checkNames cs);
  sg_named : forall c, c ∈ sp_Checks cs -> k_Name c <> "" /\ String.prefix "image:" (k_Name c) = false /\
               String.prefix "receipt:" (k_Name c) = false;
  sg_after : forall c dep, c ∈ sp_Checks cs -> dep ∈ k_After c -> dep ∈ checkNames cs;
  sg_images : NoDup (imageNames cs);
  sg_image : forall c, c ∈ sp_Checks cs -> k_Image c <> "" -> k_Image c ∈ imageNames cs;
  sg_receipt : forall r, spec_Receipt cs = Some r ->
    (forall a, a ∈ rc_After r -> a ∈ checkNames cs) /\ (rc_Image r <> "" -> rc_Image r ∈ imageNames cs);
  sg_acyclic : exists depth, acyclic (sp_Checks cs) depth;
  sg_parallel : 0 <= sp_MaxParallel cs <= 64;
}.

Lemma image_declared (img : string) (names : list string) :
  negb (String.eqb img "") && negb (bool_decide (img ∈ names)) = false -> img <> "" -> img ∈ names.
Proof.
  intros H Hne. apply String.eqb_neq in Hne. rewrite Hne in H. simpl in H.
  by apply negb_false_iff, bool_decide_eq_true in H.
Qed.

Lemma validate_graph ds cs : validate ds cs = None -> spec_graph cs.
Proof.
  unfold validate. rewrite !orelse_None. intros (_ & _ & Himg & Hnames & Hchk & Hrcp & Hac & _ & Hlim).
  noerr. destruct (validateNames_None _ _ _ Hnames) as [Hnd Hn]. pose proof (validateImages_None _ _ Himg) as Hind.
  rewrite first_some_None in Hchk.
  assert (NoDup (checkNames cs)) as Hnd' by (apply (NoDup_pass k_Name []); [constructor|exact Hnd]).
  assert (forall c dep, c ∈ sp_Checks cs -> dep ∈ k_After c -> dep ∈ checkNames cs) as Haft.
  { intros c dep Hc Hd. pose proof (Hchk c Hc) as Hk. unfold validateCheck in Hk. rewrite !orelse_None in Hk.
    destruct Hk as (_ & _ & _ & Hk). by eapply validateAfter_None. }
  split; try done.
  - apply (NoDup_pass im_Name []); [constructor|exact Hind].
  - intros c Hc Hi. pose proof (Hchk c Hc) as Hk. unfold validateCheck in Hk. rewrite !orelse_None in Hk.
    destruct Hk as (_ & _ & Hk & _). noerr. by apply image_declared.
  - intros r Hr. unfold validateReceiptNode in Hrcp. rewrite Hr in Hrcp. rewrite !orelse_None in Hrcp.
    destruct Hrcp as (_ & Hr1 & Ha). noerr. split; [|by apply image_declared].
    intros a. by eapply validateAfter_None.
  - by apply validateAcyclic_exact.
  - unfold maxAllowedMaxParallel in *. lia.
Qed.

Lemma prefix_app p s : String.prefix p (p +:+ s) = true.
Proof.
  induction p as [|a p IH].
  - by destruct s.
  - change (String a p +:+ s) with (String a (p +:+ s)). cbn [String.prefix]. destruct (ascii_dec a a); [exact IH|done].
Qed.

Lemma app_inj_2 p (s t : string) : p +:+ s = p +:+ t -> s = t.
Proof. induction p as [|a p IH]; simpl; [done|]. intros [= H]. auto. Qed.

Lemma consumerNode_name c : k_Name (consumerNode c) = k_Name c.
Proof. unfold consumerNode. by case_match. Qed.

(** The names of the nodes, by kind. *)
Lemma buildRunNodes_names cs :
  sp_Images cs <> [] \/ spec_Receipt cs <> None ->
  k_Name <$> buildRunNodes cs =
    ((fun n => imageNodePrefix +:+ n) <$> imageNames cs) ++ checkNames cs ++
    match spec_Receipt cs with Some r => [receiptNodePrefix +:+ rc_Name r] | None => [] end.
Proof.
  intros H. unfold buildRunNodes.
  assert (forall rcp, k_Name <$> map imageNode (sp_Images cs) ++ map consumerNode (sp_Checks cs)
      ++ match rcp with Some r => [receiptNode r] | None => [] end =
    ((fun n => imageNodePrefix +:+ n) <$> imageNames cs) ++ checkNames cs ++
    match rcp with Some r => [receiptNodePrefix +:+ rc_Name r] | None => [] end) as E.
  { clear H. intros rcp. rewrite !fmap_app. unfold imageNames, checkNames. f_equal; [|f_equal].
    - induction (sp_Images cs) as [|i l IH]; [done|].
      exact (f_equal (cons (imageNodePrefix +:+ im_Name i)) IH).
    - induction (sp_Checks cs) as [|c l IH]; [done|]. change (map consumerNode (c :: l)) with (consumerNode c :: map consumerNode l).
      rewrite !fmap_cons, consumerNode_name. by f_equal.
    - by destruct rcp. }
  rewrite <- E. destruct (sp_Images cs), (spec_Receipt cs); try done. by destruct H.
Qed.

Lemma buildRunNodes_elem cs k :
  k ∈ buildRunNodes cs ->
  (k ∈ sp_Checks cs /\ sp_Images cs = []) \/ (exists i, i ∈ sp_Images cs /\ k = imageNode i) \/
  (exists c, c ∈ sp_Checks cs /\ k = consumerNode c) \/ (exists r, spec_Receipt cs = Some r /\ k = receiptNode r).
Proof.
  assert (forall rcp, k ∈ map imageNode (sp_Images cs) ++ map consumerNode (sp_Checks cs)
      ++ match rcp with Some r => [receiptNode r] | None => [] end ->
    (exists i, i ∈ sp_Images cs /\ k = imageNode i) \/ (exists c, c ∈ sp_Checks cs /\ k = consumerNode c) \/
    (exists r, rcp = Some r /\ k = receiptNode r)) as H.
  { intros rcp. rewrite !elem_of_app. intros [H|[H|H]].
    - apply list_elem_of_fmap in H as (i & -> & Hi). eauto.
    - apply list_elem_of_fmap in H as (c & -> & Hc). eauto.
    - destruct rcp as [r|]; [apply list_elem_of_singleton in H; eauto|by apply elem_of_nil in H]. }
  unfold buildRunNodes. destruct (sp_Images cs), (spec_Receipt cs); auto.
Qed.

(** The depth of a node: image builds first, the receipt after every check. *)
Lemma buildRunNodes_acyclic cs :
  spec_graph cs -> exists depth, acyclic (buildRunNodes cs) depth.
Proof.
  intros [Hnd Hn Haft Hind Himg Hrcp [depth Hac] Hpar].
  destruct (decide (sp_Images cs = [] /\ spec_Receipt cs = None)) as [[Hi Hr]|Hne].
  { exists depth. unfold buildRunNodes. by rewrite Hi, Hr. }
  assert (sp_Images cs <> [] \/ spec_Receipt cs <> None) as Hne'.
  { destruct (sp_Images cs); [|by left]. right. intros ?. by apply Hne. }
  pose proof (buildRunNodes_names cs Hne') as Hnames.
  assert (forall n, n ∈ checkNames cs -> n ∈ (k_Name <$> buildRunNodes cs)) as Hc1
    by (intros n Hc; rewrite Hnames, !elem_of_app; auto).
  assert (forall n, n ∈ imageNames cs -> imageNodePrefix +:+ n ∈ (k_Name <$> buildRunNodes cs)) as Hi1.
  { intros n Hi. rewrite Hnames, !elem_of_app. left. by apply (list_elem_of_fmap_2 (fun n => imageNodePrefix +:+ n)). }
  set (top := max_list (depth <$> checkNames cs)).
  set (depth' := fun n => if String.prefix "image:" n then O
    else if String.prefix "receipt:" n then S (S top) else S (depth n)).
  assert (forall n, n ∈ checkNames cs -> depth' n = S (depth n) /\ (depth n <= top)%nat) as Hd.
  { intros n Hc. split; [|by apply max_list_elem_of_le, list_elem_of_fmap_2].
    apply list_elem_of_fmap in Hc as (c & -> & Hc). apply Hn in Hc as (_ & E1 & E2).
    unfold depth'. by rewrite E1, E2. }
  assert (forall n, depth' (imageNodePrefix +:+ n) = O) as Hdi by (intros n; unfold depth'; by rewrite prefix_app).
  assert (forall c dep, c ∈ sp_Checks cs -> dep ∈ k_After c ->
    dep ∈ (k_Name <$> buildRunNodes cs) /\ (depth' dep < depth' (k_Name c))%nat) as Hcheck.
  { intros c dep Hc Hdep. destruct (Hac c dep Hc Hdep) as [Hin Hlt]. split; [by apply Hc1|].
    destruct (Hd dep Hin) as [-> _].
    destruct (Hd (k_Name c) (list_elem_of_fmap_2 k_Name _ _ Hc)) as [-> _]. lia. }
  exists depth'. intros k dep Hk Hdep.
  apply buildRunNodes_elem in Hk as [[Hk _]|[(i & _ & ->)|[(c & Hc & ->)|(r & Hr & ->)]]].
  - by apply Hcheck.
  - by apply elem_of_nil in Hdep.
  - rewrite consumerNode_name. unfold consumerNode in Hdep.
    destruct (String.eqb_spec (k_Image c) ""); [by apply Hcheck|]. simpl in Hdep.
    apply elem_of_app in Hdep as [Hdep| ->%list_elem_of_singleton]; [by apply Hcheck|].
    split; [by apply Hi1, Himg|]. rewrite Hdi.
    destruct (Hd (k_Name c) (list_elem_of_fmap_2 k_Name _ _ Hc)) as [-> _]. lia.
  - destruct (Hrcp r Hr) as [Ha Him]. cbn [k_After receiptNode k_Name] in Hdep |- *.
    assert (depth' (receiptNodePrefix +:+ rc_Name r) = S (S top)) as ->.
    { unfold depth'. change (String.prefix "image:" (receiptNodePrefix +:+ rc_Name r)) with false. cbv iota.
      by rewrite prefix_app. }
    apply elem_of_app in Hdep as [Hdep|Hdep].
    + split; [by apply Hc1, Ha|]. destruct (Hd dep (Ha dep Hdep)) as [-> ?]. lia.
    + destruct (String.eqb_spec (rc_Image r) ""); [by apply elem_of_nil in Hdep|].
      apply list_elem_of_singleton in Hdep as ->. split; [by apply Hi1, Him|]. rewrite Hdi. lia.
Qed.

Lemma buildRunNodes_consumer cs k :
  spec_graph cs -> k ∈ buildRunNodes cs -> k_Image k <> "" -> imageNodePrefix +:+ k_Image k ∈ k_After k.
Proof.
  intros [_ _ _ _ Himg _ _ _] Hk Hi.
  apply buildRunNodes_elem in Hk as [[Hk Hemp]|[(i & _ & ->)|[(c & Hc & ->)|(r & Hr & ->)]]].
  - pose proof (Himg k Hk Hi) as H. unfold imageNames in H. rewrite Hemp in H. by apply elem_of_nil in H.
  - done.
  - revert Hi. unfold consumerNode. destruct (String.eqb_spec (k_Image c) ""); [done|]. intros _. simpl.
    apply elem_of_app. right. apply list_elem_of_here.
  - simpl in Hi |- *. destruct (String.eqb_spec (rc_Image r) ""); [done|].
    apply elem_of_app. right. apply list_elem_of_here.
Qed.

Lemma buildRunNodes_nodup cs :
  spec_graph cs -> NoDup (k_Name <$> buildRunNodes cs) /\ "" ∉ (k_Name <$> buildRunNodes cs).
Proof.
  intros [Hnd Hn _ Hind _ _ _ _].
  assert (forall n, n ∈ checkNames cs -> n <> "" /\ String.prefix "image:" n = false /\ String.prefix "receipt:" n = false) as Hcn
    by (intros n (c & -> & Hc)%list_elem_of_fmap; by apply Hn).
  destruct (decide (sp_Images cs = [] /\ spec_Receipt cs = None)) as [[Hi Hr]|Hne].
  { unfold buildRunNodes. rewrite Hi, Hr. split; [done|]. by intros [? _]%Hcn. }
  assert (sp_Images cs <> [] \/ spec_Receipt cs <> None) as Hne'.
  { destruct (sp_Images cs); [|by left]. right. intros ?. by apply Hne. }
  rewrite (buildRunNodes_names cs Hne'). split.
  - apply NoDup_app. split_and!.
    + apply NoDup_fmap_2; [|done]. intros a b. apply app_inj_2.
    + intros n (i & -> & Hi)%list_elem_of_fmap [Hc|Hc]%elem_of_app.
      * apply Hcn in Hc as (_ & H & _). by rewrite prefix_app in H.
      * destruct (spec_Receipt cs); [apply list_elem_of_singleton in Hc; done|by apply elem_of_nil in Hc].
    + apply NoDup_app. split_and!; [done| |destruct (spec_Receipt cs); [apply NoDup_singleton|constructor]].
      intros n Hc Hr. destruct (spec_Receipt cs) as [r|]; [|by apply elem_of_nil in Hr].
      apply list_elem_of_singleton in Hr as ->. apply Hcn in Hc as (_ & _ & H). by rewrite prefix_app in H.
  - rewrite !elem_of_app. intros [(i & E & _)%list_elem_of_fmap|[Hc|Hr]]; [done|by apply Hcn in Hc as [? _]|].
    destruct (spec_Receipt cs); [by apply list_elem_of_singleton in Hr|by apply elem_of_nil in Hr].
Qed.

(** A valid spec gives a runnable graph: the nodes [buildRunNodes] makes
    have distinct non-empty names, declared prerequisites and no cycle, every
    consumer of a candidate-built image waits for its build, and the
    parallelism is between 1 and 64. With this, every run started from a valid
    spec meets the hypotheses of the run-graph safety and progress theorems. *)
Theorem valid_spec_runs durationString cs :
  validate durationString cs = None ->
  let nodes := buildRunNodes cs in
  NoDup (k_Name <$> nodes) /\ ("" ∉ (k_Name <$> nodes)) /\
  (exists depth, acyclic nodes depth) /\
  (forall k, k ∈ nodes -> k_Image k <> "" -> imageNodePrefix +:+ k_Image k ∈ k_After k) /\
  1 <= effectiveMaxParallel cs <= 64.
Proof.
  intros Hv nodes. apply validate_graph in Hv. destruct (buildRunNodes_nodup cs Hv). split_and!; try done.
  - by apply buildRunNodes_acyclic.
  - intros k. by apply buildRunNodes_consumer.
  - unfold effectiveMaxParallel. pose proof (sg_parallel cs Hv). destruct (Z.leb_spec (sp_MaxParallel cs) 0); lia.
  - unfold effectiveMaxParallel. pose proof (sg_parallel cs Hv). destruct (Z.leb_spec (sp_MaxParallel cs) 0); lia.
Qed.

(** ** Deploy selection *)

Section SelectSpec.
Context (cs : CheckSpec).

(** [b] is a declared prerequisite of the deploy node [a]. *)
Definition deployDep (a b : string) : Prop :=
  exists d, d ∈ sp_Deploys cs /\ dn_Name d = a /\ b ∈ dn_After d.

Hypothesis Hnd : NoDup (deployNames cs).
Hypothesis Hdecl : forall a b, deployDep a b -> b ∈ deployNames cs.

Lemma deployByName_spec n :
  match deployByName cs n with
  | Some d => d ∈ sp_Deploys cs /\ dn_Name d = n /\ forall b, b ∈ dn_After d <-> deployDep n b
  | None => n ∉ deployNames cs
  end.
Proof.
  unfold deployByName. destruct (find _ _) as [d|] eqn:E.
  - apply find_some in E as [Hin En]. apply String.eqb_eq in En. rewrite <- in_rev, <- list_elem_of_In in Hin.
    split_and!; [done..|]. intros b. split; [by exists d|]. intros (d' & Hd' & E' & Hb).
    enough (d = d') as -> by done. unfold deployNames in Hnd.
    apply list_elem_of_lookup_1 in Hin as [i Hi], Hd' as [j Hj].
    enough (i = j) as -> by congruence. eapply (NoDup_lookup (dn_Name <$> sp_Deploys cs)); [done|..].
    + rewrite list_lookup_fmap, Hi. reflexivity.
    + rewrite list_lookup_fmap, Hj. simpl. congruence.
  - intros (d & -> & Hd)%list_elem_of_fmap. pose proof (find_none _ _ E d) as H.
    rewrite <- in_rev, <- list_elem_of_In in H. specialize (H Hd). by rewrite String.eqb_refl in H.
Qed.

(** What pulling in [roots] adds to [w]. *)
Record pulled (roots : list string) (w w' : gset string) : Prop := {
  pu_mono : w ⊆ w';
  pu_roots : forall x, x ∈ roots -> x ∈ w';
  pu_reach : forall x, x ∈ w' -> x ∈ w \/ (exists r, r ∈ roots /\ rtc deployDep r x /\ x ∈ deployNames cs);
  pu_closed : forall x y, x ∈ w' -> x ∉ w -> deployDep x y -> y ∈ w';
}.

Lemma pulled_nil w : pulled [] w w.
Proof. split; try done; auto. by intros x ?%elem_of_nil. Qed.

Lemma pulled_cons x roots w w1 w2 : pulled [x] w w1 -> pulled roots w1 w2 -> pulled (x :: roots) w w2.
Proof.
  intros [A1 A2 A3 A4] [B1 B2 B3 B4]. split.
  - set_solver.
  - intros y [->|Hy]%elem_of_cons; [apply B1, A2, list_elem_of_here|by apply B2].
  - intros y Hy. destruct (B3 y Hy) as [Hy1|(r & Hr & Hp)].
    + destruct (A3 y Hy1) as [|(r & ->%list_elem_of_singleton & Hp)]; [by left|].
      right. exists x. split; [apply list_elem_of_here|done].
    + right. exists r. split; [by apply list_elem_of_further|done].
  - intros y z Hy Hn Hc. destruct (decide (y ∈ w1)) as [Hy1|Hy1]; [by apply B1, (A4 y z)|by apply (B4 y z)].
Qed.

Definition missing (w : gset string) : nat := size ((list_to_set (deployNames cs) : gset string) ∖ w).

Definition unknown (roots : list string) (err : string) : Prop :=
  exists n, n ∈ roots /\ (n ∉ deployNames cs) /\ err = unknownDeploy n.

Definition pull_result (roots : list string) (w : gset string) (res : gset string + string) : Prop :=
  match res with
  | inl w' => pulled roots w w'
  | inr err => unknown roots err
  end.

Definition pullAll fuel (l : list string) (acc : gset string + string) : gset string + string :=
  fold_left (fun acc a => match acc with inl w => pull cs fuel a w | inr e => inr e end) l acc.

Lemma pullAll_err fuel l e : pullAll fuel l (inr e) = inr e.
Proof. induction l; simpl; auto. Qed.

Lemma pullAll_spec fuel l w :
  (forall n w, (missing w < fuel)%nat -> pull_result [n] w (pull cs fuel n w)) ->
  (missing w < fuel)%nat -> pull_result l w (pullAll fuel l (inl w)).
Proof.
  intros Hp. revert w. induction l as [|n l IH]; intros w Hw; [apply pulled_nil|].
  cbn [pullAll fold_left]. specialize (Hp n w Hw). destruct (pull cs fuel n w) as [w1|e].
  - assert (missing w1 < fuel)%nat as Hw1.
    { eapply Nat.le_lt_trans; [|exact Hw]. unfold missing. apply subseteq_size. pose proof (pu_mono _ _ _ Hp). set_solver. }
    specialize (IH w1 Hw1). fold (pullAll fuel l (inl w1)). destruct (pullAll fuel l (inl w1)) as [w2|e].
    + by eapply pulled_cons.
    + destruct IH as (m & Hm & ? & ?). exists m. split_and!; try done. by apply list_elem_of_further.
  - fold (pullAll fuel l (inr e)). rewrite pullAll_err.
    destruct Hp as (m & ->%list_elem_of_singleton & ? & ?). exists n. split_and!; try done. apply list_elem_of_here.
Qed.

Lemma pull_spec fuel n w : (missing w < fuel)%nat -> pull_result [n] w (pull cs fuel n w).
Proof.
  revert n w. induction fuel as [|fuel IH]; intros n w Hf; [lia|]. cbn [pull].
  destruct (decide (n ∈ w)) as [Hn|Hn].
  { split; try done; auto. by intros x ->%list_elem_of_singleton. }
  pose proof (deployByName_spec n) as Hd. destruct (deployByName cs n) as [d|].
  2: { exists n. split_and!; try done. apply list_elem_of_here. }
  destruct Hd as (Hd & Hname & Hafter).
  assert (n ∈ deployNames cs) as HnD by (rewrite <- Hname; by apply list_elem_of_fmap_2).
  assert (missing ({[n]} ∪ w) < fuel)%nat as Hf2.
  { apply (Nat.lt_le_trans _ (missing w)); [|lia]. unfold missing. apply subset_size. split; [set_solver|].
    intros H. specialize (H n). rewrite !elem_of_difference, elem_of_list_to_set in H. set_solver. }
  pose proof (pullAll_spec fuel (dn_After d) _ IH Hf2) as H. unfold pullAll in H.
  destruct (fold_left _ (dn_After d) _) as [w1|e].
  - destruct H as [B1 B2 B3 B4]. split.
    + set_solver.
    + intros x ->%list_elem_of_singleton. set_solver.
    + intros y Hy. destruct (B3 y Hy) as [[->%elem_of_singleton|?]%elem_of_union|(r & Hr & Hp & HyD)]; auto.
      * right. exists n. split_and!; [apply list_elem_of_here|done|done].
      * right. exists n. split_and!; [apply list_elem_of_here| |done]. eapply rtc_l; [|done]. by apply Hafter.
    + intros y z Hy Hyn Hc. destruct (decide (y = n)) as [->|]; [by apply B2, Hafter|]. apply (B4 y z); set_solver.
  - destruct H as (m & Hm & Hmn & _). exfalso. apply Hmn. apply (Hdecl n). by apply Hafter.
Qed.
End SelectSpec.

Lemma validateDeploys_None cs :
  validateDeploys cs = None ->
  NoDup (deployNames cs) /\ (forall a b, deployDep cs a b -> b ∈ deployNames cs).
Proof.
  unfold validateDeploys. rewrite !orelse_None, first_some_None. intros (Hn & Hd & _). split.
  - apply (NoDup_pass dn_Name []); [constructor|]. by apply validateDeployNames_None.
  - intros a b (d & Hin & _ & Hb). pose proof (Hd d Hin) as H. unfold validateDeploy in H.
    apply orelse_None in H as [_ H]. by eapply validateAfter_None.
Qed.

(** A valid deploy graph: named nodes, declared prerequisites, no cycle. *)
Lemma validateDeploys_graph cs :
  validateDeploys cs = None ->
  NoDup (deployNames cs) /\ ("" ∉ deployNames cs) /\
  exists depth : string -> nat, forall d dep, d ∈ sp_Deploys cs -> dep ∈ dn_After d ->
    dep ∈ deployNames cs /\ (depth dep < depth (dn_Name d))%nat.
Proof.
  intros H. destruct (validateDeploys_None cs H) as [Hnd Hdecl]. unfold validateDeploys in H.
  rewrite !orelse_None in H. destruct H as (Hn & _ & Hac).
  assert (forall d dep, d ∈ sp_Deploys cs -> dep ∈ dn_After d -> dep ∈ deployNames cs) as Haft
    by (intros d dep Hd Ha; apply (Hdecl (dn_Name d)); by exists d).
  split_and!; [done|by eapply validateDeployNames_named|].
  apply (acyclic_edges dn_Name dn_After _ (sp_Deploys cs) Hnd Haft) in Hac as [depth Hac]. exists depth. eauto.
Qed.

Lemma SelectDeployNodes_spec cs names :
  validateDeploys cs = None ->
  match SelectDeployNodes cs names with
  | inl out =>
      sublist out (sp_Deploys cs) /\
      forall d, d ∈ out <-> d ∈ sp_Deploys cs /\
        (names = [] \/ exists n, n ∈ names /\ rtc (deployDep cs) n (dn_Name d))
  | inr err => exists n, n ∈ names /\ (n ∉ deployNames cs) /\ err = unknownDeploy n
  end.
Proof.
  intros Hv. apply validateDeploys_None in Hv as [Hnd Hdecl].
  destruct names as [|n0 names0]; [split; [done|]; intros d; split; [by auto|by intros []]|].
  unfold SelectDeployNodes. set (names := n0 :: names0).
  set (fuel := S (S (length (sp_Deploys cs)))).
  assert (missing cs ∅ < fuel -> pull_result cs names ∅ (pullAll cs fuel names (inl ∅)))%nat as H
    by (apply pullAll_spec; auto; by apply pull_spec).
  assert (missing cs ∅ < fuel)%nat as Hm.
  { unfold missing, fuel. rewrite difference_empty_L, size_list_to_set by done. unfold deployNames. rewrite length_fmap. lia. }
  specialize (H Hm). unfold pullAll in H. destruct (fold_left _ names _) as [w|e]; [|done].
  destruct H as [_ H2 H3 H4]. split; [apply sublist_List_filter|].
  intros d. rewrite list_elem_of_In, filter_In, <- list_elem_of_In, bool_decide_eq_true.
  split; intros [Hd Hw]; (split; [done|]).
  - right. destruct (H3 _ Hw) as [?|(r & Hr & Hp & _)]; [set_solver|eauto].
  - destruct Hw as [?|(n & Hn & Hp)]; [done|]. revert Hp. generalize (dn_Name d).
    apply (rtc_ind_r (fun x => x ∈ w)); [by apply H2|]. intros x y _ Hy Hx. apply (H4 x y); [done|set_solver|done].
Qed.

(** Deploy selection: on a valid deploy graph, naming nodes selects exactly
    the transitive closure of those names over [after], in declaration order;
    it fails exactly when a selected name is not declared, naming it. Naming
    nothing selects the whole graph. *)
Theorem SelectDeployNodes_closure cs names :
  validateDeploys cs = None ->
  match SelectDeployNodes cs names with
  | inl out =>
      sublist out (sp_Deploys cs) /\
      forall d, d ∈ out <-> d ∈ sp_Deploys cs /\
        (names = [] \/ exists n, n ∈ names /\ rtc (deployDep cs) n (dn_Name d))
  | inr err => exists n, n ∈ names /\ (n ∉ deployNames cs) /\ err = unknownDeploy n
  end.
Proof. apply SelectDeployNodes_spec. Qed.

(** ** Capability gates *)

Lemma remoteGate_None rem ws hasServices checks :
  snd (remoteGate rem ws hasServices checks) = None ->
  forall c, c ∈ checks ->
    (rem (k_Executor c) = true -> ws = "isolated") /\
    (k_Needs c <> [] -> rem (k_Executor c) = false -> hasServices = true).
Proof.
  induction checks as [|c l IH]; intros Eg x Hx; [by apply elem_of_nil in Hx|].
  cbn [remoteGate] in Eg. destruct (first_error _) eqn:Ef; [done|].
  destruct (remoteGate rem ws hasServices l) as [h e]. cbn [snd] in *.
  apply elem_of_cons in Hx as [->|Hx]; [|by apply IH].
  apply first_error_None in Ef. apply Forall_cons in Ef as [E1 Ef]. apply Forall_cons in Ef as [E2 _]. cbn [fst] in E1, E2.
  split.
  - intros Hr. rewrite Hr in E1. simpl in E1. by apply negb_false_iff, String.eqb_eq in E1.
  - intros Hn Hr. rewrite Hr in E2. destruct (k_Needs c); [done|]. simpl in E2. by apply negb_false_iff in E2.
Qed.

(** A selected name ([""] selects the default) that an optional predicate
    accepts. *)
Definition accepts (p : option (string -> bool)) (arg : string) : bool :=
  match p with Some f => f arg | None => false end.

Definition selects_ok (p : option (string -> bool)) (sel : string) (arg : string) : Prop :=
  sel <> "" -> accepts p arg = true.

Lemma bad_false p sel arg :
  negb (String.eqb sel "") && negb (match p with Some f => f arg | None => false end) = false ->
  selects_ok p sel arg.
Proof.
  intros H Hne. apply String.eqb_neq in Hne. rewrite Hne in H. simpl in H. by apply negb_false_iff in H.
Qed.

Lemma unknownExecutorProfile_None cs known :
  unknownExecutorProfile cs known = None ->
  (forall c, c ∈ sp_Checks cs -> selects_ok known (k_Executor c) (k_Executor c)) /\
  (forall i, i ∈ sp_Images cs -> selects_ok known (im_Executor i) (im_Executor i)) /\
  (forall r, spec_Receipt cs = Some r -> selects_ok known (rc_Executor r) (rc_Executor r)).
Proof.
  unfold unknownExecutorProfile. destruct (find_index _ (sp_Checks cs)) as [[]|] eqn:E1; [done|].
  destruct (find_index _ (sp_Images cs)) as [[]|] eqn:E2; [done|]. intros E3. split_and!.
  - intros c Hc. apply bad_false. exact (find_index_None _ _ _ E1 Hc).
  - intros i Hi. apply bad_false. exact (find_index_None _ _ _ E2 Hi).
  - intros r Hr. rewrite Hr in E3. apply bad_false. by destruct (_ && _).
Qed.

Lemma imageOnIncapableProfile_None cs capable :
  imageOnIncapableProfile cs capable = None ->
  (forall c, c ∈ sp_Checks cs -> selects_ok capable (k_Image c) (k_Executor c)) /\
  (forall r, spec_Receipt cs = Some r -> selects_ok capable (rc_Image r) (rc_Executor r)).
Proof.
  unfold imageOnIncapableProfile. destruct (find_index _ (sp_Checks cs)) as [[]|] eqn:E1; [done|].
  intros E3. split.
  - intros c Hc. apply bad_false. exact (find_index_None _ _ _ E1 Hc).
  - intros r Hr. rewrite Hr in E3. apply bad_false. by destruct (_ && _).
Qed.

(** The spec-load gate: a spec that [SpecRejectReason] accepts names only
    executor profiles the daemon knows and runs candidate-built images only on
    capable profiles, for checks, image builds and the receipt alike; a remote
    node requires isolated workspaces; a local check needs services only where
    the daemon has them; and a receipt is declared exactly when the daemon's
    policy requires one. *)
Theorem SpecRejectReason_gates cs hasServices known capable policy remote :
  SpecRejectReason cs hasServices known capable policy remote = None ->
  (forall k, k ∈ buildRunNodes cs ->
     (k_Executor k <> "" -> accepts known (k_Executor k) = true) /\
     (k_Image k <> "" -> accepts capable (k_Executor k) = true) /\
     (accepts remote (k_Executor k) = true -> Isolated cs = true) /\
     (k_Needs k <> [] -> accepts remote (k_Executor k) = false -> hasServices = true)) /\
  (policy = true <-> spec_Receipt cs <> None).
Proof.
  unfold SpecRejectReason. destruct (remoteGate _ _ _ _) as [hasR err] eqn:Eg.
  intros H. rewrite !orelse_None in H. destruct H as (-> & Hi & Hu & Hc & Hp).
  pose proof (remoteGate_None _ _ _ _ (f_equal snd Eg)) as Hchk.
  assert (unknownExecutorProfile cs known = None) as [Uc [Ui Ur]]%unknownExecutorProfile_None
    by (by destruct (unknownExecutorProfile cs known) as [[]|]).
  assert (imageOnIncapableProfile cs capable = None) as [Cc Cr]%imageOnIncapableProfile_None
    by (by destruct (imageOnIncapableProfile cs capable) as [[]|]).
  apply first_error_None in Hi. apply Forall_cons in Hi as [Hi1 Hi]. apply Forall_cons in Hi as [Hi2 _].
  cbn [fst] in Hi1, Hi2. unfold Isolated in *. split.
  2: { destruct policy, (spec_Receipt cs); split; congruence. }
  assert (forall c, c ∈ sp_Checks cs ->
    (k_Executor c <> "" -> accepts known (k_Executor c) = true) /\ (k_Image c <> "" -> accepts capable (k_Executor c) = true) /\
    (accepts remote (k_Executor c) = true -> String.eqb (sp_Workspace cs) "isolated" = true) /\
    (k_Needs c <> [] -> accepts remote (k_Executor c) = false -> hasServices = true)) as Hcheck.
  { intros c Hin. destruct (Hchk c Hin) as [Hw Hn]. split_and!.
    - apply (Uc c Hin). - apply (Cc c Hin). - intros Hr. by apply String.eqb_eq, Hw. - exact Hn. }
  intros k Hk. apply buildRunNodes_elem in Hk as [[Hk _]|[(i & Hin & ->)|[(c & Hin & ->)|(r & Hr & ->)]]].
  - by apply Hcheck.
  - cbn [k_Executor imageNode k_Image k_Needs]. split_and!; [apply (Ui i Hin)|done| |done].
    intros Hr. destruct (String.eqb _ _); [done|]. simpl in Hi1. rewrite andb_true_r in Hi1.
    rewrite <- Hi1. apply existsb_exists. exists i. by rewrite <- list_elem_of_In.
  - destruct (Hcheck c Hin) as (? & ? & ? & ?). unfold consumerNode. destruct (String.eqb (k_Image c) ""); by split_and!.
  - cbn [k_Executor receiptNode k_Image k_Needs]. split_and!; [apply (Ur r Hr)|apply (Cr r Hr)| |done].
    intros Hrem. rewrite Hr in Hi2. destruct (String.eqb _ _); [done|].
    unfold accepts in Hrem. by rewrite Hrem in Hi2.
Qed.

(** ** Service cache keys *)

(** src/internal/config/servicekey.go:91-95 [writeUint64] The low [n] bytes of
    [v], most significant first; [n] is 8. *)
Fixpoint be_bytes (n : nat) (v : Z) : bytes :=
  match n with
  | O => []
  | S n => be_bytes n (v / 256) ++ [val_byte (v mod 256)]
  end.

Definition writeUint64 (v : Z) : bytes := be_bytes 8 (v mod 2 ^ 64).

(** src/internal/config/servicekey.go:86-89 [writeString] *)
Definition writeString (s : string) : bytes := writeUint64 (Z.of_nat (String.length s)) ++ to_bytes s.

Definition envLess (a b : EnvVar) : bool := String.ltb (ev_Name a) (ev_Name b).

Definition writeAll {A} (f : A -> bytes) (l : list A) : bytes := concat (map f l).

(** src/internal/config/servicekey.go:45-78 [ServiceKey] The bytes hashed. Env
    entries are sorted by name; entries of one name keep their order, as Go's
    sort does for the short lists it sorts by insertion. *)
Definition serviceEncoding (remote : string) (svc : Service) : bytes :=
  let env := sort_by envLess (sv_Env svc) in
  writeString remote ++ writeString (sv_Name svc) ++ writeString (sv_Image svc) ++
  writeUint64 (sv_Port svc) ++
  writeUint64 (Z.of_nat (length env)) ++
  writeAll (fun e => writeString (ev_Name e) ++ writeString (ev_Value e)) env ++
  writeUint64 (Z.of_nat (length (sv_ReadyCommand svc))) ++
  writeAll writeString (sv_ReadyCommand svc) ++
  writeUint64 (sv_ReadyTimeout svc) ++ writeUint64 (sv_IdleTTL svc) ++
  writeString (sv_Memory svc) ++ writeString (sv_CPUs svc).

(** src/internal/config/servicekey.go:45-79 [ServiceKey] [sha256hex] is the
    digest of the standard library, in hex. *)
Definition ServiceKey (sha256hex : bytes -> string) (remote : string) (svc : Service) : string :=
  sha256hex (serviceEncoding remote svc).

Lemma be_bytes_length n v : length (be_bytes n v) = n.
Proof. revert v. induction n as [|n IH]; intros v; simpl; [done|]. rewrite length_app, IH. simpl. lia. Qed.

Lemma be_bytes_inj n v w :
  0 <= v < 256 ^ Z.of_nat n -> 0 <= w < 256 ^ Z.of_nat n -> be_bytes n v = be_bytes n w -> v = w.
Proof.
  revert v w. induction n as [|n IH]; intros v w Hv Hw E; [simpl in *; lia|].
  rewrite Nat2Z.inj_succ, Z.pow_succ_r in Hv, Hw by lia. simpl in E. apply app_inj_tail in E as [E1 E2].
  assert (v mod 256 = w mod 256) as Em.
  { apply (f_equal byte_val) in E2. rewrite !byte_val_byte in E2 by (apply Z.mod_pos_bound; lia). done. }
  apply IH in E1; [|split; [apply Z.div_pos; lia|apply Z.div_lt_upper_bound; lia]..].
  rewrite (Z.div_mod v 256), (Z.div_mod w 256) by lia. by rewrite E1, Em.
Qed.

(** The values Go passes to [writeUint64]: lengths and [int64]s. *)
Definition int64_range (v : Z) : Prop := - 2 ^ 63 <= v < 2 ^ 63.

Lemma writeUint64_inj v w a b :
  int64_range v -> int64_range w -> writeUint64 v ++ a = writeUint64 w ++ b -> v = w /\ a = b.
Proof.
  unfold writeUint64, int64_range. intros Hv Hw E.
  apply app_inj_1 in E as [E ->]; [|by rewrite !be_bytes_length]. split; [|done].
  apply be_bytes_inj in E; [|apply Z.mod_pos_bound; lia..].
  assert (forall x, - 2 ^ 63 <= x < 2 ^ 63 -> x = (if x mod 2 ^ 64 <? 2 ^ 63 then x mod 2 ^ 64 else x mod 2 ^ 64 - 2 ^ 64)) as Hx.
  { intros x Hx. destruct (Z.leb_spec 0 x).
    - rewrite Z.mod_small by lia. destruct (Z.ltb_spec x (2 ^ 63)); lia.
    - rewrite <- (Z_mod_plus_full x 1). rewrite Z.mod_small by lia. destruct (Z.ltb_spec (x + 1 * 2 ^ 64) (2 ^ 63)); lia. }
  rewrite (Hx v Hv), (Hx w Hw), E. done.
Qed.

Definition len_ok (s : string) : Prop := Z.of_nat (String.length s) < 2 ^ 63.

Lemma writeString_inj s t a b :
  len_ok s -> len_ok t -> writeString s ++ a = writeString t ++ b -> s = t /\ a = b.
Proof.
  unfold len_ok, writeString. intros Hs Ht E. rewrite <- !app_assoc in E.
  apply writeUint64_inj in E as [El E]; [|unfold int64_range; lia..].
  assert (forall x, length (to_bytes x) = String.length x) as Hl by (intros x; induction x; simpl; auto).
  apply app_inj_1 in E as [E ->]; [|rewrite !Hl; lia].
  split; [|done]. by rewrite <- (of_to_bytes s), E, of_to_bytes.
Qed.

Lemma writeAll_inj {A} (f : A -> bytes) (ok : A -> Prop) (l k : list A) a b :
  (forall x y a b, ok x -> ok y -> f x ++ a = f y ++ b -> x = y /\ a = b) ->
  Forall ok l -> Forall ok k -> length l = length k ->
  writeAll f l ++ a = writeAll f k ++ b -> l = k /\ a = b.
Proof.
  intros Hf. unfold writeAll. revert k. induction l as [|x l IH]; intros [|y k] Hl Hk Hlen E; try done.
  cbn [map concat] in E. rewrite <- !app_assoc in E.
  apply Forall_cons in Hl as [Hx Hl], Hk as [Hy Hk].
  apply (Hf x y) in E as [-> E]; [|done..]. apply IH in E as [-> ->]; auto.
Qed.

(** The sizes a decoded spec in memory has: lengths and [int64]s. *)
Record service_sized (s : Service) : Prop := {
  ss_strings : Forall len_ok [sv_Name s; sv_Image s; sv_Memory s; sv_CPUs s];
  ss_ints : Forall int64_range [sv_Port s; sv_ReadyTimeout s; sv_IdleTTL s];
  ss_env : Forall (fun e => len_ok (ev_Name e) /\ len_ok (ev_Value e)) (sv_Env s) /\ Z.of_nat (length (sv_Env s)) < 2 ^ 63;
  ss_ready : Forall len_ok (sv_ReadyCommand s) /\ Z.of_nat (length (sv_ReadyCommand s)) < 2 ^ 63;
}.

Lemma envLess_weak_order : weak_order envLess.
Proof.
  destruct string_weak_order as [Ha Ht]. split; unfold notafter, envLess in *; eauto.
Qed.

Lemma sorted_env_perm l k :
  NoDup (ev_Name <$> l) -> sort_by envLess l = sort_by envLess k <-> l ≡ₚ k.
Proof.
  intros Hnd. split.
  - intros E. by rewrite <- (sort_by_Permutation envLess l), E, sort_by_Permutation.
  - intros Hp. apply sort_by_unique; [apply envLess_weak_order| |done].
    intros x y Hx Hy H1 H2. unfold notafter, envLess in H1, H2.
    assert (ev_Name x = ev_Name y) as En by by apply string_lt_total.
    rewrite <- Hp in Hy || idtac.
    apply list_elem_of_lookup_1 in Hx as [i Hi], Hy as [j Hj].
    enough (i = j) as -> by congruence. eapply (NoDup_lookup (ev_Name <$> l)); [done|..].
    + rewrite list_lookup_fmap, Hi. reflexivity.
    + rewrite list_lookup_fmap, Hj. simpl. congruence.
Qed.

(** The service cache key hashes an injective encoding: two services under
    two remotes have the same encoding exactly when the remotes and every
    declared field agree, with [env] compared up to line order. So reordering
    environment lines never changes a key, and, short of a digest collision, any
    other change always does. *)
Theorem serviceEncoding_injective remote remote' s s' :
  len_ok remote -> len_ok remote' -> service_sized s -> service_sized s' ->
  NoDup (ev_Name <$> sv_Env s) ->
  serviceEncoding remote s = serviceEncoding remote' s' <->
  remote = remote' /\ s <| sv_Env := [] |> = s' <| sv_Env := [] |> /\ sv_Env s ≡ₚ sv_Env s'.
Proof.
  intros Hr Hr' [Hs Hi [He Hel] [Hc Hcl]] [Hs' Hi' [He' Hel'] [Hc' Hcl']] Hnd.
  rewrite <- (sorted_env_perm _ _ Hnd).
  repeat match goal with H : Forall _ (_ :: _) |- _ => apply Forall_cons in H as [? H] end.
  unfold serviceEncoding. split.
  2: { intros (-> & E & Ee). rewrite Ee. destruct s, s'. simpl in *. by injection E as -> -> -> -> -> -> -> ->. }
  intros E. apply writeString_inj in E as [-> E]; [|done..].
  apply writeString_inj in E as [E1 E]; [|done..]. apply writeString_inj in E as [E2 E]; [|done..].
  apply writeUint64_inj in E as [E3 E]; [|done..].
  rewrite !(Permutation_length (sort_by_Permutation envLess _)) in E.
  apply writeUint64_inj in E as [E4 E]; [|unfold int64_range; lia..].
  apply (writeAll_inj _ (fun e => len_ok (ev_Name e) /\ len_ok (ev_Value e))) in E as [E5 E].
  2: { intros [n v] [n' v'] a b [? ?] [? ?] Ex. rewrite <- !app_assoc in Ex. simpl in *.
       apply writeString_inj in Ex as [-> Ex]; [|done..]. by apply writeString_inj in Ex as [-> ->]. }
  2, 3: by rewrite sort_by_Permutation.
  2: { rewrite !(Permutation_length (sort_by_Permutation envLess _)). lia. }
  apply writeUint64_inj in E as [E6 E]; [|unfold int64_range; lia..].
  apply (writeAll_inj _ len_ok) in E as [E7 E]; [|intros; by eapply writeString_inj|done..|lia].
  apply writeUint64_inj in E as [E8 E]; [|done..]. apply writeUint64_inj in E as [E9 E]; [|done..].
  apply writeString_inj in E as [E10 E]; [|done..].
  assert (writeString (sv_CPUs s) ++ [] = writeString (sv_CPUs s') ++ []) as E11 by (by rewrite !app_nil_r).
  apply writeString_inj in E11 as [E11 _]; [|done..].
  split_and!; [done| |done]. destruct s, s'. simpl in *. by subst.
Qed.

(** ** A concrete spec *)

Definition demoSpec : CheckSpec :=
  mkCheckSpec
    [mkCheck "" None None "build" ["make"] [] [] "" "";
     mkCheck "" None None "test" ["make"; "test"] [] ["build"] "box" "img"]
    [] [mkImage "img" ["docker"; "build"] ""] [] 2
    [mkDeployNode "app" ["up"] ["migrate"] ""; mkDeployNode "migrate" ["sql"] [] "";
     mkDeployNode "docs" ["site"] [] ""] "".

Lemma demoSpec_valid : validate (fun _ => "0s") demoSpec = None.
Proof. vm_compute. reflexivity. Qed.

Lemma valid_spec_runs_witness :
  k_Name <$> buildRunNodes demoSpec = ["image:img"; "build"; "test"] /\ NoDup (k_Name <$> buildRunNodes demoSpec).
Proof.
  split; [vm_compute; reflexivity|].
  refine (proj1 (valid_spec_runs (fun _ => "0s") demoSpec _)). vm_compute. reflexivity.
Defined.

Lemma validateAcyclic_exact_witness :
  exists depth, acyclic (sp_Checks demoSpec) depth.
Proof.
  refine (proj1 (validateAcyclic_exact demoSpec _ _) _).
  - apply (bool_decide_unpack (NoDup (checkNames demoSpec))). vm_compute. exact I.
  - intros c dep Hc Hd. repeat (apply elem_of_cons in Hc as [->|Hc]); [| |by apply elem_of_nil in Hc].
    + by apply elem_of_nil in Hd.
    + apply list_elem_of_singleton in Hd as ->. apply list_elem_of_here.
  - vm_compute. reflexivity.
Defined.

Lemma SelectDeployNodes_closure_witness :
  match SelectDeployNodes demoSpec ["app"] with
  | inl out => dn_Name <$> out = ["app"; "migrate"] /\ sublist out (sp_Deploys demoSpec)
  | inr _ => False
  end.
Proof.
  pose proof (SelectDeployNodes_closure demoSpec ["app"] ltac:(vm_compute; reflexivity)) as H.
  destruct (SelectDeployNodes demoSpec ["app"]) as [out|e] eqn:E; vm_compute in E; [|discriminate].
  split; [injection E as <-; vm_compute; reflexivity|exact (proj1 H)].
Defined.

Lemma SpecRejectReason_gates_witness :
  false = true <-> spec_Receipt demoSpec <> None.
Proof.
  refine (proj2 (SpecRejectReason_gates demoSpec false (Some (String.eqb "box")) (Some (String.eqb "box")) false None _)).
  vm_compute. reflexivity.
Defined.

Definition demoService : Service :=
  mkService "db" "postgres:16" 5432 [mkEnvVar "B" "2"; mkEnvVar "A" "1"] [] 60 60 "" "".

Lemma demoService_sized : service_sized demoService.
Proof.
  split; repeat constructor; unfold len_ok, int64_range; simpl; lia.
Qed.

Lemma serviceEncoding_injective_witness :
  serviceEncoding "origin" demoService
    = serviceEncoding "origin" (demoService <| sv_Env := [mkEnvVar "A" "1"; mkEnvVar "B" "2"] |>).
Proof.
  refine (proj2 (serviceEncoding_injective "origin" "origin" demoService _ _ _ demoService_sized _ _) _).
  - unfold len_ok. simpl. lia.
  - unfold len_ok. simpl. lia.
  - split; repeat constructor; unfold len_ok, int64_range; simpl; lia.
  - apply (bool_decide_unpack (NoDup (ev_Name <$> sv_Env demoService))). vm_compute. exact I.
  - split_and!; try reflexivity. apply perm_swap.
Defined.
