(* ===== verification/Governor.v ===== *)
(** Adaptive concurrency ([src/internal/queue/adaptive.go]): a per-target limit
    that grows by one after enough clean landings and halves on failed or
    invalidated work, and the admission limit derived from it. *)
From S2P Require Import Prelude Core Slots Daemon Controls.

Open Scope string_scope.
Open Scope list_scope.
Open Scope Z_scope.

Section Governor.
Context (cfg : Config).
Implicit Types (t : Target) (d : Daemon) (r : run) (g : Governor).

(** src/internal/queue/adaptive.go:43-48 [schedulingCeiling] *)
Definition schedulingCeiling t : Z :=
  if String.eqb (t_Mode t) "batch" then Z.max 1 (t_MaxBatch t) else Z.max 1 (t_Window t).

(** src/internal/queue/adaptive.go:49-57 [governor] The caller holds an adaptive
    target; [ad] is its configuration. *)
Definition governor t (ad : AdaptiveScheduling) d : Governor :=
  let g := cs_Governors (d_controls d) !!! t_Name t else zeroGovernor in
  let g := if g_Limit g =? 0
           then g <| g_Limit := Z.max 1 (ad_Start ad) |> <| g_Reason := "starting conservatively" |> else g in
  g <| g_Limit ::= (fun l => Z.min (schedulingCeiling t) (Z.max 1 l)) |>.

(** src/internal/queue/adaptive.go:58-80 [adaptiveLimit] [pressure] is the answer
    of [ExecutionPressure]. *)
Definition adaptiveLimit (pressure : bool) t d : Z * Daemon :=
  let limit :=
    match t_Adaptive t with
    | None => schedulingCeiling t
    | Some ad =>
        let g := governor t ad d in
        if Saturated (d_slots d) || pressure then Z.min (g_Limit g) (Z.max 1 (ad_Start ad)) else g_Limit g
    end in
  (limit, d <| d_admission ::= <[t_Name t := limit]> |>).

(** src/internal/queue/adaptive.go:26-41 [Scheduling] *)
Record Scheduling := mkScheduling {
  sc_Admission : Z;
  sc_CapacityLimited : bool;
  sc_Mode : string;
  sc_Ceiling : Z;
  sc_Governor : Governor;
}.

(** src/internal/queue/adaptive.go:81-92 [schedulingSnapshot] The governor's
    counters are copied as they are. *)
Definition schedulingSnapshot t d : option Scheduling :=
  match t_Adaptive t with
  | None => None
  | Some ad =>
      let g := governor t ad d in
      let admission := d_admission d !!! t_Name t else 0 in
      let admission := if admission =? 0 then g_Limit g else admission in
      let admission := Z.min admission (g_Limit g) in
      Some (mkScheduling admission (admission <? g_Limit g) (t_Mode t) (schedulingCeiling t) g)
  end.

(** src/internal/core/types.go:301-326 [Outcome] *)
Definition outcomeCode (o : Outcome) : Z :=
  match o with
  | OutcomeLanded => 0 | OutcomeRejected => 1 | OutcomeConflict => 2 | OutcomeSkipped => 3 | OutcomeError => 4
  end.

(** src/internal/queue/adaptive.go:102-104 [governorFeedback] What a run spent, as the loop over its results accumulates it. *)
Record Spending := mkSpending { sn_spent : float64; sn_wasted : float64; sn_retried : bool; sn_executed : bool }.

(** src/internal/queue/adaptive.go:102-122 [governorFeedback] *)
Definition spend (acc : Spending) (p : string * CheckResult) : Spending :=
  let result := snd p in
  if r_Reused result then acc
  else
    let cpu := r_UserCPU result + r_SysCPU result in
    let cost := f64_max0 (Seconds (if 0 <? cpu then cpu else r_Duration result)) in
    mkSpending (f64_add (sn_spent acc) cost)
      (if String.eqb (r_VerificationID result) "" then f64_add (sn_wasted acc) cost else sn_wasted acc)
      (sn_retried acc || (1 <? length (r_TestAttempts result))%nat)
      (sn_executed acc || negb (bool_decide (r_Status result = CheckSkipped))).

Definition spending r : Spending :=
  let s := fold_left spend (map_to_list (u_results r)) (mkSpending f64_zero f64_zero false false) in
  mkSpending (sn_spent s) (f64_add (sn_wasted s) (u_abandonedSeconds r)) (sn_retried s) (sn_executed s).

(** src/internal/queue/adaptive.go:128-145 [governorFeedback] A landing. *)
Definition governLanded t (ad : AdaptiveScheduling) r (s : Spending) g : Governor :=
  let g := g <| g_Landed ::= Z.add (Z.of_nat (length (u_members r))) |>
             <| g_UsefulSeconds ::= (fun x => f64_add x (sn_spent s)) |> in
  if sn_retried s then
    g <| g_Retried ::= Z.succ |> <| g_Clean := 0 |> <| g_Reason := "retry recovered; holding concurrency" |>
  else if sn_executed s then
    let g := g <| g_Clean ::= Z.succ |> <| g_Reason := "clean landing" |> in
    if Z.max 1 (ad_Successes ad) <=? g_Clean g then
      g <| g_Limit ::= (fun l => Z.min (schedulingCeiling t) (l + 1)) |> <| g_Clean := 0 |>
        <| g_Reason := "clean landings increased concurrency" |>
    else g
  else g <| g_Reason := "reused evidence; holding concurrency" |>.

(** src/internal/queue/adaptive.go:146-161 [governorFeedback] Failed or
    invalidated work. *)
Definition governBack (s : Spending) (reason : string) g : Governor :=
  g <| g_WastedSeconds ::= (fun x => f64_add x (sn_wasted s)) |> <| g_Clean := 0 |>
    <| g_Limit ::= (fun l => Z.max 1 (Z.quot l 2)) |> <| g_Reason := reason |>.

(** src/internal/queue/adaptive.go:127-164 [governorFeedback] The updated
    governor, if this outcome is evidence. *)
Definition govern t (ad : AdaptiveScheduling) r (outcome : Outcome) g : option Governor :=
  let s := spending r in
  if bool_decide (outcome = OutcomeSkipped) && f64_is_zero (sn_wasted s) then None
  else
    match outcome with
    | OutcomeLanded => Some (governLanded t ad r s g)
    | OutcomeRejected | OutcomeError =>
        if bool_decide (u_verdict r = verdictRejected) || bool_decide (u_verdict r = verdictErrored)
        then Some (governBack s "failed validation reduced concurrency" (g <| g_Failed ::= Z.succ |>))
        else None
    | OutcomeSkipped =>
        Some (governBack s "invalidated work reduced concurrency" (g <| g_Invalidated ::= Z.succ |>))
    | OutcomeConflict => None
    end.

(** src/internal/queue/adaptive.go:98-98 [governorFeedback] *)
Definition feedbackID r (outcome : Outcome) : string :=
  u_runID r +:+ "/" +:+ pretty (outcomeCode outcome).

(** src/internal/queue/adaptive.go:165-175 [governorFeedback] *)
Definition remember (id : string) (now : Z) g : Governor :=
  let recent := g_Recent g ++ [id] in
  g <| g_At := now |>
    <| g_Recent := if (128 <? length recent)%nat then drop (length recent - 128) recent else recent |>.

(** src/internal/queue/adaptive.go:93-176 [governorFeedback] *)
Definition governorFeedback t r (outcome : Outcome) d : Daemon :=
  match t_Adaptive t with
  | None => d
  | Some ad =>
      if negb (String.eqb (u_emergencyReason r) "") then d
      else
        let g := governor t ad d in
        let id := feedbackID r outcome in
        if bool_decide (id ∈ g_Recent g) then d
        else
          match govern t ad r outcome g with
          | None => d
          | Some g =>
              let g := remember id (d_now d) g in
              snd (saveControls cfg (d_controls d <| cs_Governors ::= <[t_Name t := g]> |>) d)
          end
  end.
End Governor.

(** ** Bounds and feedback *)

Lemma governor_limit t ad d : 1 <= g_Limit (governor t ad d) <= schedulingCeiling t.
Proof.
  assert (1 <= schedulingCeiling t) by (unfold schedulingCeiling; case_match; lia).
  unfold governor. simpl. lia.
Qed.

Lemma remember_recent id now g :
  (length (g_Recent g) <= 128)%nat ->
  id ∈ g_Recent (remember id now g) /\ (length (g_Recent (remember id now g)) <= 128)%nat.
Proof.
  intros H. unfold remember. simpl. rewrite length_app. simpl.
  destruct (Nat.ltb_spec 128 (length (g_Recent g) + 1)).
  - split; [|rewrite length_drop, length_app; simpl; lia].
    rewrite drop_app_le by lia. apply elem_of_app. right. apply list_elem_of_here.
  - split; [apply elem_of_app; right; apply list_elem_of_here|]. rewrite length_app. simpl. lia.
Qed.

Lemma govern_recent t ad r o g g' : govern t ad r o g = Some g' -> g_Recent g' = g_Recent g.
Proof.
  unfold govern, governLanded, governBack. intros H.
  destruct (_ && f64_is_zero _); [done|]. destruct o; try done; revert H;
    repeat case_match; intros; simplify_eq; done.
Qed.

(** How an outcome moves the limit. *)
Lemma govern_limit t ad r o g g' :
  1 <= g_Limit g <= schedulingCeiling t -> govern t ad r o g = Some g' ->
  1 <= g_Limit g' <= schedulingCeiling t /\
  (if bool_decide (o = OutcomeLanded) then g_Limit g <= g_Limit g' <= g_Limit g + 1
   else g_Limit g' = Z.max 1 (g_Limit g / 2)).
Proof.
  intros Hg. unfold govern. destruct (_ && f64_is_zero _); [done|].
  assert (Z.quot (g_Limit g) 2 = g_Limit g / 2) as Hq by (apply Z.quot_div_nonneg; lia).
  assert (g_Limit g / 2 <= g_Limit g) by (apply Z.div_le_upper_bound; lia).
  destruct o; rewrite ?(bool_decide_true (OutcomeLanded = _)), ?bool_decide_false by done;
    try destruct (_ || _); intros E; simplify_eq; try (unfold governBack; simpl; rewrite Hq; lia).
  unfold governLanded. destruct (spending r) as [? ? [] []]; simpl; try lia.
  destruct (Z.leb_spec (Z.max 1 (ad_Successes ad)) (Z.succ (g_Clean g))); simpl; lia.
Qed.

(** The governor a target has after its controls were saved. *)
Lemma governor_saved cfg t ad g d :
  1 <= g_Limit g <= schedulingCeiling t ->
  governor t ad (snd (saveControls cfg (d_controls d <| cs_Governors ::= <[t_Name t := g]> |>) d)) = g.
Proof.
  intros Hg. destruct (saveControls_cases cfg (d_controls d <| cs_Governors ::= <[t_Name t := g]> |>) d)
    as (s & (i & j & ->) & H).
  set (d' := snd _) in *.
  assert (cs_Governors (d_controls d') = <[t_Name t := g]> (cs_Governors (d_controls d))) as E
    by (destruct H as [(_ & -> & _)|(_ & err & ->)]; done).
  unfold governor. rewrite E, lookup_insert_eq. change (default zeroGovernor (Some g)) with g.
  rewrite (proj2 (Z.eqb_neq (g_Limit g) 0)) by lia. destruct g as [l ? ? ? ? ? ? ? ? ? ?]. simpl in *.
  by rewrite Z.max_r, Z.min_r by lia.
Qed.

(** Additive increase, multiplicative decrease. Whatever a run reports, the
    target's limit stays between 1 and its configured ceiling; a landing raises
    it by at most one and never lowers it, while failed or invalidated work
    halves it (never below 1) or, when it is no evidence of check health,
    leaves it. The feedback memory stays within 128 entries, reporting the same
    run and outcome again changes nothing, and emergency runs and
    non-adaptive targets never move the limit. *)
Theorem governor_aimd cfg t ad r o d :
  t_Adaptive t = Some ad -> (length (g_Recent (governor t ad d)) <= 128)%nat ->
  let d' := governorFeedback cfg t r o d in
  let g := governor t ad d in
  let g' := governor t ad d' in
  1 <= g_Limit g' <= schedulingCeiling t /\
  (length (g_Recent g') <= 128)%nat /\
  (g_Limit g' = g_Limit g \/
   if bool_decide (o = OutcomeLanded) then g_Limit g' = g_Limit g + 1 else g_Limit g' = Z.max 1 (g_Limit g / 2)) /\
  governorFeedback cfg t r o d' = d' /\
  (u_emergencyReason r <> "" -> d' = d).
Proof.
  intros Had Hlen d' g g'.
  assert (d' = d \/ (u_emergencyReason r = "" /\ exists g1, govern t ad r o g = Some g1 /\
    d' = snd (saveControls cfg (d_controls d <| cs_Governors ::=
           <[t_Name t := remember (feedbackID r o) (d_now d) g1]> |>) d))) as Hd'.
  { unfold d', governorFeedback. rewrite Had. fold g.
    destruct (String.eqb_spec (u_emergencyReason r) ""); cbn [negb]; [|by left].
    destruct (bool_decide (feedbackID r o ∈ g_Recent g)); [by left|].
    destruct (govern t ad r o g) as [g1|] eqn:E; [right; eauto|by left]. }
  pose proof (governor_limit t ad d) as Hg. fold g in Hg.
  destruct Hd' as [E|[Hem (g1 & Hg1 & E)]].
  { unfold g'. rewrite E. fold g. split; [done|]. split; [done|]. split; [by left|].
    split; [|done]. unfold d' in E. by rewrite E. }
  destruct (govern_limit t ad r o g g1 Hg Hg1) as [Hl Hmove].
  assert (g' = remember (feedbackID r o) (d_now d) g1) as Eg'.
  { unfold g'. rewrite E. apply governor_saved. exact Hl. }
  pose proof (govern_recent t ad r o g g1 Hg1) as Hrec.
  destruct (remember_recent (feedbackID r o) (d_now d) g1) as [Hin Hlen']; [by rewrite Hrec|].
  split; [by rewrite Eg'|]. split; [by rewrite Eg'|]. split; [|split; [|done]].
  - rewrite Eg'. change (g_Limit (remember _ _ g1)) with (g_Limit g1). revert Hmove. destruct (bool_decide (o = OutcomeLanded)); intros Hmove; [|by right].
    destruct (Z.eq_dec (g_Limit g1) (g_Limit g)); [by left|right; lia].
  - unfold governorFeedback. rewrite Had, Hem. change (negb (String.eqb "" "")) with false.
    cbv iota. change (governor t ad d') with g'. rewrite Eg'. by rewrite bool_decide_true.
Qed.

(** An adaptive speculating target. *)
Definition demoAdaptive : Target :=
  mkTarget "main" "main" "squash" "speculate" 1 4 "serial" (Some (mkAdaptive 2 1)).

Definition landedRun : run :=
  mkRun f64_zero "" "" false false "main" [] "base" "tip" "tree" false "" "run-1" [] 1
    ∅ {[ "unit" := zeroCheckResult <| r_Status := CheckPassed |> ]} ∅ "" ∅ true None "" "" "" false verdictGreen false "".

Lemma governor_aimd_witness :
  g_Limit (governor demoAdaptive (mkAdaptive 2 1) (governorFeedback demoConfig demoAdaptive landedRun OutcomeLanded demoDaemon)) = 3 /\
  governorFeedback demoConfig demoAdaptive landedRun OutcomeLanded
    (governorFeedback demoConfig demoAdaptive landedRun OutcomeLanded demoDaemon)
  = governorFeedback demoConfig demoAdaptive landedRun OutcomeLanded demoDaemon.
Proof.
  split; [vm_compute; reflexivity|].
  refine (proj1 (proj2 (proj2 (proj2 (governor_aimd demoConfig demoAdaptive (mkAdaptive 2 1) landedRun OutcomeLanded demoDaemon _ _))))).
  - reflexivity.
  - vm_compute. lia.
Defined.
