(* ===== verification/Trial.v ===== *)
(** Trial construction ([src/internal/queue]: policy.go, prepared.go,
    message.go, linear.go, trialref.go and the chain links of reconcile.go): the
    environment a pass runs against, remote compare-and-swap, policy decisions
    and their audit, prepared trials, and one link of a merge-commit chain. *)
From S2P Require Import Prelude GoString Core Slots Daemon Controls CheckGraph Scheduling Spec.
From Stdlib Require Import Ascii.

Open Scope string_scope.
Open Scope list_scope.
Open Scope Z_scope.

(** ** The environment of one pass

    Git plumbing, the forge, the policy engine and the file system, as the
    answers they give during one pass. *)
Record PolicyQuery := mkQuery {
  pq_kind : string;
  pq_phase : string;
  pq_target : string;
  pq_ref : string;
  pq_sha : string;
  pq_base : string;
  pq_stack : list Candidate;
  pq_checks : list CheckResult;
  pq_skipChecks : bool;
  pq_overridePause : bool;
  pq_command : option Command;
}.

(** The facts gathered ([an_factsErr] if that failed) and the engine's decision;
    [an_hash] is the digest of the marshalled input. *)
Record PolicyAnswer := mkAnswer {
  an_hash : string;
  an_factsErr : option string;
  an_allow : bool;
  an_reason : string;
  an_err : option string;
}.

Inductive CASError := CASStale | CASOther (msg : string).

(** The outcome of publishing a receipt note: the blob and whether it is new, or
    an error, with whether it is a conflict. *)
Definition NoteResult := ((string * bool) + (string * bool))%type.

Record World := mkWorld {
  w_policy : PolicyQuery -> PolicyAnswer;
  w_policyVersion : string;
  w_reviewCandidates : list Candidate + string;
  w_policyInputs : option (list Candidate -> bool -> gset string + string);
  w_validate : Candidate -> bool -> option string;
  w_reviewLanded : Candidate -> string -> option CASError;
  w_publishNote : string -> string -> option string -> NoteResult;
  w_fetch : option string;
  w_listRefs : gmap string string + string;
  w_retain : list string -> option string;
  w_trial : string -> Candidate -> TrialMerge + string;
  w_mergeBody : Candidate -> string -> string;
  w_subject : Candidate -> string -> string -> string + string;
  w_commitMessage : option (string -> string + string);
  w_commit : string -> string -> string -> string -> string + string;
  w_isAncestor : string -> string -> bool + string;
  w_findLanding : string -> string -> string -> string -> string + string;
  w_findLandingMerge : string -> string -> string;
  w_readFile : string -> string -> string + string;
  w_decodeSpec : string -> CheckSpec + string;
  w_durationString : Z -> string;
  w_pin : string -> option string;
  w_mkdir : option string;
  w_export : string -> option string;
  w_mtimes : string -> option string;
  w_preparedKey : string -> string -> Candidate -> list string -> string;
  w_batchKey : list Candidate -> string;
  w_keep : run -> option (option string);
  w_pressure : bool;
  w_reviewFacts : option (Candidate -> option string);
  w_maintain : option string;
}.

#[export] Instance World_eta : Eta World := fun w => mkWorld
  (w_policy w) (w_policyVersion w) (w_reviewCandidates w) (w_policyInputs w) (w_validate w)
  (w_reviewLanded w) (w_publishNote w) (w_fetch w) (w_listRefs w) (w_retain w) (w_trial w) (w_mergeBody w)
  (w_subject w) (w_commitMessage w) (w_commit w) (w_isAncestor w) (w_findLanding w) (w_findLandingMerge w)
  (w_readFile w) (w_decodeSpec w) (w_durationString w) (w_pin w) (w_mkdir w) (w_export w) (w_mtimes w)
  (w_preparedKey w) (w_batchKey w) (w_keep w) (w_pressure w) (w_reviewFacts w) (w_maintain w).

(** ** Remote refs *)

(** The contract of src/internal/core/interfaces.go [CASUpdate]: the ref must
    hold [old] ([""] for absent); [new = ""] deletes. *)
Definition casApplies (ref old : string) (refs : gmap string string) : bool :=
  match refs !! ref with
  | Some cur => negb (String.eqb old "") && String.eqb cur old
  | None => String.eqb old ""
  end.

Definition casWrite (ref new : string) (refs : gmap string string) : gmap string string :=
  if String.eqb new "" then delete ref refs else <[ref := new]> refs.

(** A push of what the remote already has succeeds without a lease. *)
Definition upToDate (ref new : string) (refs : gmap string string) : bool :=
  negb (String.eqb new "") && bool_decide (refs !! ref = Some new).

(** src/internal/gitx/git.go:525-541 [CASUpdate] The next entry of [gr_faults]
    is what the transport does to this push. *)
Definition CASUpdate (ref old new : string) (g : GitRemote) : option CASError * GitRemote :=
  let refs := gr_refs g in
  let ok := casApplies ref old refs in
  match gr_faults g with
  | Some (msg, lost) :: rest =>
      (Some (CASOther msg), mkGit (if lost && ok then casWrite ref new refs else refs) rest)
  | faults =>
      let g' := mkGit refs (tail faults) in
      if upToDate ref new refs then (None, g')
      else if ok then (None, mkGit (casWrite ref new refs) (tail faults))
      else (Some CASStale, g')
  end.

Definition cas (ref old new : string) (d : Daemon) : option CASError * Daemon :=
  let '(err, g) := CASUpdate ref old new (d_git d) in (err, d <| d_git := g |>).

(** ** Run identity *)

(** src/internal/queue/landing.go:636-642 [newRunID] The counter is a [uint64]. *)
Definition newRunID (cfg : Config) (oid : string) (d : Daemon) : string * Daemon :=
  let oid := if (12 <? String.length oid)%nat then String.substring 0 12 oid else oid in
  let seq := (d_runCounter d + 1) mod 2 ^ 64 in
  (cfg_fmtRunID cfg (d_now d) +:+ "-" +:+ pretty seq +:+ "-" +:+ oid, d <| d_runCounter := seq |>).

(** src/internal/queue/landing.go:662-667 [memberRunID] *)
Definition memberRunID (batchRunID : string) (pos : nat) : string :=
  if (pos =? 0)%nat then batchRunID else batchRunID +:+ "-m" +:+ pretty (Z.of_nat pos).

Section Trial.
Context (cfg : Config) (w : World).
Implicit Types (d : Daemon) (r : run) (t : Target) (c : Candidate).

Definition setLastError (msg : string) d : Daemon :=
  d <| d_controls ::= (fun s => s <| cs_LastError := msg |>) |>.

(** ** Policy *)

(** src/internal/queue/policy.go:199-205 [recordPolicyDecision] The latest audit
    of a ref in a phase. *)
Definition lastAudit (ref phase : string) (l : list PolicyAudit) : option PolicyAudit :=
  find (fun a => String.eqb (po_Ref a) ref && String.eqb (po_Phase a) phase) (rev l).

(** src/internal/queue/policy.go:187-218 [recordPolicyDecision] *)
Definition recordPolicyDecision (ref sha phase target : string) (an : PolicyAnswer) (err : option string) d : bool * Daemon :=
  let audit := mkPolicyAudit (d_now d) target phase ref sha (an_hash an) (an_allow an) (w_policyVersion w)
                 (default "" err) in
  let changed :=
    match lastAudit ref phase (cs_PolicyAudit (d_controls d)) with
    | Some previous =>
        negb (String.eqb (po_InputHash previous) (po_InputHash audit))
        || negb (String.eqb (po_Version previous) (po_Version audit))
        || negb (String.eqb (po_Error previous) (po_Error audit))
    | None => true
    end in
  if changed then
    saveControls cfg (d_controls d <| cs_PolicyAudit ::= (fun l =>
      let l := l ++ [audit] in if (500 <? length l)%nat then drop (length l - 500) l else l) |>) d
  else (true, d).

(** src/internal/queue/policy.go:25-77 [evaluatePolicy] *)
Definition evaluatePolicy t c (base : string) (members : list Candidate) (checks : list CheckResult)
    (phase : string) (skipChecks overridePause : bool) d : option string * Daemon :=
  let an := w_policy w (mkQuery "submission" phase (t_Name t) (c_Ref c) (c_SHA c) base members checks
                          skipChecks overridePause None) in
  let '(allow, err) := match an_factsErr an with
                       | Some e => (false, Some ("policy facts unavailable: " +:+ e))
                       | None => (an_allow an, an_err an)
                       end in
  let '(ok, d) := recordPolicyDecision (c_Ref c) (c_SHA c) phase (t_Name t)
                    (mkAnswer (an_hash an) (an_factsErr an) allow (an_reason an) err) err d in
  if negb ok then (Some "cannot persist policy audit", d)
  else match err with
       | Some e => (Some e, d)
       | None => if allow then (None, d) else (Some ("policy denied: " +:+ an_reason an), d)
       end.

(** src/internal/queue/policy.go:88-100 [policyAdmission] The chain of
    prerequisites above a candidate, oldest first. *)
Fixpoint policyStack (fuel : nat) (all : gmap string Candidate) (parent : string) (seen : list string)
    (members : list Candidate) : list Candidate :=
  match fuel with
  | O => members
  | S fuel =>
      if String.eqb parent "" then members
      else match all !! parent with
           | None => members
           | Some p => if bool_decide (parent ∈ seen) then members
                       else policyStack fuel all (c_DependsOn p) (parent :: seen) (p :: members)
           end
  end.

(** src/internal/queue/policy.go:79-112 [policyAdmission] [keys] is the order in
    which candidates are ranged over. *)
Definition policyAdmission t (base : string) (cands : gmap string Candidate) (keys : list string) d
  : gmap string Candidate * Daemon :=
  fold_left (fun acc ref =>
    let '(admitted, d) := acc in
    match cands !! ref with
    | None => (admitted, d)
    | Some c =>
        let emergency := cs_Emergency (d_controls d) !! t_Name t in
        let selected := match emergency with
          | Some cmd => existsb (fun rv => String.eqb (rv_Ref rv) ref && String.eqb (rv_SHA rv) (c_SHA c)
                                           && String.eqb (rv_Version rv) (c_Version c)) (m_Revisions cmd)
          | None => false
          end in
        let members := policyStack (S (size cands)) cands (c_DependsOn c) [c_Ref c] [c] in
        let skip := match emergency with
          | Some cmd => selected && String.eqb (m_Kind cmd) "merge-anyway" | None => false end in
        let over := match emergency with Some cmd => m_OverridePause cmd | None => false end in
        match evaluatePolicy t c base members [] "admission" skip over d with
        | (Some err, d) => (delete ref admitted, setLastError (TrimSpace err) d)
        | (None, d) => (admitted, d)
        end
    end) keys (cands, d).

(** src/internal/queue/policy.go:220-233 [executionPolicy] *)
Definition executionPolicy t (base sha : string) (members : list Candidate) d : option string * Daemon :=
  let an := w_policy w (mkQuery "execution" "execution" (t_Name t) "" sha base members [] false false None) in
  let '(ok, d) := recordPolicyDecision (t_Name t) sha "execution" (t_Name t) an (an_err an) d in
  if negb ok then (Some "cannot persist execution policy audit", d)
  else match an_err an with
       | Some e => (Some ("execution policy: " +:+ e), d)
       | None => if an_allow an then (None, d) else (Some ("execution policy: " +:+ an_reason an), d)
       end.

(** src/internal/queue/policy.go:146-185 [authorizeCommand] *)
Definition authorizeCommand (cmd : Command) d : bool * Daemon :=
  let an := w_policy w (mkQuery "command" "command" (m_Target cmd) (m_Ref cmd) "" "" [] []
                          (String.eqb (m_Kind cmd) "merge-anyway") (m_OverridePause cmd) (Some cmd)) in
  match an_factsErr an with
  | Some e => (false, setLastError e d)
  | None =>
      let '(ok, d) := recordPolicyDecision (m_Target cmd +:+ ":" +:+ m_Ref cmd) "" ("command:" +:+ m_Kind cmd)
                        (m_Target cmd) an (an_err an) d in
      if negb ok then (false, setLastError "cannot persist command policy audit" d)
      else match an_err an with
           | Some e => (false, setLastError ("command policy: " +:+ e) d)
           | None => if an_allow an then (true, d)
                     else (false, setLastError ("command policy: " +:+ an_reason an) d)
           end
  end.

(** ** Prepared trials *)

Definition dayNanos : Z := 24 * 3600 * 1000000000.

(** src/internal/queue/prepared.go:90-99 [preparedActive] *)
Definition preparedActive (runID : string) d : bool :=
  existsb (fun p => existsb (fun r => String.eqb (u_runID r) runID) (snd p)) (map_to_list (d_lanes d)).

(** src/internal/queue/prepared.go:24-33 [recallPrepared] *)
Definition recallPrepared (key tree : string) d : preparedEntry :=
  let entry := cs_Prepared (d_controls d) !!! key else zeroPrepared in
  if String.eqb key "" || String.eqb (pe_RunID entry) "" || negb (String.eqb (pe_Tree entry) tree)
     || (dayNanos <? d_now d - pe_At entry) then zeroPrepared
  else match w_isAncestor w (pe_Commit entry) (pe_Commit entry) with
       | inl true => entry
       | _ => zeroPrepared
       end.

(** src/internal/queue/prepared.go:57-73 [rememberPrepared] Make room for one
    entry, dropping the oldest that no active run needs; an order for equal ages
    is given by [map_to_list]. *)
Fixpoint evictPrepared (fuel : nat) (runID : string) d (m : gmap string preparedEntry)
  : gmap string preparedEntry + gmap string preparedEntry :=
  match fuel with
  | O => inl m
  | S fuel =>
      if (size m <? 2048)%nat then inl m
      else
        let oldest := fold_left (fun acc p =>
          let '(identity, old) := p in
          if String.eqb (pe_RunID old) runID || preparedActive (pe_RunID old) d then acc
          else match acc with
               | Some (_, at') => if pe_At old <? at' then Some (identity, pe_At old) else acc
               | None => Some (identity, pe_At old)
               end) (map_to_list m) None in
        match oldest with
        | None => inr m
        | Some (identity, _) => evictPrepared fuel runID d (delete identity m)
        end
  end.

(** src/internal/queue/prepared.go:35-76 [rememberPrepared] *)
Definition rememberPrepared (key : string) (entry : preparedEntry) d : bool * Daemon :=
  if String.eqb key "" then (true, d)
  else match w_retain w [pe_Commit entry] with
  | Some e => (false, setLastError ("retain prepared commit: " +:+ e) d)
  | None =>
      let kept := filter (fun p => String.eqb (pe_RunID p.2) (pe_RunID entry)
                    || preparedActive (pe_RunID p.2) d || negb (dayNanos <? d_now d - pe_At p.2) = true)
                    (cs_Prepared (d_controls d)) in
      match evictPrepared (S (size kept)) (pe_RunID entry) d (delete key kept) with
      | inr m => (false, setLastError ("prepared trial capacity reached (" +:+ pretty (Z.of_nat (size m)) +:+ ")") d)
      | inl m => saveControls cfg (d_controls d <| cs_Prepared := <[key := entry]> m |>) d
      end
  end.

(** src/internal/queue/prepared.go:78-88 [forgetPrepared] *)
Definition forgetPrepared (runID : string) d : Daemon :=
  if String.eqb runID "" then d
  else
    let kept := filter (fun p => pe_RunID p.2 <> runID) (cs_Prepared (d_controls d)) in
    if bool_decide (kept = cs_Prepared (d_controls d)) then d
    else d <| d_controls ::= (fun s => s <| cs_Prepared := kept |>) |> <| d_schedulerDirty := true |>.

(** src/internal/queue/prepared.go:101-108 [prunePrepared] *)
Definition prunePrepared d : Daemon :=
  let kept := filter (fun p => preparedActive (pe_RunID p.2) d || negb (dayNanos <? d_now d - pe_At p.2) = true)
                (cs_Prepared (d_controls d)) in
  if bool_decide (kept = cs_Prepared (d_controls d)) then d
  else d <| d_controls ::= (fun s => s <| cs_Prepared := kept |>) |> <| d_schedulerDirty := true |>.

(** ** Messages and chain links *)

Definition nl : string := String newline EmptyString.

(** [strings.TrimRight(s, "\n")] *)
Fixpoint dropNewlines (b : bytes) : bytes :=
  match b with a :: t => if Ascii.eqb a newline then dropNewlines t else b | [] => [] end.

Definition trimRightNewlines (s : string) : string := of_bytes (rev (dropNewlines (rev (to_bytes s)))).

(** src/internal/queue/message.go:38-67 [buildMergeMessage] [w_subject] renders
    the subject template. *)
Definition buildMergeMessage (targetName runID : string) c (body : string) : string + string :=
  match w_subject w c targetName runID with
  | inr e => inr e
  | inl subject =>
      let body := TrimSpace body in
      inl (trimRightNewlines subject +:+ nl +:+ nl +:+
           (if String.eqb body "" then "" else body +:+ nl +:+ nl) +:+
           "Gauntlet-Ref: " +:+ c_Ref c +:+ nl +:+ "Gauntlet-Run: " +:+ runID +:+ nl)
  end.

(** src/internal/queue/reconcile.go:577-577 [buildChainLinkPrecomputed] *)
Definition trailers c (runID : string) : string :=
  "Gauntlet-Ref: " +:+ c_Ref c +:+ nl +:+ "Gauntlet-Run: " +:+ runID +:+ nl.

(** src/internal/queue/reconcile.go:566-590 [buildChainLinkPrecomputed] The
    message of a linear landing, from the legacy one. *)
Definition linearMessage c (runID msg : string) : string + string :=
  let finish msg :=
    let msg := msg +:+ "Gauntlet-Source: " +:+ c_SHA c +:+ nl in
    inl (if String.eqb (c_Version c) "" then msg else msg +:+ "Gauntlet-Version: " +:+ c_Version c +:+ nl) in
  if negb (String.eqb (c_Message c) "") then
    let msg := trimRightNewlines (c_Message c) +:+ nl in
    let msg := if String.eqb (c_Source c) "gerrit" then msg else msg +:+ nl in
    let msg := if String.eqb (c_ReviewURL c) "" then msg
               else msg +:+ "Reviewed-on: " +:+ c_ReviewURL c +:+ nl in
    finish (msg +:+ trailers c runID)
  else match w_commitMessage w with
       | Some reader =>
           match reader (c_SHA c) with
           | inl source => finish (source +:+ nl +:+ nl +:+ trailers c runID)
           | inr e => inr e
           end
       | None => finish msg
       end.

(** src/internal/queue/linear.go:11-18 [linearTarget] *)
Definition linearTarget (name : string) : bool :=
  match find_index (fun t => String.eqb (t_Name t) name) (cfg_Targets cfg) with
  | Some (_, t) => String.eqb (t_Landing t) "squash"
  | None => false
  end.

(** src/internal/queue/linear.go:20-39 [candidateLanded] *)
Definition candidateLanded t c (tip : string) : bool + string :=
  if negb (String.eqb (t_Landing t) "squash") then w_isAncestor w (c_SHA c) tip
  else
    let version := if String.eqb (c_Source c) "" then c_Version c else "*" in
    match w_findLanding w tip (c_Ref c) (c_SHA c) version with
    | inr e => inr e
    | inl sha => if String.eqb sha "" && String.eqb (c_Source c) "" then w_isAncestor w (c_SHA c) tip
                 else inl (negb (String.eqb sha ""))
    end.

(** src/internal/queue/reconcile.go:502-506 [chainLink] *)
Record chainLink := mkLink { cl_mergeOID : string; cl_treeOID : string; cl_cand : Candidate }.

(** src/internal/queue/reconcile.go:1202-1208 [startRun] The closure the callers pass as [onClean]: mint the run ID unless one was
    restored or minted before, and announce the clean trial. *)
Definition onClean (targetName : string) c (tree restored runID : string) d : string * Daemon :=
  let '(id, d) := if negb (String.eqb runID "") then (runID, d)
                  else if String.eqb restored "" then newRunID cfg tree d else (restored, d) in
  (id, emit cfg (event EventTrialClean (d_now d) targetName c id) d).

(** The result of a link: an error, a dirty trial, or a clean link. *)
Inductive LinkResult :=
  | LinkError (msg : string)
  | LinkConflict (trial : TrialMerge)
  | LinkClean (link : chainLink) (trial : TrialMerge).

(** src/internal/queue/reconcile.go:517-602 [buildChainLinkPrecomputed] The run
    ID in use ([""] for none yet) is threaded in and out. *)
Definition buildChainLink (targetName base : string) c (body : option string) (group : list string)
    (runID : string) d : LinkResult * string * Daemon :=
  match w_trial w base c with
  | inr e => (LinkError ("merge-tree: " +:+ e), runID, d)
  | inl trial =>
      if negb (tm_Clean trial) then (LinkConflict trial, runID, d)
      else
        let key := w_preparedKey w targetName base c group in
        let previous := recallPrepared key (tm_TreeOID trial) d in
        let '(runID, d) := onClean targetName c (tm_TreeOID trial) (pe_RunID previous) runID d in
        if negb (String.eqb (pe_RunID previous) "") && String.eqb (pe_RunID previous) runID
        then (LinkClean (mkLink (pe_Commit previous) (pe_Tree previous) c) trial, runID, d)
        else
          let linear := linearTarget targetName in
          let body := match body with
                      | Some b => b
                      | None => if linear then "" else w_mergeBody w c base
                      end in
          match buildMergeMessage targetName runID c body with
          | inr e => (LinkError ("merge-message template: " +:+ e), runID, d)
          | inl msg =>
              match (if linear then linearMessage c runID msg else inl msg) with
              | inr e => (LinkError e, runID, d)
              | inl msg =>
                  match w_commit w (tm_TreeOID trial) base (c_SHA c) msg with
                  | inr e => (LinkError ("commit-tree: " +:+ e), runID, d)
                  | inl mergeOID =>
                      let '(ok, d) := rememberPrepared key (mkPrepared runID mergeOID (tm_TreeOID trial) (d_now d)) d in
                      if ok then (LinkClean (mkLink mergeOID (tm_TreeOID trial) c) trial, runID, d)
                      else (LinkError ("persist prepared trial: " +:+ cs_LastError (d_controls d)), runID, d)
                  end
              end
          end
  end.

(** src/internal/queue/reconcile.go:606-617 [specChanged] *)
Definition specChanged (prevTree newTree : string) : bool :=
  match w_readFile w prevTree (cfg_CheckSpec cfg), w_readFile w newTree (cfg_CheckSpec cfg) with
  | inr _, inr _ => false
  | inl a, inl b => negb (String.eqb a b)
  | _, _ => true
  end.

(** src/internal/config/checks.go:391-409 [ParseChecks] *)
Definition ParseChecks (data : string) : CheckSpec + string :=
  match w_decodeSpec w data with
  | inr e => inr ("config: check spec: " +:+ e)
  | inl cs => checkParsed (w_durationString w) cs
  end.

(** ** Trial refs *)

(** src/internal/queue/trialref.go:19-21 [trialRefName] *)
Definition trialRefName (runID : string) : string := cfg_TrialRefPrefix cfg +:+ "/" +:+ runID.

(** src/internal/queue/trialref.go:31-43 [createTrialRef] *)
Definition createTrialRef (runID mergeOID : string) d : (string + string) * Daemon :=
  let ref := trialRefName runID in
  match cas ref "" mergeOID d with
  | (None, d) => (inl ref, d)
  | (Some CASStale, d) =>
      (inr ("trial ref " +:+ ref +:+ " already exists at a different SHA (operational collision)"), d)
  | (Some (CASOther e), d) => (inr e, d)
  end.

(** src/internal/queue/trialref.go:50-57 [deleteTrialRefNow] *)
Definition deleteTrialRefNow r d : run * Daemon :=
  if String.eqb (u_trialRef r) "" then (r, d)
  else
    let d := snd (cas (u_trialRef r) (u_chainTip r) "" d) in
    (r <| u_trialRef := "" |>, d <| d_trialReap ::= delete (u_trialRef r) |>).

(** src/internal/queue/trialref.go:64-73 [scheduleTrialReap] *)
Definition scheduleTrialReap (ref mergeOID : string) d : Daemon :=
  if String.eqb ref "" then d
  else if cfg_TrialRefRetention cfg <=? 0 then snd (cas ref mergeOID "" d)
  else d <| d_trialReap ::= <[ref := (mergeOID, d_now d + cfg_TrialRefRetention cfg)]> |>.

(** src/internal/queue/trialref.go:81-96 [reapTrialRefs] *)
Definition reapTrialRefs d : Daemon :=
  fold_left (fun d p =>
    let '(ref, (sha, at')) := p in
    if d_now d <? at' then d
    else match cas ref sha "" d with
         | (None, d) | (Some CASStale, d) => d <| d_trialReap ::= delete ref |>
         | (Some (CASOther _), d) => d
         end) (map_to_list (d_trialReap d)) d.
End Trial.

(** ** Compare and swap *)

(** What a push can do: nothing, or the write its lease allows. A success has
    the effect asked for; a stale lease has none. *)
Lemma CASUpdate_spec ref old new g :
  let '(err, g') := CASUpdate ref old new g in
  (gr_refs g' = gr_refs g \/
   (casApplies ref old (gr_refs g) = true /\ gr_refs g' = casWrite ref new (gr_refs g))) /\
  match err with
  | None => gr_refs g' !! ref = (if String.eqb new "" then None else Some new)
  | Some CASStale => gr_refs g' = gr_refs g /\ casApplies ref old (gr_refs g) = false
  | Some (CASOther _) => True
  end.
Proof.
  assert (casWrite ref new (gr_refs g) !! ref = (if String.eqb new "" then None else Some new)) as Hw.
  { unfold casWrite. destruct (String.eqb new ""); [apply lookup_delete_eq|apply lookup_insert_eq]. }
  assert (forall rest, let '(err, g') :=
    (if upToDate ref new (gr_refs g) then (None, mkGit (gr_refs g) rest)
     else if casApplies ref old (gr_refs g) then (None, mkGit (casWrite ref new (gr_refs g)) rest)
     else (Some CASStale, mkGit (gr_refs g) rest)) in
    (gr_refs g' = gr_refs g \/
     (casApplies ref old (gr_refs g) = true /\ gr_refs g' = casWrite ref new (gr_refs g))) /\
    match err with
    | None => gr_refs g' !! ref = (if String.eqb new "" then None else Some new)
    | Some CASStale => gr_refs g' = gr_refs g /\ casApplies ref old (gr_refs g) = false
    | Some (CASOther _) => True
    end) as Hdeliver.
  { intros rest. unfold upToDate. destruct (String.eqb new "") eqn:En; cbn [negb andb].
    - destruct (casApplies ref old (gr_refs g)); simpl; auto.
    - destruct (bool_decide_reflect (gr_refs g !! ref = Some new)); simpl; auto.
      destruct (casApplies ref old (gr_refs g)); simpl; auto. }
  unfold CASUpdate. destruct (gr_faults g) as [|[[msg lost]|] rest]; [apply Hdeliver| |apply Hdeliver].
  split; [|done]. simpl. destruct lost, (casApplies ref old (gr_refs g)); simpl; auto.
Qed.

(** A world for concrete inputs: the policy allows, trials merge cleanly and the
    spec holds one check. *)
Definition trialSpec : CheckSpec :=
  mkCheckSpec [mkCheck "" None None "build" ["make"] [] [] "" ""] [] [] [] 1 [] "".

Definition demoWorld : World := {|
  w_policy := fun _ => mkAnswer "h" None true "" None;
  w_policyVersion := "v1";
  w_reviewCandidates := inl [];
  w_policyInputs := None;
  w_validate := fun _ _ => None;
  w_reviewLanded := fun _ _ => None;
  w_publishNote := fun _ _ _ => inl ("blob", true);
  w_fetch := None;
  w_listRefs := inl ∅;
  w_retain := fun _ => None;
  w_trial := fun base c => inl (mkTrialMerge true ("tree-" +:+ base +:+ "-" +:+ c_SHA c) []);
  w_mergeBody := fun _ _ => "";
  w_subject := fun _ _ _ => inl "Merge";
  w_commitMessage := None;
  w_commit := fun tree _ _ _ => inl ("m-" +:+ tree);
  w_isAncestor := fun _ _ => inl false;
  w_findLanding := fun _ _ _ _ => inl "";
  w_findLandingMerge := fun _ _ => "";
  w_readFile := fun _ _ => inl "spec";
  w_decodeSpec := fun _ => inl trialSpec;
  w_durationString := fun _ => "1s";
  w_pin := fun _ => None;
  w_mkdir := None;
  w_export := fun _ => None;
  w_mtimes := fun _ => None;
  w_preparedKey := fun target base c group => target +:+ "/" +:+ base +:+ "/" +:+ c_SHA c;
  w_batchKey := fun _ => "batch";
  w_keep := fun _ => None;
  w_pressure := false;
  w_reviewFacts := None;
  w_maintain := None;
|}.
