(* ===== verification/Landing.v ===== *)
(** How runs end ([src/internal/queue/landing.go] and the batch halves of
    reconcile.go and command.go): the gates before a landing, the one
    compare-and-swap that lands a chain, recovery of a landing already in target
    history, and every other terminal outcome with its records, parks, pins and
    events. *)
From S2P Require Import Prelude GoString Core Slots Daemon Controls CheckGraph Scheduling Spec Governor Trial.

Open Scope string_scope.
Open Scope list_scope.
Open Scope Z_scope.

(** src/internal/queue/landing.go:337-345 [finishRun] A member's terminal event. *)
Definition terminalEvent (o : Outcome) (now : Z) (target : string) (c : Candidate) (runID : string)
    (rec : RunRecord) (detail : string) : Event :=
  event (eventKindForOutcome o) now target c runID <| e_Record := Some rec |> <| e_Detail := detail |>.

(** An externally named target: [config.Target{Name: name}]. *)
Definition bareTarget (name : string) : Target := mkTarget name "" "" "" 0 0 "" None.

Section Landing.
Context (cfg : Config) (w : World).
Implicit Types (d : Daemon) (r : run) (t : Target) (c : Candidate) (o : Outcome).

(** ** Concluding a run *)

(** src/internal/queue/landing.go:432-434 [unpin] *)
Definition unpin (oid : string) d : Daemon := d <| d_pins ::= (fun s => s ∖ {[oid]}) |>.

(** src/internal/queue/landing.go:380-404 [finalizeRun] *)
Definition finalizeRun r d : Daemon :=
  let d := match u_members r with
           | m :: _ => if bool_decide (rr_Outcome (rm_rec m) = OutcomeSkipped) then d else forgetPrepared (u_runID r) d
           | [] => d
           end in
  let d := if isSome (d_landedPins d !! u_chainTip r) then d else unpin (u_chainTip r) d in
  scheduleTrialReap cfg (u_trialRef r) (u_chainTip r) d.

(** src/internal/queue/landing.go:318-324 [finishRun] The detail recorded for a member, with what was overridden. *)
Definition memberDetail r (detail : string) : string :=
  let detail := if String.eqb (u_emergencyReason r) "" then detail
                else "EMERGENCY: checks bypassed; " +:+ u_emergencyReason r +:+ "; " +:+ detail in
  if String.eqb (u_pauseOverrideReason r) "" then detail
  else "PAUSE OVERRIDE: " +:+ u_pauseOverrideReason r +:+ "; " +:+ detail.

(** src/internal/queue/landing.go:317-326 [finishRun] *)
Definition stampOutcome o (detail : string) (now : Z) (m : runMember) : runMember :=
  m <| rm_rec ::= (fun rec => rec <| rr_Outcome := o |> <| rr_Detail := detail |> <| rr_EndedAt := now |>) |>.

(** src/internal/queue/landing.go:335-355 [finishRun] One member's terminal
    event, and its automatic retry when it was parked. *)
Definition finishMember t r o (detail : string) (parked : bool) (m : runMember) d : Daemon :=
  let d := emit cfg (terminalEvent o (d_now d) (t_Name t) (rm_cand m) (rr_RunID (rm_rec m)) (rm_rec m) detail) d in
  if parked then maybeAutoRetry cfg (t_Name t) (rm_cand m) o d else d.

(** src/internal/queue/landing.go:305-356 [finishRun] *)
Definition finishRun t r o (detail : string) (parkIt : bool) d : Daemon :=
  let d := if (negb (String.eqb (u_emergencyReason r) "") || negb (String.eqb (u_pauseOverrideReason r) ""))
              && negb (bool_decide (o = OutcomeSkipped)) && negb (bool_decide (o = OutcomeLanded))
           then clearEmergency cfg (t_Name t) ("emergency stopped: " +:+ detail) d else d in
  let r := materializeChecks r in
  let d := governorFeedback cfg t r o d in
  let r := r <| u_members ::= map (stampOutcome o (memberDetail r detail) (d_now d)) |> in
  let d := if parkIt
           then fold_left (fun d m => park (t_Name t) (rm_cand m) o detail (rr_RunID (rm_rec m)) d) (u_members r) d
           else d in
  let d := finalizeRun r d in
  fold_left (fun d m => finishMember t r o detail parkIt m d) (u_members r) d.

(** src/internal/queue/reconcile.go:382-388 [runRejectOutcome] *)
Definition runRejectOutcome r : Outcome * string :=
  let res := u_results r !!! u_culprit r else zeroCheckResult in
  match r_Err res with
  | Some e => (OutcomeError, "check " +:+ quoted (r_Name res) +:+ ": " +:+ e)
  | None => (OutcomeRejected, "check " +:+ quoted (r_Name res) +:+ " failed")
  end.

(** src/internal/queue/reconcile.go:1031-1051 [finishBatchRed] *)
Definition skipMembers t r (detail : string) d : Daemon :=
  fold_left (fun d m => emit cfg (terminalEvent OutcomeSkipped (d_now d) (t_Name t) (rm_cand m)
                                    (rr_RunID (rm_rec m)) (rm_rec m) detail) d) (u_members r) d.

(** src/internal/queue/reconcile.go:1054-1066 [finishBatchRed] The suspected
    members bound the next group to a prefix before them. *)
Definition bisectLimit r : Z :=
  let limit := Z.max 1 (Z.quot (Z.of_nat (length (u_members r))) 2) in
  fold_left (fun limit p =>
    fold_left (fun limit ref =>
      snd (fold_left (fun acc m =>
        let '(i, limit) := acc in
        (i + 1, if String.eqb (c_Ref (rm_cand m)) ref then Z.min limit (Z.max 1 i) else limit))
        (u_members r) (0, limit))) (r_SuspectedRefs (snd p)) limit) (map_to_list (u_results r)) limit.

(** src/internal/queue/reconcile.go:1015-1070 [finishBatchRed] *)
Definition finishBatchRed t r d : Daemon :=
  let d := governorFeedback cfg t r OutcomeRejected d in
  let checkName := if String.eqb (u_culprit r) "" then "?" else u_culprit r in
  let detail := "batch " +:+ u_batchID r +:+ " red on check " +:+ quoted checkName
                +:+ "; attribution unconfirmed; checking smaller groups" in
  let d := if String.eqb (u_pauseOverrideReason r) "" then d
           else clearEmergency cfg (t_Name t) ("pause override stopped: " +:+ detail) d in
  let '(detail, d) :=
    if String.eqb (u_emergencyReason r) "" then (detail, d)
    else let detail := "EMERGENCY: checks waived; required provenance failed; " +:+ u_emergencyReason r +:+ "; " +:+ detail in
         (detail, clearEmergency cfg (t_Name t) ("emergency stopped: " +:+ detail) d) in
  let r := r <| u_members ::= map (stampOutcome OutcomeSkipped detail (d_now d)) |> in
  let d := skipMembers t r detail (finalizeRun r d) in
  if String.eqb (t_OnBatchRed t) "bisect"
  then d <| d_batchRecovery ::= <[t_Name t := bisectLimit r]> |>
  else d <| d_batchFallback ::= <[t_Name t := true]> |>.

(** src/internal/queue/command.go:136-136 [cancelDetail] *)
Definition cancelDetail := "cancelled by operator".

(** src/internal/queue/command.go:235-242 [cancelBatchMember] *)
Definition stampCancel (ref : string) (now : Z) (m : runMember) : runMember :=
  if String.eqb (c_Ref (rm_cand m)) ref then stampOutcome OutcomeRejected cancelDetail now m
  else stampOutcome OutcomeSkipped ("batch member cancelled (" +:+ ref +:+ ")") now m.

(** src/internal/queue/command.go:247-261 [cancelBatchMember] *)
Definition cancelMember t (ref runID : string) (now : Z) (m : runMember) d : Daemon :=
  let rec := rm_rec m in
  let d := if String.eqb (c_Ref (rm_cand m)) ref
           then park (t_Name t) (rm_cand m) (rr_Outcome rec) (rr_Detail rec) (rr_RunID rec) d else d in
  emit cfg (terminalEvent (rr_Outcome rec) now (t_Name t) (rm_cand m) runID rec (rr_Detail rec)) d.

(** src/internal/queue/command.go:226-262 [cancelBatchMember] *)
Definition cancelBatchMember t r (ref : string) d : Daemon :=
  let r := materializeChecks r in
  let now := d_now d in
  let r := r <| u_members ::= map (stampCancel ref now) |> in
  let d := finalizeRun r d in
  fold_left (fun d m => cancelMember t ref (u_runID r) now m d) (u_members r) d.

(** ** Outcomes before a run exists *)

(** The record of a candidate that never got a run. *)
Definition bareRecord t c o (detail runID : string) (now : Z) : RunRecord :=
  zeroRunRecord <| rr_RunID := runID |> <| rr_Target := t_Name t |> <| rr_Candidate := c |>
    <| rr_Outcome := o |> <| rr_Detail := detail |> <| rr_StartedAt := now |> <| rr_EndedAt := now |>.

(** src/internal/queue/landing.go:488-509 [rejectPreMerge] *)
Definition rejectPreMerge t c o (detail : string) d : Daemon :=
  let '(runID, d) := newRunID cfg (c_SHA c) d in
  let rec := bareRecord t c o detail runID (d_now d) in
  let d := park (t_Name t) c o detail runID d in
  let d := emit cfg (terminalEvent o (d_now d) (t_Name t) c runID rec detail) d in
  maybeAutoRetry cfg (t_Name t) c o d.

(** src/internal/queue/landing.go:529-544 [skipPreMergePredicted] *)
Definition skipPreMergePredicted t c (detail : string) d : Daemon :=
  let '(runID, d) := newRunID cfg (c_SHA c) d in
  let rec := bareRecord t c OutcomeSkipped detail runID (d_now d) in
  emit cfg (terminalEvent OutcomeSkipped (d_now d) (t_Name t) c runID rec detail) d.

(** src/internal/queue/landing.go:550-572 [rejectRun] *)
Definition rejectRun t c (runID baseOID mergeOID : string) (trial : TrialMerge) o (detail : string) d : Daemon :=
  let d := unpin mergeOID (forgetPrepared runID d) in
  let rec := bareRecord t c o detail runID (d_now d) <| rr_BaseOID := baseOID |>
               <| rr_MergeSHA := mergeOID |> <| rr_Trial := trial |> in
  let d := park (t_Name t) c o detail runID d in
  let d := emit cfg (terminalEvent o (d_now d) (t_Name t) c runID rec detail) d in
  maybeAutoRetry cfg (t_Name t) c o d.

(** src/internal/queue/reconcile.go:901-921 [finishBatchStart] The records of a chain: each link is based on the one before it. *)
Fixpoint chainRecords t (runID : string) (size pos : nat) (base : string) (now : Z)
    (links : list (chainLink * TrialMerge)) : list (chainLink * RunRecord) :=
  match links with
  | [] => []
  | (link, trial) :: rest =>
      (link, zeroRunRecord <| rr_RunID := memberRunID runID pos |> <| rr_Target := t_Name t |>
               <| rr_Candidate := cl_cand link |> <| rr_BaseOID := base |> <| rr_MergeSHA := cl_mergeOID link |>
               <| rr_Trial := trial |> <| rr_StartedAt := now |> <| rr_BatchID := runID |>
               <| rr_Position := Z.of_nat pos |> <| rr_BatchSize := Z.of_nat size |>)
      :: chainRecords t runID size (S pos) (cl_mergeOID link) now rest
  end.

(** src/internal/queue/reconcile.go:975-1011 [rejectBatch] *)
Definition rejectBatch t (base runID : string) (links : list (chainLink * TrialMerge)) o (detail : string) d : Daemon :=
  let d := forgetPrepared runID d in
  let d := match last links with Some (l, _) => unpin (cl_mergeOID l) d | None => d end in
  let now := d_now d in
  fold_left (fun d p =>
    let '(link, rec) := p in
    let rec := rec <| rr_Outcome := o |> <| rr_Detail := detail |> <| rr_EndedAt := now |> in
    let d := park (t_Name t) (cl_cand link) o detail (rr_RunID rec) d in
    let d := emit cfg (terminalEvent o now (t_Name t) (cl_cand link) (rr_RunID rec) rec detail) d in
    maybeAutoRetry cfg (t_Name t) (cl_cand link) o d)
    (chainRecords t runID (length links) 0 base now links) d.

(** ** Recovery *)

(** src/internal/queue/landing.go:228-233 [landRun] Deleting a candidate's slot, or acknowledging the landing at its forge. *)
Definition releaseSlot c (mergeOID : string) d : option CASError * Daemon :=
  if String.eqb (c_Source c) "" then cas (c_Ref c) (c_SHA c) "" d
  else (w_reviewLanded w c mergeOID, d).

(** src/internal/queue/landing.go:439-478 [recoverLanded] *)
Definition recoverLanded t c (targetTip : string) d : Daemon :=
  let mergeSHA :=
    if String.eqb (t_Landing t) "squash" then
      match w_findLanding w targetTip (c_Ref c) (c_SHA c) (if String.eqb (c_Source c) "" then c_Version c else "*") with
      | inl sha => sha | inr _ => "" end
    else w_findLandingMerge w targetTip (c_SHA c) in
  match releaseSlot c mergeSHA d with
  | (Some (CASOther _), d) => d
  | (_, d) =>
      let '(runID, d) := newRunID cfg (c_SHA c) d in
      let detail := if String.eqb (t_Landing t) "squash"
                    then "candidate already recorded in target history; checks not re-run"
                    else "candidate already ancestor of target; checks not re-run" in
      let rec := bareRecord t c OutcomeLanded detail runID (d_now d) <| rr_MergeSHA := mergeSHA |>
                   <| rr_Recovered := true |> in
      emit cfg (terminalEvent OutcomeLanded (d_now d) (t_Name t) c runID rec detail) d
  end.

(** ** Landing *)

(** src/internal/queue/landing.go:31-37 [stampReceiptRecords] *)
Definition stampReceiptRecords (ref : string) r : run :=
  r <| u_members ::= map (fun m => m <| rm_rec ::= (fun rec =>
    rec <| rr_ReceiptRef := ref |> <| rr_ReceiptBlob := u_receiptBlobSHA r |>
        <| rr_ReceiptPublished := u_receiptPublished r |>) |>) |>.

(** Review snapshots validated in one call, when the forge offers it. *)
Inductive FreshInputs := FreshNone | FreshFor (refs : gset string) | FreshError (err : string).

(** src/internal/queue/landing.go:60-77 [landRun] *)
Definition freshInputs r : FreshInputs :=
  let reviewMembers := List.filter (fun c => negb (String.eqb (c_Source c) "")) (map rm_cand (u_members r)) in
  match w_policyInputs w, reviewMembers with
  | Some f, _ :: _ =>
      match f reviewMembers (negb (String.eqb (u_emergencyReason r) "")) with
      | inl refs => FreshFor refs
      | inr err => FreshError err
      end
  | _, _ => FreshNone
  end.

(** src/internal/queue/landing.go:66-100 [landRun] The first review that no
    longer validates. *)
Definition reviewGate r : option string :=
  match freshInputs r with
  | FreshError err => Some err
  | FreshFor _ => None
  | FreshNone =>
      if cfg_Reviews cfg then
        first_some (fun m => if String.eqb (c_Source (rm_cand m)) "" then None
                             else w_validate w (rm_cand m) (negb (String.eqb (u_emergencyReason r) ""))) (u_members r)
      else None
  end.

(** src/internal/queue/landing.go:101-118 [landRun] *)
Fixpoint policyGate t r (ms : list runMember) d : option (Outcome * string * bool) * Daemon :=
  match ms with
  | [] => (None, d)
  | m :: rest =>
      let c := rm_cand m in
      let missing := match freshInputs r with
                     | FreshFor refs => negb (String.eqb (c_Source c) "") && negb (bool_decide (c_Ref c ∈ refs))
                     | _ => false
                     end in
      if missing then (Some (OutcomeSkipped, "fresh policy snapshot missing for " +:+ c_Ref c, false), d)
      else match evaluatePolicy cfg w t c (u_baseOID r) (map rm_cand (u_members r)) (rr_Checks (rm_rec m)) "landing"
                   (negb (String.eqb (u_emergencyReason r) "")) (u_overridePause r) d with
           | (Some err, d) => (Some (OutcomeRejected, "landing policy: " +:+ err, true), d)
           | (None, d) => policyGate t r rest d
           end
  end.

(** src/internal/queue/landing.go:131-175 [landRun] *)
Definition receiptGate r : run + string :=
  match cfg_ReceiptNotes cfg with
  | None => inl r
  | Some notes =>
      match w_publishNote w (rn_Ref notes) (u_chainTip r) (u_receiptPayload r) with
      | inr (err, conflict) =>
          inr (if conflict : bool
               then "publish receipt note: invariant violation (a different receipt already exists for this tested SHA): " +:+ err
               else "publish receipt note: " +:+ err)
      | inl (blob, fresh) =>
          inl (stampReceiptRecords (rn_Ref notes)
                 (r <| u_receiptBlobSHA := blob |>
                    <| u_receiptPublished := if fresh : bool then "published" else "already-present" |>))
      end
  end.

(** src/internal/queue/landing.go:241-249 [landRun] *)
Definition countUrgent t c d : Daemon :=
  let urgent := match cs_Priorities (d_controls d) !! c_Ref c with
    | Some e => if String.eqb (rv_SHA (py_Revision e)) (c_SHA c) && String.eqb (rv_Version (py_Revision e)) (c_Version c)
                then String.eqb (py_Class e) "urgent" else c_Urgent c
    | None => c_Urgent c
    end in
  d <| d_urgentBurst ::= <[t_Name t := if urgent then (d_urgentBurst d !!! t_Name t else 0) + 1 else 0]> |>.

(** src/internal/queue/landing.go:226-275 [landRun] One member of a landed
    chain: its slot, its record, its event. *)
Definition landMember t r (m : runMember) d : Daemon :=
  let '(delErr, d) := releaseSlot (rm_cand m) (rm_mergeOID m) d in
  let detail := match delErr with
    | Some CASStale => "candidate re-pushed before slot delete; slot survives at new SHA and re-queues"
    | Some (CASOther e) => "land: delete slot: " +:+ e
    | None => ""
    end in
  let d := countUrgent t (rm_cand m) d in
  let m := stampOutcome OutcomeLanded (memberDetail r detail) (d_now d) m in
  emit cfg (terminalEvent OutcomeLanded (d_now d) (t_Name t) (rm_cand m) (rr_RunID (rm_rec m)) (rm_rec m)
              (rr_Detail (rm_rec m))) d.

(** src/internal/queue/landing.go:214-292 [landRun] After the push. Of the
    members' records, [finalizeRun] reads the head's outcome. *)
Definition landed t r d : Daemon :=
  let d := d <| d_landedPins ::= <[u_chainTip r := targetRefName t]> |> in
  let d := governorFeedback cfg t r OutcomeLanded d in
  let d := d <| d_batchFallback ::= delete (t_Name t) |> <| d_batchRecovery ::= delete (t_Name t) |> in
  let d := fold_left (fun d m => landMember t r m d) (u_members r) d in
  let d := if u_controlPrepared r then clearEmergency cfg (t_Name t) "" d else d in
  let '(r, d) := deleteTrialRefNow r d in
  finalizeRun (r <| u_members ::= map (stampOutcome OutcomeLanded "" (d_now d)) |>) d.

(** src/internal/queue/landing.go:177-206 [landRun] The target push. *)
Definition pushTarget t r d : Daemon :=
  match cas (targetRefName t) (u_baseOID r) (u_chainTip r) d with
  | (None, d) => landed t r d
  | (Some CASStale, d) =>
      finishRun t r OutcomeSkipped "target moved before land; slot kept, retried next tick" false d
  | (Some (CASOther e), d) =>
      let d := d <| d_landedPins ::= <[u_chainTip r := targetRefName t]> |> in
      finishRun t r OutcomeSkipped ("land: push target: " +:+ e +:+ "; slot kept, retried next tick") false d
  end.

(** src/internal/queue/landing.go:51-293 [landRun] *)
Definition landRun t r d : Daemon :=
  if isSome (cs_Pauses (d_controls d) !! t_Name t) && negb (u_overridePause r) then d
  else match reviewGate r with
  | Some err => finishRun t r OutcomeSkipped ("review changed before land: " +:+ err) false d
  | None =>
      match policyGate t r (u_members r) d with
      | (Some (o, detail, parkIt), d) => finishRun t r o detail parkIt d
      | (None, d) =>
          match receiptGate r with
          | inr detail => finishRun t r OutcomeError detail true d
          | inl r => pushTarget t r d
          end
      end
  end.
End Landing.

(** ** Frames

    What an operation leaves alone: the lanes, the clock and the [safe] refs,
    which are never up for deletion either; landed tips stay recorded. [ts] lists the terminal events it emits. *)
Definition terminals (evs : list Event) : list (EventKind * Candidate) :=
  omap (fun e => if TerminalKind (e_Kind e) then Some (e_Kind e, e_Candidate e) else None) evs.

Record quiet (safe : string -> Prop) (ts : list (EventKind * Candidate)) (d d' : Daemon) : Prop := mkQuiet {
  qt_lanes : d_lanes d' = d_lanes d;
  qt_external : d_external d' = d_external d;
  qt_now : d_now d' = d_now d;
  qt_draining : d_draining d' = d_draining d;
  qt_refs : forall ref, safe ref -> gr_refs (d_git d') !! ref = gr_refs (d_git d) !! ref;
  qt_reap : forall ref, safe ref -> is_Some (d_trialReap d' !! ref) -> is_Some (d_trialReap d !! ref);
  qt_landed : dom (d_landedPins d) ⊆ dom (d_landedPins d');
  qt_terms : terminals (d_events d') = terminals (d_events d) ++ ts;
}.

Lemma quiet_refl safe d : quiet safe [] d d.
Proof. split; try done. by rewrite app_nil_r. Qed.

Lemma quiet_trans safe ts1 ts2 d1 d2 d3 :
  quiet safe ts1 d1 d2 -> quiet safe ts2 d2 d3 -> quiet safe (ts1 ++ ts2) d1 d3.
Proof.
  intros [] []. split; try congruence.
  - intros ref Hr. rewrite qt_refs1, qt_refs0; auto.
  - auto.
  - by etrans.
  - rewrite qt_terms1, qt_terms0. by rewrite app_assoc.
Qed.

(** Composition where one side emits nothing terminal. *)
Lemma quiet_l safe ts d1 d2 d3 : quiet safe [] d1 d2 -> quiet safe ts d2 d3 -> quiet safe ts d1 d3.
Proof. intros H1 H2. exact (quiet_trans safe [] ts d1 d2 d3 H1 H2). Qed.

Lemma quiet_r safe ts d1 d2 d3 : quiet safe ts d1 d2 -> quiet safe [] d2 d3 -> quiet safe ts d1 d3.
Proof. intros H1 H2. rewrite <- (app_nil_r ts). exact (quiet_trans safe ts [] d1 d2 d3 H1 H2). Qed.

#[export] Hint Resolve quiet_refl : gauntlet.

(** Fields outside the frame. *)
Ltac quiet_field := split; [done..|]; by rewrite app_nil_r.

Lemma terminals_app a b : terminals (a ++ b) = terminals a ++ terminals b.
Proof. unfold terminals. apply omap_app. Qed.

Section Frames.
Context (cfg : Config) (w : World) (safe : string -> Prop).
Implicit Types (d : Daemon) (r : run) (t : Target) (c : Candidate) (o : Outcome).

Lemma saveControls_quiet next d : quiet safe [] d (snd (saveControls cfg next d)).
Proof.
  unfold saveControls. destruct (trimControls _ _ _) as [s|s]; [|split; try done; by rewrite app_nil_r].
  destruct (String.eqb _ ""); [split; try done; by rewrite app_nil_r|].
  unfold writeControls. destruct (d_writes d) as [|[] ?]; split; try done; by rewrite app_nil_r.
Qed.

Lemma observe_quiet ev d : quiet safe [] d (observeInfrastructure cfg ev d).
Proof. unfold observeInfrastructure. repeat case_match; try apply quiet_refl; apply saveControls_quiet. Qed.

Lemma emit_quiet ev d :
  quiet safe (if TerminalKind (e_Kind ev) then [(e_Kind ev, e_Candidate ev)] else []) d (emit cfg ev d).
Proof.
  unfold emit. eapply quiet_l; [apply observe_quiet|]. split; try done.
  change (d_events (_ <| d_events ::= _ |>)) with (d_events (observeInfrastructure cfg ev d) ++ [ev]).
  rewrite terminals_app. f_equal. unfold terminals. simpl. by destruct (TerminalKind (e_Kind ev)).
Qed.

(** A non-terminal event. *)
Lemma emit_quiet_nt ev d : TerminalKind (e_Kind ev) = false -> quiet safe [] d (emit cfg ev d).
Proof. intros H. pose proof (emit_quiet ev d) as Q. by rewrite H in Q. Qed.

Lemma terminal_kind o : TerminalKind (eventKindForOutcome o) = true.
Proof. by destruct o. Qed.

Lemma emit_terminal o now target c runID rec detail d :
  quiet safe [(eventKindForOutcome o, c)] d (emit cfg (terminalEvent o now target c runID rec detail) d).
Proof.
  pose proof (emit_quiet (terminalEvent o now target c runID rec detail) d) as Q.
  change (e_Kind (terminalEvent o now target c runID rec detail)) with (eventKindForOutcome o) in Q.
  rewrite terminal_kind in Q. exact Q.
Qed.

Lemma clearEmergency_quiet target reason d : quiet safe [] d (clearEmergency cfg target reason d).
Proof. apply saveControls_quiet. Qed.

Lemma governorFeedback_quiet t r o d : quiet safe [] d (governorFeedback cfg t r o d).
Proof. unfold governorFeedback. repeat case_match; try apply quiet_refl. apply saveControls_quiet. Qed.

Lemma park_quiet target c o detail runID d : quiet safe [] d (park target c o detail runID d).
Proof. split; try done. by rewrite app_nil_r. Qed.

Lemma forgetPrepared_quiet runID d : quiet safe [] d (forgetPrepared runID d).
Proof. unfold forgetPrepared. repeat case_match; try apply quiet_refl. split; try done. by rewrite app_nil_r. Qed.

Lemma unpin_quiet oid d : quiet safe [] d (unpin oid d).
Proof. split; try done. by rewrite app_nil_r. Qed.

Lemma cas_quiet ref old new d : ~ safe ref -> quiet safe [] d (snd (cas ref old new d)).
Proof.
  intros Hs. unfold cas. pose proof (CASUpdate_spec ref old new (d_git d)) as H.
  destruct (CASUpdate ref old new (d_git d)) as [err g']. destruct H as [H _].
  split; try done; [|simpl; by rewrite app_nil_r]. intros rf Hr. simpl.
  assert (ref <> rf) by (by intros ->). destruct H as [->|[_ ->]]; [done|]. unfold casWrite.
  case_match; [by rewrite lookup_delete_ne|by rewrite lookup_insert_ne].
Qed.

Lemma scheduleTrialReap_quiet ref oid d :
  (ref <> "" -> ~ safe ref) -> quiet safe [] d (scheduleTrialReap cfg ref oid d).
Proof.
  intros Hs. unfold scheduleTrialReap. destruct (String.eqb_spec ref ""); [apply quiet_refl|].
  case_match; [apply cas_quiet; auto|]. split; try done; [|by rewrite app_nil_r].
  intros x Hx. simpl. intros Hin. rewrite lookup_insert_ne in Hin; [done|]. intros ->. by apply Hs.
Qed.

(** A run's trial ref is never one of the refs under consideration. *)
Definition trial_apart r : Prop := u_trialRef r <> "" -> ~ safe (u_trialRef r).

Lemma finalizeRun_quiet r d : trial_apart r -> quiet safe [] d (finalizeRun cfg r d).
Proof.
  intros Ht. unfold finalizeRun.
  eapply quiet_l; [|apply scheduleTrialReap_quiet; exact Ht].
  eapply quiet_l; [|case_match; [apply quiet_refl|apply unpin_quiet]].
  repeat case_match; try apply quiet_refl. apply forgetPrepared_quiet.
Qed.

Lemma clearParkAndRetry_quiet target ref q1 q2 d :
  quiet safe [] d (snd (clearParkAndRetry cfg target ref q1 q2 d)).
Proof.
  unfold clearParkAndRetry. case_match; [|apply quiet_refl]. cbn [snd].
  eapply quiet_l; [|eapply quiet_l; by apply emit_quiet_nt]. quiet_field.
Qed.

Lemma maybeAutoRetry_quiet target c o d : quiet safe [] d (maybeAutoRetry cfg target c o d).
Proof.
  unfold maybeAutoRetry. case_match; [apply quiet_refl|]. case_match; [apply quiet_refl|].
  case_match; [quiet_field|]. eapply quiet_l; [|apply clearParkAndRetry_quiet]. quiet_field.
Qed.

Lemma fold_quiet {A} (f : A -> Daemon -> Daemon) (g : A -> list (EventKind * Candidate)) (l : list A) d :
  (forall x d, x ∈ l -> quiet safe (g x) d (f x d)) ->
  quiet safe (concat (map g l)) d (fold_left (fun d x => f x d) l d).
Proof.
  revert d. induction l as [|x l IH]; intros d H; simpl; [apply quiet_refl|].
  eapply quiet_trans; [apply H, list_elem_of_here|]. apply IH.
  intros y d' Hy. by apply H, list_elem_of_further.
Qed.

Lemma fold_quiet_nt {A} (f : A -> Daemon -> Daemon) (l : list A) d :
  (forall x d, quiet safe [] d (f x d)) -> quiet safe [] d (fold_left (fun d x => f x d) l d).
Proof.
  intros H. pose proof (fold_quiet f (fun _ => []) l d (fun x d _ => H x d)) as Q.
  replace (concat (map (fun _ => []) l)) with ([] : list (EventKind * Candidate)) in Q; [done|].
  clear. by induction l.
Qed.

(** The terminal events of a run's members, all with one outcome. *)
Definition memberTerms (k : EventKind) r : list (EventKind * Candidate) :=
  map (fun m => (k, rm_cand m)) (u_members r).

Lemma materializeChecks_shape r :
  exists b ms, materializeChecks r = r <| u_materialized := b |> <| u_members := map (fun m => m <| rm_rec := ms m |>) (u_members r) |>.
Proof.
  unfold materializeChecks. case_match.
  - exists (u_materialized r), rm_rec.
    assert (map (fun m => m <| rm_rec := rm_rec m |>) (u_members r) = u_members r) as ->.
    { induction (u_members r) as [|m ms IH]; [done|]. cbn [map]. rewrite IH. by destruct m. }
    by destruct r.
  - exists true, (fun m => rm_rec m <| rr_Checks := checkRows r 0 (u_checks r) |>). done.
Qed.

Lemma materialize_cands r : rm_cand <$> u_members (materializeChecks r) = rm_cand <$> u_members r.
Proof.
  destruct (materializeChecks_shape r) as (b & ms & ->). simpl.
  induction (u_members r) as [|m l IH]; simpl; [done|]. by f_equal.
Qed.

Lemma memberTerms_cands k r r' :
  rm_cand <$> u_members r = rm_cand <$> u_members r' -> memberTerms k r = memberTerms k r'.
Proof.
  assert (forall x, memberTerms k x = map (fun c : Candidate => (k, c)) (rm_cand <$> u_members x)) as E
    by (intros x; unfold memberTerms; induction (u_members x) as [|m l IH]; [done|]; cbn; by f_equal).
  intros H. by rewrite !E, H.
Qed.

(** [finishRun] emits exactly one terminal event per member, in member order. *)
Lemma finishRun_quiet t r o detail parkIt d :
  trial_apart r -> quiet safe (memberTerms (eventKindForOutcome o) r) d (finishRun cfg t r o detail parkIt d).
Proof.
  intros Ht. unfold finishRun. cbv zeta.
  set (d1 := if (_ : bool) then clearEmergency _ _ _ _ else d).
  assert (quiet safe [] d d1) as H1 by (unfold d1; case_match; [apply clearEmergency_quiet|apply quiet_refl]).
  clearbody d1. set (d2 := governorFeedback _ _ _ _ d1).
  assert (quiet safe [] d d2) as H2 by (eapply quiet_l; [exact H1|apply governorFeedback_quiet]).
  clearbody d2. destruct (materializeChecks_shape r) as (b & ms & Em).
  set (r2 := materializeChecks r <| u_members ::= _ |>).
  assert (trial_apart r2) as Ht2 by (unfold r2; by rewrite Em).
  assert (rm_cand <$> u_members r2 = rm_cand <$> u_members r) as Ec.
  { rewrite <- (materialize_cands r). unfold r2. simpl.
    induction (u_members (materializeChecks r)) as [|m l IH]; [done|]. exact (f_equal (cons (rm_cand m)) IH). }
  clearbody r2. set (d3 := if parkIt then fold_left _ _ d2 else d2).
  assert (quiet safe [] d d3) as H3.
  { eapply quiet_l; [exact H2|]. unfold d3. case_match; [|apply quiet_refl].
    apply fold_quiet_nt. intros. apply park_quiet. }
  clearbody d3. eapply quiet_l; [exact H3|]. eapply quiet_l; [apply finalizeRun_quiet, Ht2|].
  rewrite <- (memberTerms_cands _ _ _ Ec). unfold memberTerms.
  replace (map _ (u_members r2)) with (concat (map (fun m => [(eventKindForOutcome o, rm_cand m)]) (u_members r2)))
    by (clear; induction (u_members r2) as [|m l IH]; simpl; [done|]; by f_equal).
  apply (fold_quiet (fun m d => finishMember cfg t r2 o detail parkIt m d)). intros m d' _. unfold finishMember.
  eapply quiet_r; [apply emit_terminal|]. case_match; [apply maybeAutoRetry_quiet|apply quiet_refl].
Qed.

Lemma stamp_cands f (ms : list runMember) : (forall m, rm_cand (f m) = rm_cand m) -> rm_cand <$> map f ms = rm_cand <$> ms.
Proof. intros H. induction ms as [|m l IH]; [done|]. cbn [map]. rewrite !fmap_cons, H. by f_equal. Qed.

Lemma concat_singletons {A B} (f : A -> B) (l : list A) : concat (map (fun x => [f x]) l) = map f l.
Proof. induction l as [|x l IH]; simpl; [done|]. by f_equal. Qed.

Lemma finishBatchRed_quiet t r d :
  trial_apart r -> quiet safe (memberTerms EventSkipped r) d (finishBatchRed cfg t r d).
Proof.
  intros Ht. unfold finishBatchRed. cbv zeta.
  set (d1 := governorFeedback _ _ _ _ d).
  assert (quiet safe [] d d1) as H1 by apply governorFeedback_quiet. clearbody d1.
  set (d2 := if String.eqb (u_pauseOverrideReason r) "" then d1 else _).
  assert (quiet safe [] d d2) as H2.
  { eapply quiet_l; [exact H1|]. unfold d2. case_match; [apply quiet_refl|apply clearEmergency_quiet]. }
  clearbody d2. destruct (if String.eqb (u_emergencyReason r) "" then _ else _) as [detail d3] eqn:E3.
  assert (quiet safe [] d d3) as H3.
  { eapply quiet_l; [exact H2|]. destruct (String.eqb _ ""); injection E3 as _ <-;
      [apply quiet_refl|apply clearEmergency_quiet]. }
  set (r2 := r <| u_members ::= _ |>). eapply quiet_r.
  - eapply quiet_l; [exact H3|]. eapply quiet_l; [apply (finalizeRun_quiet r2), Ht|]. unfold skipMembers.
    rewrite <- (memberTerms_cands EventSkipped r2 r) by by apply stamp_cands.
    unfold memberTerms. rewrite <- concat_singletons.
    apply (fold_quiet (fun m d => emit cfg (terminalEvent OutcomeSkipped (d_now d) (t_Name t) (rm_cand m)
      (rr_RunID (rm_rec m)) (rm_rec m) detail) d)).
    intros m d' _. apply (emit_terminal OutcomeSkipped).
  - unfold skipMembers. set (dd := fold_left _ _ _). clearbody dd.
    destruct (String.eqb (t_OnBatchRed t) "bisect"); quiet_field.
Qed.

Lemma rejectPreMerge_quiet t c o detail d :
  quiet safe [(eventKindForOutcome o, c)] d (rejectPreMerge cfg t c o detail d).
Proof.
  unfold rejectPreMerge, newRunID. eapply quiet_l; [|eapply quiet_r; [apply emit_terminal|apply maybeAutoRetry_quiet]].
  eapply quiet_l; [|apply park_quiet]. quiet_field.
Qed.

Lemma skipPreMergePredicted_quiet t c detail d :
  quiet safe [(EventSkipped, c)] d (skipPreMergePredicted cfg t c detail d).
Proof.
  unfold skipPreMergePredicted, newRunID. eapply quiet_l; [|apply (emit_terminal OutcomeSkipped)]. quiet_field.
Qed.

Lemma rejectRun_quiet t c runID base merge trial o detail d :
  quiet safe [(eventKindForOutcome o, c)] d (rejectRun cfg t c runID base merge trial o detail d).
Proof.
  unfold rejectRun. eapply quiet_l; [|eapply quiet_r; [apply emit_terminal|apply maybeAutoRetry_quiet]].
  eapply quiet_l; [|apply park_quiet]. eapply quiet_l; [apply forgetPrepared_quiet|apply unpin_quiet].
Qed.

Lemma chainRecords_cands t runID size pos base now links :
  map (fun p => cl_cand (fst p)) (chainRecords t runID size pos base now links) = map (fun p => cl_cand (fst p)) links.
Proof.
  revert pos base. induction links as [|[l tr] links IH]; intros pos base; simpl; [done|]. by rewrite IH.
Qed.

Lemma rejectBatch_quiet t base runID links o detail d :
  quiet safe (map (fun p => (eventKindForOutcome o, cl_cand (fst p))) links) d
    (rejectBatch cfg t base runID links o detail d).
Proof.
  unfold rejectBatch. cbv zeta.
  eapply quiet_l; [apply forgetPrepared_quiet|].
  set (d1 := match last links with Some _ => _ | None => _ end).
  assert (quiet safe [] (forgetPrepared runID d) d1) as H1
    by (unfold d1; case_match; [case_match; apply unpin_quiet|apply quiet_refl]).
  eapply quiet_l; [exact H1|]. clearbody d1.
  replace (map (fun p => (eventKindForOutcome o, cl_cand (fst p))) links)
    with (concat (map (fun p => [(eventKindForOutcome o, cl_cand (fst p))])
                  (chainRecords t runID (length links) 0 base (d_now d1) links))).
  2: { rewrite concat_singletons.
       rewrite <- (map_map (fun p => cl_cand (fst p)) (pair (eventKindForOutcome o)) links).
       rewrite <- (chainRecords_cands t runID (length links) 0 base (d_now d1) links), map_map. done. }
  apply (fold_quiet (fun p d => let '(link, rec) := p in _)). intros [link rec] d' _. cbn [fst].
  eapply quiet_l; [apply park_quiet|]. eapply quiet_r; [apply emit_terminal|apply maybeAutoRetry_quiet].
Qed.
Lemma newRunID_quiet oid d : quiet safe [] d (snd (newRunID cfg oid d)).
Proof. unfold newRunID. cbn [snd]. quiet_field. Qed.

Lemma recordPolicyDecision_quiet ref sha phase target an err d :
  quiet safe [] d (snd (recordPolicyDecision cfg w ref sha phase target an err d)).
Proof. unfold recordPolicyDecision. cbv zeta. case_match; [apply saveControls_quiet|apply quiet_refl]. Qed.

Lemma evaluatePolicy_quiet t c base ms checks phase skip op d :
  quiet safe [] d (snd (evaluatePolicy cfg w t c base ms checks phase skip op d)).
Proof.
  unfold evaluatePolicy. cbv zeta. destruct (match an_factsErr _ with Some _ => _ | None => _ end) as [allow err].
  match goal with |- context [recordPolicyDecision ?a ?b ?c ?e ?f ?g ?h ?i ?j] =>
    pose proof (recordPolicyDecision_quiet c e f g h i j) as Q; destruct (recordPolicyDecision a b c e f g h i j) as [ok d'] end.
  cbn [snd] in Q. destruct ok; cbn [negb]; [|exact Q]. destruct err; [exact Q|]. by destruct allow.
Qed.

Lemma policyGate_quiet t r ms d : quiet safe [] d (snd (policyGate cfg w t r ms d)).
Proof.
  revert d. induction ms as [|m ms IH]; intros d; cbn [policyGate]; [apply quiet_refl|]. cbv zeta.
  case_match; [apply quiet_refl|].
  match goal with |- context [evaluatePolicy ?a ?b ?c ?e ?f ?g ?h ?i ?j ?k ?l] =>
    pose proof (evaluatePolicy_quiet c e f g h i j k l) as Q; destruct (evaluatePolicy a b c e f g h i j k l) as [[err|] d'] end;
    cbn [snd] in Q; [exact Q|]. eapply quiet_l; [exact Q|apply IH].
Qed.

(** A slot is released at its own ref, or at the forge. *)
Lemma releaseSlot_quiet c oid d :
  (c_Source c = "" -> ~ safe (c_Ref c)) -> quiet safe [] d (snd (releaseSlot w c oid d)).
Proof.
  intros H. unfold releaseSlot. destruct (String.eqb_spec (c_Source c) ""); [apply cas_quiet; auto|apply quiet_refl].
Qed.

Lemma recoverLanded_quiet t c tip d :
  (c_Source c = "" -> ~ safe (c_Ref c)) ->
  exists ts, ts ∈ [[]; [(EventLanded, c)]] /\ quiet safe ts d (recoverLanded cfg w t c tip d).
Proof.
  intros H. unfold recoverLanded. cbv zeta.
  match goal with |- context [releaseSlot w c ?oid d] => pose proof (releaseSlot_quiet c oid d H) as Q;
    destruct (releaseSlot w c oid d) as [err d1] end. cbn [snd] in Q.
  assert (quiet safe [(EventLanded, c)] d
    (let '(runID, d) := newRunID cfg (c_SHA c) d1 in
      let detail := if String.eqb (t_Landing t) "squash"
                    then "candidate already recorded in target history; checks not re-run"
                    else "candidate already ancestor of target; checks not re-run" in
      let rec := bareRecord t c OutcomeLanded detail runID (d_now d) <| rr_MergeSHA :=
        (if String.eqb (t_Landing t) "squash" then
      match w_findLanding w tip (c_Ref c) (c_SHA c) (if String.eqb (c_Source c) "" then c_Version c else "*") with
      | inl sha => sha | inr _ => "" end
    else w_findLandingMerge w tip (c_SHA c)) |> <| rr_Recovered := true |> in
      emit cfg (terminalEvent OutcomeLanded (d_now d) (t_Name t) c runID rec detail) d)) as Q2.
  { unfold newRunID. eapply quiet_l; [exact Q|]. eapply quiet_l; [|apply (emit_terminal OutcomeLanded)]. quiet_field. }
  destruct err as [[|e]|]; [eexists; split; [|exact Q2]| |eexists; split; [|exact Q2]]; set_solver.
Qed.

Lemma cancelMember_quiet t ref rid now m d :
  quiet safe [(eventKindForOutcome (rr_Outcome (rm_rec m)), rm_cand m)] d (cancelMember cfg t ref rid now m d).
Proof.
  unfold cancelMember. cbv zeta. eapply quiet_l; [|apply emit_terminal].
  destruct (String.eqb _ ref); [apply park_quiet|apply quiet_refl].
Qed.

Lemma stampCancel_term ref now m :
  (eventKindForOutcome (rr_Outcome (rm_rec (stampCancel ref now m))), rm_cand (stampCancel ref now m)) =
  (if String.eqb (c_Ref (rm_cand m)) ref then EventRejected else EventSkipped, rm_cand m).
Proof. unfold stampCancel. by destruct (String.eqb _ ref). Qed.

Lemma cancelBatchMember_quiet t r ref d :
  trial_apart r ->
  quiet safe (map (fun m => (if String.eqb (c_Ref (rm_cand m)) ref then EventRejected else EventSkipped, rm_cand m))
                (u_members r)) d (cancelBatchMember cfg t r ref d).
Proof.
  intros Ht. unfold cancelBatchMember. cbv zeta. destruct (materializeChecks_shape r) as (b & ms & Em).
  set (r2 := materializeChecks r <| u_members ::= _ |>).
  assert (trial_apart r2) as Ht2 by (unfold r2; by rewrite Em).
  eapply quiet_l; [apply finalizeRun_quiet, Ht2|]. generalize (finalizeRun cfg r2 d). intros d2.
  assert (u_members r2 = map (fun m => stampCancel ref (d_now d) (m <| rm_rec := ms m |>)) (u_members r)) as ->
    by (unfold r2; rewrite Em; simpl; by rewrite map_map).
  generalize (u_runID r2). intros rid.
  pose proof (fold_quiet (fun m d' => cancelMember cfg t ref rid (d_now d) m d')
    (fun m => [(eventKindForOutcome (rr_Outcome (rm_rec m)), rm_cand m)])
    (map (fun m => stampCancel ref (d_now d) (m <| rm_rec := ms m |>)) (u_members r)) d2
    (fun m d' _ => cancelMember_quiet t ref rid (d_now d) m d')) as Q.
  rewrite concat_singletons, map_map in Q.
  rewrite (map_ext _ _ (fun m => stampCancel_term ref (d_now d) (m <| rm_rec := ms m |>)) (u_members r)) in Q.
  exact Q.
Qed.
End Frames.

(** ** The landing *)

(** The refs that operations on a run may write, none of them [safe]. *)
Definition refs_apart (safe : string -> Prop) (r : run) : Prop :=
  trial_apart safe r /\
  Forall (fun m => c_Source (rm_cand m) = "" -> ~ safe (c_Ref (rm_cand m))) (u_members r).

Lemma refs_apart_weaken (safe safe' : string -> Prop) r :
  (forall x, safe' x -> safe x) -> refs_apart safe r -> refs_apart safe' r.
Proof.
  intros H [Ht Hm]. split; [intros Hn Hs; by apply (Ht Hn), H|]. eapply Forall_impl; [exact Hm|].
  intros m Hc Hn Hs. by apply (Hc Hn), H.
Qed.

Section LandSpec.
Context (cfg : Config) (w : World).

Lemma receiptGate_frame r r' :
  receiptGate cfg w r = inl r' ->
  u_chainTip r' = u_chainTip r /\ u_baseOID r' = u_baseOID r /\ u_trialRef r' = u_trialRef r /\
  rm_cand <$> u_members r' = rm_cand <$> u_members r.
Proof.
  unfold receiptGate. destruct (cfg_ReceiptNotes cfg); [|by intros [= <-]].
  destruct (w_publishNote _ _ _ _) as [[blob fresh]|[err conflict]]; [|done]. intros [= <-].
  split_and!; try done. by apply stamp_cands.
Qed.

Lemma landMember_quiet safe t r m d :
  (c_Source (rm_cand m) = "" -> ~ safe (c_Ref (rm_cand m))) ->
  quiet safe [(EventLanded, rm_cand m)] d (landMember cfg w t r m d).
Proof.
  intros H. unfold landMember. pose proof (releaseSlot_quiet w safe (rm_cand m) (rm_mergeOID m) d H) as Q.
  destruct (releaseSlot w (rm_cand m) (rm_mergeOID m) d) as [err d1]. cbn [snd] in Q. eapply quiet_l; [exact Q|].
  eapply quiet_l; [|apply (emit_terminal cfg safe OutcomeLanded)]. unfold countUrgent. quiet_field.
Qed.

Lemma deleteTrialRefNow_quiet safe r d :
  trial_apart safe r ->
  quiet safe [] d (snd (deleteTrialRefNow r d)) /\ u_trialRef (fst (deleteTrialRefNow r d)) = "".
Proof.
  intros H. unfold deleteTrialRefNow. destruct (String.eqb_spec (u_trialRef r) ""); [split; [apply quiet_refl|done]|].
  split; [|done]. cbn [snd]. eapply quiet_l; [apply cas_quiet; auto|]. split; try done; [|by rewrite app_nil_r].
  intros x Hx. simpl. intros [? [_ Hin]%lookup_delete_Some]. by eexists.
Qed.

Lemma landed_quiet safe t r d :
  trial_apart safe r -> Forall (fun m => c_Source (rm_cand m) = "" -> ~ safe (c_Ref (rm_cand m))) (u_members r) ->
  quiet safe (memberTerms EventLanded r) d (landed cfg w t r d) /\
  u_chainTip r ∈ dom (d_landedPins (landed cfg w t r d)).
Proof.
  intros Ht Hm.
  assert (quiet safe (memberTerms EventLanded r) (d <| d_landedPins ::= <[u_chainTip r := targetRefName t]> |>)
    (landed cfg w t r d)) as Q.
  2: { split; [|apply (qt_landed _ _ _ _ Q); set_solver]. eapply quiet_l; [|exact Q]. split; try done;
       [simpl; set_solver|by rewrite app_nil_r]. }
  unfold landed. cbv zeta.
  set (d1 := governorFeedback _ _ _ _ _ <| d_batchFallback ::= _ |> <| d_batchRecovery ::= _ |>).
  assert (quiet safe [] (d <| d_landedPins ::= <[u_chainTip r := targetRefName t]> |>) d1) as H1
    by (unfold d1; eapply quiet_r; [apply governorFeedback_quiet|quiet_field]).
  clearbody d1. eapply quiet_l; [exact H1|]. eapply quiet_r.
  - unfold memberTerms. rewrite <- concat_singletons.
    apply (fold_quiet safe (fun m d => landMember cfg w t r m d)). intros m d' Hin.
    apply landMember_quiet. rewrite Forall_forall in Hm. by apply Hm.
  - set (d2 := fold_left _ _ _). clearbody d2.
    set (d3 := if u_controlPrepared r then _ else d2).
    assert (quiet safe [] d2 d3) as H3 by (unfold d3; case_match; [apply clearEmergency_quiet|apply quiet_refl]).
    clearbody d3. eapply quiet_l; [exact H3|]. destruct (deleteTrialRefNow_quiet safe r d3 Ht) as [Q E].
    destruct (deleteTrialRefNow r d3) as [r' d4]. cbn [fst snd] in Q, E. eapply quiet_l; [exact Q|].
    apply finalizeRun_quiet. unfold trial_apart. cbn. by rewrite E.
Qed.
End LandSpec.

(** The policy never lands a run. *)
Lemma policyGate_outcome cfg w t r ms d :
  match fst (policyGate cfg w t r ms d) with Some (o, _, _) => o <> OutcomeLanded | None => True end.
Proof.
  revert d. induction ms as [|m ms IH]; intros d; cbn [policyGate]; [done|]. cbv zeta.
  destruct (match freshInputs w r with FreshFor refs => _ | _ => false end); [done|].
  destruct (evaluatePolicy _ _ _ _ _ _ _ _ _ _ _) as [[err|] d']; [done|apply IH].
Qed.

Lemma refs_apart_cands safe r r' :
  refs_apart safe r -> u_trialRef r' = u_trialRef r -> rm_cand <$> u_members r' = rm_cand <$> u_members r ->
  refs_apart safe r'.
Proof.
  intros [Ht Hm] Et Ec. split; [unfold trial_apart; by rewrite Et|].
  change (Forall ((fun c => c_Source c = "" -> ~ safe (c_Ref c)) ∘ rm_cand) (u_members r')).
  apply Forall_fmap. rewrite Ec. by apply Forall_fmap.
Qed.

(** What an attempt to land does to its target and its members. *)
Inductive landing (t : Target) (r : run) (d d' : Daemon) : Prop :=
| landing_refused (o : Outcome) :
    (* a gate or the push failed: the target stands, and no member landed *)
    o <> OutcomeLanded ->
    gr_refs (d_git d') !! targetRefName t = gr_refs (d_git d) !! targetRefName t ->
    terminals (d_events d') = terminals (d_events d) ++ memberTerms (eventKindForOutcome o) r -> landing t r d d'
| landing_done :
    (* the target moved from the run's base to its tip, or was already there *)
    casApplies (targetRefName t) (u_baseOID r) (gr_refs (d_git d)) = true \/
      gr_refs (d_git d) !! targetRefName t = Some (u_chainTip r) ->
    gr_refs (d_git d') !! targetRefName t = Some (u_chainTip r) ->
    u_chainTip r ∈ dom (d_landedPins d') ->
    terminals (d_events d') = terminals (d_events d) ++ memberTerms EventLanded r -> landing t r d d'
| landing_unacknowledged :
    (* the push took effect but its reply was lost: the members are retried,
       and the tip stays pinned for the recovery *)
    casApplies (targetRefName t) (u_baseOID r) (gr_refs (d_git d)) = true ->
    gr_refs (d_git d') !! targetRefName t = Some (u_chainTip r) ->
    u_chainTip r ∈ dom (d_landedPins d') ->
    terminals (d_events d') = terminals (d_events d) ++ memberTerms EventSkipped r -> landing t r d d'.

Lemma casWrite_self ref new refs : new <> "" -> casWrite ref new refs !! ref = Some new.
Proof. intros H. unfold casWrite. apply String.eqb_neq in H as ->. apply lookup_insert_eq. Qed.

Section LandSpec2.
Context (cfg : Config) (w : World) (t : Target).
Let tgt := eq (targetRefName t).

(** A run that goes on with the same chain and members lands like the original. *)
Lemma landing_via r r' d0 d d' :
  quiet tgt [] d0 d -> u_baseOID r' = u_baseOID r -> u_chainTip r' = u_chainTip r ->
  rm_cand <$> u_members r' = rm_cand <$> u_members r -> landing t r' d d' -> landing t r d0 d'.
Proof.
  intros Q Hb Ht Hc Hl. pose proof (qt_refs _ _ _ _ Q (targetRefName t) eq_refl) as Hr.
  pose proof (qt_terms _ _ _ _ Q) as Hts. rewrite app_nil_r in Hts.
  assert (casApplies (targetRefName t) (u_baseOID r) (gr_refs (d_git d)) =
          casApplies (targetRefName t) (u_baseOID r) (gr_refs (d_git d0))) as Ea by (unfold casApplies; by rewrite Hr).
  pose proof (fun k => memberTerms_cands k r' r Hc) as Hm.
  destruct Hl as [o Ho H1 H2|H1 H2 H3 H4|H1 H2 H3 H4]; rewrite ?Hb, ?Ht, ?Hm, ?Ea, ?Hr, ?Hts in *.
  - by eapply landing_refused.
  - by eapply landing_done.
  - by eapply landing_unacknowledged.
Qed.

Lemma finishRun_refused r o detail parkIt d :
  o <> OutcomeLanded -> trial_apart tgt r -> landing t r d (finishRun cfg t r o detail parkIt d).
Proof.
  intros Ho Ht. pose proof (finishRun_quiet cfg tgt t r o detail parkIt d Ht) as Q.
  apply (landing_refused _ _ _ _ o Ho); [apply (qt_refs _ _ _ _ Q); done|apply (qt_terms _ _ _ _ Q)].
Qed.

Lemma landed_done r d d0 :
  refs_apart (eq (targetRefName t)) r -> gr_refs (d_git d) !! targetRefName t = Some (u_chainTip r) ->
  terminals (d_events d) = terminals (d_events d0) ->
  casApplies (targetRefName t) (u_baseOID r) (gr_refs (d_git d0)) = true \/
    gr_refs (d_git d0) !! targetRefName t = Some (u_chainTip r) ->
  landing t r d0 (landed cfg w t r d).
Proof.
  intros [Ht Hm] Hg Hts Hb. destruct (landed_quiet cfg w tgt t r d Ht Hm) as [Q Hp].
  apply landing_done; [exact Hb| |exact Hp|].
  - by rewrite (qt_refs _ _ _ _ Q (targetRefName t) eq_refl).
  - by rewrite (qt_terms _ _ _ _ Q), Hts.
Qed.
Lemma pushTarget_landing r d :
  refs_apart (eq (targetRefName t)) r -> u_chainTip r <> "" -> landing t r d (pushTarget cfg w t r d).
Proof.
  intros Ha Hn. unfold pushTarget, cas. pose proof (CASUpdate_spec (targetRefName t) (u_baseOID r) (u_chainTip r) (d_git d)) as H.
  destruct (CASUpdate _ _ _ _) as [err g'].
  assert (casApplies (targetRefName t) (u_baseOID r) (gr_refs (d_git d)) = true /\
            gr_refs g' !! targetRefName t = Some (u_chainTip r) \/
          gr_refs g' !! targetRefName t = gr_refs (d_git d) !! targetRefName t) as Hor.
  { destruct H as [[->|[Hc ->]] _]; [by right|left]. by rewrite casWrite_self. }
  destruct H as [_ H], Ha as [Ht Hm]. destruct err as [[|e]|].
  - eapply (landing_via r r); [|done..|apply finishRun_refused; [discriminate|exact Ht]].
    split; try done; [|by rewrite app_nil_r]. intros ref _. simpl. by destruct H as [-> _].
  - set (d1 := d <| d_git := g' |> <| d_landedPins ::= <[u_chainTip r := targetRefName t]> |>).
    pose proof (finishRun_quiet cfg tgt t r OutcomeSkipped ("land: push target: " +:+ e +:+ "; slot kept, retried next tick")
      false d1 Ht) as Q.
    pose proof (qt_refs _ _ _ _ Q (targetRefName t) eq_refl) as Hr. destruct Hor as [[Hc Hg]|Hg].
    + apply landing_unacknowledged; [exact Hc|rewrite Hr; exact Hg| |apply (qt_terms _ _ _ _ Q)].
      apply (qt_landed _ _ _ _ Q). simpl. set_solver.
    + apply (landing_refused _ _ _ _ OutcomeSkipped); [done|rewrite Hr; exact Hg|apply (qt_terms _ _ _ _ Q)].
  - apply String.eqb_neq in Hn. rewrite Hn in H. apply landed_done; [done|exact H|done|].
    destruct Hor as [[? _]|Hg]; [by left|right; by rewrite <- Hg].
Qed.
End LandSpec2.

(** The landing relation, or nothing on a paused target. *)
Lemma landRun_cases cfg w t r d :
  refs_apart (eq (targetRefName t)) r -> u_chainTip r <> "" ->
  let d' := landRun cfg w t r d in
  (if isSome (cs_Pauses (d_controls d) !! t_Name t) && negb (u_overridePause r) then d' = d else landing t r d d') /\
  (gr_refs (d_git d') !! targetRefName t <> gr_refs (d_git d) !! targetRefName t ->
   (cs_Pauses (d_controls d) !! t_Name t = None \/ u_overridePause r = true) /\
   reviewGate cfg w r = None /\ fst (policyGate cfg w t r (u_members r) d) = None /\
   exists r', receiptGate cfg w r = inl r').
Proof.
  intros Ha Hn d'. unfold d', landRun. clear d'.
  destruct (isSome (cs_Pauses (d_controls d) !! t_Name t) && negb (u_overridePause r)) eqn:Hp; [by split|].
  assert (cs_Pauses (d_controls d) !! t_Name t = None \/ u_overridePause r = true) as Hp'.
  { destruct (cs_Pauses (d_controls d) !! t_Name t); [|by left]. right. by destruct (u_overridePause r). }
  assert (forall o detail parkIt d1, quiet (eq (targetRefName t)) [] d d1 ->
    gr_refs (d_git (finishRun cfg t r o detail parkIt d1)) !! targetRefName t = gr_refs (d_git d) !! targetRefName t) as Hf.
  { intros o detail parkIt d1 Q. apply (qt_refs _ _ _ _ (quiet_l _ _ _ _ _ Q
      (finishRun_quiet cfg _ t r o detail parkIt d1 (proj1 Ha)))). done. }
  destruct (reviewGate cfg w r) as [err|] eqn:Hrv.
  { split; [apply finishRun_refused; [done|apply Ha]|]. rewrite Hf by apply quiet_refl. done. }
  pose proof (policyGate_quiet cfg w (eq (targetRefName t)) t r (u_members r) d) as Qp.
  pose proof (policyGate_outcome cfg w t r (u_members r) d) as Ho.
  destruct (policyGate cfg w t r (u_members r) d) as [[[[o detail] parkIt]|] d1] eqn:Hpg; cbn [fst snd] in *.
  { split; [|by rewrite Hf]. eapply landing_via; [exact Qp|done..|]. apply finishRun_refused; [exact Ho|apply Ha]. }
  destruct (receiptGate cfg w r) as [r'|detail] eqn:Hrc.
  2: { split; [|by rewrite Hf]. eapply landing_via; [exact Qp|done..|]. apply finishRun_refused; [done|apply Ha]. }
  destruct (receiptGate_frame cfg w r r' Hrc) as (Ec & Eb & Et & Em). split; [|by eauto].
  eapply landing_via; [exact Qp|exact Eb|exact Ec|exact Em|]. apply pushTarget_landing; [|by rewrite Ec].
  by eapply refs_apart_cands.
Qed.

(** C2. A run landing on its target: if the target is paused and the run does
    not override the pause, nothing happens. Otherwise the target ref is left
    alone and every member gets the same non-landed terminal event, or the
    target moves by one compare-and-swap from the run's base commit to the
    chain tip that was tested (or was already there) and every member gets one
    landed event, or the push took effect with its reply lost and every member
    is skipped with the tip kept pinned. A run moves the target only when the
    fresh review validation, the landing policy of every member and the
    receipt note all passed. *)
Theorem landRun_correct cfg w t r d :
  refs_apart (eq (targetRefName t)) r -> u_chainTip r <> "" ->
  let d' := landRun cfg w t r d in
  (if isSome (cs_Pauses (d_controls d) !! t_Name t) && negb (u_overridePause r) then d' = d else landing t r d d') /\
  (gr_refs (d_git d') !! targetRefName t <> gr_refs (d_git d) !! targetRefName t ->
   (cs_Pauses (d_controls d) !! t_Name t = None \/ u_overridePause r = true) /\
   reviewGate cfg w r = None /\ fst (policyGate cfg w t r (u_members r) d) = None /\
   exists r', receiptGate cfg w r = inl r').
Proof. apply landRun_cases. Qed.

Lemma landRun_landing cfg w t r d :
  refs_apart (eq (targetRefName t)) r -> u_chainTip r <> "" ->
  landRun cfg w t r d = d \/ landing t r d (landRun cfg w t r d).
Proof.
  intros Ha Hn. pose proof (proj1 (landRun_cases cfg w t r d Ha Hn)) as H. destruct (_ && _) in H; auto.
Qed.

(** The demo remote: the target at the run's base, and the candidate's slot. *)
Definition demoLanding : Daemon :=
  demoDaemon <| d_git := mkGit {[ "refs/heads/main" := "b0"; "refs/heads/for/main/a" := "s1" ]} [] |>.

Definition demoTarget : Target := mkTarget "main" "main" "merge" "serial" 1 1 "serial" None.

Lemma landRun_correct_witness :
  let d' := landRun demoConfig demoWorld demoTarget demoRun demoLanding in
  gr_refs (d_git d') = {[ "refs/heads/main" := "m1" ]} /\ landing demoTarget demoRun demoLanding d'.
Proof.
  intros d'. split; [vm_compute; reflexivity|].
  refine (proj1 (landRun_correct demoConfig demoWorld demoTarget demoRun demoLanding _ _)).
  - split; [discriminate|]. apply Forall_singleton. discriminate.
  - discriminate.
Defined.
