(* ===== verification/Lane.v ===== *)
(** Lanes ([src/internal/queue/reconcile.go] and the cancel half of
    command.go): admitting candidates into runs, in the serial, batch and
    speculate modes; advancing the runs in flight; discarding what became
    invalid; cancelling. A lane is the list of a target's runs, front first. *)
From S2P Require Import Prelude GoString Core Slots Daemon Controls CheckGraph Scheduling Spec Governor Trial Landing.

Open Scope string_scope.
Open Scope list_scope.
Open Scope Z_scope.

Section Lane.
Context (cfg : Config) (w : World).
Implicit Types (d : Daemon) (r : run) (t : Target) (c : Candidate).

(** src/internal/queue/reconcile.go:1380-1385 [startRun] *)
Definition setLane (target : string) (runs : list run) d : Daemon := d <| d_lanes ::= <[target := runs]> |>.

(** ** Starting a run *)

(** src/internal/queue/landing.go:413-426 [restoreMtimes] *)
Definition restoreMtimes (oid : string) : option string :=
  if cfg_HistoryMtimes cfg then w_mtimes w oid else None.

(** src/internal/queue/reconcile.go:1300-1317 [startRun] The shared workspace,
    unless the spec isolates its nodes. *)
Definition exportWorkspace (spec : CheckSpec) (oid tree : string) : option string :=
  if Isolated spec then None
  else match w_mkdir w with
       | Some e => Some ("export tree: mkdir temp: " +:+ e)
       | None => match w_export w tree with
                 | Some e => Some ("export tree: " +:+ e)
                 | None => match restoreMtimes oid with
                           | Some e => Some ("restore mtimes: " +:+ e)
                           | None => None
                           end
                 end
       end.

(** src/internal/queue/reconcile.go:1265-1290 [startRun] The spec of the trial
    tree, past the gates that reject it before any command runs. *)
Definition loadSpec (tree : string) : CheckSpec + (Outcome * string) :=
  let bad e := inr (OutcomeRejected, "check spec " +:+ quoted (cfg_CheckSpec cfg) +:+ ": " +:+ e) in
  match w_readFile w tree (cfg_CheckSpec cfg) with
  | inr e => bad e
  | inl data =>
      match ParseChecks w data with
      | inr e => bad e
      | inl spec =>
          match SpecRejectReason spec (cfg_Services cfg) (cfg_KnownExecutorProfile cfg) (cfg_ImageCapableProfile cfg)
                  (isSome (cfg_ReceiptNotes cfg)) (cfg_RemoteExecutorProfile cfg) with
          | Some reason => inr (OutcomeRejected, reason)
          | None => inl spec
          end
      end
  end.

(** src/internal/queue/reconcile.go:1260-1334 [startRun] From the merge commit
    to the point where checks can start: pin, spec, execution policy,
    workspace, trial ref. The batch path, lines 825-903, does the same steps with
    its own [pinError] prefix. *)
Definition setupTrial t (base runID oid tree pinError : string) (members : list Candidate) d
  : (CheckSpec * string + (Outcome * string)) * Daemon :=
  match w_pin w oid with
  | Some e => (inr (OutcomeError, pinError +:+ e), d)
  | None =>
      let d := d <| d_pins ::= (fun s => s ∪ {[oid]}) |> in
      match loadSpec tree with
      | inr e => (inr e, d)
      | inl spec =>
          match executionPolicy cfg w t base oid members d with
          | (Some e, d) => (inr (OutcomeRejected, e), d)
          | (None, d) =>
              match exportWorkspace spec oid tree with
              | Some e => (inr (OutcomeError, e), d)
              | None =>
                  if cfg_TrialRefs cfg then
                    match createTrialRef cfg runID oid d with
                    | (inl ref, d) => (inl (spec, ref), d)
                    | (inr e, d) => (inr (OutcomeError, "publish trial ref: " +:+ e), d)
                    end
                  else (inl (spec, ""), d)
              end
          end
      end
  end.

(** src/internal/queue/reconcile.go:1336-1370 [startRun] A run with nothing started. *)
Definition newRun t (members : list runMember) (base tip tree : string) (predicted : bool)
    (batchID runID : string) (spec : CheckSpec) (trialRef : string) : run :=
  mkRun f64_zero "" "" false false (t_Name t) members base tip tree predicted batchID runID
    (buildRunNodes spec) (effectiveMaxParallel spec) ∅ ∅ ∅ "" ∅ false None "" "" "" (Isolated spec)
    verdictNone false trialRef.

(** src/internal/queue/reconcile.go:406-413 [advanceLane] Members' pause
    overrides, as they are now. *)
Definition noteOverride r : run :=
  fold_left (fun r m =>
    let c := rm_cand m in
    if c_OverridePause c then
      let r := r <| u_overridePause := true |> in
      if c_SkipChecks c then r
      else r <| u_pauseOverrideReason := c_Requester c +:+ ": " +:+ c_RequestReason c |>
    else r) (u_members r) r.

(** src/internal/queue/reconcile.go:405-416 [advanceLane] *)
Definition stepRun r d : run * Daemon :=
  let r := prepareEmergency cfg d (noteOverride r) in
  advanceChecks cfg (w_keep w r) (runPriority d r) r d.

(** src/internal/queue/reconcile.go:1374-1397 [startRun] *)
Definition joinLane t r d : run * Daemon :=
  let d := if cfg_TrialRefs cfg
           then emit cfg (event EventTrialMerged (d_now d) (t_Name t) (headCand r) (u_runID r)
                            <| e_MergeSHA := u_chainTip r |>) d else d in
  let '(r', d') := stepRun r d in
  (r', setLane (t_Name t) (lane_of d (t_Name t) ++ [r']) d').

(** src/internal/queue/reconcile.go:1229-1229 [startRun] *)
Definition conflicts (trial : TrialMerge) : string := String.concat ", " (tm_Conflicts trial).

(** src/internal/queue/reconcile.go:1167-1397 [startRun] *)
Definition startRun t (base : string) c (predicted : bool) (conflictDetail : string) d : option run * Daemon :=
  match w_retain w [c_SHA c] with
  | Some e => (None, rejectPreMerge cfg t c OutcomeError ("retain source: " +:+ e) d)
  | None =>
      match buildChainLink cfg w (t_Name t) base c None [] "" d with
      | (LinkError e, _, d) =>
          (None, if predicted
                 then skipPreMergePredicted cfg t c ("predicted-base build error (retesting once real): " +:+ e) d
                 else rejectPreMerge cfg t c OutcomeError e d)
      | (LinkConflict trial, _, d) =>
          let detail := (if String.eqb conflictDetail "" then "trial merge conflict" else conflictDetail)
                        +:+ ": " +:+ conflicts trial in
          (None, if predicted
                 then skipPreMergePredicted cfg t c (detail +:+ "; re-queuing for retest against the real tip") d
                 else rejectPreMerge cfg t c OutcomeConflict detail d)
      | (LinkClean link trial, runID, d) =>
          let oid := cl_mergeOID link in
          match setupTrial t base runID oid (tm_TreeOID trial) "pin trial merge: " [c] d with
          | (inr (o, detail), d) => (None, rejectRun cfg t c runID base oid trial o detail d)
          | (inl (spec, trialRef), d) =>
              let rec := zeroRunRecord <| rr_RunID := runID |> <| rr_Target := t_Name t |> <| rr_Candidate := c |>
                           <| rr_BaseOID := base |> <| rr_MergeSHA := oid |> <| rr_Trial := trial |>
                           <| rr_StartedAt := d_now d |> <| rr_Speculated := predicted |> in
              let '(r, d) := joinLane t (newRun t [mkMember c oid rec] base oid (tm_TreeOID trial) predicted
                                           "" runID spec trialRef) d in
              (Some r, d)
          end
      end
  end.

(** ** Batches *)

(** Where building a batch's chain stopped: every pick linked (or the check spec
    changed), or a later candidate failed and ends the batch before it, or the
    head failed and there is no batch. *)
Inductive Chain :=
  | ChainBuilt (links : list (chainLink * TrialMerge))
  | ChainNone.

(** src/internal/queue/reconcile.go:750-798 [startBatchRun] [base] is the chain
    so far and [specTree] the tree whose spec it was last compared with. *)
Fixpoint buildChain t (body : Candidate -> option string) (group : list string) (picked : list Candidate)
    (base specTree runID : string) (links : list (chainLink * TrialMerge)) d : Chain * string * Daemon :=
  let stopped := match links with [] => ChainNone | _ => ChainBuilt links end in
  match picked with
  | [] => (stopped, runID, d)
  | c :: rest =>
      match buildChainLink cfg w (t_Name t) base c (body c) group runID d with
      | (LinkError e, runID, d) => (stopped, runID, rejectPreMerge cfg t c OutcomeError e d)
      | (LinkConflict trial, runID, d) =>
          (stopped, runID, rejectPreMerge cfg t c OutcomeConflict ("trial merge conflict: " +:+ conflicts trial) d)
      | (LinkClean link trial, runID, d) =>
          let links := links ++ [(link, trial)] in
          if specChanged cfg w specTree (tm_TreeOID trial) then (ChainBuilt links, runID, d)
          else buildChain t body group rest (cl_mergeOID link) (tm_TreeOID trial) runID links d
      end
  end.

(** src/internal/queue/reconcile.go:901-921 [finishBatchStart] *)
Definition batchMembers t (runID base : string) (now : Z) (links : list (chainLink * TrialMerge)) : list runMember :=
  map (fun p => mkMember (cl_cand (fst p)) (cl_mergeOID (fst p)) (snd p))
    (chainRecords t runID (length links) 0 base now links).

(** src/internal/queue/reconcile.go:809-971 [finishBatchStart] *)
Definition finishBatchStart t (base runID : string) (links : list (chainLink * TrialMerge)) d : Daemon :=
  match last links with
  | None => d
  | Some (tip, tipTrial) =>
      let cands := map (fun p => cl_cand (fst p)) links in
      match w_retain w (map c_SHA cands) with
      | Some e => rejectBatch cfg t base runID links OutcomeError ("retain sources: " +:+ e) d
      | None =>
          let oid := cl_mergeOID tip in
          let tree := tm_TreeOID tipTrial in
          match setupTrial t base runID oid tree "pin trial chain: " cands d with
          | (inr (o, detail), d) => rejectBatch cfg t base runID links o detail d
          | (inl (spec, trialRef), d) =>
              snd (joinLane t (newRun t (batchMembers t runID base (d_now d) links) base oid tree false
                                 runID runID spec trialRef) d)
          end
      end
  end.

(** src/internal/queue/reconcile.go:710-805 [startBatchRun] *)
Definition startBatchRun t (targetTip : string) (picked : list Candidate) d : Daemon :=
  match w_retain w (map c_SHA picked) with
  | Some e => fold_left (fun d c => rejectPreMerge cfg t c OutcomeError ("retain sources: " +:+ e) d) picked d
  | None =>
      let body c := if String.eqb (t_Landing t) "squash" then None else Some (w_mergeBody w c targetTip) in
      match buildChain t body [w_batchKey w picked] picked targetTip targetTip "" [] d with
      | (ChainNone, _, d) => d
      | (ChainBuilt links, runID, d) => finishBatchStart t targetTip runID links d
      end
  end.

(** ** Refill *)

(** src/internal/queue/reconcile.go:1130-1138 [refillSpeculate] A candidate of an empty lane that is already in target history is recovered
    instead of tested. *)
Definition headLanded t c (targetTip : string) (start : Daemon -> Daemon) d : Daemon :=
  match candidateLanded w t c targetTip with
  | inr e => rejectPreMerge cfg t c OutcomeError ("is-ancestor: " +:+ e) d
  | inl true => recoverLanded cfg w t c targetTip d
  | inl false => start d
  end.

(** src/internal/queue/reconcile.go:653-670 [refillSerialOne] *)
Definition refillSerialOne t (targetTip : string) (cands : gmap string Candidate) d : Daemon :=
  match pickHead d (t_Name t) cands with
  | None => d
  | Some c => headLanded t c targetTip (fun d => snd (startRun t targetTip c false "" d)) d
  end.

(** src/internal/queue/reconcile.go:674-705 [refillBatch] *)
Definition refillBatch t (targetTip : string) (cands : gmap string Candidate) d : Daemon :=
  let '(maxBatch, d) := adaptiveLimit (w_pressure w) t d in
  let maxBatch := if 0 <? ci_Backoff (circuitOf d (t_Name t)) then 1 else maxBatch in
  let limit := d_batchRecovery d !!! t_Name t else 0 in
  let maxBatch := if 0 <? limit then Z.min maxBatch limit else maxBatch in
  match pickUpTo d (t_Name t) cands maxBatch ∅ with
  | [] => d
  | c :: rest => headLanded t c targetTip (startBatchRun t targetTip (c :: rest)) d
  end.

(** src/internal/queue/reconcile.go:1099-1161 [refillSpeculate] One more run on
    top of the last one, until the window is full; [fuel] is the room left. *)
Fixpoint extendWindow (fuel : nat) t (targetTip : string) (cands : gmap string Candidate) d : Daemon :=
  match fuel with
  | O => d
  | S fuel =>
      let runs := lane_of d (t_Name t) in
      let inFlight : gset string := list_to_set (map (fun r => c_Ref (headCand r)) runs) in
      match pickNext d (t_Name t) cands inFlight with
      | None => d
      | Some c =>
          let go base predicted detail d :=
            match startRun t base c predicted detail d with
            | (Some _, d) => extendWindow fuel t targetTip cands d
            | (None, d) => d
            end in
          match last runs with
          | None => headLanded t c targetTip (go targetTip false "") d
          | Some p => go (u_chainTip p) true ("conflicts with in-flight " +:+ c_Topic (headCand p) +:+ "@"
                                              +:+ c_SHA (headCand p) +:+ " (predicted base)") d
          end
      end
  end.

(** src/internal/queue/reconcile.go:1075-1162 [refillSpeculate] *)
Definition refillSpeculate t (targetTip : string) (cands : gmap string Candidate) d : Daemon :=
  if cs_Uncertain (d_controls d) || circuitBlocked d (t_Name t) then d
  else if 0 <? ci_Backoff (circuitOf d (t_Name t)) then
    match lane_of d (t_Name t) with [] => refillSerialOne t targetTip cands d | _ => d end
  else
    let '(window, d) := adaptiveLimit (w_pressure w) t d in
    extendWindow (Z.to_nat (window - Z.of_nat (length (lane_of d (t_Name t))))) t targetTip cands d.

(** src/internal/queue/reconcile.go:621-649 [refillLane] *)
Definition refillLane t (targetTip : string) (cands : gmap string Candidate) d : Daemon :=
  if d_draining d then d
  else if String.eqb (t_Mode t) "speculate" then refillSpeculate t targetTip cands d
  else match lane_of d (t_Name t) with
  | _ :: _ => d
  | [] =>
      if cs_Uncertain (d_controls d) || circuitBlocked d (t_Name t) then d
      else if String.eqb (t_Mode t) "batch" && negb (d_batchFallback d !!! t_Name t else false)
      then refillBatch t targetTip cands d
      else refillSerialOne t targetTip cands d
  end.

(** ** Advancing *)

(** src/internal/queue/reconcile.go:365-375 [runInvalidated] *)
Definition runInvalidated r (head : bool) (targetTip : string) (cands : gmap string Candidate) : option string :=
  match find_index (fun m => match cands !! c_Ref (rm_cand m) with
                       | None => true
                       | Some cur => negb (String.eqb (c_SHA cur) (c_SHA (rm_cand m)))
                                     || negb (String.eqb (c_Version cur) (c_Version (rm_cand m)))
                       end) (u_members r) with
  | Some (_, m) => Some ("candidate ref " +:+ c_Ref (rm_cand m) +:+ " moved or vanished mid-run (Invariant 5)")
  | None => if head && negb (String.eqb targetTip (u_baseOID r))
            then Some ("target " +:+ u_target r +:+ " moved mid-run (Invariant 5)") else None
  end.

(** src/internal/queue/reconcile.go:396-401 [advanceLane] The first invalid run
    and why. *)
Fixpoint findInvalid (i : nat) (runs : list run) (targetTip : string) (cands : gmap string Candidate)
  : option (nat * string) :=
  match runs with
  | [] => None
  | r :: rest =>
      match runInvalidated r (i =? 0)%nat targetTip cands with
      | Some reason => Some (i, reason)
      | None => findInvalid (S i) rest targetTip cands
      end
  end.

(** src/internal/queue/reconcile.go:487-493 [invalidateSuffix] The lane is cut
    at [i] by the caller. *)
Definition skipRuns t (runs : list run) (reason : string) d : Daemon :=
  fold_left (fun d r => finishRun cfg t (cancelRun d r) OutcomeSkipped reason false d) runs d.

(** src/internal/queue/reconcile.go:405-416 [advanceLane] *)
Fixpoint stepRuns (runs : list run) d : list run * Daemon :=
  match runs with
  | [] => ([], d)
  | r :: rest =>
      let '(r, d) := stepRun r d in
      let '(rest, d) := stepRuns rest d in
      (r :: rest, d)
  end.

(** src/internal/queue/reconcile.go:449-449 [advanceLane] *)
Definition redVerdict r : bool :=
  match u_verdict r with verdictRejected | verdictErrored => true | _ => false end.

(** src/internal/queue/reconcile.go:448-465 [advanceLane] *)
Definition concludeRedRun t (head : Candidate) (i : nat) r d : Daemon :=
  if (1 <? length (u_members r))%nat then finishBatchRed cfg t r d
  else if (i =? 0)%nat then let '(o, detail) := runRejectOutcome r in finishRun cfg t r o detail true d
  else finishRun cfg t r OutcomeSkipped
         ("red on predicted base (behind " +:+ c_Topic head +:+ "@" +:+ c_SHA head +:+ "); re-queuing for retest") false d.

(** src/internal/queue/reconcile.go:471-477 [advanceLane] *)
Fixpoint landPrefix t (runs : list run) d : bool * Daemon :=
  match runs with
  | r :: rest =>
      if bool_decide (u_verdict r = verdictGreen)
      then (true, snd (landPrefix t rest (setLane (t_Name t) rest (landRun cfg w t r d))))
      else (false, d)
  | [] => (false, d)
  end.

(** src/internal/queue/reconcile.go:393-478 [advanceLane] Whether a run
    concluded, which ends the target's pass. *)
Definition advanceLane t (targetTip : string) (cands : gmap string Candidate) d : bool * Daemon :=
  let runs := lane_of d (t_Name t) in
  match findInvalid 0 runs targetTip cands with
  | Some (i, reason) => (true, setLane (t_Name t) (take i runs) (skipRuns t (drop i runs) reason d))
  | None =>
      let '(runs, d) := stepRuns runs d in
      let d := setLane (t_Name t) runs d in
      match find_index redVerdict runs with
      | Some (i, r) =>
          let head := match runs with h :: _ => headCand h | [] => zeroCandidate end in
          let d := skipRuns t (drop (S i) runs) "pipeline bubble" (concludeRedRun t head i r d) in
          (true, setLane (t_Name t) (take i runs) d)
      | None =>
          if cs_Uncertain (d_controls d) || circuitBlocked d (t_Name t) then (false, d)
          else landPrefix t runs d
      end
  end.

(** ** Cancelling *)

(** src/internal/queue/command.go:203-215 [cancelInFlight] *)
Definition cancelInFlight (target : string) (i : nat) (r : run) (ref : string) d : Daemon :=
  let t := bareTarget target in
  let runs := lane_of d target in
  let r := cancelRun d r in
  let d := if (1 <? length (u_members r))%nat then cancelBatchMember cfg t r ref d
           else finishRun cfg t r OutcomeRejected cancelDetail true d in
  let d := skipRuns t (drop (S i) runs) "pipeline bubble: operator cancelled a run ahead of it" d in
  setLane target (take i runs) d.

(** src/internal/queue/command.go:269-297 [cancelWaiting] *)
Definition cancelWaiting (target ref : string) (refs : gmap string string) d : Daemon :=
  match refs !! ref with
  | None => d
  | Some sha =>
      let c := zeroCandidate <| c_Ref := ref |> <| c_Target := target |> <| c_SHA := sha |> in
      let c := match parseCandidateRef ref with
               | Some (t, user, topic) => if String.eqb t target then c <| c_User := user |> <| c_Topic := topic |> else c
               | None => c
               end in
      let c := match d_external d !! ref with
               | Some review => if String.eqb (c_Target review) target then review else c
               | None => c
               end in
      if match done_of d target !! ref with
         | Some entry => String.eqb (pk_SHA entry) sha && String.eqb (pk_Version entry) (c_Version c)
         | None => false
         end then d
      else
        let '(runID, d) := newRunID cfg sha d in
        let rec := bareRecord (bareTarget target) c OutcomeRejected cancelDetail runID (d_now d) in
        let d := park target c OutcomeRejected cancelDetail runID d in
        emit cfg (terminalEvent OutcomeRejected (d_now d) target c runID rec cancelDetail) d
  end.

(** src/internal/queue/command.go:157-170 [applyCancel] *)
Definition applyCancel (cmd : Command) (refs : gmap string string) d : Daemon :=
  match find_index (fun r => existsb (fun m => String.eqb (c_Ref (rm_cand m)) (m_Ref cmd)) (u_members r))
          (lane_of d (m_Target cmd)) with
  | Some (i, r) => cancelInFlight (m_Target cmd) i r (m_Ref cmd) d
  | None => cancelWaiting (m_Target cmd) (m_Ref cmd) refs d
  end.
End Lane.

(** ** Frames *)

(** What a run keeps while it is in flight. *)
Definition ident (r : run) : string * string * string * string * string * list (Candidate * string) :=
  (u_target r, u_baseOID r, u_chainTip r, u_trialRef r, u_runID r,
   map (fun m => (rm_cand m, rm_mergeOID m)) (u_members r)).

(** [d'] looks like [d] with its lane replaced; [ts] are the terminal events. *)
Definition moves (safe : string -> Prop) (ts : list (EventKind * Candidate)) (target : string) (runs : list run)
    (d d' : Daemon) : Prop := quiet safe ts (setLane target runs d) d'.

Section LaneFrames.
Context (cfg : Config) (w : World) (safe : string -> Prop).
Implicit Types (d : Daemon) (r : run) (t : Target) (c : Candidate).

Lemma ident_members r r' f :
  u_target r' = u_target r -> u_baseOID r' = u_baseOID r -> u_chainTip r' = u_chainTip r ->
  u_trialRef r' = u_trialRef r -> u_runID r' = u_runID r ->
  u_members r' = map f (u_members r) -> (forall m, rm_cand (f m) = rm_cand m /\ rm_mergeOID (f m) = rm_mergeOID m) ->
  ident r' = ident r.
Proof.
  intros E1 E2 E3 E4 E5 E6 Hf. unfold ident. rewrite E1, E2, E3, E4, E5, E6, map_map. f_equal.
  apply map_ext. intros m. by destruct (Hf m) as [-> ->].
Qed.

Lemma materializeChecks_ident r : ident (materializeChecks r) = ident r.
Proof. destruct (materializeChecks_frame r) as [->| ->]; [done|]. by eapply ident_members. Qed.

Lemma consume_ident checks r d : ident (fst (consume cfg checks r d)) = ident r.
Proof.
  revert r d. induction checks as [|k rest IH]; intros r d; cbn [consume]; [done|].
  pose proof (consumeOne_cases cfg k r d) as H. destruct (consumeOne cfg k r d) as [r1 d1]. rewrite IH.
  by destruct H as [_ [[-> _]|(? & ? & ? & ? & ? & _ & _ & ->)]].
Qed.

Lemma startReady_ident rank checks cap denied r d :
  ident (fst (startReady cfg rank checks cap denied r d)) = ident r.
Proof.
  revert cap denied r d. induction checks as [|k rest IH]; intros cap denied r d; cbn [startReady]; [done|].
  case_match; [done|]. case_match; [apply IH|]. destruct (if denied then _ else _) as [[] slots].
  - pose proof (startCheck_frame cfg rank k r (d <| d_slots := slots |>)) as Hs.
    destruct (startCheck cfg rank k r _) as [r1 d1]. destruct Hs as [_ ->]. by rewrite IH.
  - rewrite IH. by case_match.
Qed.

Lemma concludeRed_ident r : ident (concludeRed r) = ident r.
Proof. unfold concludeRed. case_match; [|done]. cbv zeta. exact (materializeChecks_ident r). Qed.

Lemma concludeGreen_ident r d : ident (fst (concludeGreen cfg r d)) = ident r.
Proof.
  unfold concludeGreen. case_match; [|done]. cbv zeta. case_match; exact (materializeChecks_ident r).
Qed.

Lemma findCulprit_ident d r : ident (findCulprit d r) = ident r.
Proof. unfold findCulprit. destruct (negb _); [done|]. by destruct (find_index _ _) as [[? ?]|]. Qed.

Lemma advanceChecks_ident keep rank r d : ident (fst (advanceChecks cfg keep rank r d)) = ident r.
Proof.
  unfold advanceChecks. destruct (keepExecutions cfg keep r d) as [[] d0]; [|done]. cbn [negb].
  case_match; [done|]. pose proof (consume_ident (u_checks r) r d0) as Hc.
  destruct (consume cfg (u_checks r) r d0) as [r1 d1]. cbn [fst] in Hc. rewrite <- Hc, <- (findCulprit_ident d1 r1).
  case_match; [exact (concludeRed_ident _)|].
  match goal with |- context [startReady cfg ?a ?b ?c ?e ?f ?g] =>
    pose proof (startReady_ident a b c e f g) as Hs; destruct (startReady cfg a b c e f g) as [r2 d2] end.
  cbn [fst] in Hs. rewrite <- Hs. apply concludeGreen_ident.
Qed.

Lemma noteOverride_ident r : ident (noteOverride r) = ident r.
Proof.
  unfold noteOverride. generalize (u_members r) at 1. intros ms. revert r.
  induction ms as [|m ms IH]; intros r; simpl; [done|]. rewrite IH. repeat case_match; done.
Qed.

Lemma prepareEmergency_ident d r : ident (prepareEmergency cfg d r) = ident r.
Proof. unfold prepareEmergency. repeat case_match; done. Qed.

Lemma stepRun_ident r d : ident (fst (stepRun cfg w r d)) = ident r.
Proof. unfold stepRun. cbv zeta. by rewrite advanceChecks_ident, prepareEmergency_ident, noteOverride_ident. Qed.

Lemma cancelRun_ident d r : ident (cancelRun d r) = ident r.
Proof. done. Qed.

Lemma consume_quiet checks r d : quiet safe [] d (snd (consume cfg checks r d)).
Proof.
  revert r d. induction checks as [|k rest IH]; intros r d; cbn [consume]; [apply quiet_refl|].
  assert (quiet safe [] d (snd (consumeOne cfg k r d))) as H.
  { unfold consumeOne. case_match; [|apply quiet_refl]. case_match; [|apply quiet_refl].
    destruct (validateImage _ _ _) as [? ?]. destruct (validateReceipt _ _ _ _) as [? ?]. by apply emit_quiet_nt. }
  destruct (consumeOne cfg k r d) as [r1 d1]. eapply quiet_l; [exact H|apply IH].
Qed.

Lemma startReady_quiet rank checks cap denied r d :
  quiet safe [] d (snd (startReady cfg rank checks cap denied r d)).
Proof.
  revert cap denied r d. induction checks as [|k rest IH]; intros cap denied r d; cbn [startReady]; [apply quiet_refl|].
  case_match; [apply quiet_refl|]. case_match; [apply IH|]. destruct (if denied then _ else _) as [[] slots]; [|apply IH].
  unfold startCheck. eapply quiet_l; [|apply IH]. eapply quiet_l; [|by apply emit_quiet_nt].
  eapply (quiet_l _ _ _ (d <| d_slots := slots |>)); [quiet_field|].
  unfold markCircuitProbe. repeat case_match; first [apply quiet_refl|apply saveControls_quiet].
Qed.

Lemma advanceChecks_quiet keep rank r d : quiet safe [] d (snd (advanceChecks cfg keep rank r d)).
Proof.
  unfold advanceChecks. assert (quiet safe [] d (snd (keepExecutions cfg keep r d))) as Hk
    by (unfold keepExecutions; repeat case_match; first [apply quiet_refl|quiet_field]).
  destruct (keepExecutions cfg keep r d) as [[] d0]; [|exact Hk]. cbn [negb snd] in *.
  case_match; [exact Hk|]. pose proof (consume_quiet (u_checks r) r d0) as Hc.
  destruct (consume cfg (u_checks r) r d0) as [r1 d1]. cbn [snd] in Hc. eapply quiet_l; [exact Hk|].
  case_match; [exact Hc|]. eapply quiet_l; [exact Hc|].
  match goal with |- context [startReady cfg ?a ?b ?c ?e ?f ?g] =>
    pose proof (startReady_quiet a b c e f g) as Hs; destruct (startReady cfg a b c e f g) as [r2 d2] end.
  cbn [snd] in Hs. eapply quiet_l; [exact Hs|]. unfold concludeGreen. case_match; [|apply quiet_refl]. cbv zeta.
  case_match; [by apply emit_quiet_nt|apply quiet_refl].
Qed.

Lemma stepRun_quiet r d : quiet safe [] d (snd (stepRun cfg w r d)).
Proof. apply advanceChecks_quiet. Qed.
End LaneFrames.

Section StartFrames.
Context (cfg : Config) (w : World) (safe : string -> Prop).
Context (Htrial : forall id, ~ safe (trialRefName cfg id)).
Implicit Types (d : Daemon) (r : run) (t : Target) (c : Candidate).

Lemma rememberPrepared_quiet key entry d : quiet safe [] d (snd (rememberPrepared cfg w key entry d)).
Proof. unfold rememberPrepared. repeat case_match; first [apply quiet_refl|apply saveControls_quiet|unfold setLastError; quiet_field]. Qed.

Lemma onClean_quiet name c tree restored runID d : quiet safe [] d (snd (onClean cfg name c tree restored runID d)).
Proof.
  unfold onClean. destruct (negb (String.eqb runID "")); [by apply emit_quiet_nt|].
  destruct (String.eqb restored ""); [|by apply emit_quiet_nt]. unfold newRunID.
  eapply quiet_l; [|by apply emit_quiet_nt]. quiet_field.
Qed.

Lemma buildChainLink_quiet name base c body group runID d :
  quiet safe [] d (snd (buildChainLink cfg w name base c body group runID d)).
Proof.
  unfold buildChainLink. cbv zeta. destruct (w_trial w base c) as [trial|e]; [|apply quiet_refl].
  destruct (negb _); [apply quiet_refl|].
  match goal with |- context [onClean cfg ?a ?b ?x ?y ?z d] => pose proof (onClean_quiet a b x y z d) as Q;
    destruct (onClean cfg a b x y z d) as [id d1] end. cbn [snd] in Q.
  case_match; [exact Q|]. destruct (buildMergeMessage _ _ _ _) as [msg|]; [|exact Q].
  destruct (if linearTarget cfg name then _ else _) as [msg'|]; [|exact Q].
  destruct (w_commit _ _ _ _ _) as [oid|]; [|exact Q].
  match goal with |- context [rememberPrepared cfg w ?a ?b d1] => pose proof (rememberPrepared_quiet a b d1) as Q2;
    destruct (rememberPrepared cfg w a b d1) as [[] d2] end; cbn [snd] in *; eapply quiet_l; eauto.
Qed.

Lemma setupTrial_quiet t base runID oid tree pe members d :
  match setupTrial cfg w t base runID oid tree pe members d with
  | (inl (_, ref), d') => quiet safe [] d d' /\ (ref <> "" -> ~ safe ref)
  | (inr _, d') => quiet safe [] d d'
  end.
Proof.
  unfold setupTrial. destruct (w_pin w oid); [apply quiet_refl|]. cbv zeta.
  set (d1 := d <| d_pins ::= _ |>). assert (quiet safe [] d d1) as Q1 by quiet_field. clearbody d1.
  destruct (loadSpec cfg w tree) as [spec|]; [|exact Q1].
  assert (quiet safe [] d1 (snd (executionPolicy cfg w t base oid members d1))) as Q2.
  { unfold executionPolicy. match goal with |- context [recordPolicyDecision ?a ?b ?x ?y ?z ?u ?v ?s d1] =>
      pose proof (recordPolicyDecision_quiet a b safe x y z u v s d1) as Q;
      destruct (recordPolicyDecision a b x y z u v s d1) as [[] d2] end; cbn [negb snd] in *; [|exact Q].
    repeat case_match; exact Q. }
  destruct (executionPolicy cfg w t base oid members d1) as [[e|] d2]; cbn [snd] in Q2;
    pose proof (quiet_l _ _ _ _ _ Q1 Q2) as Q; [exact Q|].
  destruct (exportWorkspace cfg w spec oid tree); [exact Q|]. destruct (cfg_TrialRefs cfg); [|by split].
  pose proof (cas_quiet safe (trialRefName cfg runID) "" oid d2 (Htrial runID)) as Q3. unfold createTrialRef.
  destruct (cas _ "" oid d2) as [[[|e]|] d3]; cbn [snd] in Q3; [..|split; [|auto]]; eapply quiet_l; eauto.
Qed.

Lemma moves_set target runs d d1 : quiet safe [] d d1 -> moves safe [] target runs d (setLane target runs d1).
Proof. intros []. split; try done. simpl. by rewrite qt_lanes. Qed.

Lemma moves_set_ts ts target runs d d1 : quiet safe ts d d1 -> moves safe ts target runs d (setLane target runs d1).
Proof. intros []. split; try done. simpl. by rewrite qt_lanes. Qed.

Lemma joinLane_moves t r d :
  let '(r', d') := joinLane cfg w t r d in
  ident r' = ident r /\ moves safe [] (t_Name t) (lane_of d (t_Name t) ++ [r']) d d'.
Proof.
  unfold joinLane. set (d1 := if cfg_TrialRefs cfg then _ else d).
  assert (quiet safe [] d d1) as Q1 by (unfold d1; case_match; [by apply emit_quiet_nt|apply quiet_refl]).
  clearbody d1. pose proof (stepRun_ident cfg w r d1) as Hi. pose proof (stepRun_quiet cfg w safe r d1) as Q2.
  destruct (stepRun cfg w r d1) as [r' d2]. cbn [fst snd] in *. split; [exact Hi|].
  assert (lane_of d1 (t_Name t) = lane_of d (t_Name t)) as -> by (unfold lane_of; by rewrite (qt_lanes _ _ _ _ Q1)).
  apply moves_set. eapply quiet_l; eauto.
Qed.

(** What admitting a run for one candidate does. *)
Lemma startRun_spec t base c predicted detail d :
  match startRun cfg w t base c predicted detail d with
  | (None, d') => exists k, quiet safe [(k, c)] d d'
  | (Some r, d') => u_target r = t_Name t /\ u_baseOID r = base /\ rm_cand <$> u_members r = [c] /\
      trial_apart safe r /\ moves safe [] (t_Name t) (lane_of d (t_Name t) ++ [r]) d d'
  end.
Proof.
  unfold startRun. destruct (w_retain w [c_SHA c]); [eexists; apply rejectPreMerge_quiet|].
  pose proof (buildChainLink_quiet (t_Name t) base c None [] "" d) as Q.
  destruct (buildChainLink _ _ _ _ _ _ _ _ d) as [[[e|trial|link trial] runID] d1]; cbn [snd] in Q.
  - destruct predicted; eexists; (eapply quiet_l; [exact Q|]); [apply skipPreMergePredicted_quiet|apply rejectPreMerge_quiet].
  - cbv zeta. destruct predicted; eexists; (eapply quiet_l; [exact Q|]); [apply skipPreMergePredicted_quiet|apply rejectPreMerge_quiet].
  - cbv zeta. pose proof (setupTrial_quiet t base runID (cl_mergeOID link) (tm_TreeOID trial) "pin trial merge: " [c] d1) as Hs.
    destruct (setupTrial _ _ _ _ _ _ _ _ _ d1) as [[[spec ref]|[o msg]] d2].
    2: { eexists. eapply quiet_l; [eapply quiet_l; [exact Q|exact Hs]|apply rejectRun_quiet]. }
    destruct Hs as [Q2 Href]. pose proof (quiet_l _ _ _ _ _ Q Q2) as Q3.
    match goal with |- context [joinLane cfg w t ?r d2] => pose proof (joinLane_moves t r d2) as Hj;
      destruct (joinLane cfg w t r d2) as [r' d3] end. destruct Hj as [Hi Hm].
    unfold ident in Hi. injection Hi as E1 E2 E3 E4 E5 E6. split_and!; [exact E1|exact E2| | |].
    + destruct (u_members r') as [|m [|? ?]]; simpl in E6; [done| |done]. simplify_eq. simpl. congruence.
    + unfold trial_apart. rewrite E4. exact Href.
    + replace (lane_of d (t_Name t)) with (lane_of d2 (t_Name t)) by (unfold lane_of; by rewrite (qt_lanes _ _ _ _ Q3)).
      unfold moves in *. eapply quiet_l; [|exact Hm]. destruct Q3. split; try done. simpl. by rewrite qt_lanes.
Qed.
End StartFrames.
