(* ===== verification/LaneSpec.v ===== *)
(** What holds of every lane the queue can build: the theorems about Lane.v. *)
From S2P Require Import Prelude GoString Core Slots Daemon Controls CheckGraph Scheduling Spec Governor Trial Landing Lane.

Open Scope string_scope.
Open Scope list_scope.
Open Scope Z_scope.

(** A candidate map is keyed by ref, and no slot is the target's own ref. *)
Definition cands_ok (safe : string -> Prop) (cands : gmap string Candidate) : Prop :=
  forall ref c, cands !! ref = Some c -> c_Ref c = ref /\ (c_Source c = "" -> ~ safe ref).

Definition laneCands (l : list run) : list Candidate := concat (map (fun r => rm_cand <$> u_members r) l).

(** Each run is tested on top of the chain tip of the run before it. *)
Definition chained (l : list run) : Prop :=
  forall i r r', l !! i = Some r -> l !! S i = Some r' -> u_baseOID r' = u_chainTip r.

(** How many runs a target's mode allows, and of how many members. *)
Definition mode_ok (t : Target) (l : list run) : Prop :=
  if String.eqb (t_Mode t) "speculate" then Forall (fun r => length (u_members r) = 1%nat) l else (length l <= 1)%nat.

(** The lane invariant of a target: its runs have members, belong to it, are
    stacked on each other's tips and own no protected ref. Outside an operator's
    emergency ([strict]) no ref is tested twice either, and only a speculating
    target has more than one run, each then of a single member. *)
Record lane_when (strict : Prop) (safe : string -> Prop) (t : Target) (l : list run) : Prop := {
  lo_target : Forall (fun r => u_target r = t_Name t) l;
  lo_members : Forall (fun r => u_members r <> []) l;
  lo_refs : strict -> NoDup (c_Ref <$> laneCands l);
  lo_chained : chained l;
  lo_mode : strict -> mode_ok t l;
  lo_apart : Forall (refs_apart safe) l;
}.

Definition lane_ok : (string -> Prop) -> Target -> list run -> Prop := lane_when True.

Lemma lane_ok_nil strict safe t : lane_when strict safe t [].
Proof. split; try constructor; try done. intros _. unfold mode_ok. case_match; [constructor|simpl; lia]. Qed.

Lemma laneCands_app l1 l2 : laneCands (l1 ++ l2) = laneCands l1 ++ laneCands l2.
Proof. unfold laneCands. by rewrite map_app, concat_app. Qed.

Lemma ident_cands r r' : ident r' = ident r -> rm_cand <$> u_members r' = rm_cand <$> u_members r.
Proof.
  unfold ident. intros [= _ _ _ _ _ H]. apply (f_equal (map fst)) in H. by rewrite !map_map in H.
Qed.

(** The invariant only reads what a run keeps while in flight. *)
Lemma lane_ok_ident strict safe t l l' :
  Forall2 (fun r r' => ident r' = ident r) l l' -> lane_when strict safe t l -> lane_when strict safe t l'.
Proof.
  intros H [Ht Hm Hr Hc Hs Ha].
  assert (forall r r', ident r' = ident r ->
    u_target r' = u_target r /\ u_baseOID r' = u_baseOID r /\ u_chainTip r' = u_chainTip r /\ u_trialRef r' = u_trialRef r) as Hi
    by (unfold ident; intros r r' [=]; auto).
  assert (forall P : run -> Prop, (forall r r', ident r' = ident r -> P r -> P r') -> Forall P l -> Forall P l') as Hall.
  { intros P HP. clear - H HP. induction H; intros Hf; [done|]. inversion Hf; subst. constructor; eauto. }
  split.
  - revert Ht. apply Hall. intros r r' E. by destruct (Hi r r' E) as [-> _].
  - revert Hm. apply Hall. intros r r' E. pose proof (ident_cands r r' E) as Ec. intros Hn Hz.
    rewrite Hz in Ec. by destruct (u_members r).
  - replace (laneCands l') with (laneCands l); [done|]. unfold laneCands. f_equal. clear - H.
    induction H; [done|]. cbn. f_equal; [|done]. symmetry. by apply ident_cands.
  - intros i r r' E1 E2. eapply Forall2_lookup_r in E1 as (r0 & E0 & I0); [|exact H].
    eapply Forall2_lookup_r in E2 as (r1 & E1 & I1); [|exact H].
    destruct (Hi _ _ I1) as (_ & -> & _), (Hi _ _ I0) as (_ & _ & -> & _). eauto.
  - intros Hst. specialize (Hs Hst). unfold mode_ok in *. rewrite <- (Forall2_length _ _ _ H). case_match; [|done]. revert Hs. apply Hall. intros r r' E Hlen.
    pose proof (f_equal length (ident_cands r r' E)) as El. rewrite !length_fmap in El. congruence.
  - revert Ha. apply Hall. intros r r' E Hr'. eapply refs_apart_cands; [exact Hr'|apply Hi; done|by apply ident_cands].
Qed.

Lemma laneCands_sub l1 l2 : l1 `sublist_of` l2 -> laneCands l1 `sublist_of` laneCands l2.
Proof.
  induction 1 as [|r l1 l2 _ IH|r l1 l2 _ IH]; [done| |]; unfold laneCands in *; cbn.
  - by apply sublist_app.
  - by apply sublist_inserts_l.
Qed.

Lemma lane_ok_take strict safe t l i : lane_when strict safe t l -> lane_when strict safe t (take i l).
Proof.
  intros [Ht Hm Hr Hc Hs Ha]. assert (take i l `sublist_of` l) as Hsub by apply sublist_take.
  split; try by apply Forall_take.
  - intros Hst. eapply sublist_NoDup; [by apply Hr|]. by apply sublist_fmap, laneCands_sub.
  - intros j r r' [E1 _]%lookup_take_Some [E2 _]%lookup_take_Some. eauto.
  - intros Hst. specialize (Hs Hst). unfold mode_ok in *. case_match; [by apply Forall_take|]. rewrite length_take. lia.
Qed.

Lemma lane_ok_drop strict safe t l i : lane_when strict safe t l -> lane_when strict safe t (drop i l).
Proof.
  intros [Ht Hm Hr Hc Hs Ha]. assert (drop i l `sublist_of` l) as Hsub by apply sublist_drop.
  split; try by apply Forall_drop.
  - intros Hst. eapply sublist_NoDup; [by apply Hr|]. by apply sublist_fmap, laneCands_sub.
  - intros j r r'. rewrite !lookup_drop. replace (i + S j)%nat with (S (i + j)) by lia. eauto.
  - intros Hst. specialize (Hs Hst). unfold mode_ok in *. case_match; [by apply Forall_drop|]. rewrite length_drop. lia.
Qed.

(** Adding a run for fresh candidates on top of the lane. *)
Lemma lane_ok_snoc strict safe t l r :
  lane_when strict safe t l -> u_target r = t_Name t -> u_members r <> [] ->
  (strict -> NoDup (c_Ref <$> (rm_cand <$> u_members r))) ->
  (strict -> forall c, c ∈ rm_cand <$> u_members r -> c_Ref c ∉ c_Ref <$> laneCands l) ->
  (forall p, last l = Some p -> u_baseOID r = u_chainTip p) ->
  (strict -> mode_ok t (l ++ [r])) -> refs_apart safe r ->
  lane_when strict safe t (l ++ [r]).
Proof.
  intros [Ht Hm Hr Hc Hs Ha] Et Em Hn Hf Hb H1 Hap.
  split; try (apply Forall_app; split; [done|]; by apply Forall_singleton); try done.
  - intros Hst. rewrite laneCands_app, fmap_app. apply NoDup_app. split_and!; [by apply Hr| |].
    + intros x Hx Hy. unfold laneCands in Hy. cbn in Hy. rewrite app_nil_r in Hy.
      apply list_elem_of_fmap in Hy as (c & -> & Hc'). by apply (Hf Hst c).
    + unfold laneCands. cbn. rewrite app_nil_r. by apply Hn.
  - intros i a b E1 E2. apply lookup_app_Some in E2 as [E2|[Hle E2]].
    + rewrite lookup_app_l in E1; [eauto|]. apply lookup_lt_Some in E2. lia.
    + destruct (S i - length l)%nat eqn:Ed; [|done]. cbn in E2. injection E2 as <-. apply Hb.
      rewrite last_lookup. replace (pred (length l)) with i by lia.
      rewrite lookup_app_l in E1; [done|]. lia.
Qed.

Lemma pickUpTo_facts safe d target cands n inFlight :
  cands_ok safe cands ->
  let cs := pickUpTo d target cands n inFlight in
  NoDup (c_Ref <$> cs) /\ (forall c, c ∈ cs -> cands !! c_Ref c = Some c /\ c_Ref c ∉ inFlight).
Proof.
  intros Hk. cbv zeta. unfold pickUpTo.
  destruct (pickRefs_spec d target cands (keys_of cands) n inFlight) as ([Hnd Hfrom _] & _).
  destruct (pick_sorted d target cands inFlight (keys_of cands) (reflexivity _)) as (Hel & _). cbv zeta in Hel.
  assert (forall ref, ref ∈ pickRefs d target cands (keys_of cands) n inFlight ->
    exists c, cands !! ref = Some c /\ c_Ref c = ref /\ ref ∉ inFlight) as H.
  { intros ref Hin. apply Hfrom, Hel in Hin. unfold eligible in Hin. destruct (cands !! ref) as [c|] eqn:E; [|done].
    exists c. split; [done|]. split; [by eapply Hk|]. rewrite !andb_true_iff in Hin. destruct Hin as [_ Hin].
    by apply negb_true_iff, bool_decide_eq_false in Hin. }
  revert Hnd H. generalize (pickRefs d target cands (keys_of cands) n inFlight). clear. intros l Hnd H.
  split.
  - induction Hnd as [|ref l Hr Hnd IH]; [constructor|]. cbn.
    destruct (H ref (list_elem_of_here _ _)) as (c & E & Ec & _). rewrite E. simpl. rewrite Ec. constructor.
    + intros Hin. apply list_elem_of_fmap in Hin as (c' & E' & Hc'). apply list_elem_of_In, in_map_iff in Hc' as (ref' & <- & Hr').
      apply list_elem_of_In in Hr'. destruct (H ref' (list_elem_of_further _ _ _ Hr')) as (c2 & E2 & Ec2 & _).
      rewrite E2 in E'. simpl in E'. congruence.
    + apply IH. intros ref' Hr'. apply H. by apply list_elem_of_further.
  - intros c Hc. apply list_elem_of_In, in_map_iff in Hc as (ref & <- & Hr).
    apply list_elem_of_In in Hr. destruct (H ref Hr) as (c & E & Ec & Hi). rewrite E. simpl. by rewrite Ec.
Qed.

(** Everything but the lanes, as in [quiet]. *)
Definition calm (safe : string -> Prop) (ts : list (EventKind * Candidate)) (d d' : Daemon) : Prop :=
  quiet safe ts (d <| d_lanes := d_lanes d' |>) d'.

Definition others_kept (target : string) (d d' : Daemon) : Prop :=
  forall t, t <> target -> lane_of d' t = lane_of d t.

Lemma quiet_calm safe ts d d' : quiet safe ts d d' -> calm safe ts d d'.
Proof. intros []. by split. Qed.

Lemma calm_trans safe ts1 ts2 d1 d2 d3 : calm safe ts1 d1 d2 -> calm safe ts2 d2 d3 -> calm safe (ts1 ++ ts2) d1 d3.
Proof.
  intros H1 H2. unfold calm in *. eapply quiet_trans; [|exact H2]. destruct H1. by split.
Qed.

Lemma quiet_lane safe ts d d' t : quiet safe ts d d' -> lane_of d' t = lane_of d t.
Proof. intros Q. unfold lane_of. by rewrite (qt_lanes _ _ _ _ Q). Qed.

Lemma moves_facts safe ts target runs d d' :
  moves safe ts target runs d d' -> calm safe ts d d' /\ lane_of d' target = runs /\ others_kept target d d'.
Proof.
  unfold moves. intros Q. split_and!.
  - destruct Q. by split.
  - rewrite (quiet_lane _ _ _ _ _ Q). unfold lane_of, setLane. simpl. by rewrite lookup_insert_eq.
  - intros t Ht. rewrite (quiet_lane _ _ _ _ _ Q). unfold lane_of, setLane. simpl. by rewrite lookup_insert_ne.
Qed.

(** What refilling a lane may do to it. *)
Definition refilled (strict : Prop) (safe : string -> Prop) (t : Target) (d d' : Daemon) : Prop :=
  (exists ts, calm safe ts d d') /\ others_kept (t_Name t) d d' /\
  lane_when strict safe t (lane_of d' (t_Name t)) /\ lane_of d (t_Name t) `prefix_of` lane_of d' (t_Name t).

Lemma buildChainLink_cand cfg w name base c body group runID d :
  match fst (fst (buildChainLink cfg w name base c body group runID d)) with
  | LinkClean link _ => cl_cand link = c
  | _ => True
  end.
Proof.
  unfold buildChainLink. cbv zeta. destruct (w_trial w base c) as [trial|e]; [|done]. destruct (negb _); [done|].
  destruct (onClean _ _ _ _ _ _ _) as [id d1]. destruct (_ && _); [done|]. destruct (buildMergeMessage _ _ _ _) as [msg|]; [|done].
  destruct (if linearTarget cfg name then _ else _) as [msg'|]; [|done]. destruct (w_commit _ _ _ _ _); [|done].
  by destruct (rememberPrepared _ _ _ _ _) as [[] d2].
Qed.

Section Refill.
Context (strict : Prop) (cfg : Config) (w : World) (safe : string -> Prop) (t : Target).
Context (Htrial : forall id, ~ safe (trialRefName cfg id)).
Implicit Types (d : Daemon) (r : run) (c : Candidate).

Lemma refilled_quiet ts d d' :
  lane_when strict safe t (lane_of d (t_Name t)) -> quiet safe ts d d' -> refilled strict safe t d d'.
Proof.
  intros Hok Q. split_and!; [eexists; by apply quiet_calm|intros ? _; by eapply quiet_lane| |];
    rewrite (quiet_lane _ _ _ _ _ Q); done.
Qed.

Lemma refilled_trans d1 d2 d3 :
  refilled strict safe t d1 d2 -> refilled strict safe t d2 d3 -> refilled strict safe t d1 d3.
Proof.
  intros ([ts1 C1] & K1 & _ & P1) ([ts2 C2] & K2 & Hok & P2). split_and!; [|intros ? H; by rewrite K2, K1|done|by etrans].
  eexists. eapply calm_trans; eauto.
Qed.

(** The lane with a freshly admitted run on top. *)
Lemma refilled_join ts d d' r :
  lane_when strict safe t (lane_of d (t_Name t) ++ [r]) ->
  moves safe ts (t_Name t) (lane_of d (t_Name t) ++ [r]) d d' -> refilled strict safe t d d'.
Proof.
  intros Hok Hm. apply moves_facts in Hm as (Hc & Hl & Ho). split_and!; [by eexists|done|by rewrite Hl|].
  rewrite Hl. by apply prefix_app_r.
Qed.

(** A new run for candidates of the map that are not in the lane yet. *)
Lemma join_ok d r base cs :
  lane_when strict safe t (lane_of d (t_Name t)) -> u_target r = t_Name t -> u_baseOID r = base ->
  rm_cand <$> u_members r = cs -> cs <> [] -> (strict -> NoDup (c_Ref <$> cs)) ->
  Forall (fun c => (c_Source c = "" -> ~ safe (c_Ref c)) /\
                   (strict -> c_Ref c ∉ c_Ref <$> laneCands (lane_of d (t_Name t)))) cs ->
  (forall p, last (lane_of d (t_Name t)) = Some p -> base = u_chainTip p) ->
  (strict -> if String.eqb (t_Mode t) "speculate" then length cs = 1%nat else lane_of d (t_Name t) = []) ->
  trial_apart safe r ->
  lane_when strict safe t (lane_of d (t_Name t) ++ [r]).
Proof.
  intros Hok Et Eb <- Hne Hnd Hf Hl H1 Ha. rewrite Forall_forall in Hf. apply lane_ok_snoc; auto.
  - intros E. apply Hne. by rewrite E.
  - intros Hst c Hc. by apply Hf.
  - intros p Hp. rewrite Eb. auto.
  - intros Hst. pose proof (lo_mode strict safe t _ Hok Hst) as Hm. specialize (H1 Hst). unfold mode_ok in *. case_match; [|by rewrite H1].
    rewrite length_fmap in H1. apply Forall_app. split; [done|]. by apply Forall_singleton.
  - split; [done|]. apply Forall_forall. intros m Hm. apply Hf. by apply list_elem_of_fmap_2.
Qed.

Lemma startRun_refilled base c predicted detail d :
  lane_when strict safe t (lane_of d (t_Name t)) -> (c_Source c = "" -> ~ safe (c_Ref c)) ->
  (strict -> c_Ref c ∉ c_Ref <$> laneCands (lane_of d (t_Name t))) ->
  (forall p, last (lane_of d (t_Name t)) = Some p -> base = u_chainTip p) ->
  (t_Mode t = "speculate" \/ lane_of d (t_Name t) = []) ->
  let '(o, d') := startRun cfg w t base c predicted detail d in
  refilled strict safe t d d' /\
  (forall r, o = Some r -> exists r', lane_of d' (t_Name t) = lane_of d (t_Name t) ++ [r'] /\ rm_cand <$> u_members r' = [c]).
Proof.
  intros Hok Hs Hn Hb H1. pose proof (startRun_spec cfg w safe Htrial t base c predicted detail d) as H.
  destruct (startRun cfg w t base c predicted detail d) as [[r|] d'].
  - destruct H as (Et & Eb & Ec & Ha & Hm).
    assert (lane_when strict safe t (lane_of d (t_Name t) ++ [r])) as Hok'.
    { eapply (join_ok d r base [c]); auto; try (by apply Forall_singleton); [intros _; apply NoDup_singleton|]. intros _.
      destruct (String.eqb_spec (t_Mode t) "speculate"); [done|]. by destruct H1. }
    split; [by eapply refilled_join|]. intros _ _. exists r. by apply moves_facts in Hm as (_ & -> & _).
  - destruct H as [k Q]. split; [by eapply refilled_quiet|done].
Qed.

Lemma headLanded_refilled c tip start d :
  lane_when strict safe t (lane_of d (t_Name t)) -> (c_Source c = "" -> ~ safe (c_Ref c)) ->
  refilled strict safe t d (start d) -> refilled strict safe t d (headLanded cfg w t c tip start d).
Proof.
  intros Hok Hs H. unfold headLanded. destruct (candidateLanded w t c tip) as [[]|e]; [|done|].
  - destruct (recoverLanded_quiet cfg w safe t c tip d Hs) as (ts & _ & Q).
    by eapply refilled_quiet.
  - eapply refilled_quiet; [done|apply rejectPreMerge_quiet].
Qed.

(** The chain a batch builds covers a prefix of the picks. *)
Lemma buildChain_spec body group picked base specTree runID links d :
  let '(ch, _, d') := buildChain cfg w t body group picked base specTree runID links d in
  (exists ts, quiet safe ts d d') /\
  match ch with
  | ChainNone => True
  | ChainBuilt ls => ls <> [] /\
      exists n, map (fun p => cl_cand (fst p)) ls = map (fun p => cl_cand (fst p)) links ++ take n picked
  end.
Proof.
  assert (forall links : list (chainLink * TrialMerge),
    match (match links with [] => ChainNone | _ => ChainBuilt links end) with
    | ChainNone => True
    | ChainBuilt ls => ls <> [] /\ exists n, map (fun p => cl_cand (fst p)) ls = map (fun p => cl_cand (fst p)) links ++ take n picked
    end) as Hstop by (intros [|? ?]; [done|]; split; [done|]; exists O; by rewrite take_0, app_nil_r).
  revert base specTree runID links d Hstop. induction picked as [|c rest IH]; intros base specTree runID links d Hstop.
  { cbn [buildChain]. split; [eexists; apply quiet_refl|apply Hstop]. }
  cbn [buildChain]. cbv zeta.
  pose proof (buildChainLink_quiet cfg w safe (t_Name t) base c (body c) group runID d) as Q.
  pose proof (buildChainLink_cand cfg w (t_Name t) base c (body c) group runID d) as Hc.
  destruct (buildChainLink _ _ _ _ _ _ _ _ d) as [[[e|trial|link trial] runID'] d1]; cbn [fst snd] in Q, Hc.
  1, 2: split; [eexists; eapply quiet_l; [exact Q|apply rejectPreMerge_quiet]|apply Hstop].
  destruct (specChanged _ _ _ _).
  - split; [by eexists|]. split; [by destruct links|]. exists 1%nat. rewrite map_app. simpl. by rewrite Hc, take_0.
  - specialize (IH (cl_mergeOID link) (tm_TreeOID trial) runID' (links ++ [(link, trial)]) d1).
    destruct (buildChain _ _ _ _ _ rest _ _ _ _ d1) as [[ch id] d2]. destruct IH as [[ts Q2] IH].
    { intros [|x l]; [done|]. split; [done|]. exists O. by rewrite take_0, app_nil_r. }
    split; [eexists; eapply quiet_l; eauto|]. destruct ch as [ls|]; [|done]. destruct IH as [Hne [n Hn]].
    split; [done|]. exists (S n). rewrite Hn, map_app, <- app_assoc. simpl. by rewrite Hc.
Qed.

Lemma batchMembers_cands runID base now links :
  rm_cand <$> batchMembers t runID base now links = map (fun p => cl_cand (fst p)) links.
Proof.
  unfold batchMembers. rewrite <- (chainRecords_cands t runID (length links) 0 base now links).
  by rewrite <- list_fmap_compose.
Qed.

Lemma finishBatchStart_refilled base runID links cs d :
  lane_of d (t_Name t) = [] -> (strict -> t_Mode t <> "speculate") -> links <> [] ->
  map (fun p => cl_cand (fst p)) links = cs -> (strict -> NoDup (c_Ref <$> cs)) ->
  Forall (fun c => c_Source c = "" -> ~ safe (c_Ref c)) cs ->
  refilled strict safe t d (finishBatchStart cfg w t base runID links d).
Proof.
  intros Hl Hmode Hne Hcs Hnd Hs. assert (lane_when strict safe t (lane_of d (t_Name t))) as Hok by (rewrite Hl; apply lane_ok_nil).
  unfold finishBatchStart. destruct (last links) as [[tip trial]|] eqn:El.
  2: { apply last_None in El. done. }
  cbv zeta. destruct (w_retain w _); [eapply refilled_quiet; [done|apply rejectBatch_quiet]|].
  match goal with |- context [setupTrial cfg w t base ?a ?b ?x ?y ?z d] =>
    pose proof (setupTrial_quiet cfg w safe Htrial t base a b x y z d) as Hst;
    destruct (setupTrial cfg w t base a b x y z d) as [[[spec ref]|[o msg]] d1] end.
  2: { eapply refilled_quiet; [done|]. eapply quiet_l; [exact Hst|apply rejectBatch_quiet]. }
  destruct Hst as [Q Href]. match goal with |- context [joinLane cfg w t ?r d1] =>
    pose proof (joinLane_moves cfg w safe t r d1) as Hj; destruct (joinLane cfg w t r d1) as [r' d2] end.
  destruct Hj as [Hi Hm]. cbn [snd]. pose proof (ident_cands _ _ Hi) as Hc. simpl in Hc.
  change (map rm_cand ?l) with (rm_cand <$> l) in Hc. rewrite batchMembers_cands, Hcs in Hc.
  unfold ident in Hi. injection Hi as E1 E2 E3 E4 E5 E6.
  assert (lane_of d1 (t_Name t) = []) as Hl1 by (by rewrite (quiet_lane _ _ _ _ _ Q)).
  eapply (refilled_trans _ d1); [by eapply refilled_quiet|]. eapply refilled_join; [|exact Hm].
  eapply (join_ok d1 r' base cs); try done.
  - rewrite Hl1. apply lane_ok_nil.
  - intros ->. by destruct links.
  - rewrite Hl1. eapply Forall_impl; [exact Hs|]. intros c H. split; [done|]. intros _. apply not_elem_of_nil.
  - by rewrite Hl1.
  - intros Hst. specialize (Hmode Hst). by destruct (String.eqb_spec (t_Mode t) "speculate").
  - unfold trial_apart. rewrite E4. simpl. exact Href.
Qed.

Lemma startBatchRun_refilled tip picked d :
  lane_of d (t_Name t) = [] -> (strict -> t_Mode t <> "speculate") -> (strict -> NoDup (c_Ref <$> picked)) ->
  Forall (fun c => c_Source c = "" -> ~ safe (c_Ref c)) picked ->
  refilled strict safe t d (startBatchRun cfg w t tip picked d).
Proof.
  intros Hl Hmode Hnd Hs. assert (lane_when strict safe t (lane_of d (t_Name t))) as Hok by (rewrite Hl; apply lane_ok_nil).
  unfold startBatchRun. destruct (w_retain w _).
  { eapply refilled_quiet; [done|].
    apply (fold_quiet safe (fun c d => rejectPreMerge cfg t c OutcomeError _ d) (fun c => [(EventError, c)])).
    intros c d' _. apply (rejectPreMerge_quiet cfg safe t c OutcomeError). }
  cbv zeta. match goal with |- context [buildChain cfg w t ?a ?b picked ?x ?y ?z ?u d] =>
    pose proof (buildChain_spec a b picked x y z u d) as Hb; destruct (buildChain cfg w t a b picked x y z u d) as [[ch id] d1] end.
  destruct Hb as [[ts Q] Hb]. assert (refilled strict safe t d d1) as Hr by (by eapply refilled_quiet).
  destruct ch as [ls|]; [|done]. destruct Hb as [Hne [n Hn]]. simpl in Hn.
  eapply refilled_trans; [exact Hr|]. eapply (finishBatchStart_refilled _ _ _ (take n picked)); try done.
  - by rewrite (quiet_lane _ _ _ _ _ Q).
  - intros Hst. eapply sublist_NoDup; [by apply Hnd|]. apply sublist_fmap, sublist_take.
  - by apply Forall_take.
Qed.

Lemma adaptiveLimit_quiet pressure d : quiet safe [] d (snd (adaptiveLimit pressure t d)).
Proof. unfold adaptiveLimit. cbv zeta. cbn [snd]. quiet_field. Qed.

Lemma pickHead_ok cands d c inFlight n :
  cands_ok safe cands -> head (pickUpTo d (t_Name t) cands n inFlight) = Some c ->
  (c_Source c = "" -> ~ safe (c_Ref c)) /\ c_Ref c ∉ inFlight.
Proof.
  intros Hk Hh. destruct (pickUpTo_facts safe d (t_Name t) cands n inFlight Hk) as [_ H]. cbv zeta in H.
  destruct (pickUpTo d (t_Name t) cands n inFlight) as [|x l]; [done|]. simpl in Hh. simplify_eq.
  destruct (H c (list_elem_of_here _ _)) as [Hc Hi]. split; [|done]. by apply (Hk (c_Ref c) c).
Qed.

Lemma refillSerialOne_refilled tip cands d :
  cands_ok safe cands -> lane_of d (t_Name t) = [] -> refilled strict safe t d (refillSerialOne cfg w t tip cands d).
Proof.
  intros Hk Hl. assert (lane_when strict safe t (lane_of d (t_Name t))) as Hok by (rewrite Hl; apply lane_ok_nil).
  unfold refillSerialOne. destruct (pickHead d (t_Name t) cands) as [c|] eqn:Ep; [|eapply refilled_quiet; [done|apply quiet_refl]].
  destruct (pickHead_ok cands d c ∅ 1 Hk Ep) as [Hs _]. apply headLanded_refilled; [done|done|].
  pose proof (startRun_refilled tip c false "" d Hok Hs) as H. rewrite Hl in H.
  specialize (H (fun _ => not_elem_of_nil _) ltac:(done) ltac:(by right)).
  destruct (startRun cfg w t tip c false "" d) as [o d']. by destruct H.
Qed.

Lemma refillBatch_refilled tip cands d :
  cands_ok safe cands -> lane_of d (t_Name t) = [] -> t_Mode t <> "speculate" ->
  refilled strict safe t d (refillBatch cfg w t tip cands d).
Proof.
  intros Hk Hl Hmode. assert (lane_when strict safe t (lane_of d (t_Name t))) as Hok by (rewrite Hl; apply lane_ok_nil).
  unfold refillBatch. pose proof (adaptiveLimit_quiet (w_pressure w) d) as Q.
  destruct (adaptiveLimit (w_pressure w) t d) as [maxBatch d1]. cbn [snd] in Q.
  assert (refilled strict safe t d d1) as Hr by (by eapply refilled_quiet). cbv zeta.
  match goal with |- context [pickUpTo d1 (t_Name t) cands ?n ∅] =>
    pose proof (pickUpTo_facts safe d1 (t_Name t) cands n ∅ Hk) as Hp; destruct (pickUpTo d1 (t_Name t) cands n ∅) as [|c rest] end; [done|].
  destruct Hp as [Hnd Hp]. assert (Forall (fun c => c_Source c = "" -> ~ safe (c_Ref c)) (c :: rest)) as Hs.
  { apply Forall_forall. intros x Hx. destruct (Hp x Hx) as [E _]. by apply (Hk (c_Ref x) x). }
  assert (lane_of d1 (t_Name t) = []) as Hl1 by (by rewrite (quiet_lane _ _ _ _ _ Q)).
  eapply refilled_trans; [exact Hr|]. apply headLanded_refilled; [by apply Hr|by inversion Hs|].
  by apply startBatchRun_refilled.
Qed.

Lemma extendWindow_refilled fuel tip cands d :
  cands_ok safe cands -> t_Mode t = "speculate" -> lane_when strict safe t (lane_of d (t_Name t)) ->
  refilled strict safe t d (extendWindow cfg w fuel t tip cands d).
Proof.
  intros Hk Hmode. revert d. induction fuel as [|fuel IH]; intros d Hok; cbn [extendWindow].
  { eapply refilled_quiet; [done|apply quiet_refl]. }
  cbv zeta. destruct (pickNext d (t_Name t) cands _) as [c|] eqn:Ep; [|eapply refilled_quiet; [done|apply quiet_refl]].
  apply pickHead_ok in Ep as [Hs Hn]; [|done].
  assert (strict -> c_Ref c ∉ c_Ref <$> laneCands (lane_of d (t_Name t))) as Hf.
  { intros Hst Hin. apply Hn, elem_of_list_to_set. pose proof (lo_mode strict safe t _ Hok Hst) as Hm. unfold mode_ok in Hm. rewrite Hmode in Hm.
    cbn in Hm. clear - Hin Hm. induction Hm as [|r l H1 _ IH]; [by apply elem_of_nil in Hin|].
    unfold laneCands in Hin. cbn in Hin. rewrite fmap_app in Hin. cbn [map].
    assert (rm_cand <$> u_members r = [headCand r]) as E.
    { unfold headCand. by destruct (u_members r) as [|m [|? ?]]. }
    rewrite E in Hin. cbn in Hin. apply elem_of_cons in Hin as [->|Hin]; [left|right; by apply IH]. }
  assert (forall base predicted detail, (forall p, last (lane_of d (t_Name t)) = Some p -> base = u_chainTip p) ->
    refilled strict safe t d (match startRun cfg w t base c predicted detail d with
                  | (Some _, d) => extendWindow cfg w fuel t tip cands d | (None, d) => d end)) as Hgo.
  { intros base predicted detail Hb. pose proof (startRun_refilled base c predicted detail d Hok Hs Hf Hb ltac:(by left)) as H.
    destruct (startRun cfg w t base c predicted detail d) as [[r|] d']; destruct H as [Hr _]; [|done].
    eapply refilled_trans; [exact Hr|]. apply IH. by apply Hr. }
  destruct (last (lane_of d (t_Name t))) as [p|] eqn:El.
  - apply Hgo. by intros ? [= <-].
  - apply (headLanded_refilled c tip); [done|done|]. by apply Hgo.
Qed.

(** Refilling keeps the lane invariant and only ever adds runs on top. *)
Lemma refillLane_refilled tip cands d :
  cands_ok safe cands -> lane_when strict safe t (lane_of d (t_Name t)) -> refilled strict safe t d (refillLane cfg w t tip cands d).
Proof.
  intros Hk Hok. unfold refillLane.
  assert (refilled strict safe t d d) as Hrefl by (eapply refilled_quiet; [done|apply quiet_refl]).
  destruct (d_draining d); [done|]. destruct (String.eqb_spec (t_Mode t) "speculate") as [Hmode|Hmode].
  - unfold refillSpeculate. destruct (_ || circuitBlocked _ _); [done|]. destruct (0 <? _).
    + destruct (lane_of d (t_Name t)) eqn:El; [|done]. by apply refillSerialOne_refilled.
    + pose proof (adaptiveLimit_quiet (w_pressure w) d) as Q. destruct (adaptiveLimit (w_pressure w) t d) as [window d1].
      cbn [snd] in Q. assert (refilled strict safe t d d1) as Hr by (by eapply refilled_quiet).
      eapply refilled_trans; [exact Hr|]. apply extendWindow_refilled; [done|done|]. by apply Hr.
  - destruct (lane_of d (t_Name t)) eqn:El; [|done]. destruct (_ || circuitBlocked _ _); [done|].
    destruct (_ && negb _); [by apply refillBatch_refilled|by apply refillSerialOne_refilled].
Qed.
End Refill.

(** ** Advancing *)

(** How a run leaves the lane: one terminal event per member, all alike, or
    nothing at all (a green run whose target was paused under it). *)
Definition concluded (r : run) (ts : list (EventKind * Candidate)) : Prop :=
  (exists k, TerminalKind k = true /\ ts = memberTerms k r) \/
  (u_verdict r = verdictGreen /\ u_overridePause r = false /\ ts = []).

Definition green (r : run) : Prop := u_verdict r = verdictGreen.

(** The target ref moves along a chain of green runs, from the base of the first
    to the tip of the last. *)
Definition tested_move (tref : string) (before after : gmap string string) : Prop :=
  exists runs r0 r, chained runs /\ Forall green runs /\ head runs = Some r0 /\ last runs = Some r /\
    casApplies tref (u_baseOID r0) before = true /\ after !! tref = Some (u_chainTip r).

Section Advance.
Context (strict : Prop) (cfg : Config) (w : World) (safe : string -> Prop) (t : Target).
Let tref := targetRefName t.
Let target d := gr_refs (d_git d) !! tref.
Hypothesis Hsafe : safe tref.

(** What a pass leaves alone, apart from the target. *)
Definition others (x : string) : Prop := safe x /\ x <> tref.

Implicit Types (d : Daemon) (r : run) (l : list run).

Lemma landRun_quiet (safe' : string -> Prop) r d :
  ~ safe' tref -> trial_apart safe' r ->
  Forall (fun m => c_Source (rm_cand m) = "" -> ~ safe' (c_Ref (rm_cand m))) (u_members r) ->
  exists ts, quiet safe' ts d (landRun cfg w t r d) /\
    ((u_overridePause r = false /\ ts = []) \/ exists k, TerminalKind k = true /\ ts = memberTerms k r).
Proof.
  intros Hs Ht Hm. unfold landRun. destruct (isSome _ && negb (u_overridePause r)) eqn:Hp.
  { exists []. split; [apply quiet_refl|left]. split; [|done]. apply andb_prop in Hp as [_ H]. by apply negb_true_iff. }
  assert (forall o detail parkIt r' d1, quiet safe' [] d d1 -> trial_apart safe' r' -> rm_cand <$> u_members r' = rm_cand <$> u_members r ->
    exists ts, quiet safe' ts d (finishRun cfg t r' o detail parkIt d1) /\
      ((u_overridePause r = false /\ ts = []) \/ exists k, TerminalKind k = true /\ ts = memberTerms k r)) as Hf.
  { intros o detail parkIt r' d1 Q Ht' Ec. eexists. split; [eapply quiet_l; [exact Q|by apply finishRun_quiet]|right].
    exists (eventKindForOutcome o). split; [apply terminal_kind|by apply memberTerms_cands]. }
  destruct (reviewGate cfg w r); [apply Hf; auto; apply quiet_refl|].
  pose proof (policyGate_quiet cfg w safe' t r (u_members r) d) as Qp.
  destruct (policyGate cfg w t r (u_members r) d) as [[[[o detail] parkIt]|] d1]; cbn [snd] in Qp; [by apply Hf|].
  destruct (receiptGate cfg w r) as [r'|detail] eqn:Hrc; [|by apply Hf].
  destruct (receiptGate_frame cfg w r r' Hrc) as (_ & _ & Et & Ec).
  assert (trial_apart safe' r') as Ht' by (unfold trial_apart; by rewrite Et).
  unfold pushTarget. pose proof (cas_quiet safe' tref (u_baseOID r') (u_chainTip r') d1 Hs) as Qc.
  fold tref. destruct (cas tref (u_baseOID r') (u_chainTip r') d1) as [[[|e]|] d2]; cbn [snd] in Qc;
    pose proof (quiet_l _ _ _ _ _ Qp Qc) as Q; [by apply Hf| |].
  - apply Hf; [|done|done]. eapply quiet_l; [exact Q|]. split; try done; [simpl; set_solver|by rewrite app_nil_r].
  - eexists. split; [eapply quiet_l; [exact Q|apply landed_quiet; [done|]]|right; exists EventLanded; split; [done|by apply memberTerms_cands]].
    change (Forall ((fun c => c_Source c = "" -> ~ safe' (c_Ref c)) ∘ rm_cand) (u_members r')).
    apply Forall_fmap. rewrite Ec. by apply Forall_fmap.
Qed.

(** The target ref is not queued for deletion. *)
Definition unreaped d d' : Prop := is_Some (d_trialReap d' !! tref) -> is_Some (d_trialReap d !! tref).

Lemma landRun_unreaped r d : refs_apart safe r -> unreaped d (landRun cfg w t r d).
Proof.
  intros Har. unfold unreaped. pose proof (refs_apart_weaken safe (eq tref) r ltac:(by intros x <-) Har) as [Ht Hm].
  assert (forall ts d1 d2, quiet (eq tref) ts d1 d2 -> unreaped d1 d2) as Hq by (intros ts d1 d2 Q; exact (qt_reap _ _ _ _ Q tref eq_refl)).
  assert (forall o detail parkIt r' d1, trial_apart (eq tref) r' -> unreaped d1 (finishRun cfg t r' o detail parkIt d1)) as Hf
    by (intros; by eapply Hq, finishRun_quiet).
  unfold landRun. destruct (isSome _ && negb (u_overridePause r)); [done|].
  destruct (reviewGate cfg w r); [by apply Hf|].
  pose proof (policyGate_quiet cfg w (eq tref) t r (u_members r) d) as Qp.
  destruct (policyGate cfg w t r (u_members r) d) as [[[[o detail] parkIt]|] d1]; cbn [snd] in Qp;
    apply Hq in Qp; [intros H; by apply Qp, (Hf o detail parkIt r)|].
  destruct (receiptGate cfg w r) as [r'|detail] eqn:Hrc; [|intros H; by apply Qp, (Hf OutcomeError detail true r)].
  destruct (receiptGate_frame cfg w r r' Hrc) as (_ & _ & Et & Ec).
  assert (trial_apart (eq tref) r') as Ht' by (unfold trial_apart; by rewrite Et).
  intros H. apply Qp. revert H. unfold pushTarget, cas. destruct (CASUpdate _ _ _ _) as [[[|e]|] g].
  - exact (Hf _ _ _ r' (d1 <| d_git := g |>) Ht').
  - exact (Hf _ _ _ r' (d1 <| d_git := g |> <| d_landedPins ::= _ |>) Ht').
  - assert (Forall (fun m => c_Source (rm_cand m) = "" -> ~ tref = c_Ref (rm_cand m)) (u_members r')) as Hm'.
    { change (Forall ((fun c => c_Source c = "" -> ~ tref = c_Ref c) ∘ rm_cand) (u_members r')).
      apply Forall_fmap. rewrite Ec. by apply Forall_fmap. }
    destruct (landed_quiet cfg w (eq tref) t r' (d1 <| d_git := g |>) Ht' Hm') as [Q _]. exact (Hq _ _ _ Q).
Qed.

Lemma skipRuns_quiet (safe' : string -> Prop) l reason d :
  Forall (trial_apart safe') l ->
  quiet safe' (concat (map (memberTerms EventSkipped) l)) d (skipRuns cfg t l reason d).
Proof.
  intros H. unfold skipRuns.
  apply (fold_quiet safe' (fun r d => finishRun cfg t (cancelRun d r) OutcomeSkipped reason false d)).
  intros r d' Hr. rewrite Forall_forall in H.
  apply (finishRun_quiet cfg safe' t (cancelRun d' r) OutcomeSkipped reason false d' (H r Hr)).
Qed.

Lemma concludeRedRun_quiet (safe' : string -> Prop) head i r d :
  trial_apart safe' r ->
  exists k, TerminalKind k = true /\ quiet safe' (memberTerms k r) d (concludeRedRun cfg t head i r d).
Proof.
  intros H. unfold concludeRedRun. case_match; [exists EventSkipped; split; [done|by apply finishBatchRed_quiet]|].
  case_match; [destruct (runRejectOutcome r) as [o detail]|];
    eexists; (split; [apply terminal_kind|by apply finishRun_quiet]).
Qed.

Lemma stepRuns_spec (safe' : string -> Prop) l d :
  let '(l', d') := stepRuns cfg w l d in Forall2 (fun r r' => ident r' = ident r) l l' /\ quiet safe' [] d d'.
Proof.
  revert d. induction l as [|r l IH]; intros d; cbn [stepRuns]; [split; [constructor|apply quiet_refl]|].
  pose proof (stepRun_ident cfg w r d) as Hi. pose proof (stepRun_quiet cfg w safe' r d) as Q.
  destruct (stepRun cfg w r d) as [r' d1]. specialize (IH d1). destruct (stepRuns cfg w l d1) as [l' d2].
  destruct IH as [Hl Q2]. cbn [fst snd] in *. split; [by constructor|by eapply quiet_l].
Qed.

(** The target moved from the base of run [j] to the tip of run [k], both among
    the first [n]. *)
Definition landed_slice l (n : nat) d d' : Prop :=
  exists j k r0 r, (j <= k < n)%nat /\ l !! j = Some r0 /\ l !! k = Some r /\
    casApplies tref (u_baseOID r0) (gr_refs (d_git d)) = true /\ target d' = Some (u_chainTip r).

(** Landing a green prefix, run by run. *)
Lemma landPrefix_spec l d :
  lane_of d (t_Name t) = l -> Forall (refs_apart safe) l ->
  let '(b, d') := landPrefix cfg w t l d in
  exists n tss, lane_of d' (t_Name t) = drop n l /\ b = (0 <? n)%nat /\ (n <= length l)%nat /\
    Forall green (take n l) /\ Forall2 concluded (take n l) tss /\
    calm others (concat tss) d d' /\ others_kept (t_Name t) d d' /\ unreaped d d' /\
    (Forall (fun r => u_chainTip r <> "") l -> target d' = target d \/ landed_slice l n d d').
Proof.
  revert d. induction l as [|r l IH]; intros d Hl Ha; cbn [landPrefix].
  { exists O, []. split_and!; try done; try solve [constructor]; try lia; [apply quiet_calm, quiet_refl|unfold unreaped; auto|intros _; by left]. }
  destruct (bool_decide_reflect (u_verdict r = verdictGreen)) as [Hg|Hg].
  2: { exists O, []. rewrite take_0, drop_0. split_and!; try done; try solve [constructor]; try lia; [apply quiet_calm, quiet_refl|unfold unreaped; auto|intros _; by left]. }
  inversion Ha as [|? ? Har Hal]. subst.
  destruct (refs_apart_weaken safe others r ltac:(by intros x []) Har) as [Ht' Hm'].
  destruct (landRun_quiet others r d) as (ts & Q & Hts); [by intros []|done|done|].
  set (d1 := setLane (t_Name t) l (landRun cfg w t r d)).
  pose proof (moves_set_ts others ts (t_Name t) l d _ Q) as Hm. fold d1 in Hm.
  apply moves_facts in Hm as (C1 & L1 & K1).
  specialize (IH d1 L1 Hal). destruct (landPrefix cfg w t l d1) as [b d']. cbn [snd].
  destruct IH as (n & tss & L2 & _ & Hn & Hgr & Hc & C2 & K2 & U2 & Hg2).
  exists (S n), (ts :: tss). cbn [take drop concat]. split_and!; try done.
  - simpl. lia.
  - by constructor.
  - constructor; [|done]. destruct Hts as [[? ->]|Hts]; [right|left]; auto.
  - eapply calm_trans; eauto.
  - intros t' Hne'. by rewrite K2, K1.
  - intros H. by apply (landRun_unreaped r d Har), U2.
  - intros [Htr Htl]%Forall_cons. pose proof (landRun_landing cfg w t r d (refs_apart_weaken safe (eq tref) r ltac:(by intros x <-) Har) Htr) as Hland.
    assert (target d1 = target d \/
      (target d1 = Some (u_chainTip r) /\ casApplies tref (u_baseOID r) (gr_refs (d_git d)) = true)) as H1.
    { change (target d1) with (target (landRun cfg w t r d)). destruct Hland as [->|Hland]; [by left|].
      destruct Hland as [o _ Hu _|[Hca|Hu] Hgo _ _|Hca Hgo _ _]; [by left|by right| |by right]. left. unfold target, tref. by rewrite Hgo. }
    destruct (Hg2 Htl) as [E|(j & k & r0 & r' & Hjk & Ej & Ek & Hcb & E)].
    + destruct H1 as [E1|[E1 Hca]]; [left; congruence|]. right. exists O, O, r, r. split_and!; try done; [lia|congruence].
    + right. destruct H1 as [E1|[E1 Hc1]].
      * exists (S j), (S k), r0, r'. split_and!; try done; [lia|lia|]. revert Hcb. unfold casApplies, target in *. by rewrite E1.
      * exists O, (S k), r, r'. split_and!; try done; lia.
Qed.

Lemma findInvalid_lt i l tip cands j reason : findInvalid i l tip cands = Some (j, reason) -> (i <= j < i + length l)%nat.
Proof.
  revert i. induction l as [|r l IH]; intros i; cbn [findInvalid length]; [done|].
  destruct (runInvalidated _ _ _ _); [intros [= <- _]; lia|]. intros H%IH. lia.
Qed.

(** A pass over the lane: which runs left it ([gone]), how each concluded, and
    what the target became. *)
Record pass (d d' : Daemon) (b : bool) (l' : list run) (i : nat) (tss : list (list (EventKind * Candidate))) : Prop := {
  ps_runs : Forall2 (fun r r' => ident r' = ident r) (lane_of d (t_Name t)) l';
  ps_cut : (i <= length l')%nat;
  ps_calm : calm others (concat tss) d d';
  ps_others : others_kept (t_Name t) d d';
  ps_unreaped : unreaped d d';
  ps_gone : (lane_of d' (t_Name t) = take i l' /\ Forall2 concluded (drop i l') tss /\
               b = (i <? length l')%nat /\ target d' = target d) \/
            (lane_of d' (t_Name t) = drop i l' /\ Forall2 concluded (take i l') tss /\ b = (0 <? i)%nat /\
               Forall green (take i l') /\ l' = fst (stepRuns cfg w (lane_of d (t_Name t)) d) /\
               (Forall (fun r => u_chainTip r <> "") (lane_of d (t_Name t)) ->
                target d' = target d \/ landed_slice l' i d d'));
}.

Lemma concluded_skips l : Forall2 concluded l (map (memberTerms EventSkipped) l).
Proof. induction l as [|r l IH]; cbn [map]; constructor; [left; by exists EventSkipped|exact IH]. Qed.

Lemma quiet_weaken (s1 s2 : string -> Prop) ts d d' :
  (forall x, s2 x -> s1 x) -> quiet s1 ts d d' -> quiet s2 ts d d'.
Proof. intros H []. split; auto. Qed.

(** Cutting the lane at [i] once everything behind has concluded. *)
Lemma pass_cut d d0 d1 l' i tss :
  Forall2 (fun r r' => ident r' = ident r) (lane_of d (t_Name t)) l' -> (i < length l')%nat ->
  calm safe [] d d0 -> others_kept (t_Name t) d d0 -> quiet safe (concat tss) d0 d1 ->
  Forall2 concluded (drop i l') tss -> pass d (setLane (t_Name t) (take i l') d1) true l' i tss.
Proof.
  intros H2 Hi C K Q Hc.
  pose proof (moves_facts _ _ _ _ _ _ (moves_set_ts safe _ (t_Name t) (take i l') _ _ Q)) as (C1 & L1 & K1).
  pose proof (calm_trans _ _ _ _ _ _ C C1) as C2. cbn [app] in C2. split; [done|lia| | | |].
  - eapply quiet_weaken; [|exact C2]. by intros x [].
  - intros t' Ht. by rewrite K1, K.
  - exact (qt_reap _ _ _ _ C2 tref Hsafe).
  - left. split_and!; [exact L1|exact Hc|symmetry; by apply Nat.ltb_lt|]. by apply (qt_refs _ _ _ _ C2).
Qed.

Lemma idents_refl l : Forall2 (fun r r' => ident r' = ident r) l l.
Proof. induction l; by constructor. Qed.

Lemma tips_ident l l' :
  Forall2 (fun r r' => ident r' = ident r) l l' -> Forall (fun r => u_chainTip r <> "") l ->
  Forall (fun r => u_chainTip r <> "") l'.
Proof.
  induction 1 as [|r r' l l' E _ IH]; intros Htip; inversion Htip; subst; constructor; auto.
  unfold ident in E. injection E as _ _ -> _ _ _. done.
Qed.

(** A pass over a lane in order. *)
Lemma advanceLane_pass tip cands d :
  lane_when strict safe t (lane_of d (t_Name t)) ->
  let '(b, d') := advanceLane cfg w t tip cands d in exists l' i tss, pass d d' b l' i tss.
Proof.
  intros Hok. unfold advanceLane. cbv zeta.
  assert (forall l, Forall (refs_apart safe) l -> Forall (trial_apart safe) l) as Hta
    by (intros l H; eapply Forall_impl; [exact H|]; by intros r []).
  destruct (findInvalid 0 (lane_of d (t_Name t)) tip cands) as [[i reason]|] eqn:Ef.
  { apply findInvalid_lt in Ef. exists (lane_of d (t_Name t)), i, (map (memberTerms EventSkipped) (drop i (lane_of d (t_Name t)))).
    eapply (pass_cut d d); [apply idents_refl|lia|apply quiet_calm, quiet_refl|done| |apply concluded_skips].
    apply skipRuns_quiet, Hta, Forall_drop, Hok. }
  pose proof (stepRuns_spec safe (lane_of d (t_Name t)) d) as Hst.
  destruct (stepRuns cfg w (lane_of d (t_Name t)) d) as [l' d1] eqn:Est. destruct Hst as [H2 Q1].
  pose proof (moves_facts _ _ _ _ _ _ (moves_set safe (t_Name t) l' _ _ Q1)) as (C0 & L0 & K0).
  set (d0 := setLane (t_Name t) l' d1) in *. pose proof (lane_ok_ident strict safe t _ _ H2 Hok) as Hok'.
  destruct (find_index redVerdict l') as [[i r]|] eqn:Er.
  { apply find_index_Some in Er as (Hr & _ & _). apply lookup_lt_Some in Hr as Hlt.
    pose proof (lo_apart _ safe t _ Hok') as Hap.
    assert (trial_apart safe r) as Hra by (rewrite Forall_lookup in Hap; by eapply Hap).
    destruct (concludeRedRun_quiet safe (match l' with h :: _ => headCand h | [] => zeroCandidate end) i r d0 Hra) as (k & Hk & Q2).
    exists l', i, (memberTerms k r :: map (memberTerms EventSkipped) (drop (S i) l')).
    eapply (pass_cut d d0); [done|done|done|done| |].
    - cbn [concat]. eapply quiet_trans; [exact Q2|]. apply skipRuns_quiet, Hta, Forall_drop, Hap.
    - rewrite (drop_S _ _ _ Hr). constructor; [left; by exists k|apply concluded_skips]. }
  assert (exists l'' i tss, pass d d0 false l'' i tss) as Hidle.
  { exists l', (length l'), []. split; [done|done|eapply quiet_weaken; [|exact C0]; by intros x []|done|exact (qt_reap _ _ _ _ C0 tref Hsafe)|].
    left. rewrite L0, take_ge, drop_ge by done. split_and!; [done|constructor|symmetry; apply Nat.ltb_irrefl|].
    by apply (qt_refs _ _ _ _ C0). }
  destruct (_ || circuitBlocked _ _); [exact Hidle|].
  pose proof (landPrefix_spec l' d0 L0 (lo_apart _ safe t _ Hok')) as Hl.
  destruct (landPrefix cfg w t l' d0) as [b d'].
  destruct Hl as (n & tss & Ld & Hb & Hn & Hg & Hc & Cd & Kd & Ud & Ht).
  assert (target d0 = target d) as Ht0 by by apply (qt_refs _ _ _ _ C0).
  exists l', n, tss. split; [done|done| | | |].
  - eapply (calm_trans _ [] (concat tss)); [|exact Cd]. eapply quiet_weaken; [|exact C0]. by intros x [].
  - intros t' Hn'. by rewrite Kd, K0.
  - intros H. by apply (qt_reap _ _ _ _ C0 tref Hsafe), Ud.
  - right. rewrite <- Ht0. rewrite Est. split_and!; try done. intros Htip.
    destruct (Ht ltac:(by eapply tips_ident)) as [?|(j & k & r0 & r & H1 & H3 & H4 & H5 & H6)]; [by left|right].
    exists j, k, r0, r. split_and!; try done; try lia. revert H5. unfold casApplies. by rewrite (qt_refs _ _ _ _ C0 tref Hsafe).
Qed.

Lemma slice_chained l m n : chained l -> chained (take m (drop n l)).
Proof.
  intros Hc i r r' [E1 _]%lookup_take_Some [E2 _]%lookup_take_Some. rewrite lookup_drop in E1, E2.
  replace (n + S i)%nat with (S (n + i)) in E2 by lia. eauto.
Qed.

(** What a pass does to the target. *)
Lemma pass_target d d' b l' i tss :
  pass d d' b l' i tss -> lane_when strict safe t (lane_of d (t_Name t)) ->
  Forall (fun r => u_chainTip r <> "") (lane_of d (t_Name t)) ->
  target d' = target d \/ tested_move tref (gr_refs (d_git d)) (gr_refs (d_git d')).
Proof.
  intros [H2 Hi _ _ _ H] Hok Htip. destruct H as [(_ & _ & _ & Ht)|(_ & _ & _ & Hg & _ & Ht)]; [by left|].
  destruct (Ht Htip) as [?|(j & k & r0 & r & Hjk & Ej & Ek & Hc & E)]; [by left|right].
  pose proof (lo_chained strict safe t _ (lane_ok_ident strict safe t _ _ H2 Hok)) as Hch.
  exists (take (S k - j) (drop j l')), r0, r. split_and!; [by apply slice_chained| | | |done|done].
  - apply Forall_forall. intros x (n & En & Hn)%elem_of_take. rewrite lookup_drop in En.
    rewrite Forall_forall in Hg. apply Hg, elem_of_take. exists (j + n)%nat. split; [done|lia].
  - rewrite head_lookup, lookup_take_lt, lookup_drop by lia. by replace (j + 0)%nat with j by lia.
  - apply lookup_lt_Some in Ek as Hlt. rewrite last_lookup, length_take, length_drop.
    rewrite lookup_take_lt, lookup_drop by lia. rewrite <- Ek. f_equal. lia.
Qed.

Lemma pass_lane_ok d d' b l' i tss :
  pass d d' b l' i tss -> lane_when strict safe t (lane_of d (t_Name t)) -> lane_when strict safe t (lane_of d' (t_Name t)).
Proof.
  intros [H2 _ _ _ _ H] Hok. pose proof (lane_ok_ident strict safe t _ _ H2 Hok) as Hok'.
  destruct H as [(-> & _)|(-> & _)]; [by apply lane_ok_take|by apply lane_ok_drop].
Qed.
End Advance.

(** ** Parks *)

Lemma ctl_done d d' : ctl_step d d' -> d_done d' = d_done d.
Proof. by intros (? & ? & ? & ? & ->). Qed.

(** Only the park of [ref] may differ. *)
Definition parks_only (target ref : string) (d d' : Daemon) : Prop :=
  forall t' ref', ~ (t' = target /\ ref' = ref) -> done_of d' t' !! ref' = done_of d t' !! ref'.

Lemma maybeAutoRetry_others cfg target c o d t' :
  t' <> target -> done_of (maybeAutoRetry cfg target c o d) t' = done_of d t'.
Proof.
  intros Ht. unfold maybeAutoRetry. destruct (_ || _); [done|]. destruct (d_draining d); [done|]. cbv zeta. case_match; [unfold done_of; simpl; done|].
  unfold clearParkAndRetry. case_match; [|done]. cbn [snd]. unfold done_of.
  rewrite !(ctl_done _ _ (emit_step cfg _ _)). simpl. by rewrite lookup_insert_ne.
Qed.

Section Parks.
Context (cfg : Config) (w : World) (t : Target).
Implicit Types (d : Daemon) (r : run) (c : Candidate) (o : Outcome).

Lemma done_of_eq d d' t' : d_done d' = d_done d -> done_of d' t' = done_of d t'.
Proof. unfold done_of. by intros ->. Qed.

Lemma finalizeRun_done r d : d_done (finalizeRun cfg r d) = d_done d.
Proof.
  unfold finalizeRun. set (d1 := match u_members r with [] => d | _ => _ end).
  assert (d_done d1 = d_done d) as H1.
  { unfold d1. destruct (u_members r); [done|]. case_match; [done|]. unfold forgetPrepared. repeat case_match; done. }
  clearbody d1. set (d2 := if isSome _ then d1 else _).
  assert (d_done d2 = d_done d1) as H2 by (unfold d2; by case_match). clearbody d2.
  unfold scheduleTrialReap. case_match; [congruence|]. case_match; [|simpl; congruence].
  unfold cas. destruct (CASUpdate _ _ _ _). simpl. congruence.
Qed.

Lemma governorFeedback_done r o d : d_done (governorFeedback cfg t r o d) = d_done d.
Proof. unfold governorFeedback. repeat case_match; try done. apply ctl_done, saveControls_step. Qed.

Lemma emits_done (f : runMember -> Daemon -> Event) (ms : list runMember) d :
  d_done (fold_left (fun d m => emit cfg (f m d) d) ms d) = d_done d.
Proof. revert d. induction ms as [|m ms IH]; intros d; simpl; [done|]. rewrite IH. apply ctl_done, emit_step. Qed.

(** A run that ends without parking leaves every park alone. *)
Lemma finishRun_unparked r o detail d : d_done (finishRun cfg t r o detail false d) = d_done d.
Proof.
  unfold finishRun. cbv zeta. unfold finishMember.
  rewrite (emits_done (fun m d => terminalEvent o (d_now d) (t_Name t) (rm_cand m) (rr_RunID (rm_rec m)) (rm_rec m) detail)).
  rewrite finalizeRun_done, governorFeedback_done. case_match; [apply ctl_done, clearEmergency_step|done].
Qed.

Lemma skipRuns_done l reason d : d_done (skipRuns cfg t l reason d) = d_done d.
Proof.
  unfold skipRuns. revert d. induction l as [|r l IH]; intros d; cbn [fold_left]; [done|].
  by rewrite IH, finishRun_unparked.
Qed.

Lemma finishBatchRed_done r d : d_done (finishBatchRed cfg t r d) = d_done d.
Proof.
  unfold finishBatchRed. cbv zeta.
  set (d1 := if String.eqb (u_pauseOverrideReason r) "" then governorFeedback _ _ _ _ d else _).
  assert (d_done d1 = d_done d) as H1.
  { unfold d1. case_match; [|rewrite (ctl_done _ _ (clearEmergency_step cfg _ _ _))]; apply governorFeedback_done. }
  clearbody d1. destruct (if String.eqb (u_emergencyReason r) "" then _ else _) as [detail d2] eqn:E.
  assert (d_done d2 = d_done d) as H2.
  { destruct (String.eqb _ ""); injection E as _ <-; [done|]. by rewrite (ctl_done _ _ (clearEmergency_step cfg _ _ _)). }
  unfold skipMembers. set (d3 := fold_left _ _ _).
  assert (d_done d3 = d_done d) as H3.
  { unfold d3. rewrite (emits_done (fun m d => terminalEvent OutcomeSkipped (d_now d) (t_Name t) (rm_cand m)
      (rr_RunID (rm_rec m)) (rm_rec m) detail)). by rewrite finalizeRun_done. }
  clearbody d3. destruct (String.eqb (t_OnBatchRed t) _); simpl; congruence.
Qed.

(** A run of one member that ends by parking it. *)
Lemma finishRun_parked r m o detail d :
  u_members r = [m] -> c_SHA (rm_cand m) <> "" ->
  let d' := finishRun cfg t r o detail true d in let c := rm_cand m in
  parks_only (t_Name t) (c_Ref c) d d' /\
  ((exists e, done_of d' (t_Name t) !! c_Ref c = Some e /\ pk_SHA e = c_SHA c /\ pk_Outcome e = o) \/
   (o = OutcomeError /\ cfg_AutoRetryErrors cfg = true /\ done_of d' (t_Name t) !! c_Ref c = None)).
Proof.
  intros Em Hs d' c. subst d'. unfold finishRun. cbv zeta.
  set (d1 := governorFeedback _ _ _ _ _).
  assert (d_done d1 = d_done d) as H1.
  { unfold d1. rewrite governorFeedback_done. case_match; [apply ctl_done, clearEmergency_step|done]. }
  clearbody d1. destruct (materializeChecks_shape r) as (b & ms & Ems).
  set (r2 := materializeChecks r <| u_members ::= _ |>).
  assert (exists rec, u_members r2 = [mkMember c (rm_mergeOID m) rec]) as [rec Er]
    by (unfold r2; rewrite Ems; simpl; rewrite Em; simpl; by eexists).
  clearbody r2. rewrite Er. cbn [fold_left rm_cand].
  set (d2 := finalizeRun cfg r2 _). set (pe := mkPark (c_Version c) (c_SHA c) o detail (d_now d1) (rr_RunID rec)).
  assert (d_done d2 = <[t_Name t := <[c_Ref c := pe]> (done_of d (t_Name t))]> (d_done d)) as H2.
  { unfold d2. rewrite finalizeRun_done. unfold park. simpl. rewrite H1. by rewrite (done_of_eq d d1). }
  clearbody d2. unfold finishMember. cbn [rm_cand rm_rec]. set (d3 := emit cfg _ d2).
  assert (d_done d3 = d_done d2) as H3 by apply ctl_done, emit_step. clearbody d3.
  pose proof (maybeAutoRetry_cases cfg (t_Name t) c o d3 Hs) as Hr. cbv zeta in Hr.
  pose proof (maybeAutoRetry_others cfg (t_Name t) c o d3) as Ho.
  assert (done_of d3 (t_Name t) = <[c_Ref c := pe]> (done_of d (t_Name t))) as E3
    by (unfold done_of at 1; rewrite H3, H2, lookup_insert_eq; done).
  assert (forall t', t' <> t_Name t -> done_of d3 t' = done_of d t') as E3'.
  { intros t' Ht. unfold done_of. rewrite H3, H2. by rewrite lookup_insert_ne. }
  unfold autoRetryDue in Hr. destruct (_ && negb (bool_decide _)) eqn:Ed.
  - destruct Hr as (Hr & _). rewrite E3, delete_insert_eq in Hr. split.
    + intros t' ref' Hn. destruct (decide (t' = t_Name t)) as [->|Ht].
      * rewrite Hr. apply lookup_delete_ne. intros E. by apply Hn.
      * rewrite Ho by done. by rewrite E3'.
    + right. rewrite !andb_true_iff in Ed. destruct Ed as [[[Eo Ec] _] _]. split_and!; [by apply bool_decide_eq_true in Eo|done|].
      rewrite Hr. apply lookup_delete_eq.
  - rewrite E3 in Hr. split.
    + intros t' ref' Hn. destruct (decide (t' = t_Name t)) as [->|Ht].
      * rewrite Hr. apply lookup_insert_ne. intros E. by apply Hn.
      * rewrite Ho by done. by rewrite E3'.
    + left. exists pe. rewrite Hr. split; [apply lookup_insert_eq|done].
Qed.

Lemma startReady_done rank checks cap denied r d : d_done (snd (startReady cfg rank checks cap denied r d)) = d_done d.
Proof.
  revert cap denied r d. induction checks as [|k rest IH]; intros cap denied r d; cbn [startReady]; [done|].
  case_match; [done|]. case_match; [apply IH|]. destruct (if denied then _ else _) as [[] slots]; [|apply IH].
  pose proof (startCheck_frame cfg rank k r (d <| d_slots := slots |>)) as Hs.
  destruct (startCheck cfg rank k r _) as [r1 d1]. destruct Hs as [Hs%ctl_done _]. by rewrite IH.
Qed.

Lemma stepRun_done r d : d_done (snd (stepRun cfg w r d)) = d_done d.
Proof.
  unfold stepRun. cbv zeta. generalize (prepareEmergency cfg d (noteOverride r)). intros r1.
  generalize (w_keep w r1), (runPriority d r1). intros keep rank.
  unfold advanceChecks. pose proof (keepExecutions_step cfg keep r1 d) as Hk.
  destruct (keepExecutions cfg keep r1 d) as [[] d0]; destruct Hk as [Hk%ctl_done _]; [|exact Hk]. cbn [negb].
  case_match; [exact Hk|]. pose proof (consume_frame cfg (u_checks r1) r1 d0) as Hc.
  destruct (consume cfg (u_checks r1) r1 d0) as [r2 d1]. destruct Hc as [Hc%ctl_done _].
  case_match; [simpl; congruence|].
  match goal with |- context [startReady cfg ?a ?b ?c ?e ?f ?g] =>
    pose proof (startReady_done a b c e f g) as Hs; destruct (startReady cfg a b c e f g) as [r3 d2] end.
  pose proof (concludeGreen_cases cfg r3 d2) as Hg. destruct (concludeGreen cfg r3 d2) as [r4 d3].
  destruct Hg as [Hg%ctl_done _]. cbn [snd] in *. congruence.
Qed.

Lemma stepRuns_done l d : d_done (snd (stepRuns cfg w l d)) = d_done d.
Proof.
  revert d. induction l as [|r l IH]; intros d; cbn [stepRuns]; [done|]. pose proof (stepRun_done r d) as H.
  destruct (stepRun cfg w r d) as [r' d1]. specialize (IH d1). destruct (stepRuns cfg w l d1) as [l' d2].
  cbn [snd] in *. congruence.
Qed.
End Parks.


(** ** The properties *)

(** One thing that happens to a target's lane: a pass, a refill, an operator's
    cancel of the run in front of one of its members, or anything else in the
    daemon, which leaves the runs what they are. *)
Inductive lane_step (cfg : Config) (safe : string -> Prop) (t : Target) : Daemon -> Daemon -> Prop :=
| ls_advance w tip cands d : lane_step cfg safe t d (snd (advanceLane cfg w t tip cands d))
| ls_refill w tip cands d :
    cands_ok safe cands -> lane_step cfg safe t d (refillLane cfg w t tip cands d)
| ls_cancel i r ref d :
    lane_of d (t_Name t) !! i = Some r -> lane_step cfg safe t d (cancelInFlight cfg (t_Name t) i r ref d)
| ls_env d d' :
    Forall2 (fun r r' => ident r' = ident r) (lane_of d (t_Name t)) (lane_of d' (t_Name t)) -> lane_step cfg safe t d d'.

Lemma advanceLane_ok strict cfg w safe t tip cands d :
  safe (targetRefName t) -> lane_when strict safe t (lane_of d (t_Name t)) ->
  lane_when strict safe t (lane_of (snd (advanceLane cfg w t tip cands d)) (t_Name t)).
Proof.
  intros Hs Hok. pose proof (advanceLane_pass strict cfg w safe t Hs tip cands d Hok) as H.
  destruct (advanceLane cfg w t tip cands d) as [b d']. destruct H as (l' & i & tss & H). by eapply pass_lane_ok.
Qed.

Lemma cancelInFlight_lane cfg target i r ref d :
  lane_of (cancelInFlight cfg target i r ref d) target = take i (lane_of d target).
Proof. unfold cancelInFlight, lane_of at 1, setLane. simpl. by rewrite lookup_insert_eq. Qed.

Lemma lane_step_ok cfg safe t d d' :
  safe (targetRefName t) -> (forall id, ~ safe (trialRefName cfg id)) -> lane_step cfg safe t d d' ->
  lane_ok safe t (lane_of d (t_Name t)) -> lane_ok safe t (lane_of d' (t_Name t)).
Proof.
  intros Hs Ht [w tip cands d1|w tip cands d1 Hk|i r ref d1 Hr|d1 d2 H] Hok.
  - by apply advanceLane_ok.
  - by apply (refillLane_refilled True cfg w safe t Ht tip cands d1 Hk Hok).
  - rewrite cancelInFlight_lane. by apply lane_ok_take.
  - by eapply lane_ok_ident.
Qed.

(** C7. The lane invariant: whatever sequence of passes, refills, cancels and
    outside changes a target's lane goes through from empty, every run in it
    has members, no ref is tested twice, each run is stacked on the chain tip
    of the run before it, only a speculating target has more than one run (each
    of one member), and no run owns one of the protected refs (the targets'). *)
Theorem lane_reachable_ok cfg safe t d0 d :
  safe (targetRefName t) -> (forall id, ~ safe (trialRefName cfg id)) ->
  lane_of d0 (t_Name t) = [] -> rtc (lane_step cfg safe t) d0 d -> lane_ok safe t (lane_of d (t_Name t)).
Proof.
  intros Hsafe Ht H0 Hs. assert (lane_ok safe t (lane_of d0 (t_Name t))) as Hok by (rewrite H0; apply lane_ok_nil).
  clear H0. induction Hs as [|d0 d1 d2 Hs _ IH]; [done|]. apply IH. by eapply lane_step_ok.
Qed.

(** A pass over a lane concludes runs one way only: the runs that leave are
    a suffix (invalidated or behind a red run, the red run included) or a green
    prefix, each of them gets exactly one terminal event per member in member
    order - none only for a green run whose target was paused under it - and
    the pass reports whether any run left. Other lanes are not touched. *)
Theorem advanceLane_concludes strict cfg w safe t tip cands d :
  safe (targetRefName t) -> lane_when strict safe t (lane_of d (t_Name t)) ->
  let '(b, d') := advanceLane cfg w t tip cands d in
  exists l' gone tss,
    Forall2 (fun r r' => ident r' = ident r) (lane_of d (t_Name t)) l' /\
    (l' = lane_of d' (t_Name t) ++ gone \/ (l' = gone ++ lane_of d' (t_Name t) /\ Forall green gone)) /\
    Forall2 concluded gone tss /\ terminals (d_events d') = terminals (d_events d) ++ concat tss /\
    (b = true <-> gone <> []) /\ others_kept (t_Name t) d d'.
Proof.
  intros Hs Hok. pose proof (advanceLane_pass strict cfg w safe t Hs tip cands d Hok) as H.
  destruct (advanceLane cfg w t tip cands d) as [b d']. destruct H as (l' & i & tss & [H2 Hi C K _ H]).
  pose proof (qt_terms _ _ _ _ C) as Hts. simpl in Hts. destruct H as [(El & Hc & Hb & _)|(El & Hc & Hb & Hg & _)].
  - exists l', (drop i l'), tss. rewrite El, take_drop. split_and!; auto. subst b. rewrite Nat.ltb_lt.
    split; [intros Hl E%(f_equal length); rewrite length_drop in E; simpl in E; lia|].
    intros Hn. destruct (decide (i < length l')%nat); [done|]. by rewrite drop_ge in Hn by lia.
  - exists l', (take i l'), tss. rewrite El, take_drop. split_and!; auto. subst b. rewrite Nat.ltb_lt.
    split; [intros Hl E%(f_equal length); rewrite length_take in E; simpl in E; lia|].
    intros Hn. destruct i; [done|lia].
Qed.


(** C25. What may be parked: a pass that discards invalid runs parks nothing; a
    red verdict parks nothing unless the red run is the head of the lane -
    tested on the real target - and has a single member, and then only that
    member's park changes: it holds the rejected revision with the run's
    outcome, unless it was an error that earned its automatic retry. *)
Theorem red_parks cfg w t tip cands d :
  let d' := snd (advanceLane cfg w t tip cands d) in
  let '(l', d1) := stepRuns cfg w (lane_of d (t_Name t)) d in
  d_done d1 = d_done d /\
  match findInvalid 0 (lane_of d (t_Name t)) tip cands, find_index redVerdict l' with
  | Some _, _ => d_done d' = d_done d
  | None, Some (O, r) =>
      match u_members r with
      | [m] => let c := rm_cand m in let o := fst (runRejectOutcome r) in
          c_SHA c <> "" ->
          parks_only (t_Name t) (c_Ref c) d d' /\
          ((exists e, done_of d' (t_Name t) !! c_Ref c = Some e /\ pk_SHA e = c_SHA c /\ pk_Outcome e = o) \/
           (o = OutcomeError /\ cfg_AutoRetryErrors cfg = true /\ done_of d' (t_Name t) !! c_Ref c = None))
      | [] => True
      | _ => d_done d' = d_done d
      end
  | None, Some (S _, _) => d_done d' = d_done d
  | None, None => True
  end.
Proof.
  intros d'. subst d'. pose proof (stepRuns_done cfg w (lane_of d (t_Name t)) d) as Hd. unfold advanceLane. cbv zeta.
  destruct (stepRuns cfg w (lane_of d (t_Name t)) d) as [l' d1]. cbn [snd] in Hd. split; [done|].
  destruct (findInvalid 0 (lane_of d (t_Name t)) tip cands) as [[i reason]|]; [simpl; apply skipRuns_done|].
  destruct (find_index redVerdict l') as [[i r]|]; [|done]. cbn [snd].
  set (d0 := setLane (t_Name t) l' d1). assert (d_done d0 = d_done d) as H0 by done. clearbody d0.
  assert (forall d1, d_done (setLane (t_Name t) (take i l') (skipRuns cfg t (drop (S i) l') "pipeline bubble" d1)) = d_done d1) as Hs
    by (intros; apply skipRuns_done).
  unfold concludeRedRun. destruct i as [|i].
  - destruct (u_members r) as [|m [|m2 ms]] eqn:Em; [done| |].
    + cbn [length Nat.ltb Nat.leb Nat.eqb]. intros Hsha. destruct (runRejectOutcome r) as [o detail]. cbn [fst].
      destruct (finishRun_parked cfg t r m o detail d0 Em Hsha) as [Ho Hp].
      unfold parks_only, done_of in *. rewrite Hs, <- H0. auto.
    + cbn [length Nat.ltb Nat.leb]. by rewrite Hs, finishBatchRed_done.
  - rewrite Hs. case_match; [by rewrite finishBatchRed_done|]. simpl. by rewrite finishRun_unparked.
Qed.

(** ** Cancelling *)

Lemma cancelMember_done cfg t ref rid now (ms : list runMember) d :
  NoDup (map (fun m => c_Ref (rm_cand m)) ms) ->
  let d' := fold_left (fun d m => cancelMember cfg t ref rid now m d) ms d in
  parks_only (t_Name t) ref d d' /\
  forall m, m ∈ ms -> c_Ref (rm_cand m) = ref ->
    exists e, done_of d' (t_Name t) !! ref = Some e /\ pk_SHA e = c_SHA (rm_cand m) /\ pk_Outcome e = rr_Outcome (rm_rec m).
Proof.
  revert d. induction ms as [|m ms IH]; intros d Hnd; cbn [fold_left].
  { split; [done|]. by intros m Hm%elem_of_nil. }
  cbn [map] in Hnd. apply NoDup_cons in Hnd as [Hm Hnd].
  set (d1 := cancelMember cfg t ref rid now m d). destruct (IH d1 Hnd) as [Hp Hin]. cbv zeta in *.
  assert (d_done d1 = if String.eqb (c_Ref (rm_cand m)) ref
    then d_done (park (t_Name t) (rm_cand m) (rr_Outcome (rm_rec m)) (rr_Detail (rm_rec m)) (rr_RunID (rm_rec m)) d)
    else d_done d) as E1.
  { unfold d1, cancelMember. cbv zeta. rewrite (ctl_done _ _ (emit_step cfg _ _)). by case_match. }
  destruct (String.eqb_spec (c_Ref (rm_cand m)) ref) as [Er|Er].
  - assert (forall (ms : list runMember) d, ref ∉ map (fun m => c_Ref (rm_cand m)) ms ->
      d_done (fold_left (fun d m => cancelMember cfg t ref rid now m d) ms d) = d_done d) as Hsame.
    { clear. induction ms as [|m ms IH]; intros d Hn; cbn [fold_left]; [done|]. cbn [map] in Hn.
      apply not_elem_of_cons in Hn as [H1 H2]. rewrite IH by done. unfold cancelMember. cbv zeta.
      rewrite (ctl_done _ _ (emit_step cfg _ _)). destruct (String.eqb_spec (c_Ref (rm_cand m)) ref); congruence. }
    rewrite Er in Hm. unfold parks_only, done_of. rewrite Hsame, E1 by done. unfold park. simpl. rewrite Er. split.
    + intros t' ref' Hn. destruct (decide (t' = t_Name t)) as [->|Ht].
      * rewrite lookup_insert_eq. simpl. apply lookup_insert_ne. intros E. by apply Hn.
      * by rewrite lookup_insert_ne.
    + intros m' [->|Hm']%elem_of_cons Er'.
      * rewrite lookup_insert_eq. simpl. rewrite lookup_insert_eq. by eexists.
      * exfalso. apply Hm. apply list_elem_of_In, in_map_iff. exists m'. split; [done|by apply list_elem_of_In].
  - split.
    + intros t' ref' Hn. rewrite Hp by done. by rewrite (done_of_eq d d1).
    + intros m' [->|Hm']%elem_of_cons Er'; [done|by apply Hin].
Qed.

Lemma cancelBatchMember_done cfg t r ref m d :
  m ∈ u_members r -> c_Ref (rm_cand m) = ref -> NoDup (map (fun m => c_Ref (rm_cand m)) (u_members r)) ->
  let d' := cancelBatchMember cfg t r ref d in
  parks_only (t_Name t) ref d d' /\
  exists e, done_of d' (t_Name t) !! ref = Some e /\ pk_SHA e = c_SHA (rm_cand m) /\ pk_Outcome e = OutcomeRejected.
Proof.
  intros Hm Er Hnd. unfold cancelBatchMember. cbv zeta. destruct (materializeChecks_shape r) as (b & ms & Em).
  set (r2 := materializeChecks r <| u_members ::= _ |>).
  assert (u_members r2 = map (fun m => stampCancel ref (d_now d) (m <| rm_rec := ms m |>)) (u_members r)) as E2
    by (unfold r2; rewrite Em; simpl; by rewrite map_map).
  assert (forall m, rm_cand (stampCancel ref (d_now d) m) = rm_cand m) as Ec by (intros; unfold stampCancel; by case_match).
  destruct (cancelMember_done cfg t ref (u_runID r2) (d_now d) (u_members r2) (finalizeRun cfg r2 d)) as [Hp He].
  { rewrite E2, map_map. erewrite map_ext; [exact Hnd|]. intros m'. by rewrite Ec. }
  split; [intros t' ref' Hn; rewrite Hp by done; by rewrite (done_of_eq d _ t' (finalizeRun_done cfg r2 d))|].
  set (m2 := stampCancel ref (d_now d) (m <| rm_rec := ms m |>)).
  destruct (He m2) as (e & H1 & H2 & H3).
  - rewrite E2. apply list_elem_of_In, in_map_iff. exists m. split; [done|by apply list_elem_of_In].
  - unfold m2. by rewrite Ec.
  - exists e. split; [done|]. unfold m2 in *. rewrite Ec in H2. split; [exact H2|]. rewrite H3. unfold stampCancel. cbn [rm_cand].
    change (rm_cand (m <| rm_rec := ms m |>)) with (rm_cand m). by rewrite Er, String.eqb_refl.
Qed.

(** An operator's cancel of a candidate in flight: the lane is cut before its
    run; the candidate is parked as rejected at its current revision, and no
    other park changes; every member of the run gets one terminal event, the
    cancelled one rejected and its batch siblings skipped to re-queue; and every
    run stacked behind is skipped. *)
Theorem cancelInFlight_correct cfg target i r m d :
  lane_of d target !! i = Some r -> m ∈ u_members r ->
  NoDup (map (fun m => c_Ref (rm_cand m)) (u_members r)) -> c_SHA (rm_cand m) <> "" ->
  let ref := c_Ref (rm_cand m) in
  let d' := cancelInFlight cfg target i r ref d in
  lane_of d' target = take i (lane_of d target) /\ others_kept target d d' /\
  parks_only target ref d d' /\
  (exists e, done_of d' target !! ref = Some e /\ pk_SHA e = c_SHA (rm_cand m) /\ pk_Outcome e = OutcomeRejected) /\
  terminals (d_events d') = terminals (d_events d)
    ++ map (fun m => (if String.eqb (c_Ref (rm_cand m)) ref then EventRejected else EventSkipped, rm_cand m)) (u_members r)
    ++ concat (map (memberTerms EventSkipped) (drop (S i) (lane_of d target))).
Proof.
  intros Hi Hm Hnd Hsha ref d'. split; [apply cancelInFlight_lane|]. subst d'. unfold cancelInFlight. cbv zeta.
  set (t := bareTarget target). set (r1 := cancelRun d r).
  set (d1 := if (1 <? length (u_members r1))%nat then _ else _).
  assert (quiet (fun _ => False) (map (fun m => (if String.eqb (c_Ref (rm_cand m)) ref then EventRejected else EventSkipped, rm_cand m))
    (u_members r)) d d1 /\ parks_only target ref d d1 /\
    exists e, done_of d1 target !! ref = Some e /\ pk_SHA e = c_SHA (rm_cand m) /\ pk_Outcome e = OutcomeRejected) as (Q1 & P1 & E1).
  { unfold d1. change (u_members r1) with (u_members r). destruct (Nat.ltb_spec 1 (length (u_members r))) as [Hl|Hl].
    - split; [apply (cancelBatchMember_quiet cfg (fun _ => False) t r1); intros ? []|].
      by apply (cancelBatchMember_done cfg t r1 ref m d).
    - assert (u_members r = [m]) as Em.
      { destruct (u_members r) as [|m1 [|m2 ms]]; simpl in Hl; [by apply elem_of_nil in Hm| |lia].
        by apply list_elem_of_singleton in Hm as ->. }
      split.
      + replace (map _ (u_members r)) with (memberTerms EventRejected r1).
        * apply (finishRun_quiet cfg (fun _ => False) t r1 OutcomeRejected). intros ? [].
        * unfold memberTerms. change (u_members r1) with (u_members r). rewrite Em. cbn. by rewrite String.eqb_refl.
      + destruct (finishRun_parked cfg t r1 m OutcomeRejected cancelDetail d Em Hsha) as [Hp [He|[? _]]]; done. }
  clearbody d1. pose proof (skipRuns_quiet cfg t (fun _ => False) (drop (S i) (lane_of d target))
    "pipeline bubble: operator cancelled a run ahead of it" d1) as Q2.
  pose proof (skipRuns_done cfg t (drop (S i) (lane_of d target)) "pipeline bubble: operator cancelled a run ahead of it" d1) as D2.
  set (d2 := skipRuns _ _ _ _ d1) in *. clearbody d2.
  specialize (Q2 ltac:(apply Forall_forall; intros ? ? ? [])). split_and!.
  - intros t' Ht. transitivity (lane_of d1 t'); [|by eapply quiet_lane]. rewrite <- (quiet_lane _ _ _ _ t' Q2).
    unfold lane_of, setLane. simpl. by rewrite lookup_insert_ne.
  - intros t' ref' Hn. change (done_of (setLane _ _ d2) t') with (done_of d2 t'). rewrite (done_of_eq d1 d2) by done. by apply P1.
  - change (done_of (setLane _ _ d2) target) with (done_of d2 target). by rewrite (done_of_eq d1 d2).
  - change (d_events (setLane _ _ d2)) with (d_events d2). by rewrite (qt_terms _ _ _ _ Q2), (qt_terms _ _ _ _ Q1), <- app_assoc.
Qed.

(** ** Concrete lanes *)

Definition demoSpeculate : Target := mkTarget "main" "main" "merge" "speculate" 1 2 "serial" None.

Definition demoCandB : Candidate := demoCand <| c_Ref := "refs/heads/for/main/b" |> <| c_SHA := "s2" |>.

(** Two candidates waiting in order. *)
Definition demoWaiting : gmap string Candidate := {[ c_Ref demoCand := demoCand; c_Ref demoCandB := demoCandB ]}.

Definition demoQueue : Daemon :=
  demoLanding <| d_order := {[ "main" := {[ c_Ref demoCand := 1; c_Ref demoCandB := 2 ]} ]} |>.

Definition demoFilled : Daemon := refillLane demoConfig demoWorld demoSpeculate "b0" demoWaiting demoQueue.

Lemma demoWaiting_ok : cands_ok (eq "refs/heads/main") demoWaiting.
Proof.
  intros ref c. unfold demoWaiting. intros [[<- <-]|[_ [<- <-]%lookup_singleton_Some]]%lookup_insert_Some; by split.
Qed.

(** Both candidates are tested at once, the second on the tip of the first. *)
Lemma lane_reachable_ok_witness :
  map u_baseOID (lane_of demoFilled "main") = ["b0"; "m-tree-b0-s1"] /\ lane_ok (eq "refs/heads/main") demoSpeculate (lane_of demoFilled "main").
Proof.
  split; [vm_compute; reflexivity|].
  refine (lane_reachable_ok demoConfig (eq "refs/heads/main") demoSpeculate demoQueue demoFilled eq_refl _ _ _).
  - intros id. discriminate.
  - vm_compute. reflexivity.
  - apply rtc_once, ls_refill. exact demoWaiting_ok.
Defined.

(** A run without checks is green at once. *)
Definition demoReady : Daemon := demoLanding <| d_lanes := {[ "main" := [demoRunOf []] ]} |>.

Lemma demoReady_ok : lane_ok (eq "refs/heads/main") demoTarget (lane_of demoReady "main").
Proof.
  split.
  - by apply Forall_singleton.
  - by apply Forall_singleton.
  - intros _. apply NoDup_singleton.
  - intros [|i] r r' H1 H2; discriminate.
  - intros _. exact (Nat.le_refl 1).
  - apply Forall_singleton. split; [discriminate|]. apply Forall_singleton. discriminate.
Qed.

Lemma advanceLane_concludes_witness :
  fst (advanceLane demoConfig demoWorld demoTarget "b0" demoWaiting demoReady) = true /\
  let '(b, d') := advanceLane demoConfig demoWorld demoTarget "b0" demoWaiting demoReady in
  exists l' gone tss, Forall2 (fun r r' => ident r' = ident r) (lane_of demoReady "main") l' /\
    Forall2 concluded gone tss /\ terminals (d_events d') = terminals (d_events demoReady) ++ concat tss.
Proof.
  split; [vm_compute; reflexivity|].
  pose proof (advanceLane_concludes True demoConfig demoWorld (eq "refs/heads/main") demoTarget "b0" demoWaiting demoReady eq_refl demoReady_ok) as H.
  destruct (advanceLane demoConfig demoWorld demoTarget "b0" demoWaiting demoReady) as [b d'].
  destruct H as (l' & gone & tss & H1 & _ & H2 & H3 & _). exists l', gone, tss. split; [exact H1|]. split; [exact H2|exact H3].
Defined.


(** A red head of the lane: its member is parked. *)
Definition demoRed : Daemon :=
  demoLanding <| d_lanes := {[ "main" := [demoRun <| u_results := {[ "build" :=
    zeroCheckResult <| r_Name := "build" |> <| r_Status := CheckFailed |> ]} |>] ]} |>.

Lemma red_parks_witness :
  let d' := snd (advanceLane demoConfig demoWorld demoTarget "b0" demoWaiting demoRed) in
  exists e, done_of d' "main" !! c_Ref demoCand = Some e /\ pk_Outcome e = OutcomeRejected.
Proof.
  intros d'. pose proof (red_parks demoConfig demoWorld demoTarget "b0" demoWaiting demoRed) as H. cbv zeta in H.
  assert (exists r d1, stepRuns demoConfig demoWorld (lane_of demoRed "main") demoRed = ([r], d1) /\
    find_index redVerdict [r] = Some (O, r) /\ exists m, u_members r = [m] /\ rm_cand m = demoCand /\
    fst (runRejectOutcome r) = OutcomeRejected) as (r & d1 & E1 & E2 & m & E3 & E4 & E5).
  { do 2 eexists. split; [vm_compute; reflexivity|]. split; [vm_compute; reflexivity|]. eexists.
    split; [vm_compute; reflexivity|]. split; vm_compute; reflexivity. }
  change (t_Name demoTarget) with "main" in H. rewrite E1, E2, E3 in H.
  assert (findInvalid 0 (lane_of demoRed "main") "b0" demoWaiting = None) as E0 by (vm_compute; reflexivity).
  rewrite E0, E4, E5 in H. destruct H as [_ H].
  destruct (H ltac:(discriminate)) as [_ [(e & He & _ & Ho)|[Hc _]]]; [|discriminate]. exists e. split; [exact He|exact Ho].
Defined.

Lemma cancelInFlight_correct_witness :
  exists r m, lane_of demoFilled "main" !! O = Some r /\ u_members r = [m] /\
    let d' := cancelInFlight demoConfig "main" 0 r (c_Ref (rm_cand m)) demoFilled in
    lane_of d' "main" = [] /\ exists e, done_of d' "main" !! c_Ref (rm_cand m) = Some e /\ pk_Outcome e = OutcomeRejected.
Proof.
  assert (exists r m, lane_of demoFilled "main" !! O = Some r /\ u_members r = [m] /\ c_SHA (rm_cand m) = "s1") as (r & m & E1 & E2 & E3).
  { do 2 eexists. split; [vm_compute; reflexivity|]. split; vm_compute; reflexivity. }
  exists r, m. split; [exact E1|]. split; [exact E2|].
  destruct (cancelInFlight_correct demoConfig "main" 0 r m demoFilled E1) as (H1 & _ & _ & (e & H2 & _ & H3) & _).
  - rewrite E2. constructor.
  - rewrite E2. apply NoDup_singleton.
  - rewrite E3. discriminate.
  - split; [exact H1|]. exists e. split; [exact H2|exact H3].
Defined.

(** A green run whose target is paused by the time it would land, and that
    carries no override, vanishes: landing it changes nothing - the target ref
    stays, no terminal event is emitted, its pin is kept - but the lane drops
    it as if it had concluded and goes on with the runs stacked on it. *)
Theorem paused_green_run_vanishes cfg w t r l d :
  cs_Pauses (d_controls d) !! t_Name t <> None -> u_overridePause r = false -> u_verdict r = verdictGreen ->
  landRun cfg w t r d = d /\
  landPrefix cfg w t (r :: l) d = (true, snd (landPrefix cfg w t l (setLane (t_Name t) l d))).
Proof.
  intros Hp Ho Hv. assert (landRun cfg w t r d = d) as E.
  { unfold landRun. destruct (cs_Pauses (d_controls d) !! t_Name t); [|done]. simpl. by rewrite Ho. }
  split; [exact E|]. cbn [landPrefix]. rewrite bool_decide_true by done. by rewrite E.
Qed.

Lemma paused_green_run_vanishes_witness :
  let r := demoRunOf [] <| u_verdict := verdictGreen |> in
  let d := demoReady <| d_controls ::= (fun s => s <| cs_Pauses := {[ "main" := mkPause "op" "freeze" 0 ]} |>) |> in
  landRun demoConfig demoWorld demoTarget r d = d /\
  lane_of (snd (landPrefix demoConfig demoWorld demoTarget [r] d)) "main" = [].
Proof.
  intros r d. destruct (paused_green_run_vanishes demoConfig demoWorld demoTarget r [] d) as [E1 E2];
    [discriminate|reflexivity|reflexivity|]. split; [exact E1|]. rewrite E2. vm_compute. reflexivity.
Defined.
