(* ===== verification/Plan.v ===== *)
(** The published view of the queue ([src/internal/queue/snapshot.go], drain.go)
    and the schedule planner that previews a change of priority or position
    against it ([PlanSchedule] in scheduling.go). *)
From S2P Require Import Prelude GoString Core Slots Daemon Controls CheckGraph Scheduling Governor.

Open Scope string_scope.
Open Scope list_scope.
Open Scope Z_scope.

(** ** Snapshots *)

(** src/internal/queue/snapshot.go:126-129 [CurrentCheck] *)
Record CurrentCheck := mkCurrent { cc_Name : string; cc_StartedAt : Z }.

(** src/internal/queue/snapshot.go:80-123 [RunSnapshot] [Current] is the head of
    [Running] and [MergeSHA] is [ChainTip]. *)
Record RunSnapshot := mkRunSnapshot {
  sn_Candidate : Candidate;
  sn_Members : list Candidate;
  sn_RunID : string;
  sn_BaseOID : string;
  sn_ChainTip : string;
  sn_Predicted : bool;
  sn_BatchID : string;
  sn_Done : list CheckResult;
  sn_Running : list CurrentCheck;
  sn_StartedAt : Z;
}.

#[export] Instance RunSnapshot_eta : Eta RunSnapshot := fun r => mkRunSnapshot
  (sn_Candidate r) (sn_Members r) (sn_RunID r) (sn_BaseOID r) (sn_ChainTip r) (sn_Predicted r) (sn_BatchID r)
  (sn_Done r) (sn_Running r) (sn_StartedAt r).

(** src/internal/queue/snapshot.go:132-137 [WaitingEntry] *)
Record WaitingEntry := mkWaiting { wt_Urgent : bool; wt_Priority : string; wt_Candidate : Candidate; wt_Seq : Z }.

(** src/internal/queue/snapshot.go:142-153 [ParkedEntry] *)
Record ParkedEntry := mkParked {
  pd_Candidate : Candidate; pd_Outcome : Outcome; pd_Reason : string; pd_At : Z; pd_RunID : string }.

(** src/internal/queue/snapshot.go:59-77 [TargetSnapshot] [InFlight] is the head
    of [Pipeline]. *)
Record TargetSnapshot := mkTargetSnapshot {
  ts_Scheduling : option Scheduling;
  ts_Circuit : option Circuit;
  ts_Pause : option Pause;
  ts_ControlError : string;
  ts_EmergencyEnabled : bool;
  ts_Name : string;
  ts_Branch : string;
  ts_TargetTip : string;
  ts_Pipeline : list RunSnapshot;
  ts_Waiting : list WaitingEntry;
  ts_Parked : list ParkedEntry;
}.

(** src/internal/queue/drain.go:13-19 [Lifecycle] *)
Inductive Lifecycle := LifecycleRunning | LifecycleDraining | LifecycleDrained.

(** src/internal/queue/snapshot.go:23-53 [Snapshot] *)
Record Snapshot := mkSnapshot {
  ss_At : Z;
  ss_Targets : list TargetSnapshot;
  ss_Policy : list PolicyAudit;
  ss_IdleSince : Z;
  ss_Lifecycle : Lifecycle;
  ss_DrainSince : Z;
  ss_DrainDeadline : Z;
  ss_ActiveRuns : Z;
  ss_ActiveChecks : Z;
}.

(** src/internal/queue/snapshot.go:223-223 [buildTargetSnapshot] *)
Definition classes := ["low"; "normal"; "high"; "urgent"].
Definition className (rank : Z) : string := nth (Z.to_nat rank) classes "".

Section Snapshots.
Context (cfg : Config).
Implicit Types (d : Daemon) (r : run) (t : Target).

(** src/internal/queue/snapshot.go:334-376 [buildRunSnapshot] *)
Definition buildRunSnapshot r : RunSnapshot :=
  mkRunSnapshot (headCand r) (map rm_cand (u_members r)) (u_runID r) (u_baseOID r) (u_chainTip r) (u_predicted r)
    (u_batchID r)
    (omap (fun k => u_results r !! k_Name k) (u_checks r))
    (omap (fun k => match u_inflight r !! k_Name k with
                    | Some inf => Some (mkCurrent (k_Name k) (f_start inf))
                    | None => None
                    end) (u_checks r))
    (match u_members r with m :: _ => rr_StartedAt (rm_rec m) | [] => 0 end).

(** src/internal/queue/snapshot.go:228-231 [buildTargetSnapshot] The candidates
    with their effective own class. *)
Definition shownCands (target : string) (refs : gmap string string) d : gmap string Candidate :=
  (fun c => c <| c_Priority := className (ownPriority d c (d_now d)) |>) <$> candidatesFor d target refs.

(** src/internal/queue/snapshot.go:249-256 [buildTargetSnapshot] *)
Definition showPriority (cands : gmap string Candidate) (c : Candidate) : Candidate :=
  match cands !! c_Ref c with Some cur => c <| c_Priority := c_Priority cur |> | None => c end.

(** src/internal/queue/snapshot.go:247-258 [buildTargetSnapshot] *)
Definition pipelineView (cands : gmap string Candidate) r : RunSnapshot :=
  let view := buildRunSnapshot r in
  view <| sn_Members ::= map (showPriority cands) |> <| sn_Candidate ::= showPriority cands |>.

(** src/internal/queue/snapshot.go:292-300 [buildTargetSnapshot] *)
Definition waitLess (ranks order : string -> Z) (a b : string) : bool :=
  if negb (ranks a =? ranks b) then ranks b <? ranks a
  else if negb (order a =? order b) then order a <? order b
  else String.ltb a b.

(** src/internal/queue/snapshot.go:207-328 [buildTargetSnapshot] *)
Definition buildTargetSnapshot t (refs : gmap string string) d : TargetSnapshot :=
  let target := t_Name t in
  let all := candidatesFor d target refs in
  let rank ref := priorityAt d ref all (d_now d) in
  let cands := shownCands target refs d in
  let pipeline := map (pipelineView cands) (lane_of d target) in
  let order ref := order_of d target !!! ref else 0 in
  let inFlight : gset string := list_to_set (c_Ref <$> concat (sn_Members <$> pipeline)) in
  let done := done_of d target in
  let waiting := sort_by (waitLess rank order)
    (List.filter (fun ref => negb (bool_decide (ref ∈ inFlight)) && negb (isSome (done !! ref))) (keys_of cands)) in
  let parked := sort_by String.ltb
    (List.filter (fun ref => match done !! ref with
                             | Some e => String.eqb (pk_Version e) "" || isSome (cands !! ref)
                             | None => false end) (map_to_list done).*1) in
  mkTargetSnapshot (schedulingSnapshot t d)
    (match cs_Circuits (d_controls d) !! target with
     | Some c => if 0 <? ci_Backoff c then Some c else None | None => None end)
    (cs_Pauses (d_controls d) !! target)
    (cs_LastError (d_controls d)) (cfg_AllowEmergency cfg) target (t_Branch t)
    (refs !!! targetRefName t else "") pipeline
    (map (fun ref => mkWaiting (rank ref =? 3) (className (rank ref)) (cands !!! ref else zeroCandidate) (order ref)) waiting)
    (map (fun ref =>
       let e := done !!! ref else mkPark "" "" OutcomeLanded "" 0 "" in
       mkParked (cands !!! ref else zeroCandidate <| c_Ref := ref |> <| c_Target := target |> <| c_SHA := pk_SHA e |>)
         (pk_Outcome e) (pk_Reason e) (pk_At e) (pk_RunID e)) parked).

(** src/internal/queue/snapshot.go:197-204 [queueIdle] *)
Definition queueIdle (targets : list TargetSnapshot) : bool :=
  forallb (fun ts => match ts_Waiting ts, ts_Pipeline ts with [], [] => true | _, _ => false end) targets.

(** src/internal/queue/drain.go:63-69 [activeRuns] *)
Definition activeRuns d : Z := map_fold (fun _ l n => n + Z.of_nat (length l)) 0 (d_lanes d).

(** src/internal/queue/drain.go:71-79 [activeChecks] *)
Definition activeChecks d : Z :=
  map_fold (fun _ l n => fold_left (fun n r => n + Z.of_nat (size (u_inflight r))) l n) 0 (d_lanes d).

(** src/internal/queue/drain.go:84-86 [drainComplete] *)
Definition drainComplete d : bool := d_draining d && (activeRuns d =? 0).

(** src/internal/queue/drain.go:89-98 [lifecycle] *)
Definition lifecycle d : Lifecycle :=
  if negb (d_draining d) then LifecycleRunning
  else if activeRuns d =? 0 then LifecycleDrained else LifecycleDraining.

(** src/internal/queue/drain.go:30-37 [Drain] Called from any goroutine. *)
Definition Drain (deadline : Z) d : Daemon :=
  let d := d <| d_drainReq := true |> in
  if negb (deadline =? 0) && ((d_drainReqDL d =? 0) || (deadline <? d_drainReqDL d))
  then d <| d_drainReqDL := deadline |> else d.

(** src/internal/queue/drain.go:43-57 [syncDrainRequest] *)
Definition syncDrainRequest d : Daemon :=
  if negb (d_drainReq d) then d
  else
    let dl := d_drainReqDL d in
    let d := if d_draining d then d else d <| d_draining := true |> <| d_drainSince := d_now d |> in
    if negb (dl =? 0) && ((d_drainDeadline d =? 0) || (dl <? d_drainDeadline d))
    then d <| d_drainDeadline := dl |> else d.

(** src/internal/queue/snapshot.go:161-191 [buildSnapshot] *)
Definition buildSnapshot (refs : gmap string string) d : Snapshot * Daemon :=
  let targets := map (fun t => buildTargetSnapshot t refs d) (cfg_Targets cfg) in
  let d := if queueIdle targets then (if d_idleSince d =? 0 then d <| d_idleSince := d_now d |> else d)
           else d <| d_idleSince := 0 |> in
  (mkSnapshot (d_now d) targets (cs_PolicyAudit (d_controls d)) (d_idleSince d) (lifecycle d) (d_drainSince d)
     (d_drainDeadline d) (activeRuns d) (activeChecks d), d).
End Snapshots.

(** ** Planning a move *)

(** src/internal/queue/scheduling.go:44-52 [ScheduleImpact] *)
Record ScheduleImpact := mkImpact {
  im_Token : string;
  im_Order : list string;
  im_AffectedRuns : list string;
  im_CompletedChecks : Z;
  im_RunningChecks : Z;
  im_SpentSeconds : float64;
  im_PreemptRequired : bool;
}.

Section PlanSchedule.
(** The digest of the marshalled positions, run IDs and candidates. *)
Context (planToken : list string -> list string -> list Candidate -> string).
Implicit Types (byRef : gmap string Candidate) (selected : gset string).

(** src/internal/queue/scheduling.go:77-84 [PlanSchedule] The first candidate shown for each ref, in display order. *)
Definition distinct (cands : list Candidate) : list string * gmap string Candidate :=
  fold_left (fun acc c =>
    let '(original, byRef) := acc in
    if isSome (byRef !! c_Ref c) then acc else (original ++ [c_Ref c], <[c_Ref c := c]> byRef))
    cands ([], ∅).

(** src/internal/queue/scheduling.go:87-97 [PlanSchedule] The exact revisions
    the command selects. *)
Fixpoint selectRevisions byRef (revs : list Revision) selected : option (gset string) :=
  match revs with
  | [] => Some selected
  | rv :: rest =>
      match byRef !! rv_Ref rv with
      | Some c => if String.eqb (c_SHA c) (rv_SHA rv) && String.eqb (c_Version c) (rv_Version rv)
                     && negb (bool_decide (rv_Ref rv ∈ selected))
                  then selectRevisions byRef rest ({[rv_Ref rv]} ∪ selected) else None
      | None => None
      end
  end.

(** src/internal/queue/scheduling.go:129-129 [PlanSchedule] *)
Definition parentOf byRef (ref : string) : string := c_DependsOn (byRef !!! ref else zeroCandidate).

(** src/internal/queue/scheduling.go:126-140 [PlanSchedule] The prerequisites an
    urgent preemption takes along. *)
Fixpoint includeParents (fuel : nat) byRef (ref : string) selected : gset string :=
  match fuel with
  | O => selected
  | S fuel =>
      let parent := parentOf byRef ref in
      if negb (String.eqb parent "") && negb (bool_decide (parent ∈ selected)) && isSome (byRef !! parent)
      then includeParents fuel byRef parent ({[parent]} ∪ selected) else selected
  end.

(** src/internal/queue/scheduling.go:137-139 [PlanSchedule] *)
Definition withParents byRef selected : gset string :=
  fold_left (fun sel ref => includeParents (S (size byRef)) byRef ref sel) (elements selected) selected.

(** src/internal/queue/scheduling.go:118-118 [PlanSchedule] *)
Definition rankOf byRef (ref : string) : Z := fst (PriorityRank (c_Priority (byRef !!! ref else zeroCandidate))).

(** src/internal/queue/scheduling.go:162-165 [PlanSchedule] The position of a ref, if it is listed. *)
Definition posOf (order : list string) (ref : string) : option nat :=
  option_map fst (find_index (String.eqb ref) order).

(** src/internal/queue/scheduling.go:141-161 [PlanSchedule] The selected block
    moves to the anchor, or to the front; everything keeps its relative order. *)
Definition moveBlock (original : list string) selected (anchor : string) (after : bool) : list string :=
  let block := List.filter (fun ref => bool_decide (ref ∈ selected)) original in
  let remaining := List.filter (fun ref => negb (bool_decide (ref ∈ selected))) original in
  let position := if String.eqb anchor "" then O
                  else match posOf remaining anchor with
                       | Some i => if after then S i else i
                       | None => O
                       end in
  take position remaining ++ block ++ drop position remaining.

(** src/internal/queue/scheduling.go:162-170 [PlanSchedule] *)
Definition misplaced byRef (order : list string) : option string :=
  option_map snd (find_index (fun ref =>
    match posOf order (parentOf byRef ref), posOf order ref with
    | Some parent, Some pos => (pos <? parent)%nat
    | Some parent, None => (0 <? parent)%nat
    | None, _ => false
    end) (keys_of byRef)).

(** src/internal/queue/scheduling.go:171-177 [PlanSchedule] The first position
    that differs. *)
Fixpoint firstChanged (order original : list string) : nat :=
  match order, original with
  | a :: order, b :: original => if String.eqb a b then S (firstChanged order original) else O
  | _, _ => O
  end.

(** src/internal/queue/scheduling.go:180-183 [PlanSchedule] *)
Definition slotCount (r : RunSnapshot) : nat := Nat.max 1 (length (sn_Members r)).

(** src/internal/queue/scheduling.go:178-196 [PlanSchedule] The runs behind the
    first change, with what they have spent. *)
Fixpoint affected (runs : list RunSnapshot) (offset changed : nat) (out : ScheduleImpact) : ScheduleImpact :=
  match runs with
  | [] => out
  | r :: rest =>
      let out := if (changed <? offset + slotCount r)%nat
                 then mkImpact (im_Token out) (im_Order out) (im_AffectedRuns out ++ [sn_RunID r])
                        (im_CompletedChecks out + Z.of_nat (length (sn_Done r)))
                        (im_RunningChecks out + Z.of_nat (length (sn_Running r)))
                        (fold_left (fun s res => f64_add s (Seconds (r_Duration res))) (sn_Done r) (im_SpentSeconds out))
                        (im_PreemptRequired out)
                 else out in
      affected rest (offset + slotCount r) changed out
  end.

(** src/internal/queue/scheduling.go:241-252 [PlanSchedule] A candidate after
    its prerequisites. *)
Fixpoint placeRef (fuel : nat) byRef (ref : string) (acc : gset string * list string) : gset string * list string :=
  match fuel with
  | O => acc
  | S fuel =>
      let '(placed, order) := acc in
      if bool_decide (ref ∈ placed) then acc
      else
        let parent := parentOf byRef ref in
        let '(placed, order) := if isSome (byRef !! parent) then placeRef fuel byRef parent ({[ref]} ∪ placed, order)
                                else ({[ref]} ∪ placed, order) in
        (placed, order ++ [ref])
  end.

(** src/internal/queue/scheduling.go:206-256 [PlanSchedule] A change of class:
    what is in flight stays, the rest is sorted by inherited rank with
    prerequisites first. *)
Definition reprioritize byRef (runs : list RunSnapshot) (order : list string) selected (class : string) : list string :=
  let byRef := (fun c => if bool_decide (c_Ref c ∈ selected) then c <| c_Priority := class |> <| c_Urgent := false |> else c) <$> byRef in
  let fixed := fold_left (fun n r => (n + slotCount r)%nat) runs O in
  let keys := keys_of byRef in
  let rank ref := fst (rankFrom (rankOf byRef) byRef keys (S (S (size byRef))) ref ∅) in
  let pending := sort_by (fun a b => rank b <? rank a) (drop fixed order) in
  snd (fold_left (fun acc ref => placeRef (S (size byRef)) byRef ref acc) pending
         (list_to_set (take fixed order), take fixed order)).

(** src/internal/queue/scheduling.go:100-124 [PlanSchedule] Why a move or
    preemption is refused. *)
Definition moveRefused (cmd : Command) byRef selected (anchor : string) : option string :=
  let move := String.eqb (m_Kind cmd) "move" in
  if negb (String.eqb (m_Before cmd) "") && negb (String.eqb (m_After cmd) "") then Some "choose before or after, not both"
  else if move && String.eqb anchor "" then Some "move requires before or after"
  else if negb (String.eqb anchor "") && (negb (isSome (byRef !! anchor)) || bool_decide (anchor ∈ selected))
  then Some "anchor is unavailable or selected"
  else if move && existsb (fun ref => negb (rankOf byRef ref =? rankOf byRef anchor)) (elements selected)
  then Some "move within one priority class; set priority first"
  else None.

(** src/internal/queue/scheduling.go:57-76 [PlanSchedule] *)
Definition plannedCands (target : TargetSnapshot) : list Candidate :=
  concat (map (fun r => match sn_Members r with [] => [sn_Candidate r] | ms => ms end) (ts_Pipeline target))
  ++ map wt_Candidate (ts_Waiting target) ++ map pd_Candidate (ts_Parked target).

(** src/internal/queue/scheduling.go:54-260 [PlanSchedule] *)
Definition PlanSchedule (target : TargetSnapshot) (cmd : Command) : ScheduleImpact + string :=
  let runs := ts_Pipeline target in
  let '(original, byRef) := distinct (plannedCands target) in
  let token := planToken original (map sn_RunID runs) (plannedCands target) in
  match selectRevisions byRef (m_Revisions cmd) ∅ with
  | None => inr "selected revision changed or disappeared"
  | Some selected =>
      let move := String.eqb (m_Kind cmd) "move" in
      if (size selected =? 0)%nat || (64 <? size selected)%nat then inr "select 1..64 exact revisions"
      else if move || m_Preempt cmd then
        let anchor := if String.eqb (m_Before cmd) "" then m_After cmd else m_Before cmd in
        match moveRefused cmd byRef selected anchor with
        | Some e => inr e
        | None =>
            let selected := if move then selected else withParents byRef selected in
            let order := moveBlock original selected anchor (negb (String.eqb (m_After cmd) "")) in
            match misplaced byRef order with
            | Some ref => inr ("move would place " +:+ ref +:+ " before its prerequisite")
            | None =>
                let changed := firstChanged order original in
                let out := affected runs 0 changed (mkImpact token order [] 0 0 f64_zero false) in
                inl (mkImpact (im_Token out) order (im_AffectedRuns out) (im_CompletedChecks out) (im_RunningChecks out)
                       (im_SpentSeconds out) (negb (bool_decide (im_AffectedRuns out = []))))
            end
        end
      else
        let class := if String.eqb (m_Kind cmd) "urgent" then "urgent" else m_Priority cmd in
        if negb (snd (PriorityRank class)) then inr "unknown priority"
        else inl (mkImpact token (reprioritize byRef runs original selected class) [] 0 0 f64_zero false)
  end.
End PlanSchedule.

(** ** What a plan is *)

Lemma distinct_spec cands :
  let '(original, byRef) := distinct cands in
  NoDup original /\ (forall ref, ref ∈ original <-> is_Some (byRef !! ref)) /\
  (forall ref c, byRef !! ref = Some c -> c_Ref c = ref /\ c ∈ cands).
Proof.
  unfold distinct.
  assert (forall acc : list string * gmap string Candidate, NoDup acc.1 -> (forall ref, ref ∈ acc.1 <-> is_Some (acc.2 !! ref)) ->
    (forall ref c, acc.2 !! ref = Some c -> c_Ref c = ref /\ c ∈ cands) -> forall l, (forall c, c ∈ l -> c ∈ cands) ->
    let '(original, byRef) := fold_left (fun acc c => let '(original, byRef) := acc in
      if isSome (byRef !! c_Ref c) then acc else (original ++ [c_Ref c], <[c_Ref c := c]> byRef)) l acc in
    NoDup original /\ (forall ref, ref ∈ original <-> is_Some (byRef !! ref)) /\
    (forall ref c, byRef !! ref = Some c -> c_Ref c = ref /\ c ∈ cands)) as H.
  { intros acc H1 H2 H3 l. revert acc H1 H2 H3. induction l as [|c l IH]; intros [original byRef] H1 H2 H3 Hl; cbn [fold_left]; [done|].
    simpl in *. destruct (byRef !! c_Ref c) as [c'|] eqn:E; simpl.
    - apply IH; auto. intros x Hx. apply Hl. by right.
    - apply IH; simpl; [| | |intros x Hx; apply Hl; by right].
      + apply NoDup_app. split_and!; [done| |apply NoDup_singleton].
        intros x Hx ->%list_elem_of_singleton. apply H2 in Hx. rewrite E in Hx. by destruct Hx.
      + intros ref. rewrite elem_of_app, list_elem_of_singleton, H2, lookup_insert_is_Some. split.
        * intros [?| ->]; [destruct (decide (c_Ref c = ref))|]; auto.
        * intros [ ->|[_ ?]]; auto.
      + intros ref x [[<- <-]|[_ Hx]]%lookup_insert_Some; [|by apply H3]. split; [done|]. apply Hl. by left. }
  apply (H ([], ∅)); simpl; [apply NoDup_nil_2| | |done].
  - intros ref. rewrite lookup_empty. split; [by intros ?%elem_of_nil|by intros []].
  - intros ref c. by rewrite lookup_empty.
Qed.

Lemma filter_partition_perm {A} (f : A -> bool) (l : list A) :
  List.filter f l ++ List.filter (fun x => negb (f x)) l ≡ₚ l.
Proof.
  induction l as [|x l IH]; simpl; [done|]. destruct (f x); simpl; [by constructor|].
  rewrite <- Permutation_middle. by constructor.
Qed.

(** The moved block stays together, everything keeps its relative order. *)
Lemma moveBlock_spec original selected anchor after :
  let inBlock ref := bool_decide (ref ∈ selected) in
  exists a b, moveBlock original selected anchor after = a ++ List.filter inBlock original ++ b /\
    a ++ b = List.filter (fun ref => negb (inBlock ref)) original /\
    moveBlock original selected anchor after ≡ₚ original.
Proof.
  intros inBlock. unfold moveBlock. fold inBlock.
  set (rest := List.filter (fun ref => negb (inBlock ref)) original). set (n := if String.eqb anchor "" then O else _).
  exists (take n rest), (drop n rest). split; [done|]. split; [apply take_drop|].
  rewrite Permutation_app_swap_app, take_drop. apply filter_partition_perm.
Qed.

Lemma posOf_elem order ref : ref ∈ order -> is_Some (posOf order ref).
Proof.
  intros H. unfold posOf. destruct (find_index_exists (String.eqb ref) order ref H (String.eqb_refl ref)) as [[i x] E].
  rewrite E. by eexists.
Qed.

Lemma misplaced_None byRef order :
  misplaced byRef order = None -> (forall ref, ref ∈ order -> is_Some (byRef !! ref)) ->
  forall ref i j, posOf order ref = Some i -> posOf order (parentOf byRef ref) = Some j -> (j <= i)%nat.
Proof.
  unfold misplaced. intros H Hin ref i j Hi Hj. destruct (find_index _ (keys_of byRef)) as [[n x]|] eqn:E; [done|].
  assert (ref ∈ keys_of byRef) as Hk.
  { apply (elem_of_keys byRef (keys_of byRef) (reflexivity _)). apply Hin. unfold posOf in Hi.
    destruct (find_index (String.eqb ref) order) as [[k y]|] eqn:Ef; [|done].
    apply find_index_Some in Ef as (Hl & ->%String.eqb_eq & _). by eapply list_elem_of_lookup_2. }
  pose proof (find_index_None _ _ ref E Hk) as Hf. cbv beta in Hf. rewrite Hj, Hi in Hf.
  by apply Nat.ltb_ge in Hf.
Qed.

Lemma firstChanged_take order original n :
  (n <= firstChanged order original)%nat -> take n order = take n original.
Proof.
  revert original n. induction order as [|a order IH]; intros [|b original] n; cbn [firstChanged]; intros H;
    try (replace n with O by lia; by rewrite !take_0).
  destruct (String.eqb_spec a b) as [->|]; [|replace n with O by lia; by rewrite !take_0].
  destruct n as [|n]; [done|]. cbn [take]. f_equal. apply IH. lia.
Qed.

Definition inFlightSlots (runs : list RunSnapshot) : nat := fold_left (fun n r => (n + slotCount r)%nat) runs O.

Lemma slots_from runs n : fold_left (fun n r => (n + slotCount r)%nat) runs n = (n + inFlightSlots runs)%nat.
Proof.
  unfold inFlightSlots. revert n. induction runs as [|r runs IH]; intros n; cbn [fold_left]; [lia|].
  rewrite IH, (IH (0 + slotCount r)%nat). lia.
Qed.

Lemma affected_runs runs offset changed out :
  exists l, im_AffectedRuns (affected runs offset changed out) = im_AffectedRuns out ++ l /\
    (l = [] -> runs = [] \/ (offset + inFlightSlots runs <= changed)%nat).
Proof.
  revert offset out. induction runs as [|r runs IH]; intros offset out; cbn [affected].
  { exists []. rewrite app_nil_r. auto. }
  cbv zeta. destruct (IH (offset + slotCount r)%nat (if (changed <? offset + slotCount r)%nat then
    mkImpact (im_Token out) (im_Order out) (im_AffectedRuns out ++ [sn_RunID r]) (im_CompletedChecks out + Z.of_nat (length (sn_Done r)))
      (im_RunningChecks out + Z.of_nat (length (sn_Running r)))
      (fold_left (fun s res => f64_add s (Seconds (r_Duration res))) (sn_Done r) (im_SpentSeconds out)) (im_PreemptRequired out)
    else out)) as (l & -> & Hl).
  destruct (Nat.ltb_spec changed (offset + slotCount r)) as [Hc|Hc]; cbn [im_AffectedRuns].
  - exists ([sn_RunID r] ++ l). split; [by rewrite app_assoc|done].
  - exists l. split; [done|]. intros E. right. unfold inFlightSlots. cbn [fold_left]. rewrite slots_from.
    destruct (Hl E) as [->|]; [unfold inFlightSlots; simpl; lia|lia].
Qed.

Section Place.
Context (byRef : gmap string Candidate) (fixed : list string) (depth : string -> nat).
Let parent := parentOf byRef.
Hypothesis Hdepth : forall ref, is_Some (byRef !! parent ref) -> (depth (parent ref) < depth ref)%nat.

(** Every listed ref outside [fixed] comes after its prerequisite. *)
Definition parents_first (l : list string) : Prop :=
  forall l1 x l2, l = l1 ++ x :: l2 -> x ∉ fixed -> is_Some (byRef !! parent x) -> parent x ∈ l1.

Lemma parents_first_snoc l x :
  parents_first l -> (is_Some (byRef !! parent x) -> parent x ∈ l) -> parents_first (l ++ [x]).
Proof.
  intros H Hx l1 y l2 E Hy Hp. destruct (exists_last (l := y :: l2) ltac:(done)) as (l3 & z & Ez).
  rewrite Ez, app_assoc in E. apply app_inj_tail in E as [E ->].
  destruct l3 as [|y' l3]; simpl in Ez; injection Ez as -> ->; [rewrite app_nil_r in E; subst; auto|].
  by apply (H l1 y' l3).
Qed.

(** What placing one ref adds. *)
Definition places (ref : string) (placed placed' : gset string) (order order' : list string) : Prop :=
  (exists new, order' = order ++ new /\ forall x, x ∈ new -> is_Some (byRef !! x) /\ x ∉ placed) /\
  (forall x, x ∈ placed' <-> x ∈ placed \/ x ∈ order') /\ ref ∈ order' /\ NoDup order' /\ parents_first order'.

Lemma placeRef_spec fuel ref placed order :
  is_Some (byRef !! ref) -> (forall x, x ∈ placed -> x ∈ order \/ (depth ref < depth x)%nat) ->
  (forall x, x ∈ order -> x ∈ placed) -> NoDup order -> parents_first order ->
  (size (dom byRef ∖ placed) < fuel)%nat ->
  let '(placed', order') := placeRef fuel byRef ref (placed, order) in places ref placed placed' order order'.
Proof.
  revert ref placed order. induction fuel as [|fuel IH]; intros ref placed order Hr Hst Hsub Hnd Hpf Hf; [lia|].
  cbn [placeRef]. case_bool_decide as Hin.
  { split; [exists []; rewrite app_nil_r; split; [done|by intros x ?%elem_of_nil]|]. split_and!; try done.
    - intros x. split; [auto|intros [?|?]; auto].
    - destruct (Hst ref Hin) as [?|?]; [done|lia]. }
  assert (size (dom byRef ∖ ({[ref]} ∪ placed)) < size (dom byRef ∖ placed))%nat as Hsz.
  { apply subset_size. apply elem_of_dom in Hr. split; set_solver. }
  fold (parent ref).
  assert (forall placed' order', (exists new, order' = order ++ new /\ forall x, x ∈ new -> is_Some (byRef !! x) /\ x ∉ {[ref]} ∪ placed) ->
    (forall x, x ∈ placed' <-> x ∈ {[ref]} ∪ placed \/ x ∈ order') -> NoDup order' -> parents_first order' ->
    (is_Some (byRef !! parent ref) -> parent ref ∈ order') -> places ref placed placed' order (order' ++ [ref])) as Hfin.
  { intros placed' order' (new & -> & Hnew) Hpl Hnd' Hpf' Hpar. split; [|split_and!].
    - exists (new ++ [ref]). rewrite app_assoc. split; [done|]. intros x [Hx| ->%list_elem_of_singleton]%elem_of_app; [|by split].
      destruct (Hnew x Hx). set_solver.
    - intros x. rewrite Hpl, !elem_of_app, list_elem_of_singleton. set_solver.
    - apply elem_of_app. right. by apply list_elem_of_singleton.
    - apply NoDup_app. split_and!; [done| |apply NoDup_singleton]. intros x Hx ->%list_elem_of_singleton.
      apply elem_of_app in Hx as [Hx|Hx]; [by apply Hin, Hsub|]. destruct (Hnew ref Hx). set_solver.
    - by apply parents_first_snoc. }
  destruct (byRef !! parent ref) as [cp|] eqn:Ep; cbn [isSome].
  - specialize (IH (parent ref) ({[ref]} ∪ placed) order). pose proof (Hdepth ref ltac:(rewrite Ep; by eexists)) as Hd.
    destruct (placeRef fuel byRef (parent ref) ({[ref]} ∪ placed, order)) as [placed' order'].
    destruct IH as (Hnew & Hpl & Hp & Hnd' & Hpf'); [by rewrite Ep| | |done|done|lia|].
    + intros x [->%elem_of_singleton|Hx]%elem_of_union; [right; lia|]. destruct (Hst x Hx) as [?|?]; [by left|right; lia].
    + intros x Hx. apply elem_of_union. right. auto.
    + apply Hfin; auto.
  - apply Hfin; auto; [exists []; rewrite app_nil_r; split; [done|by intros x ?%elem_of_nil]|set_solver|].
    intros H. by destruct H.
Qed.

Lemma place_all pending placed order :
  (forall x, x ∈ pending -> is_Some (byRef !! x)) -> (forall x, x ∈ placed <-> x ∈ order) -> NoDup order -> parents_first order ->
  let res := snd (fold_left (fun acc ref => placeRef (S (size byRef)) byRef ref acc) pending (placed, order)) in
  NoDup res /\ parents_first res /\ (forall x, x ∈ order \/ x ∈ pending -> x ∈ res) /\
  (exists new, res = order ++ new /\ forall x, x ∈ new -> is_Some (byRef !! x)).
Proof.
  revert placed order. induction pending as [|ref pending IH]; intros placed order Hp Hpl Hnd Hpf; cbn [fold_left]; cbv zeta.
  { split_and!; try done; [intros x [?|?%elem_of_nil]; done|]. exists []. rewrite app_nil_r. split; [done|by intros x ?%elem_of_nil]. }
  pose proof (placeRef_spec (S (size byRef)) ref placed order) as H.
  destruct (placeRef (S (size byRef)) byRef ref (placed, order)) as [placed' order'].
  destruct H as ((new & -> & Hnew) & Hpl' & Href & Hnd' & Hpf'); try done.
  - apply Hp. by left.
  - intros x Hx. left. by apply Hpl.
  - intros x Hx. by apply Hpl.
  - apply Nat.lt_succ_r. rewrite <- size_dom. apply subseteq_size. set_solver.
  - destruct (IH placed' (order ++ new)) as (H1 & H2 & H3 & (new' & H4 & H5)); try done.
    + intros x Hx. apply Hp. by right.
    + intros x. rewrite Hpl'. split; [|auto]. intros [?|?]; [apply elem_of_app; left; by apply Hpl|done].
    + split_and!; [done|done| |].
      * intros x [Hx|Hx]; [apply H3; left; apply elem_of_app; by left|]. apply elem_of_cons in Hx as [->|Hx]; apply H3; auto.
      * exists (new ++ new'). rewrite H4, app_assoc. split; [done|]. intros x [Hx|Hx]%elem_of_app; [by apply Hnew|auto].
Qed.
End Place.

Lemma selectRevisions_spec byRef revs sel sel' :
  selectRevisions byRef revs sel = Some sel' ->
  sel' = list_to_set (map rv_Ref revs) ∪ sel /\ NoDup (map rv_Ref revs) /\
  forall rv, rv ∈ revs -> (rv_Ref rv ∉ sel) /\ exists c, byRef !! rv_Ref rv = Some c /\ c_SHA c = rv_SHA rv /\ c_Version c = rv_Version rv.
Proof.
  revert sel. induction revs as [|rv revs IH]; intros sel; cbn [selectRevisions map].
  { intros [= <-]. split_and!; [set_solver|constructor|by intros ? ?%elem_of_nil]. }
  destruct (byRef !! rv_Ref rv) as [c|] eqn:E; [|done]. destruct (_ && _) eqn:Ec; [|done].
  rewrite !andb_true_iff in Ec. destruct Ec as [[H1%String.eqb_eq H2%String.eqb_eq] H3%negb_true_iff%bool_decide_eq_false].
  intros H. destruct (IH _ H) as (-> & Hnd & Hr). split_and!.
  - cbn [list_to_set]. set_solver.
  - constructor; [|done]. intros Hin. apply list_elem_of_In, in_map_iff in Hin as (rv' & Er & Hin).
    apply list_elem_of_In in Hin. destruct (Hr rv' Hin) as [Hn _]. rewrite Er in Hn. set_solver.
  - intros rv' [->|Hin]%elem_of_cons; [eauto|]. destruct (Hr rv' Hin) as [Hn ?]. split; [set_solver|done].
Qed.

Lemma includeParents_mono fuel byRef ref sel : sel ⊆ includeParents fuel byRef ref sel.
Proof.
  revert ref sel. induction fuel as [|fuel IH]; intros ref sel; cbn [includeParents]; [done|].
  case_match; [|done]. etrans; [|apply IH]. set_solver.
Qed.

Lemma withParents_mono byRef sel : sel ⊆ withParents byRef sel.
Proof.
  unfold withParents. generalize (elements sel) as l. intros l. generalize (S (size byRef)) as fuel. intros fuel. revert sel.
  induction l as [|x l IH]; intros sel; cbn [fold_left]; [done|]. etrans; [apply (includeParents_mono fuel byRef x)|apply IH].
Qed.

(** A planned move or preemption: the new order is a rearrangement of the
    displayed refs in which the selected block (with the prerequisites an urgent
    preemption takes along) is contiguous and everything else, inside the block
    and outside, keeps its relative order; no displayed candidate comes before
    its prerequisite; every selected revision was the displayed one; and a plan
    that needs no preemption leaves every position in flight as it was. *)
Theorem plan_move_correct planToken target cmd impact :
  PlanSchedule planToken target cmd = inl impact -> m_Kind cmd = "move" \/ m_Preempt cmd = true ->
  let '(original, byRef) := distinct (plannedCands target) in
  let order := im_Order impact in
  (exists (block : gset string) a b,
     (forall rv, rv ∈ m_Revisions cmd -> rv_Ref rv ∈ block) /\
     order = a ++ List.filter (fun ref => bool_decide (ref ∈ block)) original ++ b /\
     a ++ b = List.filter (fun ref => negb (bool_decide (ref ∈ block))) original) /\
  order ≡ₚ original /\
  (forall ref i j, posOf order ref = Some i -> posOf order (parentOf byRef ref) = Some j -> (j <= i)%nat) /\
  (forall rv, rv ∈ m_Revisions cmd ->
     exists c, byRef !! rv_Ref rv = Some c /\ c_SHA c = rv_SHA rv /\ c_Version c = rv_Version rv) /\
  (im_PreemptRequired impact = false ->
     take (inFlightSlots (ts_Pipeline target)) order = take (inFlightSlots (ts_Pipeline target)) original).
Proof.
  unfold PlanSchedule. cbv zeta. pose proof (distinct_spec (plannedCands target)) as Hd.
  destruct (distinct (plannedCands target)) as [original byRef]. destruct Hd as (Hnd & Hkeys & _).
  destruct (selectRevisions byRef (m_Revisions cmd) ∅) as [sel|] eqn:Es; [|done].
  destruct (_ || (64 <? size sel)%nat); [done|]. intros H Hk.
  assert ((m_Kind cmd =? "move")%string || m_Preempt cmd = true) as Em.
  { destruct Hk as [-> | ->]; [done|by rewrite orb_true_r]. }
  rewrite Em in H. destruct (moveRefused _ _ _ _); [done|].
  apply selectRevisions_spec in Es as (Esel & _ & Hr).
  set (block := if (m_Kind cmd =? "move")%string then sel else withParents byRef sel) in *.
  assert (sel ⊆ block) as Hb by (unfold block; destruct (m_Kind cmd =? "move")%string; [done|apply withParents_mono]). clearbody block.
  match type of H with context [moveBlock original block ?anchor ?after] =>
    destruct (moveBlock_spec original block anchor after) as (a & b & E1 & E2 & E3); set (order := moveBlock original block anchor after) in * end.
  destruct (misplaced byRef order) as [ref|] eqn:Em2; [done|]. injection H as <-. cbn [im_Order im_PreemptRequired].
  split_and!.
  - exists block, a, b. split_and!; [|exact E1|exact E2]. intros rv Hin. apply Hb. rewrite Esel.
    apply elem_of_union_l, elem_of_list_to_set, list_elem_of_In, in_map. by apply list_elem_of_In.
  - exact E3.
  - apply misplaced_None; [exact Em2|]. intros ref Hin. apply Hkeys. by rewrite <- E3.
  - intros rv Hin. by destruct (Hr rv Hin).
  - intros Hp%negb_false_iff%bool_decide_eq_true. apply firstChanged_take.
    destruct (affected_runs (ts_Pipeline target) 0 (firstChanged order original)
      (mkImpact (planToken original (map sn_RunID (ts_Pipeline target)) (plannedCands target)) order [] 0 0 f64_zero false)) as (l & El & Hl).
    rewrite Hp in El. simpl in El. destruct (Hl (eq_sym El)) as [->|?]; [unfold inFlightSlots; simpl; lia|lia].
Qed.

(** A planned change of class without preemption: nothing in flight is
    affected or moves, the rest is rearranged, and - unless the dependencies are
    cyclic - the result is a permutation of the displayed refs in which every
    waiting ref comes after its displayed prerequisite. *)
Theorem plan_priority_correct planToken target cmd impact (depth : string -> nat) :
  PlanSchedule planToken target cmd = inl impact -> m_Kind cmd <> "move" -> m_Preempt cmd = false ->
  let '(original, byRef) := distinct (plannedCands target) in
  let fixed := take (inFlightSlots (ts_Pipeline target)) original in
  (forall ref, is_Some (byRef !! parentOf byRef ref) -> (depth (parentOf byRef ref) < depth ref)%nat) ->
  im_AffectedRuns impact = [] /\ im_PreemptRequired impact = false /\
  (exists new, im_Order impact = fixed ++ new) /\ im_Order impact ≡ₚ original /\
  (forall l1 x l2, im_Order impact = l1 ++ x :: l2 -> x ∉ fixed -> is_Some (byRef !! parentOf byRef x) -> parentOf byRef x ∈ l1).
Proof.
  unfold PlanSchedule. cbv zeta. pose proof (distinct_spec (plannedCands target)) as Hd.
  destruct (distinct (plannedCands target)) as [original byRef]. destruct Hd as (Hnd & Hkeys & _).
  destruct (selectRevisions byRef (m_Revisions cmd) ∅) as [sel|] eqn:Es; [|done].
  destruct (_ || (64 <? size sel)%nat); [done|]. intros H Hk Hp. rewrite Hp in H.
  apply String.eqb_neq in Hk. rewrite Hk in H. cbn [orb] in H.
  set (class := if (m_Kind cmd =? "urgent")%string then "urgent" else m_Priority cmd) in H. clearbody class.
  destruct (snd (PriorityRank class)); [|done]. cbn [negb] in H. injection H as <-. intros Hdepth. cbn [im_Order im_AffectedRuns im_PreemptRequired].
  split; [done|]. split; [done|]. unfold reprioritize. cbv zeta. fold (inFlightSlots (ts_Pipeline target)).
  set (byRef' := (fun c => if bool_decide (c_Ref c ∈ sel) then _ else c) <$> byRef).
  assert (forall ref, parentOf byRef' ref = parentOf byRef ref) as Hpar.
  { intros ref. unfold parentOf, byRef'. rewrite lookup_fmap. destruct (byRef !! ref) as [c|]; simpl; [by case_bool_decide|done]. }
  assert (forall ref, is_Some (byRef' !! ref) <-> is_Some (byRef !! ref)) as Hsome.
  { intros ref. unfold byRef'. by rewrite lookup_fmap, fmap_is_Some. }
  set (fixed := take (inFlightSlots (ts_Pipeline target)) original).
  match goal with |- context [sort_by ?less (drop _ original)] => set (pending := sort_by less (drop (inFlightSlots (ts_Pipeline target)) original)) end.
  assert (pending ≡ₚ drop (inFlightSlots (ts_Pipeline target)) original) as Hpend by apply sort_by_Permutation. clearbody pending.
  assert (forall x, x ∈ pending -> x ∈ original) as Hsub.
  { intros x Hx. rewrite Hpend in Hx. eapply elem_of_sublist; [exact Hx|apply sublist_drop]. }
  destruct (place_all byRef' fixed depth) with (pending := pending) (placed := list_to_set fixed : gset string) (order := fixed)
    as (H1 & H2 & H3 & (new & H4 & H5)).
  - intros ref. rewrite Hsome, !Hpar. apply Hdepth.
  - intros x Hx. by apply Hsome, Hkeys, Hsub.
  - intros x. apply elem_of_list_to_set.
  - eapply sublist_NoDup; [exact Hnd|apply sublist_take].
  - intros l1 x l2 E Hx. exfalso. apply Hx. rewrite E. apply elem_of_app. right. by left.
  - split_and!.
    + by exists new.
    + apply NoDup_Permutation; [exact H1|exact Hnd|]. intros x. split.
      * rewrite H4. intros [Hx|Hx]%elem_of_app; [eapply elem_of_sublist; [exact Hx|apply sublist_take]|by apply Hkeys, Hsome, H5].
      * intros Hx. apply H3. rewrite Hpend, <- elem_of_app. unfold fixed. by rewrite take_drop.
    + intros l1 x l2 E Hx Hp'. specialize (H2 l1 x l2 E Hx). rewrite Hpar, Hsome in H2. auto.
Qed.

(** A queue with [a] in flight and [b], [c] on top of [b], and [d] waiting. *)
Definition planCand (ref dep : string) : Candidate :=
  zeroCandidate <| c_Ref := ref |> <| c_SHA := ref |> <| c_DependsOn := dep |> <| c_Priority := "normal" |>.

Definition demoView : TargetSnapshot :=
  let run := mkRunSnapshot (planCand "a" "") [planCand "a" ""] "run1" "b0" "m1" false "" [] [] 0 in
  let waiting ref dep := mkWaiting false "normal" (planCand ref dep) 0 in
  mkTargetSnapshot None None None "" false "main" "main" "b0" [run] [waiting "b" ""; waiting "c" "b"; waiting "d" ""] [].

Definition demoMove (kind class before : string) : Command :=
  mkCommand class false before "" "" "" "op" "because" false [mkRevision "d" "d" ""] kind "main" "".

Lemma plan_move_correct_witness :
  exists impact, PlanSchedule (fun _ _ _ => "token") demoView (demoMove "move" "normal" "b") = inl impact /\
    im_Order impact = ["a"; "d"; "b"; "c"] /\ im_Order impact ≡ₚ fst (distinct (plannedCands demoView)).
Proof.
  eexists. split; [vm_compute; reflexivity|]. split; [reflexivity|].
  match goal with |- im_Order ?i ≡ₚ _ =>
    pose proof (plan_move_correct (fun _ _ _ => "token") demoView (demoMove "move" "normal" "b") i eq_refl (or_introl eq_refl)) as H end.
  destruct (distinct (plannedCands demoView)) as [original byRef]. exact (proj1 (proj2 H)).
Defined.

Lemma plan_priority_correct_witness :
  exists impact, PlanSchedule (fun _ _ _ => "token") demoView (demoMove "priority" "high" "") = inl impact /\
    im_Order impact = ["a"; "d"; "b"; "c"] /\ im_AffectedRuns impact = [].
Proof.
  eexists. split; [vm_compute; reflexivity|]. split; [reflexivity|].
  match goal with |- im_AffectedRuns ?i = _ =>
    pose proof (plan_priority_correct (fun _ _ _ => "token") demoView (demoMove "priority" "high" "") i
      (fun ref => if String.eqb ref "c" then 1%nat else 0%nat) eq_refl ltac:(discriminate) eq_refl) as H end.
  assert (forall ref, is_Some ((snd (distinct (plannedCands demoView))) !! parentOf (snd (distinct (plannedCands demoView))) ref) ->
    ((if String.eqb (parentOf (snd (distinct (plannedCands demoView))) ref) "c" then 1%nat else 0%nat) <
     (if String.eqb ref "c" then 1%nat else 0%nat))%nat) as Hd.
  { intros ref. set (byRef := snd (distinct (plannedCands demoView))). unfold parentOf.
    destruct (byRef !! ref) as [c|] eqn:E; [|intros [x Hx]; discriminate Hx].
    assert (ref ∈ ["a"; "b"; "c"; "d"]) as Hin.
    { pose proof (distinct_spec (plannedCands demoView)) as Hs. change (distinct (plannedCands demoView)) with (["a"; "b"; "c"; "d"], byRef) in Hs.
      apply (proj1 (proj2 Hs)). by eexists. }
    rewrite !elem_of_cons in Hin. destruct Hin as [->|[->|[->|[->|Hin%elem_of_nil]]]]; try done;
      vm_compute in E; injection E as <-; intros [x Hx]; vm_compute in Hx; try discriminate Hx. vm_compute. lia. }
  destruct (distinct (plannedCands demoView)) as [original byRef]. exact (proj1 (H Hd)).
Defined.
