(* ===== verification/Reconcile.v ===== *)
(** The reconcile pass ([src/internal/queue/daemon.go], [reconcileTarget]) and
    what feeds it: operator commands (command.go, controls.go), scheduling
    commands (scheduling.go), and the requests that come in through reviews
    (review_emergency.go, review_scheduling.go). *)
From S2P Require Import Prelude GoString Core Slots Daemon Controls CheckGraph Scheduling Spec Governor Trial.
From S2P Require Import Landing Lane Plan.

Open Scope string_scope.
Open Scope list_scope.
Open Scope Z_scope.

(** ** [strconv.ParseInt(s, 10, 64)] *)

Fixpoint digitsValue (acc : Z) (b : bytes) : option Z :=
  match b with
  | [] => Some acc
  | a :: rest =>
      let v := byte_val a - 48 in
      if (0 <=? v) && (v <=? 9) then digitsValue (10 * acc + v) rest else None
  end.

(** The value, which is clamped when out of range and 0 when malformed, and
    whether there was no error. *)
Definition ParseInt (s : string) : Z * bool :=
  let '(neg, body) := match to_bytes s with
                      | a :: rest => if byte_val a =? 45 then (true, rest)
                                     else if byte_val a =? 43 then (false, rest) else (false, a :: rest)
                      | [] => (false, [])
                      end in
  match body with
  | [] => (0, false)
  | _ => match digitsValue 0 body with
         | None => (0, false)
         | Some v =>
             let v := if neg : bool then - v else v in
             if v <? - 2 ^ 63 then (- 2 ^ 63, false)
             else if 2 ^ 63 - 1 <? v then (2 ^ 63 - 1, false) else (v, true)
         end
  end.

(** [strconv.FormatInt(n, 10)] *)
Definition FormatInt (n : Z) : string := pretty n.

Section Reconcile.
Context (cfg : Config) (w : World) (planToken : list string -> list string -> list Candidate -> string).
Implicit Types (d : Daemon) (r : run) (t : Target) (c : Candidate) (cmd : Command) (refs : gmap string string).

(** The run at the head of a target's lane. *)
(** src/internal/queue/daemon.go:505-511 [headRun] *)
Definition headRun (target : string) d : option run := head (lane_of d target).

(** src/internal/queue/reconcile.go:487-493 [invalidateSuffix] *)
Definition invalidateSuffix t (i : nat) (reason : string) d : Daemon :=
  let runs := lane_of d (t_Name t) in
  setLane (t_Name t) (take i runs) (skipRuns cfg t (drop i runs) reason d).

(** ** Scheduling commands *)

(** src/internal/queue/scheduling.go:365-373 [applyScheduling] *)
Definition stampPriorities (cmd : Command) (now : Z) (next : controlState) : controlState :=
  fold_left (fun next rv => next <| cs_Priorities ::= <[rv_Ref rv := mkPriorityEntry rv (m_Priority cmd)]> |>
                                 <| cs_Enqueued ::= <[rv_Ref rv := now]> |>) (m_Revisions cmd) next.

(** src/internal/queue/scheduling.go:375-379 [applyScheduling] Fresh positions
    for the planned order. *)
Fixpoint stampOrder (order : list string) (seq : Z) (acc : gmap string Z) : gmap string Z * Z :=
  match order with
  | [] => (acc, seq)
  | ref :: rest => stampOrder rest (seq + 1) (<[ref := seq]> acc)
  end.

(** src/internal/queue/scheduling.go:389-401 [applyScheduling] *)
Definition preemptRuns t (reason : string) (affected : list string) d : Daemon :=
  match affected with
  | [] => d
  | id :: _ =>
      let first := match find_index (fun r => String.eqb (u_runID r) id) (lane_of d (t_Name t)) with
                   | Some (i, _) => i | None => O end in
      invalidateSuffix t first ("operator preemption: " +:+ reason) d
  end.

(** src/internal/queue/scheduling.go:351-382 [applyScheduling] The controls a
    planned change commits, and the next free position. *)
Definition scheduled (cmd : Command) (impact : ScheduleImpact) d : controlState * Z :=
  let move := String.eqb (m_Kind cmd) "move" in
  let next := d_controls d <| cs_Order := d_order d |> <| cs_LastError := "" |> in
  let next := if String.eqb (m_RequestID cmd) "" then next
              else next <| cs_Scheduled ::= (fun m => fold_left (fun m rv => <[rv_Ref rv := m_RequestID cmd]> m)
                                                        (m_Revisions cmd) m) |> in
  let next := if move then next else stampPriorities cmd (d_now d) next in
  let '(next, seq) := if move || m_Preempt cmd
                      then let '(ordered, seq) := stampOrder (im_Order impact) (d_seq d) ∅ in
                           (next <| cs_Order ::= <[m_Target cmd := ordered]> |>, seq)
                      else (next, d_seq d) in
  (next <| cs_Audit ::= (fun l => l ++ [mkAudit (d_now d) cmd]) |>, seq).

(** src/internal/queue/scheduling.go:307-402 [applyScheduling] *)
Definition applyScheduling (cmd : Command) t refs d : Daemon :=
  if d_draining d then setLastError "queue is draining" d
  else
    let cmd := if String.eqb (m_Kind cmd) "urgent" then cmd <| m_Priority := "urgent" |> else cmd in
    let move := String.eqb (m_Kind cmd) "move" in
    if negb (snd (PriorityRank (m_Priority cmd))) then setLastError "priority must be low, normal, high, or urgent" d
    else if negb move && m_Preempt cmd && negb (String.eqb (m_Priority cmd) "urgent")
    then setLastError "preemption requires urgent priority" d
    else
      let d := syncBookkeeping cfg (m_Target cmd) (candidatesFor d (m_Target cmd) refs) d in
      let '(snap, d) := buildSnapshot cfg refs d in
      let state := match List.find (fun ts => String.eqb (ts_Name ts) (m_Target cmd)) (ss_Targets snap) with
                   | Some ts => ts
                   | None => mkTargetSnapshot None None None "" false "" "" "" [] [] []
                   end in
      match PlanSchedule planToken state cmd with
      | inr e => setLastError e d
      | inl impact =>
          if negb (String.eqb (m_PlanToken cmd) "") && negb (String.eqb (m_PlanToken cmd) (im_Token impact))
          then setLastError "queue changed since preview; refresh and preview again" d
          else if im_PreemptRequired impact && negb (m_Preempt cmd)
          then setLastError "move affects active verification; explicit preemption required" d
          else
            let '(next, seq) := scheduled cmd impact d in
            let '(ok, d) := saveControls cfg next (d <| d_seq := seq |>) in
            if negb ok then d
            else
              let d := if move || m_Preempt cmd
                       then d <| d_order ::= <[m_Target cmd := cs_Order next !!! m_Target cmd else ∅]> |> else d in
              preemptRuns t (m_Reason cmd) (im_AffectedRuns impact) d
      end.

(** ** Incident controls *)

(** src/internal/queue/controls.go:232-244 [applyControl] The revisions of a
    merge request, each current and after its prerequisite. *)
Fixpoint selectMerge (cands : gmap string Candidate) (revs : list Revision) (selected : gset string) : option string :=
  match revs with
  | [] => None
  | rv :: rest =>
      match cands !! rv_Ref rv with
      | Some c =>
          if negb (String.eqb (c_SHA c) (rv_SHA rv)) || negb (String.eqb (c_Version c) (rv_Version rv))
             || bool_decide (rv_Ref rv ∈ selected)
          then Some "selected revision changed or disappeared; request again"
          else if negb (String.eqb (c_DependsOn c) "") && negb (bool_decide (c_DependsOn c ∈ selected))
          then Some "select prerequisites before their successors"
          else selectMerge cands rest ({[rv_Ref rv]} ∪ selected)
      | None => Some "selected revision changed or disappeared; request again"
      end
  end.

(** src/internal/queue/controls.go:253-269 [applyControl] A request through a
    review is remembered; past 500 the smallest number becomes the floor. *)
Definition processRequest (id : string) (next : controlState) : controlState :=
  if String.eqb id "" then next
  else
    let next := next <| cs_ProcessedReviews ::= <[id := true]> |> in
    if (500 <? size (cs_ProcessedReviews next))%nat then
      match merge_sort Z.le (omap (fun p => let '(n, ok) := ParseInt p.1 in if ok : bool then Some n else None)
                               (map_to_list (cs_ProcessedReviews next))) with
      | [] => next
      | n :: _ => next <| cs_ReviewFloor ::= Z.max n |> <| cs_ProcessedReviews ::= delete (FormatInt n) |>
      end
    else next.

(** src/internal/queue/controls.go:221-221 [applyControl] *)
Definition isMerge (kind : string) : bool := String.eqb kind "merge-anyway" || String.eqb kind "merge-paused".
(** src/internal/queue/controls.go:209-209 [applyControl] *)
Definition isScheduling (kind : string) : bool := existsb (String.eqb kind) ["priority"; "move"; "urgent"].

(** src/internal/queue/controls.go:213-252 [applyControl] The controls a pause,
    a resume or a merge request commits, or why it is refused. *)
Definition controlled (cmd : Command) refs d : controlState + string :=
  let target := m_Target cmd in
  let next := d_controls d <| cs_LastError := "" |> in
  let next := if String.eqb (m_Kind cmd) "pause"
              then next <| cs_Pauses ::= <[target := mkPause (m_Actor cmd) (m_Reason cmd) (d_now d)]> |> else next in
  let next := if String.eqb (m_Kind cmd) "resume" then next <| cs_Pauses ::= delete target |> else next in
  if negb (isMerge (m_Kind cmd)) then inl next
  else if (length (m_Revisions cmd) =? 0)%nat || (64 <? length (m_Revisions cmd))%nat
  then inr "select 1..64 exact revisions"
  else match selectMerge (candidatesFor d target refs) (m_Revisions cmd) ∅ with
  | Some e => inr e
  | None =>
      if isSome (cs_Pauses next !! target) && negb (m_OverridePause cmd)
      then inr "target paused; an explicit pause override is required"
      else inl (next <| cs_Emergency ::= <[target := cmd]> |>)
  end.

(** src/internal/queue/controls.go:182-279 [applyControl] A command for one
    target. *)
Definition applyControlOne (cmd : Command) refs d : Daemon :=
  if d_draining d && (isMerge (m_Kind cmd) || String.eqb (m_Kind cmd) "urgent")
  then setLastError "queue is draining; no new merge requests accepted" d
  else match authorizeCommand cfg w cmd d with
  | (false, d) => d
  | (true, d) =>
      let cmd := cmd <| m_Actor ::= TrimSpace |> <| m_Reason ::= TrimSpace |> in
      if String.eqb (m_Actor cmd) "" || String.eqb (m_Reason cmd) ""
         || (256 <? String.length (m_Actor cmd))%nat || (2048 <? String.length (m_Reason cmd))%nat
      then setLastError "incident controls require actor and reason" d
      else if String.eqb (m_Kind cmd) "merge-paused" && negb (m_OverridePause cmd)
      then setLastError "explicit pause override required" d
      else match List.find (fun t => String.eqb (t_Name t) (m_Target cmd)) (cfg_Targets cfg) with
      | None => setLastError "unknown target" d
      | Some t =>
          if isScheduling (m_Kind cmd) then applyScheduling cmd t refs d
          else match controlled cmd refs d with
          | inr e => setLastError e d
          | inl next =>
              let next := processRequest (m_RequestID cmd) next
                            <| cs_Audit ::= (fun l => l ++ [mkAudit (d_now d) cmd]) |> in
              let '(ok, d) := saveControls cfg next d in
              if ok && (String.eqb (m_Kind cmd) "pause" || isMerge (m_Kind cmd))
              then invalidateSuffix t 0 ("operator incident control: " +:+ m_Reason cmd) d else d
          end
      end
  end.

(** src/internal/queue/controls.go:173-181 [applyControl] A pause or resume of
    every target; a target must not itself be named [*]. *)
Definition applyControl (cmd : Command) refs d : Daemon :=
  if String.eqb (m_Target cmd) "*" && (String.eqb (m_Kind cmd) "pause" || String.eqb (m_Kind cmd) "resume")
  then fold_left (fun d t => applyControlOne (cmd <| m_Target := t_Name t |>) refs d) (cfg_Targets cfg) d
  else applyControlOne cmd refs d.

(** src/internal/queue/command.go:54-68 [applyCommand] *)
Definition applyCommand (cmd : Command) refs d : Daemon :=
  let k := m_Kind cmd in
  let '(ok, d) := if String.eqb k "retry" || String.eqb k "cancel" then authorizeCommand cfg w cmd d else (true, d) in
  if negb ok then d
  else if existsb (String.eqb k) ["pause"; "resume"; "urgent"; "priority"; "move"; "merge-anyway"; "merge-paused"]
  then applyControl cmd refs d
  else if String.eqb k "retry" then applyRetry cfg cmd d
  else if String.eqb k "cancel" then applyCancel cfg cmd refs d
  else d.

(** src/internal/queue/command.go:30-47 [drainCommands] The commands buffered in
    the channels, in order. *)
Definition drainCommands (cmds : list Command) refs d : Daemon :=
  fold_left (fun d cmd => applyCommand cmd refs d) cmds d.

(** ** Emergencies *)

(** src/internal/queue/controls.go:303-311 [reconcileEmergency] *)
Fixpoint pickRevisions (cands : gmap string Candidate) (revs : list Revision) : option (list Candidate) :=
  match revs with
  | [] => Some []
  | rv :: rest =>
      match cands !! rv_Ref rv with
      | Some c => if String.eqb (c_SHA c) (rv_SHA rv) && String.eqb (c_Version c) (rv_Version rv)
                  then option_map (cons c) (pickRevisions cands rest) else None
      | None => None
      end
  end.

(** src/internal/queue/controls.go:285-324 [reconcileEmergency] Whether the
    target's pass ends here. *)
Definition reconcileEmergency t (tip : string) (cands : gmap string Candidate) d : bool * Daemon :=
  if cs_Uncertain (d_controls d) then (true, d)
  else match cs_Emergency (d_controls d) !! t_Name t with
  | None => (false, d)
  | Some cmd =>
      if isSome (cs_Pauses (d_controls d) !! t_Name t) && negb (m_OverridePause cmd) then (true, d)
      else match lane_of d (t_Name t) with
      | _ :: _ => (true, snd (advanceLane cfg w t tip cands d))
      | [] =>
          if d_draining d then (true, d)
          else match pickRevisions cands (m_Revisions cmd) with
          | None => (true, clearEmergency cfg (t_Name t) "emergency revision changed; request again" d)
          | Some picked =>
              let d := startBatchRun cfg w t tip picked d in
              match headRun (t_Name t) d with
              | None => (true, clearEmergency cfg (t_Name t)
                                 "emergency history could not be constructed; see run failure" d)
              | Some r =>
                  if (length (u_members r) =? length picked)%nat then (true, d)
                  else
                    let d := finishRun cfg t (cancelRun d r) OutcomeSkipped
                      "selected emergency prefix crosses a check-spec boundary; select a shorter prefix" false d in
                    (true, clearEmergency cfg (t_Name t) "select a shorter prefix: check-spec boundary"
                             (setLane (t_Name t) [] d))
              end
          end
      end
  end.

(** ** Requests through reviews *)

(** src/internal/queue/review_scheduling.go:15-25 [reviewScheduling] Candidates grouped by a key, keys in order. *)
Definition groupBy (key : Candidate -> string) (less : string -> string -> bool) (cs : list Candidate)
  : list (string * list Candidate) :=
  let ids := sort_by less (remove_dups (map key cs)) in
  map (fun id => (id, List.filter (fun c => String.eqb (key c) id) cs)) ids.

(** src/internal/queue/review_emergency.go:38-56 [reviewEmergency] Prerequisites
    first, in passes over the group. *)
Fixpoint orderGroup (fuel : nat) (members ordered : list Candidate) : list Candidate :=
  match fuel with
  | O => ordered
  | S fuel =>
      let pass := fold_left (fun out c =>
        let refs := map c_Ref out in
        if bool_decide (c_Ref c ∈ refs) then out
        else if negb (String.eqb (c_DependsOn c) "") && negb (bool_decide (c_DependsOn c ∈ refs)) then out
        else out ++ [c]) members ordered in
      if (length pass =? length ordered)%nat then ordered else orderGroup fuel members pass
  end.

(** src/internal/queue/review_emergency.go:73-73 [reviewEmergency] *)
Definition asRevision c : Revision := mkRevision (c_Ref c) (c_SHA c) (c_Version c).

(** src/internal/queue/review_emergency.go:71-74 [reviewEmergency] *)
Definition emergencyCommand t (id : string) (first : Candidate) (ordered : list Candidate) : Command :=
  mkCommand "" false "" "" "" id ("github:" +:+ c_Requester first) (c_RequestReason first) (c_OverridePause first)
    (map asRevision ordered) "merge-anyway" (t_Name t) "".

(** src/internal/queue/review_emergency.go:29-77 [reviewEmergency] *)
Fixpoint tryEmergencies t refs (groups : list (string * list Candidate)) d : Daemon :=
  match groups with
  | [] => d
  | (id, members) :: rest =>
      let '(number, ok) := ParseInt id in
      let first := match members with c :: _ => c | [] => zeroCandidate end in
      let ordered := orderGroup (length members) members [] in
      if negb ok || (number <=? cs_ReviewFloor (d_controls d)) || (cs_ProcessedReviews (d_controls d) !!! id else false)
         || negb (Z.of_nat (length members) =? c_RequestedCount first)
         || negb (length ordered =? length members)%nat
      then tryEmergencies t refs rest d
      else match w_reviewFacts w with
      | Some facts =>
          match facts first with
          | Some e => tryEmergencies t refs rest (setLastError e d)
          | None => applyControl (emergencyCommand t id first ordered) refs d
          end
      | None => applyControl (emergencyCommand t id first ordered) refs d
      end
  end.

(** src/internal/queue/review_emergency.go:13-78 [reviewEmergency] *)
Definition reviewEmergency t refs (cands : gmap string Candidate) d : Daemon :=
  let cs := List.filter (fun c => c_SkipChecks c && negb (String.eqb (c_EmergencyID c) "")) (map_to_list cands).*2 in
  tryEmergencies t refs (groupBy c_EmergencyID (fun a b => fst (ParseInt a) <? fst (ParseInt b)) cs) d.

(** src/internal/queue/review_scheduling.go:42-45 [reviewScheduling] *)
Definition preemptCommand t (id : string) (members : list Candidate) : Command :=
  let first := match members with c :: _ => c | [] => zeroCandidate end in
  mkCommand "urgent" true "" "" "" id ("github:" +:+ c_Requester first) (c_RequestReason first) false
    (map asRevision members) "priority" (t_Name t) "".

(** src/internal/queue/review_scheduling.go:14-48 [reviewScheduling] *)
Definition reviewScheduling t refs (cands : gmap string Candidate) d : Daemon :=
  let cs := List.filter (fun c => c_Preempt c && negb (c_SkipChecks c) && negb (String.eqb (c_RequestID c) "")
                                  && negb (String.eqb (cs_Scheduled (d_controls d) !!! c_Ref c else "") (c_RequestID c)))
              (map_to_list cands).*2 in
  fold_left (fun d g =>
    let '(id, members) := g in
    let first := match members with c :: _ => c | [] => zeroCandidate end in
    if negb (Z.of_nat (length members) =? c_RequestedCount first) then d
    else match w_reviewFacts w with
    | None => d
    | Some facts =>
        match facts first with
        | Some e => setLastError e d
        | None => applyControl (preemptCommand t id members) refs d
        end
    end) (groupBy c_RequestID String.ltb cs) d.

(** ** The pass *)

(** src/internal/queue/reconcile.go:116-156 [reconcileTarget] *)
Definition reconcileTarget t refs d : Daemon :=
  let tip := refs !!! targetRefName t else "" in
  let cands := candidatesFor d (t_Name t) refs in
  let d := reviewEmergency t refs cands d in
  let '(cands, d) := policyAdmission cfg w t tip cands (keys_of cands) d in
  let d := syncBookkeeping cfg (t_Name t) cands d in
  let d := reviewScheduling t refs cands d in
  match persistScheduler cfg d with
  | (false, d) => d
  | (true, d) =>
      match reconcileEmergency t tip cands d with
      | (true, d) => d
      | (false, d) =>
          if isSome (cs_Pauses (d_controls d) !! t_Name t) && negb (existsb (fun p => c_OverridePause p.2) (map_to_list cands))
          then d
          else
            let d := prepareCircuitProbe cfg (t_Name t) cands (keys_of cands) d in
            match lane_of d (t_Name t) with
            | [] => refillLane cfg w t tip cands d
            | _ => match advanceLane cfg w t tip cands d with
                   | (true, d) => d
                   | (false, d) => refillLane cfg w t tip cands d
                   end
            end
      end
  end.

(** src/internal/queue/daemon.go:603-608 [ReconcileOnce] *)
Fixpoint admitReviews (cs : list Candidate) d : option string * Daemon :=
  match cs with
  | [] => (None, d)
  | c :: rest =>
      if String.eqb (c_Source c) "" || String.eqb (c_Ref c) "" || String.eqb (c_SHA c) ""
      then (Some "queue: incomplete review candidate", d)
      else admitReviews rest (d <| d_external ::= <[c_Ref c := c]> |>)
  end.

(** src/internal/queue/daemon.go:628-638 [ReconcileOnce] *)
Definition releasePins refs d : Daemon :=
  fold_left (fun d p =>
    let '(oid, refName) := p in
    match refs !! refName with
    | Some tip => match w_isAncestor w oid tip with
                  | inl true => unpin oid d <| d_landedPins ::= delete oid |>
                  | _ => d
                  end
    | None => d
    end) (map_to_list (d_landedPins d)) d.

(** src/internal/queue/daemon.go:653-660 [ReconcileOnce] Under an execution cap
    the targets take turns at going first. *)
Definition rotation d : list Target :=
  let off := match d_slots d with
             | Some _ => Z.to_nat (Z.rem (d_tick d) (Z.of_nat (length (cfg_Targets cfg))))
             | None => O
             end in
  drop off (cfg_Targets cfg) ++ take off (cfg_Targets cfg).

(** src/internal/queue/daemon.go:620-681 [ReconcileOnce] From a consistent
    snapshot of the refs on. *)
Definition reconcileRefs (cmds : list Command) refs d : Daemon :=
  let d := releasePins refs d in
  let d := fold_left (fun d t => seedParksOnce cfg (t_Name t) d) (cfg_Targets cfg) d in
  let d := drainCommands cmds refs d in
  let d := checkIgnoredRefs cfg refs d in
  let d := d <| d_tick ::= Z.add 1 |> in
  let d := fold_left (fun d t => reconcileTarget t refs d) (rotation d) d in
  let d := reapTrialRefs d in
  let d := if negb (d_reaperArmed d) && cfg_Services cfg then d <| d_reaperArmed := true |> else d in
  let d := snd (persistScheduler cfg d) in
  snd (buildSnapshot cfg refs d).

(** src/internal/queue/daemon.go:584-682 [ReconcileOnce] *)
Definition ReconcileOnce (cmds : list Command) d : option string * Daemon :=
  let d := prunePrepared (syncDrainRequest d) in
  match w_maintain w with
  | Some e => (Some ("verification maintenance: " +:+ e), d)
  | None =>
      match w_fetch w with
      | Some e => (Some ("queue: fetch: " +:+ e), d)
      | None =>
          let d := d <| d_external := ∅ |> in
          match (if cfg_Reviews cfg then w_reviewCandidates w else inl []) with
          | inr e => (Some ("queue: review admission: " +:+ e), d)
          | inl cs =>
              match admitReviews cs d with
              | (Some e, d) => (Some e, d)
              | (None, d) =>
                  match w_listRefs w with
                  | inr e => (Some ("queue: list refs: " +:+ e), d)
                  | inl refs =>
                      match find_index (fun p => isSome (refs !! p.1)) (map_to_list (d_external d)) with
                      | Some (_, (ref, _)) => (Some ("queue: review slot collides with remote ref " +:+ ref), d)
                      | None => (None, reconcileRefs cmds ((c_SHA <$> d_external d) ∪ refs) d)
                      end
                  end
              end
          end
      end
  end.
End Reconcile.

(** What one tick of [Run] sees: the environment, the commands, the clock. *)
Record Tick := mkTick { tk_World : World; tk_Commands : list Command; tk_Now : Z }.

Section Run.
Context (cfg : Config) (planToken : list string -> list string -> list Candidate -> string).

(** src/internal/queue/daemon.go:528-530 [Run] One pass, its error reported. *)
Definition runTick (tk : Tick) (d : Daemon) : Daemon :=
  match ReconcileOnce cfg (tk_World tk) planToken (tk_Commands tk) (d <| d_now := tk_Now tk |>) with
  | (None, d) => d
  | (Some e, d) => emit cfg (event EventError (d_now d) "" zeroCandidate "" <| e_Detail := e |>) d
  end.

(** src/internal/queue/daemon.go:531-549 [Run] The loop over the ticks: whether
    it returned because a drain completed. *)
Fixpoint runTicks (ticks : list Tick) (d : Daemon) : bool * Daemon :=
  match ticks with
  | [] => (false, d)
  | tk :: rest =>
      let d := runTick tk d in
      if drainComplete d then (true, d) else runTicks rest d
  end.

(** src/internal/queue/daemon.go:524-550 [Run] *)
Definition Run (first : Tick) (ticks : list Tick) (d : Daemon) : bool * Daemon := runTicks ticks (runTick first d).
End Run.
