(* ===== verification/ReconcileSpec.v ===== *)
(** What a reconcile pass may do: the theorems about Reconcile.v. *)
From S2P Require Import Prelude GoString Core Slots Daemon Controls CheckGraph Scheduling Spec Governor Trial.
From S2P Require Import Landing Lane LaneSpec Plan Reconcile.

Open Scope string_scope.
Open Scope list_scope.
Open Scope Z_scope.

(** Operations that at most cut lanes short, concluding what they cut. *)
Definition cuts (safe : string -> Prop) (d d' : Daemon) : Prop :=
  (exists ts, calm safe ts d d') /\ forall name, exists i, lane_of d' name = take i (lane_of d name).

Definition lanes_apart (safe : string -> Prop) (d : Daemon) : Prop :=
  forall name, Forall (trial_apart safe) (lane_of d name).

Section Cuts.
Context (cfg : Config) (w : World) (planToken : list string -> list string -> list Candidate -> string)
  (safe : string -> Prop).
Implicit Types (d : Daemon) (r : run) (t : Target) (c : Candidate) (cmd : Command).

Lemma quiet_cuts ts d d' : quiet safe ts d d' -> cuts safe d d'.
Proof.
  intros Q. split; [eexists; by apply quiet_calm|]. intros name. exists (length (lane_of d name)).
  rewrite (quiet_lane _ _ _ _ name Q). symmetry. by apply take_ge.
Qed.

Lemma cuts_refl d : cuts safe d d.
Proof. eapply quiet_cuts, quiet_refl. Qed.

Lemma cuts_trans d1 d2 d3 : cuts safe d1 d2 -> cuts safe d2 d3 -> cuts safe d1 d3.
Proof.
  intros [[ts1 C1] L1] [[ts2 C2] L2]. split; [eexists; by eapply calm_trans|].
  intros name. destruct (L1 name) as [i E1], (L2 name) as [j E2]. exists (i `min` j)%nat. rewrite E2, E1, take_take. f_equal. lia.
Qed.

Lemma cuts_apart d d' : cuts safe d d' -> lanes_apart safe d -> lanes_apart safe d'.
Proof. intros [_ L] H name. destruct (L name) as [i ->]. by apply Forall_take. Qed.

Lemma setLane_cuts ts name i d d1 : quiet safe ts d d1 -> cuts safe d (setLane name (take i (lane_of d name)) d1).
Proof.
  intros Q. apply moves_set_ts with (target := name) (runs := take i (lane_of d name)), moves_facts in Q as (C & L & K).
  split; [by eexists|]. intros name'. destruct (decide (name' = name)) as [->|Hn]; [by exists i|].
  exists (length (lane_of d name')). rewrite K by done. symmetry. by apply take_ge.
Qed.

Lemma fold_cuts {A} (f : A -> Daemon -> Daemon) (l : list A) d :
  (forall x d, lanes_apart safe d -> cuts safe d (f x d)) -> lanes_apart safe d ->
  cuts safe d (fold_left (fun d x => f x d) l d).
Proof.
  intros H. revert d. induction l as [|x l IH]; intros d Ha; cbn [fold_left]; [apply cuts_refl|].
  eapply cuts_trans; [by apply H|]. apply IH. eapply cuts_apart; [by apply H|done].
Qed.

Lemma setLastError_quiet msg d : quiet safe [] d (setLastError msg d).
Proof. unfold setLastError. quiet_field. Qed.

Lemma authorizeCommand_quiet cmd d : quiet safe [] d (snd (authorizeCommand cfg w cmd d)).
Proof.
  unfold authorizeCommand. cbv zeta. destruct (an_factsErr _); [apply setLastError_quiet|].
  match goal with |- context [recordPolicyDecision ?a ?b ?x ?y ?z ?u ?v ?s d] =>
    pose proof (recordPolicyDecision_quiet a b safe x y z u v s d) as Q;
    destruct (recordPolicyDecision a b x y z u v s d) as [[] d1] end; cbn [negb snd] in *;
    [|eapply quiet_l; [exact Q|apply setLastError_quiet]].
  repeat case_match; simpl; first [exact Q|eapply quiet_l; [exact Q|apply setLastError_quiet]].
Qed.

Lemma invalidateSuffix_cuts t i reason d : lanes_apart safe d -> cuts safe d (invalidateSuffix cfg t i reason d).
Proof.
  intros Ha. unfold invalidateSuffix. cbv zeta. eapply setLane_cuts. apply skipRuns_quiet, Forall_drop, Ha.
Qed.

Lemma preemptRuns_cuts t reason affected d : lanes_apart safe d -> cuts safe d (preemptRuns cfg t reason affected d).
Proof.
  intros Ha. unfold preemptRuns. destruct affected; [apply cuts_refl|]. by apply invalidateSuffix_cuts.
Qed.

Lemma syncBookkeeping_quiet target cands d : quiet safe [] d (syncBookkeeping cfg target cands d).
Proof.
  unfold syncBookkeeping. cbv zeta.
  match goal with |- quiet _ _ _ (fold_left _ _ ?x) => set (d1 := x) end.
  assert (quiet safe [] d d1) as Q by (unfold d1, stampEnqueued, dropStale, dropVanished; cbv zeta; try case_match; quiet_field).
  clearbody d1. eapply quiet_l; [exact Q|]. apply (fold_quiet_nt safe (enqueueRef cfg target cands)).
  intros ref d2. unfold enqueueRef. set (d3 := d2 <| d_order ::= _ |>). set (d4 := if _ =? 0 then _ else d3).
  assert (quiet safe [] d2 d4) as Q4 by (unfold d4, d3; destruct (_ =? 0); quiet_field).
  clearbody d4. set (d5 := d4 <| d_seq ::= Z.succ |>).
  assert (quiet safe [] d2 d5) as Q5 by (eapply quiet_l; [exact Q4|]; unfold d5; quiet_field).
  clearbody d5. cbv zeta. destruct (done_of d5 target !! ref); [destruct (String.eqb _ _); [exact Q5|]|];
    (eapply quiet_l; [exact Q5|by apply emit_quiet_nt]).
Qed.

Lemma buildSnapshot_quiet refs d : quiet safe [] d (snd (buildSnapshot cfg refs d)).
Proof. unfold buildSnapshot. cbv zeta. cbn [snd]. repeat case_match; first [apply quiet_refl|quiet_field]. Qed.

Lemma applyScheduling_cuts cmd t refs d : lanes_apart safe d -> cuts safe d (applyScheduling cfg planToken cmd t refs d).
Proof.
  intros Ha. unfold applyScheduling. destruct (d_draining d); [eapply quiet_cuts, setLastError_quiet|]. cbv zeta.
  destruct (negb (snd _)); [eapply quiet_cuts, setLastError_quiet|].
  destruct (negb _ && _ && negb _); [eapply quiet_cuts, setLastError_quiet|].
  set (cmd1 := if String.eqb (m_Kind cmd) "urgent" then _ else cmd).
  pose proof (syncBookkeeping_quiet (m_Target cmd1) (candidatesFor d (m_Target cmd1) refs) d) as Q1.
  set (d1 := syncBookkeeping _ _ _ d) in *. clearbody d1.
  pose proof (buildSnapshot_quiet refs d1) as Q2. destruct (buildSnapshot cfg refs d1) as [snap d2]. cbn [snd] in Q2.
  pose proof (quiet_l _ _ _ _ _ Q1 Q2) as Q. destruct (PlanSchedule _ _ _) as [impact|e];
    [|eapply quiet_cuts, quiet_l; [exact Q|apply setLastError_quiet]].
  destruct (_ && negb (String.eqb (m_PlanToken cmd1) (im_Token impact))); [eapply quiet_cuts, quiet_l; [exact Q|apply setLastError_quiet]|].
  destruct (im_PreemptRequired impact && _); [eapply quiet_cuts, quiet_l; [exact Q|apply setLastError_quiet]|].
  destruct (scheduled cmd1 impact d2) as [next seq].
  pose proof (saveControls_quiet cfg safe next (d2 <| d_seq := seq |>)) as Q3.
  destruct (saveControls cfg next _) as [[] d3]; cbn [negb snd] in *.
  2: { eapply quiet_cuts, quiet_l; [exact Q|]. eapply quiet_l; [|exact Q3]. quiet_field. }
  match goal with |- cuts _ _ (preemptRuns _ _ _ _ ?x) => set (d4 := x) end.
  assert (quiet safe [] d d4) as Q4.
  { eapply quiet_l; [exact Q|]. eapply (quiet_l _ _ _ (d2 <| d_seq := seq |>)); [quiet_field|].
    eapply quiet_l; [exact Q3|]. unfold d4. case_match; [quiet_field|apply quiet_refl]. }
  clearbody d4. eapply cuts_trans; [eapply quiet_cuts, Q4|]. apply preemptRuns_cuts.
  eapply cuts_apart; [eapply quiet_cuts, Q4|done].
Qed.

Lemma applyControlOne_cuts cmd refs d : lanes_apart safe d -> cuts safe d (applyControlOne cfg w planToken cmd refs d).
Proof.
  intros Ha. unfold applyControlOne. destruct (d_draining d && _); [eapply quiet_cuts, setLastError_quiet|].
  pose proof (authorizeCommand_quiet cmd d) as Q. destruct (authorizeCommand cfg w cmd d) as [[] d1]; cbn [snd] in Q; [|by eapply quiet_cuts].
  assert (lanes_apart safe d1) as Ha1 by (eapply cuts_apart; [by eapply quiet_cuts|done]).
  eapply cuts_trans; [eapply quiet_cuts, Q|]. cbv zeta.
  destruct (_ || (2048 <? _)%nat); [eapply quiet_cuts, setLastError_quiet|].
  destruct (_ && negb _); [eapply quiet_cuts, setLastError_quiet|].
  destruct (List.find _ _) as [t|]; [|eapply quiet_cuts, setLastError_quiet].
  destruct (isScheduling _); [by apply applyScheduling_cuts|].
  destruct (controlled _ _ _) as [next|e]; [|eapply quiet_cuts, setLastError_quiet].
  match goal with |- context [saveControls cfg ?n d1] => pose proof (saveControls_quiet cfg safe n d1) as Q2;
    destruct (saveControls cfg n d1) as [ok d2] end. cbn [snd] in Q2.
  assert (lanes_apart safe d2) as Ha2 by (eapply cuts_apart; [by eapply quiet_cuts|done]).
  eapply cuts_trans; [eapply quiet_cuts, Q2|]. case_match; [by apply invalidateSuffix_cuts|apply cuts_refl].
Qed.

Lemma applyControl_cuts cmd refs d : lanes_apart safe d -> cuts safe d (applyControl cfg w planToken cmd refs d).
Proof.
  intros Ha. unfold applyControl. case_match; [|by apply applyControlOne_cuts].
  apply (fold_cuts (fun t d => applyControlOne cfg w planToken (cmd <| m_Target := t_Name t |>) refs d)); [|done].
  intros t d1 Ha1. by apply applyControlOne_cuts.
Qed.

Lemma applyCancel_cuts cmd refs d : lanes_apart safe d -> cuts safe d (applyCancel cfg cmd refs d).
Proof.
  intros Ha. unfold applyCancel. destruct (find_index _ _) as [[i r]|] eqn:E.
  - apply find_index_Some in E as (Hr & _ & _).
    assert (trial_apart safe r) as Hta by (specialize (Ha (m_Target cmd)); rewrite Forall_lookup in Ha; by eapply Ha).
    unfold cancelInFlight. cbv zeta.
    assert (exists ts, quiet safe ts d (if (1 <? length (u_members (cancelRun d r)))%nat
      then cancelBatchMember cfg (bareTarget (m_Target cmd)) (cancelRun d r) (m_Ref cmd) d
      else finishRun cfg (bareTarget (m_Target cmd)) (cancelRun d r) OutcomeRejected cancelDetail true d)) as [ts Q].
    { case_match; eexists; [by apply cancelBatchMember_quiet|by apply finishRun_quiet]. }
    eapply setLane_cuts, quiet_trans; [exact Q|]. apply skipRuns_quiet, Forall_drop, Ha.
  - unfold cancelWaiting. case_match; [|apply cuts_refl]. cbv zeta.
    destruct (match done_of d _ !! _ with Some _ => _ | None => _ end); [apply cuts_refl|]. unfold newRunID.
    eapply quiet_cuts. eapply quiet_l; [|apply (emit_terminal cfg safe OutcomeRejected)].
    eapply quiet_l; [|apply park_quiet]. quiet_field.
Qed.

Lemma applyCommand_cuts cmd refs d : lanes_apart safe d -> cuts safe d (applyCommand cfg w planToken cmd refs d).
Proof.
  intros Ha. unfold applyCommand. cbv zeta.
  assert (quiet safe [] d (snd (if String.eqb (m_Kind cmd) "retry" || String.eqb (m_Kind cmd) "cancel"
    then authorizeCommand cfg w cmd d else (true, d)))) as Q by (case_match; [apply authorizeCommand_quiet|apply quiet_refl]).
  destruct (if String.eqb (m_Kind cmd) "retry" || _ then _ else _) as [[] d1]; cbn [negb snd] in *; [|by eapply quiet_cuts].
  assert (lanes_apart safe d1) as Ha1 by (eapply cuts_apart; [by eapply quiet_cuts|done]).
  eapply cuts_trans; [eapply quiet_cuts, Q|]. destruct (existsb _ _); [by apply applyControl_cuts|].
  case_match; [eapply quiet_cuts, clearParkAndRetry_quiet|]. case_match; [by apply applyCancel_cuts|apply cuts_refl].
Qed.

Lemma drainCommands_cuts cmds refs d : lanes_apart safe d -> cuts safe d (drainCommands cfg w planToken cmds refs d).
Proof.
  apply (fold_cuts (fun cmd d => applyCommand cfg w planToken cmd refs d)). intros. by apply applyCommand_cuts.
Qed.

Lemma tryEmergencies_cuts t refs groups d : lanes_apart safe d -> cuts safe d (tryEmergencies cfg w planToken t refs groups d).
Proof.
  revert d. induction groups as [|[id members] groups IH]; intros d Ha; cbn [tryEmergencies]; [apply cuts_refl|].
  destruct (ParseInt id) as [number ok]. cbv zeta. destruct (_ || negb (length _ =? _)%nat); [by apply IH|].
  destruct (w_reviewFacts w) as [facts|]; [|by apply applyControl_cuts].
  destruct (facts _); [|by apply applyControl_cuts].
  eapply cuts_trans; [eapply quiet_cuts, setLastError_quiet|]. apply IH.
  eapply cuts_apart; [eapply quiet_cuts, setLastError_quiet|done].
Qed.

Lemma reviewEmergency_cuts t refs cands d : lanes_apart safe d -> cuts safe d (reviewEmergency cfg w planToken t refs cands d).
Proof. apply tryEmergencies_cuts. Qed.

Lemma reviewScheduling_cuts t refs cands d : lanes_apart safe d -> cuts safe d (reviewScheduling cfg w planToken t refs cands d).
Proof.
  unfold reviewScheduling. cbv zeta. match goal with |- _ -> cuts safe d (fold_left ?f ?l d) => 
    apply (fold_cuts (fun g d => f d g) l d) end.
  intros [id members] d1 Ha. cbv zeta. generalize (match members with c :: _ => c | [] => zeroCandidate end) as c. intros c.
  destruct (negb _); [apply cuts_refl|]. destruct (w_reviewFacts w) as [facts|]; [|apply cuts_refl].
  destruct (facts c); [eapply quiet_cuts, setLastError_quiet|by apply applyControl_cuts].
Qed.

Lemma policyAdmission_quiet t base cands keys d : quiet safe [] d (snd (policyAdmission cfg w t base cands keys d)).
Proof.
  unfold policyAdmission. set (f := fun (acc : gmap string Candidate * Daemon) (ref : string) => _).
  assert (forall keys acc, quiet safe [] (snd acc) (snd (fold_left f keys acc))) as H; [|exact (H keys (cands, d))].
  clear keys. induction keys as [|ref keys IH]; intros acc; cbn [fold_left]; [apply quiet_refl|].
  eapply quiet_l; [|apply IH]. unfold f. destruct acc as [admitted d1]. cbn [snd].
  destruct (cands !! ref) as [c|]; [|apply quiet_refl]. cbv zeta.
  match goal with |- context [evaluatePolicy ?a ?b ?c ?e ?f ?g ?h ?i ?j ?k ?l] =>
    pose proof (evaluatePolicy_quiet a b safe c e f g h i j k l) as Q; destruct (evaluatePolicy a b c e f g h i j k l) as [[err|] d2] end;
    cbn [snd] in *; [eapply quiet_l; [exact Q|apply setLastError_quiet]|exact Q].
Qed.

Lemma persistScheduler_quiet d : quiet safe [] d (snd (persistScheduler cfg d)).
Proof.
  unfold persistScheduler. destruct (_ && bool_decide _); [apply quiet_refl|]. cbv zeta.
  match goal with |- context [saveControls cfg ?n d] => pose proof (saveControls_quiet cfg safe n d) as Q;
    destruct (saveControls cfg n d) as [[] d1] end; cbn [snd] in *; [|exact Q]. eapply quiet_l; [exact Q|quiet_field].
Qed.

Lemma prepareCircuitProbe_quiet target cands keys d : quiet safe [] d (prepareCircuitProbe cfg target cands keys d).
Proof.
  unfold prepareCircuitProbe. destruct (_ || d_draining d); [apply quiet_refl|]. cbv zeta.
  destruct (negb _); [apply quiet_refl|]. destruct (String.eqb _ ""); [apply quiet_refl|apply clearParkAndRetry_quiet].
Qed.

Lemma seedParksOnce_quiet target d : quiet safe [] d (seedParksOnce cfg target d).
Proof.
  unfold seedParksOnce. case_match; [apply quiet_refl|]. cbv zeta.
  eapply (quiet_l _ _ _ (d <| d_seeded ::= union {[target]} |>)); [quiet_field|]. case_match; [|apply quiet_refl].
  match goal with |- quiet _ _ ?x (fold_left ?f ?l ?x) => apply (fold_quiet_nt safe (fun s d => f d s) l x) end.
  intros s d1. case_match; [quiet_field|apply quiet_refl].
Qed.

Lemma checkIgnoredRefs_quiet refs d : quiet safe [] d (checkIgnoredRefs cfg refs d).
Proof.
  unfold checkIgnoredRefs. cbv zeta. eapply (quiet_r _ [] _ (fold_left _ _ d)); [|quiet_field].
  match goal with |- quiet _ _ ?x (fold_left ?f ?l ?x) => apply (fold_quiet_nt safe (fun s d => f d s) l x) end.
  intros [ref [t sha]] d1. case_match; [apply quiet_refl|by apply emit_quiet_nt].
Qed.

Lemma reapTrialRefs_quiet d :
  (forall ref, safe ref -> d_trialReap d !! ref = None) -> quiet safe [] d (reapTrialRefs d).
Proof.
  intros Hr. unfold reapTrialRefs.
  assert (forall p, p ∈ map_to_list (d_trialReap d) -> ~ safe p.1) as Hl.
  { intros [ref e] Hin Hs%Hr. apply elem_of_map_to_list in Hin. simpl in Hs. congruence. }
  clear Hr. revert Hl. generalize (map_to_list (d_trialReap d)) as l. intros l. revert d.
  induction l as [|[ref [sha at']] l IH]; intros d Hl; cbn [fold_left]; [apply quiet_refl|].
  eapply quiet_l; [|apply IH; intros p Hp; apply Hl; by right].
  pose proof (Hl (ref, (sha, at')) (list_elem_of_here _ _)) as Hs. simpl in Hs.
  case_match; [apply quiet_refl|]. pose proof (cas_quiet safe ref sha "" d Hs) as Q.
  assert (forall d1, quiet safe [] d1 (d1 <| d_trialReap ::= delete ref |>)) as Hd.
  { intros d1. split; try done; [|by rewrite app_nil_r]. intros x Hx. simpl. intros [? [_ Hin]%lookup_delete_Some]. by eexists. }
  destruct (cas ref sha "" d) as [[[|e]|] d1]; cbn [snd] in Q; [|exact Q|]; (eapply quiet_l; [exact Q|apply Hd]).
Qed.

Lemma prunePrepared_quiet d : quiet safe [] d (prunePrepared d).
Proof. unfold prunePrepared. cbv zeta. case_match; [apply quiet_refl|quiet_field]. Qed.
End Cuts.
