(* ===== verification/TickSpec.v ===== *)
(** What a whole pass of the daemon does: the theorems about [ReconcileOnce]. *)
From S2P Require Import Prelude GoString Core Slots Daemon Controls CheckGraph Scheduling Spec Governor Trial.
From S2P Require Import Landing Lane LaneSpec Plan Reconcile ReconcileSpec.

Open Scope string_scope.
Open Scope list_scope.
Open Scope Z_scope.

(** ** Shrinking lanes *)

(** Runs left the lane at its ends; those that stay are the runs they were. *)
Definition shrunk (l l' : list run) : Prop :=
  exists i n, Forall2 (fun r r' => ident r' = ident r) (take n (drop i l)) l'.

Lemma shrunk_take l n : shrunk l (take n l).
Proof. exists O, n. apply idents_refl. Qed.

Lemma shrunk_refl l : shrunk l l.
Proof. exists O, (length l). rewrite drop_0, take_ge by done. apply idents_refl. Qed.

Lemma idents_trans l1 l2 l3 :
  Forall2 (fun r r' => ident r' = ident r) l1 l2 -> Forall2 (fun r r' => ident r' = ident r) l2 l3 ->
  Forall2 (fun r r' => ident r' = ident r) l1 l3.
Proof. intros H. revert l3. induction H; intros l3 H3; inversion H3; subst; constructor; [congruence|auto]. Qed.

Lemma shrunk_trans l1 l2 l3 : shrunk l1 l2 -> shrunk l2 l3 -> shrunk l1 l3.
Proof.
  intros (i & n & H1) (j & m & H2). exists (i + j)%nat, (m `min` (n - j))%nat.
  eapply idents_trans; [|exact H2]. rewrite <- drop_drop, <- take_take.
  apply Forall2_take. destruct (decide (j <= n)%nat) as [Hj|Hj].
  - rewrite take_drop_commute. replace (j + (n - j))%nat with n by lia. by apply Forall2_drop.
  - replace (n - j)%nat with O by lia. rewrite take_0. apply Forall2_length in H1 as Hlen. rewrite length_take in Hlen.
    rewrite drop_ge by lia. constructor.
Qed.

Lemma pass_shrunk cfg w safe t d d' b l' i tss : pass cfg w safe t d d' b l' i tss -> shrunk (lane_of d (t_Name t)) (lane_of d' (t_Name t)).
Proof.
  intros [H2 Hi _ _ _ H]. destruct H as [(-> & _)|(-> & _)].
  - exists O, i. rewrite drop_0. by apply Forall2_take.
  - exists i, (length l' - i)%nat. rewrite take_ge by (rewrite length_drop, (Forall2_length _ _ _ H2); lia).
    by apply Forall2_drop.
Qed.

(** ** One target *)

(** The refs of the configured targets. *)
Definition protected (cfg : Config) (ref : string) : Prop := exists t, t ∈ cfg_Targets cfg /\ ref = targetRefName t.

(** A target ref is where it was, or at the tested tip of a chain of green runs. *)
Definition moved (t : Target) (d d' : Daemon) : Prop :=
  gr_refs (d_git d') !! targetRefName t = gr_refs (d_git d) !! targetRefName t \/
  tested_move (targetRefName t) (gr_refs (d_git d)) (gr_refs (d_git d')).

Lemma moved_trans_l t d1 d2 d3 :
  gr_refs (d_git d2) !! targetRefName t = gr_refs (d_git d1) !! targetRefName t -> moved t d2 d3 -> moved t d1 d3.
Proof.
  unfold moved, tested_move, casApplies. intros E. rewrite E. intros [?|H]; [by left|by right].
Qed.

Lemma moved_trans_r t d1 d2 d3 :
  gr_refs (d_git d3) !! targetRefName t = gr_refs (d_git d2) !! targetRefName t -> moved t d1 d2 -> moved t d1 d3.
Proof. unfold moved, tested_move. intros E. rewrite E. intros [?|H]; [by left|by right]. Qed.

(** What an operation outside the lane passes may do. *)
Record keeps (safe : string -> Prop) (d d' : Daemon) : Prop := mkKeeps {
  kp_cut : forall name, exists i, lane_of d' name = take i (lane_of d name);
  kp_external : d_external d' = d_external d;
  kp_draining : d_draining d' = d_draining d;
  kp_refs : forall ref, safe ref -> gr_refs (d_git d') !! ref = gr_refs (d_git d) !! ref;
  kp_reap : forall ref, safe ref -> is_Some (d_trialReap d' !! ref) -> is_Some (d_trialReap d !! ref);
}.

Lemma cuts_keeps safe d d' : cuts safe d d' -> keeps safe d d'.
Proof. intros [[ts [_ ? _ ? ? ? _ _]] L]. by split. Qed.

Lemma quiet_keeps safe ts d d' : quiet safe ts d d' -> keeps safe d d'.
Proof. intros Q. eapply cuts_keeps, quiet_cuts, Q. Qed.

Lemma keeps_refl safe d : keeps safe d d.
Proof. eapply quiet_keeps, quiet_refl. Qed.

Lemma keeps_trans safe d1 d2 d3 : keeps safe d1 d2 -> keeps safe d2 d3 -> keeps safe d1 d3.
Proof.
  intros [L1 ? ? R1 ?] [L2 ? ? R2 ?]. split; [|congruence|congruence| |auto].
  - intros name. destruct (L1 name) as [i E1], (L2 name) as [j E2]. exists (i `min` j)%nat. rewrite E2, E1, take_take. f_equal. lia.
  - intros ref Hr. by rewrite R2, R1.
Qed.

(** What the pass over one target may do. *)
Record tstep (cfg : Config) (t : Target) (d d' : Daemon) : Prop := mkTstep {
  tk_lane : lane_when False (protected cfg) t (lane_of d' (t_Name t));
  tk_cut : forall name, name <> t_Name t -> exists i, lane_of d' name = take i (lane_of d name);
  tk_external : d_external d' = d_external d;
  tk_draining : d_draining d' = d_draining d;
  tk_refs : forall ref, protected cfg ref -> ref <> targetRefName t -> gr_refs (d_git d') !! ref = gr_refs (d_git d) !! ref;
  tk_reap : forall ref, protected cfg ref -> is_Some (d_trialReap d' !! ref) -> is_Some (d_trialReap d !! ref);
  tk_moved : Forall (fun r => u_chainTip r <> "") (lane_of d (t_Name t)) -> moved t d d';
  tk_drain : d_draining d = true -> shrunk (lane_of d (t_Name t)) (lane_of d' (t_Name t));
}.

Section OneTarget.
Context (cfg : Config) (w : World) (planToken : list string -> list string -> list Candidate -> string) (t : Target).
Hypothesis Htrial : forall id, ~ protected cfg (trialRefName cfg id).
Hypothesis Hself : protected cfg (targetRefName t).
Implicit Types (d : Daemon) (cands : gmap string Candidate).

Lemma keeps_tstep d d' :
  lane_when False (protected cfg) t (lane_of d (t_Name t)) -> keeps (protected cfg) d d' -> tstep cfg t d d'.
Proof.
  intros Hok [L ? ? R ?]. split; auto.
  - destruct (L (t_Name t)) as [i ->]. by apply lane_ok_take.
  - intros _. left. by apply R.
  - intros _. destruct (L (t_Name t)) as [i ->]. apply shrunk_take.
Qed.

(** Before the pass over the lane, lanes may be cut. *)
Lemma keeps_then d1 d2 d3 : keeps (protected cfg) d1 d2 -> tstep cfg t d2 d3 -> tstep cfg t d1 d3.
Proof.
  intros [L ? ? R P] [Hl Hc He Hd Hr Hp Hm Hs]. split; [done| |congruence|congruence| |auto| |].
  - intros name Hn. destruct (L name) as [i E1], (Hc name Hn) as [j E2]. exists (i `min` j)%nat.
    rewrite E2, E1, take_take. f_equal. lia.
  - intros ref H1 H2. by rewrite Hr, R.
  - intros Htip. apply (moved_trans_l _ _ d2); [by apply R|]. apply Hm.
    destruct (L (t_Name t)) as [i ->]. by apply Forall_take.
  - intros Hdr. destruct (L (t_Name t)) as [i E]. eapply shrunk_trans; [apply (shrunk_take _ i)|]. rewrite <- E. apply Hs. congruence.
Qed.

(** After it, the lane may be replaced, outside a drain. *)
Lemma tstep_then ts d1 d2 d3 :
  tstep cfg t d1 d2 -> calm (protected cfg) ts d2 d3 -> others_kept (t_Name t) d2 d3 ->
  lane_when False (protected cfg) t (lane_of d3 (t_Name t)) ->
  (d_draining d2 = true -> lane_of d3 (t_Name t) = lane_of d2 (t_Name t)) -> tstep cfg t d1 d3.
Proof.
  intros [Hl Hc He Hd Hr Hp Hm Hs] C K Hok Hdr.
  pose proof (qt_external _ _ _ _ C) as E1. pose proof (qt_draining _ _ _ _ C) as E2. simpl in *.
  pose proof (qt_refs _ _ _ _ C) as R2. pose proof (qt_reap _ _ _ _ C) as P2. simpl in *.
  split; [done| |congruence|congruence| |auto| |].
  - intros name Hn. rewrite K by done. auto.
  - intros ref H1 H2. by rewrite R2, Hr.
  - intros Htip. apply (moved_trans_r _ _ d2); [by apply R2|auto].
  - intros H. rewrite Hdr by congruence. auto.
Qed.

Lemma refilled_tstep d1 d2 d3 :
  tstep cfg t d1 d2 -> refilled False (protected cfg) t d2 d3 ->
  (d_draining d2 = true -> lane_of d3 (t_Name t) = lane_of d2 (t_Name t)) -> tstep cfg t d1 d3.
Proof. intros H ([ts C] & K & Hok & _) Hd. by eapply tstep_then. Qed.

Lemma tstep_refl d : lane_when False (protected cfg) t (lane_of d (t_Name t)) -> tstep cfg t d d.
Proof. intros H. apply keeps_tstep; [done|apply keeps_refl]. Qed.

Lemma advanceLane_tstep tip cands d :
  lane_when False (protected cfg) t (lane_of d (t_Name t)) -> tstep cfg t d (snd (advanceLane cfg w t tip cands d)).
Proof.
  intros Hok. pose proof (advanceLane_pass False cfg w (protected cfg) t Hself tip cands d Hok) as H.
  destruct (advanceLane cfg w t tip cands d) as [b d']. destruct H as (l' & i & tss & Hp). cbn [snd].
  pose proof (ps_calm _ _ _ _ _ _ _ _ _ _ Hp) as C.
  pose proof (qt_refs _ _ _ _ C) as R. pose proof (qt_reap _ _ _ _ C) as P. simpl in *. split.
  - by eapply pass_lane_ok.
  - intros name Hn. exists (length (lane_of d name)). rewrite (ps_others _ _ _ _ _ _ _ _ _ _ Hp) by done. by rewrite take_ge.
  - apply (qt_external _ _ _ _ C).
  - apply (qt_draining _ _ _ _ C).
  - intros ref H1 H2. by apply R.
  - intros ref H1 H2. destruct (decide (ref = targetRefName t)) as [->|Hn]; [by apply (ps_unreaped _ _ _ _ _ _ _ _ _ _ Hp)|].
    by apply P.
  - intros Htip. by eapply (pass_target False).
  - intros _. by eapply pass_shrunk.
Qed.

Lemma refillLane_tstep tip cands d1 d2 :
  cands_ok (protected cfg) cands -> tstep cfg t d1 d2 -> tstep cfg t d1 (refillLane cfg w t tip cands d2).
Proof.
  intros Hk H. eapply refilled_tstep; [exact H|apply refillLane_refilled; [done|done|apply H]|].
  intros Hd. unfold refillLane. by rewrite Hd.
Qed.

Lemma pickRevisions_from cands revs picked :
  pickRevisions cands revs = Some picked -> Forall (fun c => exists ref, cands !! ref = Some c) picked.
Proof.
  revert picked. induction revs as [|rv revs IH]; intros picked; cbn [pickRevisions]; [by intros [= <-]|].
  destruct (cands !! rv_Ref rv) as [c|] eqn:E; [|done]. destruct (_ && _); [|done].
  destruct (pickRevisions cands revs) as [l|]; [|done]. intros [= <-]. constructor; [by eexists|auto].
Qed.

Lemma reconcileEmergency_tstep tip cands d :
  cands_ok (protected cfg) cands -> lane_when False (protected cfg) t (lane_of d (t_Name t)) ->
  tstep cfg t d (snd (reconcileEmergency cfg w t tip cands d)).
Proof.
  intros Hk Hok. pose proof (tstep_refl d Hok) as H0. unfold reconcileEmergency. destruct (cs_Uncertain _); [done|].
  destruct (cs_Emergency (d_controls d) !! t_Name t) as [cmd|]; [|done]. destruct (_ && _); [done|].
  destruct (lane_of d (t_Name t)) as [|r0 l0] eqn:El; [|rewrite <- El in Hok; by apply advanceLane_tstep].
  rewrite <- El in Hok. destruct (d_draining d) eqn:Hdr; [done|].
  assert (forall why d1 d2, tstep cfg t d1 d2 -> tstep cfg t d1 (clearEmergency cfg (t_Name t) why d2)) as Hclear.
  { intros why d1 d2 H. pose proof (clearEmergency_quiet cfg (protected cfg) (t_Name t) why d2) as Q.
    eapply tstep_then; [exact H|by apply quiet_calm|intros ? _; by eapply quiet_lane| |intros _; by eapply quiet_lane].
    rewrite (quiet_lane _ _ _ _ _ Q). apply H. }
  destruct (pickRevisions cands (m_Revisions cmd)) as [picked|] eqn:Ep; [|by apply Hclear].
  apply pickRevisions_from in Ep. cbv zeta.
  assert (refilled False (protected cfg) t d (startBatchRun cfg w t tip picked d)) as Hr.
  { apply startBatchRun_refilled; [done|done|done|done|]. eapply Forall_impl; [exact Ep|].
    intros c [ref E] Hs. destruct (Hk ref c E) as [-> Hx]. by apply Hx. }
  assert (tstep cfg t d (startBatchRun cfg w t tip picked d)) as H1 by (eapply refilled_tstep; [exact H0|exact Hr|congruence]).
  set (d1 := startBatchRun cfg w t tip picked d) in *. clearbody d1.
  destruct (headRun (t_Name t) d1) as [r|] eqn:Eh; [|by apply Hclear].
  destruct (_ =? _)%nat; [done|]. apply Hclear.
  assert (trial_apart (protected cfg) r) as Hta.
  { pose proof (lo_apart _ _ _ _ (tk_lane _ _ _ _ H1)) as Ha. unfold headRun in Eh. destruct (lane_of d1 (t_Name t)) as [|x l]; [done|].
    injection Eh as ->. apply Forall_cons in Ha as [[] _]; done. }
  match goal with |- tstep _ _ _ (setLane _ _ (finishRun _ _ ?r' ?o ?x ?p ?y)) =>
    pose proof (finishRun_quiet cfg (protected cfg) t r' o x p y Hta) as Q end.
  apply moves_set_ts with (target := t_Name t) (runs := []), moves_facts in Q as (C & L & K).
  eapply tstep_then; [exact H1|exact C|exact K|rewrite L; apply lane_ok_nil|].
  pose proof (tk_draining _ _ _ _ H1). congruence.
Qed.
End OneTarget.

Lemma reconcileEmergency_false cfg w t tip cands d :
  fst (reconcileEmergency cfg w t tip cands d) = false -> snd (reconcileEmergency cfg w t tip cands d) = d.
Proof.
  unfold reconcileEmergency. repeat (case_match; try done).
Qed.

(** ** The whole pass *)

Lemma candidatesFor_ok cfg d target refs :
  (forall ref p, parseCandidateRef ref = Some p -> ~ protected cfg ref) ->
  (forall ref c, d_external d !! ref = Some c -> c_Ref c = ref /\ c_Source c <> "") ->
  cands_ok (protected cfg) (candidatesFor d target refs).
Proof.
  intros Hslot Hext ref c. unfold candidatesFor. rewrite lookup_union_Some_raw. intros [H|[_ H]].
  - apply map_lookup_filter_Some in H as [H _]. apply Hext in H as [? ?]. by split.
  - unfold discoverCandidates in H. rewrite map_lookup_imap in H. apply bind_Some in H as (sha & _ & H).
    destruct (parseCandidateRef ref) as [[[t' user] topic]|] eqn:E; [|done]. destruct (String.eqb t' target); [|done].
    injection H as <-. split; [done|]. intros _. by eapply Hslot.
Qed.

Lemma policyAdmission_sub cfg w t base cands keys d :
  fst (policyAdmission cfg w t base cands keys d) ⊆ cands.
Proof.
  unfold policyAdmission. set (f := fun (acc : gmap string Candidate * Daemon) (ref : string) => _).
  assert (forall keys acc, fst acc ⊆ cands -> fst (fold_left f keys acc) ⊆ cands) as H; [|by apply H].
  clear keys. induction keys as [|ref keys IH]; intros acc Hs; cbn [fold_left]; [done|]. apply IH.
  unfold f. destruct acc as [admitted d1]. cbn [fst] in Hs. destruct (cands !! ref); [|done]. cbv zeta.
  match goal with |- context [evaluatePolicy ?a ?b ?c ?e ?f ?g ?h ?i ?j ?k ?l] =>
    destruct (evaluatePolicy a b c e f g h i j k l) as [[err|] d2] end; cbn [fst]; [|done].
  etrans; [apply delete_subseteq|done].
Qed.

Lemma cands_ok_sub safe cands cands' : cands' ⊆ cands -> cands_ok safe cands -> cands_ok safe cands'.
Proof. intros Hs H ref c E. apply H. by eapply lookup_weaken. Qed.

(** What holds between passes: every configured lane is in order, no other
    target has runs, and no target ref awaits deletion. *)
Record steady (cfg : Config) (d : Daemon) : Prop := {
  sd_lanes : forall t, t ∈ cfg_Targets cfg -> lane_when False (protected cfg) t (lane_of d (t_Name t));
  sd_rest : forall name, name ∉ map t_Name (cfg_Targets cfg) -> lane_of d name = [];
  sd_reap : forall ref, protected cfg ref -> d_trialReap d !! ref = None;
}.

(** The names a configuration must keep apart; [Validate] enforces the second. *)
Record config_apart (cfg : Config) : Prop := {
  ca_names : NoDup (map t_Name (cfg_Targets cfg));
  ca_branches : NoDup (map targetRefName (cfg_Targets cfg));
  ca_trials : forall id, ~ protected cfg (trialRefName cfg id);
  ca_slots : forall ref p, parseCandidateRef ref = Some p -> ~ protected cfg ref;
}.

Definition external_ok (d : Daemon) : Prop :=
  forall ref c, d_external d !! ref = Some c -> c_Ref c = ref /\ c_Source c <> "".

Section Pass.
Context (cfg : Config) (w : World) (planToken : list string -> list string -> list Candidate -> string).
Context (Hcfg : config_apart cfg).
Implicit Types (d : Daemon) (t : Target) (refs : gmap string string).

Lemma steady_apart d : steady cfg d -> lanes_apart (protected cfg) d.
Proof.
  intros [Hl Hr _] name. destruct (decide (name ∈ map t_Name (cfg_Targets cfg))) as [H|H]; [|by rewrite Hr].
  apply list_elem_of_In, in_map_iff in H as (t & <- & H%list_elem_of_In).
  eapply Forall_impl; [apply (lo_apart _ _ _ _ (Hl t H))|]. by intros r [].
Qed.

Lemma keeps_steady d d' : keeps (protected cfg) d d' -> steady cfg d -> steady cfg d'.
Proof.
  intros [L _ _ _ P] [Hl Hr Hp]. split.
  - intros t Ht. destruct (L (t_Name t)) as [i ->]. by apply lane_ok_take, Hl.
  - intros name Hn. destruct (L name) as [i ->]. by rewrite Hr, take_nil.
  - intros ref Href. destruct (d_trialReap d' !! ref) eqn:E; [|done]. destruct (P ref Href ltac:(by eexists)) as [x Hx].
    by rewrite Hp in Hx.
Qed.

Lemma names_inj t t' : t ∈ cfg_Targets cfg -> t' ∈ cfg_Targets cfg -> t_Name t = t_Name t' -> t = t'.
Proof.
  intros [i Hi]%list_elem_of_lookup_1 [j Hj]%list_elem_of_lookup_1 E.
  pose proof (ca_names cfg Hcfg) as Hnd. change (map t_Name ?l) with (t_Name <$> l) in Hnd.
  assert (i = j) as ->; [|congruence].
  apply (NoDup_lookup _ i j (t_Name t) Hnd); rewrite list_lookup_fmap; [by rewrite Hi|rewrite Hj; simpl; by rewrite E].
Qed.

Lemma branches_inj t t' : t ∈ cfg_Targets cfg -> t' ∈ cfg_Targets cfg -> targetRefName t = targetRefName t' -> t = t'.
Proof.
  intros [i Hi]%list_elem_of_lookup_1 [j Hj]%list_elem_of_lookup_1 E.
  pose proof (ca_branches cfg Hcfg) as Hnd. change (map targetRefName ?l) with (targetRefName <$> l) in Hnd.
  assert (i = j) as ->; [|congruence].
  apply (NoDup_lookup _ i j (targetRefName t) Hnd); rewrite list_lookup_fmap; [by rewrite Hi|rewrite Hj; simpl; by rewrite E].
Qed.

Lemma tstep_steady t d d' : t ∈ cfg_Targets cfg -> tstep cfg t d d' -> steady cfg d -> steady cfg d'.
Proof.
  intros Ht [Hlane L _ _ _ P _ _] [Hl Hr Hp]. split.
  - intros t' Ht'. destruct (decide (t_Name t' = t_Name t)) as [E|Hn]; [by rewrite (names_inj _ _ Ht' Ht E)|].
    destruct (L (t_Name t') Hn) as [i ->]. by apply lane_ok_take, Hl.
  - intros name Hn. destruct (decide (name = t_Name t)) as [->|Hne].
    { exfalso. apply Hn. apply list_elem_of_In, in_map, list_elem_of_In, Ht. }
    destruct (L name Hne) as [i ->]. by rewrite Hr, take_nil.
  - intros ref Href. destruct (d_trialReap d' !! ref) eqn:E; [|done]. destruct (P ref Href ltac:(by eexists)) as [x Hx].
    by rewrite Hp in Hx.
Qed.

(** The pass over one target: requests, bookkeeping, then the lane. *)
Lemma reconcileTarget_tstep t refs d :
  t ∈ cfg_Targets cfg -> steady cfg d -> external_ok d -> tstep cfg t d (reconcileTarget cfg w planToken t refs d).
Proof.
  intros Ht Hst Hext. assert (protected cfg (targetRefName t)) as Hself by (by exists t).
  pose proof (ca_trials cfg Hcfg) as Htrial. unfold reconcileTarget. cbv zeta.
  set (cands0 := candidatesFor d (t_Name t) refs). assert (cands_ok (protected cfg) cands0) as Hk0
    by (apply candidatesFor_ok; [apply Hcfg|done]).
  pose proof (cuts_keeps _ _ _ (reviewEmergency_cuts cfg w planToken (protected cfg) t refs cands0 d (steady_apart d Hst))) as K1.
  set (d1 := reviewEmergency _ _ _ _ _ _ d) in *. clearbody d1.
  pose proof (policyAdmission_sub cfg w t (refs !!! targetRefName t else "") cands0 (keys_of cands0) d1) as Hsub.
  pose proof (policyAdmission_quiet cfg w (protected cfg) t (refs !!! targetRefName t else "") cands0 (keys_of cands0) d1) as Q2.
  destruct (policyAdmission cfg w t _ cands0 _ d1) as [cands d2]. cbn [fst snd] in *.
  pose proof (cands_ok_sub _ _ _ Hsub Hk0) as Hk. clearbody cands0. clear Hk0 Hsub.
  pose proof (keeps_trans _ _ _ _ K1 (quiet_keeps _ _ _ _ Q2)) as K2. clear K1 Q2 d1.
  pose proof (keeps_trans _ _ _ _ K2 (quiet_keeps _ _ _ _ (syncBookkeeping_quiet cfg (protected cfg) (t_Name t) cands d2))) as K3.
  set (d3 := syncBookkeeping _ _ _ d2) in *. clearbody d3. clear K2 d2.
  pose proof (keeps_trans _ _ _ _ K3 (cuts_keeps _ _ _ (reviewScheduling_cuts cfg w planToken (protected cfg) t refs cands d3
    (steady_apart _ (keeps_steady _ _ K3 Hst))))) as K4. set (d4 := reviewScheduling _ _ _ _ _ _ d3) in *. clearbody d4. clear K3 d3.
  pose proof (persistScheduler_quiet cfg (protected cfg) d4) as Q5.
  destruct (persistScheduler cfg d4) as [ok d5]. cbn [snd] in Q5.
  pose proof (keeps_trans _ _ _ _ K4 (quiet_keeps _ _ _ _ Q5)) as K5. clear K4 Q5 d4.
  pose proof (sd_lanes _ _ (keeps_steady _ _ K5 Hst) t Ht) as Hok.
  apply (keeps_then cfg t Hself _ d5); [done|]. destruct ok; [|by apply tstep_refl].
  pose proof (reconcileEmergency_tstep cfg w t Htrial Hself (refs !!! targetRefName t else "") cands d5 Hk Hok) as H6.
  pose proof (reconcileEmergency_false cfg w t (refs !!! targetRefName t else "") cands d5) as E6.
  destruct (reconcileEmergency cfg w t _ cands d5) as [[] d6]; cbn [fst snd] in H6, E6; [done|]. rewrite E6 in * by done.
  destruct (isSome _ && negb _); [done|].
  pose proof (quiet_keeps _ _ _ _ (prepareCircuitProbe_quiet cfg (protected cfg) (t_Name t) cands (keys_of cands) d5)) as K7.
  set (d7 := prepareCircuitProbe _ _ _ _ d5) in *. clearbody d7. apply (keeps_then cfg t Hself _ d7); [done|].
  pose proof (sd_lanes _ _ (keeps_steady _ _ (keeps_trans _ _ _ _ K5 K7) Hst) t Ht) as Hok7.
  assert (tstep cfg t d7 (refillLane cfg w t (refs !!! targetRefName t else "") cands d7)) as Hfill
    by (apply refillLane_tstep; try done; by apply tstep_refl).
  destruct (lane_of d7 (t_Name t)) eqn:El; [done|]. rewrite <- El in Hok7.
  pose proof (advanceLane_tstep cfg w t Hself (refs !!! targetRefName t else "") cands d7 Hok7) as H8.
  destruct (advanceLane cfg w t _ cands d7) as [[] d8]; [done|]. by apply refillLane_tstep.
Qed.

(** A pass, or part of one. *)
Record progress (d d' : Daemon) : Prop := mkProgress {
  pg_steady : steady cfg d';
  pg_external : d_external d' = d_external d;
  pg_draining : d_draining d' = d_draining d;
  pg_moved : forall t, t ∈ cfg_Targets cfg -> Forall (fun r => u_chainTip r <> "") (lane_of d (t_Name t)) -> moved t d d';
  pg_drain : d_draining d = true -> forall name, shrunk (lane_of d name) (lane_of d' name);
}.

Lemma keeps_progress d d' : steady cfg d -> keeps (protected cfg) d d' -> progress d d'.
Proof.
  intros Hst K. pose proof (keeps_steady _ _ K Hst). destruct K as [L ? ? R _]. split; try done.
  - intros t Ht _. left. apply R. by exists t.
  - intros _ name. destruct (L name) as [i ->]. apply shrunk_take.
Qed.

Lemma keeps_progress_l d1 d2 d3 : keeps (protected cfg) d1 d2 -> progress d2 d3 -> progress d1 d3.
Proof.
  intros [L ? ? R _] [S ? ? M D]. split; [done|congruence|congruence| |].
  - intros t Ht Htip. eapply moved_trans_l; [apply R; by exists t|]. apply M; [done|].
    destruct (L (t_Name t)) as [i ->]. by apply Forall_take.
  - intros Hd name. destruct (L name) as [i E]. eapply shrunk_trans; [apply (shrunk_take _ i)|]. rewrite <- E. apply D. congruence.
Qed.

Lemma keeps_progress_r d1 d2 d3 : progress d1 d2 -> keeps (protected cfg) d2 d3 -> progress d1 d3.
Proof.
  intros [S ? ? M D] K. pose proof (keeps_steady _ _ K S). destruct K as [L ? ? R _]. split; [done|congruence|congruence| |].
  - intros t Ht Htip. eapply moved_trans_r; [apply R; by exists t|auto].
  - intros Hd name. destruct (L name) as [i ->]. eapply shrunk_trans; [by apply D|apply shrunk_take].
Qed.

(** The targets of a pass one after the other. *)
Lemma fold_targets ts refs d :
  NoDup ts -> (forall t, t ∈ ts -> t ∈ cfg_Targets cfg) -> steady cfg d -> external_ok d ->
  let d' := fold_left (fun d t => reconcileTarget cfg w planToken t refs d) ts d in
  progress d d' /\
  forall t, t ∈ cfg_Targets cfg -> t ∉ ts -> gr_refs (d_git d') !! targetRefName t = gr_refs (d_git d) !! targetRefName t.
Proof.
  cbv zeta. revert d. induction ts as [|t0 ts IH]; intros d Hnd Hin Hst Hext; cbn [fold_left].
  { split; [|done]. apply keeps_progress; [done|apply keeps_refl]. }
  apply NoDup_cons in Hnd as [Hn0 Hnd]. assert (t0 ∈ cfg_Targets cfg) as H0 by (apply Hin; by left).
  pose proof (reconcileTarget_tstep t0 refs d H0 Hst Hext) as S. set (d1 := reconcileTarget _ _ _ t0 refs d) in *. clearbody d1.
  pose proof (tstep_steady t0 d d1 H0 S Hst) as Hst1. destruct S as [_ L He Hd R _ M D].
  destruct (IH d1 Hnd ltac:(intros; apply Hin; by right) Hst1 ltac:(unfold external_ok in *; by rewrite He)) as [[S2 ? ? M2 D2] R2].
  set (d' := fold_left _ ts d1) in *. clearbody d'.
  assert (forall t, t ∈ cfg_Targets cfg -> t <> t0 -> gr_refs (d_git d1) !! targetRefName t = gr_refs (d_git d) !! targetRefName t) as R1.
  { intros t Ht Hne. apply R; [by exists t|]. intros E. by apply Hne, branches_inj. }
  split; [split; [done|congruence|congruence| |]|].
  - intros t Ht Htip. destruct (decide (t_Name t = t_Name t0)) as [E|Hne].
    + rewrite (names_inj _ _ Ht H0 E) in *. eapply moved_trans_r; [by apply R2|by apply M].
    + eapply moved_trans_l; [apply R1; [done|congruence]|]. apply M2; [done|].
      destruct (L (t_Name t) Hne) as [i ->]. by apply Forall_take.
  - intros Hdr name. eapply shrunk_trans; [|apply D2; congruence].
    destruct (decide (name = t_Name t0)) as [->|Hne]; [by apply D|]. destruct (L name Hne) as [i ->]. apply shrunk_take.
  - intros t Ht [H1 H2]%not_elem_of_cons. by rewrite R2, R1.
Qed.

Lemma releasePins_keeps refs d : keeps (protected cfg) d (releasePins w refs d).
Proof.
  unfold releasePins. generalize (map_to_list (d_landedPins d)). intros l. revert d.
  induction l as [|[oid name] l IH]; intros d; cbn [fold_left]; [apply keeps_refl|].
  eapply keeps_trans; [|apply IH]. repeat (case_match; try apply keeps_refl). split; try done.
  intros name'. exists (length (lane_of d name')). by rewrite take_ge.
Qed.

Lemma rotation_perm d : rotation cfg d ≡ₚ cfg_Targets cfg.
Proof. unfold rotation. rewrite Permutation_app_comm. by rewrite take_drop. Qed.

Lemma reconcileRefs_progress cmds refs d :
  steady cfg d -> external_ok d -> progress d (reconcileRefs cfg w planToken cmds refs d).
Proof.
  intros Hst Hext. unfold reconcileRefs. cbv zeta. pose proof (releasePins_keeps refs d) as K1.
  set (d1 := releasePins w refs d) in *. clearbody d1.
  assert (keeps (protected cfg) d1 (fold_left (fun d t => seedParksOnce cfg (t_Name t) d) (cfg_Targets cfg) d1)) as K2.
  { eapply quiet_keeps. apply (fold_quiet_nt (protected cfg) (fun t => seedParksOnce cfg (t_Name t))). intros. apply seedParksOnce_quiet. }
  set (d2 := fold_left _ _ d1) in *. clearbody d2. pose proof (keeps_trans _ _ _ _ K1 K2) as K. clear K1 K2 d1.
  pose proof (keeps_steady _ _ K Hst) as Hst2.
  pose proof (cuts_keeps _ _ _ (drainCommands_cuts cfg w planToken (protected cfg) cmds refs d2 (steady_apart _ Hst2))) as K3.
  set (d3 := drainCommands _ _ _ _ _ d2) in *. clearbody d3. pose proof (keeps_trans _ _ _ _ K K3) as K4. clear K K3 Hst2 d2.
  pose proof (keeps_trans _ _ _ _ K4 (quiet_keeps _ _ _ _ (checkIgnoredRefs_quiet cfg (protected cfg) refs d3))) as K5.
  set (d4 := checkIgnoredRefs _ _ d3) in *. clearbody d4. clear K4 d3.
  assert (keeps (protected cfg) d4 (d4 <| d_tick ::= Z.add 1 |>)) as K6 by (eapply quiet_keeps; quiet_field).
  set (d5 := d4 <| d_tick ::= _ |>) in *. clearbody d5. pose proof (keeps_trans _ _ _ _ K5 K6) as K. clear K5 K6 d4.
  apply (keeps_progress_l _ d5); [done|]. pose proof (keeps_steady _ _ K Hst) as Hst5.
  destruct (fold_targets (rotation cfg d5) refs d5) as [P _]; [| |done| |].
  - rewrite rotation_perm. eapply NoDup_fmap_1, (ca_names cfg Hcfg).
  - intros t. by rewrite rotation_perm.
  - unfold external_ok. by rewrite (kp_external _ _ _ K).
  - set (d6 := fold_left _ _ d5) in *. clearbody d6. apply (keeps_progress_r _ _ _ P).
    eapply keeps_trans; [eapply quiet_keeps, reapTrialRefs_quiet; apply P|]. set (d7 := reapTrialRefs d6). clearbody d7.
    eapply keeps_trans; [|eapply quiet_keeps, buildSnapshot_quiet].
    eapply keeps_trans; [|eapply quiet_keeps, persistScheduler_quiet]. eapply quiet_keeps.
    destruct (_ && _); [quiet_field|apply quiet_refl].
Qed.
End Pass.

(** ** Ticks *)

Lemma syncDrain_facts d :
  let d' := syncDrainRequest d in
  d_lanes d' = d_lanes d /\ d_git d' = d_git d /\ d_trialReap d' = d_trialReap d /\
  d_draining d' = d_draining d || d_drainReq d.
Proof.
  cbv zeta. unfold syncDrainRequest. destruct (d_drainReq d) eqn:E; cbn [negb]; [|by rewrite orb_false_r].
  cbv zeta. rewrite orb_true_r. destruct (d_draining d) eqn:E2; case_match; done.
Qed.

Lemma admitReviews_ok cs d :
  external_ok d ->
  let '(e, d') := admitReviews cs d in (e = None -> external_ok d') /\ exists m, d' = d <| d_external := m |>.
Proof.
  revert d. induction cs as [|c cs IH]; intros d H; cbn [admitReviews]; [split; [done|]; exists (d_external d); by destruct d|].
  destruct (String.eqb_spec (c_Source c) "") as [|Hs]; cbn [orb]; [split; [done|]; exists (d_external d); by destruct d|].
  destruct (_ || _); [split; [done|]; exists (d_external d); by destruct d|].
  specialize (IH (d <| d_external ::= <[c_Ref c := c]> |>)). destruct (admitReviews cs _) as [e d'].
  destruct IH as [Hx [m ->]]; [|split; [done|]; by exists m].
  intros ref c'. simpl. intros [[<- <-]|[_ E]]%lookup_insert_Some; [done|by apply H].
Qed.

(** The effect of a whole tick. *)
Record ticked (cfg : Config) (d d' : Daemon) : Prop := mkTicked {
  tc_steady : steady cfg d';
  tc_draining : d_draining d' = d_draining d || d_drainReq d;
  tc_moved : forall t, t ∈ cfg_Targets cfg -> Forall (fun r => u_chainTip r <> "") (lane_of d (t_Name t)) -> moved t d d';
  tc_drain : d_draining d || d_drainReq d = true -> forall name, shrunk (lane_of d name) (lane_of d' name);
}.

Section Ticks.
Context (cfg : Config) (planToken : list string -> list string -> list Candidate -> string).
Context (Hcfg : config_apart cfg).
Implicit Types (d : Daemon).

(** Only the lanes, the refs and the reap list matter between passes. *)
Lemma steady_same d d' :
  d_lanes d' = d_lanes d -> d_trialReap d' = d_trialReap d -> steady cfg d -> steady cfg d'.
Proof. intros E1 E2 [Hl Hr Hp]. unfold lane_of in *. split; unfold lane_of; rewrite ?E1, ?E2; auto. Qed.

Lemma ticked_same d d' :
  steady cfg d -> d_lanes d' = d_lanes d -> d_trialReap d' = d_trialReap d -> d_git d' = d_git d ->
  d_draining d' = d_draining d || d_drainReq d -> ticked cfg d d'.
Proof.
  intros Hst E1 E2 E3 E4. split; [by eapply steady_same|done| |].
  - intros t _ _. left. by rewrite E3.
  - intros _ name. unfold lane_of. rewrite E1. apply shrunk_refl.
Qed.

Lemma progress_ticked d0 d d' :
  d_lanes d = d_lanes d0 -> d_git d = d_git d0 -> d_draining d = d_draining d0 || d_drainReq d0 ->
  progress cfg d d' -> ticked cfg d0 d'.
Proof.
  intros E1 E2 E3 [S _ Ed M D]. split; [done|congruence| |].
  - intros t Ht. unfold moved, lane_of in *. rewrite <- E1, <- E2. auto.
  - unfold lane_of in *. rewrite <- E1, <- E3. auto.
Qed.

Lemma ReconcileOnce_ticked w cmds d : steady cfg d -> ticked cfg d (snd (ReconcileOnce cfg w planToken cmds d)).
Proof.
  intros Hst. unfold ReconcileOnce. cbv zeta. destruct (syncDrain_facts d) as (E1 & E2 & E3 & E4). cbv zeta in *.
  assert (d_lanes (prunePrepared (syncDrainRequest d)) = d_lanes d /\ d_git (prunePrepared (syncDrainRequest d)) = d_git d /\
    d_trialReap (prunePrepared (syncDrainRequest d)) = d_trialReap d /\
    d_draining (prunePrepared (syncDrainRequest d)) = d_draining d || d_drainReq d) as (F1 & F2 & F3 & F4).
  { rewrite <- E1, <- E2, <- E3, <- E4. unfold prunePrepared. cbv zeta. by destruct (bool_decide _). }
  set (d1 := prunePrepared (syncDrainRequest d)) in *. clearbody d1. clear E1 E2 E3 E4.
  assert (forall m, ticked cfg d (d1 <| d_external := m |>)) as Hsame by (intros m; by apply ticked_same).
  assert (ticked cfg d d1) as Hd1 by (by apply ticked_same).
  destruct (w_maintain w); [done|]. destruct (w_fetch w); [done|].
  destruct (if cfg_Reviews cfg then w_reviewCandidates w else inl []) as [cs|e]; [|apply Hsame].
  assert (external_ok (d1 <| d_external := ∅ |>)) as Hext by (intros ref c H; simpl in H; by apply lookup_empty_Some in H).
  pose proof (admitReviews_ok cs (d1 <| d_external := ∅ |>) Hext) as Ha.
  destruct (admitReviews cs _) as [[e|] d2]; destruct Ha as [Hx [m ->]]; [apply Hsame|].
  destruct (w_listRefs w) as [refs|e]; [|apply Hsame]. destruct (find_index _ _) as [[i [ref c]]|]; [apply Hsame|].
  eapply (progress_ticked d (d1 <| d_external := ∅ |> <| d_external := m |>)); [done|done|done|].
  apply reconcileRefs_progress; [done| |by apply Hx]. by apply (steady_same d).
Qed.

Lemma runTick_ticked tk d : steady cfg d -> ticked cfg d (runTick cfg planToken tk d).
Proof.
  intros Hst. unfold runTick. pose proof (ReconcileOnce_ticked (tk_World tk) (tk_Commands tk) (d <| d_now := tk_Now tk |>)
    ltac:(by apply (steady_same d))) as [S Ed M D].
  destruct (ReconcileOnce _ _ _ _ _) as [[e|] d']; cbn [snd] in *; [|by split].
  pose proof (emit_quiet cfg (protected cfg) (event EventError (d_now d') "" zeroCandidate "" <| e_Detail := e |>) d') as Q.
  set (d2 := emit _ _ d') in *. clearbody d2. split.
  - eapply keeps_steady; [by eapply quiet_keeps|done].
  - by rewrite (qt_draining _ _ _ _ Q).
  - intros t Ht Htip. eapply moved_trans_r; [apply (qt_refs _ _ _ _ Q); by exists t|by apply M].
  - intros Hd name. rewrite (quiet_lane _ _ _ _ name Q). by apply D.
Qed.
End Ticks.

(** A pass whose review admission fails does nothing: no lane advances, nothing lands, for any target. *)
Lemma failed_intake_stops_pass cfg planToken w cmds d e :
  cfg_Reviews cfg = true -> w_maintain w = None -> w_fetch w = None -> w_reviewCandidates w = inr e ->
  let '(err, d') := ReconcileOnce cfg w planToken cmds d in
  err = Some ("queue: review admission: " +:+ e) /\ d_lanes d' = d_lanes d /\ d_git d' = d_git d.
Proof.
  intros Hr Hm Hf Hc. unfold ReconcileOnce. rewrite Hr, Hm, Hf, Hc. destruct (syncDrain_facts d) as (E1 & E2 & _ & _). split; [done|].
  cbn. rewrite <- E1, <- E2. unfold prunePrepared. by destruct (bool_decide _).
Qed.

Lemma activeRuns_zero d : activeRuns d = 0 <-> forall name, lane_of d name = [].
Proof.
  unfold activeRuns, lane_of. set (f := fun (_ : string) (l : list run) n => n + Z.of_nat (length l)).
  assert (0 <= map_fold f 0 (d_lanes d) /\
    (map_fold f 0 (d_lanes d) = 0 <-> forall name l, d_lanes d !! name = Some l -> l = [])) as [_ H].
  { revert d. intros d. apply (map_fold_weak_ind (fun n (m : gmap string (list run)) =>
      0 <= n /\ (n = 0 <-> forall name l, m !! name = Some l -> l = []))); clear d.
    - split; [done|]. split; [|done]. intros _ name l E. by apply lookup_empty_Some in E.
    - intros i l m n Hi [Hn IH]. unfold f. split; [lia|]. split.
      + intros E name l' [[<- <-]|[Hne El]]%lookup_insert_Some; [destruct l; [done|simpl in E; lia]|].
        apply (proj1 IH ltac:(lia) name l' El).
      + intros H. assert (l = []) as -> by (apply (H i); apply lookup_insert_eq). simpl.
        rewrite Z.add_0_r. apply IH. intros name l' El. apply (H name l'). rewrite lookup_insert_ne; [done|congruence]. }
  rewrite H. split.
  - intros Hl name. destruct (d_lanes d !! name) as [l|] eqn:E; [|done]. simpl. by eapply Hl.
  - intros Hl name l E. specialize (Hl name). by rewrite E in Hl.
Qed.

(** ** The properties *)


(** C24. A drain admits nothing: once a drain was asked for, a tick leaves every
    lane a slice of what it was - the same runs, further along - and the
    daemon stays draining. *)
Theorem drain_admits_nothing cfg planToken w cmds d :
  config_apart cfg -> steady cfg d -> d_draining d || d_drainReq d = true ->
  let '(err, d') := ReconcileOnce cfg w planToken cmds d in
  d_draining d' = true /\ forall name, shrunk (lane_of d name) (lane_of d' name).
Proof.
  intros Hcfg Hst Hd. destruct (ReconcileOnce_ticked cfg planToken Hcfg w cmds d Hst) as [_ E _ D].
  destruct (ReconcileOnce _ _ _ _ _) as [err d']. cbn [snd] in *. split; [by rewrite E|by apply D].
Qed.

(** The loop stops on its own only when a drain is complete: if [Run]
    returns before its context ends, then the daemon is draining, no run of any
    lane is left, and the daemon is still in order. *)
Theorem Run_stops_drained cfg planToken first ticks d d' :
  config_apart cfg -> steady cfg d -> Run cfg planToken first ticks d = (true, d') ->
  steady cfg d' /\ d_draining d' = true /\ forall name, lane_of d' name = [].
Proof.
  intros Hcfg Hst. unfold Run. pose proof (tc_steady _ _ _ (runTick_ticked cfg planToken Hcfg first d Hst)) as H1.
  revert H1. generalize (runTick cfg planToken first d) as d1. clear - Hcfg.
  induction ticks as [|tk ticks IH]; intros d1 H1; cbn [runTicks]; [done|]. cbv zeta.
  pose proof (tc_steady _ _ _ (runTick_ticked cfg planToken Hcfg tk d1 H1)) as H2.
  destruct (drainComplete (runTick cfg planToken tk d1)) eqn:E; [|by apply IH].
  intros [= <-]. unfold drainComplete in E. apply andb_prop in E as [Hd Ha%Z.eqb_eq]. split_and!; [done|done|].
  by apply activeRuns_zero.
Qed.

(** ** Witnesses *)

Lemma demoConfig_apart : config_apart demoConfig.
Proof.
  assert (forall ref, protected demoConfig ref -> ref = "refs/heads/main") as Hp
    by (intros ref (t & [->|H]%elem_of_cons & ->); [done|by apply elem_of_nil in H]).
  split; [apply NoDup_singleton|apply NoDup_singleton| |].
  - intros id H%Hp. discriminate.
  - intros ref p E ->%Hp. discriminate E.
Qed.

Definition demoRefs : gmap string string := {[ "refs/heads/main" := "b0"; "refs/heads/for/main/a" := "s1" ]}.

Definition demoTickWorld : World := demoWorld <| w_listRefs := inl demoRefs |>.

Lemma demoReady_steady : steady demoConfig demoReady.
Proof.
  split.
  - intros t [->|H]%elem_of_cons; [|by apply elem_of_nil in H]. split.
    + by apply Forall_singleton.
    + by apply Forall_singleton.
    + intros [].
    + intros [|i] r r' H1 H2; discriminate.
    + intros [].
    + apply Forall_singleton. split; [by intros []|]. apply Forall_singleton. intros _.
      intros (t & [->|H]%elem_of_cons & E); [discriminate|by apply elem_of_nil in H].
  - intros name Hn. unfold lane_of. change (d_lanes demoReady) with ({[ "main" := [demoRunOf []] ]} : gmap string (list run)).
    rewrite lookup_singleton_ne; [done|]. intros <-. apply Hn. by left.
  - done.
Qed.

Definition demoPlanToken (a b : list string) (cs : list Candidate) : string := "".


Lemma drain_admits_nothing_witness :
  let d := Drain 0 demoReady in
  let d' := snd (ReconcileOnce demoConfig demoTickWorld demoPlanToken [] d) in
  d_draining d' = true /\ shrunk (lane_of d "main") (lane_of d' "main").
Proof.
  intros d d'. assert (steady demoConfig d) as Hst by exact (steady_same demoConfig demoReady d eq_refl eq_refl demoReady_steady).
  pose proof (drain_admits_nothing demoConfig demoPlanToken demoTickWorld [] d demoConfig_apart Hst eq_refl) as H.
  unfold d'. destruct (ReconcileOnce _ _ _ _ _) as [err d2]. destruct H as [H1 H2]. split; [exact H1|exact (H2 "main")].
Defined.

Lemma Run_stops_drained_witness :
  let tk := mkTick demoTickWorld [] 2000 in
  let d := Drain 0 demoReady in
  fst (Run demoConfig demoPlanToken tk [tk] d) = true /\
  lane_of (snd (Run demoConfig demoPlanToken tk [tk] d)) "main" = [].
Proof.
  intros tk d. assert (steady demoConfig d) as Hst by exact (steady_same demoConfig demoReady d eq_refl eq_refl demoReady_steady).
  assert (fst (Run demoConfig demoPlanToken tk [tk] d) = true) as Hb by (vm_compute; reflexivity).
  split; [exact Hb|]. destruct (Run demoConfig demoPlanToken tk [tk] d) as [b d'] eqn:E. simpl in Hb. subst b.
  exact (proj2 (proj2 (Run_stops_drained demoConfig demoPlanToken tk [tk] d d' demoConfig_apart Hst E)) "main").
Defined.
