(* ===== verification/Wire.v ===== *)
(** What crosses a process boundary: 64-bit integers with wrap-around, and
    strings repaired by the JSON and UTF-8 libraries. *)
From S2P Require Import Prelude GoString.
From Stdlib Require Import Ascii.

Open Scope string_scope.
Open Scope list_scope.
Open Scope Z_scope.

(** ** int64 *)

Definition maxInt64 : Z := 9223372036854775807.

(** The value an [int64] (or an [int], 64 bits on the supported platforms) keeps
    of a mathematical integer. *)
Definition wrap64 (z : Z) : Z := (z + 9223372036854775808) `mod` 18446744073709551616 - 9223372036854775808.

Definition int64 (z : Z) : Prop := - 9223372036854775808 <= z <= maxInt64.

Lemma wrap64_id z : int64 z -> wrap64 z = z.
Proof. unfold int64, maxInt64, wrap64. intros H. rewrite Z.mod_small; lia. Qed.

Lemma wrap64_int64 z : int64 (wrap64 z).
Proof. unfold int64, maxInt64, wrap64. pose proof (Z.mod_pos_bound (z + 9223372036854775808) 18446744073709551616 ltac:(lia)). lia. Qed.

Example wrap64_over : wrap64 (maxInt64 + 1) = - maxInt64 - 1.
Proof. reflexivity. Qed.

(** ** Strings *)

Definition strlen (s : string) : Z := Z.of_nat (String.length s).

(** [s[len(s)-n:]] where [s] is longer than [n] bytes. *)
Definition lastBytes (n : Z) (s : string) : string :=
  if n <? strlen s then String.substring (Z.to_nat (strlen s - n)) (Z.to_nat n) s else s.

(** [utf8.EncodeRune] for a rune that [utf8.DecodeRune] returned. *)
Definition encode_rune (r : Z) : bytes :=
  if r <? 128 then [val_byte r]
  else if r <? 2048 then [val_byte (192 + r `div` 64); val_byte (128 + r `mod` 64)]
  else if r <? 65536 then [val_byte (224 + r `div` 4096); val_byte (128 + (r `div` 64) `mod` 64); val_byte (128 + r `mod` 64)]
  else [val_byte (240 + r `div` 262144); val_byte (128 + (r `div` 4096) `mod` 64); val_byte (128 + (r `div` 64) `mod` 64);
        val_byte (128 + r `mod` 64)].

(** A string after [json.Marshal] and [json.Unmarshal]: each invalid byte has
    become a U+FFFD. *)
Definition jsonString (s : string) : string := of_bytes (concat (map encode_rune (runes s))).

Example jsonString_cut : jsonString (of_bytes (map val_byte [169; 65])) = of_bytes (map val_byte [239; 191; 189; 65]).
Proof. reflexivity. Qed.

Example jsonString_kept : jsonString (of_bytes (map val_byte [65; 226; 130; 172; 195; 169])) = of_bytes (map val_byte [65; 226; 130; 172; 195; 169]).
Proof. reflexivity. Qed.

(** [strings.ToValidUTF8(s, "\uFFFD")]: each run of invalid bytes becomes one
    U+FFFD. A decoded U+FFFD that took one byte is an invalid byte. *)
Fixpoint toValid (fuel : nat) (bad : bool) (b : bytes) : bytes :=
  match fuel, decode_rune b with
  | S fuel, Some (r, t) =>
      if (r =? runeError) && (length t =? length b - 1)%nat
      then (if bad then [] else encode_rune runeError) ++ toValid fuel true t
      else encode_rune r ++ toValid fuel false t
  | _, _ => []
  end.

Definition ToValidUTF8 (s : string) : string := of_bytes (toValid (String.length s) false (to_bytes s)).

Example ToValidUTF8_run : ToValidUTF8 (of_bytes (map val_byte [128; 129; 65; 130])) = of_bytes (map val_byte [239; 191; 189; 65; 239; 191; 189]).
Proof. reflexivity. Qed.

(** [a < b] etc. chosen as Go's [min] and [max] on integers are [Z.min] and
    [Z.max]; [time.Time.UnixMilli] floors, [time.Duration.Milliseconds] truncates. *)
Definition UnixMilli (t : Z) : Z := t `div` 1000000.
Definition fromMilli (ms : Z) : Z := ms * 1000000.
Definition Milliseconds (d : Z) : Z := Z.quot d 1000000.
