(* ===== verification/DaemonConfig.v ===== *)
(** The daemon's configuration (src/internal/config/daemon.go, workers.go, worker_pools.go,
    flaky.go, policy.go, signing.go, circuit.go): what a file says once its KDL is decoded, the
    defaults, the executor profiles, and the validation.

    Durations are nanoseconds; a pointer is an option. URLs, addresses and templates are parsed
    by functions of the standard library that are arguments here, as are the Unicode tables
    behind case folding. *)
From S2P Require Import Prelude GoString Core Daemon Spec.
From Stdlib Require Import Ascii.

Open Scope string_scope.
Open Scope list_scope.
Open Scope Z_scope.

Definition second : Z := 1000000000.
Definition minute : Z := 60 * second.
Definition hour : Z := 60 * minute.

(** ** Data *)

(** src/internal/config/worker_pools.go:11-30 [WorkerPool] *)
Record WorkerPool := mkWorkerPool {
  wp_Name : string;
  wp_Provider : string;
  wp_Command : list string;
  wp_ResourceID : string;
  wp_Profiles : list string;
  wp_ImageProfiles : list string;
  wp_ServiceProfiles : list string;
  wp_Labels : list string;
  wp_CPUs : string;
  wp_Memory : string;
  wp_Slots : Z;
  wp_UrgentReserve : Z;
  wp_WarmNodes : Z;
  wp_MaxNodes : Z;
  wp_IdleTimeout : Z;
  wp_StartupTimeout : Z;
  wp_PricePerHour : float64;
  wp_MaxHourlyCost : float64;
}.

#[export] Instance WorkerPool_eta : Eta WorkerPool := fun p => mkWorkerPool (wp_Name p) (wp_Provider p) (wp_Command p)
  (wp_ResourceID p) (wp_Profiles p) (wp_ImageProfiles p) (wp_ServiceProfiles p) (wp_Labels p) (wp_CPUs p) (wp_Memory p)
  (wp_Slots p) (wp_UrgentReserve p) (wp_WarmNodes p) (wp_MaxNodes p) (wp_IdleTimeout p) (wp_StartupTimeout p)
  (wp_PricePerHour p) (wp_MaxHourlyCost p).

(** src/internal/config/workers.go:16-25 [Workers] *)
Record Workers := mkWorkers {
  wk_ScaleInterval : Z;
  wk_Pools : list WorkerPool;
  wk_Listen : string;
  wk_TokenEnv : string;
  wk_TLSCert : string;
  wk_TLSKey : string;
  wk_Lease : Z;
  wk_ReconnectGrace : Z;
}.

#[export] Instance Workers_eta : Eta Workers := fun w => mkWorkers (wk_ScaleInterval w) (wk_Pools w) (wk_Listen w)
  (wk_TokenEnv w) (wk_TLSCert w) (wk_TLSKey w) (wk_Lease w) (wk_ReconnectGrace w).

(** src/internal/config/policy.go:9-16 [Policy] *)
Record Policy := mkPolicy {
  pl_Replace : list string;
  pl_Extend : list string;
  pl_Rego : string;
  pl_File : string;
  pl_Timeout : Z;
  pl_Teams : list string;
}.

#[export] Instance Policy_eta : Eta Policy := fun p => mkPolicy (pl_Replace p) (pl_Extend p) (pl_Rego p) (pl_File p) (pl_Timeout p) (pl_Teams p).

(** src/internal/config/signing.go:12-15 [Signing] *)
Record Signing := mkSigning { sg_SSHKey : string; sg_Timeout : Z }.

(** src/internal/config/flaky.go:13-27 [FailureReview] *)
Record FailureReview := mkFailureReview {
  fr_KnownFlakeRetries : Z;
  fr_Tools : bool;
  fr_MaxRunRetries : Z;
  fr_Auth : string;
  fr_Model : string;
  fr_TokenEnv : string;
  fr_APIURL : string;
  fr_Codex : string;
  fr_Checks : list string;
  fr_MaxRetries : Z;
  fr_MinConfidence : float64;
  fr_Timeout : Z;
  fr_MaxOutputBytes : Z;
}.

#[export] Instance FailureReview_eta : Eta FailureReview := fun f => mkFailureReview (fr_KnownFlakeRetries f) (fr_Tools f)
  (fr_MaxRunRetries f) (fr_Auth f) (fr_Model f) (fr_TokenEnv f) (fr_APIURL f) (fr_Codex f) (fr_Checks f) (fr_MaxRetries f)
  (fr_MinConfidence f) (fr_Timeout f) (fr_MaxOutputBytes f).

(** src/internal/config/daemon.go:257-261 [History] *)
Record History := mkHistory { hi_Path : string; hi_SampleEvery : Z; hi_DepthRetention : Z }.

(** src/internal/config/daemon.go:265-268 [Dashboard] *)
Record Dashboard := mkDashboard { db_Bind : string; db_URL : string }.

(** src/internal/config/daemon.go:323-330 [GitHubPullRequests] *)
Record GitHubPullRequests := mkPullRequests {
  pr_WebhookSecretEnv : string;
  pr_PollInterval : Z;
  pr_Bot : string;
  pr_Approvals : option Z;
  pr_RequiredChecks : list string;
  pr_RequireResolvedConversations : bool;
}.

#[export] Instance GitHubPullRequests_eta : Eta GitHubPullRequests := fun p => mkPullRequests (pr_WebhookSecretEnv p)
  (pr_PollInterval p) (pr_Bot p) (pr_Approvals p) (pr_RequiredChecks p) (pr_RequireResolvedConversations p).

(** src/internal/config/daemon.go:332-339 [Gerrit] *)
Record Gerrit := mkGerrit {
  ge_APIURL : string;
  ge_Project : string;
  ge_UsernameEnv : string;
  ge_TokenEnv : string;
  ge_VerificationRequirement : string;
}.

(** src/internal/config/daemon.go:342-345 [GitHubTrialRefs] *)
Record GitHubTrialRefs := mkTrialRefs { tr_Prefix : string; tr_Retention : Z }.

(** src/internal/config/daemon.go:379-384 [GitHubAuth] *)
Record GitHubAuth := mkAuth { au_Mode : string; au_AppID : Z; au_InstallationID : Z; au_PrivateKeyFile : string }.

(** src/internal/config/daemon.go:283-318 [GitHub] *)
Record GitHub := mkGitHub {
  gh_PullRequests : option GitHubPullRequests;
  gh_Repo : string;
  gh_TokenEnv : string;
  gh_APIURL : string;
  gh_Auth : option GitHubAuth;
  gh_TrialRefPrefix : string;
  gh_TrialRefRetention : Z;
  gh_TrialRefs : option GitHubTrialRefs;
  gh_ReceiptNotes : option ReceiptNotes;
}.

#[export] Instance GitHub_eta : Eta GitHub := fun g => mkGitHub (gh_PullRequests g) (gh_Repo g) (gh_TokenEnv g) (gh_APIURL g)
  (gh_Auth g) (gh_TrialRefPrefix g) (gh_TrialRefRetention g) (gh_TrialRefs g) (gh_ReceiptNotes g).

(** src/internal/config/daemon.go:387-401 [Slack] *)
Record Slack := mkSlack { sk_Channel : string; sk_AppTokenEnv : string; sk_BotTokenEnv : string; sk_AllowedUsers : list string }.

(** src/internal/config/daemon.go:405-408 [OTLP] *)
Record OTLP := mkOTLP { ot_Endpoint : string; ot_Insecure : bool }.

(** src/internal/config/daemon.go:499-502 [Cache] *)
Record Cache := mkCache { ca_Name : string; ca_Path : string }.

(** src/internal/config/daemon.go:539-543 [Mount] *)
Record Mount := mkMount { mo_Host : string; mo_Path : string; mo_ReadOnly : bool }.

(** src/internal/config/daemon.go:492-495 [AddHost] *)
Record AddHost := mkAddHost { ah_Host : string; ah_Gateway : string }.

(** src/internal/config/daemon.go:430-470 [Executor] *)
Record Executor := mkExecutor {
  xc_Labels : list string;
  xc_SupportsImages : bool;
  xc_Arg : string;
  xc_Kind : string;
  xc_Name : string;
  xc_Runtime : string;
  xc_Image : string;
  xc_Workdir : string;
  xc_Caches : list Cache;
  xc_Mounts : list Mount;
  xc_Env : list EnvVar;
  xc_AddHosts : list AddHost;
  xc_Memory : string;
  xc_CPUs : string;
  xc_MaxExecutions : Z;
}.

#[export] Instance Executor_eta : Eta Executor := fun e => mkExecutor (xc_Labels e) (xc_SupportsImages e) (xc_Arg e) (xc_Kind e)
  (xc_Name e) (xc_Runtime e) (xc_Image e) (xc_Workdir e) (xc_Caches e) (xc_Mounts e) (xc_Env e) (xc_AddHosts e)
  (xc_Memory e) (xc_CPUs e) (xc_MaxExecutions e).

Definition zeroExecutor : Executor := mkExecutor [] false "" "" "" "" "" "" [] [] [] [] "" "" 0.

(** src/internal/config/daemon.go:550-575 [Services] *)
Record Services := mkServices { se_Allow : list string; se_MaxInstances : Z; se_Runtime : string }.

#[export] Instance Services_eta : Eta Services := fun s => mkServices (se_Allow s) (se_MaxInstances s) (se_Runtime s).

(** src/internal/config/daemon.go:593-596 [DeploySource] *)
Record DeploySource := mkDeploySource { ds_Branch : string; ds_Env : string }.

(** src/internal/config/daemon.go:615-640 [Environment] *)
Record Environment := mkEnvironment {
  en_Name : string;
  en_Source : DeploySource;
  en_Track : bool;
  en_Nodes : list string;
  en_MaxParallel : Z;
  en_OnDesiredMove : string;
}.

#[export] Instance Environment_eta : Eta Environment := fun e => mkEnvironment (en_Name e) (en_Source e) (en_Track e) (en_Nodes e)
  (en_MaxParallel e) (en_OnDesiredMove e).

(** src/internal/config/daemon.go:646-657 [Summarize] *)
Record Summarize := mkSummarize {
  su_Model : string;
  su_TokenEnv : string;
  su_Auth : string;
  su_Codex : string;
  su_APIURL : string;
  su_Effort : string;
  su_Timeout : Z;
}.

#[export] Instance Summarize_eta : Eta Summarize := fun s => mkSummarize (su_Model s) (su_TokenEnv s) (su_Auth s) (su_Codex s)
  (su_APIURL s) (su_Effort s) (su_Timeout s).

(** src/internal/config/daemon.go:705-708 [Hook] *)
Record Hook := mkHook { hk_Name : string; hk_Command : list string }.

(** src/internal/config/daemon.go:663-694 [Target] What the queue reads, and the hooks. *)
Record TargetConf := mkTargetConf { tc_Target : Target; tc_Hooks : list Hook; tc_HooksPolicy : string }.

#[export] Instance TargetConf_eta : Eta TargetConf := fun t => mkTargetConf (tc_Target t) (tc_Hooks t) (tc_HooksPolicy t).

#[export] Instance Target_eta : Eta Target := fun t => mkTarget (t_Name t) (t_Branch t) (t_Landing t) (t_Mode t) (t_MaxBatch t)
  (t_Window t) (t_OnBatchRed t) (t_Adaptive t).

(** src/internal/config/daemon.go:144-253 [Daemon] *)
Record DaemonConf := mkDaemonConf {
  dc_Workers : option Workers;
  dc_Policy : option Policy;
  dc_CircuitBreaker : option CircuitBreaker;
  dc_EmergencyMerges : bool;
  dc_Remote : string;
  dc_Poll : Z;
  dc_CheckSpec : string;
  dc_Committer : string * string;
  dc_MergeMsg : string;
  dc_Targets : list TargetConf;
  dc_LogRetention : Z;
  dc_SourceRetention : Z;
  dc_AutoRetryErrors : option bool;
  dc_Shutdown : string;
  dc_History : History;
  dc_Dashboard : Dashboard;
  dc_GitHub : GitHub;
  dc_Gerrit : option Gerrit;
  dc_Slack : Slack;
  dc_OTLP : OTLP;
  dc_Services : Services;
  dc_Deploy : list Environment;
  dc_Executors : list Executor;
  dc_Executor : Executor;
  dc_Profiles : list Executor;
  dc_Mtimes : string;
  dc_MaxExecutions : Z;
  dc_UrgentReserve : Z;
  dc_Summarize : option Summarize;
  dc_FailureReview : option FailureReview;
  dc_Signing : option Signing;
}.

#[export] Instance DaemonConf_eta : Eta DaemonConf := fun d => mkDaemonConf (dc_Workers d) (dc_Policy d) (dc_CircuitBreaker d)
  (dc_EmergencyMerges d) (dc_Remote d) (dc_Poll d) (dc_CheckSpec d) (dc_Committer d) (dc_MergeMsg d) (dc_Targets d)
  (dc_LogRetention d) (dc_SourceRetention d) (dc_AutoRetryErrors d) (dc_Shutdown d) (dc_History d) (dc_Dashboard d) (dc_GitHub d)
  (dc_Gerrit d) (dc_Slack d) (dc_OTLP d) (dc_Services d) (dc_Deploy d) (dc_Executors d) (dc_Executor d) (dc_Profiles d)
  (dc_Mtimes d) (dc_MaxExecutions d) (dc_UrgentReserve d) (dc_Summarize d) (dc_FailureReview d) (dc_Signing d).

(** ** Defaults *)

Definition orStr (s d : string) : string := if String.eqb s "" then d else s.
Definition orZ (z d : Z) : Z := if z =? 0 then d else z.

(** src/internal/config/workers.go:27-52 [defaults] *)
Definition workersDefaults (w : Workers) : Workers :=
  w <| wk_ScaleInterval ::= fun x => orZ x (30 * second) |>
    <| wk_Pools ::= map (fun p => p <| wp_IdleTimeout ::= fun x => orZ x (5 * minute) |>
                                    <| wp_StartupTimeout ::= fun x => orZ x (10 * minute) |>) |>
    <| wk_Listen ::= fun x => orStr x "127.0.0.1:8081" |>
    <| wk_TokenEnv ::= fun x => orStr x "GAUNTLET_WORKER_TOKEN" |>
    <| wk_Lease ::= fun x => orZ x minute |>
    <| wk_ReconnectGrace ::= fun x => orZ x (2 * minute) |>.

(** src/internal/config/policy.go:18-25 [defaults] *)
Definition policyDefaults (p : Policy) : Policy :=
  let p := match pl_Replace p, pl_Extend p with [], [] => p <| pl_Extend := ["submission"] |> | _, _ => p end in
  p <| pl_Timeout ::= fun x => orZ x (second / 10) |>.

(** src/internal/config/circuit.go:15-28 [defaults] *)
Definition circuitDefaults (c : CircuitBreaker) : CircuitBreaker :=
  mkBreaker (orZ (cb_Threshold c) 3) (orZ (cb_Window c) (5 * minute)) (orZ (cb_Backoff c) (30 * second)) (orZ (cb_MaxBackoff c) (10 * minute)).

(** [.8] *)
Definition f64_eight_tenths : float64 := f64_div (f64_of_Z 8) (f64_of_Z 10).

(** src/internal/config/flaky.go:29-61 [defaults] *)
Definition failureReviewDefaults (f : FailureReview) : FailureReview :=
  let f := f <| fr_Auth ::= fun x => orStr x "api-key" |> in
  f <| fr_TokenEnv ::= fun x => orStr x (if String.eqb (fr_Auth f) "chatgpt" then "CODEX_ACCESS_TOKEN" else "OPENAI_API_KEY") |>
    <| fr_APIURL ::= fun x => orStr x "https://api.openai.com/v1" |>
    <| fr_Codex ::= fun x => orStr x "codex" |>
    <| fr_MaxRunRetries ::= fun x => orZ x 3 |>
    <| fr_MaxRetries ::= fun x => orZ x 1 |>
    <| fr_MinConfidence ::= fun x => if f64_is_zero x then f64_eight_tenths else x |>
    <| fr_Timeout ::= fun x => orZ x (30 * second) |>
    <| fr_MaxOutputBytes ::= fun x => orZ x 16384 |>.

(** src/internal/config/daemon.go:802-811 [applyExecutorDefaults] *)
Definition applyExecutorDefaults (e : Executor) : Executor :=
  if String.eqb (xc_Kind e) "container" then
    e <| xc_Runtime ::= fun x => orStr x "container" |> <| xc_Workdir ::= fun x => orStr x "/workspace" |>
  else e.

(** src/internal/config/daemon.go:829-843 [applyDefaults] *)
Definition pullRequestsDefaults (p : GitHubPullRequests) : GitHubPullRequests :=
  p <| pr_PollInterval ::= fun x => orZ x (if String.eqb (pr_WebhookSecretEnv p) "" then 30 * second else 5 * minute) |>
    <| pr_Bot ::= fun x => orStr x "gauntlet" |>
    <| pr_Approvals ::= fun x => match x with None => Some 1 | Some n => Some n end |>.

(** src/internal/config/daemon.go:844-854 [applyDefaults] *)
Definition gerritDefaults (g : Gerrit) : Gerrit :=
  mkGerrit (ge_APIURL g) (ge_Project g) (orStr (ge_UsernameEnv g) "GERRIT_USERNAME") (orStr (ge_TokenEnv g) "GERRIT_TOKEN")
    (orStr (ge_VerificationRequirement g) "Verified").

(** src/internal/config/daemon.go:904-939 [applyDefaults] *)
Definition gitHubDefaults (g : GitHub) : GitHub :=
  if String.eqb (gh_Repo g) "" then g
  else
    let g := match gh_Auth g with None => g <| gh_TokenEnv ::= fun x => orStr x "GITHUB_TOKEN" |> | Some _ => g end in
    let g := g <| gh_APIURL ::= fun x => orStr x "https://api.github.com" |> in
    let g := match gh_TrialRefs g with
             | Some tr => g <| gh_TrialRefPrefix := orStr (tr_Prefix tr) "refs/gauntlet/trials" |>
                            <| gh_TrialRefRetention := orZ (tr_Retention tr) (24 * hour) |>
             | None => g
             end in
    g <| gh_ReceiptNotes ::= option_map (fun rn =>
           mkReceiptNotes (orStr (rn_Ref rn) "refs/notes/gauntlet/receipts") (orZ (rn_MaxBytes rn) 65536)) |>.

(** src/internal/config/daemon.go:988-1013 [applyDefaults] *)
Definition targetDefaults (t : TargetConf) : TargetConf :=
  let t := t <| tc_Target ::= fun q => q <| t_Landing ::= fun x => orStr x "squash" |> |> in
  let t := match tc_Hooks t with [] => t | _ => t <| tc_HooksPolicy ::= fun x => orStr x "queue" |> end in
  t <| tc_Target ::= fun q =>
    if String.eqb (t_Mode q) "batch" then q <| t_MaxBatch ::= fun x => orZ x 8 |> <| t_OnBatchRed ::= fun x => orStr x "serial" |>
    else if String.eqb (t_Mode q) "speculate" then q <| t_Window ::= fun x => orZ x 4 |>
    else q |>.

(** src/internal/config/daemon.go:1018-1028 [applyDefaults] *)
Definition environmentDefaults (e : Environment) : Environment :=
  e <| en_OnDesiredMove ::= fun x => orStr x "finish" |> <| en_MaxParallel ::= fun x => orZ x 1 |>.

(** src/internal/config/daemon.go:1030-1055 [applyDefaults] *)
Definition summarizeDefaults (s : Summarize) : Summarize :=
  let s := s <| su_Auth ::= fun x => orStr x "api-key" |> <| su_Codex ::= fun x => orStr x "codex" |>
             <| su_APIURL ::= fun x => orStr x "https://api.openai.com/v1" |> <| su_Model ::= fun x => orStr x "gpt-5.4" |> in
  s <| su_TokenEnv ::= fun x => orStr x (if String.eqb (su_Auth s) "chatgpt" then "CODEX_ACCESS_TOKEN" else "OPENAI_API_KEY") |>
    <| su_Effort ::= fun x => orStr x "medium" |>
    <| su_Timeout ::= fun x => orZ x (5 * second) |>.

(** src/internal/config/daemon.go:966-980 [applyDefaults] [kind] is the default executor's. *)
Definition servicesDefaults (kind : string) (s : Services) : Services :=
  match se_Allow s with
  | [] => s
  | _ =>
      let s := s <| se_MaxInstances ::= fun x => orZ x 8 |> in
      if String.eqb kind "local" then s <| se_Runtime ::= fun x => orStr x "docker" |> else s
  end.

(** src/internal/config/daemon.go:888-893 [applyDefaults] *)
Definition historyDefaults (poll : Z) (h : History) : History :=
  if String.eqb (hi_Path h) "" then h
  else mkHistory (hi_Path h) (orZ (hi_SampleEvery h) poll) (orZ (hi_DepthRetention h) (14 * 24 * hour)).

(** src/internal/config/daemon.go:900-902 [applyDefaults] *)
Definition dashboardDefaults (b : Dashboard) : Dashboard :=
  if String.eqb (db_Bind b) "" then b else mkDashboard (db_Bind b) (orStr (db_URL b) ("http://" +:+ db_Bind b)).

(** src/internal/config/daemon.go:941-948 [applyDefaults] *)
Definition slackDefaults (s : Slack) : Slack :=
  if String.eqb (sk_Channel s) "" then s
  else mkSlack (sk_Channel s) (orStr (sk_AppTokenEnv s) "SLACK_APP_TOKEN") (orStr (sk_BotTokenEnv s) "SLACK_BOT_TOKEN") (sk_AllowedUsers s).

(** src/internal/config/daemon.go:813-1056 [applyDefaults] *)
Definition applyDefaults (d : DaemonConf) : DaemonConf :=
  let d := d <| dc_Workers ::= option_map workersDefaults |>
             <| dc_Policy ::= option_map policyDefaults |>
             <| dc_CircuitBreaker ::= option_map circuitDefaults |>
             <| dc_Signing ::= option_map (fun s => mkSigning (sg_SSHKey s) (orZ (sg_Timeout s) (10 * second))) |>
             <| dc_FailureReview ::= option_map failureReviewDefaults |>
             <| dc_GitHub ::= fun g => g <| gh_PullRequests ::= option_map pullRequestsDefaults |> |>
             <| dc_Gerrit ::= option_map gerritDefaults |>
             <| dc_Poll ::= fun x => orZ x (10 * second) |>
             <| dc_CheckSpec ::= fun x => orStr x ".gauntlet.kdl" |>
             <| dc_Shutdown ::= fun x => orStr x "drain" |>
             <| dc_SourceRetention ::= fun x => orZ x (30 * 24 * hour) |>
             <| dc_LogRetention ::= fun x => orZ x (30 * 24 * hour) |>
             <| dc_AutoRetryErrors ::= fun x => match x with None => Some true | Some b => Some b end |> in
  let d := d <| dc_History ::= historyDefaults (dc_Poll d) |> <| dc_Dashboard ::= dashboardDefaults |>
             <| dc_GitHub ::= gitHubDefaults |> <| dc_Slack ::= slackDefaults |>
             <| dc_Executor ::= fun e => applyExecutorDefaults (e <| xc_Kind ::= fun x => orStr x "local" |>) |>
             <| dc_Profiles ::= map applyExecutorDefaults |> in
  d <| dc_Services ::= servicesDefaults (xc_Kind (dc_Executor d)) |>
    <| dc_Targets ::= map targetDefaults |>
    <| dc_Deploy ::= map environmentDefaults |>
    <| dc_Summarize ::= option_map summarizeDefaults |>.

(** ** Executor profiles *)

(** src/internal/config/daemon.go:747-794 [resolveExecutors] One block. *)
Definition resolveExecutor (e : Executor) (seenDefault : bool) (d : DaemonConf) : string + (bool * DaemonConf) :=
  let q := quoted (xc_Arg e) in
  if String.eqb (xc_Kind e) "" then
    if negb (existsb (String.eqb (xc_Arg e)) [""; "local"; "container"]) then
      inl ("executor " +:+ q +:+ ": not a kind — the argument of a kind-less executor block must be " +:+ quoted "local" +:+ " or "
           +:+ quoted "container" +:+ "; a named profile needs kind=, e.g. executor " +:+ q +:+ " kind=" +:+ quoted "container")
    else if seenDefault then
      inl ("executor: more than one default (kind-less) executor block; name additional ones with kind=, e.g. executor "
           +:+ quoted "ci" +:+ " kind=" +:+ quoted "container")
    else
      let e := e <| xc_Kind := xc_Arg e |> <| xc_Arg := "" |> in
      if xc_MaxExecutions e =? 0 then inr (true, d <| dc_Executor := e |>)
      else if negb (dc_MaxExecutions d =? 0) then
        inl "max-executions is set both at the top level and on the executor block; keep the top-level one"
      else inr (true, d <| dc_MaxExecutions := xc_MaxExecutions e |> <| dc_Executor := e <| xc_MaxExecutions := 0 |> |>)
  else
    match first_error [
      (String.eqb (xc_Arg e) "", "executor: a profile with kind=" +:+ quoted (xc_Kind e) +:+ " needs a name argument");
      (negb (xc_MaxExecutions e =? 0),
        "executor " +:+ q +:+ ": max-executions is daemon-wide, not per-profile; set it at the top level");
      (String.eqb (xc_Arg e) "local" || String.eqb (xc_Arg e) "container",
        "executor: profile may not be named " +:+ q +:+ " — that word in the argument position means the DEFAULT executor's kind; pick another name");
      (String.eqb (xc_Arg e) "default",
        "executor: profile may not be named " +:+ q +:+ " — gauntlet doctor prints the default (kind-less) profile under that label; pick another name")] with
    | Some err => inl err
    | None => inr (seenDefault, d <| dc_Profiles ::= fun l => l ++ [e <| xc_Name := xc_Arg e |> <| xc_Arg := "" |>] |>)
    end.

Fixpoint resolveBlocks (l : list Executor) (seenDefault : bool) (d : DaemonConf) : string + DaemonConf :=
  match l with
  | [] => inr d
  | e :: l =>
      match resolveExecutor e seenDefault d with
      | inl err => inl err
      | inr (seenDefault, d) => resolveBlocks l seenDefault d
      end
  end.

(** src/internal/config/daemon.go:745-796 [resolveExecutors] *)
Definition resolveExecutors (d : DaemonConf) : string + DaemonConf := resolveBlocks (dc_Executors d) false d.

(** ** Strings and paths *)

(** [strings.ContainsAny] of ASCII characters *)
Definition containsAny (chars : bytes) (s : string) : bool := existsb (fun c => existsb (Ascii.eqb c) chars) (to_bytes s).

(** [strings.Contains] *)
Fixpoint containsBytes (sub b : bytes) : bool :=
  match strip_prefix sub b with
  | Some _ => true
  | None => match b with [] => false | _ :: t => containsBytes sub t end
  end.

Definition contains (sub s : string) : bool := containsBytes (to_bytes sub) (to_bytes s).

Definition hasSuffix (suf s : string) : bool :=
  match strip_prefix (rev (to_bytes suf)) (rev (to_bytes s)) with Some _ => true | None => false end.

Definition nul : ascii := Ascii.zero.
Definition tabChar : ascii := ascii_of_nat 9.
Definition crChar : ascii := ascii_of_nat 13.

(** A name of an environment variable, as far as it is checked. *)
Definition badVariable (s : string) : bool := containsAny ["="%char; nul] s.

(** What git refuses in a ref name. *)
Definition badRefChars : bytes := ["*"; "?"; "["; "\"; "~"; "^"; ":"]%char.
Definition badRef (s : string) : bool := containsAny badRefChars s || contains ".." s || contains "@{" s.

(** [filepath.IsAbs] *)
Definition IsAbs (path : string) : bool := String.prefix "/" path.

(** [filepath.Clean]: the components that are left, the last one first. *)
Definition cleanStep (rooted : bool) (st : list bytes) (c : bytes) : list bytes :=
  if bool_decide (c = [] \/ c = ["."%char]) then st
  else if bool_decide (c = ["."; "."]%char) then
    match st with
    | [] => if rooted then [] else [c]
    | top :: rest => if bool_decide (top = ["."; "."]%char) then c :: st else rest
    end
  else c :: st.

Definition components (path : string) : list bytes :=
  rev (fold_left (cleanStep (IsAbs path)) (split_bytes "/"%char [] (to_bytes path)) []).

Fixpoint joinSlash (l : list bytes) : bytes :=
  match l with [] => [] | [x] => x | x :: l => x ++ "/"%char :: joinSlash l end.

Definition Clean (path : string) : string :=
  let out := (if IsAbs path then ["/"%char] else []) ++ joinSlash (components path) in
  match out with [] => "." | _ => of_bytes out end.

Example Clean_ex : map Clean ["/workspace/../gauntlet//x/."; "a/../../b"; ""; "/.."] = ["/gauntlet/x"; "../b"; "."; "/"].
Proof. vm_compute. reflexivity. Qed.

(** src/internal/config/daemon.go:1355-1362 [pathAtOrUnder] *)
Definition pathAtOrUnder (path reserved : string) : bool :=
  if String.eqb reserved "" then false
  else String.eqb (Clean path) (Clean reserved) || String.prefix (Clean reserved +:+ "/") (Clean path).

(** ** Quantities *)

Definition digitsZ (b : bytes) : Z := fold_left (fun n c => n * 10 + (byte_val c - 48)) b 0.

(** [strconv.ParseFloat] of digits with an optional fraction: the nearest float64 of the decimal. *)
Definition parseDecimal (s : string) : float64 :=
  let '(x, y) := match cut_at "."%char (to_bytes s) with Some xy => xy | None => (to_bytes s, []) end in
  match digitsZ (x ++ y) with
  | Zpos n => SFdiv 53 1024 (S754_finite false n 0) (S754_finite false (Z.to_pos (10 ^ Z.of_nat (length y))) 0)
  | _ => f64_zero
  end.

(** [int64(math.Ceil(x))] of a float64 whose value is small enough *)
Definition f64_ceil (x : float64) : Z :=
  match x with
  | S754_finite s m e =>
      let v := if s then Zneg m else Zpos m in
      if 0 <=? e then v * 2 ^ e else - ((- v) `div` 2 ^ (- e))
  | _ => 0
  end.

(** The letter a quantity of memory ends in, in either case, and its multiple; the Kelvin sign is a [k]. *)
Definition memoryUnits : list (bytes * Z) :=
  map (fun u : list Z * Z => (map val_byte u.1, u.2))
    [([66], 1); ([98], 1); ([75], 2 ^ 10); ([107], 2 ^ 10); ([226; 132; 170], 2 ^ 10); ([77], 2 ^ 20); ([109], 2 ^ 20);
     ([71], 2 ^ 30); ([103], 2 ^ 30); ([], 1)].

Definition memoryParts (s : string) : option (Z * Z) :=
  let b := to_bytes s in
  let fits (u : bytes * Z) := let n := (length b - length u.1)%nat in
    bool_decide (drop n b = u.1) && (length u.1 <=? length b)%nat && digits (take n b) in
  match List.find fits memoryUnits with
  | Some u => Some (digitsZ (take (length b - length u.1) b), u.2)
  | None => None
  end.

Definition maxInt64 : Z := 2 ^ 63 - 1.

(** src/internal/config/workers.go:89-128 [ResourceValues] *)
Definition ResourceValues (cpu memory : string) : string + (Z * Z) :=
  if negb (String.eqb cpu "") && negb (cpusPattern cpu) then inl "invalid CPU quantity"
  else
    let cores := if String.eqb cpu "" then f64_of_Z 1 else parseDecimal cpu in
    let finite := match cores with S754_infinity _ | S754_nan => false | _ => true end in
    if negb finite || SFleb cores f64_zero || SFltb (f64_of_Z 1000000) cores then inl "cpus must be positive and at most 1000000"
    else
      let millicores := Z.max 1 (f64_ceil (SFmul 53 1024 cores (f64_of_Z 1000))) in
      if String.eqb memory "" then inr (millicores, 128 * 2 ^ 20)
      else if negb (memoryPattern memory) then inl "invalid memory quantity"
      else
        match memoryParts memory with
        | Some (n, multiplier) =>
            if (maxInt64 <? n) || (n <=? 0) || (maxInt64 `div` multiplier <? n) then inl "memory must be a positive bounded quantity"
            else inr (millicores, n * multiplier)
        | None => inl "memory must be a positive bounded quantity"
        end.

Example ResourceValues_ex :
  map (fun cm => ResourceValues cm.1 cm.2) [(""  , ""); ("1.5", "2g"); ("0.0001", "1K"); ("0", "1"); ("1", "9223372036854775807k")]
  = [inr (1000, 134217728); inr (1500, 2147483648); inr (1, 1024); inl "cpus must be positive and at most 1000000";
     inl "memory must be a positive bounded quantity"].
Proof. vm_compute. reflexivity. Qed.

(** ** Validation *)

(** What is used of a parsed URL. *)
Record URL := mkURL {
  u_Scheme : string;
  u_Host : string;
  u_User : bool;
  u_RawQuery : string;
  u_Fragment : string;
  u_Path : string;
  u_EscapedPath : string;
}.

Section Validate.
(** [url.Parse], [net.SplitHostPort] with the host it finds, whether [net.ParseIP] reads a loopback address, the error of parsing a
    merge-message template, [strings.EqualFold], [strings.ToLower], [time.Duration.String]. *)
Context (url_Parse : string -> option URL) (SplitHost : string -> option string) (isLoopback : string -> bool)
  (templateError : string -> option string) (EqualFold : string -> string -> bool) (ToLower : string -> string)
  (durationString : Z -> string).

(** src/internal/config/policy.go:26-43 [validate] *)
Fixpoint policyNames (seen l : list string) : option string :=
  match l with
  | [] => None
  | name :: l =>
      if negb (existsb (String.eqb name) ["scope"; "command"; "submission"; "execution"; "deployment"; "retry"]) || bool_decide (name ∈ seen)
      then Some ("policy: unknown or duplicate decision " +:+ quoted name)
      else policyNames (name :: seen) l
  end.

(** src/internal/config/policy.go:26-44 [validate] *)
Definition validatePolicy (p : Policy) : option string :=
  first_error [
    (Bool.eqb (String.eqb (pl_Rego p) "") (String.eqb (pl_File p) ""), "policy: use exactly one of rego or rego-file");
    ((pl_Timeout p <=? 0) || (second <? pl_Timeout p), "policy: timeout must be >0 and <=1s")] orelse
  policyNames [] (pl_Replace p ++ pl_Extend p) orelse
  first_error [((32 <? length (pl_Teams p))%nat, "policy: at most 32 teams")].

(** src/internal/config/circuit.go:29-34 [validate] *)
Definition validateCircuit (c : CircuitBreaker) : option string :=
  first_error [((cb_Threshold c <? 2) || (100 <? cb_Threshold c) || (cb_Window c <=? 0) || (cb_Backoff c <=? 0)
    || (cb_MaxBackoff c <? cb_Backoff c) || (hour <? cb_MaxBackoff c), "circuit-breaker: invalid threshold, window, or backoff")].

(** src/internal/config/signing.go:17-25 [validate] *)
Definition validateSigning (s : Signing) : option string :=
  first_error [
    (negb (IsAbs (sg_SSHKey s)) || containsAny [nul; crChar; newline] (sg_SSHKey s), "signing: ssh-key must be an absolute key-file path");
    ((sg_Timeout s <=? 0) || (minute <? sg_Timeout s), "signing: timeout must be >0 and <=1m")].

(** src/internal/config/flaky.go:110-116 [validateModelURL] *)
Definition validateModelURL (endpoint : string) : option string :=
  let bad := match url_Parse endpoint with
             | None => true
             | Some u => String.eqb (u_Host u) "" || u_User u || negb (String.eqb (u_RawQuery u) "") || negb (String.eqb (u_Fragment u) "")
                 || negb (String.eqb (u_Scheme u) "http" || String.eqb (u_Scheme u) "https")
             end in
  if bad then Some "api-url must be an HTTP(S) URL without credentials, query, or fragment" else None.

Definition wrap (what : string) (e : option string) : option string := option_map (fun e => what +:+ ": " +:+ e) e.

(** src/internal/config/flaky.go:76-82 [validate] *)
Fixpoint reviewedChecks (seen l : list string) : option string :=
  match l with
  | [] => None
  | name :: l =>
      if String.eqb name "" || String.prefix "image:" name || String.prefix "receipt:" name || bool_decide (name ∈ seen)
      then Some ("failure-review: invalid or duplicate check " +:+ quoted name)
      else reviewedChecks (name :: seen) l
  end.

(** src/internal/config/flaky.go:63-108 [validate] *)
Definition validateFailureReview (f : FailureReview) : option string :=
  let finite := match fr_MinConfidence f with S754_infinity _ | S754_nan => false | _ => true end in
  first_error [
    (negb (String.eqb (fr_Auth f) "api-key" || String.eqb (fr_Auth f) "chatgpt"), "failure-review: auth must be api-key or chatgpt");
    (String.eqb (TrimSpace (fr_Model f)) "", "failure-review: model is required");
    (String.eqb (TrimSpace (fr_TokenEnv f)) "" || badVariable (fr_TokenEnv f), "failure-review: token-env must name an environment variable");
    ((length (fr_Checks f) =? 0)%nat, "failure-review: checks must explicitly name repeatable checks")] orelse
  reviewedChecks [] (fr_Checks f) orelse
  first_error [
    ((fr_MaxRunRetries f <? 1) || (20 <? fr_MaxRunRetries f), "failure-review: max-run-retries must be 1..20");
    ((fr_KnownFlakeRetries f <? 0) || (fr_MaxRetries f <? fr_KnownFlakeRetries f), "failure-review: known-flake-retries must be 0..max-retries");
    ((fr_MaxRetries f <? 1) || (3 <? fr_MaxRetries f), "failure-review: max-retries must be 1..3");
    (negb finite || SFleb (fr_MinConfidence f) f64_zero || SFltb (f64_of_Z 1) (fr_MinConfidence f),
      "failure-review: min-confidence must be >0 and <=1");
    ((fr_Timeout f <=? 0) || (5 * minute <? fr_Timeout f), "failure-review: timeout must be >0 and <=5m");
    ((fr_MaxOutputBytes f <? 256) || (65536 <? fr_MaxOutputBytes f), "failure-review: max-output-bytes must be 256..65536")] orelse
  wrap "failure-review" (validateModelURL (fr_APIURL f)) orelse
  first_error [(String.eqb (TrimSpace (fr_Codex f)) "", "failure-review: codex must name an executable")].

(** What a letter of a case-insensitive pattern accepts: both cases, for [s] the long one and for [k] the Kelvin sign. *)
Definition foldLetter (c : ascii) : list bytes :=
  let v := byte_val c in
  if between 97 122 v then
    [[c]; [val_byte (v - 32)]] ++ (if v =? 115 then [map val_byte [197; 191]] else if v =? 107 then [map val_byte [226; 132; 170]] else [])
  else [[c]].

Fixpoint foldPrefix (lit b : bytes) : option bytes :=
  match lit with
  | [] => Some b
  | c :: lit => match strip_any (foldLetter c) b with Some b => foldPrefix lit b | None => None end
  end.

(** [[^/\s?#]+] *)
Definition segmentByte (c : ascii) : bool :=
  negb (existsb (Ascii.eqb c) ["/"; "?"; "#"; " "; tabChar; newline; crChar; ascii_of_nat 12]%char).

Fixpoint dropSegment (b : bytes) : bytes :=
  match b with c :: t => if segmentByte c then dropSegment t else b | [] => [] end.

Definition segment (b : bytes) : option bytes :=
  match b with c :: t => if segmentByte c then Some (dropSegment t) else None | [] => None end.

(** src/internal/config/worker_pools.go:32-32 [vmssResourceID] *)
Definition vmssResourceID (s : string) : bool :=
  let matched :=
    b ← foldPrefix (to_bytes "/subscriptions/") (to_bytes s); b ← segment b;
    b ← foldPrefix (to_bytes "/resourcegroups/") b; b ← segment b;
    b ← foldPrefix (to_bytes "/providers/microsoft.compute/virtualmachinescalesets/") b; segment b in
  match matched with
  | Some [] => true
  | _ => false
  end.

Definition resourceError (r : string + (Z * Z)) : option string := match r with inl e => Some e | inr _ => None end.

(** [1e-9] *)
Definition f64_nano : float64 := f64_div (f64_of_Z 1) (f64_of_Z 1000000000).

(** src/internal/config/worker_pools.go:34-69 [validate] *)
Definition validatePool (p : WorkerPool) : option string :=
  let unreal x := match x with S754_infinity _ | S754_nan => true | _ => SFltb x f64_zero end in
  first_error [
    (String.eqb (wp_Name p) "" || containsAny ["/"%char; "\"%char; nul] (wp_Name p), "name is required")] orelse
  (if String.eqb (wp_Provider p) "command" then
      if match wp_Command p with c :: _ => String.eqb c "" | [] => true end || negb (String.eqb (wp_ResourceID p) "")
      then Some "command provider requires command and no resource-id" else None
   else if String.eqb (wp_Provider p) "azure-vmss" then if vmssResourceID (wp_ResourceID p) then None else Some "azure-vmss requires a scale set resource-id"
   else Some "provider must be command or azure-vmss") orelse
  first_error [
    ((length (wp_Profiles p) =? 0)%nat || String.eqb (wp_CPUs p) "" || String.eqb (wp_Memory p) "", "profiles, cpus and memory are required")] orelse
  resourceError (ResourceValues (wp_CPUs p) (wp_Memory p)) orelse
  first_error [
    ((wp_Slots p <? 1) || (4096 <? wp_Slots p) || (wp_UrgentReserve p <? 0) || (wp_Slots p <=? wp_UrgentReserve p) || (wp_MaxNodes p <? 1)
      || (10000 <? wp_MaxNodes p) || (wp_WarmNodes p <? 0) || (wp_MaxNodes p <? wp_WarmNodes p), "invalid capacity, reserve or node bounds");
    ((wp_IdleTimeout p <? second) || (24 * hour <? wp_IdleTimeout p) || (wp_StartupTimeout p <? second) || (24 * hour <? wp_StartupTimeout p),
      "idle-timeout and startup-timeout must be 1s..24h");
    (unreal (wp_PricePerHour p) || unreal (wp_MaxHourlyCost p), "invalid hourly cost");
    (SFltb f64_zero (wp_MaxHourlyCost p) && (SFleb (wp_PricePerHour p) f64_zero
        || SFltb (f64_add (wp_MaxHourlyCost p) f64_nano) (SFmul 53 1024 (f64_of_Z (wp_WarmNodes p)) (wp_PricePerHour p))),
      "cost cap requires price-per-hour and must cover warm-nodes")].

(** src/internal/config/workers.go:57-66 [validate] *)
Fixpoint validatePools (seen : list string) (l : list WorkerPool) : option string :=
  match l with
  | [] => None
  | p :: l =>
      if bool_decide (wp_Name p ∈ seen) then Some ("workers: duplicate pool " +:+ quoted (wp_Name p))
      else wrap ("worker pool " +:+ quoted (wp_Name p)) (validatePool p) orelse validatePools (wp_Name p :: seen) l
  end.

(** src/internal/config/workers.go:53-85 [validate] *)
Definition validateWorkers (w : Workers) : option string :=
  first_error [((wk_ScaleInterval w <? second) || (hour <? wk_ScaleInterval w), "workers: scale-interval must be 1s..1h")] orelse
  validatePools [] (wk_Pools w) orelse
  match SplitHost (wk_Listen w) with
  | None => Some "workers: invalid listen address"
  | Some host => first_error [
      (negb (Bool.eqb (String.eqb (wk_TLSCert w) "") (String.eqb (wk_TLSKey w) "")), "workers: tls-cert and tls-key must be set together");
      (String.eqb (wk_TLSCert w) "" && negb (isLoopback host), "workers: a non-loopback listener requires TLS")]
  end orelse
  first_error [
    (String.eqb (wk_TokenEnv w) "" || badVariable (wk_TokenEnv w), "workers: token-env must name a variable");
    ((wk_Lease w <? 3 * second) || (hour <? wk_Lease w) || (wk_ReconnectGrace w <? wk_Lease w) || (hour <? wk_ReconnectGrace w),
      "workers: lease must be 3s..1h and reconnect-grace must cover one lease, up to 1h")].

(** src/internal/config/daemon.go:1405-1430 [validate] The pools against the profiles; [resources] are the scale sets seen. *)
Fixpoint poolsAgree (profiles : list Executor) (resources : list string) (l : list WorkerPool) : option string :=
  match l with
  | [] => None
  | p :: l =>
      let azure := String.eqb (wp_Provider p) "azure-vmss" in
      let id := ToLower (wp_ResourceID p) in
      let q := quoted (wp_Name p) in
      first_error [(azure && bool_decide (id ∈ resources), "workers: scale sets must belong to one pool")] orelse
      first_some (fun name =>
        if existsb (fun x => String.eqb (xc_Name x) name && String.eqb (xc_Kind x) "remote") profiles then None
        else Some ("worker pool " +:+ q +:+ ": unknown remote profile " +:+ quoted name)) (wp_Profiles p) orelse
      first_some (fun name =>
        if existsb (String.eqb name) (wp_Profiles p) then None
        else Some ("worker pool " +:+ q +:+ ": capability profile " +:+ quoted name +:+ " not in profiles"))
        (wp_ImageProfiles p ++ wp_ServiceProfiles p) orelse
      poolsAgree profiles (if azure then id :: resources else resources) l
  end.

(** src/internal/config/daemon.go:510-510 [reservedResultDir] *)
Definition reservedResultDir := "/gauntlet".

(** src/internal/config/daemon.go:516-516 [reservedGitDir] *)
Definition reservedGitDir := "/gauntlet-git".

(** src/internal/config/daemon.go:1224-1264 [validateExecutor] What each kind may say. *)
Definition validateKind (e : Executor) (label : string) : option string :=
  let containerOnly what := label +:+ ": " +:+ what +:+ " is container-only (kind is " +:+ quoted "local" +:+ ")" in
  first_error [(negb (String.eqb (xc_Kind e) "remote") && ((0 <? length (xc_Labels e))%nat || xc_SupportsImages e),
    label +:+ ": labels and supports-images are remote-only")] orelse
  let kind := String.eqb (xc_Kind e) in
  if kind "remote" then
      first_error [(negb (String.eqb (xc_Image e) "") || negb (String.eqb (xc_Runtime e) "") || negb (String.eqb (xc_Workdir e) "")
        || (0 <? length (xc_Caches e))%nat || (0 <? length (xc_Mounts e))%nat || (0 <? length (xc_Env e))%nat || (0 <? length (xc_AddHosts e))%nat,
        label +:+ ": worker runtime settings belong in worker configuration")] orelse
      wrap label (resourceError (ResourceValues (xc_CPUs e) (xc_Memory e)))
  else if kind "local" then first_error [
      (negb (String.eqb (xc_Image e) ""), containerOnly "image");
      (negb (String.eqb (xc_Runtime e) ""), containerOnly "runtime");
      (negb (String.eqb (xc_Workdir e) ""), containerOnly "workdir");
      ((0 <? length (xc_Caches e))%nat, containerOnly "cache");
      ((0 <? length (xc_Mounts e))%nat, containerOnly "mount");
      ((0 <? length (xc_AddHosts e))%nat, containerOnly "add-host");
      (negb (String.eqb (xc_Memory e) ""), containerOnly "memory");
      (negb (String.eqb (xc_CPUs e) ""), containerOnly "cpus")]
  else if kind "container" then first_error [(String.eqb (xc_Image e) "", label +:+ ": image must not be empty for kind " +:+ quoted "container")]
  else Some (label +:+ ": kind must be " +:+ quoted "local" +:+ " or " +:+ quoted "container" +:+ ", got " +:+ quoted (xc_Kind e)).

(** src/internal/config/daemon.go:1306-1351 [validateExecutor] One mount. *)
Definition validateMount (e : Executor) (label : string) (m : Mount) : option string :=
  let q := label +:+ ": mount " +:+ quoted (mo_Host m) in
  let p := quoted (mo_Path m) in
  first_error [
    (String.eqb (mo_Host m) "", label +:+ ": mount: host must not be empty");
    (negb (IsAbs (mo_Host m)), q +:+ ": host must be an absolute path");
    (String.eqb (mo_Path m) "", q +:+ ": path must not be empty");
    (negb (IsAbs (mo_Path m)), q +:+ ": path must be an absolute path, got " +:+ p);
    (contains ":" (mo_Host m), q +:+ ": host must not contain ':'");
    (contains ":" (mo_Path m), q +:+ ": path must not contain ':', got " +:+ p);
    (pathAtOrUnder (mo_Path m) (xc_Workdir e), q +:+ ": path " +:+ p +:+ " is at or under executor workdir " +:+ quoted (xc_Workdir e));
    (pathAtOrUnder (mo_Path m) reservedResultDir,
      q +:+ ": path " +:+ p +:+ " is at or under the reserved result-dir mount " +:+ quoted reservedResultDir);
    (pathAtOrUnder (mo_Path m) reservedGitDir,
      q +:+ ": path " +:+ p +:+ " is at or under the reserved git-dir mount " +:+ quoted reservedGitDir)].

(** src/internal/config/daemon.go:1223-1353 [validateExecutor] *)
Definition validateExecutor (e : Executor) (label : string) : option string :=
  validateKind e label orelse
  first_some (fun ev => first_error [
    (String.eqb (ev_Name ev) "", label +:+ ": env: name must not be empty");
    (contains "=" (ev_Name ev), label +:+ ": env " +:+ quoted (ev_Name ev) +:+ ": name must not contain '='");
    (String.prefix "GAUNTLET_" (ev_Name ev),
      label +:+ ": env " +:+ quoted (ev_Name ev) +:+ ": the GAUNTLET_* namespace is reserved for the check contract")]) (xc_Env e) orelse
  first_some (fun ah => first_error [
    (String.eqb (ah_Host ah) "" || String.eqb (ah_Gateway ah) "", label +:+ ": add-host needs both a hostname and a gateway argument");
    (contains ":" (ah_Host ah), label +:+ ": add-host " +:+ quoted (ah_Host ah) +:+ ": hostname must not contain ':'")]) (xc_AddHosts e) orelse
  first_error [
    (negb (String.eqb (xc_Memory e) "") && negb (memoryPattern (xc_Memory e)),
      label +:+ ": memory " +:+ quoted (xc_Memory e) +:+ ": must match (?i)^[0-9]+[bkmg]?$ (e.g. " +:+ quoted "2g" +:+ ")");
    (negb (String.eqb (xc_CPUs e) "") && negb (cpusPattern (xc_CPUs e)),
      label +:+ ": cpus " +:+ quoted (xc_CPUs e) +:+ ": must match ^[0-9]+(\.[0-9]+)?$ (e.g. " +:+ quoted "1.5" +:+ ")")] orelse
  first_some (fun c => first_error [
    (String.eqb (ca_Name c) "", label +:+ ": cache: name must not be empty");
    (String.eqb (ca_Path c) "", label +:+ ": cache " +:+ quoted (ca_Name c) +:+ ": path must not be empty")]) (xc_Caches e) orelse
  first_some (validateMount e label) (xc_Mounts e).

(** src/internal/config/daemon.go:1066-1088 [validateDeploy] The names. *)
Fixpoint environmentNames (seen : list string) (l : list Environment) : option string :=
  match l with
  | [] => None
  | e :: l =>
      let q := "deploy: environment " +:+ quoted (en_Name e) in
      first_error [
        (String.eqb (en_Name e) "", "deploy: environment: name must not be empty");
        (contains "/" (en_Name e), q +:+ ": name must not contain '/'");
        (containsAny (badRefChars ++ [" "%char; tabChar; newline]) (en_Name e) || contains ".." (en_Name e) || contains "@{" (en_Name e),
          q +:+ ": name is not a valid ref name (no * ? [ \ ~ ^ : .. @{ or whitespace)");
        (bool_decide (en_Name e ∈ seen), q +:+ ": duplicate")] orelse
      environmentNames (en_Name e :: seen) l
  end.

(** src/internal/config/daemon.go:1115-1124 [validateDeploy] *)
Fixpoint environmentNodes (q : string) (seen l : list string) : option string :=
  match l with
  | [] => None
  | n :: l => first_error [
      (String.eqb n "", q +:+ ": nodes: name must not be empty");
      (bool_decide (n ∈ seen), q +:+ ": nodes " +:+ quoted n +:+ ": duplicate")] orelse environmentNodes q (n :: seen) l
  end.

(** src/internal/config/daemon.go:1090-1125 [validateDeploy] One environment; [declared] are the names. *)
Definition validateEnvironment (declared : list string) (e : Environment) : option string :=
  let q := "deploy: environment " +:+ quoted (en_Name e) in
  let src := en_Source e in
  first_error [
    (String.eqb (ds_Branch src) "" && String.eqb (ds_Env src) "", q +:+ ": source is required");
    (negb (String.eqb (ds_Branch src) "") && negb (String.eqb (ds_Env src) ""),
      q +:+ ": source and source env= are mutually exclusive — pick one");
    (String.prefix "refs/" (ds_Branch src), q +:+ ": source " +:+ quoted (ds_Branch src) +:+ " must be a branch name, not a ref (drop the "
      +:+ quoted "refs/" +:+ " prefix)");
    (negb (String.eqb (ds_Env src) "") && negb (bool_decide (ds_Env src ∈ declared)),
      q +:+ ": source env " +:+ quoted (ds_Env src) +:+ ": no such environment declared");
    ((en_MaxParallel e <? 1) || (64 <? en_MaxParallel e),
      q +:+ ": max-parallel must be between 1 and 64, got " +:+ pretty (en_MaxParallel e));
    (negb (String.eqb (en_OnDesiredMove e) "finish" || String.eqb (en_OnDesiredMove e) "cancel"),
      q +:+ ": on-desired-move must be " +:+ quoted "finish" +:+ " or " +:+ quoted "cancel" +:+ ", got " +:+ quoted (en_OnDesiredMove e))] orelse
  environmentNodes q [] (en_Nodes e).

(** src/internal/config/daemon.go:1136-1141 [validateDeployEnvAcyclic] *)
Definition sourcesOf (e : Environment) : list string := if String.eqb (ds_Env (en_Source e)) "" then [] else [ds_Env (en_Source e)].

(** src/internal/config/daemon.go:1135-1172 [validateDeployEnvAcyclic] The search of [validateAcyclic] over the sources. *)
Definition validateDeployEnvAcyclic (envs : list Environment) : option string :=
  acyclicError (edgeMap en_Name sourcesOf envs)
    (fun name dep => "deploy: environment " +:+ quoted name +:+ ": source env " +:+ quoted dep +:+ ": dependency cycle") (en_Name <$> envs).

(** src/internal/config/daemon.go:1061-1128 [validateDeploy] *)
Definition validateDeploy (envs : list Environment) : option string :=
  match envs with
  | [] => None
  | _ =>
      environmentNames [] envs orelse
      first_some (validateEnvironment (en_Name <$> envs)) envs orelse
      validateDeployEnvAcyclic envs
  end.

(** [strings.Trim(s, "/")] *)
Fixpoint trimSlash (b : bytes) : bytes := match b with c :: t => if Ascii.eqb c "/" then trimSlash t else b | [] => [] end.
Definition trimSlashes (s : string) : string := of_bytes (rev (trimSlash (rev (trimSlash (to_bytes s))))).

(** src/internal/config/daemon.go:1176-1217 [validateAppRemote] *)
Definition validateAppRemote (remote apiURL repo : string) : option string :=
  let app := "github: auth " +:+ quoted "app" in
  match url_Parse remote with
  | None => Some (app +:+ " requires an HTTPS remote URL, got " +:+ quoted remote)
  | Some u =>
      if String.eqb (u_Scheme u) "" || String.eqb (u_Host u) "" then Some (app +:+ " requires an HTTPS remote URL, got " +:+ quoted remote)
      else if negb (EqualFold (u_Scheme u) "https") then
        Some (app +:+ " requires an HTTPS remote (installation tokens cannot authenticate " +:+ u_Scheme u +:+ ")")
      else if u_User u then
        Some (app +:+ ": remote must be credential-free (found userinfo in the URL); the token is injected per operation, never persisted")
      else
        match url_Parse apiURL with
        | None => Some ("github: api-url " +:+ quoted apiURL +:+ " does not parse as a URL")
        | Some api =>
            if String.eqb (u_Host api) "" then Some ("github: api-url " +:+ quoted apiURL +:+ " does not parse as a URL")
            else
              let wantHost := if EqualFold (u_Host api) "api.github.com" then "github.com" else u_Host api in
              if negb (EqualFold (u_Host u) wantHost) then
                Some (app +:+ ": remote host " +:+ quoted (u_Host u) +:+ " does not match the github block's host " +:+ quoted wantHost
                      +:+ " — app credentials are scoped to one host, never forwarded")
              else
                let got := trimSlashes (u_EscapedPath u) in
                let n := String.length got in
                let got := if (4 <=? n)%nat && EqualFold (String.substring (n - 4) 4 got) ".git" then String.substring 0 (n - 4) got else got in
                if EqualFold got repo then None
                else Some (app +:+ ": remote repository " +:+ quoted got +:+ " does not match the github block's " +:+ quoted repo)
        end
  end.

(** src/internal/config/daemon.go:1502-1514 [validate] *)
Fixpoint validateHooks (q : string) (seen : list string) (l : list Hook) : option string :=
  match l with
  | [] => None
  | h :: l => first_error [
      (String.eqb (hk_Name h) "", q +:+ ": hook: name must not be empty");
      ((length (hk_Command h) =? 0)%nat, q +:+ ": hook " +:+ quoted (hk_Name h) +:+ ": command must not be empty");
      (bool_decide (hk_Name h ∈ seen), q +:+ ": hook " +:+ quoted (hk_Name h) +:+ ": duplicate")] orelse
      validateHooks q (hk_Name h :: seen) l
  end.

(** src/internal/config/daemon.go:1531-1566 [validate] *)
Definition validateMode (q : string) (t : Target) : option string :=
  let batch := quoted "batch" in
  let speculate := quoted "speculate" in
  let mode := String.eqb (t_Mode t) in
  if mode "" || mode "serial" then first_error [
      (negb (t_MaxBatch t =? 0), q +:+ ": max-batch requires mode " +:+ batch);
      (negb (t_Window t =? 0), q +:+ ": window requires mode " +:+ speculate);
      (negb (String.eqb (t_OnBatchRed t) ""), q +:+ ": on-batch-red requires mode " +:+ batch)]
  else if mode "batch" then first_error [
      (negb (t_Window t =? 0), q +:+ ": window is only valid for mode " +:+ speculate +:+ ", not " +:+ batch);
      ((t_MaxBatch t <? 1) || (64 <? t_MaxBatch t), q +:+ ": max-batch must be between 1 and 64, got " +:+ pretty (t_MaxBatch t));
      (negb (String.eqb (t_OnBatchRed t) "serial" || String.eqb (t_OnBatchRed t) "bisect"),
        q +:+ ": on-batch-red must be " +:+ quoted "serial" +:+ " or " +:+ quoted "bisect" +:+ ", got " +:+ quoted (t_OnBatchRed t))]
  else if mode "speculate" then first_error [
      (negb (t_MaxBatch t =? 0), q +:+ ": max-batch is only valid for mode " +:+ batch +:+ ", not " +:+ speculate);
      (negb (String.eqb (t_OnBatchRed t) ""), q +:+ ": on-batch-red is only valid for mode " +:+ batch +:+ ", not " +:+ speculate);
      ((t_Window t <? 1) || (32 <? t_Window t), q +:+ ": window must be between 1 and 32, got " +:+ pretty (t_Window t))]
  else Some (q +:+ ": mode must be one of " +:+ quoted "" +:+ ", " +:+ quoted "serial" +:+ ", " +:+ batch +:+ ", " +:+ speculate
             +:+ ", got " +:+ quoted (t_Mode t)).

(** src/internal/config/daemon.go:1576-1581 [validate] *)
Definition adaptiveDefaults (a : AdaptiveScheduling) : AdaptiveScheduling :=
  mkAdaptive (orZ (ad_Start a) 1) (orZ (ad_Successes a) 4).

(** src/internal/config/daemon.go:1568-1585 [validate] *)
Definition validateAdaptive (q : string) (t : Target) : option string :=
  match t_Adaptive t with
  | None => None
  | Some a =>
      let ceiling := if String.eqb (t_Mode t) "batch" then t_MaxBatch t else t_Window t in
      let a := adaptiveDefaults a in
      first_error [
        (negb (String.eqb (t_Mode t) "batch") && negb (String.eqb (t_Mode t) "speculate"), q +:+ ": adaptive requires batch or speculate mode");
        ((ad_Start a <? 1) || (ceiling <? ad_Start a) || (ad_Successes a <? 1) || (1000 <? ad_Successes a),
          q +:+ ": adaptive start must fit the ceiling; successes must be 1..1000")]
  end.

(** src/internal/config/daemon.go:1476-1586 [validate] The targets, with those before. *)
Fixpoint validateTargets (before l : list TargetConf) : option string :=
  match l with
  | [] => None
  | tc :: l =>
      let t := tc_Target tc in
      let q := "target " +:+ quoted (t_Name t) in
      first_error [
        (negb (String.eqb (t_Landing t) "squash") && negb (String.eqb (t_Landing t) "merge"), q +:+ ": landing must be squash or merge");
        (String.eqb (t_Name t) "", "target: name must not be empty");
        (contains "/" (t_Name t), q +:+ ": name must not contain '/'");
        (String.eqb (t_Branch t) "", q +:+ ": branch missing");
        (existsb (fun o => String.eqb (t_Name (tc_Target o)) (t_Name t)) before, q +:+ ": duplicate")] orelse
      match find_index (fun o => String.eqb (t_Branch (tc_Target o)) (t_Branch t)) before with
      | Some (_, owner) => Some (q +:+ ": branch " +:+ quoted (t_Branch t) +:+ " already used by target " +:+ quoted (t_Name (tc_Target owner)))
      | None => None
      end orelse
      validateHooks q [] (tc_Hooks tc) orelse
      match tc_Hooks tc with
      | [] => first_error [(negb (String.eqb (tc_HooksPolicy tc) ""), q +:+ ": hooks-policy set without any hooks")]
      | _ => first_error [(negb (existsb (String.eqb (tc_HooksPolicy tc)) ["queue"; "coalesce"; "cancel"]),
               q +:+ ": hooks-policy must be one of queue, coalesce, cancel, got " +:+ quoted (tc_HooksPolicy tc))]
      end orelse
      validateMode q t orelse validateAdaptive q t orelse
      validateTargets (before ++ [tc]) l
  end.

Definition spaces : bytes := [" "%char; tabChar; newline].

(** src/internal/config/daemon.go:1601-1633 [validate] Pull requests and Gerrit. *)
Definition validateReviews (d : DaemonConf) : option string :=
  let g := dc_GitHub d in
  match gh_PullRequests g with
  | None => None
  | Some p => first_error [
      (negb (String.eqb (pr_WebhookSecretEnv p) "") && String.eqb (db_Bind (dc_Dashboard d)) "", "github: webhook-secret-env requires dashboard bind");
      (pr_PollInterval p <? second, "github: pull-requests poll-interval must be at least 1s");
      (String.eqb (gh_Repo g) "", "github: pull-requests requires a repo");
      (match pr_Approvals p with None => true | Some n => (n <? 0) || (10 <? n) end, "github: approvals must be between 0 and 10");
      (containsAny [" "%char; tabChar; crChar; newline; "@"%char] (pr_Bot p) || String.eqb (pr_Bot p) "", "github: invalid bot name")]
  end orelse
  match dc_Gerrit d with
  | None => None
  | Some ge =>
      if isSome (gh_PullRequests g) then Some "configure one review source per remote"
      else
        let bad := match url_Parse (ge_APIURL ge) with
                   | None => true
                   | Some u => negb (String.eqb (u_Scheme u) "https" || String.eqb (u_Scheme u) "http") || String.eqb (u_Host u) "" || u_User u
                   end in
        if bad || String.eqb (ge_Project ge) "" then Some "gerrit: API URL and project required" else None
  end orelse
  if isSome (gh_PullRequests g) || isSome (dc_Gerrit d) then
    first_error [(existsb (fun t => negb (String.eqb (t_Landing (tc_Target t)) "squash")) (dc_Targets d), "review sources require squash landings")]
  else None.

(** src/internal/config/daemon.go:1635-1660 [validate] *)
Definition validateTrialRefs (g : GitHub) : option string :=
  match gh_TrialRefs g with
  | None => None
  | Some tr =>
      let p := gh_TrialRefPrefix g in
      first_error [
        (String.eqb (gh_Repo g) "", "github: trial-refs requires the github block to name a repo");
        (negb (String.prefix "refs/" p), "github: trial-refs prefix must start with " +:+ quoted "refs/" +:+ ", got " +:+ quoted p);
        (hasSuffix "/" p || containsAny spaces p, "github: trial-refs prefix must have no trailing slash or whitespace, got " +:+ quoted p);
        (badRef p, "github: trial-refs prefix is not a valid ref name (no * ? [ \ ~ ^ : .. @{ ), got " +:+ quoted p);
        (tr_Retention tr <? 0, "github: trial-refs retention must not be negative, got " +:+ durationString (tr_Retention tr))]
  end.

(** src/internal/config/daemon.go:1661-1692 [validate] *)
Definition validateReceiptNotes (g : GitHub) : option string :=
  match gh_ReceiptNotes g with
  | None => None
  | Some rn =>
      let ref := rn_Ref rn in
      first_error [
        (String.eqb (gh_Repo g) "", "github: receipt-notes requires the github block to name a repo");
        (negb (String.prefix "refs/" ref), "github: receipt-notes ref must start with " +:+ quoted "refs/" +:+ ", got " +:+ quoted ref);
        (hasSuffix "/" ref || containsAny spaces ref, "github: receipt-notes ref must have no trailing slash or whitespace, got " +:+ quoted ref);
        (badRef ref, "github: receipt-notes ref is not a valid ref name (no * ? [ \ ~ ^ : .. @{ ), got " +:+ quoted ref);
        (String.prefix "refs/heads/" ref, "github: receipt-notes ref must not be under " +:+ quoted "refs/heads/"
          +:+ " — a receipts payload there would trigger branch machinery; use a custom namespace like "
          +:+ quoted "refs/notes/gauntlet/receipts" +:+ ", got " +:+ quoted ref);
        (rn_MaxBytes rn <=? 0, "github: receipt-notes max-bytes must be positive, got " +:+ pretty (rn_MaxBytes rn));
        (2 ^ 20 <? rn_MaxBytes rn, "github: receipt-notes max-bytes " +:+ pretty (rn_MaxBytes rn) +:+ " exceeds the maximum of 1048576")]
  end.

(** src/internal/config/daemon.go:1693-1715 [validate] *)
Definition validateAuth (d : DaemonConf) : option string :=
  let g := dc_GitHub d in
  let app := "github: auth " +:+ quoted "app" in
  match gh_Auth g with
  | None => None
  | Some a => first_error [
      (String.eqb (gh_Repo g) "", app +:+ " requires the github block to name a repo");
      (negb (String.eqb (au_Mode a) "app"), "github: auth mode must be " +:+ quoted "app" +:+ ", got " +:+ quoted (au_Mode a));
      (au_AppID a <=? 0, app +:+ ": app-id must be positive, got " +:+ pretty (au_AppID a));
      (au_InstallationID a <=? 0, app +:+ ": installation-id must be positive, got " +:+ pretty (au_InstallationID a));
      (String.eqb (au_PrivateKeyFile a) "", app +:+ ": private-key-file is required");
      (negb (String.eqb (gh_TokenEnv g) ""), "github: token-env and auth " +:+ quoted "app" +:+ " are mutually exclusive — pick one authentication mode")] orelse
      validateAppRemote (dc_Remote d) (gh_APIURL g) (gh_Repo g)
  end.

(** src/internal/config/daemon.go:1720-1740 [validate] *)
Fixpoint validateProfiles (workers : bool) (seen : list string) (l : list Executor) : option string :=
  match l with
  | [] => None
  | p :: l =>
      let label := "executor " +:+ quoted (xc_Name p) in
      first_error [
        (bool_decide (xc_Name p ∈ seen), label +:+ ": duplicate profile name");
        (negb (existsb (String.eqb (xc_Kind p)) ["local"; "container"; "remote"]),
          label +:+ ": kind must be " +:+ quoted "local" +:+ " or " +:+ quoted "container" +:+ ", got " +:+ quoted (xc_Kind p));
        (String.eqb (xc_Kind p) "remote" && negb workers, label +:+ ": remote executor requires workers")] orelse
      validateExecutor p label orelse
      validateProfiles workers (xc_Name p :: seen) l
  end.

(** src/internal/config/daemon.go:1760-1793 [validate] *)
Definition validateServicesBlock (ex : Executor) (s : Services) : option string :=
  match se_Allow s with
  | [] => None
  | allow =>
      first_some (fun a =>
        if String.eqb a "container" then None
        else if String.eqb a "artifact" || String.eqb a "oci-unpack" then
          Some ("services: allow " +:+ quoted a +:+ " is reserved for a future release")
        else Some ("services: allow must be " +:+ quoted "container" +:+ ", got " +:+ quoted a)) allow orelse
      first_error [(se_MaxInstances s <? 1, "services: max-instances must be at least 1, got " +:+ pretty (se_MaxInstances s))] orelse
      if String.eqb (xc_Kind ex) "container" then
        first_error [(negb (String.eqb (se_Runtime s) "") && negb (String.eqb (se_Runtime s) (xc_Runtime ex)),
          "services: runtime " +:+ quoted (se_Runtime s) +:+ " conflicts with executor runtime " +:+ quoted (xc_Runtime ex))]
      else first_error [(negb (String.eqb (se_Runtime s) "docker") && negb (String.eqb (se_Runtime s) "podman"),
             "services: runtime must be " +:+ quoted "docker" +:+ " or " +:+ quoted "podman" +:+ ", got " +:+ quoted (se_Runtime s))]
  end.

(** src/internal/config/daemon.go:1799-1824 [validate] *)
Definition validateSummarize (s : Summarize) : option string :=
  first_error [
    (negb (String.eqb (su_Auth s) "api-key") && negb (String.eqb (su_Auth s) "chatgpt"), "summarize: auth must be api-key or chatgpt");
    (String.eqb (TrimSpace (su_Codex s)) "", "summarize: codex must name an executable");
    (badVariable (su_TokenEnv s), "summarize: token-env must name an environment variable")] orelse
  wrap "summarize" (validateModelURL (su_APIURL s)) orelse
  first_error [
    (String.eqb (TrimSpace (su_Model s)) "", "summarize: model must not be empty");
    (String.eqb (TrimSpace (su_TokenEnv s)) "", "summarize: token-env must not be empty");
    (negb (existsb (String.eqb (su_Effort s)) ["none"; "low"; "medium"; "high"; "xhigh"]),
      "summarize: effort must be one of none, low, medium, high, xhigh, got " +:+ quoted (su_Effort s));
    (su_Timeout s <=? 0, "summarize: timeout must be positive, got " +:+ durationString (su_Timeout s))].

Definition optional {A} (f : A -> option string) (x : option A) : option string := match x with Some x => f x | None => None end.

(** src/internal/config/daemon.go:1452-1475 [validate] The required fields. *)
Definition validateBasics (d : DaemonConf) : option string :=
  first_error [
    (String.eqb (dc_Remote d) "", "remote: must not be empty");
    (dc_Poll d <=? 0, "poll-interval: must be positive, got " +:+ durationString (dc_Poll d));
    (dc_SourceRetention d <=? 0, "source-retention: must be positive");
    (dc_LogRetention d <=? 0, "log-retention: must be positive, got " +:+ durationString (dc_LogRetention d));
    (String.eqb (dc_Committer d).1 "", "committer: name must not be empty");
    (String.eqb (dc_Committer d).2 "", "committer: email must not be empty")] orelse
  wrap "merge-message" (templateError (dc_MergeMsg d)) orelse
  first_error [((length (dc_Targets d) =? 0)%nat, "no target defined")].

(** src/internal/config/daemon.go:1588-1600 [validate] *)
Definition validateHistory (d : DaemonConf) : option string :=
  let h := dc_History d in
  let repo := gh_Repo (dc_GitHub d) in
  first_error [
    (negb (String.eqb (hi_Path h) "") && (hi_SampleEvery h <=? 0), "history: sample-every must be positive, got " +:+ durationString (hi_SampleEvery h));
    (negb (String.eqb (hi_Path h) "") && (hi_DepthRetention h <=? 0),
      "history: depth-retention must be positive, got " +:+ durationString (hi_DepthRetention h));
    (negb (String.eqb repo "") &&
       match cut_at "/"%char (to_bytes repo) with Some (owner, name) => bool_decide (owner = []) || bool_decide (name = []) | None => true end,
      "github: repo must be in " +:+ quoted "owner/name" +:+ " form, got " +:+ quoted repo)].

(** src/internal/config/daemon.go:1741-1758 [validate] *)
Definition validateLimits (d : DaemonConf) : option string :=
  let reserve := dc_UrgentReserve d in
  let max := dc_MaxExecutions d in
  first_error [
    (negb (existsb (String.eqb (dc_Mtimes d)) [""; "history"]),
      "export: mtimes must be " +:+ quoted "history" +:+ " (or absent), got " +:+ quoted (dc_Mtimes d));
    ((reserve <? 0) || (0 <? reserve) && ((max =? 0) || (max <=? reserve)),
      "urgent-reserve must be nonnegative and smaller than a bounded max-executions");
    (max <? 0, "max-executions must not be negative, got " +:+ pretty max);
    (negb (existsb (String.eqb (dc_Shutdown d)) [""; "drain"; "kill"]),
      "shutdown must be " +:+ quoted "drain" +:+ " or " +:+ quoted "kill" +:+ ", got " +:+ quoted (dc_Shutdown d))].

(** src/internal/config/daemon.go:1400-1827 [validate] *)
Definition validateDaemon (d : DaemonConf) : option string :=
  optional (fun w => validateWorkers w orelse poolsAgree (dc_Profiles d) [] (wk_Pools w)) (dc_Workers d) orelse
  optional validatePolicy (dc_Policy d) orelse
  optional validateCircuit (dc_CircuitBreaker d) orelse
  optional validateSigning (dc_Signing d) orelse
  optional validateFailureReview (dc_FailureReview d) orelse
  validateBasics d orelse
  validateTargets [] (dc_Targets d) orelse
  validateHistory d orelse
  validateReviews d orelse
  validateTrialRefs (dc_GitHub d) orelse
  validateReceiptNotes (dc_GitHub d) orelse
  validateAuth d orelse
  validateExecutor (dc_Executor d) "executor" orelse
  validateProfiles (isSome (dc_Workers d)) [] (dc_Profiles d) orelse
  validateLimits d orelse
  validateServicesBlock (dc_Executor d) (dc_Services d) orelse
  validateDeploy (dc_Deploy d) orelse
  optional validateSummarize (dc_Summarize d).

(** [filepath.Dir] *)
Definition Dir (path : string) : string :=
  let fix upTo (b : bytes) : bytes := match b with c :: t => if Ascii.eqb c "/" then b else upTo t | [] => [] end in
  Clean (of_bytes (rev (upTo (rev (to_bytes path))))).

(** [filepath.Join] of a directory and a name that is not empty *)
Definition Join (dir name : string) : string := Clean (dir +:+ "/" +:+ name).

(** src/internal/config/daemon.go:724-731 [LoadDaemon] *)
Definition resolveTLS (path : string) (w : Workers) : Workers :=
  if String.eqb (wk_TLSCert w) "" then w
  else
    let abs p := if IsAbs p then p else if String.eqb p "" then Dir path else Join (Dir path) p in
    w <| wk_TLSCert ::= abs |> <| wk_TLSKey ::= abs |>.

(** src/internal/config/daemon.go:711-736 [LoadDaemon] What [kdl.Unmarshal] decoded. The validation fills in what an adaptive block leaves out. *)
Definition LoadDaemon (path : string) (d : DaemonConf) : string + DaemonConf :=
  let fail (err : string) : string + DaemonConf := inl ("config: " +:+ path +:+ ": " +:+ err) in
  match resolveExecutors d with
  | inl err => fail err
  | inr d =>
      let d := applyDefaults d <| dc_Workers ::= option_map (resolveTLS path) |> in
      match validateDaemon d with
      | Some err => fail err
      | None => inr (d <| dc_Targets ::= map (fun tc => tc <| tc_Target ::= fun t => t <| t_Adaptive ::= option_map adaptiveDefaults |> |>) |>)
      end
  end.

(** src/internal/config/daemon.go:1366-1398 [SecretEnvNames] *)
Definition SecretEnvNames (d : DaemonConf) : list string :=
  let nonempty s := if String.eqb s "" then [] else [s] in
  let g := dc_GitHub d in
  match dc_Signing d with Some _ => ["SSH_AUTH_SOCK"] | None => [] end ++
  match dc_FailureReview d with Some f => [fr_TokenEnv f] | None => [] end ++
  match dc_Workers d with Some w => [wk_TokenEnv w] | None => [] end ++
  match dc_Gerrit d with Some ge => [ge_UsernameEnv ge; ge_TokenEnv ge] | None => [] end ++
  (if String.eqb (gh_Repo g) "" || isSome (gh_Auth g) then [] else nonempty (gh_TokenEnv g)) ++
  match gh_PullRequests g with Some p => nonempty (pr_WebhookSecretEnv p) | None => [] end ++
  (if String.eqb (sk_Channel (dc_Slack d)) "" then []
   else nonempty (sk_AppTokenEnv (dc_Slack d)) ++ nonempty (sk_BotTokenEnv (dc_Slack d))) ++
  match dc_Summarize d with Some s => nonempty (su_TokenEnv s) | None => [] end.

(** src/internal/config/workers.go:130-144 [Worker] *)
Record Worker := mkWorker {
  wo_ShutdownTimeout : Z;
  wo_Scheduler : string;
  wo_Name : string;
  wo_TokenEnv : string;
  wo_Labels : list string;
  wo_CPUs : string;
  wo_Memory : string;
  wo_MaxExecutions : Z;
  wo_UrgentReserve : Z;
  wo_Executors : list Executor;
  wo_Executor : Executor;
  wo_Profiles : list Executor;
  wo_Services : Services;
}.

#[local] Instance Worker_eta : Eta Worker := fun w => mkWorker (wo_ShutdownTimeout w) (wo_Scheduler w) (wo_Name w) (wo_TokenEnv w)
  (wo_Labels w) (wo_CPUs w) (wo_Memory w) (wo_MaxExecutions w) (wo_UrgentReserve w) (wo_Executors w) (wo_Executor w) (wo_Profiles w)
  (wo_Services w).

(** What [Daemon{Executors: l}] is. *)
Definition emptyDaemon (l : list Executor) : DaemonConf :=
  mkDaemonConf None None None false "" 0 "" ("", "") "" [] 0 0 None "" (mkHistory "" 0 0) (mkDashboard "" "")
    (mkGitHub None "" "" "" None "" 0 None None) None (mkSlack "" "" "" []) (mkOTLP "" false) (mkServices [] 0 "") [] l zeroExecutor []
    "" 0 0 None None None.

(** src/internal/config/workers.go:206-217 [LoadWorker] *)
Fixpoint workerProfiles (seen : list string) (l : list Executor) : option string :=
  match l with
  | [] => None
  | p :: l =>
      if String.eqb (xc_Kind p) "remote" || bool_decide (xc_Name p ∈ seen) then Some "worker profiles must be unique local/container executors"
      else validateExecutor p ("worker executor " +:+ xc_Name p) orelse workerProfiles (xc_Name p :: seen) l
  end.

(** src/internal/config/workers.go:170-194 [LoadWorker] [loopbackURL] is whether the URL's host name reads as a loopback address. *)
Definition validateWorker (loopbackURL : string -> bool) (w : Worker) : option string :=
  match url_Parse (wo_Scheduler w) with
  | None => Some "worker: scheduler must be an HTTP(S) base URL"
  | Some u => first_error [
      (String.eqb (u_Host u) "" || u_User u || negb (String.eqb (u_RawQuery u) "") || negb (String.eqb (u_Fragment u) "")
        || negb (String.eqb (u_Path u) "") && negb (String.eqb (u_Path u) "/")
        || negb (String.eqb (u_Scheme u) "https") && negb (String.eqb (u_Scheme u) "http"), "worker: scheduler must be an HTTP(S) base URL");
      (String.eqb (u_Scheme u) "http" && negb (loopbackURL (wo_Scheduler w)), "worker: remote scheduler requires HTTPS")]
  end orelse
  first_error [
    (String.eqb (wo_TokenEnv w) "" || badVariable (wo_TokenEnv w), "worker: invalid token-env");
    (String.eqb (wo_Name w) "" || (128 <? String.length (wo_Name w))%nat || containsAny ["/"%char; "\"%char; nul] (wo_Name w), "worker: invalid name");
    ((wo_MaxExecutions w <? 1) || (4096 <? wo_MaxExecutions w) || (wo_UrgentReserve w <? 0) || (wo_MaxExecutions w <=? wo_UrgentReserve w),
      "worker: invalid execution capacity or urgent reserve");
    (String.eqb (wo_CPUs w) "" || String.eqb (wo_Memory w) "", "worker: cpus and memory capacity are required")] orelse
  resourceError (ResourceValues (wo_CPUs w) (wo_Memory w)).

(** src/internal/config/workers.go:219-235 [LoadWorker] *)
Definition workerServices (s : Services) : string + Services :=
  match se_Allow s with
  | [] => inr s
  | ["container"] =>
      let s := s <| se_Runtime ::= fun x => orStr x "docker" |> in
      if negb (String.eqb (se_Runtime s) "docker") && negb (String.eqb (se_Runtime s) "podman") then inl "worker: services require docker or podman"
      else
        let s := s <| se_MaxInstances ::= fun x => orZ x 8 |> in
        if se_MaxInstances s <? 1 then inl "worker: max-instances must be positive" else inr s
  | _ => inl "worker: only container services are supported"
  end.

(** src/internal/config/workers.go:146-237 [LoadWorker] What was decoded; [hostname] is the machine's name, or an error. *)
Definition LoadWorker (loopbackURL : string -> bool) (hostname : string + string) (w : Worker) : string + Worker :=
  let w := w <| wo_ShutdownTimeout ::= fun x => orZ x (5 * minute) |> in
  match first_error [((wo_ShutdownTimeout w <? 0) || (24 * hour <? wo_ShutdownTimeout w), "worker: shutdown-timeout must be positive and at most 24h")],
        (if String.eqb (wo_Name w) "" then hostname else inr (wo_Name w)) with
  | Some err, _ => inl err
  | None, inl err => inl err
  | None, inr name =>
      let w := w <| wo_Name := name |> <| wo_TokenEnv ::= fun x => orStr x "GAUNTLET_WORKER_TOKEN" |> in
      match validateWorker loopbackURL w, resolveExecutors (emptyDaemon (wo_Executors w)) with
      | Some err, _ => inl err
      | None, inl err => inl err
      | None, inr d =>
          let ex := (applyExecutorDefaults (dc_Executor d)) <| xc_Kind ::= fun x => orStr x "local" |> in
          let profiles := map applyExecutorDefaults (dc_Profiles d) in
          match validateExecutor ex "worker executor" orelse workerProfiles [] profiles, workerServices (wo_Services w) with
          | Some err, _ => inl err
          | None, inl err => inl err
          | None, inr s => inr (w <| wo_Executor := ex |> <| wo_Profiles := profiles |> <| wo_Services := s |>)
          end
      end
  end.
End Validate.
