(* ===== verification/DaemonConfigSpec.v ===== *)
(** What a daemon configuration that loads guarantees (src/internal/config/daemon.go):
    distinct names and bounded limits, deploy sources without a cycle, mounts that
    shadow none of the executor's own directories; and what the loader lets through
    although its checks mean to refuse it. *)
From stdpp Require Import base list gmap strings.
From S2P Require Import Prelude GoString Core Daemon Spec DaemonConfig.
From Stdlib Require Import Ascii Lia.

Open Scope string_scope.
Open Scope list_scope.
Open Scope Z_scope.

(** ** Passes over names *)

(** A pass that carries the names it has seen accepts only lists of distinct names. *)
Lemma seen_pass {A} (name : A -> string) (f : list string -> list A -> option string) :
  (forall seen x l, f seen (x :: l) = None -> name x ∉ seen /\ f (name x :: seen) l = None) ->
  forall l seen, f seen l = None -> NoDup (name <$> l) /\ forall x, x ∈ l -> name x ∉ seen.
Proof.
  intros Hf. induction l as [|x l IH]; intros seen H; [split; [constructor|by intros ? ?%elem_of_nil]|].
  destruct (Hf _ _ _ H) as [Hx Hl]. destruct (IH _ Hl) as [Hnd Hs]. split.
  - cbn [fmap list_fmap]. apply NoDup_cons. split; [|done]. intros (y & E & Hy)%list_elem_of_fmap.
    apply (Hs y Hy). rewrite <- E. apply list_elem_of_here.
  - intros y [->|Hy]%elem_of_cons; [done|]. intros Hin. apply (Hs y Hy). by apply list_elem_of_further.
Qed.

Ltac seen_case := match goal with H : bool_decide (_ ∈ _) = false |- _ => apply bool_decide_eq_false in H end.

Lemma environmentNames_None seen l : environmentNames seen l = None ->
  NoDup (en_Name <$> l) /\ forall e, e ∈ l -> en_Name e <> "" /\ contains "/" (en_Name e) = false.
Proof.
  intros H. split.
  - eapply (seen_pass en_Name environmentNames), H. clear. intros seen x l H. cbn [environmentNames] in H. noerr. by seen_case.
  - revert seen H. induction l as [|e l IH]; intros seen H; [by intros ? ?%elem_of_nil|]. cbn [environmentNames] in H.
    apply orelse_None in H as [H Hr]. noerr. intros x [->|Hx]%elem_of_cons; [|by eapply IH]. split; [by apply String.eqb_neq|done].
Qed.

Lemma environmentNodes_None q seen l : environmentNodes q seen l = None -> NoDup l.
Proof.
  intros H. rewrite <- (list_fmap_id l). eapply (seen_pass id (environmentNodes q)), H. clear. intros seen x l H.
  cbn [environmentNodes] in H. noerr. by seen_case.
Qed.

Lemma validateTargets_at before l : validateTargets before l = None ->
  forall i tc, l !! i = Some tc -> validateTargets (before ++ take i l) (tc :: drop (S i) l) = None.
Proof.
  revert before. induction l as [|x l IH]; intros before H i tc Hi; [done|]. destruct i as [|i].
  - injection Hi as <-. cbn [take drop]. by rewrite app_nil_r.
  - simpl in Hi. cbn [validateTargets] in H. rewrite !orelse_None in H. destruct H as (_ & _ & _ & _ & _ & _ & H).
    pose proof (IH _ H i tc Hi) as Hd. cbn [take drop]. by rewrite <- app_assoc in Hd.
Qed.

(** A mode and its own limits; the limits of the other modes are unset. *)
Definition mode_ok (t : Target) : Prop :=
  (t_Mode t = "" \/ t_Mode t = "serial") /\ t_MaxBatch t = 0 /\ t_Window t = 0 /\ t_OnBatchRed t = "" \/
  t_Mode t = "batch" /\ 1 <= t_MaxBatch t <= 64 /\ t_Window t = 0 /\ (t_OnBatchRed t = "serial" \/ t_OnBatchRed t = "bisect") \/
  t_Mode t = "speculate" /\ 1 <= t_Window t <= 32 /\ t_MaxBatch t = 0 /\ t_OnBatchRed t = "".

(** One target that was let through. *)
Record target_ok (t : Target) : Prop := {
  to_name : t_Name t <> "" /\ contains "/" (t_Name t) = false;
  to_branch : t_Branch t <> "";
  to_landing : t_Landing t = "squash" \/ t_Landing t = "merge";
  to_mode : mode_ok t;
  to_adaptive : forall a, t_Adaptive t = Some a -> (t_Mode t = "batch" \/ t_Mode t = "speculate") /\
    1 <= ad_Start a <= Z.max (t_MaxBatch t) (t_Window t) /\ 1 <= ad_Successes a <= 1000;
}.

(** An adaptive block as validation leaves it. *)
Definition settled (t : Target) : Target := t <| t_Adaptive ::= option_map adaptiveDefaults |>.

Lemma neither (b c : string) s : negb (String.eqb s b) && negb (String.eqb s c) = false -> s = b \/ s = c.
Proof. destruct (String.eqb_spec s b), (String.eqb_spec s c); auto; done. Qed.

Lemma either (b c : string) s : negb (String.eqb s b || String.eqb s c) = false -> s = b \/ s = c.
Proof. destruct (String.eqb_spec s b), (String.eqb_spec s c); auto; done. Qed.

Ltac bounds := repeat match goal with
  | H : _ || _ = false |- _ => apply orb_false_iff in H as [? ?]
  | H : (_ =? _)%Z = false |- _ => apply Z.eqb_neq in H
  | H : negb (_ =? _)%Z = false |- _ => apply negb_false_iff, Z.eqb_eq in H
  | H : (_ <? _)%Z = false |- _ => apply Z.ltb_ge in H
  | H : (_ <=? _)%Z = false |- _ => apply Z.leb_gt in H
  | H : String.eqb _ _ = false |- _ => apply String.eqb_neq in H
  | H : negb (String.eqb _ _) = false |- _ => apply negb_false_iff, String.eqb_eq in H
  end.

Lemma validateMode_None q t : validateMode q t = None -> mode_ok t.
Proof.
  unfold validateMode, mode_ok. cbv zeta.
  destruct (String.eqb_spec (t_Mode t) "") as [E1|_], (String.eqb_spec (t_Mode t) "serial") as [E2|_]; cbn [orb]; [congruence|..|];
    [| |destruct (String.eqb_spec (t_Mode t) "batch") as [E3|_]; [|destruct (String.eqb_spec (t_Mode t) "speculate") as [E4|_]; [|done]]];
    intros H; noerr; repeat match goal with H : negb (_ || _) = false |- _ => apply either in H end; bounds; auto 10.
Qed.

Lemma validateAdaptive_None q t a : validateAdaptive q t = None -> t_Adaptive t = Some a ->
  (t_Mode t = "batch" \/ t_Mode t = "speculate") /\
  1 <= ad_Start (adaptiveDefaults a) <= (if String.eqb (t_Mode t) "batch" then t_MaxBatch t else t_Window t) /\
  1 <= ad_Successes (adaptiveDefaults a) <= 1000.
Proof.
  unfold validateAdaptive. intros H E. rewrite E in H. cbv zeta in H. noerr.
  match goal with H : negb _ && negb _ = false |- _ => apply neither in H end. bounds. split_and!; auto; lia.
Qed.

Lemma validateTargets_head before tc l : validateTargets before (tc :: l) = None ->
  target_ok (settled (tc_Target tc)) /\ t_Name (tc_Target tc) ∉ ((fun tc => t_Name (tc_Target tc)) <$> before) /\
  t_Branch (tc_Target tc) ∉ ((fun tc => t_Branch (tc_Target tc)) <$> before).
Proof.
  cbn [validateTargets]. rewrite !orelse_None. intros (He & Hb & _ & _ & Hm & Ha & _). noerr.
  apply validateMode_None in Hm.
  match goal with H : negb _ && negb _ = false |- _ => apply neither in H as Hl end.
  match goal with H : existsb _ before = false |- _ => apply existsb_name in H as Hn end. bounds. split_and!; try done.
  - split; try done. cbn [t_Adaptive settled]. intros a.
    change (t_Adaptive (settled ?t)) with (option_map adaptiveDefaults (t_Adaptive t)).
    destruct (t_Adaptive (tc_Target tc)) as [a'|] eqn:E; [|done]. injection 1 as <-.
    destruct (validateAdaptive_None _ _ _ Ha E) as (Hmode & Hs & Hc). change (t_Mode (settled ?t)) with (t_Mode t).
    change (t_MaxBatch (settled ?t)) with (t_MaxBatch t). change (t_Window (settled ?t)) with (t_Window t).
    split_and!; try done; try lia. case_match; lia.
  - intros Hin. apply list_elem_of_fmap in Hin as (o & E & Ho). 
    destruct (find_index _ before) as [[i owner]|] eqn:Ei; [done|].
    pose proof (find_index_None _ _ o Ei Ho) as Hf. cbv beta in Hf. rewrite E, String.eqb_refl in Hf. done.
Qed.

Lemma validateTargets_None l : validateTargets [] l = None ->
  NoDup ((fun tc => t_Name (tc_Target tc)) <$> l) /\ NoDup ((fun tc => t_Branch (tc_Target tc)) <$> l) /\
  forall tc, tc ∈ l -> target_ok (settled (tc_Target tc)).
Proof.
  intros H. split_and!.
  - apply (NoDup_pass _ []); [constructor|]. intros i tc Hi.
    by apply (validateTargets_head _ tc (drop (S i) l)), validateTargets_at.
  - apply (NoDup_pass _ []); [constructor|]. intros i tc Hi.
    by apply (validateTargets_head _ tc (drop (S i) l)), validateTargets_at.
  - intros tc [i Hi]%list_elem_of_lookup_1. by eapply validateTargets_head, validateTargets_at.
Qed.

(** ** Deploy environments *)

(** What a name of an environment may be: one component of a ref. *)
Record environment_ok (envs : list Environment) (e : Environment) : Prop := {
  eo_name : en_Name e <> "" /\ contains "/" (en_Name e) = false;
  eo_source : (ds_Branch (en_Source e) <> "" /\ ds_Env (en_Source e) = "") \/
    (ds_Branch (en_Source e) = "" /\ ds_Env (en_Source e) ∈ (en_Name <$> envs));
  eo_branch : String.prefix "refs/" (ds_Branch (en_Source e)) = false;
  eo_parallel : 1 <= en_MaxParallel e <= 64;
  eo_move : en_OnDesiredMove e = "finish" \/ en_OnDesiredMove e = "cancel";
  eo_nodes : NoDup (en_Nodes e);
}.

Lemma validateEnvironment_None envs e :
  en_Name e <> "" /\ contains "/" (en_Name e) = false ->
  validateEnvironment (en_Name <$> envs) e = None -> environment_ok envs e.
Proof.
  unfold validateEnvironment. cbv zeta. rewrite orelse_None. intros Hname [He Hn%environmentNodes_None]. noerr.
  match goal with H : negb (_ || _) = false |- _ => apply either in H end. bounds. split; try done.
  destruct (String.eqb_spec (ds_Branch (en_Source e)) ""), (String.eqb_spec (ds_Env (en_Source e)) ""); cbn [andb negb] in *; try done.
  - right. match goal with H : negb (bool_decide _) = false |- _ => apply negb_false_iff, bool_decide_eq_true in H end. done.
  - by left.
Qed.

(** The sources of a list of environments contain no cycle. *)
Definition sources_acyclic (envs : list Environment) : Prop :=
  exists depth : string -> nat, forall e, e ∈ envs -> ds_Env (en_Source e) <> "" -> (depth (ds_Env (en_Source e)) < depth (en_Name e))%nat.

Lemma sourcesOf_elem e n : n ∈ sourcesOf e <-> n = ds_Env (en_Source e) /\ n <> "".
Proof.
  unfold sourcesOf. destruct (String.eqb_spec (ds_Env (en_Source e)) "") as [->|Hne]; rewrite ?list_elem_of_singleton.
  - split; [by intros ?%elem_of_nil|]. by intros [-> ?].
  - split; [intros ->; done|]. by intros [? _].
Qed.

(** On environments of distinct names whose sources are declared, the cycle check of the
    deploy block accepts exactly the configurations without a cycle of sources, an
    environment that is its own source included. *)
Lemma validateDeployEnvAcyclic_exact envs :
  NoDup (en_Name <$> envs) -> (forall e, e ∈ envs -> ds_Env (en_Source e) <> "" -> ds_Env (en_Source e) ∈ (en_Name <$> envs)) ->
  validateDeployEnvAcyclic envs = None <-> sources_acyclic envs.
Proof.
  intros Hnd Hdecl. unfold validateDeployEnvAcyclic. rewrite (acyclic_edges en_Name sourcesOf _ envs Hnd).
  - split; intros (depth & H); exists depth.
    + intros e He Hs. apply (H e); [done|]. by apply sourcesOf_elem.
    + intros e dep He [-> Hs]%sourcesOf_elem. auto.
  - intros e dep He [-> Hs]%sourcesOf_elem. auto.
Qed.

Lemma validateDeploy_None envs : validateDeploy envs = None ->
  NoDup (en_Name <$> envs) /\ (forall e, e ∈ envs -> environment_ok envs e) /\ sources_acyclic envs.
Proof.
  destruct envs as [|e0 l] eqn:El; rewrite <- El.
  { intros _. subst. split_and!; [constructor|by intros ? ?%elem_of_nil|]. exists (fun _ => O). by intros ? ?%elem_of_nil. }
  intros H. replace (validateDeploy envs) with (environmentNames [] envs orelse
    first_some (validateEnvironment (en_Name <$> envs)) envs orelse validateDeployEnvAcyclic envs) in H by (by subst).
  clear El e0 l. rewrite !orelse_None, first_some_None in H. destruct H as (Hn & He & Ha).
  apply environmentNames_None in Hn as [Hnd Hnames].
  assert (forall e, e ∈ envs -> environment_ok envs e) as Hok by (intros e Hin; apply validateEnvironment_None; auto).
  split_and!; [done|done|]. apply validateDeployEnvAcyclic_exact; [done| |done].
  intros e Hin Hs. destruct (eo_source _ _ (Hok e Hin)) as [[_ ?]|[_ ?]]; done.
Qed.

(** ** Mounts *)

Definition slash : ascii := "/"%char.

Lemma split_bytes_free sep acc b : sep ∉ acc -> Forall (fun c => sep ∉ c) (split_bytes sep acc b).
Proof.
  revert acc. induction b as [|a b IH]; intros acc Ha; cbn [split_bytes].
  - constructor; [|constructor]. by intros H%list_elem_of_In%in_rev%list_elem_of_In.
  - destruct (Ascii.eqb_spec a sep) as [->|Hne].
    + constructor; [|apply IH, not_elem_of_nil]. by intros H%list_elem_of_In%in_rev%list_elem_of_In.
    + apply IH. apply not_elem_of_cons. by split.
Qed.

Lemma components_named path : Forall (fun c => slash ∉ c /\ c <> []) (components path).
Proof.
  unfold components. apply Forall_rev.
  assert (forall l st, Forall (fun c => slash ∉ c) l -> Forall (fun c => slash ∉ c /\ c <> []) st ->
    Forall (fun c => slash ∉ c /\ c <> []) (fold_left (cleanStep (IsAbs path)) l st)) as H.
  { induction l as [|x l IH]; intros st Hl Hst; [done|]. apply Forall_cons in Hl as [Hx Hl]. cbn [fold_left]. apply IH; [done|].
    unfold cleanStep. destruct (bool_decide (x = [] \/ x = ["."%char])) eqn:Ex; [done|]. apply bool_decide_eq_false in Ex.
    assert (slash ∉ x /\ x <> []) by (split; [done|by intros ->; apply Ex; left]).
    repeat case_match; subst; rewrite ?Forall_cons in *; by intuition. }
  apply H; [|constructor]. by apply split_bytes_free, not_elem_of_nil.
Qed.

Lemma components_free path : Forall (fun c => slash ∉ c) (components path).
Proof. eapply Forall_impl; [apply components_named|]. by intros c []. Qed.

(** A path of at least one component starts another and a slash exactly when its components do. *)
Lemma joinSlash_prefix r p : r <> [] -> Forall (fun c => slash ∉ c) r -> Forall (fun c => slash ∉ c) p ->
  (exists rest, joinSlash p = joinSlash r ++ slash :: rest) <-> exists q, q <> [] /\ p = r ++ q.
Proof.
  intros Hr Fr. revert p. induction r as [|x r IH]; intros p Fp; [done|]. clear Hr.
  apply Forall_cons in Fr as [Hx Fr]. destruct p as [|y p]; [split; [intros (rest & [_ E]%eq_sym%app_eq_nil); discriminate E|intros (q & _ & E); discriminate E]|].
  apply Forall_cons in Fp as [Hy Fp].
  assert (forall s t, cut_at slash (x ++ slash :: s) = cut_at slash (y ++ slash :: t) -> x = y /\ s = t) as Hcut.
  { intros s t E. rewrite !cut_at_app in E by done. by injection E as -> ->. }
  destruct p as [|y2 p].
  { split.
    - intros (rest & E). exfalso. apply Hy. change (joinSlash [y]) with y in E. rewrite E.
      apply elem_of_app. right. apply list_elem_of_here.
    - intros (q & Hq & E). injection E as -> E. by destruct r, q. }
  change (joinSlash (y :: y2 :: p)) with (y ++ slash :: joinSlash (y2 :: p)). destruct r as [|x2 r].
  - change (joinSlash [x]) with x. split.
    + intros (rest & E). destruct (Hcut rest (joinSlash (y2 :: p))) as [-> _]; [by rewrite E|]. by exists (y2 :: p).
    + intros (q & Hq & E). injection E as -> E. by eexists.
  - change (joinSlash (x :: x2 :: r)) with (x ++ slash :: joinSlash (x2 :: r)).
    assert (forall rest, (x ++ slash :: joinSlash (x2 :: r)) ++ slash :: rest = x ++ slash :: (joinSlash (x2 :: r) ++ slash :: rest)) as Ea
      by (intros rest; by rewrite <- app_assoc).
    specialize (IH ltac:(done) Fr (y2 :: p) Fp). split.
    + intros (rest & E). rewrite Ea in E. destruct (Hcut (joinSlash (x2 :: r) ++ slash :: rest) (joinSlash (y2 :: p))) as [-> E']; [by rewrite E|].
      destruct (proj1 IH) as (q & Hq & ->); [by exists rest|]. by exists q.
    + intros (q & Hq & E). injection E as -> -> ->. destruct (proj2 IH) as (rest & E'); [by exists q|]. exists rest. by rewrite Ea, E'.
Qed.

Lemma joinSlash_inj r p : r <> [] -> p <> [] -> Forall (fun c => slash ∉ c) r -> Forall (fun c => slash ∉ c) p ->
  joinSlash r = joinSlash p -> r = p.
Proof.
  intros Hr. revert p. induction r as [|x r IH]; intros p Hp Fr Fp E; [done|]. destruct p as [|y p]; [done|].
  apply Forall_cons in Fr as [Hx Fr]. apply Forall_cons in Fp as [Hy Fp].
  destruct r as [|x2 r], p as [|y2 p].
  - cbn in E. by subst.
  - exfalso. apply Hx. change (x = y ++ slash :: joinSlash (y2 :: p)) in E. rewrite E. apply elem_of_app. right. apply list_elem_of_here.
  - exfalso. apply Hy. change (x ++ slash :: joinSlash (x2 :: r) = y) in E. rewrite <- E. apply elem_of_app. right. apply list_elem_of_here.
  - change (x ++ slash :: joinSlash (x2 :: r) = y ++ slash :: joinSlash (y2 :: p)) in E.
    assert (cut_at slash (x ++ slash :: joinSlash (x2 :: r)) = cut_at slash (y ++ slash :: joinSlash (y2 :: p))) as Ec by (by rewrite E).
    rewrite !cut_at_app in Ec by done. injection Ec as -> Ec. f_equal. by apply IH.
Qed.

Lemma to_bytes_inj s t : to_bytes s = to_bytes t -> s = t.
Proof. intros E. rewrite <- (of_to_bytes s), E. apply of_to_bytes. Qed.

Lemma prefix_bytes p s : String.prefix p s = true <-> exists r, to_bytes s = to_bytes p ++ r.
Proof.
  revert s. induction p as [|a p IH]; intros s; [split; [by exists (to_bytes s)|by destruct s]|].
  destruct s as [|b s]; [split; [done|by intros (r & ?)]|]. cbn [String.prefix]. destruct (ascii_dec a b) as [->|Hne].
  - rewrite IH. split; intros (r & E); exists r; [|by injection E]. change (b :: to_bytes s = b :: to_bytes p ++ r). by rewrite E.
  - split; [done|]. intros (r & E). by injection E as ? ?.
Qed.

Lemma Clean_abs path : IsAbs path = true -> to_bytes (Clean path) = slash :: joinSlash (components path).
Proof. intros H. unfold Clean. rewrite H. cbn [app]. apply to_of_bytes. Qed.

(** The guard of the reserved directories sees through every spelling of a path: below a
    directory other than the root, a mount is refused exactly when the components of the
    directory begin those of the mount. *)
Lemma pathAtOrUnder_exact path dir : IsAbs path = true -> IsAbs dir = true -> components dir <> [] ->
  pathAtOrUnder path dir = true <-> components dir `prefix_of` components path.
Proof.
  intros Hp Hd Hne. unfold pathAtOrUnder.
  assert (String.eqb dir "" = false) as -> by (by destruct dir).
  rewrite orb_true_iff, String.eqb_eq, prefix_bytes, to_bytes_app.
  pose proof (components_free path) as Fp. pose proof (components_free dir) as Fd.
  rewrite !Clean_abs by done. split.
  - intros [E|(r & E)].
    + assert (joinSlash (components path) = joinSlash (components dir)) as Ej
        by (apply (f_equal to_bytes) in E; rewrite !Clean_abs in E by done; by injection E).
      destruct (decide (components path = [])) as [Ep|Hp']; [|by rewrite (joinSlash_inj _ _ Hne Hp' Fd Fp (eq_sym Ej))].
      exfalso. rewrite Ep in Ej. destruct (components dir) as [|y m] eqn:Ed; [done|]. pose proof (components_named dir) as Fn. rewrite Ed in Fn. apply Forall_cons in Fn as [[_ Hy] _].
      by destruct m, y.
    + injection E as E. rewrite <- app_assoc in E. destruct (proj1 (joinSlash_prefix _ _ Hne Fd Fp)) as (q & _ & ->); [by exists r|].
      by apply prefix_app_r.
  - intros (q & Eq). destruct q as [|x q].
    + left. apply to_bytes_inj. rewrite !Clean_abs by done. by rewrite Eq, app_nil_r.
    + right. destruct (proj2 (joinSlash_prefix _ _ Hne Fd Fp)) as (rest & E); [by exists (x :: q)|].
      exists rest. rewrite E. by rewrite <- app_assoc.
Qed.

(** What a mount that was let through keeps clear of. *)
Record mount_ok (e : Executor) (m : Mount) : Prop := {
  mt_abs : IsAbs (mo_Host m) = true /\ IsAbs (mo_Path m) = true;
  mt_colon : contains ":" (mo_Host m) = false /\ contains ":" (mo_Path m) = false;
  mt_result : ~ components reservedResultDir `prefix_of` components (mo_Path m);
  mt_git : ~ components reservedGitDir `prefix_of` components (mo_Path m);
  mt_workdir : IsAbs (xc_Workdir e) = true -> components (xc_Workdir e) <> [] ->
    ~ components (xc_Workdir e) `prefix_of` components (mo_Path m);
}.

Lemma validateMount_None e label m : validateMount e label m = None -> mount_ok e m.
Proof.
  unfold validateMount. cbv zeta. intros H. noerr.
  repeat match goal with H : negb (IsAbs _) = false |- _ => apply negb_false_iff in H end.
  assert (forall dir, pathAtOrUnder (mo_Path m) dir = false -> IsAbs dir = true -> components dir <> [] ->
    ~ components dir `prefix_of` components (mo_Path m)) as Hu.
  { intros dir Hu Ha Hne Hp. apply (pathAtOrUnder_exact (mo_Path m) dir) in Hp; [congruence|done..]. }
  split; try done; auto; (apply Hu; [done|done|by vm_compute]).
Qed.

(** ** The whole configuration *)

(** An executor profile that was let through. *)
Record executor_ok (e : Executor) : Prop := {
  ex_kind : xc_Kind e = "local" \/ xc_Kind e = "container" \/ xc_Kind e = "remote";
  ex_image : xc_Kind e = "container" -> xc_Image e <> "";
  ex_env : forall ev, ev ∈ xc_Env e -> ev_Name ev <> "" /\ contains "=" (ev_Name ev) = false /\ String.prefix "GAUNTLET_" (ev_Name ev) = false;
  ex_mounts : forall m, m ∈ xc_Mounts e -> xc_Kind e = "container" /\ mount_ok e m;
  ex_labels : xc_Kind e <> "remote" -> xc_Labels e = [] /\ xc_SupportsImages e = false;
}.

Lemma none_listed {A} (l : list A) : (0 <? length l)%nat = false -> l = [].
Proof. by destruct l. Qed.

Lemma validateKind_None e label : validateKind e label = None ->
  (xc_Kind e = "local" \/ xc_Kind e = "container" \/ xc_Kind e = "remote") /\
  (xc_Kind e = "container" -> xc_Image e <> "") /\ (xc_Kind e <> "container" -> xc_Mounts e = []) /\
  (xc_Kind e <> "remote" -> xc_Labels e = [] /\ xc_SupportsImages e = false).
Proof.
  unfold validateKind. cbv zeta. rewrite orelse_None. intros [Hl H]. apply first_error_None, Forall_cons in Hl as [Hl _].
  cbn [fst] in Hl. destruct (String.eqb_spec (xc_Kind e) "remote") as [E|Hr].
  { noerr. bounds. split_and!; auto using none_listed; intros Hne; congruence || by destruct Hne. }
  cbn [negb andb] in Hl. assert (xc_Labels e = [] /\ xc_SupportsImages e = false) by (bounds; auto using none_listed).
  destruct (String.eqb_spec (xc_Kind e) "local") as [E|Hlo].
  { noerr. split_and!; auto using none_listed. intros E2. rewrite E in E2. discriminate E2. }
  destruct (String.eqb_spec (xc_Kind e) "container") as [E|Hc]; [|done]. noerr. bounds. split_and!; auto. by intros [].
Qed.

Lemma validateExecutor_None e label : validateExecutor e label = None -> executor_ok e.
Proof.
  unfold validateExecutor. rewrite !orelse_None, !first_some_None. intros (Hk & Henv & _ & _ & _ & Hm).
  apply validateKind_None in Hk as (Hk & Hi & Hm' & Hl). split; try done.
  - intros ev Hev. specialize (Henv ev Hev). noerr. bounds. done.
  - intros m Hin. split; [|by eapply validateMount_None, Hm].
    destruct (decide (xc_Kind e = "container")) as [|Hne]; [done|]. rewrite Hm' in Hin by done. by apply elem_of_nil in Hin.
Qed.

Lemma validateProfiles_None ws seen l : validateProfiles ws seen l = None ->
  NoDup (xc_Name <$> l) /\ forall p, p ∈ l -> executor_ok p /\ (xc_Kind p = "remote" -> ws = true).
Proof.
  intros H. split.
  - eapply (seen_pass xc_Name (validateProfiles ws)), H. clear. intros seen x l H. cbn [validateProfiles] in H.
    rewrite !orelse_None in H. destruct H as (H & _ & Hr). noerr. by seen_case.
  - revert seen H. induction l as [|e l IH]; intros seen H; [by intros ? ?%elem_of_nil|]. cbn [validateProfiles] in H.
    rewrite !orelse_None in H. destruct H as (H & Hx & Hr). noerr. intros p [->|Hp]%elem_of_cons; [|by eapply IH].
    split; [by eapply validateExecutor_None|]. intros E. by destruct ws; rewrite E in *.
Qed.

(** A pool of workers that was let through. *)
Record pool_ok (p : WorkerPool) : Prop := {
  po_slots : 1 <= wp_Slots p <= 4096 /\ 0 <= wp_UrgentReserve p < wp_Slots p;
  po_nodes : 1 <= wp_MaxNodes p <= 10000 /\ 0 <= wp_WarmNodes p <= wp_MaxNodes p;
  po_idle : second <= wp_IdleTimeout p <= 24 * hour /\ second <= wp_StartupTimeout p <= 24 * hour;
}.

Lemma validatePool_None p : validatePool p = None -> pool_ok p.
Proof.
  unfold validatePool. cbv zeta. rewrite !orelse_None. intros (_ & _ & _ & _ & H). noerr. bounds. split; lia.
Qed.

Lemma wrap_None what e : wrap what e = None <-> e = None.
Proof. by destruct e. Qed.

Lemma validatePools_None seen l : validatePools seen l = None -> NoDup (wp_Name <$> l) /\ forall p, p ∈ l -> pool_ok p.
Proof.
  intros H. split.
  - eapply (seen_pass wp_Name validatePools), H. clear. intros seen x l H. cbn [validatePools] in H.
    destruct (bool_decide (wp_Name x ∈ seen)) eqn:E; [done|]. apply orelse_None in H as [_ H]. by apply bool_decide_eq_false in E.
  - revert seen H. induction l as [|e l IH]; intros seen H; [by intros ? ?%elem_of_nil|]. cbn [validatePools] in H.
    destruct (bool_decide _); [done|]. apply orelse_None in H as [Hp%wrap_None%validatePool_None H].
    intros p [->|Hin]%elem_of_cons; [done|by eapply IH].
Qed.

Record config_valid (d : DaemonConf) : Prop := {
  cv_targets : dc_Targets d <> [] /\ NoDup ((fun tc => t_Name (tc_Target tc)) <$> dc_Targets d) /\
    NoDup ((fun tc => t_Branch (tc_Target tc)) <$> dc_Targets d) /\ forall tc, tc ∈ dc_Targets d -> target_ok (tc_Target tc);
  cv_deploy : NoDup (en_Name <$> dc_Deploy d) /\ (forall e, e ∈ dc_Deploy d -> environment_ok (dc_Deploy d) e) /\ sources_acyclic (dc_Deploy d);
  cv_executor : executor_ok (dc_Executor d);
  cv_profiles : NoDup (xc_Name <$> dc_Profiles d) /\
    forall p, p ∈ dc_Profiles d -> executor_ok p /\ (xc_Kind p = "remote" -> isSome (dc_Workers d) = true);
  cv_pools : forall w, dc_Workers d = Some w -> NoDup (wp_Name <$> wk_Pools w) /\ forall p, p ∈ wk_Pools w -> pool_ok p;
  cv_breaker : forall c, dc_CircuitBreaker d = Some c ->
    2 <= cb_Threshold c <= 100 /\ 0 < cb_Window c /\ 0 < cb_Backoff c <= cb_MaxBackoff c /\ cb_MaxBackoff c <= hour;
  cv_limits : 0 <= dc_MaxExecutions d /\ 0 <= dc_UrgentReserve d /\
    (0 < dc_UrgentReserve d -> dc_UrgentReserve d < dc_MaxExecutions d);
  cv_times : 0 < dc_Poll d /\ 0 < dc_SourceRetention d /\ 0 < dc_LogRetention d;
  cv_receipts : forall rn, gh_ReceiptNotes (dc_GitHub d) = Some rn ->
    1 <= rn_MaxBytes rn <= 2 ^ 20 /\ String.prefix "refs/heads/" (rn_Ref rn) = false;
}.

Section Load.
Context (url_Parse : string -> option URL) (SplitHost : string -> option string) (isLoopback : string -> bool)
  (templateError : string -> option string) (EqualFold : string -> string -> bool) (ToLower : string -> string)
  (durationString : Z -> string).

#[local] Abbreviation validateDaemon := (validateDaemon url_Parse SplitHost isLoopback templateError EqualFold ToLower durationString).
#[local] Abbreviation LoadDaemon := (LoadDaemon url_Parse SplitHost isLoopback templateError EqualFold ToLower durationString).

(** The targets of a configuration as validation leaves them. *)
Definition settleTargets (d : DaemonConf) : DaemonConf :=
  d <| dc_Targets ::= map (fun tc => tc <| tc_Target ::= settled |>) |>.

Lemma validateDaemon_None d : validateDaemon d = None -> config_valid (settleTargets d).
Proof.
  unfold validateDaemon, DaemonConfig.validateDaemon. rewrite !orelse_None.
  intros (Hw & _ & Hc & _ & _ & Hb & Ht & _ & _ & _ & Hr & _ & He & Hp & Hl & _ & Hd & _).
  apply validateTargets_None in Ht as (Hn & Hbr & Hok). apply validateProfiles_None in Hp.
  assert (forall (f : Target -> string), (forall t, f (settled t) = f t) ->
    (fun tc => f (tc_Target tc)) <$> dc_Targets (settleTargets d) = (fun tc => f (tc_Target tc)) <$> dc_Targets d) as Hf.
  { intros f E. change (dc_Targets (settleTargets d)) with (map (fun tc => tc <| tc_Target ::= settled |>) (dc_Targets d)).
    rewrite <- list_fmap_compose. apply list_fmap_ext. intros _ tc _. apply E. }
  split; try done.
  - rewrite (Hf t_Name), (Hf t_Branch) by done. split_and!; [|done|done|].
    + unfold validateBasics in Hb. rewrite !orelse_None in Hb. destruct Hb as (_ & _ & Hb). noerr.
      unfold settleTargets. by destruct d, dc_Targets.
    + intros tc (tc' & <- & Hin%list_elem_of_In)%list_elem_of_In%in_map_iff. by apply (Hok tc').
  - by apply validateDeploy_None.
  - by eapply validateExecutor_None.
  - intros w Ew. change (dc_Workers d = Some w) in Ew. rewrite Ew in Hw. cbn [optional] in Hw. apply orelse_None in Hw as [Hw _].
    unfold validateWorkers in Hw. rewrite !orelse_None in Hw. by eapply validatePools_None, Hw.
  - intros c Ec. change (dc_CircuitBreaker d = Some c) in Ec. rewrite Ec in Hc. cbn [optional] in Hc. unfold validateCircuit in Hc.
    noerr. bounds. lia.
  - unfold validateLimits in Hl. cbv zeta in Hl. noerr. bounds. split_and!; [done..|]. intros Hpos. change (0 < dc_UrgentReserve d) in Hpos.
    change (dc_UrgentReserve d < dc_MaxExecutions d). apply Z.ltb_lt in Hpos.
    match goal with H : (0 <? _) && _ = false |- _ => rewrite Hpos in H; cbn [andb] in H end. bounds. lia.
  - unfold validateBasics in Hb. rewrite !orelse_None in Hb. destruct Hb as (Hb & _). noerr. bounds. done.
  - intros rn Ern. change (gh_ReceiptNotes (dc_GitHub d) = Some rn) in Ern. unfold validateReceiptNotes in Hr. rewrite Ern in Hr.
    cbv zeta in Hr. noerr. bounds. split; [lia|done].
Qed.

(** The names no profile may take: they mean the default executor. *)
Definition profile_named (e : Executor) : Prop :=
  xc_Name e <> "" /\ xc_Name e <> "local" /\ xc_Name e <> "container" /\ xc_Name e <> "default".

Lemma resolveBlocks_named l seen d d' : resolveBlocks l seen d = inr d' ->
  (forall p, p ∈ dc_Profiles d -> profile_named p) -> forall p, p ∈ dc_Profiles d' -> profile_named p.
Proof.
  revert seen d. induction l as [|e l IH]; intros seen d H Hd; cbn [resolveBlocks] in H; [by injection H as <-|].
  destruct (resolveExecutor e seen d) as [err|[seen1 d1]] eqn:E; [done|]. apply (IH _ _ H). clear IH H l.
  unfold resolveExecutor in E. cbv zeta in E. destruct (String.eqb (xc_Kind e) "").
  - repeat (case_match; try discriminate E); by injection E as <- <-.
  - destruct (first_error _) eqn:Ee in E; [done|]. injection E as <- <-. noerr. bounds.
    intros p Hp. change (p ∈ dc_Profiles d ++ [e <| xc_Name := xc_Arg e |> <| xc_Arg := "" |>]) in Hp.
    apply elem_of_app in Hp as [Hp| ->%list_elem_of_singleton]; [by apply Hd|]. done.
Qed.

(** What the loader puts together when it succeeds. *)
Lemma LoadDaemon_inr path d d' : LoadDaemon path d = inr d' -> exists d1,
  resolveExecutors d = inr d1 /\ let d2 := applyDefaults d1 <| dc_Workers ::= option_map (resolveTLS path) |> in
  validateDaemon d2 = None /\ d' = settleTargets d2.
Proof.
  unfold LoadDaemon, DaemonConfig.LoadDaemon. cbv zeta. destruct (resolveExecutors d) as [err|d1]; [done|].
  destruct (DaemonConfig.validateDaemon _ _ _ _ _ _ _ _) eqn:E; [done|]. injection 1 as <-. exists d1. done.
Qed.


(** The same configuration with other settings for workers. *)
Definition withWorkers (w : Workers) (d : DaemonConf) : DaemonConf := d <| dc_Workers := Some w |>.

Lemma resolveBlocks_withWorkers w l seen d d' : resolveBlocks l seen d = inr d' ->
  dc_Workers d' = dc_Workers d /\ resolveBlocks l seen (withWorkers w d) = inr (withWorkers w d').
Proof.
  revert seen d. induction l as [|e l IH]; intros seen d H; cbn [resolveBlocks] in *; [by injection H as <-|].
  destruct (resolveExecutor e seen d) as [err|[seen1 d1]] eqn:E; [done|]. destruct (IH _ _ H) as [Hw Hl]. clear IH H.
  assert (dc_Workers d1 = dc_Workers d /\ resolveExecutor e seen (withWorkers w d) = inr (seen1, withWorkers w d1)) as [Hd ->];
    [|by rewrite Hw].
  clear Hl Hw. unfold resolveExecutor in *. cbv zeta in *. change (dc_MaxExecutions (withWorkers w d)) with (dc_MaxExecutions d).
  repeat (case_match; try discriminate E); by injection E as <- <-.
Qed.

(** A path of the configuration, from the directory of its file. *)
Definition fromDir (path p : string) : string := if IsAbs p then p else if String.eqb p "" then Dir path else Join (Dir path) p.

Lemma fromDir_named path p : fromDir path p <> "".
Proof.
  unfold fromDir. destruct (IsAbs p) eqn:Ea; [by intros ->|].
  destruct (String.eqb p ""); unfold Join, Dir, Clean; cbv zeta; by destruct (_ ++ _).
Qed.

Lemma resolveTLS_eq path w : wk_TLSCert w <> "" ->
  resolveTLS path w = w <| wk_TLSCert := fromDir path (wk_TLSCert w) |> <| wk_TLSKey := fromDir path (wk_TLSKey w) |>.
Proof. intros Hc%String.eqb_neq. unfold resolveTLS. by rewrite Hc. Qed.

Lemma validateWorkers_key w k : wk_TLSKey w <> "" -> k <> "" ->
  validateWorkers SplitHost isLoopback (w <| wk_TLSKey := k |>) = validateWorkers SplitHost isLoopback w.
Proof.
  intros Hw%String.eqb_neq Hk%String.eqb_neq. unfold validateWorkers. cbv zeta.
  change (wk_TLSKey (w <| wk_TLSKey := k |>)) with k. rewrite Hw, Hk. reflexivity.
Qed.

Lemma validateDaemon_workers d w1 w2 : dc_Workers d = Some w1 -> wk_Pools w2 = wk_Pools w1 ->
  validateWorkers SplitHost isLoopback w2 = validateWorkers SplitHost isLoopback w1 ->
  validateDaemon (withWorkers w2 d) = validateDaemon d.
Proof.
  intros E Ep Ev. unfold validateDaemon, DaemonConfig.validateDaemon. rewrite E.
  change (dc_Workers (withWorkers w2 d)) with (Some w2). cbn [optional isSome]. rewrite Ev, Ep. reflexivity.
Qed.

(** Leaving the key out changes only the key of what the loader resolves. *)
Lemma resolved_without_key path d w : dc_Workers d = Some w -> wk_TLSCert w <> "" ->
  applyDefaults (withWorkers (w <| wk_TLSKey := "" |>) d) <| dc_Workers ::= option_map (resolveTLS path) |> =
  withWorkers (resolveTLS path (workersDefaults w) <| wk_TLSKey := Dir path |>)
    (applyDefaults d <| dc_Workers ::= option_map (resolveTLS path) |>).
Proof.
  intros Hw Hc. rewrite (resolveTLS_eq path (workersDefaults w)) by exact Hc.
  transitivity (withWorkers (resolveTLS path (workersDefaults (w <| wk_TLSKey := "" |>)))
    (applyDefaults d <| dc_Workers ::= option_map (resolveTLS path) |>)); [reflexivity|].
  rewrite resolveTLS_eq by exact Hc. reflexivity.
Qed.

(** A certificate without its key is not refused, although the check that both are
    set together means to refuse it: whatever loads with a certificate and a key also
    loads with the key left out, because the loader has by then turned the missing key
    into a path, and the key it hands on is the directory of the configuration file. *)
Theorem half_tls_accepted path d d' w :
  dc_Workers d = Some w -> wk_TLSCert w <> "" -> LoadDaemon path d = inr d' ->
  exists d'' w'', LoadDaemon path (withWorkers (w <| wk_TLSKey := "" |>) d) = inr d'' /\
    dc_Workers d'' = Some w'' /\ wk_TLSCert w'' <> "" /\ wk_TLSKey w'' = Dir path.
Proof.
  intros Hw Hc (d1 & Hr & Hv & ->)%LoadDaemon_inr. cbv zeta in Hv.
  apply (resolveBlocks_withWorkers (w <| wk_TLSKey := "" |>)) in Hr as [Hd Hr]. rewrite Hw in Hd.
  pose proof (resolved_without_key path d1 w Hd Hc) as E. set (d2 := applyDefaults d1 <| dc_Workers ::= _ |>) in *.
  set (w1 := resolveTLS path (workersDefaults w)) in *.
  assert (dc_Workers d2 = Some w1) as E2.
  { change (dc_Workers d2) with (option_map (resolveTLS path) (option_map workersDefaults (dc_Workers d1))). by rewrite Hd. }
  assert (wk_TLSCert w1 <> "" /\ wk_TLSKey w1 <> "") as [H1 H2].
  { unfold w1. rewrite resolveTLS_eq by exact Hc. split; apply fromDir_named. }
  clearbody d2 w1.
  exists (settleTargets (withWorkers (w1 <| wk_TLSKey := Dir path |>) d2)), (w1 <| wk_TLSKey := Dir path |>).
  split; [|split; [reflexivity|split; [exact H1|reflexivity]]].
  unfold LoadDaemon, DaemonConfig.LoadDaemon. cbv zeta. unfold resolveExecutors. 
  change (dc_Executors (withWorkers ?x d)) with (dc_Executors d). rewrite Hr, E.
  rewrite (validateDaemon_workers d2 w1) by (first [exact E2|reflexivity|apply validateWorkers_key; [exact H2|apply (fromDir_named path "")]]).
  rewrite Hv. reflexivity.
Qed.
End Load.

(** ** A configuration that loads *)

Definition demoTarget (name branch mode : string) (adaptive : option AdaptiveScheduling) : TargetConf :=
  mkTargetConf (mkTarget name branch "" mode 0 0 "" adaptive) [] "".

Definition demoPool : WorkerPool :=
  mkWorkerPool "builders" "command" ["scale"] "" ["ci"] [] [] [] "4" "8g" 4 1 0 3 0 0 f64_zero f64_zero.

Definition demoWorkers : Workers := mkWorkers 0 [demoPool] "0.0.0.0:8081" "" "tls/cert.pem" "tls/key.pem" 0 0.

Definition demoDaemon : DaemonConf :=
  emptyDaemon [
    mkExecutor [] false "container" "" "" "" "golang:1" "" [mkCache "go" "/root/go"] [mkMount "/srv/data" "/data" true]
      [mkEnvVar "CI" "1"] [] "2g" "1.5" 4;
    mkExecutor ["linux"] true "ci" "remote" "" "" "" "" [] [] [] [] "4g" "2" 0]
  <| dc_Workers := Some demoWorkers |> <| dc_Remote := "git@example.org:acme/widgets.git" |> <| dc_Committer := ("Bot", "bot@example.org") |>
  <| dc_Targets := [demoTarget "main" "main" "batch" (Some (mkAdaptive 2 0)); demoTarget "release" "release/v2" "speculate" None] |>
  <| dc_Deploy := [mkEnvironment "prod" (mkDeploySource "" "dev") true ["a"; "b"] 2 ""; mkEnvironment "dev" (mkDeploySource "main" "") true [] 0 "cancel"] |>.

#[local] Abbreviation demoLoad :=
  (LoadDaemon (fun _ => None) (fun _ => Some "0.0.0.0") (fun _ => false) (fun _ => None) String.eqb id (fun _ => "") "/etc/gauntlet/daemon.kdl").

Definition demoLoaded : DaemonConf := match demoLoad demoDaemon with inr d => d | inl _ => demoDaemon end.

Lemma demo_loads : demoLoad demoDaemon = inr demoLoaded.
Proof. vm_compute. reflexivity. Qed.

Definition demoShadow : Executor :=
  mkExecutor [] false "container" "" "" "" "golang:1" "" [] [mkMount "/srv" "/data/../workspace//x/." true] [] [] "" "" 0.

(** What is refused: a cycle of sources, a mount below the work directory in another
    spelling, a profile named as the default. *)
Example demo_refusals :
  map (fun d => match demoLoad d with inl err => err | inr _ => "" end) [
    demoDaemon <| dc_Deploy := [mkEnvironment "a" (mkDeploySource "" "b") true [] 0 ""; mkEnvironment "b" (mkDeploySource "" "a") true [] 0 ""] |>;
    demoDaemon <| dc_Executors ::= fun l => demoShadow :: drop 1 l |>;
    demoDaemon <| dc_Executors := [mkExecutor [] false "default" "container" "" "" "golang:1" "" [] [] [] [] "" "" 0] |>]
  = map (fun e => "config: /etc/gauntlet/daemon.kdl: " +:+ e) [
    "deploy: environment " +:+ quoted "b" +:+ ": source env " +:+ quoted "a" +:+ ": dependency cycle";
    "executor: mount " +:+ quoted "/srv" +:+ ": path " +:+ quoted "/data/../workspace//x/." +:+ " is at or under executor workdir " +:+ quoted "/workspace";
    "executor: profile may not be named " +:+ quoted "default" +:+ " — gauntlet doctor prints the default (kind-less) profile under that label; pick another name"].
Proof. vm_compute. reflexivity. Qed.


Lemma half_tls_accepted_witness : exists d'' w'', demoLoad (withWorkers (demoWorkers <| wk_TLSKey := "" |>) demoDaemon) = inr d'' /\
  dc_Workers d'' = Some w'' /\ wk_TLSCert w'' <> "" /\ wk_TLSKey w'' = "/etc/gauntlet".
Proof.
  exact (half_tls_accepted (fun _ => None) (fun _ => Some "0.0.0.0") (fun _ => false) (fun _ => None) String.eqb id (fun _ => "")
    "/etc/gauntlet/daemon.kdl" demoDaemon demoLoaded demoWorkers eq_refl ltac:(discriminate) demo_loads).
Defined.
