(* ===== verification/Hooks.v ===== *)
(** The runner of post-land hooks (src/internal/hooks/hooks.go, built by
    src/cmd/gauntlet/hooks.go): landings wait in a bounded queue, one goroutine runs
    their hooks, and the policy of a target says what happens to landings that wait, or
    run, when a newer one arrives.

    The goroutine of [Run], the monitor of a cancellable landing, and the calls of [Emit]
    and [CancelCurrent] are steps that interleave; a step is what happens between two
    points where another goroutine may run. What the file system, git and the executor
    answer is part of the step's label. [hr_trace], [hr_released] and [hr_leases] are no
    fields of the source: what the runner did, newest first, the source leases it gave
    back, and how many it took. Log lines, spans and the removal of the export directory
    are left out. *)
From S2P Require Import Prelude GoString Core Daemon DaemonConfig.

Open Scope string_scope.
Open Scope list_scope.
Open Scope Z_scope.

(** ** Data *)

(** src/internal/hooks/hooks.go:28-31 [Hook] *)
Record PostHook := mkPostHook { ph_Name : string; ph_Command : list string }.

(** src/internal/hooks/hooks.go:45-45 [PolicyQueue] *)
Definition PolicyQueue : string := "queue".

(** src/internal/hooks/hooks.go:53-53 [PolicyCoalesce] *)
Definition PolicyCoalesce : string := "coalesce".

(** src/internal/hooks/hooks.go:66-66 [PolicyCancel] *)
Definition PolicyCancel : string := "cancel".

(** src/internal/hooks/hooks.go:70-143 [Params] [hp_Emit] is whether an event fan-out is set; the executor, git
    and the slots answer through the labels of the steps. *)
Record Params := mkParams {
  hp_Hooks : gmap string (list PostHook);
  hp_Policies : gmap string string;
  hp_HistoryMtimes : bool;
  hp_Emit : bool;
  hp_LogDir : string;
}.

(** src/internal/hooks/hooks.go:150-150 [queueBuffer] *)
Definition queueBuffer : Z := 64.

(** src/internal/hooks/hooks.go:154-157 [queuedLanding] The lease is none for a recovered landing. *)
Record queuedLanding := mkQueued { ql_Event : Event; ql_lease : option nat }.

(** src/internal/hooks/hooks.go:251-259 [LiveState] Without the length of the queue. *)
Record LiveState := mkLive {
  lv_Target : string;
  lv_Running : bool;
  lv_CurrentHook : string;
  lv_HookIndex : Z;
  lv_HookCount : Z;
  lv_StartedAt : Z;
}.

#[export] Instance LiveState_eta : Eta LiveState := fun l => mkLive (lv_Target l) (lv_Running l) (lv_CurrentHook l)
  (lv_HookIndex l) (lv_HookCount l) (lv_StartedAt l).

Definition zeroLive : LiveState := mkLive "" false "" 0 0 0.

(** The goroutine that watches the inbox of a landing. *)
Inductive Monitor := mWatch | mGot (newer : Event) | mSent | mDone.

(** Where [runLanding] is. *)
Inductive Stage :=
  | stEnter
  | stMkdir
  | stExport
  | stMtimes
  | stNext (i : nat)
  | stAcquire (i : nat)
  | stRun (i : nat)
  | stFinish (i : nat) (res : CheckResult)
  | stStop.

(** The landing whose hooks run: its inbox and monitor when it can be cancelled,
    whether its own context is, and what the monitor has sent. *)
Record Current := mkCurrent {
  cu_ql : queuedLanding;
  cu_stage : Stage;
  cu_cancelled : bool;
  cu_monitor : option (nat * Monitor);
  cu_supersede : option Event;
}.

#[export] Instance Current_eta : Eta Current := fun c => mkCurrent (cu_ql c) (cu_stage c) (cu_cancelled c) (cu_monitor c) (cu_supersede c).

(** Where [Run] is: between batches, or in a batch with what it still has to run. *)
Inductive RunPC :=
  | rIdle
  | rBatch (drainRun : bool) (todo : list queuedLanding)
  | rLanding (drainRun : bool) (todo : list queuedLanding) (c : Current)
  | rDone.

(** A call that has yet to look for a monitor, or to send to the inbox it found. *)
Inductive Thread := tWake (ev : Event) | tSend (inbox : nat) (ev : Event).

(** What the runner did. *)
Inductive Act :=
  | aAccept (q : queuedLanding)
  | aCoalesce (q newer : queuedLanding)
  | aStart (q : queuedLanding)
  | aNotify (ev : Event)
  | aExec (job : CheckJob) (logPath : string)
  | aEnd (q : queuedLanding)
  | aAbandon (l : list queuedLanding).

(** src/internal/hooks/hooks.go:171-232 [Runner] *)
Record Runner := mkRunner {
  hr_queue : list queuedLanding;
  hr_stopped : bool;
  hr_monitors : gmap string nat;
  hr_inboxes : gmap nat Event;
  hr_next : nat;
  hr_live : LiveState;
  hr_threads : gmap nat Thread;
  hr_run : RunPC;
  hr_drain : bool;
  hr_drained : bool;
  hr_ctx : bool;
  hr_leases : nat;
  hr_released : gset nat;
  hr_trace : list Act;
}.

#[export] Instance Runner_eta : Eta Runner := fun r => mkRunner (hr_queue r) (hr_stopped r) (hr_monitors r) (hr_inboxes r)
  (hr_next r) (hr_live r) (hr_threads r) (hr_run r) (hr_drain r) (hr_drained r) (hr_ctx r) (hr_leases r) (hr_released r) (hr_trace r).

(** src/internal/hooks/hooks.go:263-286 [New] *)
Definition New : Runner := mkRunner [] false ∅ ∅ 0 zeroLive ∅ rIdle false false false 0 ∅ [].

(** ** Formatting *)

(** src/internal/hooks/hooks.go:702-708 [shortSHA] *)
Definition shortSHA8 (sha : string) : string := String.substring 0 8 sha.

(** src/internal/hooks/hooks.go:696-698 [landingRef] *)
Definition landingRef (ev : Event) : string := c_Topic (e_Candidate ev) +:+ "@" +:+ shortSHA8 (c_SHA (e_Candidate ev)).

Section Runner.
Context (p : Params).

(** src/internal/hooks/hooks.go:730-735 [hookLogPath] *)
Definition hookLogPath (runID : string) (seq : Z) (name : string) : string :=
  if String.eqb (hp_LogDir p) "" then ""
  else Clean (hp_LogDir p +:+ "/" +:+ runID +:+ "/" +:+ "hook-" +:+ pretty seq +:+ "-" +:+ SanitizeName name +:+ ".log.zst").

(** src/internal/hooks/hooks.go:293-298 [policy] *)
Definition policy (target : string) : string :=
  match hp_Policies p !! target with
  | Some pl => if String.eqb pl "" then PolicyQueue else pl
  | None => PolicyQueue
  end.

Definition collapses (target : string) : bool := String.eqb (policy target) PolicyCoalesce || String.eqb (policy target) PolicyCancel.

(** ** Sources *)

Definition releaseOne (q : queuedLanding) (r : Runner) : Runner :=
  match ql_lease q with Some l => r <| hr_released ::= ({[l]} ∪.) |> | None => r end.

(** src/internal/hooks/hooks.go:159-163 [releaseSources] *)
Definition releaseSources (l : list queuedLanding) (r : Runner) : Runner := fold_left (fun r q => releaseOne q r) l r.

Definition act (a : Act) (r : Runner) : Runner := r <| hr_trace ::= cons a |>.

Definition notify (ev : Event) (r : Runner) : Runner := if hp_Emit p then act (aNotify ev) r else r.

(** ** Emit and CancelCurrent *)

(** src/internal/hooks/hooks.go:302-352 [Emit] Up to the end of its first critical section; [err] is that of retaining the source. *)
Definition Emit (tid : nat) (ev : Event) (err : bool) (r : Runner) : option Runner :=
  match e_Kind ev, e_Record ev with
  | EventLanded, Some rec =>
      if negb (rr_Recovered rec) && err then Some r
      else
        let '(lease, r) := if rr_Recovered rec then (None, r) else (Some (hr_leases r), r <| hr_leases ::= S |>) in
        let q := mkQueued ev lease in
        if hr_stopped r then Some (releaseSources [q] r)
        else if Z.of_nat (length (hr_queue r)) <? queueBuffer then
          match hr_threads r !! tid with
          | Some _ => None
          | None => Some (act (aAccept q) (r <| hr_queue ::= fun l => l ++ [q] |> <| hr_threads ::= <[tid := tWake ev]> |>))
          end
        else Some (releaseSources [q] r)
  | _, _ => Some r
  end.

(** src/internal/hooks/hooks.go:342-345 [Emit] The second critical section. *)
Definition wake (tid : nat) (r : Runner) : option Runner :=
  match hr_threads r !! tid with
  | Some (tWake ev) =>
      match hr_monitors r !! e_Target ev with
      | Some inbox => Some (r <| hr_threads ::= <[tid := tSend inbox ev]> |>)
      | None => Some (r <| hr_threads ::= delete tid |>)
      end
  | _ => None
  end.

(** src/internal/hooks/hooks.go:345-350 [Emit] An inbox takes one event. *)
Definition send (tid : nat) (r : Runner) : option Runner :=
  match hr_threads r !! tid with
  | Some (tSend inbox ev) =>
      let r := r <| hr_threads ::= delete tid |> in
      match hr_inboxes r !! inbox with
      | Some _ => Some r
      | None => Some (r <| hr_inboxes ::= <[inbox := ev]> |>)
      end
  | _ => None
  end.

(** src/internal/hooks/hooks.go:611-615 [CancelCurrent] *)
Definition operatorEvent (target : string) : Event :=
  event EventQueued 0 target (zeroCandidate <| c_Topic := "operator-cancel" |> <| c_SHA := "manual" |>) "" <| e_Detail := "cancelled by operator" |>.

(** src/internal/hooks/hooks.go:603-622 [CancelCurrent] Up to the send; it answers false at once when there is no monitor. *)
Definition CancelCurrent (tid : nat) (target : string) (r : Runner) : option Runner :=
  match hr_monitors r !! target, hr_threads r !! tid with
  | None, _ => Some r
  | Some inbox, None => Some (r <| hr_threads ::= <[tid := tSend inbox (operatorEvent target)]> |>)
  | Some _, Some _ => None
  end.

(** ** Batches *)

(** src/internal/hooks/hooks.go:480-486 [applyBacklogPolicy] The index of the newest landing of each collapsing target. *)
Fixpoint lastIdx (i : nat) (l : list queuedLanding) (m : gmap string nat) : gmap string nat :=
  match l with
  | [] => m
  | q :: l => let t := e_Target (ql_Event q) in lastIdx (S i) l (if collapses t then <[t := i]> m else m)
  end.

(** src/internal/hooks/hooks.go:488-502 [applyBacklogPolicy] From index [i] on: what is kept, and what is dropped with what supersedes it. *)
Fixpoint keepNewest (batch : list queuedLanding) (last : gmap string nat) (i : nat) (l : list queuedLanding)
  : list queuedLanding * list (queuedLanding * queuedLanding) :=
  match l with
  | [] => ([], [])
  | q :: l =>
      let t := e_Target (ql_Event q) in
      let '(out, dropped) := keepNewest batch last (S i) l in
      if collapses t && negb (i =? (last !!! t else O))%nat then (out, (q, default q (batch !! (last !!! t else O))) :: dropped)
      else (q :: out, dropped)
  end.

(** src/internal/hooks/hooks.go:492-498 [applyBacklogPolicy] *)
Definition coalesce (dropped : list (queuedLanding * queuedLanding)) (r : Runner) : Runner :=
  fold_left (fun r d => releaseSources [d.1] (act (aCoalesce d.1 d.2) r)) dropped r.

(** src/internal/hooks/hooks.go:479-503 [applyBacklogPolicy] *)
Definition applyBacklogPolicy (batch : list queuedLanding) (r : Runner) : list queuedLanding * Runner :=
  let '(out, dropped) := keepNewest batch (lastIdx 0 batch ∅) 0 batch in (out, coalesce dropped r).

(** src/internal/hooks/hooks.go:454-464 [drainAvailable] *)
Definition drainAvailable (r : Runner) : list queuedLanding * Runner := (hr_queue r, r <| hr_queue := [] |>).

(** src/internal/hooks/hooks.go:424-430 [executeBatch] *)
Definition startBatch (drainRun : bool) (r : Runner) : Runner :=
  let '(batch, r) := drainAvailable r in
  let '(todo, r) := applyBacklogPolicy batch r in
  r <| hr_run := rBatch drainRun todo |>.

(** src/internal/hooks/hooks.go:385-393 [Run] *)
Definition stopRun (r : Runner) : Runner :=
  let '(remaining, r) := drainAvailable (r <| hr_stopped := true |>) in
  act (aAbandon remaining) (releaseSources remaining r) <| hr_run := rDone |>.

(** What the select of [Run] received. *)
Inductive Choice := chCtx | chDrain | chQueue.

(** src/internal/hooks/hooks.go:384-415 [Run] *)
Definition RunSelect (c : Choice) (r : Runner) : option Runner :=
  match hr_run r, c with
  | rIdle, chCtx => if hr_ctx r then Some (stopRun r) else None
  | rIdle, chDrain => if hr_drain r then Some (startBatch true r) else None
  | rIdle, chQueue => match hr_queue r with [] => None | _ => Some (startBatch false r) end
  | _, _ => None
  end.

(** src/internal/hooks/hooks.go:407-412 [Run] The end of a batch, whatever of it is left. *)
Definition endBatch (drainRun : bool) (left : list queuedLanding) (r : Runner) : Runner :=
  let r := match left with [] => r | _ => act (aAbandon left) r end in
  let r := releaseSources left r in
  if drainRun then stopRun (r <| hr_drained := true |>) else r <| hr_run := rIdle |>.

(** src/internal/hooks/hooks.go:532-551 [execLanding] *)
Definition execLanding (drainRun : bool) (todo : list queuedLanding) (q : queuedLanding) (r : Runner) : Runner :=
  let t := e_Target (ql_Event q) in
  let r := act (aStart q) r in
  if String.eqb (policy t) PolicyCancel then
    r <| hr_monitors ::= <[t := hr_next r]> |> <| hr_next ::= S |>
      <| hr_run := rLanding drainRun todo (mkCurrent q stEnter false (Some (hr_next r, mWatch)) None) |>
  else r <| hr_run := rLanding drainRun todo (mkCurrent q stEnter false None None) |>.

(** src/internal/hooks/hooks.go:424-436 [executeBatch] *)
Definition nextLanding (r : Runner) : option Runner :=
  match hr_run r with
  | rBatch drainRun todo =>
      match todo with
      | [] => Some (endBatch drainRun [] r)
      | q :: todo => if hr_ctx r then Some (endBatch drainRun (q :: todo) r) else Some (execLanding drainRun todo q r)
      end
  | _ => None
  end.

(** ** One landing *)

(** What the step asks for. *)
Inductive Answer := anOk | anErr (err : string) | anResult (res : CheckResult).

(** [ctx.Err() != nil] of the landing's own context *)
Definition cancelled (c : Current) (r : Runner) : bool := hr_ctx r || cu_cancelled c.

Definition hooksOf (q : queuedLanding) : list PostHook := default [] (hp_Hooks p !! e_Target (ql_Event q)).

Definition recordOf (q : queuedLanding) : RunRecord := match e_Record (ql_Event q) with Some rec => rec | None => zeroRunRecord end.

(** src/internal/hooks/hooks.go:667-671 [setLive] *)
Definition setLive (now : Z) (target : string) (hookCount : nat) (r : Runner) : Runner :=
  r <| hr_live := mkLive target true "" 0 (Z.of_nat hookCount) now |>.

(** src/internal/hooks/hooks.go:677-682 [setCurrentHook] *)
Definition setCurrentHook (index : nat) (name : string) (r : Runner) : Runner :=
  r <| hr_live ::= fun l => l <| lv_CurrentHook := name |> <| lv_HookIndex := Z.of_nat index |> |>.

(** src/internal/hooks/hooks.go:687-691 [clearLive] *)
Definition clearLive (r : Runner) : Runner := r <| hr_live := zeroLive |>.

(** src/internal/hooks/hooks.go:830-847 [runLanding] *)
Definition hookJob (q : queuedLanding) (h : PostHook) : CheckJob :=
  let rec := recordOf q in
  zeroCheckJob <| j_RunID := rr_RunID rec |> <| j_Target := e_Target (ql_Event q) |> <| j_Name := "hook:" +:+ ph_Name h |>
    <| j_Command := ph_Command h |> <| j_BaseSHA := rr_BaseOID rec |> <| j_MergeSHA := rr_MergeSHA rec |>
    <| j_Candidate := rr_Candidate rec |> <| j_OperatorOwned := true |>.

(** src/internal/hooks/hooks.go:786-797 [runLanding] *)
Definition skippedEvent (now : Z) (q : queuedLanding) : Event :=
  let rec := recordOf q in
  event EventHookSkipped now (e_Target (ql_Event q)) (rr_Candidate rec) (rr_RunID rec)
    <| e_Detail := "recovered landing; hooks not run" |> <| e_HookCount := Z.of_nat (length (hooksOf q)) |>.

(** src/internal/hooks/hooks.go:856-867 [runLanding] *)
Definition startedEvent (now : Z) (q : queuedLanding) (i : nat) (h : PostHook) : Event :=
  let rec := recordOf q in
  event EventHookStarted now (e_Target (ql_Event q)) (rr_Candidate rec) (rr_RunID rec)
    <| e_CheckName := ph_Name h |> <| e_HookIndex := Z.of_nat i |> <| e_HookCount := Z.of_nat (length (hooksOf q)) |>.

(** src/internal/hooks/hooks.go:914-930 [runLanding] *)
Definition finishedEvent (now : Z) (q : queuedLanding) (h : PostHook) (res : CheckResult) (detail : string) : Event :=
  let rec := recordOf q in
  event EventHookFinished now (e_Target (ql_Event q)) (rr_Candidate rec) (rr_RunID rec)
    <| e_CheckName := ph_Name h |> <| e_Check := Some res |> <| e_Detail := detail |>.

(** src/internal/hooks/hooks.go:890-891 [runLanding] *)
Definition slotError (q : queuedLanding) (h : PostHook) (err : string) : CheckResult :=
  zeroCheckResult <| r_Name := "hook:" +:+ ph_Name h |> <| r_Command := ph_Command h |>
    <| r_Err := Some ("waiting for an execution slot: " +:+ err) |>.

(** src/internal/hooks/hooks.go:932-932 [runLanding] *)
Definition stops (res : CheckResult) : bool := bool_decide (r_Status res = CheckFailed) || isSome (r_Err res).

(** src/internal/hooks/hooks.go:765-941 [runLanding] One step; the last leaves the landing at [stStop]. *)
Definition runLanding (now : Z) (a : Answer) (c : Current) (r : Runner) : option (Current * Runner) :=
  let q := cu_ql c in
  let hs := hooksOf q in
  let at' st := c <| cu_stage := st |> in
  let leave r := Some (at' stStop, clearLive r) in
  match cu_stage c, a with
  | stEnter, anOk =>
      if (length hs =? 0)%nat then Some (at' stStop, r)
      else if rr_Recovered (recordOf q) then Some (at' stStop, notify (skippedEvent now q) r)
      else Some (at' stMkdir, setLive now (e_Target (ql_Event q)) (length hs) r)
  | stMkdir, anOk => Some (at' stExport, r)
  | stMkdir, anErr _ => leave r
  | stExport, anOk => Some (at' (if hp_HistoryMtimes p then stMtimes else stNext 0), r)
  | stExport, anErr _ => leave r
  | stMtimes, anOk => Some (at' (stNext 0), r)
  | stMtimes, anErr _ => leave r
  | stNext i, anOk =>
      match hs !! i with
      | None => leave r
      | Some h =>
          if cancelled c r then leave r
          else Some (at' (stAcquire i), notify (startedEvent now q i h) (setCurrentHook i (ph_Name h) r))
      end
  | stAcquire i, anOk =>
      match hs !! i with
      | None => None
      | Some h => Some (at' (stRun i), act (aExec (hookJob q h) (hookLogPath (rr_RunID (recordOf q)) (Z.of_nat i + 1) (ph_Name h))) r)
      end
  | stAcquire i, anErr err =>
      match hs !! i with
      | None => None
      | Some h => if cancelled c r then Some (at' (stFinish i (slotError q h err)), r) else None
      end
  | stRun i, anResult res => Some (at' (stFinish i res), r)
  | stFinish i res, anOk =>
      match hs !! i with
      | None => None
      | Some h =>
          let '(detail, sup) := match r_Err res, cu_supersede c with
                                | Some _, Some newer => ("superseded by " +:+ landingRef newer, None)
                                | _, sup => ("", sup)
                                end in
          let r := notify (finishedEvent now q h res detail) r in
          let c := c <| cu_supersede := sup |> in
          if stops res then Some (c <| cu_stage := stStop |>, clearLive r) else Some (c <| cu_stage := stNext (S i) |>, r)
      end
  | _, _ => None
  end.

(** src/internal/hooks/hooks.go:556-566 [execLanding] One step of the goroutine that watches the inbox. *)
Definition monitorStep (c : Current) (r : Runner) : option (Current * Runner) :=
  match cu_monitor c with
  | Some (inbox, mWatch) =>
      match hr_inboxes r !! inbox with
      | Some newer => Some (c <| cu_monitor := Some (inbox, mGot newer) |>, r <| hr_inboxes ::= delete inbox |>)
      | None => None
      end
  | Some (inbox, mGot newer) => Some (c <| cu_supersede := Some newer |> <| cu_monitor := Some (inbox, mSent) |>, r)
  | Some (inbox, mSent) => Some (c <| cu_cancelled := true |> <| cu_monitor := Some (inbox, mDone) |>, r)
  | _ => None
  end.

(** src/internal/hooks/hooks.go:568-571 [execLanding] The monitor is told to stop, and waited for, then the landing is over. *)
Definition endLanding (drainRun : bool) (todo : list queuedLanding) (c : Current) (r : Runner) : option Runner :=
  match cu_stage c, cu_monitor c with
  | stStop, Some (_, (mWatch | mDone)) | stStop, None =>
      let r := match cu_monitor c with Some _ => r <| hr_monitors ::= delete (e_Target (ql_Event (cu_ql c))) |> | None => r end in
      Some (releaseSources [cu_ql c] (act (aEnd (cu_ql c)) r) <| hr_run := rBatch drainRun todo |>)
  | _, _ => None
  end.

(** ** The whole runner *)

Inductive Label :=
  | lEmit (tid : nat) (ev : Event) (err : bool)
  | lWake (tid : nat)
  | lSend (tid : nat)
  | lCancel (tid : nat) (target : string)
  | lCtx
  | lDrain
  | lSelect (c : Choice)
  | lNext
  | lLanding (now : Z) (a : Answer)
  | lMonitor
  | lEnd.

Definition step (r : Runner) (l : Label) : option Runner :=
  match l with
  | lEmit tid ev err => Emit tid ev err r
  | lWake tid => wake tid r
  | lSend tid => send tid r
  | lCancel tid target => CancelCurrent tid target r
  | lCtx => Some (r <| hr_ctx := true |>)
  | lDrain => Some (r <| hr_drain := true |>)
  | lSelect c => RunSelect c r
  | lNext => nextLanding r
  | lLanding now a =>
      match hr_run r with
      | rLanding dr todo c => match runLanding now a c r with Some (c, r) => Some (r <| hr_run := rLanding dr todo c |>) | None => None end
      | _ => None
      end
  | lMonitor =>
      match hr_run r with
      | rLanding dr todo c => match monitorStep c r with Some (c, r) => Some (r <| hr_run := rLanding dr todo c |>) | None => None end
      | _ => None
      end
  | lEnd => match hr_run r with rLanding dr todo c => endLanding dr todo c r | _ => None end
  end.

Fixpoint steps (r : Runner) (ls : list Label) : option Runner :=
  match ls with
  | [] => Some r
  | l :: ls => match step r l with Some r => steps r ls | None => None end
  end.

(** src/internal/hooks/hooks.go:631-642 [Snapshot] With the length of the queue. *)
Definition Snapshot (target : string) (r : Runner) : LiveState * Z * bool :=
  let live := hr_live r in
  let depth := Z.of_nat (length (hr_queue r)) in
  if negb (String.eqb (lv_Target live) target) || negb (lv_Running live) then (zeroLive <| lv_Target := target |>, depth, false)
  else (live, depth, true).

(** src/internal/hooks/hooks.go:650-660 [SnapshotAll] *)
Definition SnapshotAll (r : Runner) : list (LiveState * Z) :=
  if negb (lv_Running (hr_live r)) then [] else [(hr_live r, Z.of_nat (length (hr_queue r)))].

Inductive reachable : Runner -> Prop :=
  | reach_new : reachable New
  | reach_step r l r' : reachable r -> step r l = Some r' -> reachable r'.
End Runner.

(** src/cmd/gauntlet/hooks.go:27-59 [buildHooksRunner] None when no target has hooks. *)
Definition buildHooksRunner (cfg : DaemonConf) (logDir : string) (emit : bool) : option Params :=
  let add (m : gmap string (list PostHook) * gmap string string) (tc : TargetConf) :=
    match tc_Hooks tc with
    | [] => m
    | l => let t := t_Name (tc_Target tc) in
        (<[t := map (fun h => mkPostHook (hk_Name h) (hk_Command h)) l]> m.1, <[t := tc_HooksPolicy tc]> m.2)
    end in
  let '(hookMap, policyMap) := fold_left add (dc_Targets cfg) (∅, ∅) in
  if (size hookMap =? 0)%nat then None
  else Some (mkParams hookMap policyMap (String.eqb (dc_Mtimes cfg) "history") emit logDir).
