(* ===== verification/HooksSpec.v ===== *)
(** Properties of the hook runner of Hooks.v: the protocol of what it reports and runs,
    what becomes of every landing it accepted, when it gives sources back, and the
    landing that cancels itself. *)
From stdpp Require Import base list gmap strings.
From S2P Require Import Prelude GoString Core DaemonConfig Hooks.
From Stdlib Require Import Lia.

Open Scope string_scope.
Open Scope list_scope.
Open Scope Z_scope.

Section Spec.
Context (p : Params).
Implicit Types (r : Runner) (q : queuedLanding) (c : Current).

#[local] Abbreviation target q := (e_Target (ql_Event q)).

(** The leases of landings. *)
Definition leases (l : list queuedLanding) : list nat := omap ql_lease l.

Lemma leases_cons q l : leases (q :: l) = option_list (ql_lease q) ++ leases l.
Proof. unfold leases. cbn. by destruct (ql_lease q). Qed.

Lemma leases_app l k : leases (l ++ k) = leases l ++ leases k.
Proof. apply omap_app. Qed.

(** ** The backlog policy *)

Lemma lastIdx_spec t i l m : collapses p t = true ->
  (exists j q, lastIdx p i l m !! t = Some (i + j)%nat /\ l !! j = Some q /\ target q = t /\
     forall k q', l !! k = Some q' -> target q' = t -> (k <= j)%nat) \/
  (lastIdx p i l m !! t = m !! t /\ forall q, q ∈ l -> target q <> t).
Proof.
  intros Ht. revert i m. induction l as [|x l IH]; intros i m; [right; split; [done|by intros ? ?%elem_of_nil]|].
  cbn [lastIdx]. cbv zeta. destruct (IH (S i) (if collapses p (target x) then <[target x := i]> m else m)) as [(j & q & E & Hj & Hq & Hmax)|[E Hnone]].
  - left. exists (S j), q. rewrite E. split_and!; [f_equal; lia|done|done|].
    intros [|k] q' Hk Hq'; [lia|]. specialize (Hmax k q' Hk Hq'). lia.
  - rewrite E. destruct (decide (target x = t)) as [Hx|Hx].
    + left. exists O, x. rewrite Hx, Ht, lookup_insert_eq. split_and!; [f_equal; lia|done|done|].
      intros [|k] q' Hk Hq'; [lia|]. exfalso. apply (Hnone q'); [|done]. by eapply list_elem_of_lookup_2.
    + right. split; [by destruct (collapses p (target x)); rewrite ?lookup_insert_ne|].
      intros q [->|Hq]%elem_of_cons; [done|by apply Hnone].
Qed.

(** What is kept and what is dropped of a batch: a landing is dropped only when a newer
    one of the same target, whose policy collapses its backlog, is kept. *)
Record batch_ok (batch out : list queuedLanding) (dropped : list (queuedLanding * queuedLanding)) : Prop := {
  bo_out : sublist out batch;
  bo_all : forall q, q ∈ batch -> q ∈ out \/ exists newer, (q, newer) ∈ dropped;
  bo_dropped : forall q newer, (q, newer) ∈ dropped -> collapses p (target q) = true /\ target newer = target q /\ newer ∈ out /\
    exists i j, (i < j)%nat /\ batch !! i = Some q /\ batch !! j = Some newer;
  bo_leases : leases batch ≡ₚ leases out ++ leases (map fst dropped);
}.

Lemma keepNewest_spec batch pre l : batch = pre ++ l ->
  let '(out, dropped) := keepNewest p batch (lastIdx p 0 batch ∅) (length pre) l in
  sublist out l /\ (forall q, q ∈ l -> q ∈ out \/ exists newer, (q, newer) ∈ dropped) /\
  (forall q newer, (q, newer) ∈ dropped -> collapses p (target q) = true /\ target newer = target q /\
    exists i j, (i < j)%nat /\ batch !! i = Some q /\ batch !! j = Some newer /\ lastIdx p 0 batch ∅ !! target q = Some j) /\
  (forall j q, (length pre <= j)%nat -> batch !! j = Some q -> lastIdx p 0 batch ∅ !! target q = Some j -> q ∈ out) /\
  leases l ≡ₚ leases out ++ leases (map fst dropped).
Proof.
  revert pre. induction l as [|x l IH]; intros pre E; cbn [keepNewest].
  { split_and!; [constructor|by intros ? ?%elem_of_nil|by intros ? ? ?%elem_of_nil| |done].
    intros j q Hj Hq. apply lookup_lt_Some in Hq. rewrite E, app_nil_r in Hq. lia. }
  cbv zeta. specialize (IH (pre ++ [x])). rewrite <- app_assoc in IH. specialize (IH E).
  replace (length (pre ++ [x])) with (S (length pre)) in IH by (rewrite length_app; simpl; lia).
  destruct (keepNewest _ _ _ (S (length pre)) l) as [out dropped]. destruct IH as (Hs & Ha & Hd & Hk & Hl).
  assert (batch !! length pre = Some x) as Hx by (rewrite E; by apply list_lookup_middle).
  destruct (collapses p (target x)) eqn:Ec; cbn [andb].
  2: { split_and!; [by apply sublist_skip| |done| |].
    - intros q [->|Hq]%elem_of_cons; [left; apply list_elem_of_here|]. destruct (Ha q Hq) as [?|?]; [left; by apply list_elem_of_further|by right].
    - intros j q Hj Hq El. destruct (decide (j = length pre)) as [->|Hne]; [rewrite Hx in Hq; injection Hq as <-; apply list_elem_of_here|].
      apply list_elem_of_further. apply (Hk j); [lia|done|done].
    - rewrite leases_cons, Hl. by rewrite leases_cons, <- app_assoc. }
  destruct (lastIdx_spec (target x) 0 batch ∅ Ec) as [(j & y & El & Hj & Hy & Hmax)|[_ Hnone]].
  2: { exfalso. apply (Hnone x); [|done]. by eapply list_elem_of_lookup_2. }
  rewrite Nat.add_0_l in El. rewrite El. change (default O (Some j)) with j. destruct (Nat.eqb_spec (length pre) j) as [<-|Hne]; cbn [negb].
  - split_and!; [by apply sublist_skip| |done| |].
    + intros q [->|Hq]%elem_of_cons; [left; apply list_elem_of_here|]. destruct (Ha q Hq) as [?|?]; [left; by apply list_elem_of_further|by right].
    + intros j q Hj' Hq Elq. destruct (decide (j = length pre)) as [->|Hne]; [rewrite Hx in Hq; injection Hq as <-; apply list_elem_of_here|].
      apply list_elem_of_further. apply (Hk j); [lia|done|done].
    + rewrite leases_cons, Hl. by rewrite leases_cons, <- app_assoc.
  - rewrite Hj. change (default x (Some y)) with y. split_and!; [by apply sublist_cons| | | |].
    + intros q [->|Hq]%elem_of_cons; [right; exists y; apply list_elem_of_here|].
      destruct (Ha q Hq) as [?|(n & ?)]; [by left|right; exists n; by apply list_elem_of_further].
    + intros q n [[= -> ->]|Hq]%elem_of_cons; [|by apply Hd]. split_and!; [done|done|].
      exists (length pre), j. split_and!; try done. pose proof (Hmax _ _ Hx eq_refl). lia.
    + intros k q Hk' Hq Elq. destruct (decide (k = length pre)) as [->|Hne'].
      * rewrite Hx in Hq. injection Hq as <-. rewrite El in Elq. by injection Elq as ->.
      * apply (Hk k); [lia|done|done].
    + cbn [map fst]. rewrite !leases_cons, Hl. by rewrite !app_assoc, (Permutation_app_comm (option_list (ql_lease x))).
Qed.

Lemma batch_policy batch : let '(out, dropped) := keepNewest p batch (lastIdx p 0 batch ∅) 0 batch in batch_ok batch out dropped.
Proof.
  pose proof (keepNewest_spec batch [] batch eq_refl) as H. cbn [length] in H. destruct (keepNewest _ _ _ 0 batch) as [out dropped].
  destruct H as (Hs & Ha & Hd & Hk & Hl). split; try done.
  intros q n Hin. destruct (Hd q n Hin) as (Hc & Ht & i & j & Hij & Hi & Hj & El). split_and!; try done.
  - apply (Hk j n); [lia|done|]. by rewrite Ht.
  - by exists i, j.
Qed.
(** ** What each step changes *)

Lemma releaseSources_eq l r : releaseSources l r = r <| hr_released ::= (list_to_set (leases l) ∪.) |>.
Proof.
  unfold releaseSources. revert r. induction l as [|q l IH]; intros r; cbn [fold_left].
  - destruct r. cbn. f_equal. set_solver.
  - rewrite IH, leases_cons. unfold releaseOne. destruct (ql_lease q); destruct r; cbn; f_equal; set_solver.
Qed.

Lemma coalesce_eq dropped r : coalesce dropped r =
  r <| hr_released ::= (list_to_set (leases (map fst dropped)) ∪.) |>
    <| hr_trace ::= app (rev (map (fun d => aCoalesce d.1 d.2) dropped)) |>.
Proof.
  unfold coalesce. revert r. induction dropped as [|d l IH]; intros r; cbn [fold_left].
  - destruct r. cbn. f_equal. set_solver.
  - rewrite IH, releaseSources_eq. cbn [map rev]. rewrite !leases_cons. unfold act. destruct r; cbn. f_equal.
    + rewrite app_nil_r. destruct (ql_lease d.1); cbn; set_solver.
    + by rewrite <- app_assoc.
Qed.

(** The part of the state that the queue, the goroutine of [Run] and its history make up. *)
Record same_core r r' : Prop := {
  sc_queue : hr_queue r' = hr_queue r;
  sc_run : hr_run r' = hr_run r;
  sc_monitors : hr_monitors r' = hr_monitors r;
  sc_stopped : hr_stopped r' = hr_stopped r;
  sc_live : hr_live r' = hr_live r;
  sc_leases : hr_leases r' = hr_leases r;
  sc_released : hr_released r' = hr_released r;
  sc_trace : hr_trace r' = hr_trace r;
  sc_ctx : hr_ctx r = true -> hr_ctx r' = true;
  sc_drained : hr_drained r' = hr_drained r;
}.

(** The acts of a step inside a landing. *)
Definition landing_act (a : Act) : Prop := match a with aNotify _ | aExec _ _ => True | _ => False end.

(** A step inside a landing. *)
Record in_landing c c' r r' : Prop := {
  il_ql : cu_ql c' = cu_ql c;
  il_monitor : isSome (cu_monitor c') = isSome (cu_monitor c) /\ fst <$> cu_monitor c' = fst <$> cu_monitor c;
  il_queue : hr_queue r' = hr_queue r;
  il_run : hr_run r' = hr_run r;
  il_monitors : hr_monitors r' = hr_monitors r;
  il_stopped : hr_stopped r' = hr_stopped r;
  il_leases : hr_leases r' = hr_leases r;
  il_released : hr_released r' = hr_released r;
  il_ctx : hr_ctx r' = hr_ctx r;
  il_drained : hr_drained r' = hr_drained r;
  il_trace : exists acts, hr_trace r' = acts ++ hr_trace r /\ Forall landing_act acts;
}.

Lemma notify_eq ev r : exists acts, notify p ev r = r <| hr_trace ::= app acts |> /\ Forall landing_act acts.
Proof.
  unfold notify, act. destruct (hp_Emit p); [exists [aNotify ev]|exists []]; (split; [by destruct r|by repeat constructor]).
Qed.

Lemma runLanding_frame now a c r c' r' : runLanding p now a c r = Some (c', r') -> in_landing c c' r r'.
Proof.
  unfold runLanding. cbv zeta. intros H.
  assert (forall c' r', cu_ql c' = cu_ql c -> cu_monitor c' = cu_monitor c -> (exists acts live, Forall landing_act acts /\
    r' = r <| hr_live := live |> <| hr_trace ::= app acts |>) -> in_landing c c' r r') as K.
  { intros c1 r1 E1 E2 (acts & live & Ha & ->). split; try done; [by rewrite E2|by exists acts]. }
  assert (exists acts live, Forall landing_act acts /\ r = r <| hr_live := live |> <| hr_trace ::= app acts |>) as Kr
    by (exists [], (hr_live r); split; [constructor|by destruct r]).
  assert (exists acts live, Forall landing_act acts /\ clearLive r = r <| hr_live := live |> <| hr_trace ::= app acts |>) as Kc
    by (exists [], zeroLive; split; [constructor|by destruct r]).
  destruct (cu_stage c), a; try discriminate H; repeat case_match; try discriminate H; simplify_eq;
    apply K; try reflexivity; try exact Kr; try exact Kc.
  all: try (match goal with |- context [notify p ?ev ?x] => destruct (notify_eq ev x) as (acts & -> & Ha);
    exists acts; first [exists (hr_live x); split; [exact Ha|by destruct r]|exists zeroLive; split; [exact Ha|by destruct r]] end).
  - exists [], (mkLive (target (cu_ql c)) true "" 0 (Z.of_nat (length (hooksOf p (cu_ql c)))) now). split; [constructor|by destruct r].
  - exists [aExec (hookJob (cu_ql c) p0) (hookLogPath p (rr_RunID (recordOf (cu_ql c))) (Z.of_nat i + 1) (ph_Name p0))], (hr_live r).
    split; [by repeat constructor|by destruct r].
Qed.

Lemma monitorStep_frame c r c' r' : monitorStep c r = Some (c', r') -> in_landing c c' r r' /\ hr_trace r' = hr_trace r /\
  hr_live r' = hr_live r /\ cu_stage c' = cu_stage c.
Proof.
  unfold monitorStep. intros H. repeat case_match; simplify_eq; (split; [split; try done; rewrite ?H0; try done; by exists []|done]).
Qed.
(** What the runner has taken from the queue and not finished. *)
Definition inHand r : list queuedLanding :=
  match hr_run r with rBatch _ todo => todo | rLanding _ todo c => cu_ql c :: todo | _ => [] end.

Definition held r : list queuedLanding := inHand r ++ hr_queue r.

(** What a step does to the landings: nothing, a landing that is refused or accepted, or
    landings that leave for good and are given back. *)
Inductive fate r r' : Prop :=
  | fate_keep : held r' = held r -> hr_leases r' = hr_leases r -> hr_released r' = hr_released r -> fate r r'
  | fate_refuse : held r' = held r -> hr_leases r' = S (hr_leases r) -> hr_released r' = {[hr_leases r]} ∪ hr_released r -> fate r r'
  | fate_accept q : held r' = held r ++ [q] -> hr_released r' = hr_released r ->
      ql_lease q = None /\ hr_leases r' = hr_leases r \/ ql_lease q = Some (hr_leases r) /\ hr_leases r' = S (hr_leases r) -> fate r r'
  | fate_leave gone : leases (held r) ≡ₚ leases (held r') ++ leases gone -> hr_leases r' = hr_leases r ->
      hr_released r' = list_to_set (leases gone) ∪ hr_released r -> fate r r'.

Lemma stopRun_eq r : stopRun r = r <| hr_stopped := true |> <| hr_queue := [] |> <| hr_released ::= (list_to_set (leases (hr_queue r)) ∪.) |>
    <| hr_trace ::= cons (aAbandon (hr_queue r)) |> <| hr_run := rDone |>.
Proof. unfold stopRun, drainAvailable. cbv zeta. rewrite releaseSources_eq. unfold act. by destruct r. Qed.

Lemma startBatch_eq dr r : let '(out, dropped) := keepNewest p (hr_queue r) (lastIdx p 0 (hr_queue r) ∅) 0 (hr_queue r) in
  startBatch p dr r = r <| hr_queue := [] |> <| hr_released ::= (list_to_set (leases (map fst dropped)) ∪.) |>
    <| hr_trace ::= app (rev (map (fun d => aCoalesce d.1 d.2) dropped)) |> <| hr_run := rBatch dr out |>.
Proof.
  unfold startBatch, drainAvailable, applyBacklogPolicy. destruct (keepNewest _ _ _ 0 _) as [out dropped].
  by rewrite coalesce_eq.
Qed.

Lemma endBatch_eq dr left r : endBatch dr left r =
  let r := r <| hr_trace ::= app (match left with [] => [] | _ => [aAbandon left] end) |>
             <| hr_released ::= (list_to_set (leases left) ∪.) |> in
  if dr then stopRun (r <| hr_drained := true |>) else r <| hr_run := rIdle |>.
Proof. unfold endBatch. rewrite releaseSources_eq. unfold act. destruct left, dr; by destruct r. Qed.

Lemma step_fate r l r' : step p r l = Some r' -> fate r r'.
Proof.
  destruct l as [tid ev err|tid|tid|tid t| | |ch| |now a| |]; cbn [step]; intros H.
  - unfold Emit in H. cbv zeta in H. repeat case_match; simplify_eq; try (by apply fate_keep).
    all: rewrite ?releaseSources_eq; unfold act.
    all: try (by apply fate_keep; [done|done|cbn; set_solver]).
    all: try (by apply fate_refuse; [done|done|cbn; set_solver]).
    all: match goal with |- context [aAccept ?q] => apply (fate_accept _ _ q) end; [apply app_assoc|done|auto].
  - unfold wake in H. repeat case_match; simplify_eq; by apply fate_keep.
  - unfold send in H. cbv zeta in H. repeat case_match; simplify_eq; by apply fate_keep.
  - unfold CancelCurrent in H. repeat case_match; simplify_eq; by apply fate_keep.
  - injection H as <-. by apply fate_keep.
  - injection H as <-. by apply fate_keep.
  - assert (hr_run r = rIdle) as Hi by (unfold RunSelect in H; by destruct (hr_run r)).
    assert (held r = hr_queue r) as Eh by (unfold held, inHand; by rewrite Hi).
    assert (r' = stopRun r \/ exists dr, r' = startBatch p dr r) as [->|(dr & ->)].
    { unfold RunSelect in H. rewrite Hi in H. destruct ch; repeat case_match; simplify_eq; eauto. }
    + rewrite stopRun_eq. apply (fate_leave _ _ (hr_queue r)); [by rewrite Eh|done|done].
    + pose proof (batch_policy (hr_queue r)) as B. pose proof (startBatch_eq dr r) as E.
      destruct (keepNewest _ _ _ 0 _) as [out dropped]. rewrite E. apply (fate_leave _ _ (map fst dropped)); [|done|done].
      rewrite Eh. unfold held, inHand. cbn. rewrite app_nil_r. apply B.
  - unfold nextLanding in H. destruct (hr_run r) as [|dr todo| |] eqn:Er; try discriminate H.
    assert (held r = todo ++ hr_queue r) as Eh by (unfold held, inHand; by rewrite Er).
    assert (fate r (endBatch dr todo r)) as Ke.
    { rewrite endBatch_eq. cbv zeta. destruct dr.
      - rewrite stopRun_eq. apply (fate_leave _ _ (held r)); [by unfold held at 2; cbn|done|].
        rewrite Eh, leases_app. cbn. set_solver.
      - apply (fate_leave _ _ todo); [|done|done]. rewrite Eh, leases_app. unfold held, inHand. cbn. apply Permutation_app_comm. }
    destruct todo as [|q todo]; [by injection H as <-|]. destruct (hr_ctx r); [by injection H as <-|]. injection H as <-.
    unfold execLanding, act. cbv zeta. apply fate_keep; [|by destruct (String.eqb _ _)..]. rewrite Eh. unfold held, inHand.
    by destruct (String.eqb _ _).
  - destruct (hr_run r) as [| |dr todo c|] eqn:Er; try discriminate H.
    destruct (runLanding p now a c r) as [[c' r1]|] eqn:E; [|done]. injection H as <-. apply runLanding_frame in E as F.
    apply fate_keep; [|apply F|apply F]. unfold held, inHand. cbn. rewrite Er, (il_ql _ _ _ _ F), (il_queue _ _ _ _ F). done.
  - destruct (hr_run r) as [| |dr todo c|] eqn:Er; try discriminate H.
    destruct (monitorStep c r) as [[c' r1]|] eqn:E; [|done]. injection H as <-. apply monitorStep_frame in E as [F _].
    apply fate_keep; [|apply F|apply F]. unfold held, inHand. cbn. rewrite Er, (il_ql _ _ _ _ F), (il_queue _ _ _ _ F). done.
  - destruct (hr_run r) as [| |dr todo c|] eqn:Er; try discriminate H. unfold endLanding in H.
    assert (exists r1, hr_queue r1 = hr_queue r /\ hr_leases r1 = hr_leases r /\ hr_released r1 = hr_released r /\
      r' = releaseSources [cu_ql c] r1 <| hr_run := rBatch dr todo |>) as (r1 & E1 & E2 & E3 & ->)
      by (repeat case_match; simplify_eq; eexists; (split_and!; [| | |reflexivity]); done).
    rewrite releaseSources_eq. apply (fate_leave _ _ [cu_ql c]); [|done|cbn; by rewrite E3].
    assert (held (r1 <| hr_released ::= (list_to_set (leases [cu_ql c]) ∪.) |> <| hr_run := rBatch dr todo |>) = todo ++ hr_queue r) as ->
      by (unfold held, inHand; cbn; by rewrite E1).
    unfold held, inHand. rewrite Er. change ((cu_ql c :: todo) ++ hr_queue r) with ([cu_ql c] ++ (todo ++ hr_queue r)).
    rewrite leases_app. apply Permutation_app_comm.
Qed.
(** Every lease that was taken is either held by a landing that waits or runs, once, or
    given back. *)
Record leases_ok r : Prop := {
  lk_nodup : NoDup (leases (held r));
  lk_bound : forall l, l ∈ leases (held r) -> (l < hr_leases r)%nat;
  lk_released : forall l, l ∈ hr_released r <-> (l < hr_leases r)%nat /\ l ∉ leases (held r);
}.

Lemma fate_leases r r' : fate r r' -> leases_ok r -> leases_ok r'.
Proof.
  intros F [Hnd Hb Hr]. destruct F as [E1 E2 E3|E1 E2 E3|q E1 E2 [[E3 E4]|[E3 E4]]|gone E1 E2 E3].
  - by split; rewrite ?E1, ?E2, ?E3.
  - split; rewrite ?E1, ?E2; [done|intros l Hl; specialize (Hb l Hl); lia|]. intros l. rewrite E3, elem_of_union, elem_of_singleton, Hr. split.
    + intros [->|[? ?]]; split; try lia; [|done]. intros Hin. specialize (Hb _ Hin). lia.
    + intros [Hlt Hn]. destruct (decide (l = hr_leases r)); [by left|right; split; [lia|done]].
  - assert (leases (held r') = leases (held r)) as E by (by rewrite E1, leases_app, leases_cons, E3; cbn; rewrite app_nil_r).
    by split; rewrite ?E, ?E2, ?E4.
  - assert (leases (held r') = leases (held r) ++ [hr_leases r]) as E by (by rewrite E1, leases_app, leases_cons, E3).
    split; rewrite ?E, ?E2, ?E4.
    + apply NoDup_app. split_and!; [done| |apply NoDup_singleton]. intros x Hx ->%list_elem_of_singleton. specialize (Hb _ Hx). lia.
    + intros l [Hl| ->%list_elem_of_singleton]%elem_of_app; [specialize (Hb _ Hl)|]; lia.
    + intros l. rewrite Hr, elem_of_app, list_elem_of_singleton. split; [intros [? ?]; split; [lia|intros [?| ->]; [done|lia]]|].
      intros [Hlt Hn]. split; [|by intros ?; apply Hn; left]. assert (l <> hr_leases r) by (intros ->; apply Hn; by right). lia.
  - rewrite E1 in Hnd. apply NoDup_app in Hnd as (Hn1 & Hd & Hn2). split; [done| |].
    + intros l Hl. rewrite E2. apply Hb. rewrite E1. apply elem_of_app. by left.
    + intros l. rewrite E3, E2, elem_of_union, elem_of_list_to_set, Hr, E1, elem_of_app. split.
      * intros [Hl|[Hlt Hn]]; [|split; [done|tauto]]. split; [apply Hb; rewrite E1; apply elem_of_app; by right|]. intros Hl'. by apply (Hd l).
      * intros [Hlt Hn]. destruct (decide (l ∈ leases gone)); [by left|right; split; [done|tauto]].
Qed.

Lemma reachable_leases r : reachable p r -> leases_ok r.
Proof.
  induction 1 as [|r l r' _ IH H]; [|by eapply fate_leases; [eapply step_fate|]].
  split; [constructor|by intros ? ?%elem_of_nil|]. intros l. split; [by intros ?%elem_of_empty|intros [Hl _]; by inversion Hl].
Qed.
(** ** What becomes of a landing *)

(** The landings accepted and those started, oldest first. *)
Definition accepted (tr : list Act) : list queuedLanding := rev (omap (fun a => match a with aAccept q => Some q | _ => None end) tr).
Definition started (tr : list Act) : list queuedLanding := rev (omap (fun a => match a with aStart q => Some q | _ => None end) tr).

(** What a landing still has to come, after those it started. *)
Definition waiting r : list queuedLanding :=
  match hr_run r with rBatch _ todo => todo | rLanding _ todo _ => todo | _ => [] end ++ hr_queue r.

Record history_ok r : Prop := {
  hk_all : forall q, aAccept q ∈ hr_trace r -> q ∈ waiting r \/ aStart q ∈ hr_trace r \/
    (exists newer, aCoalesce q newer ∈ hr_trace r) \/ (exists l, aAbandon l ∈ hr_trace r /\ q ∈ l);
  hk_order : sublist (started (hr_trace r) ++ waiting r) (accepted (hr_trace r));
  hk_coalesced : forall q newer, aCoalesce q newer ∈ hr_trace r -> collapses p (target q) = true /\ target newer = target q /\
    exists i j, (i < j)%nat /\ accepted (hr_trace r) !! i = Some q /\ accepted (hr_trace r) !! j = Some newer;
  hk_abandoned : forall l, aAbandon l ∈ hr_trace r -> l <> [] -> hr_ctx r = true \/ hr_drained r = true;
  hk_stopped : hr_stopped r = true <-> hr_run r = rDone;
  hk_done : hr_run r = rDone -> hr_queue r = [];
}.

Definition quiet_act (a : Act) : Prop := match a with aNotify _ | aExec _ _ | aEnd _ => True | _ => False end.

Lemma quiet_none {A} (f : Act -> option A) acts tr : (forall a, quiet_act a -> f a = None) -> Forall quiet_act acts ->
  omap f (acts ++ tr) = omap f tr.
Proof. intros Hf. induction 1 as [|a l Ha Hl IH]; [done|]. cbn. by rewrite (Hf a Ha). Qed.

Lemma accepted_quiet acts tr : Forall quiet_act acts -> accepted (acts ++ tr) = accepted tr.
Proof. intros H. unfold accepted. by rewrite quiet_none by (done || by intros []). Qed.

Lemma started_quiet acts tr : Forall quiet_act acts -> started (acts ++ tr) = started tr.
Proof. intros H. unfold started. by rewrite quiet_none by (done || by intros []). Qed.

(** A step that only reports. *)
Lemma history_quiet r r' acts : Forall quiet_act acts -> hr_trace r' = acts ++ hr_trace r -> waiting r' = waiting r ->
  (hr_ctx r = true -> hr_ctx r' = true) -> hr_drained r' = hr_drained r -> hr_stopped r' = hr_stopped r ->
  (hr_run r' = rDone <-> hr_run r = rDone) -> (hr_run r' = rDone -> hr_queue r' = []) -> history_ok r -> history_ok r'.
Proof.
  intros Ha Et Ew Ec Ed Es Er Hq [H1 H2 H3 H4 H5 H6].
  assert (forall a, a ∈ hr_trace r' -> ~ quiet_act a -> a ∈ hr_trace r) as Hin.
  { intros a. rewrite Et. intros [Hin|Hin]%elem_of_app Hn; [|done]. exfalso. apply Hn. by eapply Forall_forall in Ha. }
  assert (forall a, a ∈ hr_trace r -> a ∈ hr_trace r') as Hin' by (intros a Hin'; rewrite Et; apply elem_of_app; by right).
  split.
  - intros q Hq'. apply Hin in Hq'; [|by intros []]. rewrite Ew. destruct (H1 q Hq') as [?|[?|[(n & ?)|(l & ? & ?)]]]; eauto 8.
  - by rewrite Ew, Et, started_quiet, accepted_quiet.
  - intros q n Hc. apply Hin in Hc; [|by intros []]. rewrite Et, accepted_quiet by done. by apply H3.
  - intros l Hl Hne. apply Hin in Hl; [|by intros []]. rewrite Ed. destruct (H4 l Hl Hne); auto.
  - by rewrite Es, Er.
  - done.
Qed.
Lemma sublist_pair {A} (l k : list A) i j x y : sublist l k -> (i < j)%nat -> l !! i = Some x -> l !! j = Some y ->
  exists i' j', (i' < j')%nat /\ k !! i' = Some x /\ k !! j' = Some y.
Proof.
  intros H. revert i j. induction H as [|z l k H IH|z l k H IH]; intros i j Hij Hi Hj; [done| |].
  - destruct j as [|j]; [lia|]. destruct i as [|i].
    + simpl in Hi. injection Hi as ->. pose proof (list_elem_of_lookup_2 l j y Hj) as Hy.
      eapply elem_of_sublist in Hy; [|exact H]. apply list_elem_of_lookup_1 in Hy as [j' Hj'].
      exists O, (S j'). split_and!; [lia|done|done].
    + destruct (IH i j ltac:(lia) Hi Hj) as (i' & j' & ? & ? & ?). exists (S i'), (S j'). split_and!; [lia|done|done].
  - destruct (IH i j Hij Hi Hj) as (i' & j' & ? & ? & ?). exists (S i'), (S j'). split_and!; [lia|done|done].
Qed.

Lemma accepted_cons q tr : accepted (aAccept q :: tr) = accepted tr ++ [q].
Proof. done. Qed.

Lemma started_cons q tr : started (aStart q :: tr) = started tr ++ [q].
Proof. done. Qed.

Lemma coalesced_none {A} (f : Act -> option A) dropped tr : (forall q n, f (aCoalesce q n) = None) ->
  omap f (rev (map (fun d => aCoalesce d.1 d.2) dropped) ++ tr) = omap f tr.
Proof.
  intros Hf. rewrite <- (rev_involutive dropped), map_rev, rev_involutive. induction (rev dropped) as [|d l IH]; [done|].
  cbn. by rewrite Hf.
Qed.

Lemma history_accept r r' q : hr_trace r' = aAccept q :: hr_trace r -> waiting r' = waiting r ++ [q] ->
  hr_ctx r' = hr_ctx r -> hr_drained r' = hr_drained r -> hr_stopped r' = hr_stopped r -> hr_run r' = hr_run r -> hr_stopped r = false ->
  history_ok r -> history_ok r'.
Proof.
  intros Et Ew Ec Ed Es Er Hs [H1 H2 H3 H4 H5 H6]. split; rewrite ?Et.
  - intros x [[= ->]|Hx]%elem_of_cons; [left; rewrite Ew; apply elem_of_app; right; apply list_elem_of_here|].
    rewrite Ew. destruct (H1 x Hx) as [?|[?|[(n & ?)|(l & ? & ?)]]].
    + left. apply elem_of_app. by left.
    + right; left. by apply list_elem_of_further.
    + right; right; left. exists n. by apply list_elem_of_further.
    + right; right; right. exists l. split; [by apply list_elem_of_further|done].
  - rewrite Ew, accepted_cons, app_assoc. apply sublist_app; [exact H2|done].
  - intros x n [Hx|Hx]%elem_of_cons; [done|]. destruct (H3 x n Hx) as (? & ? & i & j & ? & Hi & Hj). split_and!; try done.
    exists i, j. rewrite accepted_cons. split_and!; [done|by apply lookup_app_l_Some..].
  - intros l [Hl|Hl]%elem_of_cons; [done|]. rewrite Ec, Ed. by apply H4.
  - by rewrite Es, Er.
  - rewrite Er. intros Hd. apply H5 in Hd. congruence.
Qed.

(** A step by which the goroutine of [Run] moves on, dropping some of what waits. *)
Lemma history_move r r' acts : hr_trace r' = acts ++ hr_trace r ->
  omap (fun a => match a with aAccept q => Some q | _ => None end) acts = [] ->
  sublist (started (acts ++ hr_trace r) ++ waiting r') (started (hr_trace r) ++ waiting r) ->
  (forall q, q ∈ waiting r -> q ∈ waiting r' \/ aStart q ∈ acts \/ (exists newer, aCoalesce q newer ∈ acts) \/ exists l, aAbandon l ∈ acts /\ q ∈ l) ->
  (forall q newer, aCoalesce q newer ∈ acts -> collapses p (target q) = true /\ target newer = target q /\
    exists i j, (i < j)%nat /\ waiting r !! i = Some q /\ waiting r !! j = Some newer) ->
  (forall l, aAbandon l ∈ acts -> l <> [] -> hr_ctx r' = true \/ hr_drained r' = true) ->
  (hr_ctx r = true -> hr_ctx r' = true) -> (hr_drained r = true -> hr_drained r' = true) ->
  (hr_stopped r' = true <-> hr_run r' = rDone) -> (hr_run r' = rDone -> hr_queue r' = []) ->
  history_ok r -> history_ok r'.
Proof.
  intros Et Ea Hs Hw Hc Hab Hctx Hdr Hst Hq [H1 H2 H3 H4 H5 H6].
  assert (accepted (hr_trace r') = accepted (hr_trace r)) as Eacc by (rewrite Et; unfold accepted; by rewrite omap_app, Ea).
  assert (forall a, a ∈ hr_trace r -> a ∈ hr_trace r') as Hin by (intros a Ha; rewrite Et; apply elem_of_app; by right).
  assert (forall a, a ∈ acts -> a ∈ hr_trace r') as Hin2 by (intros a Ha; rewrite Et; apply elem_of_app; by left).
  split; try done.
  - intros q Hq'. assert (aAccept q ∈ hr_trace r) as Hold.
    { rewrite Et in Hq'. apply elem_of_app in Hq' as [Hq'|]; [|done]. exfalso.
      assert (q ∈ omap (fun a => match a with aAccept q => Some q | _ => None end) acts) as Hx by (apply list_elem_of_omap; by exists (aAccept q)).
      rewrite Ea in Hx. by apply elem_of_nil in Hx. }
    destruct (H1 q Hold) as [Hx|[?|[(n & ?)|(l & ? & ?)]]]; [|eauto 8..].
    destruct (Hw q Hx) as [?|[?|[(n & ?)|(l & ? & ?)]]]; eauto 8.
  - rewrite Eacc, Et. by etrans.
  - intros q n Hx. rewrite Eacc. rewrite Et in Hx. apply elem_of_app in Hx as [Hx|Hx]; [|by apply H3].
    destruct (Hc q n Hx) as (? & ? & i & j & Hij & Hi & Hj). split_and!; try done.
    apply (sublist_pair (started (hr_trace r) ++ waiting r) _ (length (started (hr_trace r)) + i) (length (started (hr_trace r)) + j)); [done|lia|..];
      rewrite lookup_app_r by lia; rewrite <- ?Hi, <- ?Hj; f_equal; lia.
  - intros l Hl Hne. rewrite Et in Hl. apply elem_of_app in Hl as [Hl|Hl]; [by eapply Hab|]. destruct (H4 l Hl Hne); auto.
Qed.
Lemma history_still r r' : hr_trace r' = hr_trace r -> hr_queue r' = hr_queue r -> hr_run r' = hr_run r ->
  (hr_ctx r = true -> hr_ctx r' = true) -> hr_drained r' = hr_drained r -> hr_stopped r' = hr_stopped r -> history_ok r -> history_ok r'.
Proof.
  intros Et Eq Er Ec Ed Es H. apply (history_quiet r r' []); try done.
  - unfold waiting. by rewrite Er, Eq.
  - by rewrite Er.
  - rewrite Er, Eq. apply H.
Qed.

Lemma history_stop r : (hr_run r = rIdle \/ exists dr, hr_run r = rBatch dr []) -> hr_ctx r = true \/ hr_drained r = true ->
  history_ok r -> history_ok (stopRun r).
Proof.
  intros Hr Hc H. assert (waiting r = hr_queue r) as Ew by (unfold waiting; by destruct Hr as [->|(dr & ->)]).
  rewrite stopRun_eq.
  apply (history_move r _ [aAbandon (hr_queue r)]); try done.
  - unfold waiting at 1. cbn. rewrite app_nil_r. apply sublist_inserts_r. done.
  - intros q Hq. right; right; right. exists (hr_queue r). split; [apply list_elem_of_here|by rewrite <- Ew].
  - intros q n Hx. by apply list_elem_of_singleton in Hx.
Qed.

Lemma history_endBatch dr left r : hr_run r = rBatch dr left -> left = [] \/ hr_ctx r = true -> history_ok r -> history_ok (endBatch dr left r).
Proof.
  intros Hr Hl H. rewrite endBatch_eq. cbv zeta.
  set (r1 := r <| hr_trace ::= _ |> <| hr_released ::= _ |>).
  assert (history_ok (r1 <| hr_run := rBatch dr [] |>)) as H1.
  { apply (history_move r _ (match left with [] => [] | _ => [aAbandon left] end)); try done.
    - by destruct left.
    - unfold waiting. rewrite Hr. cbn. replace (started (match left with [] => [] | _ => [aAbandon left] end ++ hr_trace r)) with (started (hr_trace r))
        by (by destruct left). apply sublist_app; [done|]. by apply sublist_inserts_l.
    - intros q. unfold waiting. rewrite Hr. intros [Hq|Hq]%elem_of_app; [|by left]. right; right; right. destruct left as [|x l]; [by apply elem_of_nil in Hq|].
      exists (x :: l). split; [apply list_elem_of_here|done].
    - intros q n Hx. destruct left; [by apply elem_of_nil in Hx|by apply list_elem_of_singleton in Hx].
    - intros l Hx Hne. destruct left; [by apply elem_of_nil in Hx|]. left. by destruct Hl.
    - cbn. rewrite (hk_stopped _ H), Hr. split; [done|]. intros E. discriminate E. }
  destruct dr.
  - assert (stopRun (r1 <| hr_drained := true |>) = stopRun (r1 <| hr_run := rBatch true [] |> <| hr_drained := true |>)) as ->
      by (rewrite !stopRun_eq; reflexivity).
    apply (history_stop (r1 <| hr_run := rBatch true [] |> <| hr_drained := true |>)); [right; by exists true|by right|].
    eapply (history_move (r1 <| hr_run := rBatch true [] |>) _ []); try done; try (by intros ? ? ?%elem_of_nil); try (by intros ? ?%elem_of_nil).
    + by intros q Hq; left.
    + apply H1.
  - eapply (history_quiet (r1 <| hr_run := rBatch false [] |>) _ []); try done.
Qed.
Lemma step_history r l r' : step p r l = Some r' -> history_ok r -> history_ok r'.
Proof.
  destruct l as [tid ev err|tid|tid|tid t| | |ch| |now a| |]; cbn [step]; intros H Hok.
  - unfold Emit in H. cbv zeta in H. repeat case_match; simplify_eq; try done.
    all: rewrite ?releaseSources_eq; unfold act.
    all: try (by eapply history_still; [..|exact Hok]).
    all: match goal with |- context [aAccept ?q] => apply (history_accept r _ q) || apply (history_accept r1 _ q) end; try done; apply app_assoc.
  - unfold wake in H. repeat case_match; simplify_eq; by eapply history_still; [..|exact Hok].
  - unfold send in H. cbv zeta in H. repeat case_match; simplify_eq; by eapply history_still; [..|exact Hok].
  - unfold CancelCurrent in H. repeat case_match; simplify_eq; by eapply history_still; [..|exact Hok].
  - injection H as <-. by eapply history_still; [..|exact Hok].
  - injection H as <-. by eapply history_still; [..|exact Hok].
  - assert (hr_run r = rIdle) as Hi by (unfold RunSelect in H; by destruct (hr_run r)).
    assert (waiting r = hr_queue r) as Ew by (unfold waiting; by rewrite Hi).
    assert (r' = stopRun r /\ hr_ctx r = true \/ exists dr, r' = startBatch p dr r) as [[-> Hc]|(dr & ->)].
    { unfold RunSelect in H. rewrite Hi in H. destruct ch; repeat case_match; simplify_eq; eauto. }
    { apply history_stop; auto. }
    pose proof (batch_policy (hr_queue r)) as B. pose proof (startBatch_eq dr r) as E.
    destruct (keepNewest _ _ _ 0 _) as [out dropped]. destruct B as [B1 B2 B3 _]. rewrite E. clear E.
    assert (forall q n, aCoalesce q n ∈ rev (map (fun d => aCoalesce d.1 d.2) dropped) -> (q, n) ∈ dropped) as Hd.
    { intros q n Hx. apply list_elem_of_In, in_rev, in_map_iff in Hx as ([a b] & [= <- <-] & Hx). by apply list_elem_of_In. }
    eapply (history_move r _ (rev (map (fun d => aCoalesce d.1 d.2) dropped))); try done.
    + pose proof (coalesced_none (fun a => match a with aAccept q => Some q | _ => None end) dropped [] ltac:(done)) as E.
      by rewrite app_nil_r in E.
    + unfold started. rewrite coalesced_none by done. apply sublist_app; [done|]. rewrite Ew. unfold waiting. cbn. by rewrite app_nil_r.
    + intros q. rewrite Ew. intros Hq. destruct (B2 q Hq) as [?|(n & Hn)]; [left; unfold waiting; cbn; rewrite app_nil_r; done|].
      right; right; left. exists n. apply list_elem_of_In, in_rev. rewrite rev_involutive. apply in_map_iff. exists (q, n).
      split; [done|by apply list_elem_of_In].
    + intros q n Hx%Hd. rewrite Ew. destruct (B3 q n Hx) as (? & ? & _ & ?). done.
    + intros l Hx. exfalso. apply list_elem_of_In, in_rev, in_map_iff in Hx as (? & Hx & _). done.
    + cbn. rewrite (hk_stopped _ Hok), Hi. done.
  - unfold nextLanding in H. destruct (hr_run r) as [|dr todo| |] eqn:Er; try discriminate H.
    destruct todo as [|q todo]; [injection H as <-; apply history_endBatch; auto|]. destruct (hr_ctx r) eqn:Ec; injection H as <-; [apply history_endBatch; auto|].
    assert (waiting r = q :: todo ++ hr_queue r) as Ew by (unfold waiting; by rewrite Er).
    assert (hr_trace (execLanding p dr todo q r) = [aStart q] ++ hr_trace r) as Et
      by (unfold execLanding, act; cbv zeta; by destruct (String.eqb _ _)).
    assert (waiting (execLanding p dr todo q r) = todo ++ hr_queue r) as Ew'
      by (unfold waiting, execLanding, act; cbv zeta; by destruct (String.eqb _ _)).
    eapply (history_move r _ [aStart q] Et); try done.
    + change ([aStart q] ++ hr_trace r) with (aStart q :: hr_trace r). by rewrite started_cons, Ew, Ew', <- app_assoc.
    + intros x. rewrite Ew, Ew'. intros [->|Hx]%elem_of_cons; [right; left; apply list_elem_of_here|by left].
    + intros x n Hx. by apply list_elem_of_singleton in Hx.
    + intros x Hx. by apply list_elem_of_singleton in Hx.
    + unfold execLanding. cbv zeta. by destruct (String.eqb _ _).
    + unfold execLanding. cbv zeta. by destruct (String.eqb _ _).
    + pose proof (hk_stopped _ Hok) as Hs. rewrite Er in Hs. unfold execLanding. cbv zeta. destruct (String.eqb _ _); cbn; split; intros E; try discriminate E;
        apply Hs in E; discriminate E.
    + unfold execLanding. cbv zeta. by destruct (String.eqb _ _).
  - destruct (hr_run r) as [| |dr todo c|] eqn:Er; try discriminate H.
    destruct (runLanding p now a c r) as [[c' r1]|] eqn:E; [|done]. injection H as <-. apply runLanding_frame in E as F.
    destruct (il_trace _ _ _ _ F) as (acts & Et & Ha). eapply (history_quiet r _ acts); try done.
    + eapply Forall_impl; [exact Ha|by intros []].
    + unfold waiting. rewrite Er. cbn. by rewrite (il_queue _ _ _ _ F).
    + cbn. by rewrite (il_ctx _ _ _ _ F).
    + apply F.
    + apply F.
    + cbn. by rewrite Er.
  - destruct (hr_run r) as [| |dr todo c|] eqn:Er; try discriminate H.
    destruct (monitorStep c r) as [[c' r1]|] eqn:E; [|done]. injection H as <-. apply monitorStep_frame in E as (F & Et & _ & _).
    eapply (history_quiet r _ []); try done.
    + unfold waiting. rewrite Er. cbn. by rewrite (il_queue _ _ _ _ F).
    + cbn. by rewrite (il_ctx _ _ _ _ F).
    + apply F.
    + apply F.
    + cbn. by rewrite Er.
  - destruct (hr_run r) as [| |dr todo c|] eqn:Er; try discriminate H. unfold endLanding in H.
    assert (exists m, r' = releaseSources [cu_ql c] (act (aEnd (cu_ql c)) (r <| hr_monitors := m |>)) <| hr_run := rBatch dr todo |>) as (m & ->)
      by (repeat case_match; simplify_eq; first [by exists (delete (target (cu_ql c)) (hr_monitors r))|exists (hr_monitors r); by destruct r]).
    rewrite releaseSources_eq. eapply (history_quiet r _ [aEnd (cu_ql c)]); try done.
    + by repeat constructor.
    + unfold waiting. by rewrite Er.
    + cbn. by rewrite Er.
Qed.

Lemma reachable_history r : reachable p r -> history_ok r.
Proof.
  induction 1 as [|r l r' _ IH H]; [|by eapply step_history].
  split; try done; try (by intros ? ?%elem_of_nil); by intros ? ? ?%elem_of_nil.
Qed.
(** ** The protocol of a landing *)

(** What a history leaves the runner doing: nothing, a landing of which the first hooks
    passed, a hook that was announced, one that was handed to the executor, a landing
    of which nothing more will run. *)
Inductive Doing := dIdle | dLanding q (next : nat) | dHook q (i : nat) | dRan q (i : nat) | dOver q.

(** The histories that follow the protocol, newest act first: one landing at a time; its
    hooks in order, each announced, run, and reported before the next; none after one
    that failed; a failure to get a slot reported like a failure of the hook; and for a
    recovered landing one notice and no hook. *)
Inductive chronicle : list Act -> Doing -> Prop :=
  | c_nil : chronicle [] dIdle
  | c_accept q tr d : chronicle tr d -> chronicle (aAccept q :: tr) d
  | c_coalesce q newer tr : chronicle tr dIdle -> chronicle (aCoalesce q newer :: tr) dIdle
  | c_abandon l tr : chronicle tr dIdle -> chronicle (aAbandon l :: tr) dIdle
  | c_start q tr : chronicle tr dIdle -> chronicle (aStart q :: tr) (dLanding q 0)
  | c_skip now q tr : chronicle tr (dLanding q 0) -> rr_Recovered (recordOf q) = true ->
      chronicle (aNotify (skippedEvent p now q) :: tr) (dOver q)
  | c_announce now q i h tr : chronicle tr (dLanding q i) -> rr_Recovered (recordOf q) = false -> hooksOf p q !! i = Some h ->
      chronicle (aNotify (startedEvent p now q i h) :: tr) (dHook q i)
  | c_exec q i h path tr : chronicle tr (dHook q i) -> hooksOf p q !! i = Some h -> chronicle (aExec (hookJob q h) path :: tr) (dRan q i)
  | c_refused now q i h res detail tr : chronicle tr (dHook q i) -> hooksOf p q !! i = Some h -> r_Err res <> None ->
      chronicle (aNotify (finishedEvent now q h res detail) :: tr) (dOver q)
  | c_finish now q i h res detail tr : chronicle tr (dRan q i) -> hooksOf p q !! i = Some h -> (r_Err res = None -> detail = "") ->
      chronicle (aNotify (finishedEvent now q h res detail) :: tr) (if stops res then dOver q else dLanding q (S i))
  | c_over q i tr : chronicle tr (dLanding q i) -> chronicle tr (dOver q)
  | c_end q tr : chronicle tr (dOver q) -> chronicle (aEnd q :: tr) dIdle.

Definition at_stage q (st : Stage) (d : Doing) : Prop :=
  match st with
  | stEnter => d = dLanding q 0
  | stStop => d = dOver q
  | _ => rr_Recovered (recordOf q) = false /\
      match st with
      | stNext i => d = dLanding q i
      | stAcquire i => d = dHook q i
      | stRun i => d = dRan q i
      | stFinish i res => d = dRan q i \/ d = dHook q i /\ r_Err res <> None
      | _ => d = dLanding q 0
      end
  end.

Definition doing_now r (d : Doing) : Prop :=
  match hr_run r with rLanding _ _ c => at_stage (cu_ql c) (cu_stage c) d | _ => d = dIdle end.

Definition protocol r : Prop := exists d, chronicle (hr_trace r) d /\ doing_now r d.

Definition hook_event (k : EventKind) (a : Act) : bool := match a with aNotify ev => bool_decide (e_Kind ev = k) | _ => false end.

(** How many hooks were announced, and how many reported. *)
Definition announced (tr : list Act) : nat := length (List.filter (hook_event EventHookStarted) tr).
Definition reported (tr : list Act) : nat := length (List.filter (hook_event EventHookFinished) tr).

Lemma chronicle_balanced tr d : chronicle tr d ->
  announced tr = (reported tr + match d with dHook _ _ | dRan _ _ => 1 | _ => 0 end)%nat.
Proof.
  unfold announced, reported. induction 1; try (destruct (stops res)); simpl in *; lia.
Qed.

Section Emitting.
Hypothesis Hemit : hp_Emit p = true.

Lemma runLanding_protocol now a c r c' r' d : runLanding p now a c r = Some (c', r') ->
  chronicle (hr_trace r) d -> at_stage (cu_ql c) (cu_stage c) d -> exists d', chronicle (hr_trace r') d' /\ at_stage (cu_ql c') (cu_stage c') d'.
Proof.
  unfold runLanding, notify, act. rewrite Hemit. cbv zeta. intros H Hc Ha.
  destruct (cu_stage c) eqn:Es, a; try discriminate H; cbn [at_stage] in Ha.
  - subst d. destruct (_ =? 0)%nat; [simplify_eq; exists (dOver (cu_ql c)); split; [by eapply c_over|done]|].
    destruct (rr_Recovered _) eqn:Er; simplify_eq.
    + exists (dOver (cu_ql c)). split; [by apply c_skip|done].
    + exists (dLanding (cu_ql c) 0). by split.
  - destruct Ha as [Hr ->]. simplify_eq. exists (dLanding (cu_ql c) 0). by split.
  - destruct Ha as [Hr ->]. simplify_eq. exists (dOver (cu_ql c)). split; [by eapply c_over|done].
  - destruct Ha as [Hr ->]. simplify_eq. exists (dLanding (cu_ql c) 0). split; [done|]. cbn. by destruct (hp_HistoryMtimes p).
  - destruct Ha as [Hr ->]. simplify_eq. exists (dOver (cu_ql c)). split; [by eapply c_over|done].
  - destruct Ha as [Hr ->]. simplify_eq. exists (dLanding (cu_ql c) 0). by split.
  - destruct Ha as [Hr ->]. simplify_eq. exists (dOver (cu_ql c)). split; [by eapply c_over|done].
  - destruct Ha as [Hr ->]. destruct (hooksOf p (cu_ql c) !! i) as [h|] eqn:Eh;
      [destruct (cancelled c r)|]; simplify_eq; [by exists (dOver (cu_ql c)); split; [eapply c_over|]| |by exists (dOver (cu_ql c)); split; [eapply c_over|]].
    exists (dHook (cu_ql c) i). split; [by apply c_announce|done].
  - destruct Ha as [Hr ->]. destruct (hooksOf p (cu_ql c) !! i) as [h|] eqn:Eh; [|done]. simplify_eq.
    exists (dRan (cu_ql c) i). split; [by apply c_exec|done].
  - destruct Ha as [Hr ->]. destruct (hooksOf p (cu_ql c) !! i) as [h|] eqn:Eh; [|done]. destruct (cancelled c r); [|done]. simplify_eq.
    exists (dHook (cu_ql c) i). split; [done|]. split; [done|]. by right.
  - destruct Ha as [Hr ->]. simplify_eq. exists (dRan (cu_ql c) i). split; [done|]. split; [done|]. by left.
  - destruct Ha as [Hr Hd]. destruct (hooksOf p (cu_ql c) !! i) as [h|] eqn:Eh; [|done].
    destruct (match r_Err res with Some _ => _ | None => _ end) as [detail sup] eqn:Ed.
    assert (r_Err res = None -> detail = "") as Hdet by (intros E; rewrite E in Ed; by injection Ed as <- <-).
    destruct Hd as [->|[-> Herr]].
    + pose proof (c_finish now (cu_ql c) i h res detail _ Hc Eh Hdet) as Hf. destruct (stops res); simplify_eq; eexists; (split; [exact Hf|done]).
    + assert (stops res = true) as Hs by (unfold stops; destruct (r_Err res); [apply orb_true_r|done]). rewrite Hs in H. simplify_eq.
      exists (dOver (cu_ql c)). split; [by eapply c_refused|done].
Qed.

Lemma protocol_still r r' : protocol r -> hr_trace r' = hr_trace r -> hr_run r' = hr_run r -> protocol r'.
Proof. intros (d & H & Hd) Et Er. exists d. unfold doing_now in *. by rewrite Et, Er. Qed.

Lemma step_protocol r l r' : step p r l = Some r' -> protocol r -> protocol r'.
Proof.
  destruct l as [tid ev err|tid|tid|tid t| | |ch| |now a| |]; cbn [step]; intros H Hok.
  - unfold Emit in H. cbv zeta in H. repeat case_match; simplify_eq; try done.
    all: rewrite ?releaseSources_eq; unfold act.
    all: try (by eapply protocol_still).
    all: destruct Hok as (d & Hc & Hd); exists d; (split; [by apply c_accept|exact Hd]).
  - unfold wake in H. repeat case_match; simplify_eq; by eapply protocol_still.
  - unfold send in H. cbv zeta in H. repeat case_match; simplify_eq; by eapply protocol_still.
  - unfold CancelCurrent in H. repeat case_match; simplify_eq; by eapply protocol_still.
  - injection H as <-. by eapply protocol_still.
  - injection H as <-. by eapply protocol_still.
  - destruct Hok as (d & Hc & Hd). unfold doing_now in Hd. assert (hr_run r = rIdle) as Hi by (unfold RunSelect in H; by destruct (hr_run r)).
    rewrite Hi in Hd. subst d.
    assert (r' = stopRun r \/ exists dr, r' = startBatch p dr r) as [->|(dr & ->)].
    { unfold RunSelect in H. rewrite Hi in H. destruct ch; repeat case_match; simplify_eq; eauto. }
    + rewrite stopRun_eq. exists dIdle. split; [by apply c_abandon|done].
    + pose proof (startBatch_eq dr r) as E. destruct (keepNewest _ _ _ 0 _) as [out dropped]. rewrite E. exists dIdle. split; [|done].
      cbn. clear E. rewrite <- map_rev. induction (rev dropped) as [|x l IH]; [done|]. by apply c_coalesce.
  - unfold nextLanding in H. destruct (hr_run r) as [|dr todo| |] eqn:Er; try discriminate H.
    destruct Hok as (d & Hc & Hd). unfold doing_now in Hd. rewrite Er in Hd. subst d.
    assert (protocol (endBatch dr todo r)) as Ke.
    { rewrite endBatch_eq. cbv zeta. destruct dr; [rewrite stopRun_eq|]; exists dIdle; (split; [|done]); cbn;
        destruct todo; repeat apply c_abandon; done. }
    destruct todo as [|q todo]; [by injection H as <-|]. destruct (hr_ctx r); injection H as <-; [done|].
    exists (dLanding q 0). unfold execLanding, act. cbv zeta. split; [destruct (String.eqb _ _); by apply c_start|].
    unfold doing_now. by destruct (String.eqb _ _).
  - destruct (hr_run r) as [| |dr todo c|] eqn:Er; try discriminate H. destruct Hok as (d & Hc & Hd). unfold doing_now in Hd. rewrite Er in Hd.
    destruct (runLanding p now a c r) as [[c' r1]|] eqn:E; [|done]. injection H as <-.
    destruct (runLanding_protocol _ _ _ _ _ _ _ E Hc Hd) as (d' & Hc' & Hd'). by exists d'.
  - destruct (hr_run r) as [| |dr todo c|] eqn:Er; try discriminate H. destruct Hok as (d & Hc & Hd). unfold doing_now in Hd. rewrite Er in Hd.
    destruct (monitorStep c r) as [[c' r1]|] eqn:E; [|done]. injection H as <-. apply monitorStep_frame in E as (F & Et & _ & Est).
    exists d. unfold doing_now. cbn. by rewrite Et, Est, (il_ql _ _ _ _ F).
  - destruct (hr_run r) as [| |dr todo c|] eqn:Er; try discriminate H. destruct Hok as (d & Hc & Hd). unfold doing_now in Hd. rewrite Er in Hd.
    unfold endLanding in H. exists dIdle.
    repeat case_match; simplify_eq; rewrite releaseSources_eq; unfold act, doing_now; (split; [|done]); cbn in Hd; subst d; by apply c_end.
Qed.

Lemma reachable_protocol r : reachable p r -> protocol r.
Proof. induction 1 as [|r l r' _ IH H]; [exists dIdle; split; [constructor|done]|by eapply step_protocol]. Qed.
End Emitting.

(** C22. The history of the runner, in every reachable state, follows the protocol of
    [chronicle]: landings are served one at a time; the hooks of a landing run in their
    configured order, each announced before it is handed to the executor and reported
    before the next is announced; none runs after one that failed, errored or got no
    slot; a recovered landing gets one notice and runs none. At any moment every hook
    that was announced has been reported, except the one in progress. *)
Theorem hooks_protocol r : hp_Emit p = true -> reachable p r ->
  exists d, chronicle (hr_trace r) d /\ doing_now r d /\
    announced (hr_trace r) = (reported (hr_trace r) + match d with dHook _ _ | dRan _ _ => 1 | _ => 0 end)%nat.
Proof.
  intros He H. destruct (reachable_protocol He r H) as (d & Hc & Hd). exists d. split_and!; [done|done|by apply chronicle_balanced].
Qed.

(** C23. No landing the runner accepted is lost: it waits, its hooks were started, a newer
    landing of its target superseded it where the policy of the target says so (one
    accepted later, which is itself accounted for), or the runner stopped with it, and
    it does so only when its context ended or a drain completed. Landings are started in
    the order in which they were accepted, and the sources of a landing that waits or
    runs are never given back. Once the runner has stopped, every lease it took is given
    back. *)
Theorem landings_accounted r : reachable p r ->
  (forall q, aAccept q ∈ hr_trace r -> q ∈ waiting r \/ aStart q ∈ hr_trace r \/
     (exists newer, aCoalesce q newer ∈ hr_trace r) \/ (exists l, aAbandon l ∈ hr_trace r /\ q ∈ l)) /\
  (forall q newer, aCoalesce q newer ∈ hr_trace r -> collapses p (target q) = true /\ target newer = target q /\
     exists i j, (i < j)%nat /\ accepted (hr_trace r) !! i = Some q /\ accepted (hr_trace r) !! j = Some newer) /\
  (forall l, aAbandon l ∈ hr_trace r -> l <> [] -> hr_ctx r = true \/ hr_drained r = true) /\
  sublist (started (hr_trace r) ++ waiting r) (accepted (hr_trace r)) /\
  (forall q lease, q ∈ held r -> ql_lease q = Some lease -> lease ∉ hr_released r) /\
  (hr_run r = rDone -> forall lease, (lease < hr_leases r)%nat -> lease ∈ hr_released r).
Proof.
  intros H. destruct (reachable_history r H) as [H1 H2 H3 H4 _ H6]. destruct (reachable_leases r H) as [_ _ Hl].
  split_and!; try done.
  - intros q lease Hq El [_ Hn]%Hl. apply Hn, list_elem_of_omap. by exists q.
  - intros Hd lease Hlt. apply Hl. split; [done|]. unfold held, inHand. rewrite Hd, (H6 Hd). by intros ?%elem_of_nil.
Qed.

(** The calls from outside among the steps. *)
Definition call (l : Label) : bool := match l with lEmit _ _ _ | lCancel _ _ | lCtx | lDrain => true | _ => false end.

End Spec.

Lemma steps_reachable p r ls r' : reachable p r -> steps p r ls = Some r' -> reachable p r'.
Proof.
  revert r. induction ls as [|l ls IH]; intros r H E; cbn [steps] in E; [by injection E as <-|].
  destruct (step p r l) as [r1|] eqn:E1; [|done]. eapply IH; [eapply reach_step; [exact H|exact E1]|exact E].
Qed.

(** ** Witnesses *)

Definition demoParams : Params :=
  mkParams {["main" := [mkPostHook "deploy" ["make"; "deploy"]; mkPostHook "smoke" ["make"; "smoke"]]; "prod" := [mkPostHook "ship" ["ship"]]]}
    {["main" := PolicyCoalesce; "prod" := PolicyCancel]} false true "/var/log/gauntlet".

Definition demoLanding (t topic sha : string) : Event :=
  event EventLanded 0 t (zeroCandidate <| c_Topic := topic |> <| c_SHA := sha |>) "run" <| e_Record := Some zeroRunRecord |>.

(** Two landings wait for the same target: the newer is run, its second hook fails. *)
Definition demoSteps : list Label :=
  [lEmit 0 (demoLanding "main" "a" "1111") false; lEmit 1 (demoLanding "main" "b" "2222") false; lSelect chQueue; lNext; lWake 0; lWake 1;
   lLanding 5 anOk; lLanding 5 anOk; lLanding 5 anOk; lLanding 5 anOk; lLanding 5 anOk;
   lLanding 5 (anResult (zeroCheckResult <| r_Status := CheckPassed |>)); lLanding 6 anOk; lLanding 6 anOk; lLanding 7 anOk;
   lLanding 8 (anResult zeroCheckResult); lLanding 8 anOk; lEnd; lNext; lCtx; lSelect chCtx].

Definition demoEnd : Runner := match steps demoParams New demoSteps with Some r => r | None => New end.

Lemma demo_steps : steps demoParams New demoSteps = Some demoEnd.
Proof. vm_compute. reflexivity. Qed.

Lemma demo_reachable : reachable demoParams demoEnd.
Proof. eapply steps_reachable; [apply reach_new|apply demo_steps]. Qed.

Example demo_report : (announced (hr_trace demoEnd), reported (hr_trace demoEnd), length (accepted (hr_trace demoEnd)), length (started (hr_trace demoEnd)))
  = (2, 2, 2, 1)%nat.
Proof. vm_compute. reflexivity. Qed.

Lemma hooks_protocol_witness : exists d, chronicle demoParams (hr_trace demoEnd) d /\ doing_now demoEnd d /\
  announced (hr_trace demoEnd) = (reported (hr_trace demoEnd) + match d with dHook _ _ | dRan _ _ => 1 | _ => 0 end)%nat.
Proof. exact (hooks_protocol demoParams demoEnd eq_refl demo_reachable). Defined.

Lemma landings_accounted_witness : sublist (started (hr_trace demoEnd) ++ waiting demoEnd) (accepted (hr_trace demoEnd)).
Proof. exact (proj1 (proj2 (proj2 (proj2 (landings_accounted demoParams demoEnd demo_reachable))))). Defined.

