(* ===== verification/TestReport.v ===== *)
(** Test reports (src/internal/testreport/report.go): which reports are valid,
    and what a rerun of failed tests may change in the report before it. *)
From S2P Require Import Prelude GoString Core Wire.

Open Scope string_scope.
Open Scope list_scope.
Open Scope Z_scope.

(** src/internal/testreport/report.go:16-16 [MaxBytes] *)
Definition MaxBytes : Z := 1048576.

(** src/internal/testreport/report.go:17-17 [MaxTests] *)
Definition MaxTests : Z := 10000.

(** src/internal/testreport/report.go:55-70 [Validate] The loop. *)
Fixpoint validateTests (seen : gset string) (total : Z) (tests : list TestCase) : option string :=
  match tests with
  | [] => None
  | t :: rest =>
      let total := total + strlen (tc_ID t) + strlen (tc_Message t) in
      if 2 * MaxBytes <? total then Some "test report is too large"
      else if String.eqb (TrimSpace (tc_ID t)) "" || (2048 <? strlen (tc_ID t)) || bool_decide (tc_ID t ∈ seen)
              || (8192 <? strlen (tc_Message t))
      then Some ("invalid or duplicate test identity " +:+ quoted (tc_ID t))
      else if negb (existsb (String.eqb (tc_Status t)) ["passed"; "failed"; "skipped"])
      then Some ("test " +:+ quoted (tc_ID t) +:+ ": invalid status")
      else validateTests ({[tc_ID t]} ∪ seen) total rest
  end.

(** src/internal/testreport/report.go:51-71 [Validate] *)
Definition Validate (tests : list TestCase) : option string :=
  let n := Z.of_nat (length tests) in
  if (n =? 0) || (MaxTests <? n) then Some ("test report must contain 1.." +:+ pretty MaxTests +:+ " tests")
  else validateTests ∅ 0 tests.

(** src/internal/testreport/report.go:186-195 [Failed] *)
Definition Failed (tests : list TestCase) : list string :=
  sort_by String.ltb (map tc_ID (List.filter (fun t => String.eqb (tc_Status t) "failed") tests)).

(** src/internal/testreport/report.go:203-206 [MergeRerun] *)
Definition testsByID (tests : list TestCase) : gmap string TestCase :=
  fold_left (fun m t => <[tc_ID t := t]> m) tests ∅.

(** src/internal/testreport/report.go:207-212 [MergeRerun] The first requested test the rerun did not execute. *)
Definition notExecuted (byID : gmap string TestCase) (requested : list string) : option string :=
  List.find (fun id => match byID !! id with Some t => String.eqb (tc_Status t) "skipped" | None => true end) requested.

(** src/internal/testreport/report.go:213-219 [MergeRerun] Replacing what was rerun; the second component is what is left of [byID]. *)
Fixpoint replaceTests (byID : gmap string TestCase) (previous : list TestCase) : list TestCase * gmap string TestCase :=
  match previous with
  | [] => ([], byID)
  | t :: rest =>
      match byID !! tc_ID t with
      | Some r => let '(l, m) := replaceTests (delete (tc_ID t) byID) rest in (r :: l, m)
      | None => let '(l, m) := replaceTests byID rest in (t :: l, m)
      end
  end.

(** src/internal/testreport/report.go:199-226 [MergeRerun] *)
Definition MergeRerun (previous rerun : list TestCase) (requested : list string) : list TestCase * option string :=
  match Validate rerun with
  | Some err => (previous, Some err)
  | None =>
      let byID := testsByID rerun in
      match notExecuted byID requested with
      | Some id => (previous, Some ("retry did not execute failed test " +:+ quoted id))
      | None =>
          let '(merged, remaining) := replaceTests byID previous in
          let merged := merged ++ List.filter (fun t => isSome (remaining !! tc_ID t)) rerun in
          (merged, Validate merged)
      end
  end.

(** ** Correctness *)

Lemma validateTests_ids seen total tests :
  validateTests seen total tests = None ->
  NoDup (tc_ID <$> tests) /\ (forall t, t ∈ tests -> (tc_ID t ∉ seen) /\ (tc_Status t = "passed" \/ tc_Status t = "failed" \/ tc_Status t = "skipped")).
Proof.
  revert seen total. induction tests as [|t tests IH]; intros seen total; cbn [validateTests].
  - intros _. split; [constructor|]. by intros t ?%elem_of_nil.
  - cbv zeta. destruct (_ <? _); [done|]. destruct (String.eqb _ _ || _ || _ || _) eqn:E1; [done|].
    destruct (negb _) eqn:E2; [done|]. intros H. destruct (IH _ _ H) as [Hnd Hall].
    apply orb_false_elim in E1 as [[[_ _]%orb_false_elim E1]%orb_false_elim _]. apply bool_decide_eq_false in E1.
    apply negb_false_iff, existsb_exists in E2 as (st & Hst & E2%String.eqb_eq). split.
    + cbn. constructor; [|done]. intros (u & Eu & Hu)%list_elem_of_fmap. destruct (Hall u Hu) as [Hn _]. set_solver.
    + intros u [->|Hu]%elem_of_cons; [split; [done|]|].
      * simpl in Hst. rewrite E2. naive_solver.
      * destruct (Hall u Hu) as [Hn ?]. split; [set_solver|done].
Qed.

Lemma Validate_ids tests :
  Validate tests = None ->
  NoDup (tc_ID <$> tests) /\ forall t, t ∈ tests -> tc_Status t = "passed" \/ tc_Status t = "failed" \/ tc_Status t = "skipped".
Proof.
  unfold Validate. destruct (_ || _); [done|]. intros [H1 H2]%validateTests_ids. split; [done|]. intros t Ht. by apply H2.
Qed.

Lemma testsByID_lookup tests t : NoDup (tc_ID <$> tests) -> t ∈ tests -> testsByID tests !! tc_ID t = Some t.
Proof.
  unfold testsByID. generalize (∅ : gmap string TestCase). induction tests as [|u tests IH]; intros m Hnd Ht; [by apply elem_of_nil in Ht|].
  cbn in *. apply NoDup_cons in Hnd as [Hu Hnd]. apply elem_of_cons in Ht as [->|Ht]; [|by apply IH].
  clear IH Hnd. assert (forall m' : gmap string TestCase, m' !! tc_ID u = Some u -> fold_left (fun m t => <[tc_ID t := t]> m) tests m' !! tc_ID u = Some u) as H.
  { induction tests as [|v tests IH]; intros m' Hm; cbn; [done|]. apply IH.
    - intros Hx. apply Hu. cbn. by right.
    - rewrite lookup_insert_ne; [done|]. intros E. apply Hu. cbn. rewrite E. by left. }
  apply H. by rewrite lookup_insert_eq.
Qed.

Lemma testsByID_in tests id t : testsByID tests !! id = Some t -> t ∈ tests /\ tc_ID t = id.
Proof.
  unfold testsByID. assert (forall m : gmap string TestCase, (forall id t, m !! id = Some t -> t ∈ tests /\ tc_ID t = id) ->
    forall l, (forall x, x ∈ l -> x ∈ tests) -> fold_left (fun m t => <[tc_ID t := t]> m) l m !! id = Some t -> t ∈ tests /\ tc_ID t = id) as H.
  { intros m Hm l. revert m Hm. induction l as [|u l IH]; intros m Hm Hl; cbn; [by apply Hm|]. apply IH.
    - intros id' t' [[<- <-]|[_ E]]%lookup_insert_Some; [split; [apply Hl; by left|done]|by apply Hm].
    - intros x Hx. apply Hl. by right. }
  apply H; [|done]. intros id' t' E. by apply lookup_empty_Some in E.
Qed.

(** What replacing does, test by test. *)
Definition updated (byID : gmap string TestCase) (t : TestCase) : TestCase :=
  match byID !! tc_ID t with Some r => r | None => t end.

Lemma replaceTests_spec byID previous :
  NoDup (tc_ID <$> previous) ->
  replaceTests byID previous =
    (updated byID <$> previous, filter (fun kv => kv.1 ∉ (tc_ID <$> previous)) byID).
Proof.
  revert byID. induction previous as [|t previous IH]; intros byID Hnd; cbn [replaceTests].
  - cbn. f_equal. symmetry. apply map_filter_id. intros k x _. simpl. by intros ?%elem_of_nil.
  - cbn in Hnd. apply NoDup_cons in Hnd as [Ht Hnd].
    assert (forall m : gmap string TestCase, (forall u, u ∈ previous -> m !! tc_ID u = byID !! tc_ID u) -> updated m <$> previous = updated byID <$> previous) as Hu.
    { intros m Hm. apply list_fmap_ext. intros i u Hi. unfold updated. rewrite Hm; [done|]. by eapply list_elem_of_lookup_2. }
    destruct (byID !! tc_ID t) as [r|] eqn:E.
    + rewrite IH by done. cbn. unfold updated at 2. rewrite E. f_equal.
      * f_equal. apply Hu. intros u Hin. rewrite lookup_delete_ne; [done|]. intros Eq. apply Ht. rewrite Eq. by apply list_elem_of_fmap_2.
      * apply map_eq. intros k. apply option_eq. intros x. rewrite !map_lookup_filter_Some. simpl.
        rewrite lookup_delete_Some, elem_of_cons. naive_solver.
    + rewrite IH by done. cbn. unfold updated at 2. rewrite E. f_equal. apply map_eq. intros k. apply option_eq. intros x.
      rewrite !map_lookup_filter_Some. simpl. rewrite elem_of_cons. naive_solver congruence.
Qed.

Lemma Failed_nil tests : Failed tests = [] <-> forall t, t ∈ tests -> tc_Status t <> "failed".
Proof.
  unfold Failed. split.
  - intros H t Ht Es. pose proof (sort_by_Permutation String.ltb (map tc_ID (List.filter (fun t => String.eqb (tc_Status t) "failed") tests))) as P.
    rewrite H in P. apply Permutation_nil in P. apply map_eq_nil in P.
    assert (t ∈ List.filter (fun t => String.eqb (tc_Status t) "failed") tests) as Hin
      by (apply list_elem_of_In, filter_In; split; [by apply list_elem_of_In|by rewrite Es]).
    rewrite P in Hin. by apply elem_of_nil in Hin.
  - intros H. destruct (List.filter _ tests) as [|t l] eqn:E; [done|]. exfalso.
    assert (In t (List.filter (fun t => String.eqb (tc_Status t) "failed") tests)) as Hin by (rewrite E; by left).
    apply filter_In in Hin as [Hin Es%String.eqb_eq]. by apply (H t); [apply list_elem_of_In|].
Qed.

Lemma replaceTests_ids byID previous l m :
  (forall id t, byID !! id = Some t -> tc_ID t = id) -> replaceTests byID previous = (l, m) -> tc_ID <$> l = tc_ID <$> previous.
Proof.
  intros Hid. revert byID Hid l m. induction previous as [|t previous IH]; intros byID Hid l m; cbn [replaceTests]; [by intros [= <- _]|].
  destruct (byID !! tc_ID t) as [r|] eqn:E.
  - destruct (replaceTests (delete (tc_ID t) byID) previous) as [l' m'] eqn:E'. intros [= <- _]. cbn.
    rewrite (IH _ ltac:(intros id x [_ Hx]%lookup_delete_Some; by apply Hid) _ _ E'), (Hid _ _ E). done.
  - destruct (replaceTests byID previous) as [l' m'] eqn:E'. intros [= <- _]. cbn. by rewrite (IH _ Hid _ _ E').
Qed.

(** The merged report: the rerun, and what it says nothing about. *)
Lemma merged_elem previous rerun t :
  NoDup (tc_ID <$> rerun) ->
  t ∈ (updated (testsByID rerun) <$> previous) ++
      List.filter (fun t => isSome (filter (fun kv : string * TestCase => kv.1 ∉ tc_ID <$> previous) (testsByID rerun) !! tc_ID t)) rerun <->
  t ∈ rerun \/ (t ∈ previous /\ (tc_ID t ∉ tc_ID <$> rerun)).
Proof.
  intros Hnd. assert (forall t, t ∈ rerun -> testsByID rerun !! tc_ID t = Some t) as Hby by (intros u; by apply testsByID_lookup).
  rewrite elem_of_app, list_elem_of_fmap, list_elem_of_In, filter_In, <- list_elem_of_In. split.
  - intros [(u & -> & Hu)|[Ht _]]; [|by left]. unfold updated. destruct (testsByID rerun !! tc_ID u) as [r|] eqn:E.
    + left. by apply testsByID_in in E as [? _].
    + right. split; [done|]. intros (v & Ev' & Hv)%list_elem_of_fmap. rewrite Ev', (Hby v Hv) in E. done.
  - intros [Ht|[Ht Hn]].
    + destruct (decide (tc_ID t ∈ tc_ID <$> previous)) as [Hp|Hp].
      * left. apply list_elem_of_fmap in Hp as (u & Eu & Hu). exists u. split; [|done]. unfold updated. by rewrite <- Eu, (Hby t Ht).
      * right. split; [done|].
        assert (filter (fun kv : string * TestCase => kv.1 ∉ tc_ID <$> previous) (testsByID rerun) !! tc_ID t = Some t) as ->; [|done].
        apply map_lookup_filter_Some. by split; [apply Hby|].
    + left. exists t. split; [|done]. unfold updated. destruct (testsByID rerun !! tc_ID t) as [r|] eqn:E; [|done].
      exfalso. apply Hn. apply testsByID_in in E as [Hr Er]. rewrite <- Er. by apply list_elem_of_fmap_2.
Qed.

Lemma notExecuted_None rerun requested id :
  (forall t, t ∈ rerun -> tc_Status t = "passed" \/ tc_Status t = "failed" \/ tc_Status t = "skipped") ->
  notExecuted (testsByID rerun) requested = None -> id ∈ requested ->
  exists t, t ∈ rerun /\ tc_ID t = id /\ (tc_Status t = "passed" \/ tc_Status t = "failed").
Proof.
  intros Hst En Hid%list_elem_of_In. pose proof (find_none _ _ En id Hid) as Hx. simpl in Hx.
  destruct (testsByID rerun !! id) as [t|] eqn:E; [|done]. apply testsByID_in in E as [Ht <-]. exists t.
  split_and!; [done|done|]. destruct (Hst t Ht) as [?|[?|Es]]; [auto|auto|]. by rewrite Es in Hx.
Qed.

(** A merge that succeeds has every requested test executed again. *)
Lemma MergeRerun_executed previous rerun requested merged id :
  MergeRerun previous rerun requested = (merged, None) -> id ∈ requested ->
  exists t, t ∈ rerun /\ tc_ID t = id /\ (tc_Status t = "passed" \/ tc_Status t = "failed").
Proof.
  unfold MergeRerun. destruct (Validate rerun) eqn:Ev; [done|]. cbv zeta.
  destruct (notExecuted _ _) eqn:En; [done|]. intros _. apply notExecuted_None; [|done]. by apply Validate_ids.
Qed.

(** A rerun cannot launder a failure. When merging succeeds, the merged
    report lists the earlier tests in order and then the new ones, each test
    once, with the rerun's result where the rerun has one and the earlier result
    otherwise; every requested test was really executed again, a skip does not
    count. So when all earlier failures were requested, the merged report is free of
    failures exactly when the rerun is; and when merging fails, for a report that is
    invalid or misses a requested test, the earlier report stands. *)
Theorem merge_rerun_covers previous rerun requested merged err :
  MergeRerun previous rerun requested = (merged, err) ->
  match err with
  | None =>
      NoDup (tc_ID <$> merged) /\ tc_ID <$> take (length previous) merged = tc_ID <$> previous /\
      (forall t, t ∈ merged <-> t ∈ rerun \/ (t ∈ previous /\ (tc_ID t ∉ tc_ID <$> rerun))) /\
      (forall id, id ∈ requested -> exists t, t ∈ rerun /\ tc_ID t = id /\ (tc_Status t = "passed" \/ tc_Status t = "failed")) /\
      ((forall t, t ∈ previous -> tc_Status t = "failed" -> tc_ID t ∈ requested) -> Failed merged = [] <-> Failed rerun = [])
  | Some _ => merged = previous \/ Validate merged <> None
  end.
Proof.
  unfold MergeRerun. destruct (Validate rerun) eqn:Ev; [intros [= <- <-]; by left|]. cbv zeta.
  destruct (Validate_ids rerun Ev) as [Hnd Hst].
  destruct (notExecuted (testsByID rerun) requested) as [id|] eqn:En; [intros [= <- <-]; by left|].
  destruct (replaceTests (testsByID rerun) previous) as [l remaining] eqn:Er. set (m := l ++ _). intros [= <- <-].
  destruct (Validate m) as [e|] eqn:Em; [right; congruence|]. destruct (Validate_ids m Em) as [Hnm _].
  pose proof (replaceTests_ids _ _ _ _ (fun id t E => proj2 (testsByID_in rerun id t E)) Er) as Hids.
  assert (NoDup (tc_ID <$> previous)) as Hnp.
  { rewrite <- Hids. unfold m in Hnm. rewrite fmap_app in Hnm. by apply NoDup_app in Hnm as [? _]. }
  rewrite replaceTests_spec in Er by done. injection Er as <- <-.
  pose proof (fun t => merged_elem previous rerun t Hnd) as Hm. fold m in Hm.
  assert (forall id, id ∈ requested -> exists t, t ∈ rerun /\ tc_ID t = id /\ (tc_Status t = "passed" \/ tc_Status t = "failed")) as Hreq.
  { intros id. by apply notExecuted_None. }
  split_and!; [done| |done|done|].
  - unfold m. rewrite take_app_length' by (by rewrite length_fmap). exact Hids.
  - intros Hcov. rewrite !Failed_nil. split; intros H t Ht Es.
    + apply (H t); [apply Hm; by left|done].
    + apply Hm in Ht as [Ht|[Ht Hn]]; [by apply (H t)|]. destruct (Hreq _ (Hcov t Ht Es)) as (u & Hu & Eu & _).
      apply Hn. rewrite <- Eu. by apply list_elem_of_fmap_2.
Qed.

Lemma merge_rerun_covers_witness :
  let previous := [mkTestCase "a" "passed" ""; mkTestCase "b" "failed" "x"; mkTestCase "c" "skipped" ""] in
  MergeRerun previous [mkTestCase "b" "passed" ""] ["b"] =
    ([mkTestCase "a" "passed" ""; mkTestCase "b" "passed" ""; mkTestCase "c" "skipped" ""], None) /\
  NoDup (tc_ID <$> [mkTestCase "a" "passed" ""; mkTestCase "b" "passed" ""; mkTestCase "c" "skipped" ""]) /\
  exists err, MergeRerun previous [mkTestCase "b" "skipped" ""] ["b"] = (previous, Some err).
Proof.
  cbv zeta. assert (MergeRerun [mkTestCase "a" "passed" ""; mkTestCase "b" "failed" "x"; mkTestCase "c" "skipped" ""]
    [mkTestCase "b" "passed" ""] ["b"] = ([mkTestCase "a" "passed" ""; mkTestCase "b" "passed" ""; mkTestCase "c" "skipped" ""], None)) as E
    by (vm_compute; reflexivity).
  split; [exact E|]. split; [exact (proj1 (merge_rerun_covers _ _ _ _ _ E))|]. eexists. vm_compute. reflexivity.
Defined.
