(* ===== verification/TestParse.v ===== *)
(** Reading test reports (src/internal/testreport/report.go, [Parse] and [parseXML]).
    The decoders of encoding/json and encoding/xml are the Standard Library's: what
    they make of the bytes is given - the decoded value, the tokens one after another -
    and [DecodeElement] is written out over the tokens for the structures the source
    decodes into. *)
From S2P Require Import Prelude GoString Core Wire TestReport.

Open Scope string_scope.
Open Scope list_scope.
Open Scope Z_scope.

(** ** encoding/xml *)

(** A token with the local names of its element and attributes; [OtherToken] is a
    comment, a processing instruction or a directive. *)
Inductive Token :=
  | StartElement (name : string) (attrs : list (string * string))
  | EndElement (name : string)
  | CharData (text : string)
  | OtherToken.

(** What [decoder.Token] yields, and the error it ends with; none is [io.EOF]. *)
Record Decoder := mkDecoder { x_tokens : list Token; x_err : option string }.

(** What a [json.Decoder] makes of a report: the first value, and whether a second
    [Decode] answered anything but [io.EOF]. *)
Record JSONDecoder := mkJSONDecoder { jd_report : string + list TestCase; jd_trailing : bool }.

(** The tokens up to the end of an element whose start was read, and those after it. *)
Fixpoint elementBody (nested : nat) (l : list Token) : option (list Token * list Token) :=
  let keep t (r : option (list Token * list Token)) := option_map (fun p => (t :: p.1, p.2)) r in
  match l with
  | [] => None
  | EndElement n :: l => match nested with O => Some ([], l) | S k => keep (EndElement n) (elementBody k l) end
  | StartElement n a :: l => keep (StartElement n a) (elementBody (S nested) l)
  | t :: l => keep t (elementBody nested l)
  end.

(** An element inside another: its name, attributes and body. *)
Record element := mkElement { el_name : string; el_attrs : list (string * string); el_body : list Token }.

Fixpoint elements (fuel : nat) (l : list Token) : list element :=
  match fuel, l with
  | S fuel, StartElement n a :: l =>
      match elementBody 0 l with
      | Some (b, l) => mkElement n a b :: elements fuel l
      | None => []
      end
  | S fuel, _ :: l => elements fuel l
  | _, _ => []
  end.

Definition children (name : string) (l : list Token) : list element :=
  List.filter (fun k => String.eqb (el_name k) name) (elements (length l) l).

(** The character data of an element itself. *)
Fixpoint directText (nested : nat) (l : list Token) : string :=
  match l with
  | [] => ""
  | StartElement _ _ :: l => directText (S nested) l
  | EndElement _ :: l => directText (pred nested) l
  | CharData s :: l => match nested with O => s +:+ directText 0 l | S _ => directText nested l end
  | OtherToken :: l => directText nested l
  end.

(** A field tagged [name,attr]: each attribute of that name sets it. *)
Definition attrField (name old : string) (attrs : list (string * string)) : string :=
  fold_left (fun v a => if String.eqb a.1 name then a.2 else v) attrs old.

(** A pointer to a structure with a [message] attribute and character data: each
    element of that name is decoded into it. *)
Definition noteField (name : string) (body : list Token) : option (string * string) :=
  fold_left (fun acc k => Some (attrField "message" (match acc with Some (m, _) => m | None => "" end) (el_attrs k), directText 0 (el_body k)))
    (children name body) None.

(** ** Reading the report *)

(** src/internal/testreport/report.go:177-184 [attr] *)
Definition attr (attrs : list (string * string)) (name : string) : string :=
  match List.find (fun a => String.eqb a.1 name) attrs with Some a => a.2 | None => "" end.

(** The variables of the loop. *)
Record scan := mkScan {
  sc_tests : list TestCase;
  sc_suites : list string;
  sc_depth : Z;
  sc_roots : Z;
  sc_total : Z;
}.

#[export] Instance scan_eta : Eta scan := fun s =>
  mkScan (sc_tests s) (sc_suites s) (sc_depth s) (sc_roots s) (sc_total s).

(** [strings.Join(l, "/")] *)
Fixpoint joinSlash (l : list string) : string :=
  match l with
  | [] => ""
  | [s] => s
  | s :: l => s +:+ "/" +:+ joinSlash l
  end.

(** src/internal/testreport/report.go:102-136 [parseXML] A test case of JUnit. *)
Definition junitCase (suites : list string) (attrs : list (string * string)) (body : list Token) : string + TestCase :=
  let name := attrField "name" "" attrs in
  if String.eqb name "" then inl "testcase has no name"
  else
    let test := mkTestCase (joinSlash suites +:+ "::" +:+ attrField "classname" "" attrs +:+ "::" +:+ name) "passed" "" in
    let test := match children "skipped" body with [] => test | _ => mkTestCase (tc_ID test) "skipped" (tc_Message test) end in
    let noted f test :=
      match noteField f body with
      | Some (message, text) => mkTestCase (tc_ID test) "failed" (TrimSpace (message +:+ " " +:+ text))
      | None => test
      end in
    inr (noted "error" (noted "failure" test)).

(** A field tagged [Output>ErrorInfo>Message]: the last such element sets it. *)
Definition messageField (body : list Token) : string :=
  let inside name l := concat (map (fun k => children name (el_body k)) l) in
  fold_left (fun _ k => directText 0 (el_body k)) (inside "Message" (inside "ErrorInfo" (children "Output" body))) "".

(** src/internal/testreport/report.go:137-157 [parseXML] A result of TRX. *)
Definition trxResult (attrs : list (string * string)) (body : list Token) : string + TestCase :=
  let done status := inr (mkTestCase (attr attrs "testName") status (TrimSpace (messageField body))) in
  let outcome := attr attrs "outcome" in
  if String.eqb outcome "Passed" then done "passed"
  else if existsb (String.eqb outcome) ["Failed"; "Error"; "Timeout"; "Aborted"] then done "failed"
  else if existsb (String.eqb outcome) ["NotExecuted"; "Inconclusive"; "Skipped"] then done "skipped"
  else inl "unsupported TRX outcome".

(** src/internal/testreport/report.go:86-157 [parseXML] A start element; an element
    that is a test is read to its end. *)
Definition onStart (format name : string) (attrs : list (string * string)) (rest : list Token) (err : option string) (s : scan) :
    string + (list Token * scan) :=
  let s := if sc_depth s =? 0 then s <| sc_roots ::= Z.succ |> else s in
  if (sc_depth s =? 0) && (1 <? sc_roots s) then inl "multiple XML roots"
  else
    let s := s <| sc_depth ::= Z.succ |> in
    if 64 <? sc_depth s then inl "XML nesting exceeds 64"
    else
      let junit := String.eqb format "junit" in
      let s := if junit && String.eqb name "testsuite" then s <| sc_suites ::= fun l => l ++ [attr attrs "name"] |> else s in
      let read (f : list Token -> string + TestCase) : string + (list Token * scan) :=
        match elementBody 0 rest with
        | None => inl (default "EOF" err)
        | Some (body, rest) =>
            match f body with
            | inl e => inl e
            | inr test => inr (rest, s <| sc_depth ::= Z.pred |> <| sc_tests ::= fun l => l ++ [test] |>)
            end
        end in
      if junit && String.eqb name "testcase" then read (junitCase (sc_suites s) attrs)
      else if String.eqb format "trx" && String.eqb name "UnitTestResult" then read (trxResult attrs)
      else inr (rest, s).

(** src/internal/testreport/report.go:158-162 [parseXML] An end element. *)
Definition onEnd (format name : string) (s : scan) : scan :=
  let s := s <| sc_depth ::= Z.pred |> in
  if String.eqb format "junit" && String.eqb name "testsuite" then s <| sc_suites ::= @removelast string |> else s.

(** src/internal/testreport/report.go:164-173 [parseXML] What holds after each token;
    [previous] tests were read before it. *)
Definition checkBounds (previous : nat) (s : scan) : string + scan :=
  let size t := strlen (tc_ID t) + strlen (tc_Message t) in
  let s' :=
    match last (sc_tests s) with
    | Some test =>
        if (previous <? length (sc_tests s))%nat then
          let total := sc_total s + size test in
          if (2 * MaxBytes <? total) || (2048 <? strlen (tc_ID test)) || (8192 <? strlen (tc_Message test))
          then inl "test report identity or message exceeds bounds"
          else inr (s <| sc_total := total |>)
        else inr s
    | None => inr s
    end in
  match s' with
  | inl e => inl e
  | inr s => if MaxTests <? Z.of_nat (length (sc_tests s)) then inl "too many tests" else inr s
  end.

(** src/internal/testreport/report.go:78-175 [parseXML] The loop: each turn takes a token
    or a whole test. *)
Fixpoint parseTokens (fuel : nat) (format : string) (l : list Token) (err : option string) (s : scan) : string + list TestCase :=
  match fuel, l with
  | _, [] => match err with Some e => inl e | None => inr (sc_tests s) end
  | O, _ => inl ""
  | S fuel, t :: rest =>
      let next : string + (list Token * scan) :=
        match t with
        | StartElement name attrs => onStart format name attrs rest err s
        | EndElement name => inr (rest, onEnd format name s)
        | _ => inr (rest, s)
        end in
      match next with
      | inl e => inl e
      | inr (rest, s') =>
          match checkBounds (length (sc_tests s)) s' with
          | inl e => inl e
          | inr s' => parseTokens fuel format rest err s'
          end
      end
  end.

(** src/internal/testreport/report.go:73-176 [parseXML] *)
Definition parseXML (format : string) (d : Decoder) : string + list TestCase :=
  parseTokens (length (x_tokens d)) format (x_tokens d) (x_err d) (mkScan [] [] 0 0 0).

Section Parse.
Context (newJSON : string -> JSONDecoder) (newXML : string -> Decoder).

(** src/internal/testreport/report.go:19-49 [Parse] *)
Definition Parse (format data : string) : string + list TestCase :=
  if (strlen data =? 0) || (MaxBytes <? strlen data) then inl ("test report must contain 1.." +:+ pretty MaxBytes +:+ " bytes")
  else if negb (existsb (String.eqb format) ["json"; "junit"; "trx"]) then inl ("unsupported test report format " +:+ quoted format)
  else
    let read :=
      if String.eqb format "json" then
        match jd_report (newJSON data) with
        | inl e => inl e
        | inr tests => if jd_trailing (newJSON data) then inl "trailing test report data" else inr tests
        end
      else parseXML format (newXML data) in
    match read with
    | inl e => inl ("invalid " +:+ format +:+ " test report: " +:+ e)
    | inr tests => match Validate tests with Some e => inl e | None => inr tests end
    end.

(** What is read is valid. *)
Lemma Parse_valid format data tests : Parse format data = inr tests -> Validate tests = None.
Proof.
  unfold Parse. repeat case_match; intros; simplify_eq; done.
Qed.

End Parse.

(** ** Documents *)

(** The parts of a JUnit document: suites within suites, cases, and other elements
    around or between them. *)
Inductive result := Passes | Skips | Fails (message text : string) | Errs (message text : string).

Inductive junit :=
  | JEnd
  | JSuite (name : string) (inner rest : junit)
  | JCase (class name : string) (r : result) (rest : junit)
  | JOther (name : string) (inner rest : junit).

Definition resultTokens (r : result) : list Token :=
  match r with
  | Passes => []
  | Skips => [StartElement "skipped" []; EndElement "skipped"]
  | Fails m t => [StartElement "failure" [("message", m)]; CharData t; EndElement "failure"]
  | Errs m t => [StartElement "error" [("message", m)]; CharData t; EndElement "error"]
  end.

(** How a document is written. *)
Fixpoint tokens (d : junit) : list Token :=
  match d with
  | JEnd => []
  | JSuite n inner rest => StartElement "testsuite" [("name", n)] :: tokens inner ++ EndElement "testsuite" :: tokens rest
  | JCase c n r rest => StartElement "testcase" [("classname", c); ("name", n)] :: resultTokens r ++ EndElement "testcase" :: tokens rest
  | JOther n inner rest => StartElement n [] :: tokens inner ++ EndElement n :: tokens rest
  end.

(** What it says. *)
Definition caseOf (suites : list string) (class name : string) (r : result) : TestCase :=
  let id := joinSlash suites +:+ "::" +:+ class +:+ "::" +:+ name in
  match r with
  | Passes => mkTestCase id "passed" ""
  | Skips => mkTestCase id "skipped" ""
  | Fails m t | Errs m t => mkTestCase id "failed" (TrimSpace (m +:+ " " +:+ t))
  end.

Fixpoint cases (suites : list string) (d : junit) : list TestCase :=
  match d with
  | JEnd => []
  | JSuite n inner rest => cases (suites ++ [n]) inner ++ cases suites rest
  | JCase c n r rest => caseOf suites c n r :: cases suites rest
  | JOther _ inner rest => cases suites inner ++ cases suites rest
  end.

(** Names are given, and the other elements are other elements. *)
Fixpoint wellNamed (d : junit) : Prop :=
  match d with
  | JEnd => True
  | JSuite _ inner rest => wellNamed inner /\ wellNamed rest
  | JCase _ n _ rest => n <> "" /\ wellNamed rest
  | JOther n inner rest => n <> "testsuite" /\ n <> "testcase" /\ wellNamed inner /\ wellNamed rest
  end.

Fixpoint nesting (d : junit) : Z :=
  match d with
  | JEnd => 0
  | JSuite _ inner rest | JOther _ inner rest => Z.max (1 + nesting inner) (nesting rest)
  | JCase _ _ _ rest => Z.max 1 (nesting rest)
  end.

Fixpoint roots (d : junit) : Z :=
  match d with
  | JEnd => 0
  | JSuite _ _ rest | JOther _ _ rest | JCase _ _ _ rest => 1 + roots rest
  end.

(** ** Reading what was written *)

Definition testSize (t : TestCase) : Z := strlen (tc_ID t) + strlen (tc_Message t).
Definition sizes (l : list TestCase) : Z := foldr (fun t n => testSize t + n) 0 l.

Lemma sizes_cons t l : sizes (t :: l) = testSize t + sizes l.
Proof. done. Qed.

Lemma sizes_app a b : sizes (a ++ b) = sizes a + sizes b.
Proof. induction a as [|t a IH]; [done|]. rewrite <- app_comm_cons, !sizes_cons. lia. Qed.

Lemma testSize_nonneg t : 0 <= testSize t.
Proof. unfold testSize, strlen. lia. Qed.

Lemma sizes_nonneg l : 0 <= sizes l.
Proof. induction l as [|t l IH]; [done|]. rewrite sizes_cons. pose proof (testSize_nonneg t). lia. Qed.

(** The bounds of a valid report. *)
Definition fits (l : list TestCase) : Prop :=
  sizes l <= 2 * MaxBytes /\ Z.of_nat (length l) <= MaxTests /\
  Forall (fun t => strlen (tc_ID t) <= 2048 /\ strlen (tc_Message t) <= 8192) l.

Lemma validateTests_fits seen total l :
  validateTests seen total l = None ->
  (l <> [] -> total + sizes l <= 2 * MaxBytes) /\ Forall (fun t => strlen (tc_ID t) <= 2048 /\ strlen (tc_Message t) <= 8192) l.
Proof.
  revert seen total. induction l as [|t l IH]; intros seen total; cbn [validateTests]; [done|].
  destruct (Z.ltb_spec (2 * MaxBytes) (total + strlen (tc_ID t) + strlen (tc_Message t))); [done|].
  destruct (_ || _ || _ || _) eqn:E; [done|]. apply orb_false_elim in E as [[[_ E1%Z.ltb_ge]%orb_false_elim _]%orb_false_elim E2%Z.ltb_ge].
  destruct (negb _); [done|]. intros [Hs Hf]%IH. split; [|by constructor].
  intros _. rewrite sizes_cons. destruct l as [|t' l]; [unfold testSize; cbn; lia|].
  specialize (Hs ltac:(done)). unfold testSize at 1. lia.
Qed.

Lemma Validate_fits l : Validate l = None -> fits l.
Proof.
  unfold Validate. destruct (Z.eqb_spec (Z.of_nat (length l)) 0) as [|Hn]; [done|]. cbn [orb].
  destruct (Z.ltb_spec MaxTests (Z.of_nat (length l))); [done|]. intros [Hs Hf]%validateTests_fits.
  split_and!; [|lia|done]. apply Hs. by intros ->.
Qed.

Lemma fits_prefix a b : fits (a ++ b) -> fits a.
Proof.
  intros (Hs & Hl & [Hf _]%Forall_app). rewrite sizes_app in Hs. rewrite length_app in Hl. pose proof (sizes_nonneg b).
  split_and!; [lia..|done].
Qed.

Lemma elementBody_shorter nested l b r : elementBody nested l = Some (b, r) -> (length r < length l)%nat.
Proof.
  revert nested b. induction l as [|t l IH]; intros nested b; cbn [elementBody]; [done|].
  destruct t; [|destruct nested|..]; intros H;
    try (destruct (elementBody _ l) as [[]|] eqn:E; simplify_eq/=; apply IH in E; lia).
  simplify_eq/=. lia.
Qed.

Lemma onStart_shorter format name attrs rest err s rest' s' :
  onStart format name attrs rest err s = inr (rest', s') -> (length rest' <= length rest)%nat.
Proof.
  unfold onStart. repeat case_match; intros; simplify_eq; try lia;
    match goal with H : elementBody _ _ = Some _ |- _ => apply elementBody_shorter in H end; lia.
Qed.

(** The fuel is enough: a turn consumes a token at least. *)
Lemma parseTokens_enough n m format l err s :
  (length l <= n)%nat -> (length l <= m)%nat -> parseTokens n format l err s = parseTokens m format l err s.
Proof.
  revert m l s. induction n as [|n IH]; intros m l s Hn Hm; (destruct l as [|t l]; [by destruct m|]); cbn in Hn, Hm; [lia|].
  destruct m as [|m]; [lia|]. cbn [parseTokens].
  destruct (match t with StartElement _ _ => _ | _ => _ end) as [e|[rest s1]] eqn:E; [done|].
  assert (length rest <= length l)%nat.
  { destruct t; [by eapply onStart_shorter|..]; by simplify_eq. }
  destruct (checkBounds _ s1); [done|]. apply IH; lia.
Qed.

(** The loop, with fuel enough. *)
Definition parse (format : string) (l : list Token) (err : option string) (s : scan) : string + list TestCase :=
  parseTokens (length l) format l err s.

Lemma parse_step format t l err s rest s1 s2 :
  match t with
  | StartElement name attrs => onStart format name attrs l err s
  | EndElement name => inr (l, onEnd format name s)
  | _ => inr (l, s)
  end = inr (rest, s1) ->
  checkBounds (length (sc_tests s)) s1 = inr s2 ->
  parse format (t :: l) err s = parse format rest err s2.
Proof.
  intros Hn Hb. unfold parse at 1. cbn [length parseTokens]. rewrite Hn, Hb. apply parseTokens_enough; [|done].
  destruct t; [by eapply onStart_shorter|..]; by simplify_eq.
Qed.

Lemma checkBounds_same s : Z.of_nat (length (sc_tests s)) <= MaxTests -> checkBounds (length (sc_tests s)) s = inr s.
Proof.
  intros H. unfold checkBounds. rewrite Nat.ltb_irrefl. destruct (last _); by rewrite (proj2 (Z.ltb_ge _ _) H).
Qed.

Lemma checkBounds_new ts t s :
  sc_tests s = ts ++ [t] -> sc_total s = sizes ts -> fits (ts ++ [t]) ->
  checkBounds (length ts) s = inr (s <| sc_total := sizes (ts ++ [t]) |>).
Proof.
  intros Ht Hs (Hz & Hl & [_ Hf]%Forall_app). apply Forall_singleton in Hf as [Hid Hm].
  unfold checkBounds. rewrite Ht, last_snoc, length_app, (proj2 (Nat.ltb_lt _ _)) by (cbn; lia).
  rewrite sizes_app, sizes_cons in *. cbn [sizes foldr] in *. unfold testSize in *. rewrite Hs.
  rewrite (proj2 (Z.ltb_ge (2 * MaxBytes) _)), (proj2 (Z.ltb_ge 2048 _)), (proj2 (Z.ltb_ge 8192 _)) by lia. cbn [orb].
  destruct s; cbn in *. subst. rewrite length_app, (proj2 (Z.ltb_ge MaxTests _)) by (rewrite length_app in Hl; lia).
  do 2 f_equal. lia.
Qed.

Lemma elementBody_result r rest : elementBody 0 (resultTokens r ++ EndElement "testcase" :: rest) = Some (resultTokens r, rest).
Proof. by destruct r. Qed.

Lemma string_app_nil s : s +:+ "" = s.
Proof. induction s as [|c s IH]; [done|]. exact (f_equal (String c) IH). Qed.

Lemma junitCase_result suites c n r :
  n <> "" -> junitCase suites [("classname", c); ("name", n)] (resultTokens r) = inr (caseOf suites c n r).
Proof.
  intros Hn%String.eqb_neq. unfold junitCase. cbn [attrField fold_left fst snd String.eqb Ascii.eqb Bool.eqb]. rewrite Hn.
  destruct r; cbn; by rewrite ?string_app_nil.
Qed.

(** After a part of a document was read. *)
Definition after (d : junit) (s : scan) : scan :=
  let l := sc_tests s ++ cases (sc_suites s) d in
  mkScan l (sc_suites s) (sc_depth s) (if sc_depth s =? 0 then sc_roots s + roots d else sc_roots s) (sizes l).

(** It can be read from here: within the limits, and one root at most. *)
Record readable (d : junit) (s : scan) : Prop := mkReadable {
  rd_depth : 0 <= sc_depth s;
  rd_nesting : sc_depth s + nesting d <= 64;
  rd_roots : sc_depth s = 0 -> sc_roots s + roots d <= 1;
  rd_total : sc_total s = sizes (sc_tests s);
  rd_fits : fits (sc_tests s ++ cases (sc_suites s) d);
}.

Lemma nesting_nonneg d : 0 <= nesting d.
Proof. induction d; cbn; lia. Qed.

Lemma roots_nonneg d : 0 <= roots d.
Proof. induction d; cbn; lia. Qed.

(** The start of an element that is not a test. *)
Definition opened (name : string) (attrs : list (string * string)) (s : scan) : scan :=
  mkScan (sc_tests s) (if String.eqb name "testsuite" then sc_suites s ++ [attr attrs "name"] else sc_suites s)
    (sc_depth s + 1) (if sc_depth s =? 0 then sc_roots s + 1 else sc_roots s) (sc_total s).

Lemma root_allowed s :
  (sc_depth s = 0 -> sc_roots s < 1) ->
  (sc_depth (if sc_depth s =? 0 then s <| sc_roots ::= Z.succ |> else s) =? 0) &&
  (1 <? sc_roots (if sc_depth s =? 0 then s <| sc_roots ::= Z.succ |> else s)) = false.
Proof.
  intros Hr. destruct (Z.eqb_spec (sc_depth s) 0) as [E|E]; cbn; [|by rewrite (proj2 (Z.eqb_neq _ _) E)].
  specialize (Hr E). rewrite (proj2 (Z.ltb_ge 1 _)) by lia. apply andb_false_r.
Qed.

Lemma onStart_opened name attrs rest err s :
  sc_depth s < 64 -> (sc_depth s = 0 -> sc_roots s < 1) -> name <> "testcase" ->
  onStart "junit" name attrs rest err s = inr (rest, opened name attrs s).
Proof.
  intros Hd Hr Hn%String.eqb_neq. unfold onStart, opened. cbv zeta. rewrite root_allowed by done.
  destruct s as [ts su dp ro to]. cbn [sc_tests sc_suites sc_depth sc_roots sc_total] in *.
  destruct (dp =? 0); cbn; rewrite (proj2 (Z.ltb_ge 64 _)), Hn by lia; by destruct (String.eqb name "testsuite").
Qed.

Lemma onStart_case c n r rest err s :
  sc_depth s < 64 -> (sc_depth s = 0 -> sc_roots s < 1) -> n <> "" ->
  onStart "junit" "testcase" [("classname", c); ("name", n)] (resultTokens r ++ EndElement "testcase" :: rest) err s =
  inr (rest, mkScan (sc_tests s ++ [caseOf (sc_suites s) c n r]) (sc_suites s) (sc_depth s)
               (if sc_depth s =? 0 then sc_roots s + 1 else sc_roots s) (sc_total s)).
Proof.
  intros Hd Hr Hn. unfold onStart. cbv zeta. rewrite root_allowed by done.
  rewrite elementBody_result. destruct s as [ts su dp ro to]. cbn [sc_tests sc_suites sc_depth sc_roots sc_total] in *.
  destruct (dp =? 0); cbn -[junitCase resultTokens caseOf]; rewrite (proj2 (Z.ltb_ge 64 _)), junitCase_result by (done || lia); cbn -[caseOf];
    by rewrite Z.pred_succ.
Qed.

(** An element that is not a test: its inside is read from [opened], and its end takes
    back what its start added. *)
Lemma parse_around name attrs inner rest err s :
  0 <= sc_depth s < 64 -> (sc_depth s = 0 -> sc_roots s < 1) -> name <> "testcase" -> Z.of_nat (length (sc_tests s)) <= MaxTests ->
  readable inner (opened name attrs s) ->
  (forall rest, parse "junit" (tokens inner ++ rest) err (opened name attrs s) = parse "junit" rest err (after inner (opened name attrs s))) ->
  let l := sc_tests s ++ cases (sc_suites (opened name attrs s)) inner in
  parse "junit" (StartElement name attrs :: tokens inner ++ EndElement name :: rest) err s =
  parse "junit" rest err (mkScan l (sc_suites s) (sc_depth s) (if sc_depth s =? 0 then sc_roots s + 1 else sc_roots s) (sizes l)).
Proof.
  intros Hd Hr Hn Hl Hin IH l.
  erewrite parse_step; [|apply onStart_opened; [lia|done|done]|by apply (checkBounds_same (opened name attrs s))].
  rewrite IH. erewrite parse_step; [done|done|].
  pose proof (rd_fits _ _ Hin) as (_ & Hlen & _). cbn [opened sc_tests] in Hlen.
  match goal with |- checkBounds ?n ?s1 = inr ?s2 => assert (s1 = s2) as -> end;
    [|exact (checkBounds_same (mkScan l _ _ _ _) Hlen)].
  unfold onEnd, after, opened, l. cbn [sc_tests sc_suites sc_depth sc_roots sc_total].
  rewrite (proj2 (Z.eqb_neq (sc_depth s + 1) 0)) by lia. rewrite String.eqb_refl. cbn [andb].
  destruct (String.eqb name "testsuite") eqn:E; cbn; rewrite Z.add_1_r, Z.pred_succ, ?removelast_last, E; done.
Qed.

Lemma after_JEnd s : sc_total s = sizes (sc_tests s) -> after JEnd s = s.
Proof. destruct s as [ts su dp ro to]. unfold after. cbn. intros ->. rewrite app_nil_r, Z.add_0_r. by destruct (dp =? 0). Qed.

Lemma readable_rest d n s l :
  sc_depth s <= 64 -> 0 <= sc_depth s -> nesting d + sc_depth s <= 64 ->
  (sc_depth s = 0 -> sc_roots s + n + roots d <= 1) ->
  fits (l ++ cases (sc_suites s) d) ->
  readable d (mkScan l (sc_suites s) (sc_depth s) (if sc_depth s =? 0 then sc_roots s + n else sc_roots s) (sizes l)).
Proof.
  intros H1 H2 H3 H4 H5. constructor; cbn; [lia|lia| |done|done].
  intros E. rewrite E. cbn. rewrite E in H4. specialize (H4 eq_refl). lia.
Qed.

(** What is left of the limits after the first part of a document. *)
Lemma readable_seq d rest l s :
  readable d s -> 1 <= nesting d -> nesting rest <= nesting d -> roots d = 1 + roots rest ->
  cases (sc_suites s) d = l ++ cases (sc_suites s) rest ->
  0 <= sc_depth s < 64 /\ (sc_depth s = 0 -> sc_roots s < 1) /\ Z.of_nat (length (sc_tests s)) <= MaxTests /\
  fits (sc_tests s ++ l) /\
  readable rest (mkScan (sc_tests s ++ l) (sc_suites s) (sc_depth s) (if sc_depth s =? 0 then sc_roots s + 1 else sc_roots s) (sizes (sc_tests s ++ l))) /\
  after rest (mkScan (sc_tests s ++ l) (sc_suites s) (sc_depth s) (if sc_depth s =? 0 then sc_roots s + 1 else sc_roots s) (sizes (sc_tests s ++ l))) = after d s.
Proof.
  intros [H1 H2 H3 H4 H5] Hn Hr Hroots Hc. rewrite Hc, app_assoc in H5. pose proof (roots_nonneg rest).
  pose proof (fits_prefix _ _ H5) as Hf. pose proof (fits_prefix _ _ Hf) as (_ & Hl & _).
  assert (sc_depth s = 0 -> sc_roots s + 1 + roots rest <= 1) by (intros E%H3; lia).
  split_and!; [lia|lia|intros E; specialize (H3 E); lia|done|done|apply readable_rest; done || lia|].
  unfold after. cbn. rewrite Hc, Hroots, app_assoc. destruct (sc_depth s =? 0); [|done]. f_equal. lia.
Qed.

Lemma readable_inside name attrs inner d s :
  readable d s -> 1 + nesting inner <= nesting d ->
  (exists l, cases (sc_suites s) d = cases (sc_suites (opened name attrs s)) inner ++ l) ->
  readable inner (opened name attrs s).
Proof.
  intros [H1 H2 H3 H4 H5] Hn [l Hc]. rewrite Hc, app_assoc in H5. apply fits_prefix in H5.
  constructor; cbn; [lia|lia|lia|done|done].
Qed.

(** A document is read to its end. *)
Lemma parse_document d err : wellNamed d -> forall s rest, readable d s ->
  parse "junit" (tokens d ++ rest) err s = parse "junit" rest err (after d s).
Proof.
  induction d as [|n inner IHi d IHd|c n r d IHd|n inner IHi d IHd]; intros Hw s rest Hs; cbn [tokens].
  - by rewrite after_JEnd by apply Hs.
  - destruct Hw as [Hwi Hwd]. pose proof (nesting_nonneg inner).
    destruct (readable_seq _ d (cases (sc_suites s ++ [n]) inner) s Hs) as (Hd & Hr & Hl & Hf & Hrest & <-); cbn [nesting]; try lia; [done..|].
    rewrite <- app_comm_cons, <- app_assoc, <- app_comm_cons.
    assert (readable inner (opened "testsuite" [("name", n)] s)) as Hin.
    { apply (readable_inside _ _ _ _ _ Hs); [cbn; lia|]. by exists (cases (sc_suites s) d). }
    rewrite parse_around by (done || by intros; apply IHi). by apply IHd.
  - destruct Hw as [Hn Hwd].
    destruct (readable_seq _ d [caseOf (sc_suites s) c n r] s Hs) as (Hd & Hr & Hl & Hf & Hrest & <-); cbn [nesting]; try lia; [done..|].
    rewrite <- app_comm_cons, <- app_assoc, <- app_comm_cons.
    erewrite parse_step; [|apply onStart_case; done || lia|by apply checkBounds_new; [..|apply Hs|]]. by apply IHd.
  - destruct Hw as (Hn1 & Hn2 & Hwi & Hwd). pose proof (nesting_nonneg inner).
    assert (sc_suites (opened n [] s) = sc_suites s) as Hsu by (cbn; by rewrite (proj2 (String.eqb_neq _ _) Hn1)).
    destruct (readable_seq _ d (cases (sc_suites s) inner) s Hs) as (Hd & Hr & Hl & Hf & Hrest & <-); cbn [nesting]; try lia; [done..|].
    rewrite <- app_comm_cons, <- app_assoc, <- app_comm_cons.
    assert (readable inner (opened n [] s)) as Hin.
    { apply (readable_inside _ _ _ _ _ Hs); [cbn; lia|]. rewrite Hsu. by exists (cases (sc_suites s) d). }
    rewrite parse_around by (done || by intros; apply IHi). rewrite Hsu. by apply IHd.
Qed.

(** C38. A JUnit report is read as it was written. For every document - suites within
    suites, cases, other elements in between - with one root at most, no more than 64
    levels deep, whose cases have names and whose tests together make a valid report,
    [Parse] gives exactly its cases in their order: each under the path of its suites,
    its class and its name, failed if it carries a failure or an error, with the
    message, else skipped if it says so, else passed. In particular no failure in a
    readable report is ever taken for a pass, and none is dropped. *)
Theorem junit_report_read newJSON newXML data d :
  newXML data = mkDecoder (tokens d) None -> 1 <= strlen data <= MaxBytes ->
  wellNamed d -> nesting d <= 64 -> roots d <= 1 -> Validate (cases [] d) = None ->
  Parse newJSON newXML "junit" data = inr (cases [] d).
Proof.
  intros Hx Hlen Hw Hn Hr Hv. unfold Parse.
  rewrite (proj2 (Z.eqb_neq _ _)), (proj2 (Z.ltb_ge _ _)) by lia. cbn -[parseXML Validate]. rewrite Hx.
  unfold parseXML. cbn [x_tokens x_err].
  pose proof (parse_document d None Hw (mkScan [] [] 0 0 0) []) as Hp. rewrite app_nil_r in Hp.
  unfold parse in Hp at 1. rewrite Hp by (constructor; cbn; [lia|lia|lia|done|by apply Validate_fits]).
  cbn. by rewrite Hv.
Qed.

(** ** A report *)

Definition demoReport : junit :=
  JOther "testsuites"
    (JSuite "unit" (JCase "pkg.Fast" "adds" Passes (JCase "pkg.Fast" "divides" (Fails "zero" "at line 3") JEnd))
      (JOther "properties" JEnd (JSuite "slow" (JCase "pkg.Slow" "waits" Skips JEnd) JEnd))) JEnd.

Lemma junit_report_read_witness :
  Parse (fun _ => mkJSONDecoder (inl "") false) (fun _ => mkDecoder (tokens demoReport) None) "junit" "<testsuites>" =
  inr [mkTestCase "unit::pkg.Fast::adds" "passed" ""; mkTestCase "unit::pkg.Fast::divides" "failed" "zero at line 3";
       mkTestCase "slow::pkg.Slow::waits" "skipped" ""].
Proof.
  refine (junit_report_read _ _ _ demoReport eq_refl _ _ _ _ _); [vm_compute; split; discriminate| |vm_compute; discriminate..|vm_compute; reflexivity].
  cbn. split_and!; done.
Defined.
