(* ===== verification/KdlFmt.v ===== *)
(** The formatter of configuration files (src/internal/kdlfmt): a scanner that tells
    which braces of a line are structural, and the normalizer that re-indents by it.

    A line is its bytes. The scanner's index is the bytes still ahead of it, with
    the byte before them; [i += 2] is a byte to pass over. Parsing KDL is a
    parameter: the library that does it is not part of the repository. *)
From S2P Require Import Prelude GoString.
From Stdlib Require Import Ascii.

Open Scope list_scope.
Open Scope Z_scope.

(** src/internal/kdlfmt/lex.go:10-26 [state] *)
Record state := mkState {
  st_depth : Z;
  blockDepth : Z;
  blockStart : Z;
  rawActive : bool;
  rawHashes : Z;
  rawSeekClose : bool;
  rawCloseSeen : Z;
  rawStart : Z;
  quotedActive : bool;
  quotedStart : Z;
  continuation : bool;
}.

Definition zeroState : state := mkState 0 0 0 false 0 false 0 0 false 0 false.

(** src/internal/kdlfmt/lex.go:31-37 [subNormal] The last constant, [subLineComment], is never assigned. *)
Inductive sublex := subNormal | subBlockComment | subRawString | subQuoted.

#[export] Instance sublex_eq : EqDecision sublex.
Proof. solve_decision. Defined.

(** src/internal/kdlfmt/lex.go:68-99 [scanLine] The locals of the scan. *)
Record lexer := mkLexer {
  lx_depth : Z;
  lx_sub : sublex;
  lx_blockDepth : Z;
  lx_blockStart : Z;
  lx_rawHashes : Z;
  lx_rawSeekClose : bool;
  lx_rawCloseSeen : Z;
  lx_rawStart : Z;
  lx_quotedStart : Z;
  leadingRun : bool;
  leadingCloses : Z;
  quotedEscaped : bool;
  contPending : bool;
}.

#[export] Instance lexer_eta : Eta lexer := fun x =>
  mkLexer (lx_depth x) (lx_sub x) (lx_blockDepth x) (lx_blockStart x) (lx_rawHashes x) (lx_rawSeekClose x)
    (lx_rawCloseSeen x) (lx_rawStart x) (lx_quotedStart x) (leadingRun x) (leadingCloses x) (quotedEscaped x) (contPending x).

Definition dquote : ascii := ascii_of_nat 34.
Definition backslash : ascii := ascii_of_nat 92.
Definition tab : ascii := ascii_of_nat 9.
Definition carriage : ascii := ascii_of_nat 13.

Definition is_blank (c : ascii) : bool := Ascii.eqb c " " || Ascii.eqb c tab || Ascii.eqb c carriage.

(** [i+1 < n && line[i+1] == c] *)
Definition nextIs (c : ascii) (t : bytes) : bool := match t with x :: _ => Ascii.eqb x c | [] => false end.

Fixpoint hashRun (t : bytes) : nat :=
  match t with x :: t => if Ascii.eqb x "#" then S (hashRun t) else 0%nat | [] => 0%nat end.

Definition boundary (prev : option ascii) : bool :=
  match prev with
  | None => true
  | Some p => is_blank p || existsb (Ascii.eqb p) ["{"; "}"; "("; ")"; ";"; "="; dquote; "-"]%char
  end.

(** src/internal/kdlfmt/lex.go:267-285 [rawStringStart] *)
Definition rawStringStart (prev : option ascii) (t : bytes) : bool := boundary prev && nextIs dquote (drop (hashRun t) t).

(** What the scanner does at a byte: goes on after passing over some, leaves the loop, or refuses. *)
Inductive outcome := Next (skip : nat) (x : lexer) | Break (x : lexer) | Refuse (err : string).

(** src/internal/kdlfmt/lex.go:106-119 [scanLine] *)
Definition inBlock (c : ascii) (t : bytes) (x : lexer) : outcome :=
  if Ascii.eqb c "*" && nextIs "/" t then
    Next 1 (x <| lx_blockDepth := lx_blockDepth x - 1 |>
              <| lx_sub := if lx_blockDepth x - 1 =? 0 then subNormal else subBlockComment |>)
  else if Ascii.eqb c "/" && nextIs "*" t then Next 1 (x <| lx_blockDepth := lx_blockDepth x + 1 |>)
  else Next 0 x.

(** src/internal/kdlfmt/lex.go:145-153 [scanLine] *)
Definition rawByte (c : ascii) (x : lexer) : outcome :=
  Next 0 (if Ascii.eqb c dquote then
            let x := x <| lx_rawSeekClose := true |> <| lx_rawCloseSeen := 0 |> in
            if lx_rawHashes x =? 0 then x <| lx_sub := subNormal |> <| lx_rawSeekClose := false |> else x
          else x).

(** src/internal/kdlfmt/lex.go:121-153 [scanLine] *)
Definition inRaw (c : ascii) (x : lexer) : outcome :=
  if lx_rawSeekClose x then
    if Ascii.eqb c "#" then
      let x := x <| lx_rawCloseSeen := lx_rawCloseSeen x + 1 |> in
      Next 0 (if lx_rawCloseSeen x =? lx_rawHashes x then x <| lx_sub := subNormal |> <| lx_rawSeekClose := false |> else x)
    else if Ascii.eqb c dquote then Next 0 (x <| lx_rawCloseSeen := 0 |>)
    else rawByte c (x <| lx_rawSeekClose := false |> <| lx_rawCloseSeen := 0 |>)
  else rawByte c x.

(** src/internal/kdlfmt/lex.go:155-164 [scanLine] *)
Definition inQuoted (c : ascii) (x : lexer) : outcome :=
  Next 0 (if quotedEscaped x then x <| quotedEscaped := false |>
          else if Ascii.eqb c backslash then x <| quotedEscaped := true |>
          else if Ascii.eqb c dquote then x <| lx_sub := subNormal |> else x).

Definition notLeading (x : lexer) : lexer := x <| leadingRun := false |> <| contPending := false |>.

Definition unmatched (ln : Z) : string :=
  ("kdlfmt: line " +:+ pretty ln +:+ ": unmatched '}' (more closing braces than open)")%string.

(** src/internal/kdlfmt/lex.go:166-229 [scanLine] *)
Definition inNormal (ln : Z) (prev : option ascii) (c : ascii) (t : bytes) (x : lexer) : outcome :=
  if Ascii.eqb c dquote then
    Next 0 (notLeading x <| lx_sub := subQuoted |> <| quotedEscaped := false |> <| lx_quotedStart := ln |>)
  else if Ascii.eqb c "r" && rawStringStart prev t then
    Next (S (hashRun t)) (notLeading x <| lx_sub := subRawString |> <| lx_rawHashes := Z.of_nat (hashRun t) |>
      <| lx_rawSeekClose := false |> <| lx_rawCloseSeen := 0 |> <| lx_rawStart := ln |>)
  else if Ascii.eqb c "/" && nextIs "/" t then Break (x <| leadingRun := false |>)
  else if Ascii.eqb c "/" && nextIs "*" t then
    Next 1 (notLeading x <| lx_sub := subBlockComment |> <| lx_blockDepth := 1 |> <| lx_blockStart := ln |>)
  else if Ascii.eqb c "{" then Next 0 (notLeading x <| lx_depth := lx_depth x + 1 |>)
  else if Ascii.eqb c "}" then
    if lx_depth x - 1 <? 0 then Refuse (unmatched ln)
    else Next 0 (x <| leadingCloses := if leadingRun x then leadingCloses x + 1 else leadingCloses x |>
                   <| lx_depth := lx_depth x - 1 |> <| contPending := false |>)
  else if is_blank c then Next 0 x
  else if Ascii.eqb c backslash then Next 0 (x <| contPending := true |> <| leadingRun := false |>)
  else Next 0 (notLeading x).

(** src/internal/kdlfmt/lex.go:103-231 [scanLine] The body of the loop. *)
Definition scanByte (ln : Z) (prev : option ascii) (c : ascii) (t : bytes) (x : lexer) : outcome :=
  match lx_sub x with
  | subBlockComment => inBlock c t x
  | subRawString => inRaw c x
  | subQuoted => inQuoted c x
  | subNormal => inNormal ln prev c t x
  end.

Fixpoint scan (ln : Z) (prev : option ascii) (skip : nat) (line : bytes) (x : lexer) : string + lexer :=
  match line, skip with
  | [], _ => inr x
  | c :: t, S skip => scan ln (Some c) skip t x
  | c :: t, O =>
      match scanByte ln prev c t x with
      | Next skip x => scan ln (Some c) skip t x
      | Break x => inr x
      | Refuse e => inl e
      end
  end.

(** src/internal/kdlfmt/lex.go:68-99 [scanLine] *)
Definition lexStart (st : state) : lexer :=
  let sub := if 0 <? blockDepth st then subBlockComment
             else if rawActive st then subRawString
             else if quotedActive st then subQuoted else subNormal in
  mkLexer (st_depth st) sub (blockDepth st) (blockStart st) (rawHashes st) (rawSeekClose st) (rawCloseSeen st)
    (rawStart st) (quotedStart st) (bool_decide (sub = subNormal)) 0 false false.

(** src/internal/kdlfmt/lex.go:233-257 [scanLine] *)
Definition lexEnd (x : lexer) : state :=
  mkState (lx_depth x) (lx_blockDepth x) (lx_blockStart x) (bool_decide (lx_sub x = subRawString)) (lx_rawHashes x)
    (lx_rawSeekClose x) (lx_rawCloseSeen x) (lx_rawStart x) (bool_decide (lx_sub x = subQuoted)) (lx_quotedStart x)
    (bool_decide (lx_sub x = subNormal) && contPending x).

(** src/internal/kdlfmt/lex.go:67-259 [scanLine] *)
Definition scanLine (line : bytes) (ln : Z) (st : state) : string + (Z * state) :=
  match scan ln None 0 line (lexStart st) with
  | inl e => inl e
  | inr x => inr (st_depth st - leadingCloses x, lexEnd x)
  end.

(** src/internal/kdlfmt/kdlfmt.go:79-83 [renderedLine] *)
Record renderedLine := mkRendered { rl_text : bytes; rl_passthrough : bool; rl_blank : bool }.

Fixpoint trimLeft (b : bytes) : bytes := match b with c :: t => if is_blank c then trimLeft t else b | [] => [] end.

(** [strings.Trim(s, " \t\r")] *)
Definition Trim (b : bytes) : bytes := rev (trimLeft (rev (trimLeft b))).

Definition indent (depth : Z) : bytes := repeat " "%char (4 * Z.to_nat depth).

(** src/internal/kdlfmt/kdlfmt.go:167-175 [renderLine] *)
Definition renderLine (raw : bytes) (depth : Z) : bytes :=
  match Trim raw with [] => [] | content => indent depth ++ content end.

Definition passthrough (st : state) : bool :=
  (0 <? blockDepth st) || rawActive st || quotedActive st || continuation st.

(** src/internal/kdlfmt/kdlfmt.go:106-126 [normalize] *)
Fixpoint renderLines (ln : Z) (st : state) (rawLines : list bytes) : string + (list renderedLine * state) :=
  match rawLines with
  | [] => inr ([], st)
  | raw :: rest =>
      match scanLine raw ln st with
      | inl e => inl e
      | inr (depth, next) =>
          let text := renderLine raw depth in
          let r := if passthrough st then mkRendered raw true false
                   else mkRendered text false (bool_decide (text = [])) in
          match renderLines (ln + 1) next rest with
          | inl e => inl e
          | inr (rs, st) => inr (r :: rs, st)
          end
      end
  end.

(** src/internal/kdlfmt/kdlfmt.go:138-154 [normalize] [some] is whether a line has been emitted. *)
Fixpoint collapse (some : bool) (pendingBlank : nat) (rendered : list renderedLine) : list bytes :=
  match rendered with
  | [] => []
  | r :: rest =>
      if negb (rl_passthrough r) && rl_blank r then collapse some (S pendingBlank) rest
      else (if some && bool_decide (0 < pendingBlank)%nat then [[]] else []) ++ rl_text r :: collapse true 0 rest
  end.

Definition unterminated (ln : Z) (what : string) : string := ("kdlfmt: line " +:+ pretty ln +:+ ": unterminated " +:+ what)%string.

(** src/internal/kdlfmt/kdlfmt.go:99-160 [normalize] *)
Definition normalize (data : bytes) : string + bytes :=
  match renderLines 1 zeroState (split_lines data) with
  | inl e => inl e
  | inr (rendered, st) =>
      if 0 <? blockDepth st then inl (unterminated (blockStart st) "block comment")
      else if rawActive st then inl (unterminated (rawStart st) "raw string")
      else if quotedActive st then inl (unterminated (quotedStart st) "string")
      else match collapse false 0 rendered with
           | [] => inr []
           | lines => inr (join_lines lines ++ [newline])
           end
  end.

(** src/internal/kdlfmt/kdlfmt.go:54-72 [Format] *)
Definition Format (Parse : bytes -> option string) (data : bytes) : string + bytes :=
  match Parse data with
  | Some err => inl ("kdlfmt: not valid KDL: " +:+ err)%string
  | None =>
      match normalize data with
      | inl err => inl err
      | inr out =>
          match Parse out with
          | Some err => inl ("kdlfmt: internal error: formatted output is not valid KDL: " +:+ err)%string
          | None => inr out
          end
      end
  end.

(** ** Blanks *)

Abbreviation blanks := (Forall (fun c => is_blank c = true)).

Lemma is_blank_cases c : is_blank c = true -> c = " "%char \/ c = tab \/ c = carriage.
Proof. unfold is_blank. intros [[H|H]%orb_prop|H]%orb_prop; apply Ascii.eqb_eq in H; auto. Qed.

Ltac blank_char H := destruct (is_blank_cases _ H) as [->|[->| ->]].

Lemma trimLeft_spec b : exists l, b = l ++ trimLeft b /\ blanks l /\ (forall c t, trimLeft b = c :: t -> is_blank c = false).
Proof.
  induction b as [|c b (l & E & Hl & Hh)]; simpl; [by exists []|].
  destruct (is_blank c) eqn:Hc.
  - exists (c :: l). simpl. rewrite <- E. auto.
  - exists []. split; [done|]. split; [done|]. by intros ? ? [= -> ->].
Qed.

Lemma trimLeft_blanks l b : blanks l -> trimLeft (l ++ b) = trimLeft b.
Proof. induction 1 as [|c l Hc _ IH]; simpl; [done|]. by rewrite Hc. Qed.

Lemma trimLeft_app_id c t r : is_blank c = false -> trimLeft (c :: t ++ r) = c :: t ++ r.
Proof. intros H. simpl. by rewrite H. Qed.

(** A line is its blanks, its content, and its blanks again. *)
Lemma Trim_spec b : exists l r, b = l ++ Trim b ++ r /\ blanks l /\ blanks r.
Proof.
  destruct (trimLeft_spec b) as (l & E & Hl & _).
  destruct (trimLeft_spec (rev (trimLeft b))) as (r & E' & Hr & _).
  exists l, (rev r). split; [|by split; [|apply Forall_rev]].
  rewrite E at 1. f_equal. unfold Trim. rewrite <- rev_app_distr, <- E'. by rewrite rev_involutive.
Qed.

Lemma blanks_trimLeft l : blanks l -> trimLeft l = [].
Proof. intros H. rewrite <- (app_nil_r l). by rewrite (trimLeft_blanks l []). Qed.

Lemma trimLeft_app b r : trimLeft (b ++ r) = if bool_decide (trimLeft b = []) then trimLeft r else trimLeft b ++ r.
Proof.
  induction b as [|c b IH]; simpl; [done|]. by destruct (is_blank c).
Qed.

Lemma Trim_surround l b r : blanks l -> blanks r -> Trim (l ++ b ++ r) = Trim b.
Proof.
  intros Hl Hr. unfold Trim. rewrite (trimLeft_blanks _ _ Hl), trimLeft_app. case_bool_decide as E.
  - by rewrite E, (blanks_trimLeft r).
  - rewrite rev_app_distr, (trimLeft_blanks (rev r)); [done|by apply Forall_rev].
Qed.

Lemma Trim_idem b : Trim (Trim b) = Trim b.
Proof.
  destruct (Trim_spec b) as (l & r & E & Hl & Hr). rewrite <- (Trim_surround l (Trim b) r) by done. by rewrite <- E.
Qed.

Lemma blanks_Trim b : blanks b <-> Trim b = [].
Proof.
  split; intros H.
  - unfold Trim. by rewrite (blanks_trimLeft b).
  - destruct (Trim_spec b) as (l & r & E & Hl & Hr). rewrite E, H. by apply Forall_app.
Qed.

Lemma blanks_indent d : blanks (indent d).
Proof. apply Forall_forall. intros c H. by apply list_elem_of_In, repeat_spec in H as ->. Qed.

Lemma renderLine_Trim raw d : Trim (renderLine raw d) = Trim raw.
Proof.
  unfold renderLine. destruct (Trim raw) as [|c t] eqn:E; [done|].
  rewrite <- (app_nil_r (_ ++ _)), <- app_assoc, Trim_surround by (apply blanks_indent || done).
  by rewrite <- E, Trim_idem.
Qed.

Lemma renderLine_idem raw d : renderLine (renderLine raw d) d = renderLine raw d.
Proof. unfold renderLine at 1 3. by rewrite renderLine_Trim. Qed.

Lemma renderLine_nil raw d : renderLine raw d = [] <-> Trim raw = [].
Proof. unfold renderLine. destruct (Trim raw); [done|]. split; [|done]. by destruct (indent d). Qed.

(** ** The scanner and blanks *)

Lemma nextIs_app c b r : is_blank c = false -> blanks r -> nextIs c (b ++ r) = nextIs c b.
Proof.
  intros Hc Hr. destruct b; [|done]. destruct Hr as [|x r Hx _]; [done|]. simpl.
  destruct (Ascii.eqb_spec x c) as [->|]; [congruence|done].
Qed.

Lemma hashRun_length b : (hashRun b <= length b)%nat.
Proof. induction b as [|c b IH]; simpl; [lia|]. destruct (Ascii.eqb c "#"); lia. Qed.

Lemma hashRun_app b r : blanks r -> hashRun (b ++ r) = hashRun b.
Proof.
  intros Hr. induction b as [|c b IH]; simpl; [|by rewrite IH].
  destruct Hr as [|c r Hc _]; simpl; [done|]. destruct (is_blank_cases c Hc) as [-> | [-> | ->]]; reflexivity.
Qed.

Lemma rawStringStart_app prev b r : blanks r -> rawStringStart prev (b ++ r) = rawStringStart prev b.
Proof.
  intros Hr. unfold rawStringStart. rewrite hashRun_app, drop_app_le by (done || apply hashRun_length).
  by rewrite nextIs_app.
Qed.

Lemma scanByte_app ln prev c b r x : blanks r -> scanByte ln prev c (b ++ r) x = scanByte ln prev c b x.
Proof.
  intros Hr. unfold scanByte, inBlock, inNormal.
  by rewrite rawStringStart_app, hashRun_app, !nextIs_app by done.
Qed.

(** What passing over blanks to the end of the line does. *)
Definition afterBlanks (x : lexer) : lexer :=
  match lx_sub x with
  | subRawString => if lx_rawSeekClose x then x <| lx_rawSeekClose := false |> <| lx_rawCloseSeen := 0 |> else x
  | subQuoted => x <| quotedEscaped := false |>
  | _ => x
  end.

Lemma scanByte_blank ln prev c t x : is_blank c = true -> lx_sub x = subNormal -> scanByte ln prev c t x = Next 0 x.
Proof. intros Hc Hx. unfold scanByte. rewrite Hx. by blank_char Hc. Qed.

Lemma scanByte_blank_after ln prev c t x :
  is_blank c = true -> exists y, scanByte ln prev c t x = Next 0 y /\ (y = x \/ y = afterBlanks x) /\ afterBlanks y = afterBlanks x.
Proof.
  intros Hc. unfold scanByte, afterBlanks. destruct (lx_sub x) eqn:E.
  - eexists. split; [blank_char Hc; reflexivity|]. rewrite E. auto.
  - eexists. split; [blank_char Hc; reflexivity|]. rewrite E. auto.
  - unfold inRaw. destruct (lx_rawSeekClose x) eqn:S.
    + exists (x <| lx_rawSeekClose := false |> <| lx_rawCloseSeen := 0 |>).
      split; [blank_char Hc; reflexivity|]. simpl. rewrite E. auto.
    + exists x. split; [blank_char Hc; reflexivity|]. rewrite E, S. auto.
  - unfold inQuoted. destruct (quotedEscaped x) eqn:Q.
    + eexists. split; [reflexivity|]. simpl. rewrite E. auto.
    + exists x. split; [blank_char Hc; reflexivity|]. by rewrite E; auto.
Qed.

Lemma scan_blanks ln prev r x :
  blanks r -> exists y, scan ln prev 0 r x = inr y /\ (y = x \/ y = afterBlanks x) /\ afterBlanks y = afterBlanks x.
Proof.
  intros Hr. revert prev x. induction Hr as [|c r Hc _ IH]; intros prev x; simpl; [by exists x; auto|].
  destruct (scanByte_blank_after ln prev c r x Hc) as (y & -> & Hy & Ay).
  destruct (IH (Some c) y) as (z & Hz & Hd & Az). exists z. split; [done|].
  split; [|congruence]. destruct Hd as [->| ->]; [done|by right].
Qed.

Lemma scanByte_skip ln prev c t x k y : scanByte ln prev c t x = Next k y -> (k <= length t)%nat.
Proof.
  unfold scanByte, inBlock, inRaw, rawByte, inQuoted, inNormal, rawStringStart, nextIs. intros H.
  pose proof (hashRun_length t) as L. destruct (drop (hashRun t) t) as [|d u] eqn:D.
  - repeat case_match; simplify_eq/=; try lia; rewrite andb_false_r in *; done.
  - apply (f_equal length) in D. rewrite length_drop in D. simpl in D.
    repeat case_match; simplify_eq/=; lia.
Qed.

Lemma scanByte_break ln prev c t x y : scanByte ln prev c t x = Break y -> lx_sub y = subNormal.
Proof.
  unfold scanByte, inBlock, inRaw, rawByte, inQuoted, inNormal. intros H.
  repeat case_match; simplify_eq/=; done.
Qed.

(** Blanks at the end of a line only matter to a raw string's closing. *)
Lemma scan_app_blanks ln prev k b r x :
  blanks r -> (k <= length b)%nat ->
  match scan ln prev k b x with
  | inl e => scan ln prev k (b ++ r) x = inl e
  | inr y => exists z, scan ln prev k (b ++ r) x = inr z /\ (z = y \/ z = afterBlanks y) /\ afterBlanks z = afterBlanks y
  end.
Proof.
  intros Hr. revert prev k x. induction b as [|c b IH]; intros prev k x Hk; simpl in *.
  - assert (k = 0%nat) as -> by lia. apply scan_blanks, Hr.
  - destruct k as [|k]; [|apply IH; lia]. rewrite scanByte_app by done.
    destruct (scanByte ln prev c b x) as [k y|y|e] eqn:E; [|by exists y; auto|done].
    apply IH. eapply scanByte_skip, E.
Qed.

Lemma scan_prev ln p q k b x : boundary p = boundary q -> scan ln p k b x = scan ln q k b x.
Proof.
  intros H. destruct b as [|c b]; [done|]. simpl. destruct k; [|done]. unfold scanByte.
  destruct (lx_sub x); try done. unfold inNormal, rawStringStart. by rewrite H.
Qed.

Lemma scan_leading_blanks ln prev l b x :
  blanks l -> lx_sub x = subNormal -> boundary prev = true -> scan ln prev 0 (l ++ b) x = scan ln None 0 b x.
Proof.
  intros Hl Hx. revert prev. induction Hl as [|c l Hc _ IH]; intros prev Hp; simpl; [by apply scan_prev|].
  rewrite scanByte_blank by done. apply IH. simpl. by rewrite Hc.
Qed.

(** ** Line numbers, which only errors name *)

Definition unnumbered (st : state) : state :=
  mkState (st_depth st) (blockDepth st) 0 (rawActive st) (rawHashes st) (rawSeekClose st) (rawCloseSeen st) 0
    (quotedActive st) 0 (continuation st).

Definition unnumberedL (x : lexer) : lexer := x <| lx_blockStart := 0 |> <| lx_rawStart := 0 |> <| lx_quotedStart := 0 |>.

Lemma scanByte_unnumbered ln ln' prev c t x x' :
  unnumberedL x = unnumberedL x' ->
  match scanByte ln prev c t x, scanByte ln' prev c t x' with
  | Next k y, Next k' y' => k = k' /\ unnumberedL y = unnumberedL y'
  | Break y, Break y' => unnumberedL y = unnumberedL y'
  | Refuse _, Refuse _ => True
  | _, _ => False
  end.
Proof.
  destruct x, x'. unfold unnumberedL. simpl. intros [=]. subst.
  unfold scanByte, inBlock, inRaw, rawByte, inQuoted, inNormal, notLeading. simpl.
  repeat (case_match; simplify_eq/=; try done).
Qed.

Lemma scan_unnumbered ln ln' prev k b x x' :
  unnumberedL x = unnumberedL x' ->
  match scan ln prev k b x, scan ln' prev k b x' with
  | inr y, inr y' => unnumberedL y = unnumberedL y'
  | inl _, inl _ => True
  | _, _ => False
  end.
Proof.
  revert prev k x x'. induction b as [|c b IH]; intros prev k x x' H; simpl; [done|].
  destruct k; [|by apply IH]. pose proof (scanByte_unnumbered ln ln' prev c b x x' H) as S.
  destruct (scanByte ln prev c b x), (scanByte ln' prev c b x'); try done.
  destruct S as [-> S]. by apply IH.
Qed.

Lemma lexStart_unnumbered st st' : unnumbered st = unnumbered st' -> unnumberedL (lexStart st) = unnumberedL (lexStart st').
Proof. destruct st, st'. unfold unnumbered. simpl. intros [=]. by subst. Qed.

Lemma lexEnd_unnumbered x x' : unnumberedL x = unnumberedL x' -> unnumbered (lexEnd x) = unnumbered (lexEnd x').
Proof. destruct x, x'. unfold unnumberedL, unnumbered. simpl. intros [=]. by subst. Qed.

Lemma scanLine_unnumbered line ln ln' st st' d next :
  unnumbered st = unnumbered st' -> scanLine line ln st = inr (d, next) ->
  exists next', scanLine line ln' st' = inr (d, next') /\ unnumbered next = unnumbered next'.
Proof.
  intros H. unfold scanLine. pose proof (scan_unnumbered ln ln' None 0 line _ _ (lexStart_unnumbered st st' H)) as S.
  destruct (scan ln _ _ _ _) as [e|y], (scan ln' _ _ _ _) as [e'|y']; try done. intros [= <- <-].
  eexists. split; [|apply lexEnd_unnumbered, S].
  assert (st_depth st = st_depth st') as -> by (destruct st, st'; unfold unnumbered in H; simpl in *; congruence).
  assert (leadingCloses y = leadingCloses y') as -> by (destruct y, y'; unfold unnumberedL in S; simpl in *; congruence).
  done.
Qed.

Lemma passthrough_unnumbered st st' : unnumbered st = unnumbered st' -> passthrough st = passthrough st'.
Proof. destruct st, st'. unfold unnumbered, passthrough. simpl. intros [=]. by subst. Qed.

(** ** A line that is re-indented *)

Lemma lexStart_normal st : passthrough st = false -> lx_sub (lexStart st) = subNormal.
Proof.
  unfold passthrough, lexStart. simpl.
  intros [[[Hb Hr]%orb_false_elim Hq]%orb_false_elim _]%orb_false_elim. by rewrite Hb, Hr, Hq.
Qed.

Lemma lexEnd_start st : passthrough st = false -> lexEnd (lexStart st) = st.
Proof.
  intros H. pose proof (lexStart_normal st H) as N. destruct st. unfold passthrough, lexStart, lexEnd in *. simpl in *.
  apply orb_false_elim in H as [[[Hb ->]%orb_false_elim ->]%orb_false_elim ->]. rewrite Hb. done.
Qed.

Lemma scanLine_blanks b ln st : blanks b -> passthrough st = false -> scanLine b ln st = inr (st_depth st, st).
Proof.
  intros Hb H. unfold scanLine. rewrite <- (app_nil_r b), scan_leading_blanks by (done || by apply lexStart_normal).
  simpl. by rewrite lexEnd_start, Z.sub_0_r.
Qed.

Lemma scanLine_unindent l b ln st : blanks l -> passthrough st = false -> scanLine (l ++ b) ln st = scanLine b ln st.
Proof. intros Hl H. unfold scanLine. by rewrite scan_leading_blanks by (done || by apply lexStart_normal). Qed.

Definition endsBlank (line : bytes) : bool := match rev line with c :: _ => is_blank c | [] => false end.

Lemma scanLine_untrail b r ln st d next :
  blanks r -> scanLine (b ++ r) ln st = inr (d, next) -> (rawActive next = true -> r = []) ->
  scanLine b ln st = inr (d, next).
Proof.
  intros Hr H Raw. destruct r as [|c r]; [by rewrite app_nil_r in H|].
  assert (rawActive next = false) as NR by (destruct (rawActive next); [by discriminate Raw|done]).
  unfold scanLine in *. pose proof (scan_app_blanks ln None 0 b _ (lexStart st) Hr ltac:(lia)) as S.
  destruct (scan ln None 0 b _) as [e|y]; [by rewrite S in H|]. destruct S as (z & Ez & [->| ->] & Az);
    rewrite Ez in H; injection H as <- <-; [done|].
  destruct y. unfold lexEnd, afterBlanks in *. simpl in *. by destruct lx_sub0, lx_rawSeekClose0.
Qed.

Lemma endsBlank_app b r : blanks r -> endsBlank (b ++ r) = false -> r = [].
Proof.
  intros Hr. unfold endsBlank. rewrite rev_app_distr. apply Forall_rev in Hr.
  destruct (rev r) as [|c t] eqn:E; [|inv Hr; simpl; congruence].
  intros _. by rewrite <- (rev_involutive r), E.
Qed.

(** A line rendered at the depth found scans as it did, unless it lost blanks at the end that a raw string was holding. *)
Lemma scanLine_render raw ln st d next :
  passthrough st = false -> scanLine raw ln st = inr (d, next) -> (rawActive next = true -> endsBlank raw = false) ->
  scanLine (renderLine raw d) ln st = inr (d, next).
Proof.
  intros Hp H Raw. unfold renderLine. destruct (Trim raw) as [|c t] eqn:E.
  - apply blanks_Trim in E. rewrite scanLine_blanks in H by done. by rewrite scanLine_blanks by done.
  - destruct (Trim_spec raw) as (l & r & Er & Hl & Hr). rewrite E in Er.
    rewrite scanLine_unindent by (done || apply blanks_indent). rewrite Er, scanLine_unindent in H by done.
    apply (scanLine_untrail _ _ _ _ _ _ Hr H). intros Hn. apply (endsBlank_app (l ++ c :: t)); [done|].
    rewrite <- app_assoc, <- Er. by apply Raw.
Qed.

(** No re-indented line ends, in blanks, inside a raw string. *)
Fixpoint rawTailFree (ln : Z) (st : state) (lines : list bytes) : bool :=
  match lines with
  | [] => true
  | raw :: rest =>
      match scanLine raw ln st with
      | inl _ => true
      | inr (_, next) => (passthrough st || negb (rawActive next) || negb (endsBlank raw)) && rawTailFree (ln + 1) next rest
      end
  end.

(** ** Rendering what was rendered *)

Lemma renderLines_app ln st a b :
  renderLines ln st (a ++ b) =
  match renderLines ln st a with
  | inl e => inl e
  | inr (rs, st) =>
      match renderLines (ln + Z.of_nat (length a)) st b with
      | inl e => inl e
      | inr (rs', st) => inr (rs ++ rs', st)
      end
  end.
Proof.
  revert ln st. induction a as [|l a IH]; intros ln st; simpl.
  - rewrite Z.add_0_r. by destruct (renderLines ln st b) as [|[]].
  - destruct (scanLine l ln st) as [|[d next]]; [done|]. rewrite IH.
    destruct (renderLines (ln + 1) next a) as [|[rs st']]; [done|].
    replace (ln + 1 + Z.of_nat (length a)) with (ln + Z.pos (Pos.of_succ_nat (length a))) by lia.
    by destruct (renderLines _ st' b) as [|[]].
Qed.

Lemma renderLines_again lines : forall ln st rs stf e p ln2 st2,
  renderLines ln st lines = inr (rs, stf) -> rawTailFree ln st lines = true ->
  ((0 < p)%nat -> passthrough st = false) -> unnumbered st = unnumbered st2 ->
  exists rs2 stf2, renderLines ln2 st2 (collapse e p rs) = inr (rs2, stf2) /\ unnumbered stf = unnumbered stf2 /\
    collapse e 0 rs2 = collapse e p rs.
Proof.
  induction lines as [|raw lines IH]; intros ln st rs stf e p ln2 st2 H Free Hp Hst; simpl in H, Free.
  { injection H as <- <-. by exists [], st2. }
  destruct (scanLine raw ln st) as [|[d next]] eqn:Scan; [done|].
  destruct (renderLines (ln + 1) next lines) as [|[rs' st']] eqn:R; [done|]. injection H as <- ->.
  apply andb_prop in Free as [Here Free].
  destruct (passthrough st) eqn:Pass.
  - assert (p = 0%nat) as -> by (destruct p; [done|by discriminate Hp; lia]).
    destruct (scanLine_unnumbered raw ln ln2 st st2 d next Hst Scan) as (next2 & Scan2 & Hn).
    destruct (IH _ _ _ _ true 0%nat (ln2 + 1) next2 R Free ltac:(lia) Hn) as (rs2 & stf2 & R2 & Hf & C2).
    simpl. rewrite andb_false_r. simpl. rewrite Scan2, R2, <- (passthrough_unnumbered _ _ Hst), Pass.
    eexists _, _. split; [done|]. split; [done|]. simpl. by rewrite andb_false_r, C2.
  - assert (scanLine (renderLine raw d) ln st = inr (d, next)) as Scan'.
    { apply scanLine_render; [done..|]. intros Hr. rewrite Hr in Here. simpl in Here. by destruct (endsBlank raw). }
    simpl. case_bool_decide as B.
    + assert (next = st /\ d = st_depth st) as [-> ->].
      { apply renderLine_nil in B. apply blanks_Trim in B. rewrite scanLine_blanks in Scan by done. by simplify_eq. }
      destruct (IH _ _ _ _ e (S p) ln2 st2 R Free ltac:(done) Hst) as (rs2 & stf2 & R2 & Hf & C2). by exists rs2, stf2.
    + assert (passthrough st2 = false) as Pass2 by by rewrite <- (passthrough_unnumbered _ _ Hst).
      set (gap := if e && bool_decide (0 < p)%nat then [[]] else []).
      set (ln3 := ln2 + Z.of_nat (length gap)).
      destruct (scanLine_unnumbered _ ln ln3 st st2 d next Hst Scan') as (next2 & Scan2 & Hn).
      destruct (IH _ _ _ _ true 0%nat (ln3 + 1) next2 R Free ltac:(lia) Hn) as (rs2 & stf2 & R2 & Hf & C2).
      assert (exists gs, renderLines ln2 st2 gap = inr (gs, st2) /\ gs = map (fun _ => mkRendered [] false true) gap) as (gs & G & Hgs).
      { eexists. split; [|done]. unfold gap. destruct (e && _); [|done].
        cbn [renderLines map]. rewrite scanLine_blanks, Pass2 by done. done. }
      rewrite renderLines_app, G. fold ln3. simpl. rewrite Scan2, R2, Pass2, renderLine_idem.
      eexists _, _. split; [done|]. split; [done|]. subst gs. unfold gap.
      destruct e; simpl; [|by rewrite bool_decide_false, C2]. destruct (bool_decide (0 < p)%nat); simpl;
        by rewrite (bool_decide_false (renderLine raw d = [])), C2.
Qed.

Lemma collapse_last_blank e p rs t : collapse e p (rs ++ [mkRendered t false true]) = collapse e p rs.
Proof. revert e p. induction rs as [|r rs IH]; intros e p; simpl; [done|]. case_match; by rewrite IH. Qed.

(** ** Lines and bytes *)

Abbreviation one_line := (Forall (fun c => c <> newline)).

Lemma split_bytes_line acc x b :
  one_line x -> split_bytes newline acc (x ++ newline :: b) = (rev acc ++ x) :: split_lines b.
Proof.
  intros H. revert acc. induction H as [|c x Hc _ IH]; intros acc; simpl; [by rewrite app_nil_r|].
  rewrite (proj2 (Ascii.eqb_neq _ _) Hc), IH. simpl. by rewrite <- app_assoc.
Qed.

Lemma split_join ls b : ls <> [] -> Forall one_line ls -> split_lines (join_lines ls ++ newline :: b) = ls ++ split_lines b.
Proof.
  induction ls as [|x ls IH]; [done|]. intros _ [Hx Hls]%Forall_cons. destruct ls as [|y ls].
  - by apply (split_bytes_line []).
  - cbn [join_lines]. rewrite <- app_assoc. unfold split_lines. cbn [app].
    rewrite (split_bytes_line [] x) by done. simpl app at 1. f_equal. by apply IH.
Qed.

Lemma split_bytes_one_line acc b : one_line acc -> Forall one_line (split_bytes newline acc b).
Proof.
  revert acc. induction b as [|c b IH]; intros acc H; simpl; [by repeat constructor; apply Forall_rev|].
  destruct (Ascii.eqb_spec c newline) as [->|Hc]; [constructor; [by apply Forall_rev|by apply IH]|].
  apply IH. by constructor.
Qed.

Lemma split_bytes_end acc b : exists ls, split_bytes newline acc (b ++ [newline]) = ls ++ [[]].
Proof.
  revert acc. induction b as [|c b IH]; intros acc; simpl; [by exists [rev acc]|].
  destruct (Ascii.eqb c newline); [|apply IH]. destruct (IH []) as (ls & ->). by exists (rev acc :: ls).
Qed.

Lemma one_line_sub (a b : bytes) : one_line b -> (forall c, In c a -> In c b \/ c = " "%char) -> one_line a.
Proof.
  rewrite !Forall_forall. intros Hb Ha c Hc. apply list_elem_of_In in Hc.
  destruct (Ha c Hc) as [H| ->]; [by apply Hb, list_elem_of_In|done].
Qed.

Lemma renderLine_one_line raw d : one_line raw -> one_line (renderLine raw d).
Proof.
  intros H. apply (one_line_sub _ raw H). intros c. destruct (Trim_spec raw) as (l & r & E & _).
  unfold renderLine. destruct (Trim raw) as [|x t]; [done|]. intros [Hc|Hc]%in_app_or.
  - right. by apply repeat_spec in Hc.
  - left. rewrite E. apply in_or_app. right. apply in_or_app. by left.
Qed.

Lemma renderLines_one_line lines : forall ln st rs stf,
  Forall one_line lines -> renderLines ln st lines = inr (rs, stf) -> Forall (fun r => one_line (rl_text r)) rs.
Proof.
  induction lines as [|raw lines IH]; intros ln st rs stf HL H; simpl in H; [by simplify_eq|].
  apply Forall_cons in HL as [Hraw HL].
  destruct (scanLine raw ln st) as [|[d next]]; [done|].
  destruct (renderLines (ln + 1) next lines) as [|[rs' st']] eqn:R; [done|]. simplify_eq.
  constructor; [|by eapply IH]. destruct (passthrough st); simpl; [done|]. by apply renderLine_one_line.
Qed.

Lemma collapse_one_line e p rs : Forall (fun r => one_line (rl_text r)) rs -> Forall one_line (collapse e p rs).
Proof.
  intros H. revert e p. induction H as [|r rs Hr _ IH]; intros e p; simpl; [constructor|].
  destruct (_ && _); [apply IH|]. apply Forall_app. split; [|by constructor]. destruct (_ && _); by repeat constructor.
Qed.

(** ** The text of a file *)

Definition endsInNewline (data : bytes) : bool := nextIs newline (rev data).

Lemma endsInNewline_split data : endsInNewline data = true -> exists ls, split_lines data = ls ++ [[]].
Proof.
  unfold endsInNewline. destruct (rev data) as [|c t] eqn:E; [done|]. simpl. intros ->%Ascii.eqb_eq.
  rewrite <- (rev_involutive data), E. apply split_bytes_end.
Qed.

Lemma renderLines_last ln st a rs stf : renderLines ln st (a ++ [[]]) = inr (rs, stf) -> continuation stf = false.
Proof.
  rewrite renderLines_app. destruct (renderLines ln st a) as [|[rs1 st1]]; [done|]. simpl. intros H.
  destruct (passthrough st1); injection H as _ <-; apply andb_false_r.
Qed.

(** The text of some lines: nothing, or every line ended. *)
Definition text_of (lines : list bytes) : bytes := match lines with [] => [] | _ => join_lines lines ++ [newline] end.

(** What [normalize] makes of the lines when it does not refuse. *)
Lemma normalize_inr data out :
  normalize data = inr out <->
  exists rs st, renderLines 1 zeroState (split_lines data) = inr (rs, st) /\
    blockDepth st <= 0 /\ rawActive st = false /\ quotedActive st = false /\
    out = text_of (collapse false 0 rs).
Proof.
  unfold normalize. destruct (renderLines 1 zeroState (split_lines data)) as [e|[rs st]].
  { split; [done|]. by intros (? & ? & ? & _). }
  split.
  - intros H. exists rs, st. split; [done|]. repeat (case_match; [done|]). split; [lia|].
    split; [done|]. split; [done|]. by case_match; simplify_eq.
  - intros (rs' & st' & [= <- <-] & Hb & -> & -> & ->).
    rewrite (proj2 (Z.ltb_ge 0 _) Hb). by case_match.
Qed.

Lemma normalize_again data out :
  normalize data = inr out -> endsInNewline data = true -> rawTailFree 1 zeroState (split_lines data) = true ->
  normalize out = inr out.
Proof.
  intros (rs & st & R & Hb & Hr & Hq & E)%normalize_inr Hnl Free. destruct (endsInNewline_split data Hnl) as (ls & Hls).
  destruct (renderLines_again _ _ _ _ _ false 0%nat 1 zeroState R Free ltac:(done) eq_refl) as (rs2 & st2 & R2 & Hst & C2).
  assert (Forall one_line (collapse false 0 rs)) as One.
  { eapply collapse_one_line, renderLines_one_line, R. by apply split_bytes_one_line. }
  assert (passthrough st2 = false) as Pass.
  { rewrite <- (passthrough_unnumbered _ _ Hst). unfold passthrough.
    rewrite Hls in R. rewrite Hr, Hq, (renderLines_last _ _ _ _ _ R). by rewrite (proj2 (Z.ltb_ge 0 _) Hb). }
  apply normalize_inr. exists (rs2 ++ [mkRendered [] false true]), st2. split; [|split_and!].
  - assert (split_lines out = collapse false 0 rs ++ [[]]) as ->.
    { subst out. destruct (collapse false 0 rs) as [|x l] eqn:Cl; [done|]. by apply (split_join (x :: l)). }
    rewrite renderLines_app, R2. cbn [renderLines]. rewrite (scanLine_blanks [] _ st2) by done. by rewrite Pass.
  - destruct st, st2. unfold unnumbered in Hst. simpl in *. congruence.
  - destruct st, st2. unfold unnumbered in Hst. simpl in *. congruence.
  - destruct st, st2. unfold unnumbered in Hst. simpl in *. congruence.
  - by rewrite collapse_last_blank, C2.
Qed.

(** ** What the formatter may do to a file *)

(** The lines of a file, each with whether it begins inside a comment, a string or a continuation. *)
Fixpoint tagged (ln : Z) (st : state) (lines : list bytes) : list (bool * bytes) :=
  match lines with
  | [] => []
  | raw :: rest => (passthrough st, raw) ::
      match scanLine raw ln st with inl _ => [] | inr (_, next) => tagged (ln + 1) next rest end
  end.

(** Lines keep their order; the ones inside a construct are untouched, of the others only the blanks around the content change, and
    only blank ones may go. *)
Inductive reflowed : list (bool * bytes) -> list bytes -> Prop :=
  | rf_end : reflowed [] []
  | rf_verbatim l ts os : reflowed ts os -> reflowed ((true, l) :: ts) (l :: os)
  | rf_indented l d ts os : 0 <= d -> Trim l <> [] -> reflowed ts os -> reflowed ((false, l) :: ts) ((indent d ++ Trim l) :: os)
  | rf_blank l ts os : Trim l = [] -> reflowed ts os -> reflowed ((false, l) :: ts) ([] :: os)
  | rf_dropped l ts os : Trim l = [] -> reflowed ts os -> reflowed ((false, l) :: ts) os.

Lemma reflowed_drop pend ts os : Forall (fun l => Trim l = []) pend -> reflowed ts os -> reflowed (map (pair false) pend ++ ts) os.
Proof. intros H. induction H; simpl; [done|]. intros R. apply rf_dropped; auto. Qed.

Lemma reflowed_gap e pend ts os :
  Forall (fun l => Trim l = []) pend -> reflowed ts os ->
  reflowed (map (pair false) pend ++ ts) ((if e && bool_decide (0 < length pend)%nat then [[]] else []) ++ os).
Proof.
  intros H R. destruct H as [|l pend Hl H]; simpl; [by rewrite andb_false_r|].
  destruct (e && _); simpl; [apply rf_blank|apply rf_dropped]; try done; by apply reflowed_drop.
Qed.

(** A line is never indented by less than nothing. *)
Lemma scanByte_leading ln prev c t x :
  (leadingRun x = true -> lx_sub x = subNormal) -> 0 <= lx_depth x -> forall D, leadingCloses x <= D ->
  (leadingRun x = true -> leadingCloses x + lx_depth x = D) ->
  match scanByte ln prev c t x with
  | Next _ y | Break y => (leadingRun y = true -> lx_sub y = subNormal) /\ 0 <= lx_depth y /\ leadingCloses y <= D /\
      (leadingRun y = true -> leadingCloses y + lx_depth y = D)
  | Refuse _ => True
  end.
Proof.
  intros Hn Hd D Hc HD. destruct x as [dep sub ? ? ? ? ? ? ? run cl ? ?]. simpl in *.
  destruct (scanByte ln prev c t _) eqn:E; [..|done];
    unfold scanByte, inBlock, inRaw, rawByte, inQuoted, inNormal, notLeading in E; simpl in E;
    destruct sub, run; try (by specialize (Hn eq_refl)); specialize (HD eq_refl) || clear HD;
    repeat (case_match; simplify_eq/=); split_and!; done || lia.
Qed.

Lemma scan_leading ln prev k b x y D :
  scan ln prev k b x = inr y -> (leadingRun x = true -> lx_sub x = subNormal) -> 0 <= lx_depth x -> leadingCloses x <= D ->
  (leadingRun x = true -> leadingCloses x + lx_depth x = D) -> leadingCloses y <= D /\ 0 <= lx_depth y.
Proof.
  revert prev k x. induction b as [|c b IH]; intros prev k x H Hn Hd Hc HD; simpl in H; [by simplify_eq|].
  destruct k; [|by eapply IH]. pose proof (scanByte_leading ln prev c b x Hn Hd D Hc HD) as S.
  destruct (scanByte ln prev c b x); [|by simplify_eq; destruct_and!|done].
  destruct_and!. by eapply IH.
Qed.

Lemma scanLine_depth line ln st d next : scanLine line ln st = inr (d, next) -> 0 <= st_depth st -> 0 <= d /\ 0 <= st_depth next.
Proof.
  unfold scanLine. intros H Hd. destruct (scan ln None 0 line (lexStart st)) as [|y] eqn:E; [done|].
  destruct (scan_leading _ _ _ _ _ _ (st_depth st) E) as [Hc Hy]; [|done|done|simpl; lia|injection H as <- <-; simpl; lia].
  unfold lexStart. simpl. intros B%bool_decide_eq_true. done.
Qed.

Lemma renderLines_reflowed lines : forall ln st rs stf e pend,
  renderLines ln st lines = inr (rs, stf) -> 0 <= st_depth st -> Forall (fun l => Trim l = []) pend ->
  reflowed (map (pair false) pend ++ tagged ln st lines) (collapse e (length pend) rs).
Proof.
  induction lines as [|raw lines IH]; intros ln st rs stf e pend H Hd Hp; simpl in H |- *.
  { injection H as <- <-. apply reflowed_drop; [done|constructor]. }
  destruct (scanLine raw ln st) as [|[d next]] eqn:Scan; [done|].
  destruct (renderLines (ln + 1) next lines) as [|[rs' st']] eqn:R; [done|]. injection H as <- ->.
  destruct (scanLine_depth _ _ _ _ _ Scan Hd) as [Hd' Hn].
  destruct (passthrough st); simpl; [|case_bool_decide as B; simpl].
  - apply reflowed_gap; [done|]. apply rf_verbatim. by apply (IH _ _ _ _ true [] R).
  - apply renderLine_nil in B. rewrite <- (length_app pend [raw]) || rewrite <- Nat.add_1_r.
    replace (length pend + 1)%nat with (length (pend ++ [raw])) by (rewrite length_app; done).
    pose proof (IH _ _ _ _ e (pend ++ [raw]) R Hn) as Q. rewrite map_app, <- app_assoc in Q. apply Q.
    apply Forall_app. by repeat constructor.
  - apply reflowed_gap; [done|]. rewrite renderLine_nil in B. unfold renderLine.
    destruct (Trim raw) as [|c t] eqn:T; [done|]. rewrite <- T.
    apply rf_indented; [done|by rewrite T|]. by apply (IH _ _ _ _ true [] R).
Qed.

(** What is left of a text without its white space. *)
Definition inked (b : bytes) : bytes := List.filter (fun c => negb (is_blank c || Ascii.eqb c newline)) b.

Lemma inked_app a b : inked (a ++ b) = inked a ++ inked b.
Proof. apply List.filter_app. Qed.

Lemma inked_blanks l : blanks l -> inked l = [].
Proof. induction 1 as [|c l Hc _ IH]; [done|]. unfold inked. simpl. by rewrite Hc. Qed.

Lemma inked_Trim l : inked (Trim l) = inked l.
Proof.
  destruct (Trim_spec l) as (a & b & E & Ha & Hb). rewrite E at 2.
  by rewrite !inked_app, (inked_blanks a), (inked_blanks b), app_nil_r.
Qed.

Lemma inked_join ls : inked (join_lines ls) = concat (map inked ls).
Proof.
  induction ls as [|x ls IH]; [done|]. destruct ls as [|y ls]; [by simpl; rewrite app_nil_r|].
  cbn [join_lines]. rewrite inked_app. simpl in IH |- *. unfold inked at 2. simpl. f_equal. apply IH.
Qed.

Lemma inked_split acc b : concat (map inked (split_bytes newline acc b)) = inked (rev acc) ++ inked b.
Proof.
  revert acc. induction b as [|c b IH]; intros acc; [simpl; done|]. cbn [split_bytes].
  destruct (Ascii.eqb_spec c newline) as [->|Hc]; cbn [map concat]; rewrite IH; [done|].
  cbn [rev]. by rewrite inked_app, <- app_assoc, <- (inked_app [c] b).
Qed.

Lemma reflowed_inked ts os : reflowed ts os -> concat (map inked os) = concat (map (fun t => inked t.2) ts).
Proof.
  induction 1 as [|l ts os _ IH|l d ts os _ _ _ IH|l ts os Hl _ IH|l ts os Hl _ IH]; simpl; rewrite ?IH; try done.
  - by rewrite inked_app, (inked_blanks (indent d)), inked_Trim by apply blanks_indent.
  - by rewrite (inked_blanks l) by by apply blanks_Trim.
  - by rewrite (inked_blanks l) by by apply blanks_Trim.
Qed.

Lemma tagged_lines ln st lines rs stf : renderLines ln st lines = inr (rs, stf) -> map snd (tagged ln st lines) = lines.
Proof.
  revert ln st rs. induction lines as [|raw lines IH]; intros ln st rs H; simpl in *; [done|].
  destruct (scanLine raw ln st) as [|[d next]]; [done|].
  destruct (renderLines (ln + 1) next lines) as [|[rs' st']] eqn:R; [done|]. f_equal. simplify_eq. by eapply IH.
Qed.

(** No blank line at the start, at the end, or after another. *)
Fixpoint tidyAfter (blank : bool) (lines : list bytes) : bool :=
  match lines with
  | [] => negb blank
  | l :: lines => negb (blank && bool_decide (l = [])) && tidyAfter (bool_decide (l = [])) lines
  end.

Definition tidy (lines : list bytes) : bool := bool_decide (lines = []) || tidyAfter true lines.

Definition all_rendered (rs : list renderedLine) : Prop :=
  Forall (fun r => rl_passthrough r = false /\ rl_blank r = bool_decide (rl_text r = [])) rs.

Lemma collapse_tidyAfter p rs : all_rendered rs -> tidyAfter false (collapse true p rs) = true.
Proof.
  intros H. revert p. induction H as [|r rs [Hp Hb] _ IH]; intros p; simpl; [done|]. rewrite Hp, Hb. simpl.
  case_bool_decide as T; [apply IH|]. destruct (bool_decide (0 < p)%nat); simpl; by rewrite bool_decide_false, IH.
Qed.

Lemma collapse_tidy p rs : all_rendered rs -> tidy (collapse false p rs) = true.
Proof.
  intros H. revert p. induction H as [|r rs [Hp Hb] H IH]; intros p; simpl; [done|]. rewrite Hp, Hb. simpl.
  case_bool_decide as T; [apply IH|]. unfold tidy. simpl. by rewrite (bool_decide_false (rl_text r = [])), collapse_tidyAfter.
Qed.

Lemma renderLines_all_rendered lines : forall ln st rs stf,
  renderLines ln st lines = inr (rs, stf) -> Forall (fun t => t.1 = false) (tagged ln st lines) -> all_rendered rs.
Proof.
  induction lines as [|raw lines IH]; intros ln st rs stf H T; simpl in *; [by simplify_eq; constructor|].
  destruct (scanLine raw ln st) as [|[d next]]; [done|].
  destruct (renderLines (ln + 1) next lines) as [|[rs' st']] eqn:R; [done|].
  apply Forall_cons in T as [T1 T2]. simpl in T1. rewrite T1 in H. simplify_eq. constructor; [done|]. by eapply IH.
Qed.

(** ** Indentation *)

(** A file in which braces are just braces. *)
Definition plain (b : bytes) : bool :=
  forallb (fun c => negb (Ascii.eqb c dquote || Ascii.eqb c "/" || Ascii.eqb c backslash)) b.

Definition brace (c : ascii) : Z := if Ascii.eqb c "{" then 1 else if Ascii.eqb c "}" then -1 else 0.

(** The depth after a text, unless it goes below zero on the way. *)
Fixpoint depthAfter (d : Z) (b : bytes) : option Z :=
  match b with
  | [] => Some d
  | c :: b => if d + brace c <? 0 then None else depthAfter (d + brace c) b
  end.

(** The closing braces a line starts with. *)
Fixpoint closesFirst (b : bytes) : Z :=
  match b with
  | [] => 0
  | c :: b => if is_blank c then closesFirst b else if Ascii.eqb c "}" then 1 + closesFirst b else 0
  end.

(** Every line indented by the braces open before it less the ones it closes first; an error names the line whose brace closes nothing. *)
Fixpoint indented (ln d : Z) (lines : list bytes) : string + list bytes :=
  match lines with
  | [] => inr []
  | raw :: rest =>
      match depthAfter d raw with
      | None => inl (unmatched ln)
      | Some d' => match indented (ln + 1) d' rest with
                   | inl e => inl e
                   | inr ls => inr (renderLine raw (d - closesFirst raw) :: ls)
                   end
      end
  end.

(** Blank lines at the start and the end go, and of those in a row one stays. *)
Fixpoint squeeze (some : bool) (pending : bool) (lines : list bytes) : list bytes :=
  match lines with
  | [] => []
  | [] :: rest => squeeze some true rest
  | l :: rest => (if some && pending then [[]] else []) ++ l :: squeeze true false rest
  end.

Definition atDepth (d : Z) : state := mkState d 0 0 false 0 false 0 0 false 0 false.

Definition lexAt (d : Z) (run : bool) (closes : Z) : lexer := mkLexer d subNormal 0 0 0 false 0 0 0 run closes false false.

Lemma nextIs_plain b : plain b = true -> nextIs dquote b = false /\ nextIs "/" b = false.
Proof. destruct b as [|c b]; [done|]. simpl. destruct (Ascii.eqb c dquote), (Ascii.eqb c "/"); done. Qed.

Lemma drop_plain n b : plain b = true -> plain (drop n b) = true.
Proof. revert b. induction n; intros b H; [done|]. destruct b as [|c b]; [done|]. apply andb_prop in H as [_ H]. by apply IHn. Qed.

Lemma rawStringStart_plain prev b : plain b = true -> rawStringStart prev b = false.
Proof. intros H. unfold rawStringStart. rewrite (proj1 (nextIs_plain _ (drop_plain _ b H))). apply andb_false_r. Qed.

Lemma scanByte_plain ln prev c b d run closes :
  plain (c :: b) = true -> 0 <= d ->
  scanByte ln prev c b (lexAt d run closes) =
  if d + brace c <? 0 then Refuse (unmatched ln)
  else Next 0 (lexAt (d + brace c) (run && (is_blank c || Ascii.eqb c "}"))
                (if run && Ascii.eqb c "}" then closes + 1 else closes)).
Proof.
  intros [Hc Hb]%andb_prop Hd. apply negb_true_iff, orb_false_elim in Hc as [[Hq Hs]%orb_false_elim Hbs].
  unfold scanByte, inNormal, lexAt, brace, notLeading. simpl.
  rewrite Hq, Hs, Hbs, rawStringStart_plain, andb_false_r by done. simpl.
  destruct (Ascii.eqb_spec c "{") as [->|_]; [|destruct (Ascii.eqb_spec c "}") as [->|_]].
  - rewrite (proj2 (Z.ltb_ge _ _)) by lia. simpl. by rewrite andb_false_r.
  - destruct (d - 1 <? 0) eqn:E; replace (d + -1) with (d - 1) by lia; rewrite E; [done|]. simpl. by destruct run.
  - rewrite Z.add_0_r, (proj2 (Z.ltb_ge d 0)), orb_false_r, !andb_false_r by done.
    destruct (is_blank c); by rewrite ?andb_true_r, ?andb_false_r.
Qed.

Lemma scan_plain ln prev b d run closes :
  plain b = true -> 0 <= d ->
  match depthAfter d b with
  | None => scan ln prev 0 b (lexAt d run closes) = inl (unmatched ln)
  | Some d' => 0 <= d' /\ exists run', scan ln prev 0 b (lexAt d run closes) =
      inr (lexAt d' run' (if run then closes + closesFirst b else closes))
  end.
Proof.
  revert prev d run closes. induction b as [|c b IH]; intros prev d run closes Hp Hd; simpl.
  { split; [done|]. exists run. by destruct run; rewrite ?Z.add_0_r. }
  rewrite scanByte_plain by done. destruct (d + brace c <? 0) eqn:E; [done|]. apply Z.ltb_ge in E.
  apply andb_prop in Hp as [_ Hp].
  specialize (IH (Some c) (d + brace c) (run && (is_blank c || Ascii.eqb c "}"))
    (if run && Ascii.eqb c "}" then closes + 1 else closes) Hp E).
  destruct (depthAfter (d + brace c) b); [|done]. destruct IH as (H0 & run' & ->). split; [done|]. exists run'.
  do 2 f_equal. destruct run; [|done]. simpl. destruct (is_blank c) eqn:B; [|destruct (Ascii.eqb c "}")]; simpl; [|lia|lia].
  destruct (is_blank_cases c B) as [->|[->| ->]]; done.
Qed.

Lemma renderLines_plain lines : forall ln d,
  Forall (fun l => plain l = true) lines -> 0 <= d ->
  match indented ln d lines with
  | inl e => renderLines ln (atDepth d) lines = inl e
  | inr ls => exists rs d', renderLines ln (atDepth d) lines = inr (rs, atDepth d') /\ all_rendered rs /\ map rl_text rs = ls
  end.
Proof.
  induction lines as [|raw lines IH]; intros ln d HL Hd; simpl; [by exists [], d; repeat constructor|].
  apply Forall_cons in HL as [Hraw HL]. unfold scanLine. pose proof (scan_plain ln None raw d true 0 Hraw Hd) as S.
  change (lexStart (atDepth d)) with (lexAt d true 0).
  destruct (depthAfter d raw) as [d'|]; [|by rewrite S]. destruct S as (Hd' & run' & ->).
  change (lexEnd (lexAt d' run' (0 + closesFirst raw))) with (atDepth d').
  specialize (IH (ln + 1) d' HL Hd'). destruct (indented (ln + 1) d' lines) as [e|ls]; [by rewrite IH|].
  destruct IH as (rs & d2 & -> & Hrs & Hls). eexists _, d2. split; [done|]. simpl. split; [by constructor|].
  by rewrite Z.add_0_l, Hls.
Qed.

Lemma collapse_squeeze e p rs : all_rendered rs -> collapse e p rs = squeeze e (bool_decide (0 < p)%nat) (map rl_text rs).
Proof.
  intros H. revert e p. induction H as [|r rs [Hp Hb] _ IH]; intros e p; simpl; [done|]. rewrite Hp, Hb. simpl.
  destruct (rl_text r) as [|c t] eqn:T; simpl; [by rewrite IH|by rewrite IH].
Qed.

(** ** Theorems *)

Lemma text_of_inked lines : inked (text_of lines) = concat (map inked lines).
Proof. destruct lines as [|x l]; [done|]. unfold text_of. rewrite inked_app, inked_join. apply app_nil_r. Qed.

Lemma split_plain acc b : plain acc = true -> plain b = true -> Forall (fun l => plain l = true) (split_bytes newline acc b).
Proof.
  assert (forall l, plain l = true -> plain (rev l) = true) as Hrev.
  { intros l. unfold plain. rewrite !forallb_forall. intros H c Hc. by apply H, in_rev. }
  revert acc. induction b as [|c b IH]; intros acc Ha Hb; simpl; [by repeat constructor; apply Hrev|].
  apply andb_prop in Hb as [Hc Hb]. destruct (Ascii.eqb c newline).
  - constructor; [by apply Hrev|by apply IH].
  - apply IH; [|done]. simpl. by rewrite Hc, Ha.
Qed.

(** C40. Formatting touches white space only. What [Format] returns for a valid file is again a valid file with the same bytes but for white
    space; its lines are the file's in order: those that begin inside a comment, a string or a continuation unchanged, the others with new blanks
    around the same content, and only blank lines gone. When no line begins inside such a construct there is no blank line at
    the start, at the end or after another. *)
Theorem format_reflows Parse data out :
  Format Parse data = inr out ->
  Parse data = None /\ Parse out = None /\ inked out = inked data /\
  exists lines, out = text_of lines /\
    reflowed (tagged 1 zeroState (split_lines data)) lines /\
    (Forall (fun t => t.1 = false) (tagged 1 zeroState (split_lines data)) -> tidy lines = true).
Proof.
  unfold Format. destruct (Parse data) eqn:P; [done|]. destruct (normalize data) as [|out'] eqn:N; [done|].
  destruct (Parse out') eqn:P'; [done|]. intros [= ->]. apply normalize_inr in N as (rs & st & R & _ & _ & _ & ->).
  pose proof (renderLines_reflowed _ _ _ _ _ false [] R ltac:(done) ltac:(done)) as Rf. simpl in Rf.
  split; [done|]. split; [done|]. split.
  - rewrite text_of_inked, (reflowed_inked _ _ Rf).
    rewrite <- (map_map snd inked), (tagged_lines _ _ _ _ _ R). apply (inked_split []).
  - eexists. split; [done|]. split; [done|]. intros T. eapply collapse_tidy, renderLines_all_rendered, T. done.
Qed.

(** Formatting is idempotent: formatting a formatted file changes nothing and is never refused, for a file that ends in a newline and none of whose
    re-indented lines ends in blanks inside a raw string. *)
Theorem format_idempotent Parse data out :
  Format Parse data = inr out -> endsInNewline data = true -> rawTailFree 1 zeroState (split_lines data) = true ->
  Format Parse out = inr out.
Proof.
  intros F Hnl Free. unfold Format in *. destruct (Parse data); [done|].
  destruct (normalize data) as [|out'] eqn:N; [done|]. destruct (Parse out') eqn:P; [done|]. injection F as ->.
  by rewrite P, (normalize_again _ _ N Hnl Free), P.
Qed.

(** Where braces are just braces the formatter agrees with the reference that counts them: every line is indented by four spaces for each
    brace open before it less those it closes first, blank lines are squeezed, and the file is refused exactly when some
    brace closes nothing, by the line it is on. *)
Theorem normalize_indents data :
  plain data = true ->
  normalize data = match indented 1 0 (split_lines data) with
                   | inl e => inl e
                   | inr lines => inr (text_of (squeeze false false lines))
                   end.
Proof.
  intros H. pose proof (renderLines_plain _ 1 0 (split_plain [] data eq_refl H) ltac:(done)) as R.
  change (atDepth 0) with zeroState in R. unfold normalize.
  change (split_bytes newline [] data) with (split_lines data) in R.
  destruct (indented 1 0 (split_lines data)) as [e|ls]; [by rewrite R|].
  destruct R as (rs & d & -> & Hrs & <-). simpl. rewrite (collapse_squeeze false 0 rs Hrs). simpl. unfold text_of.
  by case_match.
Qed.

(** ** Inputs *)

Definition lines_of (l : list string) : bytes := concat (map (fun s => to_bytes s ++ [newline]) l).

Definition sample : bytes := lines_of ["check { "; "  name unit  "; "/* }"; "   */"; ""; ""; "} // end"; ""]%string.
Definition sample_out : bytes := lines_of ["check {"; "    name unit"; "    /* }"; "   */"; ""; "} // end"]%string.

Example sample_formats : normalize sample = inr sample_out.
Proof. vm_compute. reflexivity. Qed.

Lemma format_reflows_witness :
  Format (fun _ => None) sample = inr sample_out /\ inked sample_out = inked sample.
Proof.
  assert (Format (fun _ => None) sample = inr sample_out) as H by (vm_compute; reflexivity).
  split; [exact H|]. exact (proj1 (proj2 (proj2 (format_reflows _ _ _ H)))).
Defined.

Lemma format_idempotent_witness : Format (fun _ => None) sample_out = inr sample_out.
Proof. apply (format_idempotent _ sample); vm_compute; reflexivity. Defined.

Lemma normalize_indents_witness :
  plain (lines_of ["a {"; "b {"; "c"; "} }"]%string) = true /\
  normalize (lines_of ["a {"; "b {"; "c"; "} }"]%string) = inr (lines_of ["a {"; "    b {"; "        c"; "} }"]%string).
Proof.
  split; [reflexivity|]. rewrite (normalize_indents (lines_of ["a {"; "b {"; "c"; "} }"]%string)); vm_compute; reflexivity.
Defined.

Definition raw_open : bytes := to_bytes "a r#" ++ [dquote].
Definition raw_close : bytes := [dquote] ++ to_bytes "#".

(** A raw string over two lines loses the blanks at the end of its first. *)
Example raw_string_trimmed :
  normalize (raw_open ++ to_bytes "x  " ++ [newline] ++ to_bytes "y" ++ raw_close ++ [newline])
  = inr (raw_open ++ to_bytes "x" ++ [newline] ++ to_bytes "y" ++ raw_close ++ [newline]).
Proof. vm_compute. reflexivity. Qed.

(** A quote at the end of a line is taken with the hash sign that starts the next: with the blanks between them the file is formatted, and then, they being gone, refused. *)
Example raw_quote_at_line_end :
  let out := raw_open ++ to_bytes "x" ++ [dquote] ++ [newline] ++ to_bytes "# }" ++ raw_close ++ [newline] in
  normalize (raw_open ++ to_bytes "x" ++ [dquote] ++ to_bytes "  " ++ [newline] ++ to_bytes "# }" ++ raw_close ++ [newline]) = inr out /\
  normalize out = inl (unmatched 2).
Proof. vm_compute. done. Qed.
