(* ===== verification/DiffLines.v ===== *)
(** What [gauntlet fmt] shows and writes (src/cmd/gauntlet/difflines.go and fmt.go): the line diff by longest common
    subsequence, its hunks, and the command's modes over the files it is given. *)
From stdpp Require Import list_numbers.
From S2P Require Import Prelude GoString KdlFmt.
From Stdlib Require Import Ascii.

Open Scope list_scope.
Open Scope nat_scope.

Abbreviation line := bytes.

(** src/cmd/gauntlet/difflines.go:14-20 [opKind] *)
Inductive opKind := opEqual | opDelete | opInsert.

#[export] Instance opKind_eq : EqDecision opKind.
Proof. solve_decision. Defined.

(** src/cmd/gauntlet/difflines.go:22-30 [diffOp] *)
Record diffOp := mkOp { op_kind : opKind; op_line : line; op_noNL : bool }.

(** src/cmd/gauntlet/difflines.go:77-77 [noNLSentinel] *)
Definition noNLSentinel : ascii := Ascii.zero.

(** src/cmd/gauntlet/difflines.go:61-73 [splitLinesKeepingNone] *)
Definition splitLinesKeepingNone (data : bytes) : list line :=
  match data with
  | [] => []
  | _ =>
      let lines := split_lines data in
      match rev lines with
      | [] :: front => rev front
      | last :: front => rev front ++ [last ++ [noNLSentinel]]
      | [] => []
      end
  end.

(** src/cmd/gauntlet/difflines.go:84-100 [diffLines] One row of the table from the row above: [diag] and [up] are read from it and [left] is the entry before. *)
Fixpoint lcsRow (x : line) (b : list line) (above : list nat) (left_ : nat) : list nat :=
  match b, above with
  | y :: b, diag :: ((up :: _) as above) =>
      let v := if bool_decide (x = y) then diag + 1 else if left_ <=? up then up else left_ in
      v :: lcsRow x b above v
  | _, _ => []
  end.

Fixpoint lcsRows (a b : list line) (above : list nat) : list (list nat) :=
  match a with
  | [] => []
  | x :: a => let row := 0 :: lcsRow x b above 0 in row :: lcsRows a b row
  end.

Definition lcsTable (a b : list line) : list (list nat) :=
  let first := replicate (length b + 1) 0 in first :: lcsRows a b first.

Definition dp (t : list (list nat)) (i j : nat) : nat := nth j (nth i t []) 0.

(** src/cmd/gauntlet/difflines.go:102-107 [diffLines] *)
Definition mkDiff (kind : opKind) (s : line) : diffOp :=
  match rev s with
  | c :: front => if Ascii.eqb c noNLSentinel then mkOp kind (rev front) true else mkOp kind s false
  | [] => mkOp kind s false
  end.

(** src/cmd/gauntlet/difflines.go:108-123 [diffLines] The script from its end. *)
Fixpoint backtrack (fuel : nat) (t : list (list nat)) (a b : list line) (i j : nat) : list diffOp :=
  match fuel with
  | O => []
  | S fuel =>
      match i, j with
      | O, O => []
      | _, _ =>
          let x := nth (i - 1) a [] in
          let y := nth (j - 1) b [] in
          if (0 <? i) && (0 <? j) && bool_decide (x = y) then mkDiff opEqual x :: backtrack fuel t a b (i - 1) (j - 1)
          else if (0 <? j) && ((i =? 0) || (dp t (i - 1) j <=? dp t i (j - 1))) then mkDiff opInsert y :: backtrack fuel t a b i (j - 1)
          else mkDiff opDelete x :: backtrack fuel t a b (i - 1) j
      end
  end.

(** src/cmd/gauntlet/difflines.go:83-130 [diffLines] *)
Definition diffLines (a b : list line) : list diffOp :=
  rev (backtrack (length a + length b) (lcsTable a b) a b (length a) (length b)).

(** src/cmd/gauntlet/difflines.go:135-138 [hunk] *)
Record hunk := mkHunk { oldStart : nat; newStart : nat; h_ops : list diffOp }.

(** src/cmd/gauntlet/difflines.go:146-162 [buildHunks] *)
Fixpoint regions (i : nat) (start : option nat) (ops : list diffOp) : list (nat * nat) :=
  match ops with
  | [] => match start with Some s => [(s, i)] | None => [] end
  | op :: ops =>
      match op_kind op, start with
      | opEqual, None => regions (S i) None ops
      | opEqual, Some s => (s, i) :: regions (S i) None ops
      | _, None => regions (S i) (Some i) ops
      | _, Some s => regions (S i) (Some s) ops
      end
  end.

(** src/cmd/gauntlet/difflines.go:164-170 [buildHunks] *)
Definition widen (context n : nat) (r : nat * nat) : nat * nat := (r.1 - context, Nat.min (r.2 + context) n).

(** src/cmd/gauntlet/difflines.go:173-183 [buildHunks] *)
Fixpoint mergeWindows (last : nat * nat) (ws : list (nat * nat)) : list (nat * nat) :=
  match ws with
  | [] => [last]
  | w :: ws =>
      if w.1 <=? last.2 then mergeWindows (last.1, if last.2 <? w.2 then w.2 else last.2) ws
      else last :: mergeWindows w ws
  end.

Definition takesOld (k : opKind) : nat := match k with opInsert => 0 | _ => 1 end.
Definition takesNew (k : opKind) : nat := match k with opDelete => 0 | _ => 1 end.

(** src/cmd/gauntlet/difflines.go:187-201 [buildHunks] *)
Fixpoint lineNumbers (o n : nat) (ops : list diffOp) : list (nat * nat) :=
  (o, n) :: match ops with [] => [] | op :: ops => lineNumbers (o + takesOld (op_kind op)) (n + takesNew (op_kind op)) ops end.

(** src/cmd/gauntlet/difflines.go:145-212 [buildHunks] *)
Definition buildHunks (ops : list diffOp) (context : nat) : list hunk :=
  match map (widen context (length ops)) (regions 0 None ops) with
  | [] => []
  | w :: ws =>
      map (fun w : nat * nat =>
             let '(o, n) := nth w.1 (lineNumbers 1 1 ops) (0, 0) in
             mkHunk o n (take (w.2 - w.1) (drop w.1 ops)))
        (mergeWindows w ws)
  end.

Definition say (s : string) : bytes := to_bytes s.

(** src/cmd/gauntlet/difflines.go:217-244 [writeTo] *)
Definition writeTo (h : hunk) : bytes :=
  let oldCount := foldr (fun op k => takesOld (op_kind op) + k) 0 (h_ops h) in
  let newCount := foldr (fun op k => takesNew (op_kind op) + k) 0 (h_ops h) in
  say ("@@ -" +:+ pretty (oldStart h) +:+ "," +:+ pretty oldCount +:+ " +" +:+ pretty (newStart h) +:+ "," +:+ pretty newCount +:+ " @@")%string
    ++ newline ::
  concat (map (fun op =>
    (match op_kind op with opEqual => " "%char | opDelete => "-"%char | opInsert => "+"%char end :: op_line op ++ [newline])
      ++ (if op_noNL op then say "\ No newline at end of file"%string ++ [newline] else [])) (h_ops h)).

(** src/cmd/gauntlet/difflines.go:10-10 [unifiedDiffContext] *)
Definition unifiedDiffContext : nat := 3.

(** src/cmd/gauntlet/difflines.go:39-52 [unifiedDiff] *)
Definition unifiedDiff (path : string) (before after : bytes) : bytes :=
  let ops := diffLines (splitLinesKeepingNone before) (splitLinesKeepingNone after) in
  say ("--- " +:+ path +:+ ".orig")%string ++ newline :: say ("+++ " +:+ path)%string ++ newline ::
  concat (map writeTo (buildHunks ops unifiedDiffContext)).

(** ** The table *)

Lemma lcsRow_length x b : forall above l, length above = length b + 1 -> length (lcsRow x b above l) = length b.
Proof.
  induction b as [|y b IH]; intros above l H; simpl in *; [done|].
  destruct above as [|d [|u above]]; simpl in *; [lia|lia|]. by rewrite IH by (simpl; lia).
Qed.

Lemma lcsRow_nth x b : forall above l j y, length above = length b + 1 -> b !! j = Some y ->
  let row := l :: lcsRow x b above l in
  nth (S j) row 0 = if bool_decide (x = y) then nth j above 0 + 1
                    else if nth j row 0 <=? nth (S j) above 0 then nth (S j) above 0 else nth j row 0.
Proof.
  induction b as [|y' b IH]; intros above l j y H Hj; [done|].
  destruct above as [|d [|u above]]; simpl in H; [lia|lia|]. destruct j as [|j]; [by injection Hj as ->|].
  simpl. set (v := if bool_decide (x = y') then _ else _).
  specialize (IH (u :: above) v j y ltac:(simpl; lia) Hj). simpl in IH. by destruct j.
Qed.

Section Table.
Variables (a b : list line).

Lemma lcsRows_row : forall a' above i, length above = length b + 1 -> i <= length a' ->
  length (nth i (above :: lcsRows a' b above) []) = length b + 1.
Proof.
  induction a' as [|x a' IH]; intros above [|i] H Hi; simpl in *; [done|lia|done|].
  apply IH; [simpl; rewrite lcsRow_length by done; lia|lia].
Qed.

Lemma lcsRows_next : forall a' above i x, length above = length b + 1 -> a' !! i = Some x ->
  nth (S i) (above :: lcsRows a' b above) [] = 0 :: lcsRow x b (nth i (above :: lcsRows a' b above) []) 0.
Proof.
  induction a' as [|x' a' IH]; intros above i x H Hi; [done|]. destruct i as [|i]; [by injection Hi as ->|].
  cbn [lcsRows]. change (nth (S (S i)) ?l []) with (nth (S i) (tail l) []). cbn [tail].
  change (nth (S i) (above :: ?l) []) with (nth i l []). apply IH; [|done].
  simpl. rewrite lcsRow_length by done. lia.
Qed.

Abbreviation D := (dp (lcsTable a b)).

Lemma D_first j : D 0 j = 0.
Proof. unfold dp, lcsTable. simpl nth at 2. revert j. generalize (length b + 1). induction n; intros [|j]; simpl; auto. Qed.

Lemma D_step i j x y : a !! i = Some x -> b !! j = Some y ->
  D (S i) (S j) = if bool_decide (x = y) then D i j + 1 else if D (S i) j <=? D i (S j) then D i (S j) else D (S i) j.
Proof.
  intros Hx Hy. unfold dp, lcsTable. rewrite (lcsRows_next _ _ _ _ (length_replicate _ _) Hx).
  apply lcsRow_nth; [|done]. apply lcsRows_row; [apply length_replicate|]. apply lookup_lt_Some in Hx. lia.
Qed.

Lemma D_left i : i <= length a -> D i 0 = 0.
Proof.
  destruct i as [|i]; [intros _; apply D_first|]. intros Hi.
  destruct (lookup_lt_is_Some_2 a i Hi) as [x Hx]. unfold dp, lcsTable. by rewrite (lcsRows_next _ _ _ _ (length_replicate _ _) Hx).
Qed.

(** No common subsequence of two prefixes is longer than their entry. *)
Lemma D_longest i : forall j s, i <= length a -> j <= length b -> s `sublist_of` take i a -> s `sublist_of` take j b -> length s <= D i j.
Proof.
  induction i as [|i IHi]; [intros j s _ _ H%sublist_nil_r _; by rewrite H; simpl; lia|].
  induction j as [|j IHj]; intros s Hi Hj Ha Hb; [apply sublist_nil_r in Hb; subst; simpl; lia|].
  destruct (lookup_lt_is_Some_2 a i Hi) as [x Hx]. destruct (lookup_lt_is_Some_2 b j Hj) as [y Hy].
  rewrite (D_step i j x y Hx Hy). pose proof Ha as Ha0. pose proof Hb as Hb0.
  rewrite (take_S_r _ _ _ Hx) in Ha. rewrite (take_S_r _ _ _ Hy) in Hb.
  apply sublist_app_r in Ha as (s1 & s2 & E1 & Ha1 & Ha2). apply sublist_app_r in Hb as (t1 & t2 & E2 & Hb1 & Hb2).
  assert (s2 = [] \/ s2 = [x]) as Hs2.
  { apply sublist_cons_r in Ha2 as [->%sublist_nil_r|(? & -> & ->%sublist_nil_r)]; auto. }
  assert (t2 = [] \/ t2 = [y]) as Ht2.
  { apply sublist_cons_r in Hb2 as [->%sublist_nil_r|(? & -> & ->%sublist_nil_r)]; auto. }
  case_bool_decide as E.
  - destruct Hs2 as [->| ->], Ht2 as [->| ->]; rewrite ?app_nil_r in *.
    + subst s1 t1. specialize (IHi j s ltac:(lia) ltac:(lia) Ha1 Hb1). lia.
    + subst s1. rewrite E2, length_app. simpl.
      enough (length t1 <= D i j) by lia. apply IHi; [lia|lia| |done]. etrans; [|exact Ha1]. rewrite E2. by apply sublist_inserts_r.
    + subst t1. rewrite E1, length_app. simpl.
      enough (length s1 <= D i j) by lia. apply IHi; [lia|lia|done|]. etrans; [|exact Hb1]. rewrite E1. by apply sublist_inserts_r.
    + rewrite E1 in E2. apply app_inj_2 in E2 as [-> _]; [|done]. rewrite E1, length_app. simpl.
      enough (length t1 <= D i j) by lia. by apply IHi; [lia|lia| |].
  - assert (length s <= D i (S j) \/ length s <= D (S i) j) as Hor.
    { destruct Hs2 as [->| ->]; rewrite ?app_nil_r in *; [left; subst s1; by apply IHi; [lia| | |]|].
      destruct Ht2 as [->| ->]; rewrite ?app_nil_r in *; [right; subst t1; by apply IHj; [|lia| |]|].
      rewrite E1 in E2. apply app_inj_2 in E2 as [_ [= ->]]; [|done]. done. }
    case_match eqn:L; [apply Nat.leb_le in L|apply Nat.leb_gt in L]; lia.
Qed.
End Table.

(** ** The script *)

Definition restored (op : diffOp) : line := if op_noNL op then op_line op ++ [noNLSentinel] else op_line op.

(** The lines a script takes from the old file and those it leaves in the new one. *)
Definition oldOf (op : diffOp) : list line := match op_kind op with opInsert => [] | _ => [restored op] end.
Definition newOf (op : diffOp) : list line := match op_kind op with opDelete => [] | _ => [restored op] end.
Definition oldSide (ops : list diffOp) : list line := flat_map oldOf ops.
Definition newSide (ops : list diffOp) : list line := flat_map newOf ops.
Definition kept (ops : list diffOp) : nat := length (List.filter (fun op => bool_decide (op_kind op = opEqual)) ops).

Lemma mkDiff_kind k s : op_kind (mkDiff k s) = k.
Proof. unfold mkDiff. destruct (rev s); [done|]. by case_match. Qed.

Lemma mkDiff_restored k s : restored (mkDiff k s) = s.
Proof.
  unfold mkDiff, restored. destruct (rev s) as [|c t] eqn:E; [done|].
  destruct (Ascii.eqb_spec c noNLSentinel) as [->|]; [|done]. simpl. by rewrite <- (rev_involutive s), E.
Qed.

Lemma oldSide_app x y : oldSide (x ++ y) = oldSide x ++ oldSide y. Proof. apply flat_map_app. Qed.
Lemma newSide_app x y : newSide (x ++ y) = newSide x ++ newSide y. Proof. apply flat_map_app. Qed.
Lemma kept_app x y : kept (x ++ y) = kept x + kept y. Proof. unfold kept. by rewrite List.filter_app, length_app. Qed.

Lemma oldOf_mkDiff k s : oldOf (mkDiff k s) = match k with opInsert => [] | _ => [s] end.
Proof. unfold oldOf. by rewrite mkDiff_kind, mkDiff_restored. Qed.
Lemma newOf_mkDiff k s : newOf (mkDiff k s) = match k with opDelete => [] | _ => [s] end.
Proof. unfold newOf. by rewrite mkDiff_kind, mkDiff_restored. Qed.

Lemma script_snoc ops k s :
  oldSide (ops ++ [mkDiff k s]) = oldSide ops ++ match k with opInsert => [] | _ => [s] end /\
  newSide (ops ++ [mkDiff k s]) = newSide ops ++ match k with opDelete => [] | _ => [s] end /\
  kept (ops ++ [mkDiff k s]) = kept ops + match k with opEqual => 1 | _ => 0 end.
Proof.
  rewrite oldSide_app, newSide_app, kept_app. unfold oldSide, newSide, kept. simpl.
  rewrite oldOf_mkDiff, newOf_mkDiff, mkDiff_kind, !app_nil_r. split_and!; [done|done|]. by destruct k.
Qed.

Lemma backtrack_spec a b fuel : forall i j, i <= length a -> j <= length b -> i + j <= fuel ->
  let ops := rev (backtrack fuel (lcsTable a b) a b i j) in
  oldSide ops = take i a /\ newSide ops = take j b /\ kept ops = dp (lcsTable a b) i j.
Proof.
  induction fuel as [|fuel IH]; intros i j Hi Hj Hf.
  { assert (i = 0 /\ j = 0) as [-> ->] by lia. split_and!; [done|done|by rewrite D_first]. }
  destruct i as [|i], j as [|j]; cbn [backtrack Nat.ltb Nat.leb Nat.eqb andb orb]; [split_and!; [done|done|by rewrite D_first]| | |]; cbn [Nat.sub]; rewrite ?Nat.sub_0_r.
  - destruct (lookup_lt_is_Some_2 b j Hj) as [y Hy]. rewrite (nth_lookup_Some b j [] y Hy). cbn [rev]. cbv zeta.
    destruct (IH 0 j ltac:(lia) ltac:(lia) ltac:(lia)) as (Ho & Hn & Hk).
    destruct (script_snoc (rev (backtrack fuel (lcsTable a b) a b 0 j)) opInsert y) as (-> & -> & ->).
    rewrite Ho, Hn, Hk, (take_S_r _ _ _ Hy), app_nil_r, !D_first. done.
  - destruct (lookup_lt_is_Some_2 a i Hi) as [x Hx]. rewrite (nth_lookup_Some a i [] x Hx). cbn [rev]. cbv zeta.
    destruct (IH i 0 ltac:(lia) ltac:(lia) ltac:(lia)) as (Ho & Hn & Hk).
    destruct (script_snoc (rev (backtrack fuel (lcsTable a b) a b i 0)) opDelete x) as (-> & -> & ->).
    rewrite Ho, Hn, Hk, (take_S_r _ _ _ Hx), app_nil_r, !D_left by lia. done.
  - destruct (lookup_lt_is_Some_2 a i Hi) as [x Hx]. destruct (lookup_lt_is_Some_2 b j Hj) as [y Hy].
    rewrite (nth_lookup_Some a i [] x Hx), (nth_lookup_Some b j [] y Hy), (D_step a b i j x y Hx Hy). cbv zeta.
    case_bool_decide as E; [|destruct (dp _ i (S j) <=? dp _ (S i) j) eqn:L]; cbn [rev].
    + subst y. destruct (IH i j ltac:(lia) ltac:(lia) ltac:(lia)) as (Ho & Hn & Hk).
      destruct (script_snoc (rev (backtrack fuel (lcsTable a b) a b i j)) opEqual x) as (-> & -> & ->).
      by rewrite Ho, Hn, Hk, (take_S_r _ _ _ Hx), (take_S_r _ _ _ Hy).
    + destruct (IH (S i) j ltac:(lia) ltac:(lia) ltac:(lia)) as (Ho & Hn & Hk).
      destruct (script_snoc (rev (backtrack fuel (lcsTable a b) a b (S i) j)) opInsert y) as (-> & -> & ->).
      apply Nat.leb_le in L. rewrite Ho, Hn, Hk, (take_S_r _ _ _ Hy), app_nil_r.
      split_and!; [done|done|]. case_match eqn:L2; [apply Nat.leb_le in L2|]; lia.
    + destruct (IH i (S j) ltac:(lia) ltac:(lia) ltac:(lia)) as (Ho & Hn & Hk).
      destruct (script_snoc (rev (backtrack fuel (lcsTable a b) a b i (S j))) opDelete x) as (-> & -> & ->).
      apply Nat.leb_gt in L. rewrite Ho, Hn, Hk, (take_S_r _ _ _ Hx), app_nil_r.
      split_and!; [done|done|]. case_match eqn:L2; [|apply Nat.leb_gt in L2]; lia.
Qed.

Lemma diffLines_sides a b : oldSide (diffLines a b) = a /\ newSide (diffLines a b) = b.
Proof.
  destruct (backtrack_spec a b (length a + length b) (length a) (length b)) as (Ho & Hn & _); try lia.
  unfold diffLines. by rewrite Ho, Hn, !firstn_all.
Qed.

Lemma diffLines_kept a b s : s `sublist_of` a -> s `sublist_of` b -> length s <= kept (diffLines a b).
Proof.
  intros Ha Hb. destruct (backtrack_spec a b (length a + length b) (length a) (length b)) as (_ & _ & Hk); try lia.
  unfold diffLines. rewrite Hk. apply D_longest; [lia|lia|by rewrite firstn_all|by rewrite firstn_all].
Qed.

(** ** Hunks *)

Definition within (w : nat * nat) (k : nat) : Prop := w.1 <= k < w.2.
Definition covered (ws : list (nat * nat)) (k : nat) : Prop := Exists (fun w => within w k) ws.
Definition after (v w : nat * nat) : Prop := v.1 <= w.1 /\ v.2 <= w.2.

Lemma regions_facts ops : forall i start, from_option (fun s => s < i) True start ->
  let lo := default i start in
  Forall (fun r => lo <= r.1 /\ r.1 <= r.2 /\ i <= r.2 /\ r.2 <= i + length ops) (regions i start ops) /\
  StronglySorted after (regions i start ops) /\
  (forall k, lo <= k -> k < i \/ (exists op, ops !! (k - i) = Some op /\ op_kind op <> opEqual) -> covered (regions i start ops) k).
Proof.
  induction ops as [|op ops IH]; intros i start Hs lo; simpl.
  - subst lo. destruct start as [s|]; simpl in *.
    + split_and!; [repeat constructor; simpl; lia|repeat constructor|].
      intros k Hk [H|(? & ? & _)]; [by constructor|done].
    + split_and!; [done|constructor|]. intros k Hk [H|(? & ? & _)]; [lia|done].
  - assert (forall k, i < k -> (op :: ops) !! (k - i) = ops !! (k - S i)) as Shift.
    { intros k Hk. by replace (k - i) with (S (k - S i)) by lia. }
    assert (op_kind op = opEqual \/
            (op_kind op <> opEqual /\
             match op_kind op, start with
             | opEqual, None => regions (S i) None ops
             | opEqual, Some s => (s, i) :: regions (S i) None ops
             | _, None => regions (S i) (Some i) ops
             | _, Some s => regions (S i) (Some s) ops
             end = regions (S i) (Some lo) ops)) as [E|[E ->]]
      by (subst lo; destruct (op_kind op), start; auto).
    + rewrite E. destruct (IH (S i) None I) as (F & So & C). simpl in F, C. destruct start as [s|]; simpl in *.
      * split_and!.
        { constructor; [simpl; lia|]. eapply Forall_impl; [exact F|]. simpl. lia. }
        { constructor; [exact So|]. eapply Forall_impl; [exact F|]. unfold after. simpl. lia. }
        { intros k Hk H. destruct (decide (k < i)) as [Hlt|Hge]; [left; split; simpl; lia|]. right.
          destruct H as [H|(o & Ho & Hne)]; [lia|]. destruct (decide (k = i)) as [->|Hki].
          - rewrite Nat.sub_diag in Ho. injection Ho as <-. done.
          - apply C; [lia|]. right. exists o. by rewrite <- Shift by lia. }
      * split_and!; [eapply Forall_impl; [exact F|]; simpl; lia|exact So|].
        intros k Hk [H|(o & Ho & Hne)]; [lia|]. destruct (decide (k = i)) as [->|Hki].
        { rewrite Nat.sub_diag in Ho. injection Ho as <-. done. }
        apply C; [lia|]. right. exists o. by rewrite <- Shift by lia.
    + assert (lo <= i) as Hlo by (subst lo; destruct start; simpl in *; lia).
      destruct (IH (S i) (Some lo) ltac:(simpl; lia)) as (F & So & C). simpl in F, C.
      split_and!; [eapply Forall_impl; [exact F|]; simpl; lia|exact So|].
      intros k Hk H. apply C; [done|]. destruct (decide (k < S i)) as [|Hki]; [by left|]. right.
      destruct H as [H|(o & Ho & Hne)]; [lia|]. exists o. by rewrite <- Shift by lia.
Qed.

(** Windows one after another from [lo] on, none past [n]. *)
Fixpoint apart (lo n : nat) (ws : list (nat * nat)) : Prop :=
  match ws with [] => True | w :: ws => lo <= w.1 /\ w.1 <= w.2 /\ w.2 <= n /\ apart w.2 n ws end.

Lemma apart_mono lo lo' n ws : lo' <= lo -> apart lo n ws -> apart lo' n ws.
Proof. destruct ws; simpl; [done|]. intros ? (? & ?). split; [lia|done]. Qed.

Lemma mergeWindows_facts n ws : forall last,
  last.1 <= last.2 -> last.2 <= n -> Forall (fun w => w.1 <= w.2 /\ w.2 <= n) ws -> StronglySorted after (last :: ws) ->
  apart last.1 n (mergeWindows last ws) /\ (forall k, covered (last :: ws) k -> covered (mergeWindows last ws) k).
Proof.
  induction ws as [|w ws IH]; intros last Hl Hn F S; simpl; [split; [lia|done]|].
  apply Forall_cons in F as [[Hw Hwn] F]. apply StronglySorted_inv in S as [S A]. apply Forall_cons in A as [[A1 A2] A].
  destruct (w.1 <=? last.2) eqn:E; [apply Nat.leb_le in E|apply Nat.leb_gt in E].
  - set (l := (last.1, if last.2 <? w.2 then w.2 else last.2)).
    assert (l.2 = w.2) as Hl2. { subst l. simpl. case_match eqn:L; [done|]. apply Nat.ltb_ge in L. lia. }
    apply StronglySorted_inv in S as [S Aw].
    assert (l.1 = last.1) as Hl1 by done. destruct (IH l) as [P C]; [lia|lia|done| |].
    { constructor; [done|]. rewrite Forall_forall in A, Aw |- *. intros v Hv.
      destruct (A v Hv), (Aw v Hv). unfold after. rewrite Hl1, Hl2. lia. }
    rewrite Hl1 in P. split; [done|]. intros k Hk. apply C. apply Exists_cons in Hk as [Hk|Hk]; [|apply Exists_cons in Hk as [Hk|Hk]].
    + left. unfold within in *. rewrite Hl1, Hl2. lia.
    + left. unfold within in *. rewrite Hl1, Hl2. lia.
    + by right.
  - destruct (IH w Hw Hwn F S) as [P C]. split; [split_and!; try lia; eapply apart_mono; [|exact P]; lia|].
    intros k Hk. apply Exists_cons in Hk as [Hk|Hk]; [by left|right; by apply C].
Qed.

Lemma lineNumbers_nth ops : forall o n s, s <= length ops ->
  nth s (lineNumbers o n ops) (0, 0) = (o + length (oldSide (take s ops)), n + length (newSide (take s ops))).
Proof.
  induction ops as [|op ops IH]; intros o n [|s] H; simpl in *; rewrite ?Nat.add_0_r; try done; [lia|].
  rewrite IH by lia. unfold oldSide, newSide. simpl. rewrite !length_app. unfold oldOf at 2, newOf at 2.
  destruct (op_kind op); simpl; f_equal; lia.
Qed.

(** Applying hunks from line [o] of the old file, [n] of the new one; a hunk that is not where it says, or whose old lines are not
    there, fails. *)
Fixpoint patchFrom (o n : nat) (old : list line) (hs : list hunk) : option (list line) :=
  match hs with
  | [] => Some old
  | h :: hs =>
      let k := oldStart h - o in
      let was := oldSide (h_ops h) in
      let now := newSide (h_ops h) in
      if (o <=? oldStart h) && (newStart h =? n + k) && (k <=? length old) && bool_decide (take (length was) (drop k old) = was) then
        rest ← patchFrom (o + k + length was) (n + k + length now) (drop (k + length was) old) hs;
        Some (take k old ++ now ++ rest)
      else None
  end.

Definition patch (old : list line) (hs : list hunk) : option (list line) := patchFrom 1 1 old hs.

Lemma all_equal_sides ops : (forall op, In op ops -> op_kind op = opEqual) -> oldSide ops = newSide ops /\ length (oldSide ops) = length ops.
Proof.
  induction ops as [|op ops IH]; intros H; [done|]. destruct IH as [E L]; [intros; apply H; by right|].
  change (oldSide (op :: ops)) with (oldOf op ++ oldSide ops). change (newSide (op :: ops)) with (newOf op ++ newSide ops).
  unfold oldOf, newOf. rewrite (H op (or_introl eq_refl)). cbn [app length]. by rewrite <- E, L.
Qed.

Definition hunkAt (ops : list diffOp) (w : nat * nat) : hunk :=
  let '(o, n) := nth w.1 (lineNumbers 1 1 ops) (0, 0) in mkHunk o n (take (w.2 - w.1) (drop w.1 ops)).

Lemma patchFrom_hunk o n gap mid rest hs r :
  patchFrom (o + length gap + length (oldSide mid)) (n + length gap + length (newSide mid)) rest hs = Some r ->
  patchFrom o n (gap ++ oldSide mid ++ rest) (mkHunk (o + length gap) (n + length gap) mid :: hs) = Some (gap ++ newSide mid ++ r).
Proof.
  intros H. cbn [patchFrom oldStart newStart h_ops].
  replace (o + length gap - o) with (length gap) by lia. rewrite <- drop_drop, drop_app_length, take_app_length, drop_app_length, take_app_length.
  rewrite (proj2 (Nat.leb_le _ _)), Nat.eqb_refl, (proj2 (Nat.leb_le _ _)), bool_decide_true by (rewrite ?length_app; done || lia).
  cbn [andb]. by rewrite H.
Qed.

Lemma hunks_patch ops ws : forall p,
  p <= length ops -> apart p (length ops) ws ->
  (forall k op, p <= k -> ops !! k = Some op -> op_kind op <> opEqual -> covered ws k) ->
  patchFrom (1 + length (oldSide (take p ops))) (1 + length (newSide (take p ops))) (oldSide (drop p ops)) (map (hunkAt ops) ws)
  = Some (newSide (drop p ops)).
Proof.
  induction ws as [|[s e] ws IH]; intros p Hp A C; simpl in A; cbn [map].
  - cbn [patchFrom]. f_equal. apply all_equal_sides. intros op [k Hk]%list_elem_of_In%list_elem_of_lookup. rewrite lookup_drop in Hk.
    destruct (decide (op_kind op = opEqual)) as [|E]; [done|]. specialize (C (p + k) op ltac:(lia) Hk E). by inv C.
  - destruct A as (A1 & A2 & A3 & A4).
    assert (forall op, In op (take (s - p) (drop p ops)) -> op_kind op = opEqual) as Gap.
    { intros op [k Hk]%list_elem_of_In%list_elem_of_lookup. apply lookup_take_Some in Hk as [Hk Hlt]. rewrite lookup_drop in Hk.
      destruct (decide (op_kind op = opEqual)) as [|E]; [done|]. specialize (C (p + k) op ltac:(lia) Hk E).
      apply Exists_cons in C as [[C1 _]|C]; [simpl in C1; lia|]. exfalso. clear -C A4 A2 Hlt.
      assert (forall lo v, apart lo (length ops) v -> Exists (fun w => within w (p + k)) v -> lo <= p + k) as Q.
      { intros lo v. revert lo. induction v as [|w v IHv]; intros lo Hv Hx; [inv Hx|]. destruct Hv as (? & ? & ? & Hv).
        apply Exists_cons in Hx as [[? ?]|Hx]; [lia|]. specialize (IHv _ Hv Hx). lia. }
      specialize (Q _ _ A4 C). lia. }
    set (gap := take (s - p) (drop p ops)) in *. set (mid := take (e - s) (drop s ops)).
    assert (take s ops = take p ops ++ gap) as Ts by (unfold gap; rewrite take_take_drop; f_equal; lia).
    assert (take e ops = take s ops ++ mid) as Te by (unfold mid; rewrite take_take_drop; f_equal; lia).
    assert (drop s ops = mid ++ drop e ops) as Ds.
    { unfold mid. rewrite <- (take_drop (e - s) (drop s ops)) at 1. by rewrite drop_drop; do 2 f_equal; lia. }
    assert (drop p ops = gap ++ mid ++ drop e ops) as Dp.
    { rewrite <- Ds. unfold gap. rewrite <- (take_drop (s - p) (drop p ops)) at 1. by rewrite drop_drop; do 2 f_equal; lia. }
    destruct (all_equal_sides gap Gap) as [Eq Len].
    assert (hunkAt ops (s, e) = mkHunk (1 + length (oldSide (take s ops))) (1 + length (newSide (take s ops))) mid) as -> by
      (unfold hunkAt; cbn [fst snd]; by rewrite lineNumbers_nth by lia).
    rewrite Ts, Dp, !oldSide_app, !newSide_app, !length_app, <- Eq, !Nat.add_assoc. apply patchFrom_hunk.
    specialize (IH e A3 A4). rewrite Te, Ts, !oldSide_app, !newSide_app, !length_app, <- Eq, !Nat.add_assoc in IH. apply IH.
    intros k op Hk Ho Hne. specialize (C k op ltac:(lia) Ho Hne). apply Exists_cons in C as [[_ C]|C]; [simpl in C; lia|done].
Qed.

Lemma covered_widen context n ws k : k < n -> covered ws k -> covered (map (widen context n) ws) k.
Proof.
  intros Hk H. induction H as [w ws [H1 H2]|w ws _ IH]; [left; split; simpl; lia|by right].
Qed.

Lemma buildHunks_patch ops context : patch (oldSide ops) (buildHunks ops context) = Some (newSide ops).
Proof.
  destruct (regions_facts ops 0 None I) as (F & So & C). simpl in F, C. unfold buildHunks, patch.
  assert (forall k op, ops !! k = Some op -> op_kind op <> opEqual -> covered (map (widen context (length ops)) (regions 0 None ops)) k) as Cov.
  { intros k op Hk Hne. apply covered_widen; [by apply lookup_lt_Some in Hk|]. apply C; [lia|]. right. exists op. by rewrite Nat.sub_0_r. }
  assert (Forall (fun w => w.1 <= w.2 /\ w.2 <= length ops) (map (widen context (length ops)) (regions 0 None ops))) as Fw.
  { apply Forall_map. eapply Forall_impl; [exact F|]. simpl. lia. }
  assert (StronglySorted after (map (widen context (length ops)) (regions 0 None ops))) as Sw.
  { clear -So. induction So as [|r rs So IH A]; [constructor|]. simpl. constructor; [done|]. apply Forall_map.
    eapply Forall_impl; [exact A|]. unfold after. simpl. lia. }
  destruct (map (widen context (length ops)) (regions 0 None ops)) as [|w ws].
  - pose proof (hunks_patch ops [] 0 ltac:(lia) I) as P. apply P. intros k op _. apply Cov.
  - apply Forall_cons in Fw as [[W1 W2] Fw]. destruct (mergeWindows_facts _ _ _ W1 W2 Fw Sw) as [A Cm].
    apply (hunks_patch ops _ 0 ltac:(lia)); [by apply (apart_mono w.1); [lia|]|]. intros k op _ Hk Hne. by eapply Cm, Cov.
Qed.

(** The diff shown is right and shortest. Its hunks, applied to the old file by the line numbers they state, give the new one, whatever the
    context; and no edit script leaves more lines alone: every common subsequence of the two files is at most as long as
    the lines the script keeps. *)
Theorem diff_patches a b context :
  patch a (buildHunks (diffLines a b) context) = Some b /\
  (forall s, s `sublist_of` a -> s `sublist_of` b -> length s <= kept (diffLines a b)).
Proof.
  split; [|intros s; apply diffLines_kept]. destruct (diffLines_sides a b) as [Ho Hn].
  pose proof (buildHunks_patch (diffLines a b) context) as P. by rewrite Ho, Hn in P.
Qed.

(** ** The command *)

Section Command.
Variable Parse : bytes -> option string.
(** What reading a path and replacing a file fail with, if they fail. *)
Variables (readFails writeFails : string -> option string).

(** src/cmd/gauntlet/fmt.go:58-64 [runFmtTo] The modes, what was printed, and the files; standard error by its lines. *)
Record FmtRun := mkFmtRun {
  fr_files : gmap string bytes;
  fr_stdout : bytes;
  fr_stderr : list string;
  anyErr : bool;
  anyDiff : bool;
}.

#[local] Instance FmtRun_eta : Eta FmtRun := fun r => mkFmtRun (fr_files r) (fr_stdout r) (fr_stderr r) (anyErr r) (anyDiff r).

Definition complain (path msg : string) (r : FmtRun) : FmtRun :=
  r <| fr_stderr ::= fun l => l ++ [("gauntlet fmt: " +:+ path +:+ ": " +:+ msg)%string] |> <| anyErr := true |>.

Definition print_ (b : bytes) (r : FmtRun) : FmtRun := r <| fr_stdout ::= fun o => o ++ b |>.

(** src/cmd/gauntlet/fmt.go:66-105 [runFmtTo] One file. *)
Definition fmtFile (write list_ diff : bool) (path : string) (r : FmtRun) : FmtRun :=
  match fr_files r !! path, readFails path with
  | Some data, None =>
      match Format Parse data with
      | inl err => complain path err r
      | inr out =>
          let changed := negb (bool_decide (data = out)) in
          if negb (write || list_ || diff) then print_ out r
          else
            let r := if list_ && changed then print_ (say path ++ [newline]) (r <| anyDiff := true |>) else r in
            let r := if diff && changed then print_ (unifiedDiff path data out) r else r in
            if write && changed then
              match writeFails path with
              | Some err => complain path ("write: " +:+ err)%string r
              | None => r <| fr_files ::= <[path := out]> |>
              end
            else r
      end
  | _, Some err => complain path err r
  | None, None => complain path "no such file or directory" r
  end.

(** src/cmd/gauntlet/fmt.go:50-111 [runFmtTo] The arguments parsed. *)
Definition runFmtTo (write list_ diff : bool) (paths : list string) (files : gmap string bytes) : option string * FmtRun :=
  let start := mkFmtRun files [] [] false false in
  match paths with
  | [] => (Some "no files given: gauntlet fmt has no stdin mode; pass one or more .kdl file paths"%string, start)
  | _ =>
      let r := fold_left (fun r path => fmtFile write list_ diff path r) paths start in
      (if anyErr r || anyDiff r then Some "fmt: one or more files failed or differ"%string else None, r)
  end.

Lemma fmtFile_files write list_ diff path r p :
  fr_files (fmtFile write list_ diff path r) !! p = fr_files r !! p \/
  write = true /\ exists data out, fr_files r !! p = Some data /\ Format Parse data = inr out /\
    fr_files (fmtFile write list_ diff path r) !! p = Some out.
Proof.
  unfold fmtFile. destruct (fr_files r !! path) as [data|] eqn:E; [|by destruct (readFails path); left].
  destruct (readFails path); [by left|]. destruct (Format Parse data) as [|out] eqn:F; [by left|].
  destruct (negb (write || list_ || diff)); [by left|].
  cbv zeta. set (r1 := if list_ && _ then _ else r). set (r2 := if diff && _ then print_ _ r1 else r1).
  assert (fr_files r2 = fr_files r) as Er by (subst r2 r1; by destruct (list_ && _), (diff && _)).
  destruct (write && _) eqn:W; [|left; by rewrite Er]. apply andb_prop in W as [-> _].
  destruct (writeFails path); [left; simpl; by rewrite Er|]. simpl. rewrite Er.
  destruct (decide (p = path)) as [->|]; [right|left; by rewrite lookup_insert_ne].
  split; [done|]. exists data, out. by rewrite lookup_insert_eq.
Qed.

(** A file only changes to what formatting makes of it, and only when asked to write. *)
Lemma runFmtTo_files write list_ diff paths files p data :
  files !! p = Some data ->
  exists data', fr_files (runFmtTo write list_ diff paths files).2 !! p = Some data' /\
    rtc (fun a b => write = true /\ Format Parse a = inr b) data data'.
Proof.
  intros Hp. unfold runFmtTo. destruct paths as [|q paths]; [by exists data|]. cbn [snd].
  assert (forall l r d, fr_files r !! p = Some d ->
    exists d', fr_files (fold_left (fun r path => fmtFile write list_ diff path r) l r) !! p = Some d' /\
      rtc (fun a b => write = true /\ Format Parse a = inr b) d d') as Q.
  { induction l as [|x l IH]; intros r d Hd; [by exists d|]. cbn [fold_left].
    destruct (fmtFile_files write list_ diff x r p) as [E|(W & a & b & Ha & F & E)].
    - apply IH. by rewrite E.
    - destruct (IH _ _ E) as (d' & Hd' & Hr). exists d'. split; [done|]. rewrite Ha in Hd. injection Hd as ->.
      eapply rtc_l; [|exact Hr]. done. }
  by apply Q.
Qed.

(** [fmt -l] accepts the files given, being at least one, when each can be read and is as formatting leaves it. *)
Lemma runFmtTo_list paths files :
  paths <> [] ->
  (runFmtTo false true false paths files).1 = None <->
  Forall (fun p => readFails p = None /\ exists data, files !! p = Some data /\ Format Parse data = inr data) paths.
Proof.
  intros Hne. unfold runFmtTo. destruct paths as [|q paths]; [done|]. cbn [fst]. clear Hne.
  set (l := q :: paths). set (start := mkFmtRun files [] [] false false).
  assert (forall l r, fr_files r = files ->
    (anyErr (fold_left (fun r path => fmtFile false true false path r) l r)
     || anyDiff (fold_left (fun r path => fmtFile false true false path r) l r)) = false <->
    (anyErr r || anyDiff r) = false /\
    Forall (fun p => readFails p = None /\ exists data, files !! p = Some data /\ Format Parse data = inr data) l) as Q.
  { clear. induction l as [|x l IH]; intros r Hf; cbn [fold_left]; [by split; [split|intros [? _]]|].
    rewrite IH. 2:{ unfold fmtFile, complain, print_. rewrite Hf. repeat case_match; done. }
    rewrite Forall_cons. unfold fmtFile, complain, print_. rewrite Hf.
    destruct (files !! x) as [data|] eqn:Hx, (readFails x) eqn:Hr; simpl.
    - split; [by intros [? _]|by intros (_ & [? _] & _)].
    - destruct (Format Parse data) as [e|out] eqn:F; simpl.
      + split; [by intros [? _]|]. intros (_ & (_ & d & [= <-] & Fd) & _). congruence.
      + case_bool_decide as E; simpl; [subst out|].
        * split; [intros [H1 H2]; split_and!; [done|done|by exists data|done]|by intros (? & _ & ?)].
        * rewrite orb_true_r. split; [by intros [? _]|]. intros (_ & (_ & d & [= <-] & Fd) & _). congruence.
    - split; [by intros [? _]|by intros (_ & [? _] & _)].
    - split; [by intros [? _]|by intros (_ & (_ & ? & ? & _) & _)]. }
  pose proof (Q l start eq_refl) as R. destruct (anyErr _ || anyDiff _); [|by split; [intros _; apply R|]].
  split; [done|]. intros H. destruct R as [_ R]. by specialize (R (conj eq_refl H)).
Qed.
End Command.

(** ** Inputs *)

Definition ls (l : list string) : list line := map to_bytes l.

Lemma diff_patches_witness :
  let a := ls ["a"; "b"; "c"; "d"]%string in
  let b := ls ["b"; "x"; "d"]%string in
  patch a (buildHunks (diffLines a b) 0) = Some b /\ length (buildHunks (diffLines a b) 0) = 2 /\ 2 <= kept (diffLines a b).
Proof.
  cbv zeta. split; [apply diff_patches|]. split; [reflexivity|].
  apply (proj2 (diff_patches (ls ["a"; "b"; "c"; "d"]%string) (ls ["b"; "x"; "d"]%string) 0) (ls ["b"; "d"]%string)).
  - apply sublist_cons, sublist_skip, sublist_cons, sublist_skip, sublist_nil_l.
  - apply sublist_skip, sublist_cons, sublist_skip, sublist_nil_l.
Defined.

Example diff_final_newline :
  of_bytes (unifiedDiff "f" (to_bytes "a {}") (to_bytes "a {}" ++ [newline])) =
  of_bytes (lines_of ["--- f.orig"; "+++ f"; "@@ -1,1 +1,1 @@"; "-a {}"; "\ No newline at end of file"; "+a {}"]%string).
Proof. vm_compute. reflexivity. Qed.
