(* ===== verification/Evidence.v ===== *)
(** Verification evidence (src/internal/verification/manager.go): check executions that
    the runs of the queue share, and the passing results that outlive them.

    Each critical section of the manager's mutex is one step. An execution is a number; its context is
    cancelled or not, and [x_done] holds the result once its channel is closed. The
    evidence table is a map, and its statements may fail, by an argument. [mg_ran] is no field of the source: it lists what
    every execution came to. *)
From stdpp Require Import relations.
From S2P Require Import Prelude GoString Core.

Open Scope string_scope.
Open Scope list_scope.
Open Scope Z_scope.

(** src/internal/verification/manager.go:18-18 [Retention] *)
Definition Retention : Z := 86400000000000.
(** src/internal/verification/manager.go:19-19 [OrphanGrace] *)
Definition OrphanGrace : Z := 120000000000.

(** src/internal/verification/manager.go:30-36 [execution] With what [execute] was given. *)
Record execution := mkExecution_ {
  x_key : string;
  x_of : CheckJob;
  x_done : option CheckResult;
  x_cancelled : bool;
  x_waiters : Z;
  x_orphaned : Z;
}.

#[export] Instance execution_eta : Eta execution := fun e =>
  mkExecution_ (x_key e) (x_of e) (x_done e) (x_cancelled e) (x_waiters e) (x_orphaned e).

(** src/internal/verification/manager.go:38-46 [Manager] *)
Record Manager := mkManager {
  mg_active : gmap string nat;
  mg_execs : gmap nat execution;
  mg_next : nat;
  mg_closed : bool;
  mg_evidence : gmap string (Z * CheckResult);
  mg_ran : list (nat * string * CheckJob * CheckResult);
}.

#[export] Instance Manager_eta : Eta Manager := fun m =>
  mkManager (mg_active m) (mg_execs m) (mg_next m) (mg_closed m) (mg_evidence m) (mg_ran m).

(** src/internal/verification/manager.go:50-67 [Open] The evidence found is the table's. *)
Definition Open_ (evidence : gmap string (Z * CheckResult)) : Manager := mkManager ∅ ∅ 0 false evidence [].

(** src/internal/verification/manager.go:130-142 [forRun] *)
Definition forRun (result : CheckResult) (job : CheckJob) : CheckResult :=
  result <| r_SuspectedRefs := List.filter (fun ref => existsb (fun c => String.eqb (c_Ref c) ref) (j_Candidates job)) (r_SuspectedRefs result) |>.

(** src/internal/verification/manager.go:81-99 [Run] What reading a row gives: an error, nothing, or a result; the row's JSON is the result stored. *)
Definition lookupEvidence (now : Z) (key : string) (fault : option string) (m : Manager) : string + option CheckResult :=
  match fault with
  | Some e => inl e
  | None =>
      match mg_evidence m !! key with
      | Some (at_, r) =>
          if at_ <? (now - Retention) `div` 1000000 then inr None
          else if bool_decide (r_Status r = CheckPassed) && String.eqb (r_VerificationID r) key then inr (Some r)
          else inl "invalid stored passing evidence"
      | None => inr None
      end
  end.

(** What a call of [Run] came to at first: a result, or the execution it waits for. *)
Inductive Started := Returned (r : CheckResult) | Attached (e : nat).

Definition attach (e : nat) (m : Manager) : Manager :=
  m <| mg_execs ::= alter (fun x => x <| x_waiters ::= Z.succ |> <| x_orphaned := 0 |>) e |>.

(** src/internal/verification/manager.go:72-110 [Run] Up to waiting. [ended] is whether the caller's context is done;
    a context of the manager is done once it is closed. *)
Definition RunBegin (now : Z) (ended : bool) (key : string) (job : CheckJob) (fault : option string) (m : Manager) : Started * Manager :=
  if mg_closed m || ended then (Returned (zeroCheckResult <| r_Name := j_Name job |> <| r_Err := Some "context canceled" |>), m)
  else
    match mg_active m !! key with
    | Some e => (Attached e, attach e m)
    | None =>
        match lookupEvidence now key fault m with
        | inl e => (Returned (zeroCheckResult <| r_Name := j_Name job |> <| r_Err := Some ("verification evidence: " +:+ e) |>), m)
        | inr (Some r) => (Returned (forRun (r <| r_Reused := true |>) job), m)
        | inr None =>
            let e := mg_next m in
            (Attached e, attach e (m <| mg_execs ::= <[e := mkExecution_ key job None false 0 0]> |>
                                     <| mg_active ::= <[key := e]> |> <| mg_next ::= S |>))
        end
    end.

(** src/internal/verification/manager.go:112-119 [Run] The caller gives up. *)
Definition detach (now : Z) (e : nat) (m : Manager) : Manager :=
  m <| mg_execs ::= alter (fun x =>
    let x := x <| x_waiters ::= Z.pred |> in if x_waiters x =? 0 then x <| x_orphaned := now |> else x) e |>.

(** src/internal/verification/manager.go:120-126 [Run] The execution is done. *)
Definition collect (e : nat) (job : CheckJob) (m : Manager) : option (CheckResult * Manager) :=
  x ← mg_execs m !! e;
  r ← x_done x;
  Some (forRun (r <| r_Reused := negb (String.eqb (r_ExecutedRun r) (j_RunID job)) || negb (String.eqb (r_ExecutedSHA r) (j_MergeSHA job)) |>) job,
        m <| mg_execs ::= alter (fun x => x <| x_waiters ::= Z.pred |>) e |>).

(** src/internal/verification/manager.go:147-152 [execute] *)
Definition stampResult (cancelled : bool) (key : string) (job : CheckJob) (raw : CheckResult) : CheckResult :=
  (if cancelled then raw <| r_Err := Some "context canceled" |> else raw)
    <| r_VerificationID := key |> <| r_ExecutedRun := j_RunID job |> <| r_ExecutedSHA := j_MergeSHA job |>.

(** src/internal/verification/manager.go:144-171 [execute] The command came to [raw]; [early] is whether the context was done when it did, and
    [fault] an error of encoding or storing the result. *)
Definition execute (now : Z) (e : nat) (raw : CheckResult) (early : bool) (fault : option string) (m : Manager) : Manager :=
  match mg_execs m !! e with
  | Some x =>
      if isSome (x_done x) then m
      else
        let cancelled := x_cancelled x || mg_closed m in
        let result := stampResult (cancelled && early) (x_key x) (x_of x) raw in
        let m := m <| mg_ran ::= (fun l => l ++ [(e, x_key x, x_of x, raw)]) |> in
        let '(result, m) :=
          if negb cancelled && negb (isSome (r_Err result)) && bool_decide (r_Status result = CheckPassed) then
            match fault with
            | Some err => (result <| r_Err := Some ("persist verification evidence: " +:+ err) |>, m)
            | None => (result, m <| mg_evidence ::= <[x_key x := (now `div` 1000000, result)]> |>)
            end
          else (result, m) in
        let m := m <| mg_execs ::= <[e := x <| x_done := Some result |> <| x_cancelled := true |>]> |> in
        if bool_decide (mg_active m !! x_key x = Some e) then m <| mg_active ::= delete (x_key x) |> else m
  | None => m
  end.

(** src/internal/verification/manager.go:179-179 [Maintain] *)
Definition orphaned (now : Z) (x : execution) : bool :=
  (x_waiters x =? 0) && negb (x_orphaned x =? 0) && (OrphanGrace <=? now - x_orphaned x).

(** Whether the loop of [Maintain] cancels execution [e]. *)
Definition dropped (now : Z) (m : Manager) (e : nat) : bool :=
  match mg_execs m !! e with Some x => bool_decide (e ∈ (map_img (mg_active m) : gset nat)) && orphaned now x | None => false end.

(** src/internal/verification/manager.go:184-184 [Maintain] What is recent enough, and of it the newest; [newest] gives the database's
    order of equal times. *)
Definition prune (now : Z) (newest : gmap string (Z * CheckResult) -> gset string) (ev : gmap string (Z * CheckResult)) : gmap string (Z * CheckResult) :=
  filter (fun kv : string * (Z * CheckResult) => (kv.2.1 <? (now - Retention) `div` 1000000 = false) /\ kv.1 ∈ newest ev) ev.

(** src/internal/verification/manager.go:175-186 [Maintain] *)
Definition Maintain (now : Z) (newest : gmap string (Z * CheckResult) -> gset string) (fault : bool) (m : Manager) : Manager :=
  let m' := m <| mg_execs := map_imap (fun e x => Some (if dropped now m e then x <| x_cancelled := true |> else x)) (mg_execs m) |>
              <| mg_active := filter (fun ke : string * nat => dropped now m ke.2 = false) (mg_active m) |> in
  if fault then m' else m' <| mg_evidence ::= prune now newest |>.

(** src/internal/verification/manager.go:188-195 [Close] *)
Definition Close (m : Manager) : Manager := m <| mg_closed := true |>.

(** ** Callers and steps *)

(** A call of [Run] that waits: its key, its job and the execution. *)
Abbreviation caller := (string * CheckJob * nat)%type.

Record world := mkWorld { w_m : Manager; w_callers : gmap nat caller }.

(** What any call, any execution, the scheduler's loop or a restart may do next. A restart keeps the table and, as a record of the past, what ran. *)
Inductive step : world -> world -> Prop :=
  | s_attach w now ended key job fault e m c :
      w_callers w !! c = None -> RunBegin now ended key job fault (w_m w) = (Attached e, m) ->
      step w (mkWorld m (<[c := (key, job, e)]> (w_callers w)))
  | s_return w now ended key job fault r m :
      RunBegin now ended key job fault (w_m w) = (Returned r, m) -> step w (mkWorld m (w_callers w))
  | s_detach w now c key job e :
      w_callers w !! c = Some (key, job, e) -> step w (mkWorld (detach now e (w_m w)) (delete c (w_callers w)))
  | s_collect w c key job e r m :
      w_callers w !! c = Some (key, job, e) -> collect e job (w_m w) = Some (r, m) -> step w (mkWorld m (delete c (w_callers w)))
  | s_execute w now e raw early fault : step w (mkWorld (execute now e raw early fault (w_m w)) (w_callers w))
  | s_maintain w now newest fault : step w (mkWorld (Maintain now newest fault (w_m w)) (w_callers w))
  | s_close w : step w (mkWorld (Close (w_m w)) (w_callers w))
  | s_restart w : step w (mkWorld ((Open_ (mg_evidence (w_m w))) <| mg_ran := mg_ran (w_m w) |>) ∅).

Definition opened : world := mkWorld (Open_ ∅) ∅.

(** ** What evidence is *)

Definition passed (r : CheckResult) : Prop := r_Status r = CheckPassed /\ r_Err r = None.

(** [r] is what some execution of [key] came to, stamped with it. *)
Definition genuine (ran : list (nat * string * CheckJob * CheckResult)) (key : string) (r : CheckResult) : Prop :=
  exists e job raw, In (e, key, job, raw) ran /\ passed raw /\ r = stampResult false key job raw.

(** The callers that wait for an execution. *)
Definition waitersOf (callers : gmap nat caller) (e : nat) : nat := size (filter (fun kv : nat * caller => kv.2.2 = e) callers).

Record sound (w : world) : Prop := {
  so_active key e : mg_active (w_m w) !! key = Some e ->
    exists x, mg_execs (w_m w) !! e = Some x /\ x_key x = key /\ x_done x = None /\ x_cancelled x = false;
  so_flight e x : mg_execs (w_m w) !! e = Some x -> x_done x = None -> x_cancelled x = false ->
    mg_active (w_m w) !! x_key x = Some e;
  so_fresh e x : mg_execs (w_m w) !! e = Some x -> (e < mg_next (w_m w))%nat;
  so_caller c key job e : w_callers w !! c = Some (key, job, e) ->
    exists x, mg_execs (w_m w) !! e = Some x /\ x_key x = key /\ (x_done x = None -> x_cancelled x = false);
  so_waiters e x : mg_execs (w_m w) !! e = Some x -> x_waiters x = Z.of_nat (waitersOf (w_callers w) e);
  so_done e x r : mg_execs (w_m w) !! e = Some x -> x_done x = Some r -> passed r -> genuine (mg_ran (w_m w)) (x_key x) r;
  so_evidence key at_ r : mg_evidence (w_m w) !! key = Some (at_, r) -> passed r /\ genuine (mg_ran (w_m w)) key r;
}.

Lemma sound_opened : sound opened.
Proof. split; intros *; cbn; rewrite ?lookup_empty; done. Qed.

Lemma waitersOf_insert callers c key job e e' :
  callers !! c = None -> waitersOf (<[c := (key, job, e)]> callers) e' = (if decide (e = e') then S (waitersOf callers e') else waitersOf callers e').
Proof.
  intros H. unfold waitersOf. rewrite map_filter_insert. simpl. destruct (decide (e = e')) as [->|]; [|by rewrite delete_id].
  apply map_size_insert_None. apply map_lookup_filter_None. by left.
Qed.

Lemma waitersOf_delete callers c key job e e' :
  callers !! c = Some (key, job, e) ->
  waitersOf callers e' = (if decide (e = e') then S (waitersOf (delete c callers) e') else waitersOf (delete c callers) e').
Proof.
  intros H. rewrite <- (insert_delete_id callers c _ H) at 1. apply waitersOf_insert. apply lookup_delete_eq.
Qed.

Lemma waitersOf_zero callers e : waitersOf callers e = 0%nat <-> forall c key job, callers !! c <> Some (key, job, e).
Proof.
  unfold waitersOf. rewrite map_size_empty_iff, map_empty_filter. split.
  - intros H c key job E. by apply (H _ _ E).
  - intros H c [[key job] e'] E. simpl. intros ->. by apply H in E.
Qed.

Lemma genuine_more ran ran' key r : genuine ran key r -> genuine (ran ++ ran') key r.
Proof. intros (e & job & raw & H & P & E). exists e, job, raw. split; [|done]. apply in_or_app. by left. Qed.

Lemma RunBegin_attached now ended key job fault m e m' :
  RunBegin now ended key job fault m = (Attached e, m') ->
  (mg_active m !! key = Some e /\ m' = attach e m) \/
  (mg_active m !! key = None /\ e = mg_next m /\
   m' = attach e (m <| mg_execs ::= <[e := mkExecution_ key job None false 0 0]> |> <| mg_active ::= <[key := e]> |> <| mg_next ::= S |>)).
Proof.
  unfold RunBegin. destruct (mg_closed m || ended); [done|]. destruct (mg_active m !! key) as [e'|]; [intros [= <- <-]; auto|].
  destruct (lookupEvidence now key fault m) as [|[r|]]; [done|done|]. intros [= <- <-]. auto.
Qed.

Lemma RunBegin_returned now ended key job fault m r m' :
  RunBegin now ended key job fault m = (Returned r, m') ->
  m' = m /\ (passed r -> exists at_ r0, mg_evidence m !! key = Some (at_, r0) /\ r = forRun (r0 <| r_Reused := true |>) job /\
    (now - Retention) `div` 1000000 <= at_ /\ r_VerificationID r0 = key).
Proof.
  unfold RunBegin. destruct (mg_closed m || ended); [intros [= <- <-]; split; [done|by intros [_ ?]]|].
  destruct (mg_active m !! key); [done|]. unfold lookupEvidence.
  destruct fault as [f|]; [intros [= <- <-]; split; [done|by intros [_ ?]]|].
  destruct (mg_evidence m !! key) as [[at_ r0]|]; [|done]. destruct (at_ <? _) eqn:A; [done|]. apply Z.ltb_ge in A.
  destruct (bool_decide _ && _) eqn:V; intros [= <- <-]; (split; [done|]); [|by intros [_ ?]].
  intros _. exists at_, r0. apply andb_prop in V as [_ V]. apply String.eqb_eq in V. auto.
Qed.

Ltac at_exec e e' := destruct (decide (e = e')) as [<-|]; [rewrite ?lookup_alter_eq, ?lookup_insert_eq in *|
  rewrite ?lookup_alter_ne, ?lookup_insert_ne in * by done].

Lemma sound_attach m callers c key job e :
  sound (mkWorld m callers) -> callers !! c = None -> mg_active m !! key = Some e ->
  sound (mkWorld (attach e m) (<[c := (key, job, e)]> callers)).
Proof.
  intros [A F N C W D V] Hc Ha. destruct (A _ _ Ha) as (x & Hx & Kx & Dx & Cx). cbn in *. unfold attach.
  split; cbn; intros *.
  - intros H. destruct (A _ _ H) as (y & Hy & P). at_exec e e0; [|by exists y].
    rewrite Hx in Hy. injection Hy as <-. rewrite Hx. eexists. split; [reflexivity|]. exact P.
  - at_exec e e0; [|apply F]. rewrite Hx. cbn. intros [= <-]. cbn. intros _ _. by rewrite Kx.
  - at_exec e e0; [|apply N]. intros _. by eapply N.
  - at_exec c c0.
    + intros [= <- <- <-]. rewrite lookup_alter_eq, Hx. eexists. split; [reflexivity|]. cbn. auto.
    + intros H. destruct (C _ _ _ _ H) as (y & Hy & P). at_exec e e0; [|by exists y].
      rewrite Hx in Hy. injection Hy as <-. rewrite Hx. eexists. split; [reflexivity|]. exact P.
  - rewrite (waitersOf_insert _ _ _ _ _ _ Hc). destruct (decide (e = e0)) as [<-|].
    + rewrite lookup_alter_eq, Hx. cbn. intros [= <-]. cbn. rewrite (W _ _ Hx). lia.
    + rewrite lookup_alter_ne by done. apply W.
  - at_exec e e0; [|apply D]. rewrite Hx. cbn. intros [= <-]. cbn. rewrite Dx. done.
  - apply V.
Qed.

Lemma sound_started m callers key job :
  sound (mkWorld m callers) -> mg_active m !! key = None ->
  sound (mkWorld (m <| mg_execs ::= <[mg_next m := mkExecution_ key job None false 0 0]> |> <| mg_active ::= <[key := mg_next m]> |> <| mg_next ::= S |>) callers).
Proof.
  intros [A F N C W D V] Ha. cbn in *.
  assert (mg_execs m !! mg_next m = None) as Fresh.
  { destruct (mg_execs m !! mg_next m) eqn:E; [|done]. apply N in E. lia. }
  assert (waitersOf callers (mg_next m) = 0%nat) as None_.
  { apply waitersOf_zero. intros c k j H. destruct (C _ _ _ _ H) as (y & Hy & _). by rewrite Fresh in Hy. }
  split; cbn; intros *.
  - destruct (decide (key = key0)) as [<-|]; [rewrite lookup_insert_eq|rewrite lookup_insert_ne by done].
    + intros [= <-]. rewrite lookup_insert_eq. eexists. split; [reflexivity|]. done.
    + intros H. destruct (A _ _ H) as (y & Hy & P). rewrite lookup_insert_ne by (intros <-; by rewrite Fresh in Hy). by exists y.
  - at_exec (mg_next m) e; [intros [= <-]; cbn; intros _ _; apply lookup_insert_eq|]. intros H Dx Cx.
    rewrite lookup_insert_ne; [by apply F|]. intros E. apply F in H; [congruence|done..].
  - at_exec (mg_next m) e; [lia|]. intros H. apply N in H. lia.
  - intros H. destruct (C _ _ _ _ H) as (y & Hy & P). rewrite lookup_insert_ne by (intros <-; by rewrite Fresh in Hy). by exists y.
  - at_exec (mg_next m) e; [intros [= <-]; cbn; by rewrite None_|apply W].
  - at_exec (mg_next m) e; [by intros [= <-]|apply D].
  - apply V.
Qed.

Lemma sound_detached m callers c key job e (f : execution -> execution) :
  sound (mkWorld m callers) -> callers !! c = Some (key, job, e) ->
  (forall x, x_key (f x) = x_key x /\ x_done (f x) = x_done x /\ x_cancelled (f x) = x_cancelled x /\ x_waiters (f x) = Z.pred (x_waiters x)) ->
  sound (mkWorld (m <| mg_execs ::= alter f e |>) (delete c callers)).
Proof.
  intros [A F N C W D V] Hc Hf. cbn in *.
  assert (forall e' y, alter f e (mg_execs m) !! e' = Some y -> exists x, mg_execs m !! e' = Some x /\ x_key y = x_key x /\
    x_done y = x_done x /\ x_cancelled y = x_cancelled x /\ x_waiters y = if decide (e = e') then Z.pred (x_waiters x) else x_waiters x) as Inv.
  { intros e' y. destruct (decide (e = e')) as [<-|]; [rewrite lookup_alter_eq|rewrite lookup_alter_ne by done; intros H; by exists y].
    destruct (mg_execs m !! e) as [x|]; [|done]. intros [= <-]. exists x. split; [done|]. apply Hf. }
  assert (forall e' x, mg_execs m !! e' = Some x -> exists y, alter f e (mg_execs m) !! e' = Some y /\ x_key y = x_key x /\
    x_done y = x_done x /\ x_cancelled y = x_cancelled x) as Fwd.
  { intros e' x Hx. destruct (decide (e = e')) as [<-|]; [rewrite lookup_alter_eq, Hx|rewrite lookup_alter_ne by done; by exists x].
    eexists. split; [reflexivity|]. by destruct (Hf x) as (? & ? & ? & _). }
  split; cbn; intros *.
  - intros H. destruct (A _ _ H) as (x & Hx & P). destruct (Fwd _ _ Hx) as (y & Hy & E1 & E2 & E3). exists y. by rewrite E1, E2, E3.
  - intros H Dx Cx. destruct (Inv _ _ H) as (y & Hy & E1 & E2 & E3 & _). rewrite E1. apply F; congruence.
  - intros H. destruct (Inv _ _ H) as (y & Hy & _). by eapply N.
  - intros [_ H]%lookup_delete_Some. destruct (C _ _ _ _ H) as (x & Hx & P). destruct (Fwd _ _ Hx) as (y & Hy & E1 & E2 & E3). exists y. by rewrite E1, E2, E3.
  - intros H. destruct (Inv _ _ H) as (y & Hy & _ & _ & _ & E). rewrite E, (W _ _ Hy), (waitersOf_delete _ _ _ _ _ e0 Hc).
    destruct (decide (e = e0)); lia.
  - intros H Dx P. destruct (Inv _ _ H) as (y & Hy & E1 & E2 & _). rewrite E1. eapply D; [exact Hy|congruence|done].
  - apply V.
Qed.

Lemma sound_maintain m callers now newest fault : sound (mkWorld m callers) -> sound (mkWorld (Maintain now newest fault m) callers).
Proof.
  intros [A F N C W D V]. cbn in *. unfold Maintain.
  assert (forall e y, map_imap (fun e x => Some (if dropped now m e then x <| x_cancelled := true |> else x)) (mg_execs m) !! e = Some y ->
    exists x, mg_execs m !! e = Some x /\ x_key y = x_key x /\ x_done y = x_done x /\ x_waiters y = x_waiters x /\
      x_cancelled y = if dropped now m e then true else x_cancelled x) as Inv.
  { intros e y. rewrite map_lookup_imap. destruct (mg_execs m !! e) as [x|]; [|done]. cbn. intros [= <-]. exists x.
    by destruct (dropped now m e). }
  assert (forall e x, mg_execs m !! e = Some x -> dropped now m e = false ->
    map_imap (fun e x => Some (if dropped now m e then x <| x_cancelled := true |> else x)) (mg_execs m) !! e = Some x) as Fwd.
  { intros e x Hx Hd. by rewrite map_lookup_imap, Hx; cbn; rewrite Hd. }
  assert (forall c key job e, callers !! c = Some (key, job, e) -> dropped now m e = false) as Held.
  { intros c key job e H. unfold dropped. destruct (mg_execs m !! e) as [x|] eqn:Hx; [|done]. unfold orphaned.
    rewrite (W _ _ Hx). destruct (waitersOf callers e) eqn:E; [|by rewrite andb_false_r].
    rewrite waitersOf_zero in E. by apply E in H. }
  match goal with |- sound (mkWorld ?M callers) => assert (mg_execs M = map_imap (fun e x => Some (if dropped now m e then x <| x_cancelled := true |> else x)) (mg_execs m) /\
    mg_active M = filter (fun ke : string * nat => dropped now m ke.2 = false) (mg_active m) /\ mg_next M = mg_next m /\ mg_ran M = mg_ran m /\
    (forall k v, mg_evidence M !! k = Some v -> mg_evidence m !! k = Some v)) as (Ex & Ac & Nx & Ra & Ev) end.
  { destruct fault; cbn; split_and!; try done. intros k v. unfold prune. by intros [? _]%map_lookup_filter_Some. }
  split; cbn [w_m w_callers]; rewrite ?Ex, ?Ac, ?Nx, ?Ra; intros *.
  - intros [H Hd]%map_lookup_filter_Some. destruct (A _ _ H) as (z & Hz & P). exists z. by rewrite (Fwd _ _ Hz).
  - intros H Dx Cx. destruct (Inv _ _ H) as (z & Hz & E1 & E2 & E3 & E4). rewrite E4 in Cx. destruct (dropped now m e) eqn:Hd; [done|].
    apply map_lookup_filter_Some. split; [|done]. rewrite E1. apply F; congruence.
  - intros H. destruct (Inv _ _ H) as (z & Hz & _). by eapply N.
  - intros H. destruct (C _ _ _ _ H) as (z & Hz & P). exists z. by rewrite (Fwd _ _ Hz (Held _ _ _ _ H)).
  - intros H. destruct (Inv _ _ H) as (z & Hz & _ & _ & E & _). rewrite E. by apply W.
  - intros H Dx P. destruct (Inv _ _ H) as (z & Hz & E1 & E2 & _). rewrite E1. eapply D; [exact Hz|congruence|done].
  - intros H. eapply V, Ev, H.
Qed.

Lemma stampResult_passed b key job raw : passed (stampResult b key job raw) -> b = false /\ passed raw.
Proof. unfold passed, stampResult. destruct b; cbn; [by intros [_ ?]|done]. Qed.

(** What an execution ends with, and what it leaves in the table. *)
Lemma execute_inv now e raw early fault m x :
  mg_execs m !! e = Some x -> x_done x = None ->
  exists result, let m' := execute now e raw early fault m in
    mg_execs m' = <[e := x <| x_done := Some result |> <| x_cancelled := true |>]> (mg_execs m) /\
    mg_active m' = (if decide (mg_active m !! x_key x = Some e) then delete (x_key x) (mg_active m) else mg_active m) /\
    mg_next m' = mg_next m /\ mg_ran m' = mg_ran m ++ [(e, x_key x, x_of x, raw)] /\
    (passed result -> genuine (mg_ran m') (x_key x) result) /\
    (forall k v, mg_evidence m' !! k = Some v -> mg_evidence m !! k = Some v \/ (k = x_key x /\ v.2 = result /\ passed result)).
Proof.
  intros Hx Dx. unfold execute. rewrite Hx, Dx. cbn [isSome].
  set (cancelled := x_cancelled x || mg_closed m). set (result := stampResult (cancelled && early) (x_key x) (x_of x) raw).
  assert (passed result -> genuine (mg_ran m ++ [(e, x_key x, x_of x, raw)]) (x_key x) result) as G.
  { intros P. apply stampResult_passed in P as Q. destruct Q as [Q1 Q2]. exists e, (x_of x), raw. split; [apply in_or_app; right; by left|].
    split; [done|]. subst result. by rewrite Q1. }
  destruct (negb cancelled && negb (isSome (r_Err result)) && bool_decide (r_Status result = CheckPassed)) eqn:S.
  - destruct fault as [err|].
    + exists (result <| r_Err := Some ("persist verification evidence: " +:+ err) |>). cbv zeta.
      destruct (decide (mg_active m !! x_key x = Some e)) as [E|E]; cbn; [rewrite bool_decide_true by done|rewrite bool_decide_false by done];
        cbn; split_and!; try done; try (by intros [_ ?]); by intros ? ? ?; left.
    + exists result. assert (passed result) as P.
      { apply andb_prop in S as [[_ S1]%andb_prop S2]. apply bool_decide_eq_true in S2. split; [done|]. by destruct (r_Err result). }
      assert (forall k v, <[x_key x := (now `div` 1000000, result)]> (mg_evidence m) !! k = Some v -> mg_evidence m !! k = Some v \/ (k = x_key x /\ v.2 = result /\ passed result)) as Ev.
      { intros k v [[<- <-]|[_ H]]%lookup_insert_Some; auto. }
      cbv zeta. destruct (decide (mg_active m !! x_key x = Some e)) as [E|E]; cbn; [rewrite bool_decide_true by done|rewrite bool_decide_false by done];
        cbn; split_and!; done.
  - exists result. cbv zeta. destruct (decide (mg_active m !! x_key x = Some e)) as [E|E]; cbn; [rewrite bool_decide_true by done|rewrite bool_decide_false by done];
      cbn; split_and!; try done; by intros ? ? ?; left.
Qed.

Lemma sound_execute m callers now e raw early fault : sound (mkWorld m callers) -> sound (mkWorld (execute now e raw early fault m) callers).
Proof.
  intros So. pose proof So as [A F N C W D V]. cbn in *. destruct (mg_execs m !! e) as [x|] eqn:Hx; [|unfold execute; by rewrite Hx].
  destruct (x_done x) as [r|] eqn:Dx; [unfold execute; by rewrite Hx, Dx|].
  destruct (execute_inv now e raw early fault m x Hx Dx) as (result & Ex & Ac & Nx & Ra & G & Ev).
  assert (forall k e', mg_active (execute now e raw early fault m) !! k = Some e' -> mg_active m !! k = Some e' /\ e' <> e) as Act.
  { intros k e'. rewrite Ac. destruct (decide _) as [Ha|Ha].
    - intros [Hk H]%lookup_delete_Some. split; [done|]. intros ->. destruct (A _ _ H) as (y & Hy & Ky & _). congruence.
    - intros H. split; [done|]. intros ->. destruct (A _ _ H) as (y & Hy & Ky & _). congruence. }
  split; cbn; intros *; rewrite ?Ex, ?Nx.
  - intros [H Hne]%Act. rewrite lookup_insert_ne by done. by apply A.
  - intros [[<- <-]|[Hne H]]%lookup_insert_Some; [done|]. intros Dy Cy. pose proof (F _ _ H Dy Cy) as Hf. rewrite Ac.
    destruct (decide _) as [Ha|]; [|done]. rewrite lookup_delete_ne; [done|]. congruence.
  - intros [[<- _]|[_ H]]%lookup_insert_Some; [by eapply N|by eapply N].
  - intros H. destruct (C _ _ _ _ H) as (y & Hy & P). destruct (decide (e = e0)) as [<-|].
    + rewrite lookup_insert_eq. eexists. split; [reflexivity|]. cbn. split; [|done]. destruct P. congruence.
    + rewrite lookup_insert_ne by done. by exists y.
  - intros [[<- <-]|[_ H]]%lookup_insert_Some; [exact (W _ _ Hx)|exact (W _ _ H)].
  - intros [[<- <-]|[_ H]]%lookup_insert_Some; cbn; [by intros [= <-]|]. intros Dy P. rewrite Ra. by eapply genuine_more, D.
  - intros [H|(-> & E & P)]%Ev; [destruct (V _ _ _ H); split; [done|]; rewrite Ra; by apply genuine_more|].
    cbn in E. subst. by split; [|apply G].
Qed.

Lemma sound_step w w' : sound w -> step w w' -> sound w'.
Proof.
  intros So St. destruct St as [w now ended key job fault e m c Hc H|w now ended key job fault r m H|w now c key job e H|
    w c key job e r m H Hm|w now e raw early fault|w now newest fault|w|w]; destruct w as [m0 callers]; cbn in *.
  - destruct (RunBegin_attached _ _ _ _ _ _ _ _ H) as [[Ha ->]|(Ha & -> & ->)]; [by apply sound_attach|].
    apply sound_attach; [by apply sound_started|done|]. cbn. apply lookup_insert_eq.
  - by apply RunBegin_returned in H as [-> _].
  - eapply sound_detached; [exact So|exact H|]. intros x. cbv zeta. by destruct (_ =? 0).
  - unfold collect in Hm. destruct (mg_execs m0 !! e) as [x|]; [|done]. cbn in Hm. destruct (x_done x); [|done]. injection Hm as _ <-.
    by eapply sound_detached.
  - by apply sound_execute.
  - by apply sound_maintain.
  - destruct So as [A F N C W D V]. by split.
  - destruct So as [_ _ _ _ _ _ V]. split; cbn; intros *; rewrite ?lookup_empty; try done. apply V.
Qed.

Lemma sound_reachable w : rtc step opened w -> sound w.
Proof.
  intros H. assert (forall a b, rtc step a b -> sound a -> sound b) as Q by (induction 1; eauto using sound_step).
  exact (Q _ _ H sound_opened).
Qed.

(** ** Theorems *)

Lemma forRun_passed r job : passed (forRun r job) <-> passed r.
Proof. done. Qed.


(** Executions are shared and kept. In every reachable state at most one execution of a key is unfinished and not cancelled; the one a
    call waits for is of its key and is not cancelled while it is unfinished, except by closing the manager; and once its command has come to
    a result the call gets it. *)
Theorem evidence_shared w :
  rtc step opened w ->
  (forall e e' x x', mg_execs (w_m w) !! e = Some x -> mg_execs (w_m w) !! e' = Some x' -> x_key x = x_key x' ->
     x_done x = None -> x_cancelled x = false -> x_done x' = None -> x_cancelled x' = false -> e = e') /\
  (forall c key job e, w_callers w !! c = Some (key, job, e) ->
     (exists x, mg_execs (w_m w) !! e = Some x /\ x_key x = key /\ (x_done x = None -> x_cancelled x = false)) /\
     (forall now raw early fault, isSome (collect e job (execute now e raw early fault (w_m w))) = true)).
Proof.
  intros R. destruct (sound_reachable w R) as [A F N C W D V]. split.
  - intros e e' x x' Hx Hx' K D1 C1 D2 C2. pose proof (F _ _ Hx D1 C1) as E1. pose proof (F _ _ Hx' D2 C2) as E2. congruence.
  - intros c key job e Hc. split; [by eapply C|]. intros now raw early fault. destruct (C _ _ _ _ Hc) as (x & Hx & _).
    unfold collect. destruct (x_done x) as [r|] eqn:Dx.
    + unfold execute. rewrite Hx, Dx. cbn. by rewrite Hx; cbn; rewrite Dx.
    + destruct (execute_inv now e raw early fault _ x Hx Dx) as (result & -> & _). rewrite lookup_insert_eq. done.
Qed.

(** ** A run of it *)

Definition jobOf (run sha : string) : CheckJob := zeroCheckJob <| j_Name := "unit" |> <| j_RunID := run |> <| j_MergeSHA := sha |>.

Definition green : CheckResult := zeroCheckResult <| r_Name := "unit" |> <| r_Status := CheckPassed |>.

(** One call starts an execution, another attaches to it, and its command passes. *)
Definition m1 : Manager := (RunBegin 5000000 false "k" (jobOf "r1" "c1") None (w_m opened)).2.
Definition m2 : Manager := (RunBegin 5000000 false "k" (jobOf "r2" "c2") None m1).2.
Definition m3 : Manager := execute 9000000 0 green false None m2.
Definition waiting1 : gmap nat caller := <[1%nat := ("k", jobOf "r1" "c1", 0%nat)]> ∅.
Definition waiting2 : gmap nat caller := <[2%nat := ("k", jobOf "r2" "c2", 0%nat)]> waiting1.
Definition shared_run : world := mkWorld m3 waiting2.

Lemma shared_run_reachable : rtc step opened shared_run.
Proof.
  assert ((RunBegin 5000000 false "k" (jobOf "r1" "c1") None (w_m opened)).1 = Attached 0) as H1 by (vm_compute; reflexivity).
  assert ((RunBegin 5000000 false "k" (jobOf "r2" "c2") None m1).1 = Attached 0) as H2 by (vm_compute; reflexivity).
  assert (waiting1 !! 2%nat = None) as H3 by (vm_compute; reflexivity).
  eapply rtc_l; [apply (s_attach opened 5000000 false "k" (jobOf "r1" "c1") None 0 m1 1); [apply lookup_empty|]|].
  { unfold m1. rewrite <- H1. apply surjective_pairing. }
  eapply rtc_l; [apply (s_attach (mkWorld m1 waiting1) 5000000 false "k" (jobOf "r2" "c2") None 0 m2 2); [exact H3|]|].
  { unfold m2. cbn [w_m]. rewrite <- H2. apply surjective_pairing. }
  eapply rtc_l; [apply (s_execute (mkWorld m2 waiting2) 9000000 0 green false None)|]. apply rtc_refl.
Qed.


Lemma evidence_shared_witness :
  exists x, mg_execs m3 !! 0%nat = Some x /\ x_key x = "k" /\ isSome (collect 0 (jobOf "r1" "c1") (execute 0 0 green true None m3)) = true.
Proof.
  destruct (evidence_shared shared_run shared_run_reachable) as [_ C].
  assert (waiting2 !! 1%nat = Some ("k", jobOf "r1" "c1", 0%nat)) as H by (vm_compute; reflexivity).
  destruct (C 1%nat "k" (jobOf "r1" "c1") 0%nat H) as [(x & Hx & K & _) D]. exists x. split; [exact Hx|]. split; [exact K|].
  exact (D 0 green true None).
Defined.
