(* ===== verification/Broker.v ===== *)
(** The worker broker (src/internal/workers: types.go, broker.go, status.go and
    the handlers of server.go).

    The two tables of the SQLite database are the lists and maps of [Broker];
    [b_jobs] is in rowid order. A statement may fail: [b_faults] lists what the
    database answers to the statements to come, and a failed transaction is
    rolled back. A cell of type BLOB holds the value whose JSON encoding it is. Each
    operation runs under the broker's mutex and reads the clock once ([now]);
    instants are nanoseconds, the database keeps milliseconds. [randomID] is an
    argument. *)
From S2P Require Import Prelude GoString Core Wire TestReport.

Open Scope string_scope.
Open Scope list_scope.
Open Scope Z_scope.

(** ** types.go *)

(** src/internal/workers/types.go:14-18 [Resources] *)
Record Resources := mkResources { Slots : Z; CPU : Z; Memory : Z }.

(** src/internal/workers/types.go:20-22 [fits] *)
Definition fits (r available : Resources) : bool :=
  (Slots r <=? Slots available) && (CPU r <=? CPU available) && (Memory r <=? Memory available).

(** src/internal/workers/types.go:23-25 [subtract] *)
Definition subtract (r used : Resources) : Resources :=
  mkResources (wrap64 (Slots r - Slots used)) (wrap64 (CPU r - CPU used)) (wrap64 (Memory r - Memory used)).

(** src/internal/workers/types.go:27-30 [Requirements] *)
Record Requirements := mkRequirements { q_Labels : list string; q_Resources : Resources }.

(** src/internal/workers/types.go:32-43 [Worker] *)
Record Worker := mkWorker {
  k_ImageProfiles : list string;
  k_ServiceProfiles : list string;
  k_ID : string;
  k_Session : string;
  k_Profiles : list string;
  k_Labels : list string;
  k_Capacity : Resources;
  k_Usage : Resources;
  k_UrgentReserve : Z;
  k_Draining : bool;
}.

#[export] Instance Resources_eq_dec : EqDecision Resources.
Proof. solve_decision. Defined.
#[export] Instance Requirements_eq_dec : EqDecision Requirements.
Proof. solve_decision. Defined.
#[export] Instance Worker_eq_dec : EqDecision Worker.
Proof. solve_decision. Defined.
#[export] Instance Worker_eta : Eta Worker := fun w => mkWorker (k_ImageProfiles w) (k_ServiceProfiles w) (k_ID w)
  (k_Session w) (k_Profiles w) (k_Labels w) (k_Capacity w) (k_Usage w) (k_UrgentReserve w) (k_Draining w).

Definition memb (x : string) (l : list string) : bool := existsb (String.eqb x) l.

(** src/internal/workers/types.go:45-61 [accepts] *)
Definition accepts (w : Worker) (job : CheckJob) (needs : Requirements) : bool :=
  if negb (String.eqb (j_Image job) "") && negb (memb (j_Executor job) (k_ImageProfiles w)) then false
  else if negb (Nat.eqb (length (j_ServiceNeeds job)) 0) && negb (memb (j_Executor job) (k_ServiceProfiles w)) then false
  else if negb (memb (j_Executor job) (k_Profiles w)) then false
  else forallb (fun label => memb label (k_Labels w)) (q_Labels needs).

(** src/internal/workers/types.go:63-71 [Attempt] *)
Record Attempt := mkAttempt {
  a_ID : string;
  a_Token : string;
  a_Worker : string;
  a_LeaseUntil : Z;
  a_LeaseMillis : Z;
  a_Job : CheckJob;
  a_Requirements : Requirements;
}.

(** src/internal/workers/types.go:73-78 [Result] *)
Record Result := mkResult {
  AttemptLogPath : string;
  Check_ : CheckResult;
  Error : string;
  LogDigest : string;
}.

#[export] Instance Result_eq_dec : EqDecision Result.
Proof. solve_decision. Defined.
#[export] Instance Result_eta : Eta Result := fun r => mkResult (AttemptLogPath r) (Check_ r) (Error r) (LogDigest r).

(** src/internal/workers/types.go:80-87 [EncodeResult] *)
Definition EncodeResult (check : CheckResult) : Result :=
  match r_Err check with
  | Some e => mkResult "" (check <| r_Err := None |>) e ""
  | None => mkResult "" check "" ""
  end.

(** src/internal/workers/types.go:89-95 [CheckResult] *)
Definition CheckResult_of (r : Result) : CheckResult :=
  if String.eqb (Error r) "" then Check_ r else Check_ r <| r_Err := Some ("worker: " +:+ Error r) |>.

(** src/internal/workers/types.go:105-109 [reservedShare] Go's [/] and [%] truncate. *)
Definition reservedShare (capacity slots reserve : Z) : Z :=
  let divisor := slots in
  let count := reserve in
  wrap64 (wrap64 (Z.quot capacity divisor * count)
          + Z.quot (wrap64 (wrap64 (wrap64 (Z.rem capacity divisor * count) + divisor) - 1)) divisor).

(** ** The tables *)

Inductive JobState := Pending | Leased | Completed | Cancelled.

#[export] Instance JobState_eq_dec : EqDecision JobState.
Proof. solve_decision. Defined.

(** src/internal/workers/broker.go:49-49 [Open] A row of worker_jobs. *)
Record Row := mkRow {
  w_id : string;
  w_job : CheckJob;
  w_needs : Requirements;
  w_priority : Z;
  w_created : Z;
  w_wanted : Z;
  w_state : JobState;
  w_root : string;
  w_parent : string;
  w_owner_epoch : string;
  w_worker : string;
  w_session : string;
  w_token : string;
  w_lease_until : Z;
  w_result : option Result;
}.

#[export] Instance Row_eta : Eta Row := fun r => mkRow (w_id r) (w_job r) (w_needs r) (w_priority r) (w_created r)
  (w_wanted r) (w_state r) (w_root r) (w_parent r) (w_owner_epoch r) (w_worker r) (w_session r) (w_token r)
  (w_lease_until r) (w_result r).

(** src/internal/workers/broker.go:54-54 [Open] A row of worker_peers. *)
Record PeerRow := mkPeerRow { p_session : string; p_seen : Z; p_data : Worker; p_draining : bool }.

#[export] Instance PeerRow_eta : Eta PeerRow := fun p => mkPeerRow (p_session p) (p_seen p) (p_data p) (p_draining p).

(** src/internal/workers/broker.go:23-34 [Broker] The channel [changed] is the
    number of notifications so far; the pools' status is kept by the scaler. *)
Record Broker := mkBroker {
  b_epoch : string;
  b_waiters : gmap string Z;
  b_closed : bool;
  b_jobs : list Row;
  b_peers : gmap string PeerRow;
  b_born : Z;
  b_lease : Z;
  b_grace : Z;
  b_changed : nat;
  b_faults : list (option string);
}.

#[export] Instance Broker_eta : Eta Broker := fun b => mkBroker (b_epoch b) (b_waiters b) (b_closed b) (b_jobs b)
  (b_peers b) (b_born b) (b_lease b) (b_grace b) (b_changed b) (b_faults b).

(** src/internal/workers/broker.go:19-21 [ErrStale] The errors a caller tells apart. *)
Inductive berror := ErrCapacity | ErrStale | NoRows | Other (msg : string).

#[export] Instance berror_eq_dec : EqDecision berror.
Proof. solve_decision. Defined.

(** ** Statements

    An operation on the database: its answer or its error, and the broker after. *)
Definition DB (A : Type) : Type := Broker -> (berror + A) * Broker.

#[export] Instance DB_ret : MRet DB := fun A x b => (inr x, b).
#[export] Instance DB_bind : MBind DB := fun A B k m b =>
  match m b with (inl e, b') => (inl e, b') | (inr a, b') => k a b' end.

Definition fail {A} (e : berror) : DB A := fun b => (inl e, b).

(** One statement sent to the database, which may fail. *)
Definition stmt : DB unit := fun b =>
  match b_faults b with
  | Some e :: fs => (inl (Other e), b <| b_faults := fs |>)
  | None :: fs => (inr tt, b <| b_faults := fs |>)
  | [] => (inr tt, b)
  end.

Definition get {A} (q : Broker -> A) : DB A := fun b => (inr (q b), b).
Definition put (f : Broker -> Broker) : DB unit := fun b => (inr tt, f b).

(** A query, and an update of rows: [UPDATE worker_jobs SET f WHERE p], with the
    number of rows affected. *)
Definition query {A} (q : Broker -> A) : DB A := stmt ;; get q.

Definition setWhere (p : Row -> bool) (f : Row -> Row) (rows : list Row) : list Row :=
  map (fun r => if p r then f r else r) rows.

Definition update (p : Row -> bool) (f : Row -> Row) : DB Z :=
  stmt ;;
  n ← get (fun b => Z.of_nat (length (List.filter p (b_jobs b))));
  put (fun b => b <| b_jobs ::= setWhere p f |>) ;;
  mret n.

(** [BeginTx] ... [Commit], with [Rollback] on an error and, without one, where the
    body returns [false]. *)
Definition txn {A} (m : DB (A * bool)) : DB A := fun b : Broker =>
  let rollback (b' : Broker) := b <| b_faults := b_faults b' |> in
  let body : DB (A * bool) := stmt ;; r ← m; (if snd r : bool then stmt else mret tt) ;; mret r in
  match body b with
  | (inl e, b') => (inl e, rollback b')
  | (inr (x, true), b') => (inr x, b')
  | (inr (x, false), b') => (inr x, rollback b')
  end.

Definition tx {A} (m : DB A) : DB A := txn (x ← m; mret (x, true)).

(** src/internal/workers/broker.go:69-69 [notify] *)
Definition notify : DB unit := put (fun b => b <| b_changed ::= S |>).

Definition isState (s : JobState) (r : Row) : bool := bool_decide (w_state r = s).
Definition active (r : Row) : bool := isState Pending r || isState Leased r.
Definition byID (id : string) (r : Row) : bool := String.eqb (w_id r) id.
Definition lookupJob (id : string) (b : Broker) : option Row := List.find (byID id) (b_jobs b).

(** src/internal/workers/broker.go:36-60 [Open] On the tables an earlier process left. *)
Definition Open_ (jobs : list Row) (peers : gmap string PeerRow) (lease reconnectGrace now : Z) (epoch : string) : string + Broker :=
  if (lease <=? 0) || (reconnectGrace <? 0) then inl "invalid worker lease or reconnect grace"
  else inr (mkBroker epoch ∅ false jobs peers now lease reconnectGrace 0 []).

(** src/internal/workers/broker.go:62-68 [Close] *)
Definition Close : DB unit := put (fun b => b <| b_closed := true |>) ;; notify.

(** ** Claim *)

(** src/internal/workers/broker.go:74-76 [Claim] *)
Definition invalidAdvertisement (w : Worker) : bool :=
  String.eqb (k_ID w) "" || String.eqb (k_Session w) "" || (Slots (k_Capacity w) <? 1) || (4096 <? Slots (k_Capacity w))
  || (CPU (k_Capacity w) <=? 0) || (Memory (k_Capacity w) <=? 0)
  || (Slots (k_Usage w) <? 0) || (CPU (k_Usage w) <? 0) || (Memory (k_Usage w) <? 0)
  || (k_UrgentReserve w <? 0) || (Slots (k_Capacity w) <=? k_UrgentReserve w).

(** src/internal/workers/broker.go:103-103 [Claim] The needs of what the worker's session holds. *)
Definition leasedBy (w : Worker) (r : Row) : bool :=
  isState Leased r && String.eqb (w_worker r) (k_ID w) && String.eqb (w_session r) (k_Session w).

(** src/internal/workers/broker.go:102-128 [Claim] *)
Definition availableFor (w : Worker) (rows : list Row) : Resources :=
  let available := fold_left (fun available r => subtract available (q_Resources (w_needs r))) (List.filter (leasedBy w) rows) (k_Capacity w) in
  mkResources (Z.min (Slots available) (wrap64 (Slots (k_Capacity w) - Slots (k_Usage w))))
              (Z.min (CPU available) (wrap64 (CPU (k_Capacity w) - CPU (k_Usage w))))
              (Z.min (Memory available) (wrap64 (Memory (k_Capacity w) - Memory (k_Usage w)))).

(** src/internal/workers/broker.go:133-133 [Claim] The WHERE clause. *)
Definition claimable (now : Z) (w : Worker) (b : Broker) (r : Row) : bool :=
  memb (j_Executor (w_job r)) (k_Profiles w)
  && ((isState Pending r && String.eqb (w_owner_epoch r) (b_epoch b))
      || (isState Leased r && String.eqb (w_owner_epoch r) (b_epoch b) && (w_lease_until r <? UnixMilli now)
          && (UnixMilli (b_born b + b_grace b) <=? UnixMilli now))).

(** src/internal/workers/broker.go:133-133 [Claim] ORDER BY priority DESC,created,id *)
Definition claimBefore (a b : Row) : bool :=
  (w_priority b <? w_priority a)
  || ((w_priority a =? w_priority b)
      && ((w_created a <? w_created b) || ((w_created a =? w_created b) && String.ltb (w_id a) (w_id b)))).

(** src/internal/workers/broker.go:152-160 [Claim] *)
Definition acceptable (w : Worker) (available : Resources) (r : Row) : bool :=
  if negb (accepts w (w_job r) (w_needs r)) || negb (fits (q_Resources (w_needs r)) available) then false
  else if w_priority r <? 3 then
    let after := subtract available (q_Resources (w_needs r)) in
    let cap := k_Capacity w in
    negb ((Slots after <? k_UrgentReserve w)
          || (CPU after <? reservedShare (CPU cap) (Slots cap) (k_UrgentReserve w))
          || (Memory after <? reservedShare (Memory cap) (Slots cap) (k_UrgentReserve w)))
  else true.

(** src/internal/workers/broker.go:137-163 [Claim] *)
Definition chooseJob (now : Z) (w : Worker) (available : Resources) (b : Broker) : option Row :=
  List.find (acceptable w available) (sort_by claimBefore (List.filter (claimable now w b) (b_jobs b))).

(** src/internal/workers/broker.go:175-177 [Claim] *)
Definition attemptOf (now lease : Z) (token : string) (w : Worker) (r : Row) : Attempt :=
  mkAttempt (w_id r) token (k_ID w) (now + lease) (Milliseconds lease) (w_job r) (w_needs r).

(** src/internal/workers/broker.go:178-178 [Claim] *)
Definition leaseTo (w : Worker) (a : Attempt) (r : Row) : Row :=
  r <| w_state := Leased |> <| w_worker := k_ID w |> <| w_session := k_Session w |> <| w_token := a_Token a |>
    <| w_lease_until := UnixMilli (a_LeaseUntil a) |>.

(** src/internal/workers/broker.go:95-101 [Claim] *)
Definition registerPeer (now : Z) (w : Worker) (draining : bool) (b : Broker) : Broker :=
  b <| b_peers ::= <[k_ID w := mkPeerRow (k_Session w) (UnixMilli now) w draining]> |>.

(** src/internal/workers/broker.go:73-186 [Claim] *)
Definition Claim (now : Z) (randomID : string) (w : Worker) : DB (option Attempt) :=
  if invalidAdvertisement w then fail (Other "invalid worker advertisement")
  else
    chosen ← tx (
      peer ← query (fun b => b_peers b !! k_ID w);
      lease ← get b_lease;
      let other := match peer with
                   | Some p => negb (String.eqb (p_session p) (k_Session w)) && (now - fromMilli (p_seen p) <? lease)
                   | None => false
                   end in
      let draining := match peer with Some p => p_draining p | None => false end in
      if other : bool then fail (Other "worker identity is already active")
      else
        stmt ;; put (registerPeer now w draining) ;;
        available ← query (fun b => availableFor w (b_jobs b));
        if k_Draining w || draining then mret None
        else
          chosen ← query (chooseJob now w available);
          match chosen with
          | None => mret None
          | Some r =>
              let a := attemptOf now lease randomID w r in
              update (byID (w_id r)) (leaseTo w a) ;;
              mret (Some a)
          end);
    match chosen with
    | Some a => notify ;; mret (Some a)
    | None => mret None
    end.

(** ** Renew, Complete, Cancel *)

Definition holds (id token : string) (r : Row) : bool := byID id r && String.eqb (w_token r) token.

(** src/internal/workers/broker.go:188-203 [Renew] *)
Definition Renew (now : Z) (id token : string) : DB unit :=
  lease ← get b_lease;
  n ← update (fun r => holds id token r && isState Leased r) (fun r => r <| w_lease_until := UnixMilli (now + lease) |>);
  if n =? 1 then
    stmt ;;
    put (fun b => b <| b_peers ::= map_imap (fun k p =>
           Some (if existsb (fun r => holds id token r && String.eqb (w_worker r) k && String.eqb (w_session r) (p_session p)) (b_jobs b)
                 then p <| p_seen := UnixMilli now |> else p)) |>)
  else fail ErrStale.

(** What the result column gives back: [AttemptLogPath] is not encoded, and an
    output cut inside a rune has its broken bytes replaced. The other strings were
    decoded from JSON already. *)
Definition storedResult (r : Result) : Result :=
  r <| AttemptLogPath := "" |> <| Check_ ::= (fun c => c <| r_Output ::= jsonString |>) |>.

(** src/internal/workers/broker.go:234-236 [Complete] *)
Definition exceedsBounds (r : Result) : bool :=
  (65536 <? strlen (r_Output (Check_ r))) || (4096 <? strlen (Error r))
  || (1048576 <? strlen (default "" (r_Receipt (Check_ r)))) || (4096 <? strlen (r_InputsKey (Check_ r))).

(** src/internal/workers/broker.go:237-241 [Complete] What the scheduler, not the worker, says of an execution. *)
Definition stamp (row : Row) (c : CheckResult) : CheckResult :=
  let job := w_job row in
  c <| r_Name := j_Name job |> <| r_Command := j_Command job |>
    <| r_ExecutedRun := j_RunID job |> <| r_ExecutedSHA := j_MergeSHA job |>
    <| r_ExecutionID := w_id row |> <| r_Worker := w_worker row |>
    <| r_VerificationID := j_VerificationID job |> <| r_Reused := false |>.

Definition validVerdict (s : CheckStatus) : bool :=
  match s with CheckPassed | CheckFailed | CheckSkipped => true | _ => false end.

(** src/internal/workers/broker.go:245-249 [Complete] *)
Definition lacksTests (job : CheckJob) (r : Result) : bool :=
  negb (String.eqb (j_TestResults job) "") && String.eqb (Error r) "" && bool_decide (r_Status (Check_ r) = CheckPassed)
  && (isSome (Validate (r_Tests (Check_ r))) || (0 <? length (Failed (r_Tests (Check_ r))))%nat).

(** src/internal/workers/broker.go:268-275 [Complete] *)
Definition requestedTests (job : CheckJob) (previous : list TestCase) : list string :=
  match j_RetryTests job with
  | [] => map tc_ID (List.filter (fun t => negb (String.eqb (tc_Status t) "skipped")) previous)
  | l => l
  end.

(** src/internal/workers/broker.go:260-282 [Complete] A retry's result on top of its predecessor's. *)
Definition afterPrevious (job : CheckJob) (previous result : Result) : Result :=
  let p := Check_ previous in
  let c := Check_ result in
  let c := c <| r_TestAttempts := r_TestAttempts p |>
             <| r_Duration := wrap64 (r_Duration c + r_Duration p) |>
             <| r_Output := r_Output p +:+ String newline (("--- worker retry ---" +:+ String newline EmptyString) +:+ r_Output c) |>
             <| r_UserCPU := wrap64 (r_UserCPU c + r_UserCPU p) |>
             <| r_SysCPU := wrap64 (r_SysCPU c + r_SysCPU p) |>
             <| r_PeakRSS := Z.max (r_PeakRSS c) (r_PeakRSS p) |>
             <| r_Materialized := wrap64 (r_Materialized c + r_Materialized p) |> in
  let c :=
    if (0 <? length (r_Tests p))%nat && String.eqb (Error result) "" then
      let '(merged, err) := MergeRerun (r_Tests p) (r_Tests c) (requestedTests job (r_Tests p)) in
      let c := c <| r_Tests := merged |> in
      match err with
      | Some e => c <| r_Status := CheckFailed |> <| r_Output ::= (fun o => o +:+ String newline ("gauntlet: " +:+ e)) |>
      | None => c
      end
    else c in
  result <| Check_ := c |>.

(** src/internal/workers/broker.go:284-291 [Complete] *)
Definition recordAttempt (row : Row) (raw : list TestCase) (result : Result) : Result :=
  let c := Check_ result in
  let attemptLog := if String.eqb (AttemptLogPath result) "" then r_LogPath c else AttemptLogPath result in
  let attempt := mkTestAttempt (LogDigest result) (w_id row) (w_worker row) (j_Command (w_job row)) attemptLog
                   (Z.of_nat (length (r_TestAttempts c)) + 1) raw in
  result <| Check_ := c <| r_TestAttempts ::= (fun l => l ++ [attempt]) |> <| r_Output ::= lastBytes 65536 |> |>.

(** src/internal/workers/broker.go:234-249 [Complete] Why a result is refused; stamping changes nothing it reads. *)
Definition refused (row : Row) (result : Result) : option string :=
  if exceedsBounds result then Some "worker result exceeds bounds"
  else if negb (validVerdict (r_Status (Check_ result))) then Some "invalid worker verdict"
  else if lacksTests (w_job row) result then Some "passing result lacks passing tests"
  else None.

(** src/internal/workers/broker.go:237-292 [Complete] What is stored, on top of the
    predecessor's result where the row is a retry. *)
Definition conclude (row : Row) (previous : option Result) (result : Result) : Result :=
  let result := result <| Check_ ::= stamp row |> in
  let raw := r_Tests (Check_ result) in
  let result := result <| Check_ ::= (fun c => c <| r_TestAttempts := [] |>) |> in
  let result := match previous with Some p => afterPrevious (w_job row) p result | None => result end in
  storedResult (recordAttempt row raw result).

Definition completedResult (id : string) (b : Broker) : option Result :=
  r ← List.find (fun r => byID id r && isState Completed r) (b_jobs b); w_result r.

(** src/internal/workers/broker.go:207-301 [Complete] *)
Definition Complete (id token : string) (result : Result) : DB unit :=
  match r_Err (Check_ result) with
  | Some _ => fail (Other "wire result contains an error interface")
  | None =>
      found ← query (lookupJob id);
      match found with
      | None => fail ErrStale
      | Some row =>
          if String.eqb token "" || negb (String.eqb token (w_token row)) then fail ErrStale
          else if isState Completed row then mret tt
          else if negb (isState Leased row) then fail ErrStale
          else match refused row result with
          | Some err => fail (Other err)
          | None =>
              previous ←
                (if String.eqb (w_parent row) "" then mret None
                 else
                   found ← query (completedResult (w_parent row));
                   match found with
                   | None => fail (Other "retry predecessor unavailable: sql: no rows in result set")
                   | Some previous => mret (Some previous)
                   end);
              let stored := conclude row previous result in
              update (fun r => holds id token r && isState Leased r)
                     (fun r => r <| w_result := Some stored |> <| w_state := Completed |>) ;;
              notify
          end
      end
  end.

(** src/internal/workers/broker.go:303-311 [Cancel] *)
Definition Cancel (id : string) : DB unit :=
  update (fun r => byID id r && active r) (fun r => r <| w_state := Cancelled |>) ;;
  notify.

(** ** Wait, Submit, forgetCompleted *)

(** src/internal/workers/broker.go:314-316 [Wait] *)
Definition waitBegin (id : string) : DB unit := put (fun b => b <| b_waiters ::= <[id := b_waiters b !!! id else 0 + 1]> |>).

(** src/internal/workers/broker.go:317-324 [Wait] *)
Definition waitEnd (id : string) : DB unit :=
  put (fun b => let n := b_waiters b !!! id else 0 - 1 in
                b <| b_waiters := if n =? 0 then delete id (b_waiters b) else <[id := n]> (b_waiters b) |>).

(** src/internal/workers/broker.go:326-351 [Wait] One turn of the loop: the result, or the
    channel to wait on, here the number of the notification it last saw. *)
Definition waitPoll (id : string) : DB (Result + nat) :=
  closed ← get b_closed;
  if closed : bool then fail (Other "worker broker closed")
  else
    found ← query (lookupJob id);
    changed ← get b_changed;
    match found with
    | None => fail NoRows
    | Some row =>
        if isState Cancelled row then fail ErrStale
        else if isState Completed row then
          match w_result row with
          | Some result => mret (inl result)
          | None => fail (Other "unexpected end of JSON input")
          end
        else mret (inr changed)
    end.

Section Submit.
(** [verification.Key] of what makes two attempts the same. *)
Context (attemptKey : string -> string -> list string -> list string -> string).

(** src/internal/workers/broker.go:358-360 [Submit] *)
Definition invalidJob (root : string) (job : CheckJob) (needs : Requirements) : bool :=
  String.eqb root "" || Nat.eqb (length (j_Command job)) 0 || (Slots (q_Resources needs) <? 1)
  || (CPU (q_Resources needs) <? 0) || (Memory (q_Resources needs) <? 0).

Definition backlog (b : Broker) : Z := Z.of_nat (length (List.filter active (b_jobs b))).

(** src/internal/workers/broker.go:403-409 [Submit] *)
Definition requireCapacity : DB unit :=
  count ← query backlog;
  if 10000 <=? count then fail ErrCapacity else mret tt.

(** src/internal/workers/broker.go:389-389 [Submit] *)
Definition revive (r : Row) : Row :=
  r <| w_state := Pending |> <| w_token := "" |> <| w_lease_until := 0 |> <| w_worker := "" |> <| w_session := "" |>.

(** src/internal/workers/broker.go:419-419 [Submit] INSERT ... ON CONFLICT DO UPDATE *)
Definition insertJob (now : Z) (id root parent : string) (job : CheckJob) (needs : Requirements) (priority : Z) (b : Broker) : Broker :=
  match lookupJob id b with
  | Some _ => b <| b_jobs ::= setWhere (byID id) (fun r => r <| w_wanted := UnixMilli now |> <| w_priority := priority |>
                                                             <| w_owner_epoch := b_epoch b |>) |>
  | None => b <| b_jobs ::= (fun rows => rows ++ [mkRow id job needs priority (UnixMilli now) (UnixMilli now) Pending
                                                        root parent (b_epoch b) "" "" "" 0 None]) |>
  end.

(** src/internal/workers/broker.go:403-422 [Submit] *)
Definition submitNew (now : Z) (root parent : string) (job : CheckJob) (needs : Requirements) (priority : Z) : DB string :=
  requireCapacity ;;
  let id := attemptKey root parent (j_Command job) (j_RetryTests job) in
  stmt ;; put (insertJob now id root parent job needs priority) ;;
  mret id.

(** src/internal/workers/broker.go:380-397 [Submit] Adopting the latest attempt of a chain. *)
Definition adopt (now : Z) (latest : Row) : DB string :=
  (if isState Cancelled latest then requireCapacity ;; update (byID (w_id latest)) revive ;; mret tt else mret tt) ;;
  epoch ← get b_epoch;
  update (byID (w_id latest)) (fun r => r <| w_wanted := UnixMilli now |> <| w_owner_epoch := epoch |>) ;;
  mret (w_id latest).

(** src/internal/workers/broker.go:361-427 [Submit] The notification follows the
    commit of a new attempt; adopting one does not notify. *)
Definition Submit (now : Z) (root : string) (job : CheckJob) (needs : Requirements) (priority : Z) : DB string :=
  if invalidJob root job needs then fail (Other "invalid worker job")
  else
    let parent := j_PreviousExecution job in
    r ← tx (
      if negb (String.eqb parent "") then
        found ← query (lookupJob parent);
        match found with
        | None => fail NoRows
        | Some p =>
            if String.eqb (w_root p) "" || negb (isState Completed p)
            then fail (Other "retry requires a completed predecessor")
            else id ← submitNew now (w_root p) parent job needs priority; mret (id, true)
        end
      else
        latest ← query (fun b => List.find (fun r => String.eqb (w_root r) root) (rev (b_jobs b)));
        match latest with
        | Some latest => id ← adopt now latest; mret (id, false)
        | None => id ← submitNew now root "" job needs priority; mret (id, true)
        end);
    match r with
    | (id, true) => notify ;; mret id
    | (id, false) => mret id
    end.
End Submit.

Definition deleteWhere (p : Row -> bool) (rows : list Row) : list Row := List.filter (fun r => negb (p r)) rows.

Definition remove (p : Row -> bool) : DB unit := stmt ;; put (fun b => b <| b_jobs ::= deleteWhere p |>).

(** src/internal/workers/broker.go:430-437 [forgetCompleted] The database's error is ignored. *)
Definition forgetCompleted (id : string) : DB unit :=
  waiting ← get (fun b => 0 <? b_waiters b !!! id else 0);
  if waiting : bool then mret tt
  else fun b => (inr tt, snd (remove (fun r => byID id r && isState Completed r) b)).

(** ** status.go *)

(** src/internal/workers/status.go:11-16 [Peer] *)
Record Peer := mkPeer { pe_Online : bool; pe_Worker : Worker; pe_Seen : Z; pe_Running : Z }.

(** src/internal/workers/status.go:17-26 [Demand] *)
Record Demand := mkDemand {
  de_Worker : string;
  de_Priority : Z;
  de_Image : bool;
  de_Services : bool;
  de_Profile : string;
  de_Requirements : Requirements;
  de_Pending : Z;
  de_Running : Z;
}.

#[export] Instance Demand_eta : Eta Demand := fun d => mkDemand (de_Worker d) (de_Priority d) (de_Image d) (de_Services d)
  (de_Profile d) (de_Requirements d) (de_Pending d) (de_Running d).

(** src/internal/workers/status.go:27-31 [Status] The scaler adds the pools. *)
Record Status := mkStatus { st_Workers : list Peer; st_Demand : list Demand }.

Section Status.
(** The bytes [json.Marshal] writes for requirements, by which the database groups and sorts. *)
Context (needsJSON : Requirements -> string).

(** src/internal/workers/status.go:37-57 [Status] *)
Definition peersOf (now : Z) (b : Broker) : list Peer :=
  let ids := sort_by String.ltb (map fst (map_to_list (b_peers b))) in
  omap (fun id =>
    p ← b_peers b !! id;
    let seen := fromMilli (p_seen p) in
    Some (mkPeer (now - seen <=? 2 * b_lease b)
            ((p_data p) <| k_Draining := k_Draining (p_data p) || p_draining p |> <| k_Session := "" |>)
            seen
            (Z.of_nat (length (List.filter (fun r => String.eqb (w_worker r) id && isState Leased r) (b_jobs b)))))) ids.

(** src/internal/workers/status.go:66-66 [Status] The first six columns of a job, without its count. *)
Definition demandKey (r : Row) : Demand :=
  mkDemand (if isState Leased r then w_worker r else "") (w_priority r)
    (negb (String.eqb (j_Image (w_job r)) "")) (0 <? length (j_ServiceNeeds (w_job r)))%nat
    (j_Executor (w_job r)) (w_needs r)
    (if isState Pending r then 1 else 0) (if isState Pending r then 0 else 1).

(** Whether two jobs fall into one group. *)
Definition sameDemand (a b : Demand) : bool :=
  String.eqb (de_Worker a) (de_Worker b) && (de_Priority a =? de_Priority b) && Bool.eqb (de_Image a) (de_Image b)
  && Bool.eqb (de_Services a) (de_Services b) && String.eqb (de_Profile a) (de_Profile b)
  && String.eqb (needsJSON (de_Requirements a)) (needsJSON (de_Requirements b))
  && Bool.eqb (0 <? de_Pending a) (0 <? de_Pending b).

(** src/internal/workers/status.go:66-66 [Status] GROUP BY, with COUNT *)
Fixpoint addDemand (d : Demand) (groups : list Demand) : list Demand :=
  match groups with
  | [] => [d]
  | g :: groups =>
      if sameDemand g d then g <| de_Pending ::= Z.add (de_Pending d) |> <| de_Running ::= Z.add (de_Running d) |> :: groups
      else g :: addDemand d groups
  end.

(** src/internal/workers/status.go:66-66 [Status] ORDER BY priority DESC, executor, needs, state, worker *)
Definition demandBefore (a b : Demand) : bool :=
  let cmp (x y : string) (rest : bool) := if String.eqb x y then rest else String.ltb x y in
  let state d := if 0 <? de_Pending d then "pending" else "leased" in
  if de_Priority a =? de_Priority b then
    cmp (de_Profile a) (de_Profile b)
      (cmp (needsJSON (de_Requirements a)) (needsJSON (de_Requirements b))
         (cmp (state a) (state b) (cmp (de_Worker a) (de_Worker b) false)))
  else de_Priority b <? de_Priority a.

(** src/internal/workers/status.go:66-87 [Status] *)
Definition demandOf (b : Broker) : list Demand :=
  sort_by demandBefore
    (fold_left (fun groups r => addDemand (demandKey r) groups)
       (List.filter (fun r => active r && String.eqb (w_owner_epoch r) (b_epoch b)) (b_jobs b)) []).

(** src/internal/workers/status.go:33-94 [Status] An error is all a caller uses of a failed call. *)
Definition Status_ (now : Z) : DB Status :=
  workers ← query (peersOf now);
  demand ← query demandOf;
  mret (mkStatus workers demand).
End Status.

(** src/internal/workers/status.go:96-112 [Drain] *)
Definition Drain (worker : string) (draining : bool) : DB unit :=
  known ← query (fun b => isSome (b_peers b !! worker));
  if known : bool then
    put (fun b => b <| b_peers ::= alter (fun p => p <| p_draining := draining |>) worker |>) ;; notify
  else fail (Other ("unknown worker " +:+ quoted worker)).

(** src/internal/workers/status.go:134-142 [Maintain] What became of a job nobody waits for. *)
Inductive Retire := RetireCancel | RetireRemove | RetireKeep.

(** src/internal/workers/status.go:134-142 [Maintain] *)
Definition retire (now orphanGrace retention : Z) (waiters : gmap string Z) (r : Row) : Retire :=
  if 0 <? waiters !!! w_id r else 0 then RetireKeep
  else
    let age := now - fromMilli (w_wanted r) in
    if active r && (orphanGrace <? age) then RetireCancel
    else if retention <? age then RetireRemove
    else RetireKeep.

(** Running a statement for each id. *)
Fixpoint each (f : string -> DB unit) (ids : list string) : DB unit :=
  match ids with
  | [] => mret tt
  | id :: ids => f id ;; each f ids
  end.

(** src/internal/workers/status.go:162-162 [Maintain] *)
Definition forgetPeers (now retention : Z) (b : Broker) : Broker :=
  let gone (kp : string * PeerRow) :=
    (p_seen (snd kp) <? UnixMilli (now - retention))
    && negb (existsb (fun r => String.eqb (w_worker r) (fst kp) && isState Leased r) (b_jobs b)) in
  b <| b_peers := filter (fun kp => gone kp = false) (b_peers b) |>.

(** src/internal/workers/status.go:162-166 [Maintain] Notifying whether or not [m] succeeded. *)
Definition notifyAfter (cancelled : bool) (m : DB unit) : DB unit :=
  fun b => let '(r, b) := m b in (r, if cancelled then b <| b_changed ::= S |> else b).

Definition isCancel (e : string * Retire) : bool := match snd e with RetireCancel => true | _ => false end.
Definition isRemove (e : string * Retire) : bool := match snd e with RetireRemove => true | _ => false end.

(** src/internal/workers/status.go:116-167 [Maintain] Not a transaction: what was
    done before an error stays. *)
Definition Maintain (now orphanGrace retention : Z) : DB unit :=
  young ← get (fun b => now - b_born b <? b_grace b);
  if young : bool then mret tt
  else
    plan ← query (fun b => map (fun r => (w_id r, retire now orphanGrace retention (b_waiters b) r)) (b_jobs b));
    let cancel := map fst (List.filter isCancel plan) in
    let removed := map fst (List.filter isRemove plan) in
    each (fun id => update (byID id) (fun r => r <| w_state := Cancelled |>) ;; mret tt) cancel ;;
    each (fun id => remove (byID id)) removed ;;
    notifyAfter (0 <? length cancel)%nat (stmt ;; put (forgetPeers now retention)).

(** src/internal/workers/status.go:169-180 [cancelUnwatched] *)
Definition cancelUnwatched (id : string) : DB unit :=
  waiting ← get (fun b => 0 <? b_waiters b !!! id else 0);
  if waiting : bool then mret tt else Cancel id.

(** src/internal/workers/status.go:184-192 [KeepRun] *)
Definition KeepRun (now : Z) (runID sha : string) : DB unit :=
  epoch ← get b_epoch;
  update (fun r => String.eqb (j_RunID (w_job r)) runID && String.eqb (j_MergeSHA (w_job r)) sha
                   && (negb (String.eqb (w_owner_epoch r) epoch) || (w_wanted r <? UnixMilli (now - 30000000000))))
         (fun r => r <| w_wanted := UnixMilli now |> <| w_owner_epoch := epoch |>) ;;
  notify.

(** src/internal/workers/status.go:228-228 [drainForRemoval] The row of a revoked lease. *)
Definition requeue (r : Row) : Row :=
  r <| w_state := Pending |> <| w_token := "" |> <| w_worker := "" |> <| w_session := "" |> <| w_lease_until := 0 |>.

(** src/internal/workers/status.go:217-242 [drainForRemoval] Whether the worker may go;
    an expired lease of an offline worker is revoked on the way. *)
Definition removable (now : Z) (worker : string) (before : Z) (offline : bool) (p : PeerRow) : DB bool :=
  if offline then
    held ← get (fun b => (UnixMilli before <=? p_seen p) || (now - b_born b <? b_grace b));
    if held : bool then mret false
    else
      running ← query (fun b => existsb (fun r => String.eqb (w_worker r) worker && isState Leased r && (UnixMilli now <=? w_lease_until r)) (b_jobs b));
      if running : bool then mret false
      else update (fun r => String.eqb (w_worker r) worker && isState Leased r) requeue ;; mret true
  else
    busy ← get (fun b => (2 * b_lease b <? now - fromMilli (p_seen p)) || negb (bool_decide (k_Usage (p_data p) = mkResources 0 0 0)));
    if busy : bool then mret false
    else
      running ← query (fun b => existsb (fun r => String.eqb (w_worker r) worker && isState Leased r) (b_jobs b));
      mret (negb running).

(** src/internal/workers/status.go:196-251 [drainForRemoval] *)
Definition drainForRemoval (now : Z) (worker : string) (before : Z) (offline : bool) : DB bool :=
  r ← txn (
    peer ← query (fun b => b_peers b !! worker);
    match peer with
    | None => mret ((true, false), false)
    | Some p =>
        ok ← removable now worker before offline p;
        if ok : bool then
          stmt ;; put (fun b => b <| b_peers ::= alter (fun p => p <| p_draining := true |>) worker |>) ;;
          mret ((true, true), true)
        else mret ((false, false), false)
    end);
  if snd r : bool then notify ;; mret (fst r) else mret (fst r).

(** src/internal/workers/status.go:255-261 [Pressure] *)
Definition Pressure (now : Z) (b : Broker) : bool * Broker :=
  match query (fun b => existsb (fun r => isState Pending r && String.eqb (w_owner_epoch r) (b_epoch b)
                                          && (w_created r <? UnixMilli (now - b_lease b))) (b_jobs b)) b with
  | (inr waiting, b) => (waiting, b)
  | (inl _, b) => (true, b)
  end.

(** src/internal/workers/server.go:108-130 [authorized] *)
Definition authorized (id token : string) : DB Attempt :=
  found ← query (lookupJob id);
  match found with
  | None => fail ErrStale
  | Some r =>
      if String.eqb token "" || negb (String.eqb token (w_token r)) || negb (isState Leased r) then fail ErrStale
      else mret (mkAttempt id (w_token r) (w_worker r) 0 0 (w_job r) (w_needs r))
  end.
