(* ===== verification/WorkerServer.v ===== *)
(** The two ends of the broker: the HTTP handlers workers call (server.go), and
    the executor through which the scheduler submits a check and waits for it
    (executor.go). A handler's answer is its status code and body. *)
From S2P Require Import Prelude GoString Core Wire TestReport Broker.

Open Scope string_scope.
Open Scope list_scope.
Open Scope Z_scope.

(** ** server.go *)

(** The text of an error. *)
Definition errorText (err : berror) : string :=
  match err with
  | ErrCapacity => "worker backlog is full"
  | ErrStale => "worker attempt was cancelled or reassigned"
  | NoRows => "sql: no rows in result set"
  | Other msg => msg
  end.

(** src/internal/workers/server.go:41-45 [Handler] A request without the shared token goes no further. *)
Definition authenticated (token supplied : string) : bool :=
  negb (String.eqb token "" || negb (String.eqb supplied token)).

(** src/internal/workers/server.go:69-75 [workerError] *)
Definition workerError (e : berror) : Z := match e with ErrStale => 409 | _ => 500 end.

(** src/internal/workers/server.go:77-93 [claim] The body decoded to [worker], [None] where it does not decode. *)
Definition claim (now : Z) (randomID : string) (worker : option Worker) (b : Broker) : (Z * option Attempt) * Broker :=
  match worker with
  | None => ((400, None), b)
  | Some w =>
      match Claim now randomID w b with
      | (inl e, b) => ((workerError e, None), b)
      | (inr None, b) => ((204, None), b)
      | (inr (Some a), b) => ((200, Some a), b)
      end
  end.

(** src/internal/workers/server.go:99-105 [renew] *)
Definition renew (now : Z) (id : string) (token : option string) (b : Broker) : Z * Broker :=
  match token with
  | None => (400, b)
  | Some token =>
      match Renew now id token b with
      | (inl e, b) => (workerError e, b)
      | (inr _, b) => (204, b)
      end
  end.

(** src/internal/workers/server.go:132-150 [sourceCommits] *)
Definition addCommit (oid : string) (out : list string) : list string :=
  if String.eqb oid "" || memb oid out then out else out ++ [oid].

(** src/internal/workers/server.go:132-150 [sourceCommits] *)
Definition sourceCommits (job : CheckJob) : list string :=
  fold_left (fun out oid => addCommit oid out)
    ([j_MergeSHA job; j_BaseSHA job; c_SHA (j_Candidate job); c_SourceBase (j_Candidate job)]
     ++ concat (map (fun c => [c_SHA c; c_SourceBase c]) (j_Candidates job))) [].

(** src/internal/workers/server.go:152-174 [source] The commits whose objects are sent. *)
Definition source (id : string) (request : option (string * list string)) (hasObjects : bool) (b : Broker)
  : (Z * list string) * Broker :=
  match request with
  | None => ((400, []), b)
  | Some (token, haves) =>
      match authorized id token b with
      | (inl e, b) => ((workerError e, []), b)
      | (inr a, b) =>
          if (128 <? Z.of_nat (length haves)) || negb hasObjects then ((400, []), b)
          else ((200, sourceCommits (a_Job a)), b)
      end
  end.

Section Server.
(** The log files: the digest of the file at a path ([None] where it does not open,
    [Some None] where reading it fails), and the error of writing some files, one
    after the other, to another. *)
Context (LogDir : string) (join : list string -> string).
Context (digestOf : string -> option (option string)).
Context (assemble : list string -> string -> option string).

(** src/internal/workers/server.go:286-288 [logPath] *)
Definition logPath (a : Attempt) : string :=
  join [LogDir; SanitizeName (j_RunID (a_Job a)); a_ID a +:+ "-" +:+ a_Token a +:+ ".log.zst"].

(** src/internal/workers/server.go:233-238 [complete] *)
Definition claimed (a : Attempt) (r : Result) : Result :=
  let job := a_Job a in
  r <| Check_ ::= (fun c => c <| r_Name := j_Name job |> <| r_Command := j_Command job |>
                              <| r_ExecutedRun := j_RunID job |> <| r_ExecutedSHA := j_MergeSHA job |>
                              <| r_ExecutionID := a_ID a |> <| r_Worker := a_Worker a |> <| r_LogPath := "" |>) |>.

(** src/internal/workers/server.go:239-242 [complete] *)
Definition invalidExecution (r : Result) : bool :=
  (65536 <? strlen (r_Output (Check_ r))) || negb (validVerdict (r_Status (Check_ r))).

(** src/internal/workers/server.go:249-269 [complete] The uploaded log, or the answer that refuses it. *)
Definition checkLog (a : Attempt) (r : Result) : Z + Result :=
  if String.eqb (LogDigest r) "" then inr r
  else if negb (strlen (LogDigest r) =? 64) then inl 400
  else
    match digestOf (logPath a) with
    | None => inl 500
    | Some d =>
        if bool_decide (d = Some (LogDigest r))
        then inr (r <| Check_ ::= (fun c => c <| r_LogPath := logPath a |>) |> <| AttemptLogPath := logPath a |>)
        else inl 409
    end.

(** src/internal/workers/logs.go:12-22 [completed] *)
Definition completed (id : string) : DB Result :=
  found ← query (completedResult id);
  match found with Some r => mret r | None => fail NoRows end.

(** src/internal/workers/logs.go:24-64 [combineLogs] *)
Definition combineLogs (parent current : string) : DB string :=
  sources ← (if String.eqb parent "" then mret []
             else previous ← completed parent;
                  mret (if String.eqb (r_LogPath (Check_ previous)) "" then [] else [r_LogPath (Check_ previous)]));
  if String.eqb current "" then mret ""
  else
    let combined := current +:+ ".diagnostic.log.zst" in
    match assemble (sources ++ [current]) combined with
    | Some err => fail (Other err)
    | None => mret combined
    end.

(** src/internal/workers/logs.go:66-71 [logNote] *)
Definition logNote (result : Result) (err : string) : Result :=
  result <| Check_ ::= (fun c => c <| r_Output ::= (fun o => lastBytes 65536
    (o +:+ String newline ("gauntlet: worker diagnostic log could not be assembled: " +:+ err))) |>) |>.

(** src/internal/workers/server.go:270-278 [complete] *)
Definition withLogs (a : Attempt) (r : Result) (b : Broker) : Result * Broker :=
  if String.eqb (r_LogPath (Check_ r)) "" then (r, b)
  else match combineLogs (j_PreviousExecution (a_Job a)) (r_LogPath (Check_ r)) b with
       | (inl e, b) => (logNote (r <| Check_ ::= (fun c => c <| r_LogPath := "" |>) |>) (errorText e), b)
       | (inr path, b) => (r <| Check_ ::= (fun c => c <| r_LogPath := path |>) |>, b)
       end.

(** src/internal/workers/server.go:213-284 [complete] The three calls of the broker
    are operations of their own: others may come between them, and [Complete] checks
    the token again. *)
Definition complete (id : string) (request : option (string * Result)) (b : Broker) : Z * Broker :=
  match request with
  | None => (400, b)
  | Some (token, result) =>
      match authorized id token b with
      | (inl ErrStale, b) =>
          (* Completed uploads may be retried after losing their acknowledgement. *)
          match Complete id token result b with
          | (inr _, b) => (204, b)
          | (inl e, b) => (workerError e, b)
          end
      | (inl e, b) => (workerError e, b)
      | (inr a, b) =>
          let r := claimed a result in
          if invalidExecution r then (400, b)
          else if lacksTests (a_Job a) r then (400, b)
          else match checkLog a r with
               | inl code => (code, b)
               | inr r =>
                   let '(r, b) := withLogs a r b in
                   match Complete (a_ID a) token r b with
                   | (inr _, b) => (204, b)
                   | (inl e, b) => (workerError e, b)
                   end
               end
      end
  end.
End Server.

(** ** executor.go *)

(** What [verification.Key] hashes. *)
Inductive KeyPart := KString (s : string) | KStrings (l : list string) | KBool (b : bool).

Section Executor.
Context (Key : list KeyPart -> string).

(** src/internal/workers/broker.go:410-410 [Submit] *)
Definition attemptKey (root parent : string) (command retryTests : list string) : string :=
  Key [KString "remote-attempt-v1"; KString root; KString parent; KStrings command; KStrings retryTests].

(** src/internal/workers/executor.go:15-20 [Executor] *)
Record Executor := mkExecutor { x_Context : string; x_Profiles : gmap string Requirements }.

(** src/internal/workers/executor.go:24-33 [RunCheck] What the executor refuses outright. *)
Definition refusal (e : Executor) (pinned : string -> bool) (job : CheckJob) : option string :=
  if j_OperatorOwned job then Some "operator commands require a local executor"
  else if negb (String.eqb (j_Image job) "") && negb (pinned (j_Image job))
  then Some "remote image consumers require a registry digest reference"
  else if isSome (x_Profiles e !! j_Executor job) then None
  else Some "remote profile is not configured".

(** src/internal/workers/executor.go:34-37 [RunCheck] *)
Definition rootKey (e : Executor) (randomID : string) (job : CheckJob) : string :=
  let root := Key [KString "remote-root-v1"; KString (x_Context e); KString (j_RunID job); KString (j_MergeSHA job);
                   KString (j_Name job); KString (j_Executor job); KString (j_Image job); KBool (j_InputsCapture job);
                   KBool (j_ImageBuild job); KBool (j_ReceiptCapture job)] in
  if j_InputsCapture job then Key [KString root; KString randomID] else root.

(** src/internal/workers/executor.go:38-47 [RunCheck] *)
Definition jobPriority (priority : string) : Z :=
  if String.eqb priority "low" then 0
  else if String.eqb priority "high" then 2
  else if String.eqb priority "urgent" then 3
  else 1.

(** src/internal/workers/executor.go:48-55 [RunCheck] The job that travels, without the
    scheduler's paths and commit messages. *)
Definition wireJob (job : CheckJob) : CheckJob :=
  job <| j_Candidate ::= (fun c => c <| c_Message := "" |>) |>
      <| j_Candidates ::= map (fun c => c <| c_Message := "" |>) |>.

(** src/internal/workers/executor.go:80-81 [RunCheck] *)
Definition delivered (job : CheckJob) (result : Result) : CheckResult :=
  let check := CheckResult_of result in
  check <| r_Reused := negb (String.eqb (r_ExecutedRun check) (j_RunID job)) || negb (String.eqb (r_ExecutedSHA check) (j_MergeSHA job)) |>.

(** src/internal/workers/executor.go:23-23 [RunCheck] *)
Definition failure (job : CheckJob) (err : string) : CheckResult :=
  zeroCheckResult <| r_Name := j_Name job |> <| r_Err := Some err |>.

(** src/internal/workers/executor.go:56-82 [RunCheck] Where a call is: it submits
    until there is room in the backlog, then waits for its attempt. *)
Inductive Call :=
  | Submitting (root : string)
  | Waiting (id : string)
  | Returned (check : CheckResult).

(** src/internal/workers/executor.go:22-37 [RunCheck] *)
Definition callStart (e : Executor) (pinned : string -> bool) (randomID : string) (job : CheckJob) : Call :=
  match refusal e pinned job with
  | Some err => Returned (failure job err)
  | None => Submitting (rootKey e randomID job)
  end.

(** src/internal/workers/executor.go:56-67 [RunCheck] One try; a full backlog is tried again unless the context has ended. *)
Definition callSubmit (e : Executor) (now : Z) (ended : option string) (job : CheckJob) (root : string) (b : Broker) : Call * Broker :=
  match Submit attemptKey now root (wireJob job) (default (mkRequirements [] (mkResources 0 0 0)) (x_Profiles e !! j_Executor job))
          (jobPriority (j_Priority job)) b with
  | (inr id, b) => (Waiting id, snd (waitBegin id b))
  | (inl ErrCapacity, b) => (match ended with Some err => Returned (failure job err) | None => Submitting root end, b)
  | (inl err, b) => (Returned (failure job (errorText err)), b)
  end.

(** src/internal/workers/executor.go:68-82 [RunCheck] One turn of waiting. [ended] is the
    error of the context, [shutdown] says that the scheduler itself is stopping,
    and an attempt nobody waits for any more is cancelled unless it is. *)
Definition callWait (ended : option string) (shutdown : bool) (job : CheckJob) (id : string) (b : Broker) : Call * Broker :=
  let leave err b :=
    let b := snd (waitEnd id b) in
    (Returned (failure job err), if isSome ended && negb shutdown then snd (cancelUnwatched id b) else b) in
  match waitPoll id b with
  | (inl err, b) => leave (errorText err) b
  | (inr (inl result), b) =>
      let b := snd (waitEnd id b) in
      (Returned (delivered job result), if j_InputsCapture job then snd (forgetCompleted id b) else b)
  | (inr (inr _), b) =>
      match ended with
      | Some err => leave err b
      | None => (Waiting id, b)
      end
  end.
End Executor.
