(* ===== verification/BrokerSpec.v ===== *)
(** What the broker promises (Broker.v): every operation, whatever statement of it
    fails, moves the job table by the steps below; from them follow the invariant of
    the table, what a lease token is worth, and what a claim may hand out. *)
From stdpp Require Import relations.
From S2P Require Import Prelude GoString Core Wire TestReport Broker WorkerServer.

Open Scope string_scope.
Open Scope list_scope.
Open Scope Z_scope.

(** ** Weakest preconditions of database programs *)

Definition wp {A} (m : DB A) (Q : berror + A -> Broker -> Prop) (b : Broker) : Prop := Q (fst (m b)) (snd (m b)).

Lemma wp_mono {A} (m : DB A) (Q Q' : berror + A -> Broker -> Prop) b : wp m Q b -> (forall r b', Q r b' -> Q' r b') -> wp m Q' b.
Proof. unfold wp. auto. Qed.

Lemma wp_ret {A} (x : A) Q b : Q (inr x) b -> wp (mret x) Q b.
Proof. done. Qed.

Lemma wp_fail {A} e (Q : berror + A -> Broker -> Prop) b : Q (inl e) b -> wp (fail e) Q b.
Proof. done. Qed.

Lemma wp_get {A} (q : Broker -> A) Q b : Q (inr (q b)) b -> wp (get q) Q b.
Proof. done. Qed.

Lemma wp_put f Q b : Q (inr tt) (f b) -> wp (put f) Q b.
Proof. done. Qed.

Lemma wp_bind {A B} (m : DB A) (k : A -> DB B) Q b :
  wp m (fun r b' => match r with inl e => Q (inl e) b' | inr a => wp (k a) Q b' end) b -> wp (m ≫= k) Q b.
Proof. unfold wp, mbind, DB_bind. destruct (m b) as [[e|a] b']; done. Qed.

(** What an error, or a broker's answers still to come, leave alone. *)
Definition sameTables (b b' : Broker) : Prop := exists fs, b' = b <| b_faults := fs |>.

Lemma sameTables_refl b : sameTables b b.
Proof. exists (b_faults b). by destruct b. Qed.

Lemma wp_stmt Q b :
  (forall b' r, sameTables b b' -> (r = inr tt \/ exists e, r = inl (Other e)) -> Q r b') -> wp stmt Q b.
Proof.
  intros H. unfold wp, stmt. destruct (b_faults b) as [|[e|] fs]; cbn [fst snd]; apply H; eauto using sameTables_refl; by eexists.
Qed.

Lemma wp_query {A} (q : Broker -> A) Q b :
  (forall b' e, sameTables b b' -> Q (inl (Other e)) b') -> (forall b', sameTables b b' -> Q (inr (q b')) b') -> wp (query q) Q b.
Proof.
  intros He Hq. apply wp_bind, wp_stmt. intros b' r Hb [->|[e ->]]; [|by apply He]. apply wp_get. by apply Hq.
Qed.

Lemma wp_update p f Q b :
  (forall b' e, sameTables b b' -> Q (inl (Other e)) b') ->
  (forall b', sameTables b b' -> Q (inr (Z.of_nat (length (List.filter p (b_jobs b'))))) (b' <| b_jobs ::= setWhere p f |>)) ->
  wp (update p f) Q b.
Proof.
  intros He Hq. apply wp_bind, wp_stmt. intros b' r Hb [->|[e ->]]; [|by apply He].
  apply wp_bind, wp_get, wp_bind, wp_put, wp_ret. by apply Hq.
Qed.

Lemma wp_txn {A} (m : DB (A * bool)) Q b :
  (forall b' e, sameTables b b' -> Q (inl e) b') ->
  (forall b', sameTables b b' ->
     wp m (fun r b2 => match r with
                       | inl _ => True
                       | inr (x, true) => forall b3, sameTables b2 b3 -> Q (inr x) b3
                       | inr (x, false) => forall b3, sameTables b b3 -> Q (inr x) b3
                       end) b') ->
  wp (txn m) Q b.
Proof.
  intros He Hm. unfold wp, txn. cbv zeta.
  match goal with |- context [match ?m b with _ => _ end] => set (body := m) end.
  assert (wp body (fun r b2 => match r with
                       | inl _ => True
                       | inr (x, true) => Q (inr x) b2
                       | inr (x, false) => forall b3, sameTables b b3 -> Q (inr x) b3
                       end) b) as H.
  { unfold body. apply wp_bind, wp_stmt. intros b' r Hb [->|[e ->]]; [|done]. apply wp_bind.
    eapply wp_mono; [by apply Hm|]. intros [e|[x [|]]] b2 H2; [done| |].
    - cbn [snd]. apply wp_bind, wp_stmt. intros b3 r Hb3 [->|[e ->]]; [|done]. apply wp_ret. by apply H2.
    - cbn [snd]. apply wp_bind, wp_ret, wp_ret. done. }
  unfold wp in H. destruct (body b) as [[e|[x [|]]] b2]; cbn [fst snd] in *.
  - apply He. by eexists.
  - done.
  - apply H. by eexists.
Qed.

Lemma wp_tx {A} (m : DB A) Q b :
  (forall b' e, sameTables b b' -> Q (inl e) b') ->
  (forall b', sameTables b b' ->
     wp m (fun r b2 => match r with inl _ => True | inr x => forall b3, sameTables b2 b3 -> Q (inr x) b3 end) b') ->
  wp (tx m) Q b.
Proof.
  intros He Hm. apply wp_txn; [done|]. intros b' Hb. apply wp_bind. eapply wp_mono; [by apply Hm|].
  intros [e|x] b2 H2; [done|]. by apply wp_ret.
Qed.

(** ** How the job table moves *)

(** Adopting a row, or renewing its lease. *)
Definition touched (r r' : Row) : Prop :=
  exists wanted priority epoch until,
    r' = r <| w_wanted := wanted |> <| w_priority := priority |> <| w_owner_epoch := epoch |> <| w_lease_until := until |>.

(** [p] selects the row [row] of the table and no other. *)
Definition selects (rows : list Row) (p : Row -> bool) (row : Row) : Prop :=
  row ∈ rows /\ forall r, r ∈ rows -> p r = true <-> r = row.

Definition room (rows : list Row) : Prop := Z.of_nat (length (List.filter active rows)) < 10000.

Definition validNeeds (q : Resources) : Prop := 1 <= Slots q <= maxInt64 /\ 0 <= CPU q <= maxInt64 /\ 0 <= Memory q <= maxInt64.

(** A result the scheduler accepts for a row, and what it makes of it. *)
Definition accepted (rows : list Row) (row : Row) (stored : Result) : Prop :=
  exists given previous,
    r_Err (Check_ given) = None /\ refused row given = None /\
    (if String.eqb (w_parent row) "" then previous = None
     else exists p, p ∈ rows /\ w_id p = w_parent row /\ w_state p = Completed /\ w_result p = previous /\ isSome previous = true) /\
    stored = conclude row previous given.

Definition cancelled (r : Row) : Row := r <| w_state := Cancelled |>.
Definition concluded (stored : Result) (r : Row) : Row := r <| w_result := Some stored |> <| w_state := Completed |>.

(** A step that hands out no lease. *)
Inductive qstep (rows : list Row) : list Row -> Prop :=
  | q_touch p f : (forall r, touched r (f r)) -> qstep rows (setWhere p f rows)
  | q_cancel p : (forall r, r ∈ rows -> p r = true -> active r = true) -> qstep rows (setWhere p cancelled rows)
  | q_requeue p : (forall r, r ∈ rows -> p r = true -> w_state r = Leased) -> qstep rows (setWhere p requeue rows)
  | q_complete p row stored :
      selects rows p row -> w_state row = Leased -> accepted rows row stored -> qstep rows (setWhere p (concluded stored) rows)
  | q_revive p row : selects rows p row -> w_state row = Cancelled -> room rows -> qstep rows (setWhere p revive rows)
  | q_insert row :
      (w_id row ∉ w_id <$> rows) -> w_state row = Pending -> w_token row = "" -> w_result row = None ->
      validNeeds (q_Resources (w_needs row)) -> room rows -> qstep rows (rows ++ [row])
  | q_delete p : qstep rows (deleteWhere p rows).

(** ** The invariant of the table *)

Definition rowOK (r : Row) : Prop :=
  validNeeds (q_Resources (w_needs r)) /\
  (w_state r = Pending -> w_token r = "") /\
  (w_state r = Leased \/ w_state r = Completed -> w_token r <> "") /\
  (isSome (w_result r) = true <-> w_state r = Completed).

Definition rowsOK (rows : list Row) : Prop :=
  NoDup (w_id <$> rows) /\
  (forall r, r ∈ rows -> rowOK r) /\
  (forall r1 r2, r1 ∈ rows -> r2 ∈ rows -> w_token r1 = w_token r2 -> w_token r1 <> "" -> r1 = r2) /\
  Z.of_nat (length (List.filter active rows)) <= 10000.

Lemma setWhere_elem p f rows r' : r' ∈ setWhere p f rows <-> exists r, r ∈ rows /\ r' = if p r then f r else r.
Proof. unfold setWhere. rewrite list_elem_of_In, in_map_iff. setoid_rewrite list_elem_of_In. naive_solver. Qed.

Lemma deleteWhere_elem p rows r : r ∈ deleteWhere p rows <-> r ∈ rows /\ p r = false.
Proof. unfold deleteWhere. rewrite list_elem_of_In, filter_In, <- list_elem_of_In, negb_true_iff. done. Qed.

Lemma setWhere_ids p f rows : (forall r, w_id (f r) = w_id r) -> w_id <$> setWhere p f rows = w_id <$> rows.
Proof.
  intros H. unfold setWhere. rewrite <- list_fmap_compose. apply list_fmap_ext. intros i r _. simpl. by destruct (p r).
Qed.

Lemma ids_inj rows r1 r2 : NoDup (w_id <$> rows) -> r1 ∈ rows -> r2 ∈ rows -> w_id r1 = w_id r2 -> r1 = r2.
Proof.
  intros Hnd [i Hi]%list_elem_of_lookup_1 [j Hj]%list_elem_of_lookup_1 E.
  assert (i = j) as ->; [|congruence]. eapply NoDup_lookup; [exact Hnd| |]; rewrite list_lookup_fmap; [by rewrite Hi|].
  rewrite Hj. simpl. by rewrite E.
Qed.

(** Rewriting rows: what must hold of the rows before and after. *)
Lemma rowsOK_set p f rows :
  rowsOK rows -> (forall r, w_id (f r) = w_id r) ->
  (forall r, r ∈ rows -> p r = true -> rowOK r -> rowOK (f r) /\ (w_token (f r) = w_token r \/ w_token (f r) = "")) ->
  Z.of_nat (length (List.filter active (setWhere p f rows))) <= 10000 ->
  rowsOK (setWhere p f rows).
Proof.
  intros (Hnd & Hok & Ht & Hb) Hid Hf Hb'. split_and!; [by rewrite setWhere_ids| | |done].
  - intros r' (r & Hr & ->)%setWhere_elem. destruct (p r) eqn:E; [|by apply Hok]. by apply Hf, Hok.
  - intros r1' r2' (r1 & Hr1 & ->)%setWhere_elem (r2 & Hr2 & ->)%setWhere_elem E Hne.
    assert (forall r, r ∈ rows -> w_token (if p r then f r else r) <> "" -> w_token (if p r then f r else r) = w_token r) as Htok.
    { intros r Hr Hn. destruct (p r) eqn:Ep; [|done]. destruct (Hf r Hr Ep (Hok r Hr)) as [_ [Hx|Hx]]; congruence. }
    pose proof (Htok r1 Hr1 Hne) as E1. rewrite E in Hne. pose proof (Htok r2 Hr2 Hne) as E2.
    rewrite E1, E2 in E. rewrite E2 in Hne. rewrite <- E in Hne. by rewrite (Ht r1 r2 Hr1 Hr2 E Hne).
Qed.

Lemma active_length_set p f rows :
  (forall r, r ∈ rows -> p r = true -> active (f r) = true -> active r = true) ->
  (length (List.filter active (setWhere p f rows)) <= length (List.filter active rows))%nat.
Proof.
  induction rows as [|r rows IH]; intros H; [done|]. cbn.
  assert (length (List.filter active (setWhere p f rows)) <= length (List.filter active rows))%nat as IH'
    by (apply IH; intros r' Hr'; apply H; by right).
  specialize (H r (list_elem_of_here _ _)). destruct (p r); [|destruct (active r); cbn; unfold setWhere in *; lia].
  destruct (active (f r)); [rewrite H by done|destruct (active r)]; cbn; unfold setWhere in *; lia.
Qed.

(** Rewriting one row adds at most one active row. *)
Lemma active_length_one p f rows row :
  NoDup (w_id <$> rows) -> (forall r, r ∈ rows -> p r = true -> r = row) ->
  (length (List.filter active (setWhere p f rows)) <= S (length (List.filter active rows)))%nat.
Proof.
  induction rows as [|r rows IH]; intros Hnd H; [simpl; lia|]. cbn in Hnd |- *. apply NoDup_cons in Hnd as [Hr Hnd].
  destruct (p r) eqn:E.
  - assert (length (List.filter active (setWhere p f rows)) <= length (List.filter active rows))%nat as IH'.
    { apply active_length_set. intros r' Hr' E' _. exfalso. apply Hr.
      assert (r = row) as -> by (apply H; [by left|done]). rewrite <- (H r' ltac:(by right) E'). by apply list_elem_of_fmap_2. }
    destruct (active (f r)), (active r); cbn; unfold setWhere in *; lia.
  - assert (length (List.filter active (setWhere p f rows)) <= S (length (List.filter active rows)))%nat as IH'
      by (apply IH; [done|]; intros r' Hr'; apply H; by right).
    destruct (active r); cbn; unfold setWhere in *; lia.
Qed.

Lemma active_state r : active r = true <-> w_state r = Pending \/ w_state r = Leased.
Proof. unfold active, isState. rewrite orb_true_iff, !bool_decide_eq_true. done. Qed.

Lemma qstep_ok rows rows' : qstep rows rows' -> rowsOK rows -> rowsOK rows'.
Proof.
  intros Hq Hinv. pose proof Hinv as (Hnd & Hok & Ht & Hb). destruct Hq as [p f Hf|p Hp|p Hp|p row stored [Hrow Hsel] Hst Hacc|p row [Hrow Hsel] Hst Hroom|row Hid Hst Htok Hres Hneeds Hroom|p].
  - assert (forall r, w_id (f r) = w_id r /\ w_token (f r) = w_token r /\ w_state (f r) = w_state r /\ (rowOK r -> rowOK (f r))) as Hff.
    { intros r. destruct (Hf r) as (? & ? & ? & ? & ->). by split_and!. }
    apply rowsOK_set; [done|apply Hff| |].
    + intros r _ _ Hr. split; [by apply Hff|]. left. apply Hff.
    + pose proof (active_length_set p f rows) as Hl. enough (length (List.filter active (setWhere p f rows)) <= length (List.filter active rows))%nat by lia.
      apply Hl. intros r _ _. rewrite !active_state. destruct (Hff r) as (_ & _ & -> & _). done.
  - apply rowsOK_set; [done|done| |].
    + intros r Hr Ep (H1 & H2 & H3 & H4). split; [|by left]. specialize (Hp r Hr Ep). apply active_state in Hp.
      split_and!; [done|done|cbn; intros [[=]|[=]]|]. cbn. rewrite H4. destruct Hp as [->| ->]; done.
    + pose proof (active_length_set p cancelled rows) as Hl. enough (length (List.filter active (setWhere p cancelled rows)) <= length (List.filter active rows))%nat by lia.
      apply Hl. intros r _ _. rewrite active_state. cbn. intros [|]; done.
  - apply rowsOK_set; [done|done| |].
    + intros r Hr Ep (H1 & H2 & H3 & H4). split; [|by right]. specialize (Hp r Hr Ep).
      split_and!; [done|done|cbn; intros [[=]|[=]]|]. cbn. rewrite H4. rewrite Hp. done.
    + pose proof (active_length_set p requeue rows) as Hl. enough (length (List.filter active (setWhere p requeue rows)) <= length (List.filter active rows))%nat by lia.
      apply Hl. intros r Hr Ep _. apply active_state. right. by apply Hp.
  - apply rowsOK_set; [done|done| |].
    + intros r Hr Ep (H1 & H2 & H3 & H4). apply Hsel in Ep as ->; [|done]. split; [|by left].
      split_and!; [done|done|cbn; intros _; auto|done].
    + pose proof (active_length_set p (concluded stored) rows) as Hl.
      enough (length (List.filter active (setWhere p (concluded stored) rows)) <= length (List.filter active rows))%nat by lia.
      apply Hl. intros r Hr Ep _. apply Hsel in Ep as ->; [|done]. apply active_state. by right.
  - apply rowsOK_set; [done|done| |].
    + intros r Hr Ep (H1 & H2 & H3 & H4). apply Hsel in Ep as ->; [|done]. split; [|by right].
      split_and!; [done|done|cbn; intros [[=]|[=]]|]. cbn. rewrite H4, Hst. done.
    + pose proof (active_length_one p revive rows row Hnd (fun r Hr Ep => proj1 (Hsel r Hr) Ep)). unfold room in Hroom. lia.
  - split_and!.
    + rewrite fmap_app. apply NoDup_app. split_and!; [done| |apply NoDup_singleton]. intros x Hx Hx'%list_elem_of_singleton. by subst.
    + intros r [Hr| ->%list_elem_of_singleton]%elem_of_app; [by apply Hok|]. split_and!; [done|done| |]; rewrite Hst; [by intros [|]|]. by rewrite Hres.
    + intros r1 r2 [H1| ->%list_elem_of_singleton]%elem_of_app [H2| ->%list_elem_of_singleton]%elem_of_app E Hne; [by apply Ht|congruence..].
    + rewrite List.filter_app, length_app. unfold room in Hroom. cbn. destruct (active row); cbn; lia.
  - split_and!.
    + assert (sublist (w_id <$> deleteWhere p rows) (w_id <$> rows)) as Hs by apply sublist_fmap, sublist_List_filter.
      by eapply sublist_NoDup.
    + intros r [Hr _]%deleteWhere_elem. by apply Hok.
    + intros r1 r2 [H1 _]%deleteWhere_elem [H2 _]%deleteWhere_elem. by apply Ht.
    + assert (length (List.filter active (deleteWhere p rows)) <= length (List.filter active rows))%nat; [|lia].
      clear. induction rows as [|r rows IH]; [done|]. cbn. destruct (negb (p r)), (active r) eqn:Ea; cbn; rewrite ?Ea; cbn; unfold deleteWhere in *; lia.
Qed.

(** ** Every operation moves the table by steps *)

Ltac wp_step :=
  lazymatch goal with
  | |- wp (mret _) _ _ => apply wp_ret
  | |- wp (fail _) _ _ => apply wp_fail
  | |- wp (get _) _ _ => apply wp_get
  | |- wp (put _) _ _ => apply wp_put
  | |- wp notify _ _ => apply wp_put
  | |- wp stmt _ _ => apply wp_stmt; intros ? ? [? ->] [->|[? ->]]
  | |- wp (query _) _ _ => apply wp_query; [intros ? ? [? ->]|intros ? [? ->]]
  | |- wp (update _ _) _ _ => apply wp_update; [intros ? ? [? ->]|intros ? [? ->]]
  | |- wp (tx _) _ _ => apply wp_tx; [intros ? ? [? ->]|intros ? [? ->]]
  | |- wp (txn _) _ _ => apply wp_txn; [intros ? ? [? ->]|intros ? [? ->]]
  | |- wp (if ?c then _ else _) _ _ => let E := fresh "E" in destruct c eqn:E
  | |- wp (match ?c with Some _ => _ | None => _ end) _ _ => let E := fresh "E" in destruct c eqn:E
  | |- wp (_ ≫= _) _ _ => apply wp_bind
  end.
Ltac wps := repeat (cbv zeta; wp_step).

Definition quiet {A} (m : DB A) : Prop :=
  forall b, rowsOK (b_jobs b) -> wp m (fun _ b' => rtc qstep (b_jobs b) (b_jobs b')) b.

Lemma rtc_nil {A} (R : relation A) x y : x = y -> rtc R x y.
Proof. intros ->. apply rtc_refl. Qed.

Lemma wp_quiet {A} (m : DB A) b0 b :
  quiet m -> rowsOK (b_jobs b) -> rtc qstep (b_jobs b0) (b_jobs b) -> wp m (fun _ b' => rtc qstep (b_jobs b0) (b_jobs b')) b.
Proof. intros Hm Hok H0. eapply wp_mono; [by apply Hm|]. intros r b' H. by etrans. Qed.

Lemma rtc_ok rows rows' : rtc qstep rows rows' -> rowsOK rows -> rowsOK rows'.
Proof. induction 1; [done|]. eauto using qstep_ok. Qed.

Lemma quiet_bind {A B} (m : DB A) (k : A -> DB B) : quiet m -> (forall a, quiet (k a)) -> quiet (m ≫= k).
Proof.
  intros Hm Hk b Hok. apply wp_bind. eapply wp_mono; [by apply Hm|]. intros [e|a] b' H; [done|].
  apply wp_quiet; [done|by eapply rtc_ok|done].
Qed.

Lemma find_Some_elem {A} (f : A -> bool) l x : List.find f l = Some x -> x ∈ l /\ f x = true.
Proof. intros [? ?]%find_some. by rewrite list_elem_of_In. Qed.

Lemma byID_true id r : byID id r = true <-> w_id r = id.
Proof. unfold byID. apply String.eqb_eq. Qed.

Lemma isState_true s r : isState s r = true <-> w_state r = s.
Proof. unfold isState. apply bool_decide_eq_true. Qed.

Lemma holds_true id token r : holds id token r = true <-> w_id r = id /\ w_token r = token.
Proof. unfold holds. by rewrite andb_true_iff, byID_true, String.eqb_eq. Qed.

Lemma quiet_Renew now id token : quiet (Renew now id token).
Proof.
  intros b Hok. unfold Renew. wps; cbn; [done| | |]; apply rtc_once, q_touch; intros r; by exists (w_wanted r), (w_priority r), (w_owner_epoch r), (UnixMilli (now + b_lease b)); destruct r.
Qed.

Lemma quiet_Cancel id : quiet (Cancel id).
Proof.
  intros b Hok. unfold Cancel. wps; cbn; [done|]. apply rtc_once. apply (q_cancel _ (fun r => byID id r && active r)).
  intros r _ [_ Ha]%andb_true_iff. done.
Qed.

Lemma quiet_cancelUnwatched id : quiet (cancelUnwatched id).
Proof. intros b Hok. unfold cancelUnwatched. wps; [done|]. by apply quiet_Cancel. Qed.

Lemma lookupJob_selects rows b id row :
  b_jobs b = rows -> NoDup (w_id <$> rows) -> lookupJob id b = Some row ->
  w_id row = id /\ forall p, p row = true -> (forall r, r ∈ rows -> p r = true -> w_id r = id) -> selects rows p row.
Proof.
  intros <- Hnd [Hin Hid%byID_true]%find_Some_elem. split; [done|]. intros p Hp Hr. split; [done|]. intros r Hr'. split; [|by intros ->].
  intros E. eapply ids_inj; [done..|]. rewrite Hid. by apply Hr.
Qed.

Lemma quiet_Complete id token result : quiet (Complete id token result).
Proof.
  intros b Hok. pose proof Hok as (Hnd & _). unfold Complete. destruct (r_Err _) eqn:Eerr; [by wps|].
  assert (forall b2 row previous, b_jobs b2 = b_jobs b -> lookupJob id b2 = Some row ->
    String.eqb token "" || negb (String.eqb token (w_token row)) = false -> negb (isState Leased row) = false -> refused row result = None ->
    (if String.eqb (w_parent row) "" then previous = None
     else exists p, p ∈ b_jobs b /\ w_id p = w_parent row /\ w_state p = Completed /\ w_result p = previous /\ isSome previous = true) ->
    rtc qstep (b_jobs b) (setWhere (fun r => holds id token r && isState Leased r) (concluded (conclude row previous result)) (b_jobs b))) as H.
  { intros b2 row previous Hb Hrow [_ Htok%negb_false_iff%String.eqb_eq]%orb_false_elim Hst%negb_false_iff Href Hprev. apply rtc_once.
    destruct (lookupJob_selects (b_jobs b) b2 id row Hb Hnd Hrow) as [Hid Hsel].
    apply (q_complete _ _ row).
    - apply Hsel.
      + apply andb_true_iff. split; [|done]. apply holds_true. done.
      + intros r _ [[? _]%holds_true _]%andb_true_iff. done.
    - by apply isState_true.
    - exists result, previous. done. }
  wps; try done; cbn [b_jobs].
  - apply (H _ _ None eq_refl E E0 E2 E3). by rewrite E4.
  - match goal with Hx : completedResult _ _ = Some ?p |- _ => apply (H _ _ (Some p) eq_refl E E0 E2 E3); rewrite E4; unfold completedResult in Hx; apply bind_Some in Hx as (pr & [Hpr [Hpid%byID_true Hps%isState_true]%andb_true_iff]%find_Some_elem & Hres) end.
    by exists pr.
Qed.

Lemma quiet_put f : (forall b, b_jobs (f b) = b_jobs b) -> quiet (put f).
Proof. intros H b Hok. wps. rewrite H. done. Qed.

Lemma quiet_waitPoll id : quiet (waitPoll id).
Proof. intros b Hok. unfold waitPoll. wps; done. Qed.

Lemma quiet_authorized id token : quiet (authorized id token).
Proof. intros b Hok. unfold authorized. wps; done. Qed.

Lemma quiet_forgetCompleted id : quiet (forgetCompleted id).
Proof.
  intros b Hok. unfold forgetCompleted. wps; [done|].
  assert (wp (remove (fun r => byID id r && isState Completed r)) (fun _ b' => rtc qstep (b_jobs b) (b_jobs b')) b) as H.
  { unfold remove. wps; [|done]. apply rtc_once, q_delete. }
  exact H.
Qed.

Lemma backlog_room b b' : (10000 <=? backlog b) = false -> b_jobs b' = b_jobs b -> room (b_jobs b').
Proof. unfold backlog, room. intros H ->. lia. Qed.

Lemma valid_needs root job needs :
  (forall x, x ∈ [Slots (q_Resources needs); CPU (q_Resources needs); Memory (q_Resources needs)] -> int64 x) ->
  invalidJob root job needs = false -> validNeeds (q_Resources needs).
Proof.
  intros Hi H. unfold invalidJob in H. apply orb_false_elim in H as [[[_ H1]%orb_false_elim H2]%orb_false_elim H3].
  pose proof (Hi (Slots (q_Resources needs)) ltac:(set_solver)). pose proof (Hi (CPU (q_Resources needs)) ltac:(set_solver)).
  pose proof (Hi (Memory (q_Resources needs)) ltac:(set_solver)). unfold validNeeds, int64 in *. lia.
Qed.

Section Submit.
Context (key : string -> string -> list string -> list string -> string).

Lemma touch_once p wanted epoch (rows : list Row) :
  qstep rows (setWhere p (fun r => r <| w_wanted := wanted |> <| w_owner_epoch := epoch |>) rows).
Proof. apply q_touch. intros r. exists wanted, (w_priority r), epoch, (w_lease_until r). by destruct r. Qed.

Lemma quiet_submitNew now root parent job needs priority :
  validNeeds (q_Resources needs) -> quiet (submitNew key now root parent job needs priority).
Proof.
  intros Hneeds b Hok. unfold submitNew, requireCapacity. wps; try done. unfold insertJob.
  match goal with |- context [lookupJob ?i ?b] => destruct (lookupJob i b) eqn:El end; cbn [b_jobs].
  - apply rtc_once, q_touch. intros u. by exists (UnixMilli now), priority, (b_epoch b), (w_lease_until u); destruct u.
  - apply rtc_once, q_insert; try done; cbn.
    + intros (u & Eid & Hu)%list_elem_of_fmap. apply list_elem_of_In in Hu. pose proof (find_none _ _ El u Hu) as Hn.
      rewrite Eid in Hn. unfold byID in Hn. rewrite String.eqb_refl in Hn. done.
    + by eapply (backlog_room (b <| b_faults := x |>)).
Qed.

Lemma selects_byID rows row : NoDup (w_id <$> rows) -> row ∈ rows -> selects rows (byID (w_id row)) row.
Proof.
  intros Hnd Hin. split; [done|]. intros r Hr. rewrite byID_true. split; [|by intros ->]. intros E. by eapply ids_inj.
Qed.

Lemma adopt_quiet now latest b :
  rowsOK (b_jobs b) -> latest ∈ b_jobs b -> wp (adopt now latest) (fun _ b' => rtc qstep (b_jobs b) (b_jobs b')) b.
Proof.
  intros Hok Hin. pose proof Hok as (Hnd & _). unfold adopt, requireCapacity. wp_step. wp_step.
  - assert (forall b', b_jobs b' = b_jobs b -> (10000 <=? backlog b') = false ->
              qstep (b_jobs b) (setWhere (byID (w_id latest)) revive (b_jobs b))) as Hrev.
    { intros b' Hb Hroom. eapply q_revive; [by apply selects_byID|by apply isState_true|].
      by apply (backlog_room b' b). }
    wps; try done; cbn [b_jobs]; (etrans; [apply rtc_once; eapply Hrev; [|eassumption]; done|]); [done|apply rtc_once, touch_once].
  - wps; [done|]. apply rtc_once, touch_once.
Qed.

Lemma quiet_Submit now root job needs priority :
  (forall x, x ∈ [Slots (q_Resources needs); CPU (q_Resources needs); Memory (q_Resources needs)] -> int64 x) ->
  quiet (Submit key now root job needs priority).
Proof.
  intros Hi b Hok. unfold Submit. wp_step; [by wps|]. pose proof (valid_needs _ _ _ Hi E) as Hneeds. cbv zeta. wp_step. wp_step; [done|].
  assert (forall b2 root parent, b_jobs b2 = b_jobs b ->
    wp (id ← submitNew key now root parent job needs priority; mret (id, true))
       (fun r b3 => match r with inl _ => True | inr x => rtc qstep (b_jobs b) (b_jobs b3) end) b2) as Hnew.
  { intros b2 root' parent' Hb. wp_step. eapply wp_mono; [apply quiet_submitNew; [done|by rewrite Hb]|].
    rewrite Hb. intros [e|id] b3 H3; [done|]. by wp_step. }
  wp_step.
  - wp_step. wp_step; [done|]. wp_step; [|by wp_step]. wp_step; [by wp_step|]. eapply wp_mono; [by apply Hnew|].
    intros [e|[id c]] b3 H3; [done|]. intros b4 [? ->]. by destruct c; wps.
  - wp_step. wp_step; [done|]. wp_step.
    + wp_step. eapply wp_mono; [apply adopt_quiet; [done|]|].
      * apply find_Some_elem in E1 as [Hr%list_elem_of_In%in_rev _]. by apply list_elem_of_In.
      * intros [e|id] b3 H3; [done|]. wp_step. intros b4 [? ->]. by wps.
    + eapply wp_mono; [by apply Hnew|]. intros [e|[id c]] b3 H3; [done|]. intros b4 [? ->]. by destruct c; wps.
Qed.
End Submit.

Lemma quiet_each f ids : (forall id, id ∈ ids -> quiet (f id)) -> quiet (each f ids).
Proof.
  induction ids as [|id ids IH]; intros H; cbn [each].
  - intros b Hok. by wps.
  - apply quiet_bind; [apply H; by left|]. intros _. apply IH. intros id' Hid. apply H. by right.
Qed.

Lemma quiet_remove p : quiet (remove p).
Proof. intros b Hok. unfold remove. wps; [|done]. apply rtc_once, q_delete. Qed.

(** Cancelling the jobs that a plan found active, one statement each. *)
Lemma cancel_each ids b :
  rowsOK (b_jobs b) -> NoDup ids -> (forall r, r ∈ b_jobs b -> w_id r ∈ ids -> active r = true) ->
  wp (each (fun id => update (byID id) cancelled ;; mret tt) ids) (fun _ b' => rtc qstep (b_jobs b) (b_jobs b')) b.
Proof.
  revert b. induction ids as [|id ids IH]; intros b Hok Hnd Hact; cbn [each]; [by wps|]. apply NoDup_cons in Hnd as [Hid Hnd].
  wp_step. wp_step. wp_step; [done|]. wp_step.
  assert (qstep (b_jobs b) (setWhere (byID id) cancelled (b_jobs b))) as Hq.
  { apply q_cancel. intros r Hr E%byID_true. apply Hact; [done|]. rewrite E. by left. }
  match goal with |- wp _ _ ?b2 => assert (b_jobs b2 = setWhere (byID id) cancelled (b_jobs b)) as Hb by done end.
  eapply wp_mono; [apply IH; [rewrite Hb; by eapply qstep_ok|done|]|].
  - rewrite Hb. intros r' (r & Hr & ->)%setWhere_elem. destruct (byID id r) eqn:E.
    + apply byID_true in E. cbn. intros H. by rewrite E in H.
    + intros H. apply Hact; [done|by right].
  - rewrite Hb. intros _ b' H. by eapply rtc_l.
Qed.

Lemma plan_ids (keep : string * Retire -> bool) (f : Row -> Retire) rows :
  NoDup (w_id <$> rows) ->
  NoDup (map fst (List.filter keep (map (fun r => (w_id r, f r)) rows))) /\
  forall r, r ∈ rows -> w_id r ∈ map fst (List.filter keep (map (fun r => (w_id r, f r)) rows)) -> keep (w_id r, f r) = true.
Proof.
  intros Hnd. split.
  - apply (sublist_NoDup _ (w_id <$> rows)); [done|].
    replace (w_id <$> rows) with (map fst (map (fun r => (w_id r, f r)) rows)) by (rewrite map_map; done).
    apply sublist_fmap, sublist_List_filter.
  - intros r Hr ([id k] & Eid & [(r' & [= -> ->] & Hr')%list_elem_of_In%list_elem_of_fmap Hk]%list_elem_of_In%filter_In)%list_elem_of_fmap.
    cbn in Eid. by rewrite (ids_inj rows r r' Hnd Hr Hr' Eid).
Qed.

Lemma quiet_Maintain now orphanGrace retention : quiet (Maintain now orphanGrace retention).
Proof.
  intros b Hok. pose proof Hok as (Hnd & _). unfold Maintain. wp_step. wp_step. wp_step; [by wps|]. wp_step. wp_step; [done|].
  cbv zeta. wp_step. cbn [b_jobs b_waiters].
  destruct (plan_ids isCancel (retire now orphanGrace retention (b_waiters b)) (b_jobs b) Hnd) as [Hids Hk].
  eapply wp_mono; [apply cancel_each; [done|exact Hids|]|].
  - intros r Hr Hin. specialize (Hk r Hr Hin). unfold isCancel, retire in Hk. simpl in Hk.
    destruct (0 <? _); [done|]. destruct (active r); [done|]. simpl in Hk. by destruct (retention <? _).
  - intros [e|[]] b2 H2; [done|]. cbn [b_jobs] in H2.
    apply wp_quiet; [|by eapply rtc_ok|done]. apply quiet_bind; [apply quiet_each; intros; apply quiet_remove|]. intros _ b3 Hok3.
    assert (wp (stmt ;; put (forgetPeers now retention)) (fun _ b' => rtc qstep (b_jobs b3) (b_jobs b')) b3) as H3 by (by wps).
    unfold wp, notifyAfter in *. destruct ((stmt ;; put (forgetPeers now retention)) b3) as [r b4]. cbn [fst snd] in *. by case_match.
Qed.

Lemma quiet_KeepRun now runID sha : quiet (KeepRun now runID sha).
Proof. intros b Hok. unfold KeepRun. wps; [done|]. apply rtc_once, touch_once. Qed.

Lemma quiet_Drain worker draining : quiet (Drain worker draining).
Proof. intros b Hok. unfold Drain. wps; done. Qed.

Lemma quiet_drainForRemoval now worker before offline : quiet (drainForRemoval now worker before offline).
Proof.
  intros b Hok. unfold drainForRemoval, removable. wps; try done; cbn [fst snd]; intros b3 [? ->]; wps; try done; cbn [b_jobs].
  apply rtc_once, (q_requeue _ (fun r => String.eqb (w_worker r) worker && isState Leased r)).
  intros r _ [_ H%isState_true]%andb_true_iff. done.
Qed.

(** A claim hands out one lease, on a row that was waiting or whose lease ran out,
    or leaves the table alone. *)
Definition leaseStep (tok : string) (w : Worker) (a : Attempt) (r : Row) (rows rows' : list Row) : Prop :=
  selects rows (byID (w_id r)) r /\ active r = true /\ a_Token a = tok /\ rows' = setWhere (byID (w_id r)) (leaseTo w a) rows.

Lemma claimable_active now w b r : claimable now w b r = true -> active r = true.
Proof.
  unfold claimable. intros [_ [[H _]%andb_true_iff|[[[H _]%andb_true_iff _]%andb_true_iff _]%andb_true_iff]%orb_true_iff]%andb_true_iff;
    apply isState_true in H; apply active_state; auto.
Qed.

Lemma chooseJob_elem now w av b r :
  chooseJob now w av b = Some r -> r ∈ b_jobs b /\ claimable now w b r = true /\ acceptable w av r = true.
Proof.
  intros [Hin Hacc]%find_Some_elem. rewrite sort_by_Permutation in Hin. apply list_elem_of_In, filter_In in Hin as [Hin Hc].
  split_and!; [by apply list_elem_of_In|done|done].
Qed.

Lemma Claim_jobs now tok w b :
  rowsOK (b_jobs b) ->
  wp (Claim now tok w) (fun res b' =>
    match res with
    | inr (Some a) => exists r, chooseJob now w (availableFor w (b_jobs b)) b = Some r /\
        invalidAdvertisement w = false /\ a = attemptOf now (b_lease b) tok w r /\
        leaseStep tok w a r (b_jobs b) (b_jobs b')
    | _ => b_jobs b' = b_jobs b
    end) b.
Proof.
  intros Hok. pose proof Hok as (Hnd & _). unfold Claim. wps; try done; cbn [b_jobs b_peers]; try (intros b3 [? ->]; wps; done).
  assert (chooseJob now w (availableFor w (b_jobs b)) b = Some r) as Hr by exact E2. destruct (chooseJob_elem _ _ _ _ _ Hr) as (Hin & Hc & _).
  intros b3 [? ->]. wps. cbn [b_jobs]. exists r. split_and!; [done|done|done|].
  split_and!; [by apply selects_byID|by eapply claimable_active|done|done].
Qed.

Lemma leaseStep_ok tok w a r rows rows' :
  leaseStep tok w a r rows rows' -> tok <> "" -> (forall u, u ∈ rows -> w_token u <> tok) -> rowsOK rows -> rowsOK rows'.
Proof.
  intros ([Hr Hsel] & Hact & Htok & ->) Hne Hfresh (Hnd & Hok & Ht & Hb). pose proof (Hok r Hr) as (H1 & H2 & H3 & H4).
  apply active_state in Hact. split_and!.
  - by rewrite setWhere_ids.
  - intros r' (u & Hu & ->)%setWhere_elem. destruct (byID (w_id r) u) eqn:E; [|by apply Hok]. apply Hsel in E as ->; [|done].
    split_and!; cbn; [done|by intros|by rewrite Htok|]. rewrite H4. destruct Hact as [->| ->]; done.
  - intros r1' r2' (r1 & Hr1 & ->)%setWhere_elem (r2 & Hr2 & ->)%setWhere_elem.
    destruct (byID (w_id r) r1) eqn:E1, (byID (w_id r) r2) eqn:E2.
    + apply Hsel in E1 as ->; [|done]. by apply Hsel in E2 as ->.
    + intros E. cbn in E. rewrite Htok in E. by destruct (Hfresh r2 Hr2).
    + intros E. cbn in E. rewrite Htok in E. by destruct (Hfresh r1 Hr1).
    + by apply Ht.
  - enough (length (List.filter active (setWhere (byID (w_id r)) (leaseTo w a) rows)) <= length (List.filter active rows))%nat by lia.
    apply active_length_set. intros u Hu E _. apply Hsel in E as ->; [|done]. by apply active_state.
Qed.

(** ** Where a row comes from *)

Inductive moved (rows : list Row) (r : Row) : Row -> Prop :=
  | m_same : moved rows r r
  | m_touch r' : touched r r' -> moved rows r r'
  | m_cancel : active r = true -> moved rows r (cancelled r)
  | m_requeue : w_state r = Leased -> moved rows r (requeue r)
  | m_complete stored : w_state r = Leased -> accepted rows r stored -> moved rows r (concluded stored r)
  | m_revive : w_state r = Cancelled -> moved rows r (revive r).

Lemma qstep_origin rows rows' r' :
  qstep rows rows' -> r' ∈ rows' ->
  (exists r, r ∈ rows /\ moved rows r r') \/ (w_state r' = Pending /\ w_token r' = "" /\ w_result r' = None).
Proof.
  intros [p f Hf|p Hp|p Hp|p row stored [_ Hsel] Hst Hacc|p row [_ Hsel] Hst _|row _ Hst Htok Hres _ _|p].
  1-5: intros (r & Hr & ->)%setWhere_elem; left; exists r; split; [done|]; destruct (p r) eqn:E; [|apply m_same].
  - by apply m_touch.
  - apply m_cancel; auto.
  - apply m_requeue; auto.
  - apply Hsel in E as ->; [|done]. by apply m_complete.
  - apply Hsel in E as ->; [|done]. by apply m_revive.
  - intros [Hr| ->%list_elem_of_singleton]%elem_of_app; [left; exists r'; split; [done|apply m_same]|right; done].
  - intros [Hr _]%deleteWhere_elem. left. exists r'. split; [done|apply m_same].
Qed.

(** ** What a stored result says *)

(** The result of a completed row is about the job the scheduler submitted, run by
    the worker that held the lease; its last attempt holds the tests as reported,
    and a passing result of a check with test reports has passing tests. *)
Definition verdictOK (r : Row) (res : Result) : Prop :=
  let c := Check_ res in
  let job := w_job r in
  r_Name c = j_Name job /\ r_Command c = j_Command job /\ r_ExecutedRun c = j_RunID job /\ r_ExecutedSHA c = j_MergeSHA job /\
  r_ExecutionID c = w_id r /\ r_Worker c = w_worker r /\ r_VerificationID c = j_VerificationID job /\
  r_Err c = None /\ validVerdict (r_Status c) = true /\
  exists attempt, last (r_TestAttempts c) = Some attempt /\ ta_ExecutionID attempt = w_id r /\ ta_Worker attempt = w_worker r /\
    (r_Status c = CheckPassed -> Error res = "" -> j_TestResults job <> "" -> Validate (ta_Tests attempt) = None /\ Failed (ta_Tests attempt) = []) /\
    (r_Status c = CheckPassed -> Error res = "" ->
       r_Tests c = ta_Tests attempt \/
       exists previous, previous <> [] /\ MergeRerun previous (ta_Tests attempt) (requestedTests job previous) = (r_Tests c, None)).

Lemma afterPrevious_facts job p r :
  let c := Check_ (afterPrevious job p r) in
  r_Name c = r_Name (Check_ r) /\ r_Command c = r_Command (Check_ r) /\ r_ExecutedRun c = r_ExecutedRun (Check_ r) /\
  r_ExecutedSHA c = r_ExecutedSHA (Check_ r) /\ r_ExecutionID c = r_ExecutionID (Check_ r) /\ r_Worker c = r_Worker (Check_ r) /\
  r_VerificationID c = r_VerificationID (Check_ r) /\ r_Err c = r_Err (Check_ r) /\
  (r_Status c = r_Status (Check_ r) \/ r_Status c = CheckFailed) /\ Error (afterPrevious job p r) = Error r /\
  (r_Status c = CheckPassed -> Error r = "" -> r_Status (Check_ r) = CheckPassed /\
     (r_Tests c = r_Tests (Check_ r) \/
      exists previous, previous <> [] /\ MergeRerun previous (r_Tests (Check_ r)) (requestedTests job previous) = (r_Tests c, None))).
Proof.
  unfold afterPrevious. cbv zeta. destruct (r_Tests (Check_ p)) as [|t0 ts] eqn:Et; [cbn; split_and!; auto|].
  destruct (String.eqb (Error r) "") eqn:Ee; [|apply String.eqb_neq in Ee; cbn; split_and!; auto; done]. cbn [length Nat.ltb Nat.leb andb].
  cbn [r_Tests]. destruct (MergeRerun _ _ _) as [merged [e|]] eqn:Em; cbn; split_and!; auto; try done.
  intros Hs _. split; [done|]. right. by exists (t0 :: ts).
Qed.

Lemma accepted_verdict rows r stored : accepted rows r stored -> verdictOK (concluded stored r) stored.
Proof.
  intros (given & previous & Herr & Href & _ & ->). unfold refused in Href.
  destruct (exceedsBounds given); [done|]. destruct (validVerdict _) eqn:Ev; [|done]. destruct (lacksTests _ _) eqn:El; [done|]. clear Href.
  unfold conclude. cbv zeta. set (res := (given <| Check_ ::= stamp r |>) <| Check_ ::= (fun c => c <| r_TestAttempts := [] |>) |>).
  assert (validVerdict (r_Status (Check_ res)) = true) as Ev' by done.
  assert (forall res2, r_Status (Check_ res2) = r_Status (Check_ given) \/ r_Status (Check_ res2) = CheckFailed -> validVerdict (r_Status (Check_ res2)) = true) as Hv.
  { intros res2 [-> | ->]; done. }
  assert (r_Status (Check_ given) = CheckPassed -> Error given = "" -> j_TestResults (w_job r) <> "" -> Validate (r_Tests (Check_ given)) = None /\ Failed (r_Tests (Check_ given)) = []) as Ht.
  { intros H1 H2 H3%String.eqb_neq. unfold lacksTests in El. rewrite H3, H2, H1 in El. cbn in El.
    apply orb_false_elim in El as [El1 El2]. destruct (Validate _); [done|]. split; [done|]. by destruct (Failed _). }
  destruct previous as [p|].
  - destruct (afterPrevious_facts (w_job r) p res) as (H1 & H2 & H3 & H4 & H5 & H6 & H7 & H8 & H9 & H10 & H11).
    unfold verdictOK, storedResult, recordAttempt. cbn [Check_ r_Name r_Command r_ExecutedRun r_ExecutedSHA r_ExecutionID r_Worker r_VerificationID r_Err r_Status r_TestAttempts].
    split_and!; try done.
    + exact (eq_trans H8 Herr).
    + exact (Hv _ H9).
    + eexists. split_and!; [apply last_snoc|done|done| |]; cbn.
      * intros Hs He. pose proof (eq_trans (eq_sym H10) He) as He'. exact (Ht (proj1 (H11 Hs He')) He').
      * intros Hs He. exact (proj2 (H11 Hs (eq_trans (eq_sym H10) He))).
  - unfold verdictOK, storedResult, recordAttempt. cbn [Check_]. split_and!; try done.
    eexists. split_and!; [apply last_snoc|done|done|done|]. intros _ _. by left.
Qed.

(** ** What a session holds *)

Definition sumBy (g : Row -> Z) (p : Row -> bool) (rows : list Row) : Z :=
  foldr (fun r acc => (if p r then g r else 0) + acc) 0 rows.

(** The sum of one resource over the rows leased to a worker's session. *)
Definition held (res : Resources -> Z) (worker session : string) : list Row -> Z :=
  sumBy (fun r => res (q_Resources (w_needs r)))
        (fun r => isState Leased r && String.eqb (w_worker r) worker && String.eqb (w_session r) session).

Definition nonneg (g : Row -> Z) (rows : list Row) : Prop := forall r, r ∈ rows -> 0 <= g r.

Lemma sumBy_cons g p r rows : sumBy g p (r :: rows) = (if p r then g r else 0) + sumBy g p rows.
Proof. done. Qed.

Lemma setWhere_cons q f r rows : setWhere q f (r :: rows) = (if q r then f r else r) :: setWhere q f rows.
Proof. done. Qed.

Lemma sumBy_nonneg g p rows : nonneg g rows -> 0 <= sumBy g p rows.
Proof.
  induction rows as [|r rows IH]; intros H; [done|]. rewrite sumBy_cons. assert (0 <= g r) by (apply H; by left).
  assert (0 <= sumBy g p rows) by (apply IH; intros r' Hr'; apply H; by right). destruct (p r); lia.
Qed.

(** Rewriting rows so that none newly counts, nor counts more. *)
Lemma sumBy_set g p q f rows :
  nonneg g rows -> (forall r, r ∈ rows -> q r = true -> p (f r) = true -> p r = true /\ g (f r) <= g r) ->
  sumBy g p (setWhere q f rows) <= sumBy g p rows.
Proof.
  induction rows as [|r rows IH]; intros Hn H; [done|]. rewrite setWhere_cons, !sumBy_cons.
  assert (sumBy g p (setWhere q f rows) <= sumBy g p rows) by (apply IH; intros r' Hr'; [apply Hn|apply H]; by right).
  assert (0 <= g r) by (apply Hn; by left). specialize (H r (list_elem_of_here _ _)).
  destruct (q r); [|lia]. destruct (p (f r)); [|destruct (p r); lia]. destruct (H eq_refl eq_refl) as [-> ?]. lia.
Qed.

(** Rewriting one row: at most that row counts anew. *)
Lemma sumBy_one g p q f rows row :
  NoDup (w_id <$> rows) -> nonneg g rows -> (forall r, r ∈ rows -> q r = true -> r = row) -> 0 <= g (f row) ->
  sumBy g p (setWhere q f rows) <= sumBy g p rows + g (f row).
Proof.
  induction rows as [|r rows IH]; intros Hnd Hn H Hg; [cbn; lia|]. rewrite setWhere_cons, !sumBy_cons. cbn in Hnd. apply NoDup_cons in Hnd as [Hr Hnd].
  assert (0 <= g r) by (apply Hn; by left).
  destruct (q r) eqn:E.
  - assert (r = row) as -> by (apply H; [by left|done]).
    assert (setWhere q f rows = rows) as ->.
    { unfold setWhere. rewrite <- (map_id rows) at 2. apply map_ext_in. intros u Hu%list_elem_of_In. destruct (q u) eqn:E'; [|done].
      exfalso. apply Hr. rewrite <- (H u ltac:(by right) E'). by apply list_elem_of_fmap_2. }
    destruct (p (f row)), (p row); lia.
  - assert (sumBy g p (setWhere q f rows) <= sumBy g p rows + g (f row)) by (apply IH; [done|intros r' Hr'; apply Hn; by right|intros r' Hr'; apply H; by right|done]). lia.
Qed.

Lemma sumBy_app g p l1 l2 : sumBy g p (l1 ++ l2) = sumBy g p l1 + sumBy g p l2.
Proof. induction l1 as [|r l1 IH]; [done|]. cbn [app]. rewrite !sumBy_cons. lia. Qed.

Lemma sumBy_delete g p q rows : nonneg g rows -> sumBy g p (deleteWhere q rows) <= sumBy g p rows.
Proof.
  induction rows as [|r rows IH]; intros Hn; [done|]. rewrite sumBy_cons.
  assert (sumBy g p (deleteWhere q rows) <= sumBy g p rows) by (apply IH; intros r' Hr'; apply Hn; by right).
  assert (0 <= g r) by (apply Hn; by left). unfold deleteWhere in *. cbn [List.filter].
  destruct (negb (q r)); rewrite ?sumBy_cons; destruct (p r); lia.
Qed.

(** No session holds more than 64 bits can count. *)
Definition holdsOK (rows : list Row) : Prop :=
  forall worker session, held Slots worker session rows <= maxInt64 /\ held CPU worker session rows <= maxInt64 /\
    held Memory worker session rows <= maxInt64.

Definition resourceOf (res : Resources -> Z) : Prop := res = Slots \/ res = CPU \/ res = Memory.

Lemma needs_nonneg res rows : resourceOf res -> rowsOK rows -> nonneg (fun r => res (q_Resources (w_needs r))) rows.
Proof. intros H (_ & Hok & _) r Hr. destruct (Hok r Hr) as [(? & ? & ?) _]. destruct H as [->|[->| ->]]; lia. Qed.

Lemma held_quiet res worker session rows rows' :
  resourceOf res -> rowsOK rows -> qstep rows rows' -> held res worker session rows' <= held res worker session rows.
Proof.
  intros Hres Hok Hq. pose proof (needs_nonneg res rows Hres Hok) as Hn. unfold held.
  destruct Hq as [p f Hf|p Hp|p Hp|p row stored [_ Hsel] Hst Hacc|p row [_ Hsel] Hst Hroom|row Hid Hst Htok Hr Hneeds Hroom|p].
  - apply sumBy_set; [done|]. intros r _ _. destruct (Hf r) as (? & ? & ? & ? & ->). cbn. done.
  - apply sumBy_set; [done|]. done.
  - apply sumBy_set; [done|]. done.
  - apply sumBy_set; [done|]. done.
  - apply sumBy_set; [done|]. done.
  - rewrite sumBy_app, sumBy_cons. assert (isState Leased row = false) as -> by (unfold isState; by rewrite Hst). cbn. lia.
  - by apply sumBy_delete.
Qed.

Lemma holdsOK_quiet rows rows' : rowsOK rows -> rtc qstep rows rows' -> holdsOK rows -> holdsOK rows'.
Proof.
  intros Hok Hq. induction Hq as [rows|rows rows1 rows2 H1 _ IH]; [done|]. intros Hh. apply IH; [by eapply qstep_ok|]. intros wk s.
  pose proof (held_quiet Slots wk s _ _ ltac:(by left) Hok H1). pose proof (held_quiet CPU wk s _ _ ltac:(by right; left) Hok H1).
  pose proof (held_quiet Memory wk s _ _ ltac:(by right; right) Hok H1). destruct (Hh wk s) as (? & ? & ?). split_and!; etrans; eassumption.
Qed.

(** ** Capacity *)

(** The share of a resource that urgent work may count on. *)
Definition urgentShare (w : Worker) (capacity : Z) : Z := (capacity * k_UrgentReserve w + Slots (k_Capacity w) - 1) `div` Slots (k_Capacity w).

Lemma advertisement_valid w :
  invalidAdvertisement w = false ->
  k_ID w <> "" /\ k_Session w <> "" /\ 1 <= Slots (k_Capacity w) <= 4096 /\ 0 < CPU (k_Capacity w) /\ 0 < Memory (k_Capacity w) /\
  0 <= Slots (k_Usage w) /\ 0 <= CPU (k_Usage w) /\ 0 <= Memory (k_Usage w) /\ 0 <= k_UrgentReserve w < Slots (k_Capacity w).
Proof.
  unfold invalidAdvertisement. rewrite !orb_false_iff, !String.eqb_neq. intros H. destruct_and!. split_and!; try done; lia.
Qed.

Lemma reservedShare_exact capacity slots reserve :
  1 <= slots <= 4096 -> 0 <= reserve < slots -> 0 < capacity <= maxInt64 ->
  reservedShare capacity slots reserve = (capacity * reserve + slots - 1) `div` slots /\
  0 <= (capacity * reserve + slots - 1) `div` slots <= capacity.
Proof.
  intros Hs Hr Hc. unfold reservedShare.
  assert (0 <= (capacity * reserve + slots - 1) `div` slots <= capacity) as Hb.
  { split; [apply Z.div_pos; nia|]. enough ((capacity * reserve + slots - 1) `div` slots < capacity + 1) by lia.
    apply Z.div_lt_upper_bound; nia. }
  split; [|done]. rewrite Z.quot_div_nonneg, Z.rem_mod_nonneg by lia.
  pose proof (Z.div_mod capacity slots ltac:(lia)) as E. pose proof (Z.mod_pos_bound capacity slots ltac:(lia)) as Hm.
  set (q := capacity `div` slots) in *. set (m := capacity `mod` slots) in *.
  assert (0 <= q) as Hq by (apply Z.div_pos; lia).
  assert (capacity * reserve + slots - 1 = q * reserve * slots + (m * reserve + slots - 1)) as E2 by nia.
  assert ((capacity * reserve + slots - 1) `div` slots = q * reserve + (m * reserve + slots - 1) `div` slots) as E3
    by (rewrite E2; apply Z.div_add_l; lia).
  assert (0 <= m * reserve < 16777216) as Hmr by nia.
  assert (0 <= (m * reserve + slots - 1) `div` slots) as Hd by (apply Z.div_pos; lia).
  rewrite (wrap64_id (m * reserve)) by (unfold int64, maxInt64; lia).
  rewrite (wrap64_id (m * reserve + slots)) by (unfold int64, maxInt64; lia).
  rewrite (wrap64_id (m * reserve + slots - 1)) by (unfold int64, maxInt64; lia).
  rewrite Z.quot_div_nonneg by lia. rewrite (wrap64_id (q * reserve)) by (unfold int64, maxInt64 in *; nia).
  rewrite E3. apply wrap64_id. unfold int64, maxInt64 in *. lia.
Qed.

(** What is available to a session is its capacity less what it holds, and no more
    than its capacity less what it says it uses. *)
Definition workerTyped (w : Worker) : Prop :=
  int64 (Slots (k_Capacity w)) /\ int64 (CPU (k_Capacity w)) /\ int64 (Memory (k_Capacity w)) /\
  int64 (Slots (k_Usage w)) /\ int64 (CPU (k_Usage w)) /\ int64 (Memory (k_Usage w)).

Lemma subtract_res res a b : resourceOf res -> res (subtract a b) = wrap64 (res a - res b).
Proof. intros [->|[->| ->]]; done. Qed.

Lemma fold_subtract res l v :
  resourceOf res -> nonneg (fun r => res (q_Resources (w_needs r))) l -> res v <= maxInt64 ->
  - maxInt64 <= res v - sumBy (fun r => res (q_Resources (w_needs r))) (fun _ => true) l ->
  res (fold_left (fun available r => subtract available (q_Resources (w_needs r))) l v)
    = res v - sumBy (fun r => res (q_Resources (w_needs r))) (fun _ => true) l.
Proof.
  intros Hres. revert v. induction l as [|r l IH]; intros v Hn Hv Hb; [cbn; lia|]. rewrite sumBy_cons in Hb |- *. cbn [fold_left].
  assert (0 <= res (q_Resources (w_needs r))) by (apply (Hn r); by left).
  assert (nonneg (fun r => res (q_Resources (w_needs r))) l) as Hn' by (intros u Hu; apply Hn; by right).
  pose proof (sumBy_nonneg _ (fun _ => true) l Hn').
  assert (res (subtract v (q_Resources (w_needs r))) = res v - res (q_Resources (w_needs r))) as E.
  { rewrite subtract_res by done. apply wrap64_id. unfold int64, maxInt64 in *. lia. }
  rewrite IH; rewrite ?E; [lia|done|lia|lia].
Qed.

Lemma sumBy_filter g p rows : sumBy g (fun _ => true) (List.filter p rows) = sumBy g p rows.
Proof. induction rows as [|r rows IH]; [done|]. cbn [List.filter]. rewrite sumBy_cons. destruct (p r); rewrite ?sumBy_cons, IH; lia. Qed.

Lemma available_res res w rows :
  resourceOf res -> workerTyped w -> invalidAdvertisement w = false -> rowsOK rows -> holdsOK rows ->
  res (availableFor w rows) = Z.min (res (k_Capacity w) - held res (k_ID w) (k_Session w) rows) (res (k_Capacity w) - res (k_Usage w)) /\
  0 < res (k_Capacity w) <= maxInt64 /\ 0 <= res (k_Usage w).
Proof.
  intros Hres Hw (_ & _ & H1 & H2 & H3 & H4 & H5 & H6 & H7)%advertisement_valid Hok Hh.
  assert (0 < res (k_Capacity w) <= maxInt64 /\ 0 <= res (k_Usage w) <= maxInt64) as [Hc Hu].
  { unfold workerTyped, int64 in Hw. destruct Hres as [->|[->| ->]]; lia. }
  assert (held res (k_ID w) (k_Session w) rows <= maxInt64) as Hm.
  { destruct (Hh (k_ID w) (k_Session w)) as (? & ? & ?). destruct Hres as [->|[->| ->]]; done. }
  pose proof (needs_nonneg res rows Hres Hok) as Hn. split; [|lia].
  assert (res (fold_left (fun available r => subtract available (q_Resources (w_needs r))) (List.filter (leasedBy w) rows) (k_Capacity w))
          = res (k_Capacity w) - held res (k_ID w) (k_Session w) rows) as E.
  { assert (sumBy (fun r => res (q_Resources (w_needs r))) (fun _ => true) (List.filter (leasedBy w) rows) = held res (k_ID w) (k_Session w) rows) as Es
      by apply sumBy_filter.
    rewrite fold_subtract, Es; [done|done| |lia|lia].
    intros r [Hr _]%list_elem_of_In%filter_In. by apply Hn, list_elem_of_In. }
  assert (wrap64 (res (k_Capacity w) - res (k_Usage w)) = res (k_Capacity w) - res (k_Usage w)) as E2 by (apply wrap64_id; unfold int64, maxInt64 in *; lia).
  unfold availableFor. destruct Hres as [->|[->| ->]]; cbn; rewrite E, E2; done.
Qed.

(** Claims go by priority, then age, then name. *)
Lemma claimBefore_false a b :
  claimBefore a b = false <->
  w_priority a < w_priority b \/ (w_priority a = w_priority b /\
    (w_created b < w_created a \/ (w_created a = w_created b /\ String.ltb (w_id a) (w_id b) = false))).
Proof.
  unfold claimBefore. destruct (Z.ltb_spec (w_priority b) (w_priority a)), (Z.eqb_spec (w_priority a) (w_priority b)),
    (Z.ltb_spec (w_created a) (w_created b)), (Z.eqb_spec (w_created a) (w_created b)); simpl; split; intuition (try done; try lia).
Qed.

Lemma claimBefore_true a b :
  claimBefore a b = true <->
  w_priority b < w_priority a \/ (w_priority a = w_priority b /\
    (w_created a < w_created b \/ (w_created a = w_created b /\ String.ltb (w_id a) (w_id b) = true))).
Proof.
  unfold claimBefore. destruct (Z.ltb_spec (w_priority b) (w_priority a)), (Z.eqb_spec (w_priority a) (w_priority b)),
    (Z.ltb_spec (w_created a) (w_created b)), (Z.eqb_spec (w_created a) (w_created b)); simpl; split; intuition (try done; try lia).
Qed.

Lemma claimBefore_weak_order : weak_order claimBefore.
Proof.
  destruct string_weak_order as [Has Htr]. unfold notafter in Htr. split.
  - intros a b. rewrite claimBefore_false, claimBefore_true.
    intros [?|[? [?|[? H%Has]]]]; [left; lia|right; split; [lia|]..]; [left; lia|right; split; [lia|done]].
  - unfold notafter. intros a b c. rewrite !claimBefore_false.
    intros [?|[? [?|[? H1]]]] [?|[? [?|[? H2]]]]; try lia.
    right. split; [lia|]. right. split; [lia|]. eauto.
Qed.

Lemma find_sorted {A} (less : A -> A -> bool) (f : A -> bool) (l : list A) x y :
  weak_order less -> List.find f (sort_by less l) = Some x -> y ∈ l -> f y = true -> y <> x -> less y x = false.
Proof.
  intros Hw Hx Hy Hf Hne. pose proof (sort_by_sorted less Hw l) as Hs. rewrite <- (sort_by_Permutation less l) in Hy.
  induction Hs as [|z s Hs IH Hz]; [done|]. cbn in Hx. destruct (f z) eqn:E.
  - injection Hx as <-. apply elem_of_cons in Hy as [->|Hy]; [done|]. rewrite Forall_forall in Hz. exact (Hz y Hy).
  - apply elem_of_cons in Hy as [->|Hy]; [congruence|]. by apply IH.
Qed.

(** ** The broker as a system: its calls in any order, by any callers, restarts
    included. The second component of a state is the set of tokens ever drawn;
    [randomID] does not repeat itself. *)

Section System.
Context (key : string -> string -> list string -> list string -> string).

Inductive call :=
  | CRenew (now : Z) (id token : string)
  | CComplete (id token : string) (result : Result)
  | CCancel (id : string)
  | CWaitBegin (id : string)
  | CWaitPoll (id : string)
  | CWaitEnd (id : string)
  | CSubmit (now : Z) (root : string) (job : CheckJob) (needs : Requirements) (priority : Z)
  | CForgetCompleted (id : string)
  | CDrain (worker : string) (draining : bool)
  | CMaintain (now orphanGrace retention : Z)
  | CCancelUnwatched (id : string)
  | CKeepRun (now : Z) (runID sha : string)
  | CDrainForRemoval (now : Z) (worker : string) (before : Z) (offline : bool)
  | CAuthorized (id token : string)
  | CClose.

Definition run (c : call) (b : Broker) : Broker :=
  match c with
  | CRenew now id token => snd (Renew now id token b)
  | CComplete id token result => snd (Complete id token result b)
  | CCancel id => snd (Cancel id b)
  | CWaitBegin id => snd (waitBegin id b)
  | CWaitPoll id => snd (waitPoll id b)
  | CWaitEnd id => snd (waitEnd id b)
  | CSubmit now root job needs priority => snd (Submit key now root job needs priority b)
  | CForgetCompleted id => snd (forgetCompleted id b)
  | CDrain worker draining => snd (Drain worker draining b)
  | CMaintain now orphanGrace retention => snd (Maintain now orphanGrace retention b)
  | CCancelUnwatched id => snd (cancelUnwatched id b)
  | CKeepRun now runID sha => snd (KeepRun now runID sha b)
  | CDrainForRemoval now worker before offline => snd (drainForRemoval now worker before offline b)
  | CAuthorized id token => snd (authorized id token b)
  | CClose => snd (Close b)
  end.

(** The integers of a submission are 64 bits wide. *)
Definition typed (c : call) : Prop :=
  match c with
  | CSubmit _ _ _ needs _ =>
      int64 (Slots (q_Resources needs)) /\ int64 (CPU (q_Resources needs)) /\ int64 (Memory (q_Resources needs))
  | _ => True
  end.

Definition system : Type := Broker * gset string.

Inductive bstep : system -> system -> Prop :=
  | bs_call b iss c : typed c -> bstep (b, iss) (run c b, iss)
  | bs_claim b iss now tok w : tok <> "" -> tok ∉ iss -> workerTyped w -> bstep (b, iss) (snd (Claim now tok w b), {[tok]} ∪ iss)
  | bs_faults b iss fs : bstep (b, iss) (b <| b_faults := fs |>, iss)
  | bs_restart b iss lease grace now epoch b' :
      Open_ (b_jobs b) (b_peers b) lease grace now epoch = inr b' -> bstep (b, iss) (b', iss).

Definition reachable (s : system) : Prop :=
  exists b lease grace now epoch, Open_ [] ∅ lease grace now epoch = inr b /\ rtc bstep (b, ∅) s.

Lemma run_quiet c b : typed c -> rowsOK (b_jobs b) -> rtc qstep (b_jobs b) (b_jobs (run c b)).
Proof.
  intros Ht Hok. destruct c; cbn [run].
  - by apply quiet_Renew.
  - by apply quiet_Complete.
  - by apply quiet_Cancel.
  - done.
  - by apply quiet_waitPoll.
  - done.
  - apply quiet_Submit; [|done]. intros x. cbn in Ht. rewrite !elem_of_cons. intros [->|[->|[->|?%elem_of_nil]]]; tauto.
  - by apply quiet_forgetCompleted.
  - by apply quiet_Drain.
  - by apply quiet_Maintain.
  - by apply quiet_cancelUnwatched.
  - by apply quiet_KeepRun.
  - by apply quiet_drainForRemoval.
  - by apply quiet_authorized.
  - done.
Qed.

Lemma Open_jobs jobs peers lease grace now epoch b :
  Open_ jobs peers lease grace now epoch = inr b -> b_jobs b = jobs /\ b_peers b = peers /\ b_epoch b = epoch.
Proof. unfold Open_. destruct (_ || _); [done|]. by intros [= <-]. Qed.

(** *** The invariant *)

Definition tableOK (iss : gset string) (rows : list Row) : Prop :=
  rowsOK rows /\ holdsOK rows /\ (forall r, r ∈ rows -> w_token r <> "" -> w_token r ∈ iss) /\
  (forall r res, r ∈ rows -> w_result r = Some res -> verdictOK r res).

Definition sysOK (s : system) : Prop := tableOK (snd s) (b_jobs (fst s)).

Lemma moved_token rows r r' : moved rows r r' -> w_token r' = w_token r \/ w_token r' = "".
Proof. destruct 1 as [|? (? & ? & ? & ? & ->)| | | |]; auto. Qed.

Lemma moved_verdict rows r r' res :
  rowOK r -> (forall res, w_result r = Some res -> verdictOK r res) -> moved rows r r' -> w_result r' = Some res -> verdictOK r' res.
Proof.
  intros (_ & _ & _ & Hres) Hv Hm. destruct Hm as [|r' (? & ? & ? & ? & ->)|Ha|Hl|stored Hl Hacc|Hc].
  - apply Hv.
  - apply Hv.
  - apply Hv.
  - cbn. intros E. exfalso. rewrite E in Hres. destruct Hres as [H _]. specialize (H eq_refl). congruence.
  - cbn. intros [= <-]. by eapply accepted_verdict.
  - cbn. intros E. exfalso. rewrite E in Hres. destruct Hres as [H _]. specialize (H eq_refl). congruence.
Qed.

Lemma tableOK_quiet iss rows rows' : rtc qstep rows rows' -> tableOK iss rows -> tableOK iss rows'.
Proof.
  induction 1 as [|rows1 rows2 rows3 H1 _ IH]; [done|]. intros (Hok & Hh & Ht & Hv). apply IH.
  split_and!; [by eapply qstep_ok|apply (holdsOK_quiet rows1); [done|by apply rtc_once|done]| |].
  - intros r Hr Hne. destruct (qstep_origin _ _ _ H1 Hr) as [(u & Hu & Hm)|(_ & ? & _)]; [|done].
    destruct (moved_token _ _ _ Hm) as [E|E]; [rewrite E in *; by apply Ht|done].
  - intros r res Hr E. destruct (qstep_origin _ _ _ H1 Hr) as [(u & Hu & Hm)|(_ & _ & E')]; [|congruence].
    eapply moved_verdict; [by apply Hok|intros res'; by apply Hv|done|done].
Qed.

(** *** Claims *)

(** What a claim that hands out [a] did. *)
Lemma Claim_facts b iss now tok w a :
  tableOK iss (b_jobs b) -> workerTyped w -> fst (Claim now tok w b) = inr (Some a) ->
  exists r, chooseJob now w (availableFor w (b_jobs b)) b = Some r /\ invalidAdvertisement w = false /\
    a = attemptOf now (b_lease b) tok w r /\ leaseStep tok w a r (b_jobs b) (b_jobs (snd (Claim now tok w b))).
Proof.
  intros (Hok & _) _ E. pose proof (Claim_jobs now tok w b Hok) as H. unfold wp in H. rewrite E in H. done.
Qed.

Lemma Claim_none b now tok w :
  rowsOK (b_jobs b) -> (forall a, fst (Claim now tok w b) <> inr (Some a)) -> b_jobs (snd (Claim now tok w b)) = b_jobs b.
Proof.
  intros Hok E. pose proof (Claim_jobs now tok w b Hok) as H. unfold wp in H. destruct (fst _) as [|[a|]]; [done|by destruct (E a)|done].
Qed.

(** What the session holds afterwards fits its capacity, the reserve included. *)
Lemma claim_fits b iss now tok w a r rows' res :
  resourceOf res -> tableOK iss (b_jobs b) -> workerTyped w -> invalidAdvertisement w = false ->
  chooseJob now w (availableFor w (b_jobs b)) b = Some r -> leaseStep tok w a r (b_jobs b) rows' ->
  let reserve := if w_priority r <? 3 then urgentShare w (res (k_Capacity w)) else 0 in
  0 <= reserve /\
  held res (k_ID w) (k_Session w) rows' + reserve <= res (k_Capacity w) /\
  res (k_Usage w) + res (q_Resources (w_needs r)) + reserve <= res (k_Capacity w).
Proof.
  intros Hres (Hok & Hh & _) Hw Hinv Hch ([Hr Hsel] & Hact & _ & ->). cbv zeta.
  destruct (available_res res w (b_jobs b) Hres Hw Hinv Hok Hh) as (Hav & Hc & Hu).
  destruct (advertisement_valid w Hinv) as (_ & _ & Hs & _ & _ & _ & _ & _ & Hrv).
  pose proof (needs_nonneg res _ Hres Hok) as Hn. pose proof (Hn r Hr) as Hnr.
  destruct (chooseJob_elem _ _ _ _ _ Hch) as (_ & _ & Hacc).
  destruct (reservedShare_exact (res (k_Capacity w)) _ _ Hs Hrv Hc) as [Hshare Hsb].
  assert (held res (k_ID w) (k_Session w) (setWhere (byID (w_id r)) (leaseTo w a) (b_jobs b))
          <= held res (k_ID w) (k_Session w) (b_jobs b) + res (q_Resources (w_needs r))) as Hheld.
  { unfold held. etrans; [apply (sumBy_one _ _ _ _ _ r)|]; try done; [by apply Hok|]. intros u Hu'. by apply Hsel. }
  unfold acceptable in Hacc. destruct (negb (accepts _ _ _) || negb (fits _ _)) eqn:Ef; [done|].
  apply orb_false_elim in Ef as [_ Ef%negb_false_iff]. unfold fits in Ef. rewrite !andb_true_iff, !Z.leb_le in Ef. destruct Ef as [[Ef1 Ef2] Ef3].
  assert (res (q_Resources (w_needs r)) <= res (availableFor w (b_jobs b))) as Hfit by (by destruct Hres as [->|[->| ->]]).
  fold (urgentShare w (res (k_Capacity w))) in Hshare, Hsb.
  destruct (w_priority r <? 3); [|lia].
  apply negb_true_iff in Hacc. rewrite !orb_false_iff, !Z.ltb_ge in Hacc. destruct Hacc as [[Ha1 Ha2] Ha3].
  assert (urgentShare w (res (k_Capacity w)) <= res (subtract (availableFor w (b_jobs b)) (q_Resources (w_needs r)))) as Ha.
  { destruct Hres as [->|[->| ->]]; [|by rewrite <- Hshare..]. etrans; [|exact Ha1]. unfold urgentShare.
    apply Z.lt_succ_r, Z.div_lt_upper_bound; nia. }
  rewrite subtract_res in Ha by done. rewrite wrap64_id in Ha by (unfold int64, maxInt64 in *; lia). lia.
Qed.

Lemma tableOK_claim b iss now tok w :
  tableOK iss (b_jobs b) -> workerTyped w -> tok <> "" -> tok ∉ iss -> tableOK ({[tok]} ∪ iss) (b_jobs (snd (Claim now tok w b))).
Proof.
  intros HT Hw Hne Hfresh. pose proof HT as (Hok & Hh & Ht & Hv).
  destruct (fst (Claim now tok w b)) as [e|[a|]] eqn:E.
  1,3: rewrite Claim_none by (done || congruence); split_and!; [done|done| |done]; intros r Hr Hn; apply elem_of_union_r; by apply Ht.
  destruct (Claim_facts _ _ _ _ _ _ HT Hw E) as (r & Hch & Hinv & Ea & Hl).
  assert (forall res, resourceOf res -> forall wk s, held res wk s (b_jobs (snd (Claim now tok w b))) <= maxInt64) as Hm.
  { intros res Hres wk s. destruct (claim_fits b iss now tok w a r _ res Hres HT Hw Hinv Hch Hl) as (H0 & H1 & _).
    destruct (available_res res w (b_jobs b) Hres Hw Hinv Hok Hh) as (_ & Hc & _).
    destruct (decide (wk = k_ID w /\ s = k_Session w)) as [[-> ->]|Hne']; [lia|].
    assert (held res wk s (b_jobs b) <= maxInt64) as Hold by (destruct (Hh wk s) as (? & ? & ?); by destruct Hres as [->|[->| ->]]).
    etrans; [|exact Hold]. destruct Hl as ([_ Hsel] & _ & _ & ->). apply sumBy_set; [by apply needs_nonneg|].
    intros u _ _ H. exfalso. cbn in H. apply Hne'. apply andb_true_iff in H as [?%String.eqb_eq ?%String.eqb_eq]. done. }
  split_and!.
  - eapply leaseStep_ok; [done|done| |done]. intros u Hu E'. apply Hfresh. rewrite <- E'. apply Ht; [done|]. by rewrite E'.
  - intros wk s. split_and!; apply Hm; unfold resourceOf; auto.
  - destruct Hl as ([_ Hsel] & _ & Htok & ->). intros u' (u & Hu & ->)%setWhere_elem. destruct (byID _ u).
    + intros _. cbn. rewrite Htok. set_solver.
    + intros Hn. apply elem_of_union_r. by apply Ht.
  - destruct Hl as ([Hr Hsel] & Hact & Htok & ->). intros u' res (u & Hu & ->)%setWhere_elem. destruct (byID _ u) eqn:Eu; [|by apply Hv].
    cbn. intros Eres. apply Hsel in Eu as ->; [|done]. exfalso. destruct Hok as (_ & Hok & _). destruct (Hok r Hr) as (_ & _ & _ & Hs).
    rewrite Eres in Hs. apply active_state in Hact. destruct Hs as [Hs _]. specialize (Hs eq_refl). destruct Hact; congruence.
Qed.

Lemma sysOK_step s s' : bstep s s' -> sysOK s -> sysOK s'.
Proof.
  unfold sysOK. destruct 1 as [b iss c Ht|b iss now tok w Hne Hf Hw|b iss fs|b iss lease grace now epoch b' Ho]; cbn [fst snd]; intros HT.
  - eapply tableOK_quiet; [apply run_quiet; [done|apply HT]|done].
  - by apply tableOK_claim.
  - done.
  - apply Open_jobs in Ho as [-> _]. done.
Qed.

Lemma sysOK_steps s s' : rtc bstep s s' -> sysOK s -> sysOK s'.
Proof. induction 1; eauto using sysOK_step. Qed.

Lemma reachable_ok s : reachable s -> sysOK s.
Proof.
  intros (b & lease & grace & now & epoch & Ho & Hs). eapply sysOK_steps; [done|]. apply Open_jobs in Ho as [E _].
  unfold sysOK. cbn [fst snd]. rewrite E. split_and!; [split_and!|..].
  - constructor.
  - by intros r ?%elem_of_nil.
  - by intros r1 r2 ?%elem_of_nil.
  - done.
  - intros wk ss. done.
  - by intros r ?%elem_of_nil.
  - by intros r res ?%elem_of_nil.
Qed.

(** *** Tokens *)

(** A token that was drawn, and is not the one the attempt [id] is leased under. *)
Definition dead (id tok : string) (s : system) : Prop :=
  tok <> "" /\ tok ∈ snd s /\ forall r, r ∈ b_jobs (fst s) -> w_id r = id -> w_token r <> tok.

Lemma moved_id rows r r' : moved rows r r' -> w_id r' = w_id r.
Proof. destruct 1 as [|? (? & ? & ? & ? & ->)| | | |]; done. Qed.

Lemma dead_quiet id tok b b' iss : rowsOK (b_jobs b) -> rtc qstep (b_jobs b) (b_jobs b') -> dead id tok (b, iss) -> dead id tok (b', iss).
Proof.
  unfold dead. cbn [fst snd]. intros Hok Hq (Hne & Hin & Hd). split_and!; [done|done|].
  revert Hd. induction Hq as [|rows1 rows2 rows3 H1 _ IH]; [done|]. intros Hd. apply IH; [by eapply qstep_ok|].
  intros r Hr Hid. destruct (qstep_origin _ _ _ H1 Hr) as [(u & Hu & Hm)|(_ & -> & _)]; [|done].
  rewrite (moved_id _ _ _ Hm) in Hid. destruct (moved_token _ _ _ Hm) as [->| ->]; [by apply Hd|done].
Qed.

Lemma dead_step id tok s s' : sysOK s -> bstep s s' -> dead id tok s -> dead id tok s'.
Proof.
  intros Hok Hs. destruct Hs as [b iss c Ht|b iss now new w Hne Hf Hw|b iss fs|b iss lease grace now epoch b' Ho].
  - apply dead_quiet; [apply Hok|]. apply run_quiet; [done|apply Hok].
  - intros (Hn & Hin & Hd). unfold dead. cbn [fst snd] in *. split_and!; [done|set_solver|].
    destruct (fst (Claim now new w b)) as [e|[a|]] eqn:E.
    1,3: rewrite (Claim_none b); [done|apply Hok|congruence].
    destruct (Claim_facts b iss _ _ _ _ Hok Hw E) as (r & _ & _ & _ & ([Hr Hsel] & _ & Htok & ->)).
    intros u' (u & Hu & ->)%setWhere_elem. destruct (byID _ u); [|by apply Hd]. cbn. rewrite Htok. intros _ ->. done.
  - done.
  - unfold dead. cbn [fst snd]. apply Open_jobs in Ho as [-> _]. done.
Qed.

Lemma dead_steps id tok s s' : rtc bstep s s' -> sysOK s -> dead id tok s -> dead id tok s'.
Proof. induction 1; eauto using sysOK_step, dead_step. Qed.

(** What a dead token gets its bearer: an error, and no change. *)
Definition refusedWith {A} (m : DB A) (b : Broker) : Prop := (exists e, fst (m b) = inl e) /\ b_jobs (snd (m b)) = b_jobs b.

Lemma refusedWith_wp {A} (m : DB A) b :
  wp m (fun r b' => (exists e, r = inl e) /\ b_jobs b' = b_jobs b) b -> refusedWith m b.
Proof. done. Qed.

Lemma setWhere_none p f rows : (forall r, r ∈ rows -> p r = false) -> setWhere p f rows = rows.
Proof.
  intros H. unfold setWhere. rewrite <- (map_id rows) at 2. apply map_ext_in. intros r Hr%list_elem_of_In. by rewrite H.
Qed.

Lemma filter_none {A} (p : A -> bool) l : (forall x, x ∈ l -> p x = false) -> List.filter p l = [].
Proof.
  induction l as [|x l IH]; intros H; [done|]. cbn. rewrite (H x) by (by left). apply IH. intros y Hy. apply H. by right.
Qed.

Lemma dead_refused id tok s :
  dead id tok s ->
  (forall now, refusedWith (Renew now id tok) (fst s)) /\
  (forall result, refusedWith (Complete id tok result) (fst s)) /\
  refusedWith (authorized id tok) (fst s).
Proof.
  destruct s as [b iss]. cbn [fst]. intros (Hne & _ & Hd). cbn [fst] in Hd.
  assert (forall r, r ∈ b_jobs b -> holds id tok r = false) as Hh.
  { intros r Hr. destruct (holds id tok r) eqn:E; [|done]. apply holds_true in E as [E1 E2]. by destruct (Hd r Hr E1). }
  assert (forall b2 row, b_jobs b2 = b_jobs b -> lookupJob id b2 = Some row -> String.eqb tok "" || negb (String.eqb tok (w_token row)) = true) as Hrow.
  { intros b2 row Hb H. unfold lookupJob in H. rewrite Hb in H. apply find_Some_elem in H as [Hr Hid%byID_true].
    apply orb_true_iff. right. apply negb_true_iff, String.eqb_neq. intros E. by apply (Hd row Hr Hid). }
  split_and!.
  - intros now. apply refusedWith_wp. unfold Renew. wp_step. wp_step. wp_step. wp_step; [split; eauto|]. cbn [b_jobs].
    rewrite filter_none; [|intros r Hr; by rewrite Hh]. change (Z.of_nat (length (@nil Row)) =? 1) with false. cbv iota. wp_step. split; [eauto|]. cbn [b_jobs].
    apply setWhere_none. intros r Hr. by rewrite Hh.
  - intros result. apply refusedWith_wp. unfold Complete. destruct (r_Err _); [wps; eauto|]. wp_step. wp_step; [split; eauto|].
    wp_step; [|wps; eauto]. rewrite (Hrow _ _ eq_refl E). wps; eauto.
  - apply refusedWith_wp. unfold authorized. wp_step. wp_step; [split; eauto|]. wp_step; [|wps; eauto].
    rewrite (Hrow _ _ eq_refl E). cbn [orb]. wps; eauto.
Qed.

(** C12. A claim never overcommits a worker and never leaves a better job behind. In
    every state the broker can reach, whoever called it and whatever failed, a job
    handed to a worker is one of this scheduler's jobs that was waiting, or whose
    lease ran out and the restart grace with it; the worker offers its profile and labels;
    what the session then holds fits its advertised capacity in each resource, and so
    does what it says it uses with the new job, where work that is not urgent also leaves
    the urgent share, the exact ceiling of capacity * reserve / slots, free. No
    arithmetic on the way wraps. Any other job the worker could have run instead comes later
    in the order of priority, age and name. *)
Theorem claim_within_capacity b iss now tok w a b' :
  reachable (b, iss) -> workerTyped w -> Claim now tok w b = (inr (Some a), b') ->
  exists r, r ∈ b_jobs b /\ a_ID a = w_id r /\ a_Job a = w_job r /\ w_owner_epoch r = b_epoch b /\
    (w_state r = Pending \/ (w_state r = Leased /\ w_lease_until r < UnixMilli now /\ UnixMilli (b_born b + b_grace b) <= UnixMilli now)) /\
    accepts w (w_job r) (w_needs r) = true /\
    (forall res, resourceOf res ->
       let reserve := if w_priority r <? 3 then urgentShare w (res (k_Capacity w)) else 0 in
       0 <= reserve /\ held res (k_ID w) (k_Session w) (b_jobs b') + reserve <= res (k_Capacity w) /\
       res (k_Usage w) + res (q_Resources (w_needs r)) + reserve <= res (k_Capacity w)) /\
    (forall u, u ∈ b_jobs b -> claimable now w b u = true -> acceptable w (availableFor w (b_jobs b)) u = true -> u <> r ->
       claimBefore u r = false).
Proof.
  intros Hok%reachable_ok Hw E. pose proof (Claim_facts b iss now tok w a Hok Hw) as H. rewrite E in H. destruct (H eq_refl) as (r & Hch & Hinv & -> & Hl).
  destruct (chooseJob_elem _ _ _ _ _ Hch) as (Hr & Hc & Hacc). exists r. split_and!; try done.
  - unfold claimable in Hc. rewrite andb_true_iff, orb_true_iff, !andb_true_iff in Hc. rewrite !String.eqb_eq in Hc. naive_solver.
  - unfold claimable in Hc. rewrite andb_true_iff, orb_true_iff, !andb_true_iff, !isState_true in Hc.
    destruct Hc as [_ [[? _]|(((? & _) & ?) & ?)]]; [by left|right]. split_and!; [done|lia|lia].
  - unfold acceptable in Hacc. by destruct (accepts _ _ _).
  - intros res Hres. exact (claim_fits b iss now tok w _ r _ res Hres Hok Hw Hinv Hch Hl).
  - intros u Hu Hcu Hau Hne. eapply find_sorted; [apply claimBefore_weak_order|exact Hch| |done|done].
    apply list_elem_of_In, filter_In. by rewrite <- list_elem_of_In.
Qed.

(** A lease is fenced by its token. Once an attempt was handed out under a new
    token, no older token ever drawn can renew it, complete it or fetch its sources again,
    in any state the broker reaches from there, through cancellations, revivals,
    reassignments, deletions and restarts: each of the calls returns an error and
    leaves the job table as it was. *)
Theorem stale_token_refused b iss now tok w a b' s :
  reachable (b, iss) -> workerTyped w -> tok <> "" -> tok ∉ iss ->
  Claim now tok w b = (inr (Some a), b') -> rtc bstep (b', {[tok]} ∪ iss) s ->
  forall old, old ∈ iss -> old <> "" ->
    (forall now', refusedWith (Renew now' (a_ID a) old) (fst s)) /\
    (forall result, refusedWith (Complete (a_ID a) old result) (fst s)) /\
    refusedWith (authorized (a_ID a) old) (fst s).
Proof.
  intros Hok%reachable_ok Hw Hne Hfresh E Hs old Hold Hn. apply dead_refused.
  assert (bstep (b, iss) (b', {[tok]} ∪ iss)) as Hb by (pose proof (bs_claim b iss now tok w Hne Hfresh Hw) as H; by rewrite E in H).
  eapply dead_steps; [exact Hs|by eapply sysOK_step|]. split_and!; [done|set_solver|]. cbn [fst].
  pose proof (Claim_facts b iss now tok w a Hok Hw) as H. rewrite E in H. destruct (H eq_refl) as (r & _ & _ & -> & ([Hr Hsel] & _ & _ & Ej)).
  cbn [snd] in Ej. rewrite Ej. intros u' (u & Hu & ->)%setWhere_elem Hid. destruct (byID _ u) eqn:Eu.
  - cbn. intros ->. done.
  - exfalso. assert (byID (w_id r) u = true) by (by apply byID_true). congruence.
Qed.

(** What stays true of the row that carries [tok], once it is completed. *)
Definition settled (tok : string) (row : Row) (s : system) : Prop :=
  tok ∈ snd s /\ forall r, r ∈ b_jobs (fst s) -> w_token r = tok ->
    w_id r = w_id row /\ w_job r = w_job row /\ w_state r = Completed /\ w_result r = w_result row.

Lemma settled_quiet tok row b b' iss :
  tok <> "" -> rtc qstep (b_jobs b) (b_jobs b') -> settled tok row (b, iss) -> settled tok row (b', iss).
Proof.
  unfold settled. cbn [fst snd]. intros Hne Hq [Hin H]. split; [done|]. revert H. induction Hq as [|rows1 rows2 rows3 H1 _ IH]; [done|].
  intros H. apply IH. intros r Hr Etok. destruct (qstep_origin _ _ _ H1 Hr) as [(u & Hu & Hm)|(_ & E & _)]; [|congruence].
  assert (w_token u = tok) as Eu by (destruct (moved_token _ _ _ Hm); congruence). destruct (H u Hu Eu) as (E1 & E2 & E3 & E4).
  destruct Hm as [|r' (? & ? & ? & ? & ->)|Ha%active_state|Hl|stored Hl _|Hc]; [done|done|destruct Ha; congruence|congruence..].
Qed.

Lemma settled_step tok row s s' : tok <> "" -> sysOK s -> bstep s s' -> settled tok row s -> settled tok row s'.
Proof.
  intros Hne Hok Hs. destruct Hs as [b iss c Ht|b iss now new w Hn Hf Hw|b iss fs|b iss lease grace now epoch b' Ho].
  - apply settled_quiet; [done|]. apply run_quiet; [done|apply Hok].
  - intros [Hin H]. unfold settled. cbn [fst snd] in *. split; [set_solver|].
    destruct (fst (Claim now new w b)) as [e|[a|]] eqn:E.
    1,3: rewrite (Claim_none b); [done|apply Hok|congruence].
    destruct (Claim_facts b iss _ _ _ _ Hok Hw E) as (r & _ & _ & _ & ([Hr Hsel] & _ & Htok & ->)).
    intros u' (u & Hu & ->)%setWhere_elem. destruct (byID _ u); [|by apply H]. cbn. rewrite Htok. intros ->. done.
  - done.
  - unfold settled. cbn [fst snd]. apply Open_jobs in Ho as [-> _]. done.
Qed.

Lemma settled_steps tok row s s' : rtc bstep s s' -> tok <> "" -> sysOK s -> settled tok row s -> settled tok row s'.
Proof. induction 1; eauto using sysOK_step, settled_step. Qed.

(** C14. A verdict is final and is about what was asked. In every reachable state, a
    completed attempt's result names the check, command, run, commit and execution
    of the submitted job and the worker that held its lease, its last attempt lists the
    tests as reported, and if it passes where test reports are required those tests are
    valid and pass. From then on, in every later state, the row that carries the token of
    that execution is completed with that same result, and a caller waiting for it gets
    exactly that. *)
Theorem verdict_final b iss row res s :
  reachable (b, iss) -> row ∈ b_jobs b -> w_result row = Some res -> rtc bstep (b, iss) s ->
  verdictOK row res /\
  (forall r, r ∈ b_jobs (fst s) -> w_token r = w_token row ->
     w_id r = w_id row /\ w_job r = w_job row /\ w_state r = Completed /\ w_result r = Some res /\
     (b_closed (fst s) = false -> b_faults (fst s) = [] -> fst (waitPoll (w_id row) (fst s)) = inr (inl res))).
Proof.
  intros Hsys%reachable_ok Hrow Hres Hs. pose proof Hsys as (Hok & Hh & Ht & Hv). cbn [fst snd] in *. split; [by apply Hv|].
  pose proof Hok as (Hnd & Hrows & Huniq & _). destruct (Hrows row Hrow) as (_ & _ & Htok & Hst).
  assert (w_state row = Completed) as Hc by (apply Hst; by rewrite Hres).
  assert (w_token row <> "") as Hne by (apply Htok; by right).
  assert (settled (w_token row) row (b, iss)) as H1.
  { split; [by apply Ht|]. cbn [fst]. intros r Hr Er. rewrite (Huniq r row Hr Hrow Er); [done|]. by rewrite Er. }
  pose proof (sysOK_steps _ _ Hs Hsys) as Hok'. destruct (settled_steps _ _ _ _ Hs Hne Hsys H1) as [_ Hfin].
  intros r Hr Er. destruct (Hfin r Hr Er) as (E1 & E2 & E3 & E4).
  split_and!; [done|done|done|congruence|]. intros Hcl Hf.
  assert (lookupJob (w_id row) (fst s) = Some r) as El.
  { unfold lookupJob. destruct (List.find _ _) as [u|] eqn:E.
    - apply find_Some_elem in E as [Hu Hid%byID_true]. f_equal. eapply ids_inj; [apply Hok'|done|done|congruence].
    - exfalso. apply list_elem_of_In in Hr. apply (find_none _ _ E) in Hr. unfold byID in Hr. by rewrite E1, String.eqb_refl in Hr. }
  unfold waitPoll, query, stmt, get, mbind, DB_bind. rewrite Hcl, Hf. cbn. rewrite El.
  assert (isState Cancelled r = false) as -> by (unfold isState; by rewrite E3).
  assert (isState Completed r = true) as -> by (by apply isState_true). rewrite E4, Hres. done.
Qed.

Lemma find_one (f : Row -> bool) rows row :
  NoDup (w_id <$> rows) -> row ∈ rows -> f row = true -> (forall r, f r = true -> w_id r = w_id row) -> List.find f rows = Some row.
Proof.
  intros Hnd Hr Hf Hid. destruct (List.find _ _) as [u|] eqn:E.
  - apply find_Some_elem in E as [Hu Hfu]. f_equal. eapply ids_inj; [done..|]. by apply Hid.
  - exfalso. apply list_elem_of_In in Hr. apply (find_none _ _ E) in Hr. congruence.
Qed.

Lemma find_unique rows row id :
  NoDup (w_id <$> rows) -> row ∈ rows -> w_id row = id -> List.find (byID id) rows = Some row.
Proof. intros Hnd Hr <-. apply find_one; [done|done|by apply byID_true|]. intros r. apply byID_true. Qed.

(** Running programs while the database answers. *)
Lemma bind_run {A B} (m : DB A) (k : A -> DB B) b a b' : m b = (inr a, b') -> (m ≫= k) b = k a b'.
Proof. unfold mbind, DB_bind. by intros ->. Qed.

Lemma query_run {A} (q : Broker -> A) b : b_faults b = [] -> query q b = (inr (q b), b).
Proof. intros H. unfold query, mbind, DB_bind, stmt, get. by rewrite H. Qed.

Lemma update_run p f b :
  b_faults b = [] -> update p f b = (inr (Z.of_nat (length (List.filter p (b_jobs b)))), b <| b_jobs ::= setWhere p f |>).
Proof. intros H. unfold update, mbind, DB_bind, stmt, get, put, mret, DB_ret. by rewrite H. Qed.

(** The predecessor a retry's result is put on top of. *)
Definition predecessor (rows : list Row) (row : Row) (previous : option Result) : Prop :=
  if String.eqb (w_parent row) "" then previous = None
  else exists p, p ∈ rows /\ w_id p = w_parent row /\ w_state p = Completed /\ w_result p = previous.

Lemma Complete_run b row given previous again :
  rowsOK (b_jobs b) -> b_faults b = [] -> row ∈ b_jobs b -> w_state row = Leased ->
  r_Err (Check_ given) = None -> refused row given = None -> predecessor (b_jobs b) row previous ->
  r_Err (Check_ again) = None ->
  exists b', Complete (w_id row) (w_token row) given b = (inr tt, b') /\
    b_jobs b' = setWhere (byID (w_id row)) (concluded (conclude row previous given)) (b_jobs b) /\
    Complete (w_id row) (w_token row) again b' = (inr tt, b').
Proof.
  intros Hok Hf Hr Hl He Href Hp He'. pose proof Hok as (Hnd & Hrows & _).
  destruct (Hrows row Hr) as (_ & _ & Htok & _). assert (w_token row <> "") as Hne by (apply Htok; by left).
  assert (forall r, r ∈ b_jobs b -> (holds (w_id row) (w_token row) r && isState Leased r) = byID (w_id row) r) as Hsel.
  { intros r Hin. destruct (byID (w_id row) r) eqn:E.
    - apply byID_true in E. rewrite (ids_inj _ r row Hnd Hin Hr E). apply andb_true_iff. split; [by apply holds_true|by apply isState_true].
    - unfold holds. by rewrite E. }
  assert (setWhere (fun r => holds (w_id row) (w_token row) r && isState Leased r) (concluded (conclude row previous given)) (b_jobs b)
          = setWhere (byID (w_id row)) (concluded (conclude row previous given)) (b_jobs b)) as Eset.
  { unfold setWhere. apply map_ext_in. intros r Hin%list_elem_of_In. by rewrite Hsel. }
  assert (String.eqb (w_token row) "" = false) as Et by (by apply String.eqb_neq).
  assert (isState Completed row = false /\ isState Leased row = true) as [Ec El] by (unfold isState; by rewrite Hl).
  set (b1 := b <| b_jobs := setWhere (byID (w_id row)) (concluded (conclude row previous given)) (b_jobs b) |> <| b_changed ::= S |>).
  exists b1. split_and!; [|done|].
  - unfold Complete. rewrite He. rewrite (bind_run _ _ _ _ _ (query_run _ _ Hf)). unfold lookupJob. rewrite (find_unique _ row) by done.
    rewrite Et, String.eqb_refl, Ec, El, Href. cbn [orb negb].
    assert (forall prev, (update (fun r => holds (w_id row) (w_token row) r && isState Leased r)
                 (fun r => r <| w_result := Some (conclude row prev given) |> <| w_state := Completed |>) ;; notify) b = (inr tt, b1) \/ prev <> previous) as Hup.
    { intros prev. destruct (decide (prev = previous)) as [->|]; [left|by right].
      rewrite (bind_run _ _ _ _ _ (update_run _ _ _ Hf)). unfold notify, put, b1. rewrite <- Eset. by destruct b. }
    unfold predecessor in Hp. destruct (String.eqb (w_parent row) "") eqn:Ep.
    + subst previous. destruct (Hup None) as [H|]; [exact H|done].
    + destruct Hp as (p & Hpin & Hpid & Hps & Hpr).
      assert (completedResult (w_parent row) b = previous) as Ecr.
      { unfold completedResult. rewrite (find_one _ _ p); [done|done|done| |].
        - apply andb_true_iff. by rewrite byID_true, isState_true.
        - intros r [->%byID_true _]%andb_true_iff. done. }
      assert (is_Some previous) as [prev ->].
      { rewrite <- Hpr. destruct (Hrows p Hpin) as (_ & _ & _ & [_ Hs]). specialize (Hs Hps). by destruct (w_result p). }
      erewrite bind_run; [|erewrite bind_run; [|apply query_run, Hf]; rewrite Ecr; done].
      destruct (Hup (Some prev)) as [H|]; [exact H|done].
  - assert (b_faults b1 = []) as Hf1 by done.
    assert (lookupJob (w_id row) b1 = Some (concluded (conclude row previous given) row)) as E1.
    { unfold lookupJob. assert (b_jobs b1 = setWhere (byID (w_id row)) (concluded (conclude row previous given)) (b_jobs b)) as -> by done.
      apply find_unique; [by rewrite setWhere_ids| |done]. apply setWhere_elem. exists row. split; [done|]. by rewrite (proj2 (byID_true _ _)). }
    unfold Complete. rewrite He', (bind_run _ _ _ _ _ (query_run _ _ Hf1)), E1.
    cbn [w_token concluded]. rewrite Et, String.eqb_refl. done.
Qed.

(** A result is accepted however late. In every reachable state where the database
    answers, the holder of a lease completes its attempt with any result within
    bounds, whether or not the lease ran out meanwhile, as long as the attempt was
    not reassigned: the row becomes completed with the stamped result, on top of
    its predecessor's for a retry, and no other row changes. Sending the same result again, as a
    worker does that lost the answer, succeeds and changes nothing. *)
Theorem late_result_accepted b iss row given previous again :
  reachable (b, iss) -> b_faults b = [] -> row ∈ b_jobs b -> w_state row = Leased ->
  r_Err (Check_ given) = None -> refused row given = None -> predecessor (b_jobs b) row previous ->
  r_Err (Check_ again) = None ->
  exists b', Complete (w_id row) (w_token row) given b = (inr tt, b') /\
    b_jobs b' = setWhere (byID (w_id row)) (concluded (conclude row previous given)) (b_jobs b) /\
    Complete (w_id row) (w_token row) again b' = (inr tt, b').
Proof. intros (Hok & _)%reachable_ok. by apply Complete_run. Qed.

(** *** Submissions *)

(** The last attempt of a chain, in the order of the table. *)
Definition latestOf (root : string) (rows : list Row) (r : Row) : Prop :=
  exists i, rows !! i = Some r /\ w_root r = root /\ forall j u, (i < j)%nat -> rows !! j = Some u -> w_root u <> root.

Lemma find_rev_latest root rows :
  match List.find (fun r => String.eqb (w_root r) root) (rev rows) with
  | Some r => latestOf root rows r
  | None => forall r, r ∈ rows -> w_root r <> root
  end.
Proof.
  induction rows as [|r rows IH] using rev_ind; [by intros r ?%elem_of_nil|]. rewrite rev_app_distr. cbn [rev app List.find].
  destruct (String.eqb_spec (w_root r) root) as [E|Hne].
  - exists (length rows). split_and!; [by apply list_lookup_middle|done|]. intros j u Hj Hu%lookup_lt_Some. rewrite length_app in Hu. simpl in Hu. lia.
  - destruct (List.find _ _) as [u|].
    + destruct IH as (i & Hi & Hroot & Hlast). exists i. split_and!; [by apply lookup_app_l_Some|done|]. intros j v Hj [Hv|[_ Hv]]%lookup_app_Some; [by eapply Hlast|].
      apply list_lookup_singleton_Some in Hv as [_ <-]. done.
    + intros v [Hv| ->%list_elem_of_singleton]%elem_of_app; [by apply IH|done].
Qed.

(** What adopting a row keeps of it: all that describes or identifies the execution. *)
Definition resumed (now : Z) (epoch : string) (r r' : Row) : Prop :=
  w_id r' = w_id r /\ w_job r' = w_job r /\ w_needs r' = w_needs r /\ w_root r' = w_root r /\ w_parent r' = w_parent r /\
  w_owner_epoch r' = epoch /\ w_wanted r' = UnixMilli now /\
  (w_state r <> Cancelled ->
     w_state r' = w_state r /\ w_token r' = w_token r /\ w_worker r' = w_worker r /\ w_session r' = w_session r /\
     w_lease_until r' = w_lease_until r /\ w_result r' = w_result r).

(** The table after a submission that returned a row it found there. *)
Definition adoptedRow (now : Z) (epoch : string) (r r' : Row) (rows rows' : list Row) : Prop :=
  r ∈ rows /\ r' ∈ rows' /\ resumed now epoch r r' /\ w_id <$> rows' = w_id <$> rows /\
  forall u, u ∈ rows -> w_id u <> w_id r -> u ∈ rows'.

(** After one that made a new attempt. *)
Definition newRow (now : Z) (epoch root parent : string) (r' : Row) (rows rows' : list Row) : Prop :=
  (w_id r' ∉ w_id <$> rows) /\ rows' = rows ++ [r'] /\ w_state r' = Pending /\ w_root r' = root /\ w_parent r' = parent /\
  w_owner_epoch r' = epoch /\ w_wanted r' = UnixMilli now /\ w_token r' = "".

Lemma setWhere_adopted now epoch rows r f :
  NoDup (w_id <$> rows) -> r ∈ rows -> (forall u, w_id (f u) = w_id u) -> resumed now epoch r (f r) ->
  adoptedRow now epoch r (f r) rows (setWhere (byID (w_id r)) f rows).
Proof.
  intros Hnd Hr Hid Hres. split_and!; [done| |done|by apply setWhere_ids|].
  - apply setWhere_elem. exists r. split; [done|]. by rewrite (proj2 (byID_true _ _)).
  - intros u Hu Hne. apply setWhere_elem. exists u. split; [done|]. destruct (byID _ u) eqn:E; [|done]. by apply byID_true in E.
Qed.

Lemma setWhere_twice p f g rows : (forall r, p (f r) = p r) -> setWhere p g (setWhere p f rows) = setWhere p (fun r => g (f r)) rows.
Proof. intros H. unfold setWhere. rewrite map_map. apply map_ext. intros r. destruct (p r) eqn:E; [by rewrite H, E|by rewrite E]. Qed.

Lemma submitNew_spec now root parent job needs priority b :
  rowsOK (b_jobs b) ->
  wp (submitNew key now root parent job needs priority) (fun res b' =>
    match res with
    | inl _ => True
    | inr id => id = key root parent (j_Command job) (j_RetryTests job) /\
        ((exists r r', w_id r = id /\ adoptedRow now (b_epoch b) r r' (b_jobs b) (b_jobs b')) \/
         exists r', w_id r' = id /\ newRow now (b_epoch b) root parent r' (b_jobs b) (b_jobs b'))
    end) b.
Proof.
  intros (Hnd & _). unfold submitNew, requireCapacity. wps; try done. split; [done|]. unfold insertJob.
  match goal with |- context [lookupJob ?i ?b2] => change (lookupJob i b2) with (lookupJob i b); destruct (lookupJob i b) as [r|] eqn:El end.
  - left. apply find_Some_elem in El as [Hr Hid%byID_true]. eexists r, _. split; [done|]. rewrite <- Hid.
    apply setWhere_adopted; [done|done|done|]. by split_and!.
  - right. eexists. split; [|split_and!; [|done..]]; [done|]. cbn. intros (u & Eid & Hu)%list_elem_of_fmap.
    apply list_elem_of_In in Hu. pose proof (find_none _ _ El u Hu) as Hn. rewrite Eid in Hn. unfold byID in Hn. by rewrite String.eqb_refl in Hn.
Qed.

Lemma adopt_spec now latest b :
  rowsOK (b_jobs b) -> latest ∈ b_jobs b ->
  wp (adopt now latest) (fun res b' =>
    match res with
    | inl _ => True
    | inr id => id = w_id latest /\ exists r', adoptedRow now (b_epoch b) latest r' (b_jobs b) (b_jobs b') /\
        (w_state latest = Cancelled -> w_state r' = Pending /\ w_token r' = "")
    end) b.
Proof.
  intros (Hnd & _) Hin. unfold adopt, requireCapacity. wp_step. wp_step.
  - apply isState_true in E.
    assert (forall rows', rows' = setWhere (byID (w_id latest)) (fun r => revive r <| w_wanted := UnixMilli now |> <| w_owner_epoch := b_epoch b |>) (b_jobs b) ->
      exists r', adoptedRow now (b_epoch b) latest r' (b_jobs b) rows' /\ (w_state latest = Cancelled -> w_state r' = Pending /\ w_token r' = "")) as H.
    { intros rows' ->. eexists. split; [apply setWhere_adopted; [done|done|done|]|done]. split_and!; try done. }
    wps; try done. split; [done|]. apply H. by apply (setWhere_twice (byID (w_id latest)) revive).
  - assert (w_state latest <> Cancelled) as Hc by (intros H; unfold isState in E; by rewrite H in E). wps; try done. split; [done|]. cbn [b_jobs b_epoch].
    eexists. split; [apply setWhere_adopted; [done|done|done|by split_and!]|done].
Qed.

(** The outcome of a submission: refused, adopting the latest attempt of a known
    chain, or making a new attempt unless that very attempt exists. *)
Definition submitOutcome (now : Z) (root : string) (job : CheckJob) (b : Broker) (res : berror + string) (b' : Broker) : Prop :=
  let parent := j_PreviousExecution job in
  match res with
  | inl _ => b_jobs b' = b_jobs b
  | inr id =>
      (exists latest r', parent = "" /\ latestOf root (b_jobs b) latest /\ id = w_id latest /\
         adoptedRow now (b_epoch b) latest r' (b_jobs b) (b_jobs b') /\
         (w_state latest = Cancelled -> w_state r' = Pending /\ w_token r' = "")) \/
      (exists chain, id = key chain parent (j_Command job) (j_RetryTests job) /\
         (if String.eqb parent "" then chain = root /\ forall r, r ∈ b_jobs b -> w_root r <> root
          else exists p, p ∈ b_jobs b /\ w_id p = parent /\ w_state p = Completed /\ w_root p = chain) /\
         ((exists r r', w_id r = id /\ adoptedRow now (b_epoch b) r r' (b_jobs b) (b_jobs b')) \/
          exists r', w_id r' = id /\ newRow now (b_epoch b) chain parent r' (b_jobs b) (b_jobs b')))
  end.

Lemma Submit_spec now root job needs priority b :
  rowsOK (b_jobs b) -> wp (Submit key now root job needs priority) (submitOutcome now root job b) b.
Proof.
  intros Hok. unfold Submit. wp_step; [by wps|]. cbv zeta. wp_step. wp_step; [done|]. wp_step.
  - wp_step. wp_step; [done|]. wp_step; [|by wp_step]. wp_step; [by wp_step|]. wp_step.
    apply find_Some_elem in E1 as [Hp Hpid%byID_true]. apply orb_false_elim in E2 as [_ Hps%negb_false_iff%isState_true].
    eapply wp_mono; [apply submitNew_spec; exact Hok|]. intros [e|id] b3 H3; [done|]. wp_step. intros b4 [? ->]. wps.
    right. exists (w_root r). apply negb_true_iff in E0. rewrite E0. destruct H3 as [Hid H3]. split_and!; [done|by exists r|exact H3].
  - apply negb_false_iff, String.eqb_eq in E0. wp_step. wp_step; [done|]. pose proof (find_rev_latest root (b_jobs b)) as Hl.
    wp_step; match type of E1 with List.find ?f _ = ?o => change (List.find f (rev (b_jobs b)) = o) in E1 end; rewrite E1 in Hl.
    + wp_step. eapply wp_mono; [apply adopt_spec; [exact Hok|]|].
      * destruct Hl as (i & Hi & _). by eapply list_elem_of_lookup_2.
      * intros [e|id] b3 H3; [done|]. wp_step. intros b4 [? ->]. wps. left. destruct H3 as (-> & r' & H3 & H4). by exists r, r'.
    + wp_step. eapply wp_mono; [apply submitNew_spec; exact Hok|]. intros [e|id] b3 H3; [done|]. wp_step. intros b4 [? ->]. wps.
      right. exists root. rewrite E0. destruct H3 as [Hid H3]. split_and!; [done|done|exact H3].
Qed.

(** Submitting a check again resumes it. In every reachable state, whatever fails: a
    submission that is refused leaves the job table as it was. The first submission
    of a check whose chain of attempts is in the table returns the latest attempt of that chain
    and makes no new one: a waiting, running or finished execution keeps its lease,
    its worker and its result, a cancelled one is revived without its old token, and every other
    row is untouched. Only where the chain is unknown, or for a retry of a
    completed attempt, is a row added, in the chain of the root or of the
    predecessor, unless that very attempt exists and is adopted too; and at most 10000
    attempts are active. *)
Theorem submit_resumes b iss now root job needs priority :
  reachable (b, iss) -> typed (CSubmit now root job needs priority) ->
  submitOutcome now root job b (fst (Submit key now root job needs priority b)) (snd (Submit key now root job needs priority b)) /\
  Z.of_nat (length (List.filter active (b_jobs (snd (Submit key now root job needs priority b))))) <= 10000.
Proof.
  intros Hsys%reachable_ok Ht. pose proof Hsys as (Hok & _). split; [by apply Submit_spec|].
  by pose proof (rtc_ok _ _ (run_quiet (CSubmit now root job needs priority) b Ht Hok) Hok) as (_ & _ & _ & ?).
Qed.
End System.

(** ** Witnesses: one check, handed to a worker whose lease runs out, reassigned, completed. *)

Definition demoKey (root parent : string) (command retryTests : list string) : string :=
  root +:+ "/" +:+ parent +:+ "/" +:+ String.concat " " command.
Definition demoSec : Z := 1000000000.
Definition demoJob : CheckJob :=
  zeroCheckJob <| j_Name := "test" |> <| j_Executor := "sql" |> <| j_Command := ["./ci/test"] |> <| j_RunID := "run1" |>
    <| j_MergeSHA := "m1" |>.
Definition demoNeeds : Requirements := mkRequirements ["linux"] (mkResources 1 2000 2147483648).
Definition demoWorker (id session : string) : Worker :=
  mkWorker [] [] id session ["sql"] ["linux"] (mkResources 2 4000 8589934592) (mkResources 0 0 0) 1 false.
Definition demoSubmit : call := CSubmit (1000 * demoSec) "root1" demoJob demoNeeds 1.

Definition demo0 : Broker := mkBroker "epoch1" ∅ false [] ∅ (1000 * demoSec) (60 * demoSec) (120 * demoSec) 0 [].
Definition demo1 : Broker := run demoKey demoSubmit demo0.
Definition demoAttempt (r : berror + option Attempt) : Attempt :=
  match r with inr (Some a) => a | _ => mkAttempt "" "" "" 0 0 demoJob demoNeeds end.
Definition demo2 : Broker := snd (Claim (1001 * demoSec) "t1" (demoWorker "w1" "s1") demo1).
Definition demo3 : Broker := snd (Claim (1200 * demoSec) "t2" (demoWorker "w2" "s2") demo2).
Definition demoPassed : Result := mkResult "" (zeroCheckResult <| r_Status := CheckPassed |> <| r_Output := "ok" |>) "" "".
Definition demo4 : Broker := run demoKey (CComplete "root1//./ci/test" "t2" demoPassed) demo3.

Lemma demo_typed : typed demoSubmit.
Proof. cbn. unfold int64, maxInt64. lia. Qed.

Lemma demoWorker_typed id session : workerTyped (demoWorker id session).
Proof. unfold workerTyped, int64, maxInt64. cbn. lia. Qed.

Lemma demo1_reachable : reachable demoKey (demo1, ∅).
Proof.
  exists demo0, (60 * demoSec), (120 * demoSec), (1000 * demoSec), "epoch1". split; [vm_compute; reflexivity|].
  apply rtc_once. exact (bs_call demoKey demo0 ∅ demoSubmit demo_typed).
Qed.

Lemma demo2_step : bstep demoKey (demo1, ∅) (demo2, {["t1"]} ∪ ∅).
Proof. apply bs_claim; [discriminate|apply not_elem_of_empty|apply demoWorker_typed]. Qed.

Lemma demo3_step : bstep demoKey (demo2, {["t1"]} ∪ ∅) (demo3, {["t2"]} ∪ ({["t1"]} ∪ ∅)).
Proof. apply bs_claim; [discriminate| |apply demoWorker_typed]. rewrite elem_of_union, elem_of_singleton, elem_of_empty. intros [H|H]; [discriminate H|exact H]. Qed.

Lemma demo4_step iss : bstep demoKey (demo3, iss) (demo4, iss).
Proof. exact (bs_call demoKey demo3 iss (CComplete "root1//./ci/test" "t2" demoPassed) I). Qed.

Lemma reachable_step key s s' : reachable key s -> bstep key s s' -> reachable key s'.
Proof. intros (b & l & g & n & e & Ho & Hs) H. exists b, l, g, n, e. split; [exact Ho|]. by eapply rtc_r. Qed.

Lemma demo2_reachable : reachable demoKey (demo2, {["t1"]} ∪ ∅).
Proof. exact (reachable_step _ _ _ demo1_reachable demo2_step). Qed.

Lemma demo3_reachable : reachable demoKey (demo3, {["t2"]} ∪ ({["t1"]} ∪ ∅)).
Proof. exact (reachable_step _ _ _ demo2_reachable demo3_step). Qed.

(** The second worker gets the job of the first, 199 seconds later. *)
Lemma claim_within_capacity_witness :
  a_ID (demoAttempt (fst (Claim (1200 * demoSec) "t2" (demoWorker "w2" "s2") demo2))) = "root1//./ci/test" /\
  held CPU "w2" "s2" (b_jobs demo3) = 2000 /\ urgentShare (demoWorker "w2" "s2") 4000 = 2000 /\
  exists r, r ∈ b_jobs demo2 /\ accepts (demoWorker "w2" "s2") (w_job r) (w_needs r) = true.
Proof.
  split_and!; [vm_compute; reflexivity|vm_compute; reflexivity|vm_compute; reflexivity|].
  destruct (claim_within_capacity demoKey demo2 ({["t1"]} ∪ ∅) (1200 * demoSec) "t2" (demoWorker "w2" "s2")
    (demoAttempt (fst (Claim (1200 * demoSec) "t2" (demoWorker "w2" "s2") demo2))) demo3 demo2_reachable (demoWorker_typed _ _))
    as (r & Hr & _ & _ & _ & _ & Ha & _); [vm_compute; reflexivity|]. exists r. split; [exact Hr|exact Ha].
Defined.

Lemma stale_token_refused_witness :
  refusedWith (Complete "root1//./ci/test" "t1" demoPassed) demo4 /\ refusedWith (authorized "root1//./ci/test" "t1") demo4.
Proof.
  assert (a_ID (demoAttempt (fst (Claim (1200 * demoSec) "t2" (demoWorker "w2" "s2") demo2))) = "root1//./ci/test") as <- by (vm_compute; reflexivity).
  pose proof (stale_token_refused demoKey demo2 ({["t1"]} ∪ ∅) (1200 * demoSec) "t2" (demoWorker "w2" "s2")
    (demoAttempt (fst (Claim (1200 * demoSec) "t2" (demoWorker "w2" "s2") demo2))) demo3 (demo4, {["t2"]} ∪ ({["t1"]} ∪ ∅))
    demo2_reachable (demoWorker_typed _ _) ltac:(discriminate)) as H.
  assert ("t2" ∉ ({["t1"]} ∪ ∅ : gset string)) as Hf.
  { rewrite elem_of_union, elem_of_singleton, elem_of_empty. intros [Hx|Hx]; [discriminate Hx|exact Hx]. }
  specialize (H Hf ltac:(vm_compute; reflexivity) (rtc_once _ _ (demo4_step _)) "t1" ltac:(apply elem_of_union_l, elem_of_singleton; reflexivity) ltac:(discriminate)).
  destruct H as (_ & Hc & Ha). split; [apply Hc|exact Ha].
Defined.

Definition demoRow : Row := default (mkRow "" demoJob demoNeeds 0 0 0 Pending "" "" "" "" "" "" 0 None) (head (b_jobs demo4)).

Lemma verdict_final_witness :
  r_Worker (Check_ (default demoPassed (w_result demoRow))) = "w2" /\
  fst (waitPoll "root1//./ci/test" demo4) = inr (inl (default demoPassed (w_result demoRow))) /\
  verdictOK demoRow (default demoPassed (w_result demoRow)).
Proof.
  assert (demoRow ∈ b_jobs demo4) as Hin by (apply list_elem_of_lookup_2 with 0%nat; vm_compute; reflexivity).
  destruct (verdict_final demoKey demo4 ({["t2"]} ∪ ({["t1"]} ∪ ∅)) demoRow (default demoPassed (w_result demoRow)) (demo4, {["t2"]} ∪ ({["t1"]} ∪ ∅))
    (reachable_step _ _ _ demo3_reachable (demo4_step _)) Hin) as [Hv Hf]; [vm_compute; reflexivity|apply rtc_refl|].
  split_and!; [vm_compute; reflexivity| |exact Hv].
  assert (w_id demoRow = "root1//./ci/test") as <- by (vm_compute; reflexivity).
  apply (Hf demoRow Hin eq_refl); vm_compute; reflexivity.
Defined.

Definition demoLeased : Row := default demoRow (head (b_jobs demo3)).

Lemma late_result_accepted_witness :
  exists b', Complete (w_id demoLeased) (w_token demoLeased) demoPassed demo3 = (inr tt, b') /\
    Complete (w_id demoLeased) (w_token demoLeased) demoPassed b' = (inr tt, b').
Proof.
  assert (demoLeased ∈ b_jobs demo3) as Hin by (apply list_elem_of_lookup_2 with 0%nat; vm_compute; reflexivity).
  destruct (late_result_accepted demoKey demo3 ({["t2"]} ∪ ({["t1"]} ∪ ∅)) demoLeased demoPassed None demoPassed demo3_reachable) as (b' & H1 & _ & H2);
    [vm_compute; reflexivity|exact Hin|vm_compute; reflexivity..|].
  exists b'. split; [exact H1|exact H2].
Defined.

Lemma submit_resumes_witness :
  fst (Submit demoKey (1300 * demoSec) "root1" demoJob demoNeeds 1 demo4) = inr "root1//./ci/test" /\
  submitOutcome demoKey (1300 * demoSec) "root1" demoJob demo4 (inr "root1//./ci/test")
    (snd (Submit demoKey (1300 * demoSec) "root1" demoJob demoNeeds 1 demo4)) /\
  length (b_jobs (snd (Submit demoKey (1300 * demoSec) "root1" demoJob demoNeeds 1 demo4))) = 1%nat.
Proof.
  assert (fst (Submit demoKey (1300 * demoSec) "root1" demoJob demoNeeds 1 demo4) = inr "root1//./ci/test") as E by (vm_compute; reflexivity).
  split; [exact E|]. rewrite <- E. split; [|vm_compute; reflexivity].
  exact (proj1 (submit_resumes demoKey demo4 ({["t2"]} ∪ ({["t1"]} ∪ ∅)) (1300 * demoSec) "root1" demoJob demoNeeds 1
    (reachable_step _ _ _ demo3_reachable (demo4_step _)) demo_typed)).
Defined.
