(* ===== verification/BrokerBoard.v ===== *)
(** What the broker is, seen from outside: a board of jobs, each waiting, running under
    a lease, finished or withdrawn. Every call of the broker, whatever statement of
    it fails, moves the board by the steps of [jstep]. *)
From stdpp Require Import relations.
From S2P Require Import Prelude GoString Core Wire TestReport Broker WorkerServer BrokerSpec.

Open Scope string_scope.
Open Scope list_scope.
Open Scope Z_scope.

(** ** The board *)

Inductive phase := Waiting | Running (worker token : string) | Finished (res : Result) | Withdrawn.

(** What becomes of one job by itself. A verdict comes from the worker that held the lease. *)
Inductive pstep : phase -> phase -> Prop :=
  | p_revoke worker token : pstep (Running worker token) Waiting
  | p_finish worker token res :
      r_Worker (Check_ res) = worker -> r_Err (Check_ res) = None -> validVerdict (r_Status (Check_ res)) = true ->
      pstep (Running worker token) (Finished res)
  | p_withdraw ph : ph = Waiting \/ (exists worker token, ph = Running worker token) -> pstep ph Withdrawn
  | p_revive : pstep Withdrawn Waiting.

(** Steps on the jobs that are there. *)
Inductive mstep (m : gmap string phase) : gmap string phase -> Prop :=
  | s_move id ph ph' : m !! id = Some ph -> pstep ph ph' -> mstep m (<[id := ph']> m)
  | s_forget id ph : m !! id = Some ph -> mstep m (delete id m).

(** The board and the tokens drawn so far. A lease goes out under a token never seen before, for a job that waits or whose
    lease ran out. *)
Definition board : Type := gmap string phase * gset string.

Inductive jstep : board -> board -> Prop :=
  | j_old m m' iss : mstep m m' -> jstep (m, iss) (m', iss)
  | j_submit m iss id : m !! id = None -> jstep (m, iss) (<[id := Waiting]> m, iss)
  | j_grant m iss id ph worker token :
      m !! id = Some ph -> (ph = Waiting \/ exists w t, ph = Running w t) -> token ∉ iss ->
      jstep (m, iss) (<[id := Running worker token]> m, {[token]} ∪ iss)
  | j_waste m iss token : token ∉ iss -> jstep (m, iss) (m, {[token]} ∪ iss).

(** ** The board of a job table *)

Definition phaseOf (r : Row) : phase :=
  match w_state r with
  | Pending => Waiting
  | Leased => Running (w_worker r) (w_token r)
  | Completed => Finished (default (mkResult "" zeroCheckResult "" "") (w_result r))
  | Cancelled => Withdrawn
  end.

Definition boardOf (rows : list Row) : gmap string phase := list_to_map ((fun r => (w_id r, phaseOf r)) <$> rows).
Definition view (s : system) : board := (boardOf (b_jobs (fst s)), snd s).

Lemma boardOf_cons r rows : boardOf (r :: rows) = <[w_id r := phaseOf r]> (boardOf rows).
Proof. done. Qed.

Lemma boardOf_None rows id : (id ∉ w_id <$> rows) <-> boardOf rows !! id = None.
Proof.
  unfold boardOf. rewrite <- not_elem_of_list_to_map. rewrite <- list_fmap_compose. done.
Qed.

Lemma boardOf_lookup rows r : NoDup (w_id <$> rows) -> r ∈ rows -> boardOf rows !! w_id r = Some (phaseOf r).
Proof.
  intros Hnd Hr. apply elem_of_list_to_map_1.
  - by rewrite <- list_fmap_compose.
  - by apply (list_elem_of_fmap_2 (fun r => (w_id r, phaseOf r))).
Qed.

Lemma boardOf_snoc rows row : (w_id row ∉ w_id <$> rows) -> boardOf (rows ++ [row]) = <[w_id row := phaseOf row]> (boardOf rows).
Proof.
  intros H. unfold boardOf. rewrite fmap_app. apply list_to_map_snoc. by rewrite <- list_fmap_compose.
Qed.

(** A step leaves a job that was not there absent, and may be taken beside one more job. *)
Lemma mstep_insert m m' id ph : mstep m m' -> m !! id = None -> mstep (<[id := ph]> m) (<[id := ph]> m') /\ m' !! id = None.
Proof.
  intros [i a b Hi Hp|i a Hi] Hn.
  - assert (i <> id) as Hne by congruence. rewrite insert_insert_ne by done. split; [|by rewrite lookup_insert_ne].
    apply (s_move _ i a); [by rewrite lookup_insert_ne|done].
  - assert (i <> id) as Hne by congruence. rewrite <- delete_insert_ne by done. split; [|by rewrite lookup_delete_ne].
    apply (s_forget _ i a). by rewrite lookup_insert_ne.
Qed.

Lemma msteps_insert m m' id ph : rtc mstep m m' -> m !! id = None -> rtc mstep (<[id := ph]> m) (<[id := ph]> m').
Proof.
  induction 1 as [|m1 m2 m3 H1 _ IH]; intros Hn; [apply rtc_refl|].
  destruct (mstep_insert _ _ id ph H1 Hn) as [H2 Hn2]. eapply rtc_l; [exact H2|by apply IH].
Qed.

(** Rewriting rows moves each of them once. *)
Lemma setWhere_moves p f rows :
  NoDup (w_id <$> rows) -> (forall r, w_id (f r) = w_id r) ->
  (forall r, r ∈ rows -> p r = true -> phaseOf (f r) = phaseOf r \/ pstep (phaseOf r) (phaseOf (f r))) ->
  rtc mstep (boardOf rows) (boardOf (setWhere p f rows)).
Proof.
  intros Hnd Hid. induction rows as [|r rows IH]; intros Hp; [apply rtc_refl|].
  cbn in Hnd. apply NoDup_cons in Hnd as [Hr Hnd]. apply boardOf_None in Hr as Hr'.
  cbn [setWhere map]. rewrite !boardOf_cons. fold (setWhere p f rows).
  assert (boardOf (setWhere p f rows) !! w_id r = None) as Hs by (apply boardOf_None; by rewrite setWhere_ids).
  etrans; [apply msteps_insert; [apply IH; [done|]|done]|].
  { intros r' Hr2. apply Hp. by right. }
  destruct (p r) eqn:E; [|apply rtc_refl]. rewrite Hid. destruct (Hp r ltac:(by left) E) as [-> |Hm]; [apply rtc_refl|].
  apply rtc_once. rewrite <- (insert_insert_eq (boardOf (setWhere p f rows)) (w_id r) (phaseOf (f r)) (phaseOf r)).
  apply (s_move _ _ (phaseOf r)); [by rewrite lookup_insert_eq|done].
Qed.

Lemma deleteWhere_moves p rows : NoDup (w_id <$> rows) -> rtc mstep (boardOf rows) (boardOf (deleteWhere p rows)).
Proof.
  induction rows as [|r rows IH]; intros Hnd; [apply rtc_refl|]. cbn in Hnd. apply NoDup_cons in Hnd as [Hr Hnd].
  apply boardOf_None in Hr. unfold deleteWhere. cbn [List.filter]. rewrite boardOf_cons. destruct (p r); cbn [negb].
  - eapply rtc_l; [apply (s_forget _ (w_id r) (phaseOf r)); by rewrite lookup_insert_eq|].
    rewrite delete_insert_eq, delete_id by done. by apply IH.
  - rewrite boardOf_cons. apply msteps_insert; [by apply IH|done].
Qed.

Lemma phaseOf_active r : active r = true -> phaseOf r = Waiting \/ exists worker token, phaseOf r = Running worker token.
Proof. intros [H|H]%active_state; unfold phaseOf; rewrite H; [by left|right; eauto]. Qed.

(** ** The refinement *)

Lemma qstep_moves rows rows' iss : rowsOK rows -> qstep rows rows' -> rtc jstep (boardOf rows, iss) (boardOf rows', iss).
Proof.
  intros Hok Hq. pose proof Hok as (Hnd & Hrow & _).
  assert (forall m', rtc mstep (boardOf rows) m' -> rtc jstep (boardOf rows, iss) (m', iss)) as Hlift.
  { intros m'. induction 1 as [|m1 m2 m3 H1 _ IH]; [apply rtc_refl|]. eapply rtc_l; [by apply j_old|exact IH]. }
  destruct Hq as [p f Hf|p Hp|p Hp|p row stored [Hin Hsel] Hst Hacc|p row [_ Hsel] Hst _|row Hid Hst Htok Hres _ _|p].
  - apply Hlift, setWhere_moves; [done| |].
    + intros r. destruct (Hf r) as (? & ? & ? & ? & E). by rewrite E.
    + intros r _ _. left. destruct (Hf r) as (? & ? & ? & ? & E). by rewrite E.
  - apply Hlift, setWhere_moves; [done|done|]. intros r Hr E. right. apply p_withdraw, phaseOf_active. by apply Hp.
  - apply Hlift, setWhere_moves; [done|done|]. intros r Hr E. right. unfold phaseOf at 1. rewrite (Hp r Hr E). apply p_revoke.
  - apply Hlift, setWhere_moves; [done|done|]. intros r Hr E. right. apply Hsel in E as ->; [|done]. unfold phaseOf at 1. rewrite Hst.
    destruct (accepted_verdict _ _ _ Hacc) as (_ & _ & _ & _ & _ & Hw & _ & He & Hv & _). by apply p_finish.
  - apply Hlift, setWhere_moves; [done|done|]. intros r Hr E. right. apply Hsel in E as ->; [|done]. unfold phaseOf at 1. rewrite Hst.
    apply p_revive.
  - rewrite boardOf_snoc by done. apply rtc_once. replace (phaseOf row) with Waiting by (unfold phaseOf; by rewrite Hst).
    by apply j_submit, boardOf_None.
  - by apply Hlift, deleteWhere_moves.
Qed.

Lemma qsteps_moves rows rows' iss : rowsOK rows -> rtc qstep rows rows' -> rtc jstep (boardOf rows, iss) (boardOf rows', iss).
Proof.
  intros Hok Hq. induction Hq as [|rows1 rows2 rows3 H1 _ IH]; [apply rtc_refl|].
  etrans; [by apply qstep_moves|]. apply IH. by eapply qstep_ok.
Qed.

Lemma lease_moves tok w a r rows rows' iss :
  rowsOK rows -> leaseStep tok w a r rows rows' -> tok ∉ iss ->
  jstep (boardOf rows, iss) (boardOf rows', {[tok]} ∪ iss).
Proof.
  intros (Hnd & _) ([Hr Hsel] & Hact & Htok & ->) Hf.
  assert (boardOf (setWhere (byID (w_id r)) (leaseTo w a) rows) = <[w_id r := Running (k_ID w) tok]> (boardOf rows)) as ->.
  { apply map_eq. intros id. destruct (decide (id ∈ w_id <$> rows)) as [(u & -> & Hu)%list_elem_of_fmap|Hid].
    - assert (w_id u = w_id (if byID (w_id r) u then leaseTo w a u else u)) as E by (by destruct (byID _ u)).
      rewrite E at 1. rewrite boardOf_lookup; [|by rewrite setWhere_ids|apply setWhere_elem; by exists u].
      destruct (byID (w_id r) u) eqn:Eb.
      + apply Hsel in Eb as ->; [|done]. rewrite lookup_insert_eq. unfold phaseOf. cbn. by rewrite Htok.
      + rewrite lookup_insert_ne; [by rewrite boardOf_lookup|]. intros E2. unfold byID in Eb. by rewrite E2, String.eqb_refl in Eb.
    - rewrite lookup_insert_ne.
      + transitivity (@None phase); [|symmetry; by apply boardOf_None]. apply boardOf_None. by rewrite setWhere_ids.
      + intros <-. apply Hid. by apply list_elem_of_fmap_2. }
  eapply j_grant; [by apply boardOf_lookup|by apply phaseOf_active|done].
Qed.

Section Refinement.
Context (key : string -> string -> list string -> list string -> string).

End Refinement.

