(* ===== verification/Agent.v ===== *)
(** The worker's agent (src/internal/workers/agent.go, client.go): the attempts it
    runs, the results it keeps on disk until the scheduler has them, and what it
    advertises; and the bounded output of a command (src/internal/executor/local.go).
    Running a command, exporting its tree and the services it needs are left out: an
    execution is the result it ends with. *)
From S2P Require Import Prelude GoString Core Wire TestReport Broker WorkerServer BrokerSpec.

Open Scope string_scope.
Open Scope list_scope.
Open Scope Z_scope.

(** ** The tail of a command's output *)

(** src/internal/executor/local.go:439-442 [tailBuffer] *)
Record tailBuffer := mkTailBuffer { t_cap : Z; t_buf : bytes }.

#[export] Instance tailBuffer_eta : Eta tailBuffer := fun t => mkTailBuffer (t_cap t) (t_buf t).

Definition len (b : bytes) : Z := Z.of_nat (length b).

(** src/internal/executor/local.go:444-455 [Write] *)
Definition Write (p : bytes) (t : tailBuffer) : Z * tailBuffer :=
  let n := len p in
  let p := if (0 <? t_cap t) && (t_cap t <? n) then drop (Z.to_nat (n - t_cap t)) p else p in
  let t := t <| t_buf ::= (fun buf => buf ++ p) |> in
  let excess := len (t_buf t) - t_cap t in
  let t := if (0 <? t_cap t) && (0 <? excess) then t <| t_buf := take (Z.to_nat (t_cap t)) (drop (Z.to_nat excess) (t_buf t)) |> else t in
  (n, t).

(** src/internal/executor/local.go:457-459 [String] *)
Definition tail_String (t : tailBuffer) : string := of_bytes (t_buf t).

(** src/internal/executor/local.go:22-22 [outputCap] *)
Definition outputCap : Z := 65536.

(** The output of a command that wrote [chunks], whatever came in one write. *)
Definition captured (chunks : list bytes) : string :=
  tail_String (fold_left (fun t p => snd (Write p t)) chunks (mkTailBuffer outputCap [])).

Lemma tail_step (c : nat) (buf p : bytes) :
  (0 < c)%nat -> (length buf <= c)%nat ->
  t_buf (snd (Write p (mkTailBuffer (Z.of_nat c) buf))) = drop (length (buf ++ p) - c) (buf ++ p).
Proof.
  intros Hc Hb. unfold Write, len. cbn [t_cap t_buf snd]. rewrite (proj2 (Z.ltb_lt 0 (Z.of_nat c))) by lia. cbn [andb].
  destruct (Z.ltb_spec (Z.of_nat c) (Z.of_nat (length p))) as [Hp|Hp].
  - replace (Z.to_nat (Z.of_nat (length p) - Z.of_nat c)) with (length p - c)%nat by lia.
    cbn. rewrite !length_app, !length_drop. destruct (Z.ltb_spec 0 (Z.of_nat (length buf + (length p - (length p - c))) - Z.of_nat c)) as [H|H]; cbn.
    + rewrite Nat2Z.id. assert (Z.to_nat (Z.of_nat (length buf + (length p - (length p - c))) - Z.of_nat c) = length buf) as -> by lia.
      rewrite (proj2 (Z.ltb_lt 0 (Z.of_nat c))) by lia. cbn. rewrite drop_app_length. rewrite take_ge by (rewrite length_drop; lia).
      rewrite drop_app_ge by lia. f_equal. lia.
    + assert (buf = []) as -> by (apply nil_length_inv; lia). rewrite andb_false_r. done.
  - cbn. rewrite !length_app. destruct (Z.ltb_spec 0 (Z.of_nat (length buf + length p) - Z.of_nat c)) as [H|H]; cbn.
    + rewrite Nat2Z.id. assert (Z.to_nat (Z.of_nat (length buf + length p) - Z.of_nat c) = (length buf + length p - c)%nat) as -> by lia.
      rewrite (proj2 (Z.ltb_lt 0 (Z.of_nat c))) by lia. cbn. rewrite take_ge; [done|]. rewrite length_drop, length_app. lia.
    + replace (length buf + length p - c)%nat with 0%nat by lia. rewrite andb_false_r. done.
Qed.

(** The buffer always holds the last [cap] bytes of all that was written. *)
Lemma tail_buffer_exact (c : nat) chunks buf :
  (0 < c)%nat ->
  t_buf (fold_left (fun t p => snd (Write p t)) chunks (mkTailBuffer (Z.of_nat c) (drop (length buf - c) buf)))
    = drop (length (buf ++ concat chunks) - c) (buf ++ concat chunks).
Proof.
  intros Hc. revert buf. induction chunks as [|p chunks IH]; intros buf; cbn [fold_left concat]; [by rewrite app_nil_r|].
  set (t := snd (Write p _)). assert (t = mkTailBuffer (Z.of_nat c) (drop (length (buf ++ p) - c) (buf ++ p))) as ->.
  { assert (t_cap t = Z.of_nat c) as Hcap.
    { unfold t, Write. cbn [snd t_cap]. by destruct (_ && (0 <? _)). }
    assert (t_buf t = drop (length (buf ++ p) - c) (buf ++ p)) as Hbuf.
    { unfold t. rewrite tail_step by (done || rewrite length_drop; lia). rewrite !length_app, length_drop.
      destruct (Nat.le_gt_cases c (length buf)) as [H|H].
      - replace (length buf - (length buf - c) + length p - c)%nat with (length p)%nat by lia.
        replace (length buf + length p - c)%nat with (length buf - c + length p)%nat by lia. rewrite <- drop_drop.
        rewrite (drop_app_le buf p (length buf - c)) by lia. done.
      - replace (length buf - c)%nat with 0%nat by lia. rewrite drop_0. f_equal. lia. }
    destruct t as [c' b']. cbn in *. by subst. }
  rewrite IH, <- app_assoc. done.
Qed.

(** ** Retained results *)

(** src/internal/workers/agent.go:37-41 [retainedResult] *)
Record retainedResult := mkRetained { rt_Attempt : Attempt; rt_Result : Result; rt_At : Z }.

(** src/internal/workers/agent.go:144-156 [safeAttempt] *)
Definition hexRune (r : Z) : bool := between 48 57 r || between 97 102 r.

(** src/internal/workers/agent.go:144-156 [safeAttempt] *)
Definition safeAttempt (a : Attempt) : bool :=
  (strlen (a_ID a) =? 64) && (strlen (a_Token a) =? 48) && forallb hexRune (runes (a_ID a)) && forallb hexRune (runes (a_Token a)).

(** src/internal/workers/agent.go:159-159 [execute] The name of an attempt's directory. *)
Definition attemptDir (a : Attempt) : string := a_ID a +:+ "-" +:+ a_Token a.

(** What a directory of the jobs directory holds: no result yet (or it is no directory),
    a result that cannot be opened or read, one that does not decode, or a result. *)
Inductive DirEntry := DNone | DUnreadable (err : string) | DInvalid | DKept (r : retainedResult).

(** src/internal/workers/client.go:37-45 [request] What a request comes back with. *)
Inductive Reply := ROk | RStale | RErr (err : string).

(** The answer to an uploaded log: its digest, or a body that does not decode. *)
Inductive LogReply := LDigest (digest : string) | LBad (err : string) | LStale | LErr (err : string).

(** src/internal/workers/server.go:22-23 [maxLogBytes] *)
Definition maxLogBytes : Z := 268435456.

(** src/internal/workers/agent.go:320-323 [flush] *)
Definition withNote (note : string) (r : Result) : Result :=
  r <| Check_ ::= (fun c => c <| r_Output ::= (fun o => lastBytes 65536 (o +:+ String newline note)) |>) |>.

Section Flush.
(** The scheduler the agent talks to, the log files, and removing a directory. *)
Context {S : Type}.
Context (putLog : Attempt -> S -> LogReply * S) (postResult : string -> string -> Result -> S -> Reply * S).
Context (logSize : string -> string + Z) (removeDir : string -> option string).

(** What became of one directory: it is gone, it stays, or flushing stops with an error. *)
Inductive Flushed := FGone | FStays | FStop (err : string).

(** src/internal/workers/agent.go:309-349 [flush] The result with its log uploaded or its loss noted. *)
Definition uploadLog (a : Attempt) (r : Result) (s : S) : (Flushed + Result) * S :=
  if String.eqb (r_LogPath (Check_ r)) "" then (inr r, s)
  else match logSize (r_LogPath (Check_ r)) with
       | inl err => (inl (FStop err), s)
       | inr size =>
           if maxLogBytes <? size
           then (inr (withNote "gauntlet: worker log exceeds upload limit; output tail and test reports retained." r), s)
           else match putLog a s with
                | (LStale, s) => (inl FGone, s)
                | (LErr _, s) =>
                    (inr (withNote "gauntlet: worker full log could not be uploaded; output tail and reports retained." r), s)
                | (LBad err, s) => (inl (FStop err), s)
                | (LDigest d, s) => (inr (r <| LogDigest := d |>), s)
                end
       end.

(** src/internal/workers/agent.go:284-361 [flush] *)
Definition flushOne (now : Z) (name : string) (e : DirEntry) (s : S) : Flushed * S :=
  match e with
  | DNone => (FStays, s)
  | DUnreadable err => (FStop err, s)
  | DInvalid => (FStop "invalid retained worker result", s)
  | DKept r =>
      let a := rt_Attempt r in
      if negb (safeAttempt a) then (FStop "invalid retained worker result", s)
      else if 86400000000000 <? now - rt_At r then (match removeDir name with Some _ => FStays | None => FGone end, s)
      else match uploadLog a (rt_Result r) s with
           | (inl FGone, s) => (match removeDir name with Some _ => FStays | None => FGone end, s)
           | (inl f, s) => (f, s)
           | (inr result, s) =>
               match postResult (a_ID a) (a_Token a) result s with
               | (RErr err, s) => (FStop err, s)
               | (_, s) => (match removeDir name with Some err => FStop err | None => FGone end, s)
               end
           end
  end.

(** src/internal/workers/agent.go:278-364 [flush] In the order of the directory, up to the first error. *)
Fixpoint flush (now : Z) (dirs : list (string * DirEntry)) (s : S) : option string * list (string * DirEntry) * S :=
  match dirs with
  | [] => (None, [], s)
  | (name, e) :: dirs =>
      match flushOne now name e s with
      | (FGone, s) => flush now dirs s
      | (FStays, s) => let '(err, dirs, s) := flush now dirs s in (err, (name, e) :: dirs, s)
      | (FStop err, s) => (Some err, (name, e) :: dirs, s)
      end
  end.
End Flush.
Arguments uploadLog {S}. Arguments flushOne {S}. Arguments flush {S}.

(** ** The agent *)

(** src/internal/workers/agent.go:24-35 [Agent] With the contents of its jobs directory. *)
Record Agent := mkAgent {
  g_Worker : Worker;
  g_running : gmap string Resources;
  g_active : Z;
  g_dirs : list (string * DirEntry);
}.

#[export] Instance Agent_eta : Eta Agent := fun g => mkAgent (g_Worker g) (g_running g) (g_active g) (g_dirs g).

(** src/internal/workers/agent.go:105-112 [Run] *)
Definition add (used acc : Resources) : Resources :=
  mkResources (wrap64 (Slots acc + Slots used)) (wrap64 (CPU acc + CPU used)) (wrap64 (Memory acc + Memory used)).

(** src/internal/workers/agent.go:105-112 [Run] Summing in any order. *)
Definition advertisement (g : Agent) : Worker :=
  g_Worker g <| k_Usage := fold_right (fun kr acc => add (snd kr) acc) (k_Usage (g_Worker g)) (map_to_list (g_running g)) |>.

Definition setDir (name : string) (e : DirEntry) (dirs : list (string * DirEntry)) : list (string * DirEntry) :=
  sort_by (fun a b => String.ltb (fst a) (fst b)) ((name, e) :: List.filter (fun d => negb (String.eqb (fst d) name)) dirs).

(** [os.MkdirAll] leaves a directory that is there as it is. *)
Definition mkdir (name : string) (dirs : list (string * DirEntry)) : list (string * DirEntry) :=
  if existsb (fun d => String.eqb (fst d) name) dirs then dirs else setDir name DNone dirs.

(** src/internal/workers/agent.go:115-130 [Run] Taking on what a claim brought; [false] ends the agent. *)
Definition takeOn (attempt : option Attempt) (g : Agent) : bool * Agent :=
  match attempt with
  | None => (true, g)
  | Some a =>
      if negb (safeAttempt a) then (false, g)
      else (true, g <| g_active ::= Z.succ |> <| g_running ::= <[attemptDir a := q_Resources (a_Requirements a)]> |>
                    <| g_dirs ::= mkdir (attemptDir a) |>)
  end.

(** src/internal/workers/agent.go:92-131 [Run] One turn of the loop: upload what is
    retained, then claim where that went through and a slot is free. [claim] is
    the scheduler's answer to an advertisement. *)
Definition turn {S} putLog postResult logSize removeDir (claim : Worker -> S -> option Attempt * S) (now : Z) (g : Agent) (s : S)
  : bool * Agent * S :=
  let '(err, dirs, s) := flush putLog postResult logSize removeDir now (g_dirs g) s in
  let g := g <| g_dirs := dirs |> in
  if negb (isSome err) && (g_active g <? Slots (k_Capacity (g_Worker g))) then
    let '(attempt, s) := claim (advertisement g) s in
    (takeOn attempt g, s)
  else (true, g, s).

(** What [json.Marshal] of a retained result keeps of it. *)
Definition onDisk (r : Result) : Result := storedResult r.

(** src/internal/workers/agent.go:186-197 [execute] An execution ends: its result is on
    disk before its slot is free. *)
Definition finish (now : Z) (a : Attempt) (result : CheckResult) (g : Agent) : Agent :=
  g <| g_dirs ::= setDir (attemptDir a) (DKept (mkRetained a (onDisk (EncodeResult result)) now)) |>
    <| g_running ::= delete (attemptDir a) |> <| g_active ::= Z.pred |>.

(** ** Nothing finished is lost *)

(** Why a retained result may go: it is a day old, or the scheduler took it or said that
    the attempt is no longer this worker's. *)
Definition discharged {S} (putLog : Attempt -> S -> LogReply * S) (postResult : string -> string -> Result -> S -> Reply * S)
    (logSize : string -> string + Z) (now : Z) (r : retainedResult) : Prop :=
  86400000000000 < now - rt_At r \/
  exists s : S,
    fst (uploadLog putLog logSize (rt_Attempt r) (rt_Result r) s) = inl FGone \/
    exists result s', uploadLog putLog logSize (rt_Attempt r) (rt_Result r) s = (inr result, s') /\
      (fst (postResult (a_ID (rt_Attempt r)) (a_Token (rt_Attempt r)) result s') = ROk \/
       fst (postResult (a_ID (rt_Attempt r)) (a_Token (rt_Attempt r)) result s') = RStale).

Lemma uploadLog_stays {S} putLog logSize a r (s s' : S) : uploadLog putLog logSize a r s <> (inl FStays, s').
Proof.
  unfold uploadLog. destruct (String.eqb _ _); [done|]. destruct (logSize _); [done|]. destruct (_ <? _); [done|].
  by destruct (putLog a s) as [[] ?].
Qed.

Lemma flushOne_gone {S} putLog postResult logSize removeDir now name r (s s' : S) :
  flushOne putLog postResult logSize removeDir now name (DKept r) s = (FGone, s') -> discharged putLog postResult logSize now r.
Proof.
  unfold flushOne. destruct (negb (safeAttempt _)); [done|]. destruct (Z.ltb_spec 86400000000000 (now - rt_At r)) as [H|_]; [intros _; by left|].
  destruct (uploadLog putLog logSize (rt_Attempt r) (rt_Result r) s) as [[[]|result] s1] eqn:E; [| |done|].
  - intros _. right. exists s. left. by rewrite E.
  - by apply uploadLog_stays in E.
  - destruct (postResult _ _ result s1) as [[] s2] eqn:Ep; [..|done].
    all: intros _; right; exists s; right; exists result, s1; rewrite Ep; auto.
Qed.

Lemma flush_keeps {S} putLog postResult logSize removeDir now dirs (s : S) name r :
  (name, DKept r) ∈ dirs ->
  (name, DKept r) ∈ snd (fst (flush putLog postResult logSize removeDir now dirs s)) \/ discharged putLog postResult logSize now r.
Proof.
  revert s. induction dirs as [|[n e] dirs IH]; intros s Hin; [by apply elem_of_nil in Hin|]. cbn [flush].
  destruct (flushOne _ _ _ _ now n e s) as [[| |err] s1] eqn:E.
  - apply elem_of_cons in Hin as [[= <- <-]|Hin]; [right; by eapply flushOne_gone|by apply IH].
  - specialize (IH s1). destruct (flush _ _ _ _ now dirs s1) as [[err dirs'] s2]. cbn [fst snd] in *.
    apply elem_of_cons in Hin as [[= <- <-]|Hin]; [left; by left|]. destruct (IH Hin); [left; by right|by right].
  - by left.
Qed.

Lemma mkdir_elem name d dirs : d ∈ dirs -> d ∈ mkdir name dirs.
Proof.
  intros Hd. unfold mkdir. destruct (existsb _ _) eqn:E; [done|]. unfold setDir. rewrite sort_by_Permutation. right.
  apply list_elem_of_In, filter_In. split; [by apply list_elem_of_In|]. apply negb_true_iff. destruct (String.eqb _ _) eqn:E'; [|done].
  exfalso. assert (existsb (fun d => String.eqb (fst d) name) dirs = true) by (apply existsb_exists; exists d; split; [by apply list_elem_of_In|done]).
  congruence.
Qed.

(** A finished command's result is not lost. Whatever the scheduler, the network and
    the disk do, a result on disk is still there after a turn of the agent's
    loop unless it is more than a day old, or the scheduler acknowledged it, or answered that
    the attempt is stale; a turn never takes on more executions than the worker has
    slots; and an agent that could not upload something claims nothing. *)
Theorem retained_result_survives {S} putLog postResult logSize removeDir (claim : Worker -> S -> option Attempt * S) now g s alive g' s' :
  turn putLog postResult logSize removeDir claim now g s = (alive, g', s') ->
  (forall name r, (name, DKept r) ∈ g_dirs g -> (name, DKept r) ∈ g_dirs g' \/ discharged putLog postResult logSize now r) /\
  (g_active g <= Slots (k_Capacity (g_Worker g)) -> g_active g' <= Slots (k_Capacity (g_Worker g'))) /\
  (isSome (fst (fst (flush putLog postResult logSize removeDir now (g_dirs g) s))) = true -> g_active g' = g_active g /\ g_running g' = g_running g).
Proof.
  unfold turn. intros H. pose proof (fun name r => flush_keeps putLog postResult logSize removeDir now (g_dirs g) s name r) as Hk.
  destruct (flush _ _ _ _ now (g_dirs g) s) as [[err dirs] s1]. cbn [fst snd] in *.
  destruct (negb (isSome err) && _) eqn:E; [|by injection H as <- <- <-].
  apply andb_true_iff in E as [E1 E2%Z.ltb_lt]. apply negb_true_iff in E1. rewrite E1.
  destruct (claim _ s1) as [[a|] s2]; [|by injection H as <- <- <-]. unfold takeOn in H. destruct (negb (safeAttempt a)); injection H as <- <- <-; [done|].
  split_and!; [|cbn in *; lia|done]. intros name r Hin. destruct (Hk name r Hin) as [?|?]; [left|by right]. by apply mkdir_elem.
Qed.

(** ** Agent and scheduler together *)

Lemma val_byte_len (l : list Z) : length (map val_byte l) = length l.
Proof. apply length_map. Qed.

Lemma encode_rune_len r t b :
  decode_rune b = Some (r, t) -> (length b <= length (encode_rune r) + length t)%nat /\
  ((length t = length b - 1)%nat -> r = runeError -> (length b + 2 <= length (encode_rune r) + length t)%nat).
Proof.
  assert (length (encode_rune runeError) = 3%nat) as He by done.
  destruct b as [|a0 b]; [done|]. unfold decode_rune. intros H. cbn [length].
  destruct (byte_val a0 <? 128) eqn:E0; [injection H as <- <-; cbn [length]; unfold encode_rune; rewrite E0; cbn; apply Z.ltb_lt in E0; unfold runeError; split; lia|].
  destruct ((194 <=? byte_val a0) && (byte_val a0 <=? 223)) eqn:E1.
  { destruct b as [|b1 t']; [injection H as <- <-; rewrite He; cbn; lia|]. destruct (cont b1) eqn:C1; [|injection H as <- <-; rewrite He; cbn; lia].
    injection H as <- <-. unfold cont in C1. unfold encode_rune.
    assert (128 <= (byte_val a0 - 192) * 64 + (byte_val b1 - 128) < 2048) as Hr by lia.
    rewrite (proj2 (Z.ltb_ge _ _)) by lia. rewrite (proj2 (Z.ltb_lt _ 2048)) by lia. cbn. split; lia. }
  destruct ((224 <=? byte_val a0) && (byte_val a0 <=? 239)) eqn:E2.
  { destruct b as [|b1 [|b2 t']]; [injection H as <- <-; rewrite He; cbn; lia..|].
    match type of H with (if ?c then _ else _) = _ => destruct c eqn:C1 end; [|injection H as <- <-; rewrite He; cbn; lia].
    injection H as <- <-. unfold cont in C1. unfold encode_rune.
    assert (2048 <= (byte_val a0 - 224) * 4096 + (byte_val b1 - 128) * 64 + (byte_val b2 - 128) < 65536) as Hr
      by (destruct (Z.eqb_spec (byte_val a0) 224), (Z.eqb_spec (byte_val a0) 237); lia).
    rewrite (proj2 (Z.ltb_ge _ 128)) by lia. rewrite (proj2 (Z.ltb_ge _ 2048)) by lia. rewrite (proj2 (Z.ltb_lt _ 65536)) by lia. cbn. split; lia. }
  destruct ((240 <=? byte_val a0) && (byte_val a0 <=? 244)) eqn:E3; [|injection H as <- <-; rewrite He; cbn; lia].
  destruct b as [|b1 [|b2 [|b3 t']]]; [injection H as <- <-; rewrite He; cbn; lia..|].
  match type of H with (if ?c then _ else _) = _ => destruct c eqn:C1 end; [|injection H as <- <-; rewrite He; cbn; lia].
  injection H as <- <-. unfold cont in C1. unfold encode_rune.
  assert (65536 <= (byte_val a0 - 240) * 262144 + (byte_val b1 - 128) * 4096 + (byte_val b2 - 128) * 64 + (byte_val b3 - 128)) as Hr
    by (destruct (Z.eqb_spec (byte_val a0) 240), (Z.eqb_spec (byte_val a0) 244); lia).
  rewrite (proj2 (Z.ltb_ge _ 128)) by lia. rewrite (proj2 (Z.ltb_ge _ 2048)) by lia. rewrite (proj2 (Z.ltb_ge _ 65536)) by lia. cbn. split; lia.
Qed.

Lemma concat_runes_len n b : (length b <= n)%nat -> (length b <= length (concat (map encode_rune (runes_fuel n b))))%nat.
Proof.
  revert b. induction n as [|n IH]; intros b Hn; [destruct b; cbn in *; lia|]. cbn [runes_fuel].
  destruct (decode_rune b) as [[r t]|] eqn:D; [|destruct b; [cbn; lia|cbn in D; exfalso]].
  - cbn. rewrite length_app. destruct (encode_rune_len r t b D) as [H _]. apply decode_rune_shorter in D. specialize (IH t ltac:(lia)). lia.
  - revert D. repeat case_match; done.
Qed.

Lemma strlen_bytes s : strlen s = Z.of_nat (length (to_bytes s)).
Proof. unfold strlen. by rewrite length_to_bytes. Qed.

Lemma jsonString_len s : strlen s <= strlen (jsonString s).
Proof.
  rewrite !strlen_bytes. unfold jsonString, runes. rewrite to_of_bytes. rewrite <- length_to_bytes.
  pose proof (concat_runes_len (length (to_bytes s)) (to_bytes s) ltac:(lia)). lia.
Qed.

(** A string that begins inside a character grows by two bytes. *)
Lemma jsonString_cut_len s a rest : to_bytes s = a :: rest -> cont a = true -> strlen s + 2 <= strlen (jsonString s).
Proof.
  intros E Hc. rewrite !strlen_bytes. unfold jsonString, runes. rewrite to_of_bytes. rewrite <- length_to_bytes, E. cbn [length runes_fuel].
  assert (decode_rune (a :: rest) = Some (runeError, rest)) as D.
  { unfold cont in Hc. apply andb_true_iff in Hc as [H1%Z.leb_le H2%Z.leb_le]. unfold decode_rune.
    rewrite (proj2 (Z.ltb_ge _ 128)) by lia. rewrite (proj2 (Z.leb_gt 194 _)), (proj2 (Z.leb_gt 224 _)), (proj2 (Z.leb_gt 240 _)) by lia. done. }
  rewrite D. cbn [map concat]. rewrite length_app. change (length (encode_rune runeError)) with 3%nat.
  pose proof (concat_runes_len (length rest) rest ltac:(lia)). lia.
Qed.

Section Together.
Context (LogDir : string) (join : list string -> string) (digestOf : string -> option (option string))
        (assemble : list string -> string -> option string).

(** src/internal/workers/client.go:37-45 [request] How the worker reads a status code. *)
Definition reply (code : Z) : Reply :=
  if (code <? 200) || (300 <=? code) then
    if code =? 409 then RStale else RErr ("worker endpoint returned HTTP " +:+ pretty code)
  else ROk.

(** src/internal/workers/client.go:47-61 [post] A result crosses the wire as JSON and
    reaches the scheduler's handler. *)
Definition wirePost (id token : string) (result : Result) (b : Broker) : Reply * Broker :=
  let '(code, b) := complete LogDir join digestOf assemble id (Some (token, storedResult result)) b in
  (reply code, b).

Lemma authorized_run b row :
  rowsOK (b_jobs b) -> b_faults b = [] -> row ∈ b_jobs b -> w_state row = Leased ->
  authorized (w_id row) (w_token row) b = (inr (mkAttempt (w_id row) (w_token row) (w_worker row) 0 0 (w_job row) (w_needs row)), b).
Proof.
  intros (Hnd & Hrows & _) Hf Hr Hl. destruct (Hrows row Hr) as (_ & _ & Htok & _).
  assert (w_token row <> "") as Hne by (apply Htok; by left).
  unfold authorized. rewrite (bind_run _ _ _ _ _ (query_run _ _ Hf)). unfold lookupJob. rewrite (find_unique _ row) by done.
  rewrite (proj2 (String.eqb_neq _ _) Hne), String.eqb_refl. assert (isState Leased row = true) as -> by (by apply isState_true). done.
Qed.

Lemma captured_tail chunks pre tail :
  concat chunks = pre ++ tail -> len tail = outputCap -> to_bytes (captured chunks) = tail.
Proof.
  intros E Hl. unfold len in Hl. unfold captured, tail_String. rewrite to_of_bytes.
  assert (outputCap = Z.of_nat (length tail)) as -> by (by symmetry).
  assert (0 < length tail)%nat as Hpos by (unfold outputCap in Hl; lia).
  pose proof (tail_buffer_exact (length tail) chunks [] Hpos) as H. rewrite drop_nil, app_nil_l in H. rewrite H, E.
  rewrite length_app. replace (length pre + length tail - length tail)%nat with (length pre) by lia. apply drop_app_length.
Qed.

(** C20. A character cut in two stops a worker. In every reachable state where the database
    answers: a check wrote at least 64 KiB, the last 64 KiB begin inside a UTF-8 character,
    and the agent holds its result, less than a day old, for an attempt that is still
    leased to it, its log uploaded if it has one. JSON replaces the broken byte by three, the
    handler then finds the output over its bound and answers 400, which is
    neither an acknowledgement nor stale: a turn of the agent's loop changes nothing, the
    result is not delivered and no work is claimed, and so on every turn until the
    result is a day old, although the attempt would still take any result within bounds. *)
Theorem cut_output_blocks_worker key b iss row a c at_ now name rest g putLog logSize removeDir claim chunks pre first tail result :
  reachable key (b, iss) -> b_faults b = [] -> row ∈ b_jobs b -> w_state row = Leased ->
  a_ID a = w_id row -> a_Token a = w_token row -> safeAttempt a = true -> now - at_ <= 86400000000000 ->
  r_Output c = captured chunks -> concat chunks = pre ++ first :: tail -> len (first :: tail) = outputCap -> cont first = true ->
  g_dirs g = (name, DKept (mkRetained a (onDisk (EncodeResult c)) at_)) :: rest ->
  uploadLog putLog logSize a (onDisk (EncodeResult c)) b = (inr result, b) ->
  r_Output (Check_ result) = r_Output (Check_ (onDisk (EncodeResult c))) ->
  turn putLog wirePost logSize removeDir claim now g b = (true, g, b) /\
  (forall given, r_Err (Check_ given) = None -> refused row given = None -> w_parent row = "" ->
     exists b', Complete (a_ID a) (a_Token a) given b = (inr tt, b')).
Proof.
  intros Hreach Hf Hr Hl Hid Htok Hsafe Hage Hout Hcut Hlen Hcont Hdirs Hlog Hsame.
  pose proof (reachable_ok _ _ Hreach) as (Hok & _). cbn [fst] in Hok. split.
  2: { intros given He Href Hp. rewrite Hid, Htok. destruct (Complete_run b row given None given Hok Hf Hr Hl He Href) as (b' & H & _); [|done|by exists b'].
       unfold predecessor. by rewrite Hp. }
  assert (65536 < strlen (r_Output (Check_ (storedResult result)))) as Hbig.
  { change (r_Output (Check_ (storedResult result))) with (jsonString (r_Output (Check_ result))). rewrite Hsame.
    assert (r_Output (Check_ (onDisk (EncodeResult c))) = jsonString (captured chunks)) as ->.
    { rewrite <- Hout. unfold onDisk, EncodeResult. by destruct (r_Err c). }
    pose proof (captured_tail _ _ _ Hcut Hlen) as Hb. pose proof (jsonString_cut_len _ _ _ Hb Hcont).
    pose proof (jsonString_len (jsonString (captured chunks))). rewrite (strlen_bytes (captured chunks)), Hb in *. unfold len, outputCap in Hlen. lia. }
  assert (wirePost (a_ID a) (a_Token a) result b = (RErr "worker endpoint returned HTTP 400", b)) as Hpost.
  { unfold wirePost, complete. rewrite Hid, Htok, (authorized_run b row) by done.
    match goal with |- context [claimed ?x ?r] => assert (invalidExecution (claimed x r) = true) as -> end; [|done].
    unfold invalidExecution. apply orb_true_iff. left. apply Z.ltb_lt. exact Hbig. }
  assert (flush putLog wirePost logSize removeDir now (g_dirs g) b = (Some "worker endpoint returned HTTP 400", g_dirs g, b)) as Hflush.
  { rewrite Hdirs. cbn [flush]. unfold flushOne. cbn [rt_Attempt rt_Result rt_At]. rewrite Hsafe. cbn [negb].
    rewrite (proj2 (Z.ltb_ge _ _)) by lia. by rewrite Hlog, Hpost. }
  unfold turn. rewrite Hflush. cbn [isSome negb andb]. by destruct g.
Qed.

(** A log the scheduler cannot read back answers 409 as well, which the worker reads
    as stale: it drops the only copy of a result whose attempt is still leased. *)
Lemma unreadable_log_drops_result key b iss row a r at_ now name removeDir putLog logSize result :
  reachable key (b, iss) -> b_faults b = [] -> row ∈ b_jobs b -> w_state row = Leased ->
  a_ID a = w_id row -> a_Token a = w_token row -> safeAttempt a = true -> now - at_ <= 86400000000000 ->
  uploadLog putLog logSize a r b = (inr result, b) -> strlen (LogDigest result) = 64 ->
  let x := claimed (mkAttempt (w_id row) (w_token row) (w_worker row) 0 0 (w_job row) (w_needs row)) (storedResult result) in
  invalidExecution x = false -> lacksTests (w_job row) x = false ->
  digestOf (logPath LogDir join (mkAttempt (w_id row) (w_token row) (w_worker row) 0 0 (w_job row) (w_needs row))) = Some None ->
  removeDir name = None ->
  flushOne putLog wirePost logSize removeDir now name (DKept (mkRetained a r at_)) b = (FGone, b).
Proof.
  intros Hreach Hf Hr Hl Hid Htok Hsafe Hage Hlog Hdig x Hinv Htests Hread Hrm.
  pose proof (reachable_ok _ _ Hreach) as (Hok & _). cbn [fst] in Hok.
  assert (wirePost (a_ID a) (a_Token a) result b = (RStale, b)) as Hpost.
  { unfold wirePost, complete. rewrite Hid, Htok, (authorized_run b row) by done. cbv zeta. fold x. rewrite Hinv.
    cbn [a_Job]. rewrite Htests. unfold checkLog. change (LogDigest x) with (LogDigest result).
    assert (String.eqb (LogDigest result) "" = false) as -> by (apply String.eqb_neq; intros E; rewrite E in Hdig; done).
    rewrite Hdig, Hread. done. }
  unfold flushOne. cbn [rt_Attempt rt_Result rt_At]. rewrite Hsafe. cbn [negb]. rewrite (proj2 (Z.ltb_ge _ _)) by lia.
  by rewrite Hlog, Hpost, Hrm.
Qed.
End Together.

(** ** Witnesses *)

Fixpoint times (n : nat) (s : string) : string := match n with O => "" | S n => s +:+ times n s end.
Definition hexID : string := times 64 "a".
Definition hexToken : string := times 48 "b".
Definition hexKey (_ _ : string) (_ _ : list string) : string := hexID.
Definition hex1 : Broker := run hexKey demoSubmit demo0.
Definition hex2 : Broker := snd (Claim (1001 * demoSec) hexToken (demoWorker "w1" "s1") hex1).
Definition hexAttempt : Attempt := demoAttempt (fst (Claim (1001 * demoSec) hexToken (demoWorker "w1" "s1") hex1)).
Definition hexRow : Row := default demoRow (head (b_jobs hex2)).

Lemma hex2_reachable : reachable hexKey (hex2, {[hexToken]} ∪ ∅).
Proof.
  assert (reachable hexKey (hex1, ∅)) as H.
  { exists demo0, (60 * demoSec), (120 * demoSec), (1000 * demoSec), "epoch1". split; [vm_compute; reflexivity|].
    apply rtc_once. exact (bs_call hexKey demo0 ∅ demoSubmit demo_typed). }
  apply (reachable_step _ _ _ H). apply bs_claim; [discriminate|apply not_elem_of_empty|apply demoWorker_typed].
Qed.

(** A euro sign, then 65534 newlines: the last 65536 bytes begin at its second byte. *)
Definition demoChunks : list bytes := [map val_byte [226; 130; 172]; repeat newline (Z.to_nat 65534)].
Definition demoOutput : CheckResult := zeroCheckResult <| r_Status := CheckPassed |> <| r_Output := captured demoChunks |>.
Definition demoKept : retainedResult := mkRetained hexAttempt (onDisk (EncodeResult demoOutput)) (1100 * demoSec).
Definition demoAgent : Agent := mkAgent (demoWorker "w1" "s1") ∅ 0 [(attemptDir hexAttempt, DKept demoKept)].
Definition noLog {S} (_ : Attempt) (s : S) : LogReply * S := (LErr "", s).
Definition noSize (_ : string) : string + Z := inl "".
Definition noRemove (_ : string) : option string := None.
Definition noClaim {S} (_ : Worker) (s : S) : option Attempt * S := (None, s).

Lemma cut_output_blocks_worker_witness :
  turn noLog (wirePost "logs" (String.concat "/") (fun _ => None) (fun _ _ => None)) noSize noRemove noClaim (1101 * demoSec) demoAgent hex2
    = (true, demoAgent, hex2).
Proof.
  assert (hexRow ∈ b_jobs hex2) as Hin by (apply list_elem_of_lookup_2 with 0%nat; vm_compute; reflexivity).
  refine (proj1 (cut_output_blocks_worker "logs" (String.concat "/") (fun _ => None) (fun _ _ => None) hexKey hex2 ({[hexToken]} ∪ ∅) hexRow
    hexAttempt demoOutput (1100 * demoSec) (1101 * demoSec) (attemptDir hexAttempt) [] demoAgent noLog noSize noRemove noClaim demoChunks
    [val_byte 226] (val_byte 130) (val_byte 172 :: repeat newline (Z.to_nat 65534)) (onDisk (EncodeResult demoOutput)) hex2_reachable _ Hin _ _ _ _ _ _ _ _ _ _ _ _));
    first [reflexivity|vm_compute; reflexivity|unfold demoSec; lia].
Defined.

(** A scheduler that cannot be reached leaves the result where it is. *)
Definition smallKept : retainedResult := mkRetained hexAttempt demoPassed (1100 * demoSec).
Definition smallAgent : Agent := mkAgent (demoWorker "w1" "s1") ∅ 0 [(attemptDir hexAttempt, DKept smallKept)].
Definition down (_ _ : string) (_ : Result) (s : unit) : Reply * unit := (RErr "connection refused", s).

Lemma retained_result_survives_witness :
  turn noLog down noSize noRemove noClaim (1101 * demoSec) smallAgent tt = (true, smallAgent, tt) /\
  (attemptDir hexAttempt, DKept smallKept) ∈ g_dirs smallAgent.
Proof.
  assert (turn noLog down noSize noRemove noClaim (1101 * demoSec) smallAgent tt = (true, smallAgent, tt)) as E by (vm_compute; reflexivity).
  split; [exact E|]. destruct (retained_result_survives _ _ _ _ _ _ _ _ _ _ _ E) as (H & _ & _).
  destruct (H (attemptDir hexAttempt) smallKept) as [Hin|Hd]; [apply elem_of_cons; left; reflexivity|exact Hin|].
  exfalso. destruct Hd as [Hd|([] & [Hd|(result & s' & _ & [Hd|Hd])])]; [|discriminate Hd..].
  unfold smallKept, demoSec in Hd. cbn [rt_At] in Hd. lia.
Defined.
