(* ===== verification/Executor.v ===== *)
(** The executors (src/internal/executor): local processes (local.go), containers
    (container.go), test reports around a command (tests.go) and the choice of a
    profile (mux.go). What the operating system and the container runtime answer is
    the record [Host]; what is started is a list of launches. *)
From stdpp Require Import gmap strings.
From Stdlib Require Import Ascii.
From S2P Require Import Prelude GoString Core Wire TestReport TestParse Broker WorkerServer BrokerSpec Agent DaemonConfig.

Open Scope string_scope.
Open Scope list_scope.
Open Scope Z_scope.

(** ** The environment of a check *)

(** src/internal/core/types.go:240-240 [EnvBaseSHA] *)
Definition EnvBaseSHA := "GAUNTLET_BASE_SHA".
(** src/internal/core/types.go:243-243 [EnvMergeSHA] *)
Definition EnvMergeSHA := "GAUNTLET_MERGE_SHA".
(** src/internal/core/types.go:247-247 [EnvCandidateSHA] *)
Definition EnvCandidateSHA := "GAUNTLET_CANDIDATE_SHA".
(** src/internal/core/types.go:250-250 [EnvRef] *)
Definition EnvRef := "GAUNTLET_REF".
(** src/internal/core/types.go:257-257 [EnvResultFile] *)
Definition EnvResultFile := "GAUNTLET_RESULT_FILE".
(** src/internal/core/types.go:258-258 [EnvInputsResultFile] *)
Definition EnvInputsResultFile := "GAUNTLET_INPUTS_RESULT_FILE".
(** src/internal/core/types.go:259-259 [EnvTestResultsFile] *)
Definition EnvTestResultsFile := "GAUNTLET_TEST_RESULTS_FILE".
(** src/internal/core/types.go:260-260 [EnvRetryTestsFile] *)
Definition EnvRetryTestsFile := "GAUNTLET_RETRY_TESTS_FILE".
(** src/internal/core/types.go:264-264 [EnvRunID] *)
Definition EnvRunID := "GAUNTLET_RUN_ID".
(** src/internal/core/types.go:269-269 [EnvImageResultFile] *)
Definition EnvImageResultFile := "GAUNTLET_IMAGE_RESULT_FILE".
(** src/internal/core/types.go:274-274 [EnvReceiptResultFile] *)
Definition EnvReceiptResultFile := "GAUNTLET_RECEIPT_RESULT_FILE".
(** src/internal/core/types.go:279-279 [EnvGitDir] *)
Definition EnvGitDir := "GAUNTLET_GIT_DIR".
(** src/internal/core/types.go:284-284 [EnvDeployEnv] *)
Definition EnvDeployEnv := "GAUNTLET_DEPLOY_ENV".
(** src/internal/core/types.go:287-287 [EnvDeployNode] *)
Definition EnvDeployNode := "GAUNTLET_DEPLOY_NODE".
(** src/internal/core/types.go:290-290 [EnvDeploySHA] *)
Definition EnvDeploySHA := "GAUNTLET_DEPLOY_SHA".
(** src/internal/core/types.go:295-295 [EnvDeployedSHA] *)
Definition EnvDeployedSHA := "GAUNTLET_DEPLOYED_SHA".

(** src/internal/core/types.go:106-133 [CheckJob] The fields of a job that only an executor reads. *)
Record Placement := mkPlacement {
  p_Dir : string;
  p_LogPath : string;
  p_ServiceEnv : list string;
  p_Networks : list string;
}.

(** [NAME=VALUE] *)
Definition assign (name value : string) : string := name +:+ "=" +:+ value.

(** ** The host *)

(** What [exec.Cmd.Run] can end with, other than success: the command's exit status;
    [exec.ErrWaitDelay], when the command exited 0 but its output was still held open
    five seconds later; anything else, such as a command that could not be started. *)
Inductive RunError :=
  | ExitError (code : Z)
  | ErrWaitDelay
  | OtherError (msg : string).

Definition errorText (e : RunError) : string :=
  match e with
  | ExitError code => "exit status " +:+ pretty code
  | ErrWaitDelay => "exec: WaitDelay expired before I/O complete"
  | OtherError msg => msg
  end.

(** The answers of the host to one check, in the order they are asked for. *)
Record Host := mkHost {
  h_CtxStart : option string;              (* ctx.Err() before anything *)
  h_LookPath : option string;              (* the runtime's binary, when missing *)
  h_Probe : option (string * string);      (* the probe's error and output, when it fails *)
  h_TempDir : string;
  h_MkdirTemp : option string;
  h_WriteResult : option string;
  h_WriteReport : option string;
  h_WriteRetry : option string;
  h_LogOpens : bool;
  h_Output : list bytes;                   (* what the command writes, write by write *)
  h_Run : option RunError;
  h_Killed : bool;                         (* the context ended while it ran *)
  h_CtxEnd : option string;                (* ctx.Err() after the command *)
  h_Diag : string * option string;         (* the diagnostic listing *)
  h_Result : option string;                (* what the result file holds, if it can be read *)
  h_Report : option string;                (* the test report, likewise *)
  h_Elapsed : Z;                           (* time.Since(start) before the command was run *)
  h_Duration : Z;
  h_Usage : option (Z * Z * Z);            (* Maxrss in KiB and the processor times, if a process was waited for *)
}.

(** A command that is started; without an environment of its own it inherits the daemon's. *)
Record Launch := mkLaunch { ln_Args : list string; ln_Dir : string; ln_Env : option (list string) }.

(** ** Results in files *)

(** [io.ReadAll(io.LimitReader(f, n))] *)
Definition firstBytes (n : Z) (s : string) : string :=
  if n <=? 0 then "" else if strlen s <=? n then s else String.substring 0 (Z.to_nat n) s.

(** src/internal/executor/local.go:358-358 [maxImageResultBytes] *)
Definition maxImageResultBytes : Z := 4096.

(** src/internal/executor/local.go:363-374 [readImageResult] *)
Definition readImageResult (file : option string) : string :=
  match file with
  | None => ""
  | Some data => TrimSpace (firstBytes maxImageResultBytes data)
  end.

(** src/internal/executor/local.go:403-403 [maxReceiptResultBytesFallback] *)
Definition maxReceiptResultBytesFallback : Z := 1048576.

(** src/internal/executor/local.go:417-435 [readReceiptResult] *)
Definition readReceiptResult (file : option string) (maxBytes : Z) : option string :=
  match file with
  | None => None
  | Some data =>
      let bound := if maxBytes <=? 0 then maxReceiptResultBytesFallback else maxBytes in
      Some (firstBytes (wrap64 (bound + 1)) data)
  end.

(** src/internal/executor/local.go:381-392 [resultFileEnv] *)
Definition resultFileEnv (job : CheckJob) : string :=
  if j_InputsCapture job then EnvInputsResultFile
  else if j_ImageBuild job then EnvImageResultFile
  else if j_ReceiptCapture job then EnvReceiptResultFile
  else EnvResultFile.

(** src/internal/executor/rusage.go:35-44 [captureRusage] *)
Definition captureRusage (ps : option (Z * Z * Z)) : Z * Z * Z :=
  match ps with
  | None => (0, 0, 0)
  | Some (maxrss, user, sys) => (wrap64 (maxrss * 1024), user, sys)
  end.

(** A line break before a note. *)
Definition onNewLine (s : string) : string := String newline s.

Section Executors.
Context (newJSON : string -> JSONDecoder) (newXML : string -> Decoder).

(** ** Test reports *)

(** src/internal/executor/tests.go:31-46 [prepareTestFiles] The closure [capture]. *)
Definition capture (job : CheckJob) (h : Host) (res : CheckResult) : CheckResult :=
  match r_Err res with
  | Some _ => res
  | None =>
      match Parse newJSON newXML (j_TestResults job) (default "" (readReceiptResult (h_Report h) MaxBytes)) with
      | inl err => res <| r_Status := CheckFailed |> <| r_Output ::= fun o => o +:+ onNewLine ("gauntlet: " +:+ err) |>
      | inr tests =>
          let res := res <| r_Tests := tests |> in
          match Failed tests with [] => res | _ => res <| r_Status := CheckFailed |> end
      end
  end.

(** src/internal/executor/tests.go:13-48 [prepareTestFiles] *)
Definition prepareTestFiles (job : CheckJob) (visible : string) (h : Host) : string + (list string * (CheckResult -> CheckResult)) :=
  if String.eqb (j_TestResults job) "" then inr ([], id)
  else
    match h_WriteReport h with
    | Some err => inl err
    | None =>
        let env := [assign EnvTestResultsFile (Join visible "test-results"); assign EnvRetryTestsFile ""] in
        match j_RetryTests job with
        | [] => inr (env, capture job h)
        | _ =>
            match h_WriteRetry h with
            | Some err => inl err
            | None => inr (env ++ [assign EnvRetryTestsFile (Join visible "retry-tests")], capture job h)
            end
        end
    end.

(** src/internal/executor/tests.go:50-52 [testFilesError] *)
Definition testFilesError (name err : string) : CheckResult :=
  zeroCheckResult <| r_Name := name |> <| r_Err := Some ("executor: prepare test report: " +:+ err) |>.

(** ** Local processes *)

(** src/internal/executor/local.go:27-86 [LocalExecutor] *)
Record LocalExecutor := mkLocalExecutor {
  le_BaseDir : string;
  le_GitDir : string;
  le_Env : list string;
  le_SecretEnv : list string;
}.

(** The part of an entry before its first [=]. *)
Definition entryName (kv : string) : string :=
  match cut_at (ascii_of_nat 61) (to_bytes kv) with Some (name, _) => of_bytes name | None => kv end.

(** src/internal/executor/local.go:94-111 [filterSecretEnv] *)
Definition filterSecretEnv (env secret : list string) : list string :=
  match secret with
  | [] => env
  | _ => List.filter (fun kv => negb (memb (entryName kv) secret)) env
  end.

(** src/internal/executor/local.go:174-181 [RunCheck] The coordinates of a deployment. *)
Definition deployEnv (job : CheckJob) : list string :=
  if String.eqb (j_DeployEnv job) "" then []
  else [assign EnvDeployEnv (j_DeployEnv job); assign EnvDeployNode (j_DeployNode job);
        assign EnvDeploySHA (j_MergeSHA job); assign EnvDeployedSHA (j_DeployedSHA job)].

(** src/internal/executor/local.go:150-186 [RunCheck] *)
Definition localEnv (e : LocalExecutor) (environ : list string) (job : CheckJob) (pl : Placement) (testEnv : list string) (resultFile : string) : list string :=
  let base := if j_OperatorOwned job then environ else filterSecretEnv environ (le_SecretEnv e) in
  base ++ le_Env e ++ testEnv ++
  [assign EnvBaseSHA (j_BaseSHA job); assign EnvMergeSHA (j_MergeSHA job); assign EnvCandidateSHA (c_SHA (j_Candidate job));
   assign EnvRef (c_Ref (j_Candidate job)); assign (resultFileEnv job) resultFile; assign EnvRunID (j_RunID job)] ++
  (if String.eqb (le_GitDir e) "" then [] else [assign EnvGitDir (le_GitDir e)]) ++
  deployEnv job ++ p_ServiceEnv pl.

(** src/internal/executor/local.go:221-224 [RunCheck] *)
Definition logPath (pl : Placement) (h : Host) : string :=
  if negb (String.eqb (p_LogPath pl) "") && h_LogOpens h then p_LogPath pl else "".

(** src/internal/executor/local.go:238-349 [RunCheck] What the command came to. *)
Definition localResult (job : CheckJob) (pl : Placement) (h : Host) : CheckResult :=
  let out := captured (h_Output h) in
  let '(peakRSS, userCPU, sysCPU) := captureRusage (h_Usage h) in
  let base := zeroCheckResult <| r_Name := j_Name job |> <| r_Output := out |> <| r_LogPath := logPath pl h |>
                <| r_Duration := h_Duration h |> in
  let used r := r <| r_PeakRSS := peakRSS |> <| r_UserCPU := userCPU |> <| r_SysCPU := sysCPU |> in
  match h_CtxEnd h with
  | Some err => used (base <| r_Err := Some err |>)
  | None =>
      match h_Run h with
      | Some (ExitError _) => used (base <| r_Status := CheckFailed |>)
      | Some err =>
          let output := if String.eqb out "" then out else out +:+ onNewLine "" in
          used (base <| r_Status := CheckFailed |> <| r_Output := output +:+ "executor: failed to start command: " +:+ errorText err |>)
      | None =>
          if j_InputsCapture job then
            let key := TrimSpace (default "" (readReceiptResult (h_Result h) 4096)) in
            let res := base <| r_Status := CheckPassed |> <| r_InputsKey := key |> in
            if String.eqb key "" || (4096 <? strlen key) then
              res <| r_Status := CheckFailed |>
                  <| r_Output ::= fun o => o +:+ onNewLine "gauntlet: inputs command must write 1..4096 bytes to GAUNTLET_INPUTS_RESULT_FILE" |>
            else res
          else if j_ImageBuild job then used (base <| r_Status := CheckPassed |> <| r_Image := readImageResult (h_Result h) |>)
          else if j_ReceiptCapture job then
            used (base <| r_Status := CheckPassed |> <| r_Receipt := readReceiptResult (h_Result h) (j_ReceiptMaxBytes job) |>)
          else
            let skipped := match h_Result h with Some data => String.eqb (TrimSpace data) "skipped" | None => false end in
            used (base <| r_Status := if skipped then CheckSkipped else CheckPassed |>)
      end
  end.

(** src/internal/executor/local.go:114-350 [RunCheck] Indexing an empty command is a
    panic. *)
Definition LocalRunCheck (e : LocalExecutor) (environ : list string) (job : CheckJob) (pl : Placement) (h : Host) :
    option (list Launch * CheckResult) :=
  let failed err := Some ([], zeroCheckResult <| r_Name := j_Name job |> <| r_Err := Some err |> <| r_Duration := h_Elapsed h |>) in
  match h_MkdirTemp h with
  | Some err => failed ("executor: create temp dir: " +:+ err)
  | None =>
      let resultFile := Join (h_TempDir h) "result" in
      match h_WriteResult h with
      | Some err => failed ("executor: create result file: " +:+ err)
      | None =>
          match prepareTestFiles job (h_TempDir h) h with
          | inl err => Some ([], testFilesError (j_Name job) err)
          | inr (testEnv, capture) =>
              match j_Command job with
              | [] => None
              | _ => Some ([mkLaunch (j_Command job) (p_Dir pl) (Some (localEnv e environ job pl testEnv resultFile))],
                           capture (localResult job pl h))
              end
          end
      end
  end.

(** ** Containers *)

(** src/internal/executor/container.go:29-29 [containerResultDir] *)
Definition containerResultDir := "/gauntlet".
(** src/internal/executor/container.go:30-30 [containerResultFile] *)
Definition containerResultFile := containerResultDir +:+ "/result".
(** src/internal/executor/container.go:46-46 [containerGitDir] *)
Definition containerGitDir := "/gauntlet-git".

(** src/internal/executor/container.go:51-54 [Cache] *)
Record CacheVolume := mkCacheVolume { cv_Name : string; cv_Path : string }.

(** src/internal/executor/container.go:64-68 [Mount] *)
Record HostMount := mkHostMount { hm_Host : string; hm_Path : string; hm_ReadOnly : bool }.

(** src/internal/executor/container.go:73-151 [Params] *)
Record Params := mkParams {
  pa_Runtime : string;
  pa_Image : string;
  pa_Workdir : string;
  pa_Caches : list CacheVolume;
  pa_Mounts : list HostMount;
  pa_Env : list string;
  pa_AddHosts : list string;
  pa_Memory : string;
  pa_CPUs : string;
  pa_GitDir : string;
  pa_ScratchDir : string;
  pa_Token : string;
}.

#[local] Instance Params_eta : Eta Params := fun p => mkParams (pa_Runtime p) (pa_Image p) (pa_Workdir p) (pa_Caches p)
  (pa_Mounts p) (pa_Env p) (pa_AddHosts p) (pa_Memory p) (pa_CPUs p) (pa_GitDir p) (pa_ScratchDir p) (pa_Token p).

(** src/internal/executor/container.go:157-168 [runtimeSpec] *)
Record runtimeSpec := mkRuntimeSpec { rs_Bin : string; rs_ProbeArgs : list string; rs_ExtraRunArgs : list string }.

(** src/internal/executor/container.go:170-174 [runtimeSpecs] *)
Definition runtimeSpecs (runtime : string) : option runtimeSpec :=
  if String.eqb runtime "docker" then Some (mkRuntimeSpec "docker" ["ps"] [])
  else if String.eqb runtime "podman" then Some (mkRuntimeSpec "podman" ["ps"] [])
  else if String.eqb runtime "container" then Some (mkRuntimeSpec "container" ["system"; "status"] ["--progress"; "none"])
  else None.

(** src/internal/executor/container.go:183-186 [ContainerExecutor] *)
Record ContainerExecutor := mkContainerExecutor { ce_spec : runtimeSpec; ce_params : Params }.

(** src/internal/executor/container.go:191-206 [New] *)
Definition New (params : Params) : string + ContainerExecutor :=
  let params := if String.eqb (pa_Runtime params) "" then params <| pa_Runtime := "container" |> else params in
  match runtimeSpecs (pa_Runtime params) with
  | None => inl ("executor: unknown container runtime " +:+ quoted (pa_Runtime params) +:+ " (want docker, podman, or container)")
  | Some spec =>
      if String.eqb (pa_Image params) "" then inl "executor: container image is required"
      else
        let params := if String.eqb (pa_Workdir params) "" then params <| pa_Workdir := "/workspace" |> else params in
        inr (mkContainerExecutor spec params)
  end.

(** src/internal/executor/container.go:430-434 [runArgs] What follows the binary. *)
Definition runVerb (p : Params) : list string :=
  let runtime := if String.eqb (pa_Runtime p) "" then "container" else pa_Runtime p in
  "run" :: match runtimeSpecs runtime with Some s => rs_ExtraRunArgs s | None => [] end.

Definition envArgs (l : list string) : list string := concat (map (fun kv => ["-e"; kv]) l).

(** src/internal/executor/container.go:464-469 [runArgs] The test report's variables. *)
Definition testArgs (job : CheckJob) : list string :=
  (if String.eqb (j_TestResults job) "" then []
   else ["-e"; assign EnvTestResultsFile (containerResultDir +:+ "/test-results"); "-e"; assign EnvRetryTestsFile ""]) ++
  match j_RetryTests job with [] => [] | _ => ["-e"; assign EnvRetryTestsFile (containerResultDir +:+ "/retry-tests")] end.

(** src/internal/executor/container.go:429-522 [runArgs] *)
Definition runArgs (p : Params) (job : CheckJob) (pl : Placement) (name resultDir : string) : list string :=
  runVerb p ++
  ["--rm"; "--name"; name; "-w"; pa_Workdir p; "-v"; p_Dir pl +:+ ":" +:+ pa_Workdir p; "-v"; resultDir +:+ ":" +:+ containerResultDir] ++
  testArgs job ++
  (if String.eqb (pa_GitDir p) "" then [] else ["-v"; pa_GitDir p +:+ ":" +:+ containerGitDir +:+ ":ro"]) ++
  concat (map (fun ah => ["--add-host"; ah]) (pa_AddHosts p)) ++
  (if String.eqb (pa_Memory p) "" then [] else ["--memory"; pa_Memory p]) ++
  (if String.eqb (pa_CPUs p) "" then [] else ["--cpus"; pa_CPUs p]) ++
  envArgs (pa_Env p) ++
  ["-e"; assign EnvBaseSHA (j_BaseSHA job); "-e"; assign EnvMergeSHA (j_MergeSHA job);
   "-e"; assign EnvCandidateSHA (c_SHA (j_Candidate job)); "-e"; assign EnvRef (c_Ref (j_Candidate job));
   "-e"; assign (resultFileEnv job) containerResultFile; "-e"; assign EnvRunID (j_RunID job)] ++
  testArgs job ++
  (if String.eqb (pa_GitDir p) "" then [] else ["-e"; assign EnvGitDir containerGitDir]) ++
  envArgs (deployEnv job) ++
  concat (map (fun c => ["-v"; cv_Name c +:+ ":" +:+ cv_Path c]) (pa_Caches p)) ++
  concat (map (fun m => ["-v"; hm_Host m +:+ ":" +:+ hm_Path m +:+ (if hm_ReadOnly m then ":ro" else "")]) (pa_Mounts p)) ++
  concat (map (fun n => ["--network"; n]) (p_Networks pl)) ++
  envArgs (p_ServiceEnv pl) ++
  (if String.eqb (j_Image job) "" then pa_Image p else j_Image job) :: j_Command job.

(** src/internal/executor/container.go:529-535 [mountDiagnosis] *)
Inductive mountDiagnosis := diagInconclusive | diagMountEmpty | diagMountHasContent.

(** src/internal/executor/container.go:539-547 [diagnoseMount] *)
Definition diagnoseMount (diagOutput : string) (diagErr : option string) : mountDiagnosis :=
  match diagErr with
  | Some _ => diagInconclusive
  | None => if String.eqb (TrimSpace diagOutput) "" then diagMountEmpty else diagMountHasContent
  end.

(** src/internal/executor/container.go:560-574 [emptyMountDiagArgs] *)
Definition emptyMountDiagArgs (p : Params) (pl : Placement) : list string :=
  runVerb p ++ ["--rm"; "-v"; p_Dir pl +:+ ":" +:+ pa_Workdir p +:+ ":ro"; "--entrypoint"; "/bin/sh"; pa_Image p;
                "-c"; "ls -A " +:+ pa_Workdir p +:+ " | head -1"].

(** src/internal/executor/container.go:581-587 [checkEmptyMount] *)
Definition checkEmptyMount (h : Host) : mountDiagnosis := diagnoseMount (fst (h_Diag h)) (snd (h_Diag h)).

(** src/internal/executor/container.go:595-595 [maxContainerNameLen] *)
Definition maxContainerNameLen : Z := 200.

(** src/internal/executor/container.go:607-617 [containerName] *)
Definition containerName (token runID check : string) : string :=
  let prefix := "gauntlet-" +:+ (if String.eqb token "" then "" else token +:+ "-") in
  let tail := SanitizeName runID +:+ "-" +:+ SanitizeName check in
  let budget := maxContainerNameLen - strlen prefix in
  prefix +:+ (if (0 <? budget) && (budget <? strlen tail) then String.substring 0 (Z.to_nat budget) tail else tail).

(** src/internal/executor/container.go:634-645 [probeRuntime] *)
Definition probeRuntime (spec : runtimeSpec) (h : Host) : list Launch * option string :=
  match h_LookPath h with
  | Some err => ([], Some ("container runtime binary " +:+ quoted (rs_Bin spec) +:+ " not found: " +:+ err))
  | None =>
      ([mkLaunch (rs_Bin spec :: rs_ProbeArgs spec) "" None],
       match h_Probe h with
       | Some (err, out) => Some ("container runtime " +:+ quoted (rs_Bin spec) +:+ " service unreachable: " +:+ err +:+ " (" +:+ TrimSpace out +:+ ")")
       | None => None
       end)
  end.

(** src/internal/executor/container.go:654-660 [ProbeRuntime] *)
Definition ProbeRuntime (runtime : string) (h : Host) : option string :=
  match runtimeSpecs runtime with
  | None => Some ("container runtime: unknown runtime " +:+ quoted runtime)
  | Some spec => snd (probeRuntime spec h)
  end.

(** src/internal/executor/container.go:305-409 [RunCheck] What the command came to, and
    whether the mount is looked at. *)
Definition containerResult (job : CheckJob) (pl : Placement) (h : Host) : bool * CheckResult :=
  let out := captured (h_Output h) in
  let base := zeroCheckResult <| r_Name := j_Name job |> <| r_Output := out |> <| r_LogPath := logPath pl h |>
                <| r_Duration := h_Duration h |> in
  match h_CtxEnd h with
  | Some err => (false, base <| r_Err := Some err |>)
  | None =>
      match h_Run h with
      | Some (ExitError _) =>
          (true,
           match checkEmptyMount h with
           | diagMountEmpty =>
               base <| r_Status := CheckFailed |>
                    <| r_Err := Some ("executor: trial tree mounted empty in the container — the runtime VM likely does not share "
                                        +:+ p_Dir pl +:+ "; see README 'docker-on-macOS footguns'") |>
           | _ => base <| r_Status := CheckFailed |>
           end)
      | Some err =>
          let output := if String.eqb out "" then out else out +:+ onNewLine "" in
          (false, base <| r_Status := CheckFailed |> <| r_Output := output +:+ "executor: failed to start container CLI: " +:+ errorText err |>)
      | None =>
          (false,
           if j_InputsCapture job then
             let key := TrimSpace (default "" (readReceiptResult (h_Result h) 4096)) in
             let res := base <| r_Status := CheckPassed |> <| r_InputsKey := key |> in
             if String.eqb key "" || (4096 <? strlen key) then
               res <| r_Status := CheckFailed |>
                   <| r_Output ::= fun o => o +:+ onNewLine "gauntlet: inputs command must write 1..4096 bytes to GAUNTLET_INPUTS_RESULT_FILE" |>
             else res
           else if j_ImageBuild job then base <| r_Status := CheckPassed |> <| r_Image := readImageResult (h_Result h) |>
           else if j_ReceiptCapture job then
             base <| r_Status := CheckPassed |> <| r_Receipt := readReceiptResult (h_Result h) (j_ReceiptMaxBytes job) |>
           else
             let skipped := match h_Result h with Some data => String.eqb (TrimSpace data) "skipped" | None => false end in
             base <| r_Status := if skipped then CheckSkipped else CheckPassed |>)
      end
  end.

(** src/internal/executor/container.go:209-410 [RunCheck] *)
Definition ContainerRunCheck (c : ContainerExecutor) (job : CheckJob) (pl : Placement) (h : Host) : list Launch * CheckResult :=
  let failed err := zeroCheckResult <| r_Name := j_Name job |> <| r_Err := Some err |> <| r_Duration := h_Elapsed h |> in
  let bin := rs_Bin (ce_spec c) in
  match h_CtxStart h with
  | Some err => ([], failed err)
  | None =>
      let '(probe, unreachable) := probeRuntime (ce_spec c) h in
      match unreachable with
      | Some err => (probe, failed ("executor: " +:+ err))
      | None =>
          match h_MkdirTemp h with
          | Some err => (probe, failed ("executor: create result dir: " +:+ err))
          | None =>
              match h_WriteResult h with
              | Some err => (probe, failed ("executor: create result file: " +:+ err))
              | None =>
                  match prepareTestFiles job containerResultDir h with
                  | inl err => (probe, testFilesError (j_Name job) err)
                  | inr (_, capture) =>
                      let name := containerName (pa_Token (ce_params c)) (j_RunID job) (j_Name job) in
                      let '(diagnosed, res) := containerResult job pl h in
                      (probe ++ [mkLaunch (bin :: runArgs (ce_params c) job pl name (h_TempDir h)) "" None] ++
                       (if h_Killed h then [mkLaunch [bin; "kill"; name] "" None] else []) ++
                       (if diagnosed then [mkLaunch (bin :: emptyMountDiagArgs (ce_params c) pl) "" None] else []),
                       capture res)
                  end
              end
          end
      end
  end.

(** ** Profiles *)

(** The executors a daemon is built from; the remote one is the broker's
    ([WorkerServer]). *)
Inductive Backend := Local (e : LocalExecutor) | Container (c : ContainerExecutor) | Remote.

(** src/internal/executor/mux.go:21-29 [Mux] *)
Record Mux := mkMux { mx_Default : Backend; mx_Named : gmap string Backend }.

(** src/internal/executor/mux.go:33-42 [RunCheck] The executor a job is handed to, or the
    result it gets without one. *)
Definition route (m : Mux) (job : CheckJob) : CheckResult + Backend :=
  if String.eqb (j_Executor job) "" then inr (mx_Default m)
  else
    match mx_Named m !! j_Executor job with
    | None => inl (zeroCheckResult <| r_Name := j_Name job |> <| r_Command := j_Command job |>
                                   <| r_Err := Some ("unknown executor profile " +:+ quoted (j_Executor job)) |>)
    | Some ex => inr ex
    end.

End Executors.
