(* ===== verification/ExecutorSpec.v ===== *)
(** Theorems about the executors: the environment a command gets, what its result
    means, and the names of containers. *)
From stdpp Require Import gmap strings.
From Stdlib Require Import Ascii.
From S2P Require Import Prelude GoString Core Wire TestReport TestParse Broker WorkerServer BrokerSpec Agent DaemonConfig Executor.

Open Scope string_scope.
Open Scope list_scope.
Open Scope Z_scope.

(** ** Environments *)

(** What an entry of an environment sets a variable to. *)
Definition setting (name kv : string) : option string := of_bytes <$> strip_prefix (to_bytes (name +:+ "=")) (to_bytes kv).

(** The value a command sees: of several entries for a name the last one counts
    (os/exec). *)
Definition getenv (name : string) (env : list string) : option string :=
  fold_left (fun v kv => match setting name kv with Some x => Some x | None => v end) env None.

Lemma getenv_fold name env v :
  fold_left (fun v kv => match setting name kv with Some x => Some x | None => v end) env v =
  match getenv name env with Some x => Some x | None => v end.
Proof.
  unfold getenv. revert v. induction env as [|kv env IH]; intros v; cbn [fold_left]; [done|].
  rewrite (IH (match setting name kv with Some x => Some x | None => v end)), (IH (match setting name kv with Some x => Some x | None => None end)).
  destruct (fold_left _ env None), (setting name kv); done.
Qed.

Lemma getenv_app name a b : getenv name (a ++ b) = match getenv name b with Some v => Some v | None => getenv name a end.
Proof. unfold getenv at 1. rewrite fold_left_app. apply getenv_fold. Qed.

Lemma getenv_cons name kv env : getenv name (kv :: env) = match getenv name env with Some v => Some v | None => setting name kv end.
Proof. change (kv :: env) with ([kv] ++ env). rewrite getenv_app. cbn. by destruct (setting name kv). Qed.

Lemma getenv_None name env : Forall (fun kv => setting name kv = None) env -> getenv name env = None.
Proof. induction 1 as [|kv env H _ IH]; [done|]. by rewrite getenv_cons, IH. Qed.

Lemma setting_assign name v : setting name (assign name v) = Some v.
Proof.
  unfold setting, assign. assert (to_bytes (name +:+ "=" +:+ v) = to_bytes (name +:+ "=") ++ to_bytes v) as ->.
  { by rewrite !to_bytes_app, <- app_assoc. }
  rewrite (proj2 (strip_prefix_spec _ _ (to_bytes v))) by done. cbn. by rewrite of_to_bytes.
Qed.

(** A name as the operating system knows it. *)
Definition plainName (name : string) : Prop := ascii_of_nat 61 ∉ to_bytes name.

Lemma setting_entryName name kv v : plainName name -> setting name kv = Some v -> entryName kv = name.
Proof.
  intros Hn. unfold setting, entryName. destruct (strip_prefix _ _) as [r|] eqn:E; [|done]. intros _.
  apply strip_prefix_spec in E. rewrite E, to_bytes_app, <- app_assoc.
  change (to_bytes "=" ++ r) with (ascii_of_nat 61 :: r).
  by rewrite (cut_at_app (ascii_of_nat 61) (to_bytes name) r Hn), of_to_bytes.
Qed.

Lemma getenv_elem name env v : getenv name env = Some v -> exists kv, kv ∈ env /\ setting name kv = Some v.
Proof.
  induction env as [|kv env IH]; [done|]. rewrite getenv_cons. destruct (getenv name env) as [w|].
  - intros [= ->]. destruct (IH eq_refl) as (kv' & Hin & Hs). exists kv'. split; [by right|done].
  - intros Hs. exists kv. split; [by left|done].
Qed.

(** A filter that keeps every entry for a name keeps its value, and one that drops
    them all leaves none. *)
Lemma getenv_filter_keep name f env :
  (forall kv v, setting name kv = Some v -> f kv = true) -> getenv name (List.filter f env) = getenv name env.
Proof.
  intros Hf. induction env as [|kv env IH]; [done|]. cbn [List.filter]. rewrite (getenv_cons name kv env).
  destruct (f kv) eqn:E; [by rewrite getenv_cons, IH|]. rewrite IH. destruct (getenv name env); [done|].
  destruct (setting name kv) eqn:Hs; [|done]. apply Hf in Hs. congruence.
Qed.

Lemma getenv_filter_drop name f env :
  (forall kv v, setting name kv = Some v -> f kv = false) -> getenv name (List.filter f env) = None.
Proof.
  intros Hf. apply getenv_None, Forall_forall. intros kv Hkv%list_elem_of_In. apply filter_In in Hkv as [_ Hkv].
  destruct (setting name kv) eqn:Hs; [|done]. apply Hf in Hs. congruence.
Qed.

Lemma memb_In x l : memb x l = true <-> x ∈ l.
Proof.
  unfold memb. rewrite existsb_exists, list_elem_of_In. split; [|by intros H; exists x; rewrite String.eqb_refl].
  by intros (y & Hy & ->%String.eqb_eq).
Qed.

Lemma filterSecretEnv_secret name env secret :
  plainName name -> name ∈ secret -> getenv name (filterSecretEnv env secret) = None.
Proof.
  intros Hn Hin. destruct secret as [|s secret]; [by apply elem_of_nil in Hin|].
  apply getenv_filter_drop. intros kv v Hs. rewrite (setting_entryName name kv v) by done.
  by rewrite (proj2 (memb_In name (s :: secret))).
Qed.

Lemma filterSecretEnv_other name env secret :
  plainName name -> name ∉ secret -> getenv name (filterSecretEnv env secret) = getenv name env.
Proof.
  intros Hn Hin. destruct secret as [|s secret]; [done|].
  apply getenv_filter_keep. intros kv v Hs. rewrite (setting_entryName name kv v) by done.
  destruct (memb name (s :: secret)) eqn:E; [|done]. by apply memb_In in E.
Qed.

Lemma setting_assign_ne n m v : plainName n -> plainName m -> n <> m -> setting n (assign m v) = None.
Proof.
  intros Hn Hm Hne. destruct (setting n (assign m v)) as [w|] eqn:E; [|done]. exfalso. apply Hne.
  rewrite <- (setting_entryName n _ w Hn E). exact (setting_entryName m _ v Hm (setting_assign m v)).
Qed.

(** ** What gauntlet itself sets *)

(** The variables gauntlet sets for a job, whatever the executor. *)
Definition contract (job : CheckJob) (resultFile gitDir : string) : list (string * string) :=
  [(EnvBaseSHA, j_BaseSHA job); (EnvMergeSHA, j_MergeSHA job); (EnvCandidateSHA, c_SHA (j_Candidate job));
   (EnvRef, c_Ref (j_Candidate job)); (resultFileEnv job, resultFile); (EnvRunID, j_RunID job)] ++
  (if String.eqb gitDir "" then [] else [(EnvGitDir, gitDir)]) ++
  (if String.eqb (j_DeployEnv job) "" then []
   else [(EnvDeployEnv, j_DeployEnv job); (EnvDeployNode, j_DeployNode job); (EnvDeploySHA, j_MergeSHA job); (EnvDeployedSHA, j_DeployedSHA job)]).

(** The variables of a structured test report. *)
Definition testContract (job : CheckJob) (dir : string) : list (string * string) :=
  if String.eqb (j_TestResults job) "" then []
  else [(EnvTestResultsFile, Join dir "test-results");
        (EnvRetryTestsFile, match j_RetryTests job with [] => "" | _ => Join dir "retry-tests" end)].

(** A service's variable (services/pool.go, [EnsureAll]), and a name gauntlet does not
    set. *)
Definition unset (own : list (string * string)) (n : string) : Prop := n ∉ own.*1 /\ forall t, n <> "GAUNTLET_SVC_" +:+ t.
Definition serviceEntry (kv : string) : Prop := exists t v, plainName t /\ kv = assign ("GAUNTLET_SVC_" +:+ t) v.

Definition assigned (l : list (string * string)) : list string := map (fun p => assign p.1 p.2) l.

Lemma getenv_assigned_none n l : plainName n -> Forall plainName l.*1 -> n ∉ l.*1 -> getenv n (assigned l) = None.
Proof.
  intros Hn Hl Hin. apply getenv_None, Forall_forall. intros kv (p & -> & Hp)%list_elem_of_fmap.
  apply setting_assign_ne; [done|..].
  - rewrite Forall_forall in Hl. apply Hl, list_elem_of_fmap. by exists p.
  - intros ->. apply Hin, list_elem_of_fmap. by exists p.
Qed.

Lemma getenv_assigned n v l : Forall plainName l.*1 -> NoDup l.*1 -> (n, v) ∈ l -> getenv n (assigned l) = Some v.
Proof.
  induction l as [|[m w] l IH]; [by intros _ _ ?%elem_of_nil|].
  intros [Hm Hl]%Forall_cons [Hnew Hnd]%NoDup_cons Hin. change (assigned ((m, w) :: l)) with (assign m w :: assigned l).
  rewrite getenv_cons. apply elem_of_cons in Hin as [[= -> ->]|Hin]; [|by rewrite IH].
  by rewrite getenv_assigned_none, setting_assign.
Qed.

Instance plainName_dec n : Decision (plainName n).
Proof. unfold plainName. apply _. Defined.

(** The names of the contract, the report's among them, are names and differ. *)
Lemma contract_names job resultFile gitDir dir :
  Forall plainName (contract job resultFile gitDir ++ testContract job dir).*1 /\
  NoDup (contract job resultFile gitDir ++ testContract job dir).*1 /\
  Forall (fun n => strip_prefix (to_bytes "GAUNTLET_SVC_") (to_bytes n) = None) (contract job resultFile gitDir ++ testContract job dir).*1.
Proof.
  assert (forall l : list string, forallb (fun n => bool_decide (plainName n)) l = true -> Forall plainName l) as H1.
  { intros l Hl. apply Forall_forall. intros n Hn. rewrite forallb_forall in Hl. apply list_elem_of_In in Hn.
    exact (bool_decide_eq_true_1 _ (Hl n Hn)). }
  assert (forall l : list string, bool_decide (NoDup l) = true -> NoDup l) as H2.
  { intros l. apply bool_decide_eq_true_1. }
  unfold contract, testContract, resultFileEnv.
  destruct (j_InputsCapture job), (j_ImageBuild job), (j_ReceiptCapture job), (String.eqb gitDir ""), (String.eqb (j_DeployEnv job) ""),
    (String.eqb (j_TestResults job) ""); (split_and!; [apply H1; vm_compute; reflexivity|apply H2; vm_compute; reflexivity|]);
    by repeat constructor.
Qed.

Lemma getenv_perm n l l' : plainName n -> Forall plainName l.*1 -> NoDup l.*1 -> l ≡ₚ l' -> getenv n (assigned l) = getenv n (assigned l').
Proof.
  intros Hn Hp Hnd Hl. assert (Forall plainName l'.*1) as Hp' by (by rewrite <- Hl). assert (NoDup l'.*1) as Hnd' by (by rewrite <- Hl).
  destruct (decide (n ∈ l.*1)) as [Hin|Hin].
  - apply list_elem_of_fmap in Hin as ([m v] & -> & Hin). cbn [fst] in *.
    rewrite (getenv_assigned m v l), (getenv_assigned m v l'); [done|done|done|by rewrite <- Hl|done..].
  - rewrite !getenv_assigned_none; [done|done|done|by rewrite <- Hl|done..].
Qed.

Lemma service_name t : plainName t -> plainName ("GAUNTLET_SVC_" +:+ t).
Proof.
  intros Ht. unfold plainName in *. rewrite to_bytes_app. intros [H|H]%elem_of_app; [|done].
  revert H. apply (bool_decide_unpack (_ ∉ _)). vm_compute. exact I.
Qed.

Lemma getenv_services n l :
  plainName n -> (forall t, n <> "GAUNTLET_SVC_" +:+ t) -> Forall serviceEntry l -> getenv n l = None.
Proof.
  intros Hn Hp Hl. apply getenv_None. eapply Forall_impl; [exact Hl|]. intros kv (t & v & Ht & ->).
  apply setting_assign_ne; [done|by apply service_name|done].
Qed.

Lemma not_service n : strip_prefix (to_bytes "GAUNTLET_SVC_") (to_bytes n) = None -> forall t, n <> "GAUNTLET_SVC_" +:+ t.
Proof.
  intros Hp t ->. rewrite to_bytes_app in Hp.
  by rewrite (proj2 (strip_prefix_spec (to_bytes "GAUNTLET_SVC_") _ (to_bytes t)) eq_refl) in Hp.
Qed.

(** An environment in layers: what gauntlet sets - [own] - comes after the rest and
    before the services. *)
Lemma layered job resultFile gitDir dir under own svc n :
  let all := contract job resultFile gitDir ++ testContract job dir in
  Forall serviceEntry svc -> (forall n, plainName n -> getenv n own = getenv n (assigned all)) ->
  (forall v, (n, v) ∈ all -> getenv n (under ++ own ++ svc) = Some v) /\
  (plainName n -> unset all n -> getenv n (under ++ own ++ svc) = getenv n under).
Proof.
  intros all Hsvc Hown. destruct (contract_names job resultFile gitDir dir) as (Hp & Hnd & Hs). fold all in Hp, Hnd, Hs.
  split.
  - intros v Hin. assert (n ∈ all.*1) as Hn by (apply list_elem_of_fmap; by exists (n, v)).
    pose proof Hp as Hp'. rewrite Forall_forall in Hp', Hs.
    rewrite !getenv_app, getenv_services, Hown, (getenv_assigned n v all); auto. by apply not_service, Hs.
  - intros Hn [Hin Hsvn]. by rewrite !getenv_app, getenv_services, Hown, getenv_assigned_none.
Qed.

(** ** Local commands *)

Lemma testEnv_contract newJSON newXML job visible h env capture n :
  prepareTestFiles newJSON newXML job visible h = inr (env, capture) -> plainName n ->
  getenv n env = getenv n (assigned (testContract job visible)).
Proof.
  unfold prepareTestFiles, testContract. destruct (String.eqb (j_TestResults job) ""); [by intros [= <- <-]|].
  destruct (h_WriteReport h); [done|]. destruct (j_RetryTests job); [by intros [= <- <-]|].
  destruct (h_WriteRetry h); [done|]. intros [= <- <-] Hn. unfold assigned. cbn [app map fst snd]. rewrite !getenv_cons.
  destruct (decide (n = EnvRetryTestsFile)) as [->|Hne]; [by rewrite setting_assign|].
  rewrite !(setting_assign_ne n EnvRetryTestsFile) by (done || apply (bool_decide_unpack _); vm_compute; exact I). done.
Qed.

Lemma localEnv_layers e environ job pl testEnv resultFile :
  localEnv e environ job pl testEnv resultFile =
  ((if j_OperatorOwned job then environ else filterSecretEnv environ (le_SecretEnv e)) ++ le_Env e) ++
  (testEnv ++ assigned (contract job resultFile (le_GitDir e))) ++ p_ServiceEnv pl.
Proof.
  unfold localEnv, contract, deployEnv, assigned. rewrite <- !app_assoc, !map_app. do 3 f_equal.
  by destruct (String.eqb (le_GitDir e) ""), (String.eqb (j_DeployEnv job) "").
Qed.

(** What a local command sees. *)
Lemma local_command newJSON newXML (e : LocalExecutor) environ job pl h ls r l :
  Forall serviceEntry (p_ServiceEnv pl) -> LocalRunCheck newJSON newXML e environ job pl h = Some (ls, r) -> l ∈ ls ->
  ln_Args l = j_Command job /\ ln_Dir l = p_Dir pl /\
  exists env, ln_Env l = Some env /\
    (forall n v, (n, v) ∈ contract job (Join (h_TempDir h) "result") (le_GitDir e) ++ testContract job (h_TempDir h) -> getenv n env = Some v) /\
    (forall n, plainName n -> unset (contract job (Join (h_TempDir h) "result") (le_GitDir e) ++ testContract job (h_TempDir h)) n ->
      getenv n env = match getenv n (le_Env e) with
                     | Some v => Some v
                     | None => if negb (j_OperatorOwned job) && memb n (le_SecretEnv e) then None else getenv n environ
                     end).
Proof.
  intros Hsvc. unfold LocalRunCheck. destruct (h_MkdirTemp h); [by intros [= <- <-] ?%elem_of_nil|].
  destruct (h_WriteResult h); [by intros [= <- <-] ?%elem_of_nil|].
  destruct (prepareTestFiles _ _ _ _ _) as [|[testEnv cap]] eqn:Ht; [by intros [= <- <-] ?%elem_of_nil|].
  destruct (j_Command job) as [|c0 cs] eqn:Hc; [done|]. intros [= <- <-] ->%list_elem_of_singleton. cbn [ln_Args ln_Dir ln_Env].
  split_and!; [done|done|]. exists (localEnv e environ job pl testEnv (Join (h_TempDir h) "result")). split; [done|].
  rewrite localEnv_layers.
  assert (forall n, plainName n -> getenv n (testEnv ++ assigned (contract job (Join (h_TempDir h) "result") (le_GitDir e))) =
    getenv n (assigned (contract job (Join (h_TempDir h) "result") (le_GitDir e) ++ testContract job (h_TempDir h)))) as Hown.
  { intros n Hn. destruct (contract_names job (Join (h_TempDir h) "result") (le_GitDir e) (h_TempDir h)) as (Hp & Hnd & _).
    rewrite (getenv_perm n _ _ Hn Hp Hnd (Permutation_app_comm _ _)). unfold assigned at 2. rewrite map_app.
    rewrite !getenv_app. by rewrite (testEnv_contract _ _ _ _ _ _ _ _ Ht Hn). }
  split; intros n; [intros v Hv; by eapply layered|]. intros Hn Hour.
  rewrite (proj2 (layered job (Join (h_TempDir h) "result") (le_GitDir e) (h_TempDir h) _ _ _ n Hsvc Hown) Hn Hour), getenv_app.
  destruct (getenv n (le_Env e)); [done|]. destruct (j_OperatorOwned job); [done|]. cbn [negb andb].
  destruct (memb n (le_SecretEnv e)) eqn:Hm; [by apply filterSecretEnv_secret, memb_In|].
  apply filterSecretEnv_other; [done|]. rewrite <- memb_In. by rewrite Hm.
Qed.

(** ** Containers *)

(** Options with their values, as an argument vector, and what they say of the
    environment. *)
Definition flags (l : list (string * string)) : list string := concat (map (fun p => [p.1; p.2]) l).
Definition environment (l : list (string * string)) : list string :=
  map snd (List.filter (fun p => String.eqb p.1 "-e") l).

Lemma flags_app a b : flags (a ++ b) = flags a ++ flags b.
Proof. unfold flags. by rewrite map_app, concat_app. Qed.

Lemma environment_app a b : environment (a ++ b) = environment a ++ environment b.
Proof. unfold environment. by rewrite List.filter_app, map_app. Qed.

Lemma flags_map {A} (f : A -> string) o (l : list A) : concat (map (fun x => [o; f x]) l) = flags (map (fun x => (o, f x)) l).
Proof. unfold flags. by rewrite map_map. Qed.

Lemma environment_env l : environment (map (fun kv => ("-e", kv)) l) = l.
Proof. unfold environment. induction l as [|kv l IH]; [done|]. cbn. by f_equal. Qed.

Lemma environment_other {A} (f : A -> string) o (l : list A) : o <> "-e" -> environment (map (fun x => (o, f x)) l) = [].
Proof. intros Ho%String.eqb_neq. unfold environment. induction l as [|x l IH]; [done|]. cbn. by rewrite Ho. Qed.

Definition testEntries (job : CheckJob) : list string :=
  (if String.eqb (j_TestResults job) "" then [] else [assign EnvTestResultsFile (containerResultDir +:+ "/test-results"); assign EnvRetryTestsFile ""]) ++
  match j_RetryTests job with [] => [] | _ => [assign EnvRetryTestsFile (containerResultDir +:+ "/retry-tests")] end.

(** The options of a run. *)
Definition options (p : Params) (job : CheckJob) (pl : Placement) (name resultDir : string) : list (string * string) :=
  let e := map (fun kv => ("-e", kv)) in
  [("--name", name); ("-w", pa_Workdir p); ("-v", p_Dir pl +:+ ":" +:+ pa_Workdir p); ("-v", resultDir +:+ ":" +:+ containerResultDir)] ++
  e (testEntries job) ++
  (if String.eqb (pa_GitDir p) "" then [] else [("-v", pa_GitDir p +:+ ":" +:+ containerGitDir +:+ ":ro")]) ++
  map (fun ah => ("--add-host", ah)) (pa_AddHosts p) ++
  (if String.eqb (pa_Memory p) "" then [] else [("--memory", pa_Memory p)]) ++
  (if String.eqb (pa_CPUs p) "" then [] else [("--cpus", pa_CPUs p)]) ++
  e (pa_Env p) ++
  e (assigned (contract (job <| j_DeployEnv := "" |>) containerResultFile "")) ++
  e (testEntries job) ++
  (if String.eqb (pa_GitDir p) "" then [] else [("-e", assign EnvGitDir containerGitDir)]) ++
  e (deployEnv job) ++
  map (fun c => ("-v", cv_Name c +:+ ":" +:+ cv_Path c)) (pa_Caches p) ++
  map (fun m => ("-v", hm_Host m +:+ ":" +:+ hm_Path m +:+ (if hm_ReadOnly m then ":ro" else ""))) (pa_Mounts p) ++
  map (fun n => ("--network", n)) (p_Networks pl) ++
  e (p_ServiceEnv pl).

Lemma runArgs_options p job pl name resultDir :
  runArgs p job pl name resultDir =
  runVerb p ++ "--rm" :: flags (options p job pl name resultDir) ++ (if String.eqb (j_Image job) "" then pa_Image p else j_Image job) :: j_Command job.
Proof.
  unfold runArgs, options, envArgs. rewrite !flags_map, !flags_app.
  assert (testArgs job = flags (map (fun kv => ("-e", kv)) (testEntries job))) as ->.
  { unfold testArgs, testEntries. by destruct (String.eqb (j_TestResults job) ""), (j_RetryTests job). }
  rewrite <- !app_assoc.
  destruct (String.eqb (pa_GitDir p) ""), (String.eqb (pa_Memory p) ""), (String.eqb (pa_CPUs p) ""); done.
Qed.

Lemma options_environment p job pl name resultDir :
  environment (options p job pl name resultDir) =
  (testEntries job ++ pa_Env p) ++
  (assigned (contract (job <| j_DeployEnv := "" |>) containerResultFile "") ++ testEntries job ++
   (if String.eqb (pa_GitDir p) "" then [] else [assign EnvGitDir containerGitDir]) ++ deployEnv job) ++ p_ServiceEnv pl.
Proof.
  unfold options. rewrite !environment_app, !environment_env, !environment_other by done. rewrite <- !app_assoc.
  by destruct (String.eqb (pa_GitDir p) ""), (String.eqb (pa_Memory p) ""), (String.eqb (pa_CPUs p) "").
Qed.

Lemma testEntries_contract job n :
  (j_TestResults job = "" -> j_RetryTests job = []) -> plainName n ->
  getenv n (testEntries job) = getenv n (assigned (testContract job containerResultDir)).
Proof.
  intros Hr Hn. unfold testEntries, testContract. destruct (String.eqb_spec (j_TestResults job) "") as [E|_]; [by rewrite Hr|].
  destruct (j_RetryTests job); [done|]. unfold assigned. cbn [app map fst snd]. rewrite !getenv_cons.
  destruct (decide (n = EnvRetryTestsFile)) as [->|Hne]; [by rewrite setting_assign|].
  rewrite !(setting_assign_ne n EnvRetryTestsFile) by (done || apply (bool_decide_unpack _); vm_compute; exact I). done.
Qed.

Lemma container_own p job n :
  (j_TestResults job = "" -> j_RetryTests job = []) -> plainName n ->
  getenv n (assigned (contract (job <| j_DeployEnv := "" |>) containerResultFile "") ++ testEntries job ++
            (if String.eqb (pa_GitDir p) "" then [] else [assign EnvGitDir containerGitDir]) ++ deployEnv job) =
  getenv n (assigned (contract job containerResultFile (if String.eqb (pa_GitDir p) "" then "" else containerGitDir) ++ testContract job containerResultDir)).
Proof.
  intros Hr Hn. set (gd := if String.eqb (pa_GitDir p) "" then "" else containerGitDir).
  set (c6 := contract (job <| j_DeployEnv := "" |>) containerResultFile "").
  assert (exists rest, contract job containerResultFile gd = c6 ++ rest /\
    (if String.eqb (pa_GitDir p) "" then [] else [assign EnvGitDir containerGitDir]) ++ deployEnv job = assigned rest) as (rest & Hc & ->).
  { unfold contract, deployEnv, gd, c6. destruct (String.eqb (pa_GitDir p) ""), (String.eqb (j_DeployEnv job) ""); eexists; split; reflexivity. }
  destruct (contract_names job containerResultFile gd containerResultDir) as (Hp & Hnd & _). rewrite Hc in *.
  rewrite (getenv_perm n ((c6 ++ rest) ++ testContract job containerResultDir) (c6 ++ testContract job containerResultDir ++ rest)); [|done..|].
  - unfold assigned at 3. rewrite !map_app. fold (assigned c6) (assigned rest) (assigned (testContract job containerResultDir)).
    by rewrite !getenv_app, testEntries_contract.
  - rewrite <- app_assoc. by rewrite (Permutation_app_comm rest).
Qed.

(** C8. What a check's command sees of the world. Whatever environment the daemon runs
    in and whatever a profile sets, a command reads for each variable of the contract -
    the revisions, the ref, the run, its result file, the git directory, the
    coordinates of a deployment, the files of a test report - the value gauntlet gives
    it, locally and in a container. Any other variable is the profile's own if the
    profile sets it; else a local command inherits it, unless it names one of the
    operator's credentials and the command is a candidate's, and a container gets none:
    the daemon's environment never enters one. *)
Theorem command_environment newJSON newXML (e : LocalExecutor) (p : Params) environ job pl h :
  Forall serviceEntry (p_ServiceEnv pl) -> (j_TestResults job = "" -> j_RetryTests job = []) ->
  (forall ls r l, LocalRunCheck newJSON newXML e environ job pl h = Some (ls, r) -> l ∈ ls ->
    ln_Args l = j_Command job /\ ln_Dir l = p_Dir pl /\
    exists env, ln_Env l = Some env /\
      (forall n v, (n, v) ∈ contract job (Join (h_TempDir h) "result") (le_GitDir e) ++ testContract job (h_TempDir h) -> getenv n env = Some v) /\
      (forall n, plainName n -> unset (contract job (Join (h_TempDir h) "result") (le_GitDir e) ++ testContract job (h_TempDir h)) n ->
        getenv n env = match getenv n (le_Env e) with
                       | Some v => Some v
                       | None => if negb (j_OperatorOwned job) && memb n (le_SecretEnv e) then None else getenv n environ
                       end)) /\
  (forall name dir, exists opts,
    runArgs p job pl name dir =
      runVerb p ++ "--rm" :: flags opts ++ (if String.eqb (j_Image job) "" then pa_Image p else j_Image job) :: j_Command job /\
    (forall n v, (n, v) ∈ contract job containerResultFile (if String.eqb (pa_GitDir p) "" then "" else containerGitDir) ++
                          testContract job containerResultDir -> getenv n (environment opts) = Some v) /\
    (forall n, plainName n ->
       unset (contract job containerResultFile (if String.eqb (pa_GitDir p) "" then "" else containerGitDir) ++ testContract job containerResultDir) n ->
       getenv n (environment opts) = getenv n (pa_Env p))).
Proof.
  intros Hsvc Hretry. split.
  - intros ls r l. by apply local_command.
  - intros name dir. exists (options p job pl name dir). split; [apply runArgs_options|]. rewrite options_environment.
    pose proof (fun n => container_own p job n Hretry) as Hown.
    split; intros n; [intros v Hv; by eapply layered|]. intros Hn Hour.
    rewrite (proj2 (layered job containerResultFile _ containerResultDir _ _ _ n Hsvc Hown) Hn Hour), getenv_app.
    destruct (contract_names job "" "" containerResultDir) as (Hp & _). rewrite fmap_app in Hp. apply Forall_app in Hp as [_ Hp].
    rewrite testEntries_contract, getenv_assigned_none; [by destruct (getenv n (pa_Env p))|done|done| |done|done].
    intros Hin. apply (proj1 Hour). rewrite fmap_app. apply elem_of_app. by right.
Qed.

(** ** Verdicts *)

Section Verdicts.
Context (newJSON : string -> JSONDecoder) (newXML : string -> Decoder).
#[local] Abbreviation prepareTestFiles := (prepareTestFiles newJSON newXML).
#[local] Abbreviation LocalRunCheck := (LocalRunCheck newJSON newXML).
#[local] Abbreviation ContainerRunCheck := (ContainerRunCheck newJSON newXML).

(** The files a check needs were made. *)
Definition setUp (job : CheckJob) (h : Host) : Prop :=
  h_MkdirTemp h = None /\ h_WriteResult h = None /\
  (j_TestResults job <> "" -> h_WriteReport h = None /\ (j_RetryTests job <> [] -> h_WriteRetry h = None)).

(** The command exited 0, the context still open, its output closed, and wrote an
    identity where one was asked for. *)
Definition succeeded (job : CheckJob) (h : Host) : Prop :=
  h_CtxEnd h = None /\ h_Run h = None /\
  (j_InputsCapture job = true -> exists key, TrimSpace (default "" (readReceiptResult (h_Result h) 4096)) = key /\ 1 <= strlen key <= 4096).

(** The report asked for can be read and has no failed test. *)
Definition reportGreen (job : CheckJob) (h : Host) : Prop :=
  j_TestResults job <> "" -> exists tests,
    Parse newJSON newXML (j_TestResults job) (default "" (readReceiptResult (h_Report h) MaxBytes)) = inr tests /\ Failed tests = [].

Lemma prepareTestFiles_ok job visible h :
  (exists env cap, prepareTestFiles job visible h = inr (env, cap)) <->
  (j_TestResults job <> "" -> h_WriteReport h = None /\ (j_RetryTests job <> [] -> h_WriteRetry h = None)).
Proof.
  unfold Executor.prepareTestFiles. destruct (String.eqb_spec (j_TestResults job) "") as [E|E]; [split; eauto; by intros|].
  destruct (h_WriteReport h); [split; [by intros (? & ? & [=])|intros H; by destruct (H E)]|].
  destruct (j_RetryTests job) as [|t l]; [split; eauto; by intros|].
  destruct (h_WriteRetry h); (split; [by intros (? & ? & [=])|]); [|by eauto].
  intros H. destruct (H E) as [_ H']. by specialize (H' ltac:(done)).
Qed.

Lemma capture_green job visible h env cap r :
  prepareTestFiles job visible h = inr (env, cap) -> NodeGreen (cap r) = true <-> NodeGreen r = true /\ reportGreen job h.
Proof.
  unfold Executor.prepareTestFiles, reportGreen.
  assert (forall r, NodeGreen (capture newJSON newXML job h r) = true <-> NodeGreen r = true /\
    exists tests, Parse newJSON newXML (j_TestResults job) (default "" (readReceiptResult (h_Report h) MaxBytes)) = inr tests /\ Failed tests = []) as Hcap.
  { clear r. intros r. unfold capture. destruct (r_Err r) eqn:Herr.
    - unfold NodeGreen. rewrite Herr. by split; [|intros []].
    - destruct (Parse _ _ _ _) as [err|tests]; [split; [unfold NodeGreen; cbn; by rewrite Herr|by intros (_ & ? & [=] & _)]|].
      assert (NodeGreen (r <| r_Tests := tests |>) = NodeGreen r) as Hn by done.
      destruct (Failed tests) eqn:Hf; rewrite ?Hn; [split; [eauto|by intros []]|].
      split; [unfold NodeGreen; cbn; by rewrite Herr|]. intros (_ & ? & [= <-] & ?). congruence. }
  destruct (String.eqb_spec (j_TestResults job) "") as [E|E].
  - intros [= <- <-]. cbn. split; [by intros ->|by intros []].
  - destruct (h_WriteReport h); [done|]. destruct (j_RetryTests job), (h_WriteRetry h); intros H; simplify_eq;
      rewrite Hcap; (split; [intros []|intros [? H]]); eauto.
Qed.

Lemma keyed_spec key : String.eqb key "" || (4096 <? strlen key) = false <-> 1 <= strlen key <= 4096.
Proof.
  rewrite orb_false_iff, Z.ltb_ge, String.eqb_neq. unfold strlen. destruct key as [|c key]; cbn; [split; [by intros []|lia]|].
  split; [lia|]. intros H. split; [done|lia].
Qed.

Lemma localResult_green job pl h : NodeGreen (localResult job pl h) = true <-> succeeded job h.
Proof.
  unfold localResult, succeeded. destruct (captureRusage (h_Usage h)) as [[rss u] s].
  destruct (h_CtxEnd h); [by split; [|intros []]|]. destruct (h_Run h) as [[]|]; [by split; [|intros (_ & [=] & _)]..|].
  destruct (j_InputsCapture job).
  - destruct (_ || _) eqn:E; split; try done.
    + intros (_ & _ & H). destruct (H eq_refl) as (key & Hk & Hl). rewrite Hk in E. apply keyed_spec in Hl. congruence.
    + intros _. split_and!; [done..|]. intros _. eexists. split; [done|]. by apply keyed_spec.
  - split; [by intros _; split_and!|]. intros _. destruct (j_ImageBuild job); [done|]. destruct (j_ReceiptCapture job); [done|].
    destruct (h_Result h) as [data|]; [|done]. by destruct (String.eqb (TrimSpace data) "skipped").
Qed.

Lemma containerResult_green job pl h : NodeGreen (snd (containerResult job pl h)) = true <-> succeeded job h.
Proof.
  unfold containerResult, succeeded.
  destruct (h_CtxEnd h); [by split; [|intros []]|].
  destruct (h_Run h) as [[]|]; [by split; [destruct (checkEmptyMount h)|intros (_ & [=] & _)]|by split; [|intros (_ & [=] & _)]..|].
  destruct (j_InputsCapture job).
  - destruct (_ || _) eqn:E; split; try done.
    + intros (_ & _ & H). destruct (H eq_refl) as (key & Hk & Hl). rewrite Hk in E. apply keyed_spec in Hl. congruence.
    + intros _. split_and!; [done..|]. intros _. eexists. split; [done|]. by apply keyed_spec.
  - split; [by intros _; split_and!|]. intros _. destruct (j_ImageBuild job); [done|]. destruct (j_ReceiptCapture job); [done|].
    destruct (h_Result h) as [data|]; [|done]. by destruct (String.eqb (TrimSpace data) "skipped").
Qed.

(** The runtime answers. *)
Definition reachableRuntime (h : Host) : Prop := h_LookPath h = None /\ h_Probe h = None.

Definition unmeasured (r : CheckResult) : CheckResult := r <| r_PeakRSS := 0 |> <| r_UserCPU := 0 |> <| r_SysCPU := 0 |>.

(** Nothing but the exit status of the command decides. *)
Definition decidedByExit (h : Host) : Prop :=
  h_CtxEnd h <> None \/ h_Run h = None \/ (exists code, h_Run h = Some (ExitError code)) /\ checkEmptyMount h <> diagMountEmpty.

Lemma results_agree job pl h : decidedByExit h -> snd (containerResult job pl h) = unmeasured (localResult job pl h).
Proof.
  unfold decidedByExit, containerResult, localResult. destruct (captureRusage (h_Usage h)) as [[rss u] s].
  destruct (h_CtxEnd h); [done|]. intros [?|[->|[[code ->] Hm]]]; [done| |by destruct (checkEmptyMount h)].
  destruct (j_InputsCapture job); [by destruct (_ || _)|]. destruct (j_ImageBuild job); [done|]. by destruct (j_ReceiptCapture job).
Qed.

Lemma capture_unmeasured job visible visible' h env cap env' cap' r :
  prepareTestFiles job visible h = inr (env, cap) -> prepareTestFiles job visible' h = inr (env', cap') ->
  cap' (unmeasured r) = unmeasured (cap r).
Proof.
  unfold Executor.prepareTestFiles. destruct (String.eqb (j_TestResults job) ""); [by intros [= <- <-] [= <- <-]|].
  assert (capture newJSON newXML job h (unmeasured r) = unmeasured (capture newJSON newXML job h r)) as Hc.
  { unfold capture. change (r_Err (unmeasured r)) with (r_Err r). destruct (r_Err r); [done|].
    destruct (Parse _ _ _ _) as [err|tests]; [done|]. by destruct (Failed tests). }
  destruct (h_WriteReport h); [done|]. destruct (j_RetryTests job), (h_WriteRetry h); intros; by simplify_eq.
Qed.

Lemma local_green (e : LocalExecutor) environ job pl h :
  j_Command job <> [] ->
  exists ls r, LocalRunCheck e environ job pl h = Some (ls, r) /\
    (NodeGreen r = true <-> setUp job h /\ succeeded job h /\ reportGreen job h).
Proof.
  intros Hcmd. unfold Executor.LocalRunCheck, setUp. cbv zeta.
  destruct (h_MkdirTemp h) as [err|] eqn:H1; [do 2 eexists; split; [done|]; by split; [|intros [[]]]|].
  destruct (h_WriteResult h) as [err|] eqn:H2; [do 2 eexists; split; [done|]; by split; [|intros [(_ & [=] & _)]]|].
  pose proof (prepareTestFiles_ok job (h_TempDir h) h) as Hok.
  destruct (prepareTestFiles _ _ _) as [err|[env cap]] eqn:Hp.
  - do 2 eexists. split; [done|]. split; [done|]. intros [(_ & _ & H) _]. by apply Hok in H as (? & ? & [=]).
  - destruct (j_Command job); [done|]. do 2 eexists. split; [done|].
    rewrite (capture_green _ _ _ _ _ _ Hp), localResult_green, <- Hok. split; [intros []; split_and!; eauto|by intros (_ & ? & ?)].
Qed.

Lemma container_green (c : ContainerExecutor) job pl h :
  NodeGreen (snd (ContainerRunCheck c job pl h)) = true <->
    h_CtxStart h = None /\ reachableRuntime h /\ setUp job h /\ succeeded job h /\ reportGreen job h.
Proof.
  unfold Executor.ContainerRunCheck, reachableRuntime, probeRuntime, setUp. cbv zeta.
  destruct (h_CtxStart h); [by split; [|intros [[=] _]]|].
  destruct (h_LookPath h); [by split; [|intros (_ & [[=] _] & _)]|].
  destruct (h_Probe h) as [[err out]|]; [by split; [|intros (_ & [_ [=]] & _)]|].
  destruct (h_MkdirTemp h); [by split; [|intros (_ & _ & [[=] _] & _)]|].
  destruct (h_WriteResult h); [by split; [|intros (_ & _ & (_ & [=] & _) & _)]|].
  pose proof (prepareTestFiles_ok job containerResultDir h) as Hok.
  destruct (prepareTestFiles _ _ _) as [err|[env cap]] eqn:Hp.
  - split; [done|]. intros (_ & _ & (_ & _ & H) & _). by apply Hok in H as (? & ? & [=]).
  - pose proof (containerResult_green job pl h) as Hg. destruct (containerResult job pl h) as [diag res]. cbn [snd] in *.
    rewrite (capture_green _ _ _ _ _ _ Hp), Hg, <- Hok. split; [intros []; split_and!; eauto|by intros (_ & _ & _ & ? & ?)].
Qed.

Lemma executors_agree (e : LocalExecutor) (c : ContainerExecutor) environ job pl h ls r :
  h_CtxStart h = None -> reachableRuntime h -> setUp job h -> decidedByExit h ->
  LocalRunCheck e environ job pl h = Some (ls, r) -> snd (ContainerRunCheck c job pl h) = unmeasured r.
Proof.
  intros H1 [H2 H3] (H4 & H5 & H6) Hd. unfold Executor.LocalRunCheck, Executor.ContainerRunCheck, probeRuntime. cbv zeta.
  rewrite H1, H2, H3, H4, H5. pose proof H6 as H6'.
  apply (prepareTestFiles_ok _ (h_TempDir h)) in H6 as (env & cap & Hl). apply (prepareTestFiles_ok _ containerResultDir) in H6' as (env' & cap' & Hc).
  rewrite Hl, Hc. destruct (j_Command job); [done|]. intros [= _ <-]. pose proof (results_agree job pl h Hd) as Ha.
  destruct (containerResult job pl h) as [diag res]. cbn [snd] in *. subst. by eapply capture_unmeasured.
Qed.


End Verdicts.

(** ** A command that is done but not quiet *)

(** A command that exits 0 but leaves a process behind that keeps its output open for
    more than five seconds is red, and its output says it could not be started. *)
Lemma lingering_child_reddens job pl h :
  h_CtxEnd h = None -> h_Run h = Some ErrWaitDelay -> captured (h_Output h) = "" ->
  r_Status (localResult job pl h) = CheckFailed /\ r_Err (localResult job pl h) = None /\
  r_Output (localResult job pl h) = "executor: failed to start command: exec: WaitDelay expired before I/O complete".
Proof. intros H1 H2 H3. unfold localResult. rewrite H1, H2, H3. by destruct (captureRusage (h_Usage h)) as [[]]. Qed.

(** ** Names of containers *)

Lemma strlen_app a b : strlen (a +:+ b) = strlen a + strlen b.
Proof. unfold strlen. rewrite <- !length_to_bytes, to_bytes_app, length_app. lia. Qed.

(** What the start-up sweep looks for. *)
Definition namePrefix (token : string) : string := "gauntlet-" +:+ (if String.eqb token "" then "" else token +:+ "-").

Lemma substring_prefix n s : exists r, s = String.substring 0 n s +:+ r.
Proof.
  revert n. induction s as [|c s IH]; intros n; [by exists ""; destruct n|]. destruct n; [by exists (String c s)|].
  destruct (IH n) as [r Hr]. exists r. cbn. by rewrite Hr at 1.
Qed.

Lemma substring_length n s : (String.length (String.substring 0 n s) <= n)%nat.
Proof. revert n. induction s as [|c s IH]; intros n; destruct n; cbn; [lia..|]. specialize (IH n). lia. Qed.

(** Every name starts with the daemon's own prefix and stays within 200 bytes, as long
    as the prefix does. *)
Lemma containerName_shape token runID check :
  strlen (namePrefix token) < maxContainerNameLen ->
  exists tail, containerName token runID check = namePrefix token +:+ tail /\ strlen (containerName token runID check) <= maxContainerNameLen.
Proof.
  intros Hp. unfold containerName. fold (namePrefix token). cbv zeta. eexists. split; [done|]. rewrite strlen_app.
  rewrite (proj2 (Z.ltb_lt 0 _)) by lia. cbn [andb]. destruct (Z.ltb_spec (maxContainerNameLen - strlen (namePrefix token)) (strlen (SanitizeName runID +:+ "-" +:+ SanitizeName check))); [|lia].
  pose proof (substring_length (Z.to_nat (maxContainerNameLen - strlen (namePrefix token))) (SanitizeName runID +:+ "-" +:+ SanitizeName check)).
  unfold strlen at 2. lia.
Qed.

(** The name an argument vector claims for its container. *)
Definition claims (args : list string) (name : string) : Prop :=
  exists verb rest, (verb = ["run"] \/ verb = ["run"; "--progress"; "none"]) /\ args = verb ++ "--rm" :: "--name" :: name :: rest.

Lemma runArgs_claims p job pl name dir : claims (runArgs p job pl name dir) name.
Proof.
  exists (runVerb p). eexists. split; [|unfold runArgs; cbn [app]; reflexivity].
  unfold runVerb, runtimeSpecs. repeat case_match; simplify_eq; auto.
Qed.

(** A check whose container name is in use is red, not an error, although its command
    never ran - with a runtime that refuses such a name, as all three do. A worker that
    comes back after a crash claims the name of a container that still runs there. *)
Lemma taken_name_reddens newJSON newXML (run : gset string -> list string -> option RunError) (c : ContainerExecutor) job pl h used :
  (forall used args name, claims args name -> name ∈ used -> exists code, run used args = Some (ExitError code)) ->
  let name := containerName (pa_Token (ce_params c)) (j_RunID job) (j_Name job) in
  name ∈ used -> h_Run h = run used (runArgs (ce_params c) job pl name (h_TempDir h)) ->
  h_CtxStart h = None -> reachableRuntime h -> setUp job h -> h_CtxEnd h = None -> checkEmptyMount h <> diagMountEmpty ->
  j_TestResults job = "" ->
  let r := ContainerRunCheck newJSON newXML c job pl h in
  r_Status (snd r) = CheckFailed /\ r_Err (snd r) = None /\ r_Name (snd r) = j_Name job /\
  (h_Killed h = true -> mkLaunch [rs_Bin (ce_spec c); "kill"; name] "" None ∈ fst r).
Proof.
  intros Hrun name Hused Hr H1 [H2 H3] (H4 & H5 & _) H6 Hm Ht r.
  destruct (Hrun used _ _ (runArgs_claims (ce_params c) job pl name (h_TempDir h)) Hused) as [code Hcode].
  rewrite Hcode in Hr. unfold r, ContainerRunCheck, probeRuntime, prepareTestFiles, containerResult.
  rewrite H1, H2, H3, H4, H5, H6, Ht, Hr. cbn [String.eqb].
  destruct (checkEmptyMount h); [|done|]; cbn [fst snd id]; (split; [done|]; split; [done|]; split; [done|]);
    intros ->; fold name; apply elem_of_app; right; apply elem_of_cons; right; apply elem_of_app; left; by left.
Qed.

(** Two checks of a run can claim one container name. The name is made of the
    sanitized run and check and cut to 200 bytes, and nothing tells apart two checks
    whose names become the same - [lint go] and [lint/go] - although log files of such
    checks are kept apart. With a runtime that refuses a name in use, as all three do,
    the second of two that run at once is red - not an error - although its
    command never ran; and cancelling it asks for the first one's container to be
    killed. *)
Theorem sanitized_names_collide newJSON newXML (run : gset string -> list string -> option RunError) (c : ContainerExecutor) ja jb pl h used :
  (forall used args name, claims args name -> name ∈ used -> exists code, run used args = Some (ExitError code)) ->
  j_RunID ja = j_RunID jb -> j_Name ja <> j_Name jb -> SanitizeName (j_Name ja) = SanitizeName (j_Name jb) ->
  let nameOf job := containerName (pa_Token (ce_params c)) (j_RunID job) (j_Name job) in
  nameOf ja ∈ used ->
  h_Run h = run used (runArgs (ce_params c) jb pl (nameOf jb) (h_TempDir h)) ->
  h_CtxStart h = None -> reachableRuntime h -> setUp jb h -> h_CtxEnd h = None -> checkEmptyMount h <> diagMountEmpty ->
  j_TestResults jb = "" ->
  let r := ContainerRunCheck newJSON newXML c jb pl h in
  r_Status (snd r) = CheckFailed /\ r_Err (snd r) = None /\ r_Name (snd r) = j_Name jb /\
  (h_Killed h = true -> mkLaunch [rs_Bin (ce_spec c); "kill"; nameOf ja] "" None ∈ fst r).
Proof.
  intros Hrun Hid Hne Hsan nameOf Hused Hr H1 H2 H3 H4 Hm Ht r.
  assert (nameOf ja = nameOf jb) as Hname by (unfold nameOf, containerName; by rewrite Hid, Hsan).
  rewrite Hname in *. by eapply taken_name_reddens.
Qed.

(** ** Examples *)

Definition demoJob : CheckJob :=
  zeroCheckJob <| j_Name := "lint/go" |> <| j_RunID := "run1" |> <| j_Command := ["make"; "lint"] |> <| j_BaseSHA := "b1" |> <| j_MergeSHA := "m1" |>.

Definition demoHost (out : option RunError) : Host :=
  mkHost None None None "/scratch/x" None None None None false [] out false None ("ls", None) (Some "") None 0 0 None.

Definition demoLocal : LocalExecutor := mkLocalExecutor "" "/git" ["LANG=C"; "GAUNTLET_RUN_ID=spoofed"] ["GH_TOKEN"].
Definition demoParams : Params := mkParams "docker" "img" "/workspace" [] [] ["LANG=C"; "GAUNTLET_RUN_ID=spoofed"] [] "" "" "" "" "cafe".
Definition demoContainer : ContainerExecutor := mkContainerExecutor (mkRuntimeSpec "docker" ["ps"] []) demoParams.
Definition demoPlace : Placement := mkPlacement "/trial" "" ["GAUNTLET_SVC_DB_HOST=h"] [].

Definition noJSON (_ : string) : JSONDecoder := mkJSONDecoder (inl "") false.
Definition noXML (_ : string) : Decoder := mkDecoder [] None.

Lemma command_environment_witness :
  exists ls r env, LocalRunCheck noJSON noXML demoLocal ["GH_TOKEN=s3cret"; "HOME=/root"] demoJob demoPlace (demoHost None) = Some (ls, r) /\
    ln_Env <$> ls = [Some env] /\ getenv "GAUNTLET_RUN_ID" env = Some "run1" /\ getenv "GH_TOKEN" env = None /\
    getenv "HOME" env = Some "/root" /\ getenv "LANG" env = Some "C".
Proof.
  assert (Forall serviceEntry (p_ServiceEnv demoPlace)) as Hs.
  { apply Forall_singleton. exists "DB_HOST", "h". split; [|reflexivity]. apply (bool_decide_unpack _). vm_compute. exact I. }
  destruct (command_environment noJSON noXML demoLocal demoParams ["GH_TOKEN=s3cret"; "HOME=/root"] demoJob demoPlace (demoHost None) Hs (fun _ => eq_refl)) as [H _].
  destruct (LocalRunCheck noJSON noXML demoLocal ["GH_TOKEN=s3cret"; "HOME=/root"] demoJob demoPlace (demoHost None)) as [[ls r]|] eqn:E; [|discriminate].
  assert (exists l, ls = [l]) as [l ->] by (injection E as <- _; eexists; reflexivity).
  destruct (H [l] r l eq_refl (list_elem_of_here _ _)) as (_ & _ & env & Henv & Hc & Ho).
  exists [l], r, env. split; [reflexivity|]. split; [cbn; by rewrite Henv|].
  split; [apply Hc; vm_compute; repeat (first [apply list_elem_of_here|apply list_elem_of_further])|].
  split_and!; (rewrite Ho; [vm_compute; reflexivity|apply (bool_decide_unpack _); vm_compute; exact I|
    split; [apply (bool_decide_unpack _); vm_compute; exact I|by intros t]]).
Defined.


Lemma sanitized_names_collide_witness :
  let run (used : gset string) args := if existsb (fun a => bool_decide (a ∈ used)) args then Some (ExitError 125) else None in
  let r := ContainerRunCheck noJSON noXML demoContainer demoJob demoPlace (demoHost (Some (ExitError 125))) in
  (forall used args name, claims args name -> name ∈ used -> exists code, run used args = Some (ExitError code)) /\
  SanitizeName "lint go" = SanitizeName "lint/go" /\ r_Status (snd r) = CheckFailed /\ r_Err (snd r) = None.
Proof.
  intros run r.
  assert (forall used args name, claims args name -> name ∈ used -> exists code, run used args = Some (ExitError code)) as Hrun.
  { intros used args name (verb & rest & _ & ->) Hin. exists 125. unfold run.
    assert (existsb (fun a => bool_decide (a ∈ used)) (verb ++ "--rm" :: "--name" :: name :: rest) = true) as ->; [|reflexivity].
    apply existsb_exists. exists name. split; [apply in_or_app; right; right; right; by left|by apply bool_decide_eq_true_2]. }
  destruct (sanitized_names_collide noJSON noXML run demoContainer (demoJob <| j_Name := "lint go" |>) demoJob demoPlace
    (demoHost (Some (ExitError 125))) {[ "gauntlet-cafe-run1-lint-go" ]}) as (H1 & H2 & _).
  - exact Hrun.
  - reflexivity.
  - discriminate.
  - vm_compute. reflexivity.
  - apply elem_of_singleton. vm_compute. reflexivity.
  - vm_compute. reflexivity.
  - reflexivity.
  - split; reflexivity.
  - split; [reflexivity|]. split; [reflexivity|]. intros H. by destruct H.
  - reflexivity.
  - discriminate.
  - reflexivity.
  - split; [exact Hrun|]. split; [vm_compute; reflexivity|]. split; [exact H1|exact H2].
Defined.
