(* ===== verification/Capacity.v ===== *)
(** Worker capacity (src/internal/workers/capacity.go): pools of machines that
    grow with demand and shrink when idle.

    A cloud provider is a record of functions over a state of its own, with no
    assumption on its answers. The scaler's state file is [sc_disk]; a write may
    fail, by the answers of [sc_faults]. [sc_calls] is no field of the source: it
    records every mutation asked of a provider with what was on disk and in the
    broker at that moment. One tick reads the clock once. *)
From stdpp Require Import relations.
From S2P Require Import Prelude GoString Core Wire TestReport Broker WorkerServer BrokerSpec.

Open Scope string_scope.
Open Scope list_scope.
Open Scope Z_scope.

(** ** Data *)

(** src/internal/workers/capacity.go:23-27 [Node] *)
Record Node := mkNode { nd_ID : string; nd_Incarnation : string; nd_Worker : string }.

(** src/internal/workers/capacity.go:28-33 [Inventory] *)
Record Inventory := mkInventory { iv_Generation : string; iv_Nodes : list Node; iv_Capacity : Z; iv_Busy : bool }.

(** src/internal/workers/capacity.go:34-41 [Pool] Its provider is the argument [Provider] of the definitions below. *)
Record Pool := mkPool {
  po_Name : string;
  po_Worker : Worker;
  po_Warm : Z;
  po_Max : Z;
  po_IdleTimeout : Z;
  po_StartupTimeout : Z;
  po_PricePerHour : float64;
  po_MaxHourlyCost : float64;
}.

(** src/internal/workers/capacity.go:42-50 [PoolStatus] *)
Record PoolStatus := mkPoolStatus {
  ps_Name : string;
  ps_Nodes : Z;
  ps_Desired : Z;
  ps_Limit : Z;
  ps_HourlyCost : float64;
  ps_Action : string;
  ps_Error : string;
}.

(** src/internal/workers/capacity.go:51-51 [nodeClock] *)
Record nodeClock := mkClock { ck_First : Z; ck_Idle : Z }.

(** src/internal/workers/capacity.go:52-58 [poolAction] *)
Record poolAction := mkAction { pa_Kind : string; pa_Error : string; pa_At : Z; pa_Desired : Z; pa_Node : Node }.

(** src/internal/workers/capacity.go:59-62 [poolState] *)
Record poolState := mkPoolState { pl_Nodes : gmap string nodeClock; pl_Action : option poolAction }.

(** A mutation asked of a provider. *)
Inductive Mutation := MGrow (desired : Z) | MRemove (node : Node).

(** One request, with the state file and the broker as it was sent. *)
Record Request := mkRequest {
  rq_Pool : string;
  rq_Inventory : Inventory;
  rq_Mutation : Mutation;
  rq_Disk : gmap string poolState;
  rq_Broker : Broker;
}.

(** src/internal/workers/capacity.go:63-70 [Scaler] *)
Record Scaler := mkScaler {
  sc_state : gmap string poolState;
  sc_status : list PoolStatus;
  sc_published : list PoolStatus;
  sc_disk : gmap string poolState;
  sc_faults : list (option string);
  sc_calls : list Request;
}.

#[export] Instance Node_eq_dec : EqDecision Node.
Proof. solve_decision. Defined.
#[export] Instance PoolStatus_eta : Eta PoolStatus := fun p =>
  mkPoolStatus (ps_Name p) (ps_Nodes p) (ps_Desired p) (ps_Limit p) (ps_HourlyCost p) (ps_Action p) (ps_Error p).
#[export] Instance nodeClock_eta : Eta nodeClock := fun c => mkClock (ck_First c) (ck_Idle c).
#[export] Instance poolAction_eta : Eta poolAction := fun a =>
  mkAction (pa_Kind a) (pa_Error a) (pa_At a) (pa_Desired a) (pa_Node a).
#[export] Instance poolState_eta : Eta poolState := fun s => mkPoolState (pl_Nodes s) (pl_Action s).
#[export] Instance Scaler_eta : Eta Scaler := fun s =>
  mkScaler (sc_state s) (sc_status s) (sc_published s) (sc_disk s) (sc_faults s) (sc_calls s).

Definition zeroNode : Node := mkNode "" "" "".
Definition zeroPoolState : poolState := mkPoolState ∅ None.

(** ** Reading what a provider says *)

(** src/internal/workers/capacity.go:110-110 [nodeKey] *)
Definition nodeKey (n : Node) : string := nd_ID n +:+ "/" +:+ nd_Incarnation n.

(** src/internal/workers/capacity.go:284-291 [validateInventory] *)
Fixpoint badNodes (ids workers : gset string) (nodes : list Node) : bool :=
  match nodes with
  | [] => false
  | n :: nodes =>
      String.eqb (nd_ID n) "" || String.eqb (nd_Incarnation n) "" || String.eqb (nd_Worker n) ""
      || bool_decide (nd_ID n ∈ ids) || bool_decide (nd_Worker n ∈ workers)
      || badNodes ({[nd_ID n]} ∪ ids) ({[nd_Worker n]} ∪ workers) nodes
  end.

(** src/internal/workers/capacity.go:280-293 [validateInventory] *)
Definition validateInventory (inv : Inventory) : option string :=
  if String.eqb (iv_Generation inv) "" || (iv_Capacity inv <? 0) || (100000 <? iv_Capacity inv) || (100000 <? Z.of_nat (length (iv_Nodes inv)))
  then Some "invalid capacity inventory"
  else if badNodes ∅ ∅ (iv_Nodes inv) then Some "invalid or duplicate capacity node"
  else None.

(** src/internal/workers/capacity.go:272-279 [findPeer] *)
Definition findPeer (status : Status) (id : string) : option Peer :=
  List.find (fun p => String.eqb (k_ID (pe_Worker p)) id) (st_Workers status).

(** A [float64] converted to [int]: towards zero, for what fits. *)
Definition f64_trunc (x : float64) : Z :=
  match x with
  | S754_finite s m e => let n := Z.shiftl (Z.pos m) e in if s : bool then - n else n
  | _ => 0
  end.

Definition f64_mul : float64 -> float64 -> float64 := SFmul 53 1024.

(** The constant 1e-9 of the source. *)
Definition nano : float64 := f64_div (f64_of_Z 1) (f64_of_Z 1000000000).

(** src/internal/workers/capacity.go:101-109 [poolLimit] *)
Definition poolLimit (p : Pool) : Z :=
  let limit := po_Max p in
  let limit :=
    if SFltb f64_zero (po_MaxHourlyCost p) then
      let affordable := f64_add (f64_div (po_MaxHourlyCost p) (po_PricePerHour p)) nano in
      if SFltb affordable (f64_of_Z limit) then f64_trunc affordable else limit
    else limit in
  Z.max 0 limit.

(** ** How many machines the demand is worth *)

(** src/internal/workers/capacity.go:299-304 [desired] *)
Definition shareOf (w : Worker) (priority : Z) : Resources :=
  let c := k_Capacity w in
  if priority <? 3 then
    mkResources (wrap64 (Slots c - k_UrgentReserve w))
      (wrap64 (CPU c - reservedShare (CPU c) (Slots c) (k_UrgentReserve w)))
      (wrap64 (Memory c - reservedShare (Memory c) (Slots c) (k_UrgentReserve w)))
  else c.

(** src/internal/workers/capacity.go:308-314 [desired] The first machine with room, with the room left on each. *)
Fixpoint firstFit (capacity available r : Resources) (bins : list Resources) : option (list Resources) :=
  match bins with
  | [] => None
  | b :: bins =>
      if fits r (subtract available (subtract capacity b)) then Some (subtract b r :: bins)
      else match firstFit capacity available r bins with Some bins => Some (b :: bins) | None => None end
  end.

(** src/internal/workers/capacity.go:298-320 [desired] *)
Definition addJob (w : Worker) (limit : Z) (r : Resources) (priority : Z) (bins : list Resources) : option (list Resources) :=
  let available := shareOf w priority in
  if negb (fits r available) then None
  else match firstFit (k_Capacity w) available r bins with
       | Some bins => Some bins
       | None => if limit <=? Z.of_nat (length bins) then None else Some (bins ++ [subtract (k_Capacity w) r])
       end.

(** src/internal/workers/capacity.go:324-326 [desired] *)
Fixpoint addRunning (w : Worker) (limit : Z) (r : Resources) (n : nat) (bins : list Resources) : list Resources :=
  match n with
  | O => bins
  | S n => addRunning w limit r n (default bins (addJob w limit r 3 bins))
  end.

(** src/internal/workers/capacity.go:341-343 [desired] How many jobs found a place. *)
Fixpoint addPending (w : Worker) (limit : Z) (r : Resources) (priority : Z) (n : nat) (bins : list Resources) : Z * list Resources :=
  match n with
  | O => (0, bins)
  | S n =>
      match addJob w limit r priority bins with
      | Some bins => let '(k, bins) := addPending w limit r priority n bins in (k + 1, bins)
      | None => (0, bins)
      end
  end.

(** src/internal/workers/capacity.go:331-337 [desired] *)
Definition demandJob (d : Demand) : CheckJob :=
  zeroCheckJob <| j_Executor := de_Profile d |> <| j_Image := if de_Image d then "image" else "" |>
    <| j_ServiceNeeds := if de_Services d then ["service"] else [] |>.

(** src/internal/workers/capacity.go:329-344 [desired] *)
Fixpoint assignPending (w : Worker) (limit : Z) (demand : list Demand) (bins : list Resources) : list Demand * list Resources :=
  match demand with
  | [] => ([], bins)
  | d :: demand =>
      let '(d, bins) :=
        if accepts w (demandJob d) (de_Requirements d) then
          let '(k, bins) := addPending w limit (q_Resources (de_Requirements d)) (de_Priority d) (Z.to_nat (de_Pending d)) bins in
          (d <| de_Pending ::= (fun n => n - k) |>, bins)
        else (d, bins) in
      let '(demand, bins) := assignPending w limit demand bins in
      (d :: demand, bins)
  end.

(** src/internal/workers/capacity.go:322-328 [desired] *)
Definition reserveRunning (w : Worker) (limit : Z) (nodes : list Node) (demand : list Demand) : list Resources :=
  fold_left (fun bins d =>
    if existsb (fun n => String.eqb (nd_Worker n) (de_Worker d)) nodes
    then addRunning w limit (q_Resources (de_Requirements d)) (Z.to_nat (de_Running d)) bins
    else bins) demand [].

(** src/internal/workers/capacity.go:294-346 [desired] And the demand that is left. *)
Definition desired (p : Pool) (inv : Inventory) (demand : list Demand) : Z * list Demand :=
  let limit := poolLimit p in
  let bins := reserveRunning (po_Worker p) limit (iv_Nodes inv) demand in
  let '(demand, bins) := assignPending (po_Worker p) limit demand bins in
  (Z.min limit (Z.max (po_Warm p) (Z.of_nat (length bins))), demand).

(** ** The tick *)

(** src/internal/workers/capacity.go:18-22 [CapacityProvider] *)
Record Provider (S : Type) := mkProvider {
  v_Inventory : Pool -> S -> (string + Inventory) * S;
  v_Grow : Pool -> Inventory -> Z -> S -> option string * S;
  v_Remove : Pool -> Inventory -> Node -> S -> option string * S;
}.
Arguments mkProvider {S}. Arguments v_Inventory {S}. Arguments v_Grow {S}. Arguments v_Remove {S}.

(** What a tick works on: the scaler, the broker, the clouds. *)
Record Cap (S : Type) := mkCap { x_scaler : Scaler; x_broker : Broker; x_cloud : S }.
Arguments mkCap {S}. Arguments x_scaler {S}. Arguments x_broker {S}. Arguments x_cloud {S}.

#[export] Instance Cap_eta {S} : Eta (Cap S) := fun x => mkCap (x_scaler x) (x_broker x) (x_cloud x).

(** A part of a tick: an error ends the tick. *)
Definition TK (S A : Type) : Type := Cap S -> (string + A) * Cap S.

#[export] Instance TK_ret {S} : MRet (TK S) := fun A a x => (inr a, x).
#[export] Instance TK_bind {S} : MBind (TK S) := fun A B k m x =>
  match m x with (inl e, x) => (inl e, x) | (inr a, x) => k a x end.

(** The text of a broker's error. *)
Definition errorText (e : berror) : string :=
  match e with
  | ErrCapacity => "worker backlog is full"
  | ErrStale => "worker attempt was cancelled or reassigned"
  | NoRows => "sql: no rows in result set"
  | Other msg => msg
  end.

Section Scaler.
Context {S : Type} (V : Provider S) (needsJSON : Requirements -> string).

Definition scaler {A} (f : Scaler -> A) : TK S A := fun x => (inr (f (x_scaler x)), x).
Definition modify (f : Scaler -> Scaler) : TK S unit := fun x => (inr tt, x <| x_scaler ::= f |>).

(** A call of the broker, whose error is a value. *)
Definition broker {A} (m : DB A) : TK S (berror + A) := fun x =>
  let '(r, b) := m (x_broker x) in (inr r, x <| x_broker := b |>).

(** src/internal/workers/capacity.go:94-100 [save] *)
Definition save : TK S unit := fun x =>
  let s := x_scaler x in
  match sc_faults s with
  | Some e :: fs => (inl e, x <| x_scaler := s <| sc_faults := fs |> |>)
  | None :: fs => (inr tt, x <| x_scaler := s <| sc_faults := fs |> <| sc_disk := sc_state s |> |>)
  | [] => (inr tt, x <| x_scaler := s <| sc_disk := sc_state s |> |>)
  end.

(** A provider is asked for a change; the request is recorded. *)
Definition request (p : Pool) (inv : Inventory) (m : Mutation) : TK S (option string) := fun x =>
  let s := x_scaler x in
  let r := mkRequest (po_Name p) inv m (sc_disk s) (x_broker x) in
  let '(err, c) := match m with MGrow n => v_Grow V p inv n (x_cloud x) | MRemove n => v_Remove V p inv n (x_cloud x) end in
  (inr err, x <| x_scaler := s <| sc_calls ::= (fun l => l ++ [r]) |> |> <| x_cloud := c |>).

Definition inventory (p : Pool) : TK S (string + Inventory) := fun x =>
  let '(r, c) := v_Inventory V p (x_cloud x) in (inr r, x <| x_cloud := c |>).

Definition setPool (p : Pool) (f : poolState -> poolState) : TK S unit :=
  modify (fun s => s <| sc_state ::= (fun m => <[po_Name p := f (default zeroPoolState (m !! po_Name p))]> m) |>).

Definition setAction (p : Pool) (a : option poolAction) : TK S unit := setPool p (fun st => st <| pl_Action := a |>).

Definition report (ps : PoolStatus) : TK S unit := modify (fun s => s <| sc_status ::= (fun l => l ++ [ps]) |>).

(** src/internal/workers/capacity.go:152-164 [Tick] *)
Definition reclock (now : Z) (nodes : list Node) (clocks : gmap string nodeClock) : gmap string nodeClock :=
  let live : gset string := list_to_set (map nodeKey nodes) in
  let seen := fold_left (fun m n => match m !! nodeKey n with Some _ => m | None => <[nodeKey n := mkClock now 0]> m end) nodes clocks in
  filter (fun kc => kc.1 ∈ live) seen.

(** src/internal/workers/capacity.go:169-172 [Tick] *)
Definition actionDone (inv : Inventory) (a : poolAction) : bool :=
  if String.eqb (pa_Kind a) "remove"
  then negb (existsb (fun n => String.eqb (nodeKey n) (nodeKey (pa_Node a))) (iv_Nodes inv)) && negb (iv_Busy inv)
  else String.eqb (pa_Kind a) "grow" && (pa_Desired a <=? iv_Capacity inv) && (pa_Desired a <=? Z.of_nat (length (iv_Nodes inv)))
       && negb (iv_Busy inv).

(** src/internal/workers/capacity.go:176-201 [Tick] An action that is not done: it is asked for again once the pool has settled. *)
Definition pending (now : Z) (p : Pool) (inv : Inventory) (a : poolAction) (ps : PoolStatus) : TK S unit :=
  let ps := ps <| ps_Action := pa_Kind a |> <| ps_Error := pa_Error a |> in
  if (po_StartupTimeout p <? now - pa_At a) && negb (iv_Busy inv) then
    let a := a <| pa_At := now |> in
    setAction p (Some a) ;;
    save ;;
    err ← (if String.eqb (pa_Kind a) "grow" then
             if (pa_Desired a <=? poolLimit p) && (iv_Capacity inv <=? pa_Desired a) then request p inv (MGrow (pa_Desired a))
             else mret (Some "pending growth exceeds current pool limit")
           else request p inv (MRemove (pa_Node a)));
    let a := a <| pa_Error := default "" err |> in
    setAction p (Some a) ;;
    report (ps <| ps_Error := pa_Error a |>)
  else report ps.

(** src/internal/workers/capacity.go:211-217 [Tick] Errors are ignored. *)
Fixpoint undrain (now : Z) (status : Status) (nodes : list Node) : TK S unit :=
  match nodes with
  | [] => mret tt
  | n :: nodes =>
      (match findPeer status (nd_Worker n) with
       | Some peer => if k_Draining (pe_Worker peer) then broker (Drain (nd_Worker n) false) ;; mret tt else mret tt
       | None => mret tt
       end) ;;
      undrain now status nodes
  end.

(** src/internal/workers/capacity.go:219-228 [Tick] The intent stays when the request fails: it may have been carried out. *)
Definition growPool (now : Z) (p : Pool) (inv : Inventory) (n : Z) (ps : PoolStatus) : TK S PoolStatus :=
  let a := mkAction "grow" "" now n zeroNode in
  let ps := ps <| ps_Action := "grow" |> in
  setAction p (Some a) ;;
  save ;;
  err ← request p inv (MGrow n);
  match err with
  | Some e => setAction p (Some (a <| pa_Error := e |>)) ;; mret (ps <| ps_Error := e |>)
  | None => mret ps
  end.

(** src/internal/workers/capacity.go:256-265 [Tick] *)
Definition removeNode (now : Z) (p : Pool) (inv : Inventory) (n : Node) (ps : PoolStatus) : TK S PoolStatus :=
  let a := mkAction "remove" "" now 0 n in
  let ps := ps <| ps_Action := "remove" |> in
  setAction p (Some a) ;;
  save ;;
  err ← request p inv (MRemove n);
  match err with
  | Some e => setAction p (Some (a <| pa_Error := e |>)) ;; mret (ps <| ps_Error := e |>)
  | None => mret ps
  end.

(** src/internal/workers/capacity.go:235-235 [Tick] *)
Definition unhealthyNode (now : Z) (p : Pool) (clock : nodeClock) (peer : option Peer) : bool :=
  (po_StartupTimeout p <=? now - ck_First clock)
  && match peer with
     | None => true
     | Some peer => negb (pe_Online peer) && (po_StartupTimeout p <=? now - pe_Seen peer)
     end.

(** src/internal/workers/capacity.go:236-236 [Tick] *)
Definition idleNode (peer : option Peer) : bool :=
  match peer with
  | None => false
  | Some peer => pe_Online peer && (pe_Running peer =? 0) && (Slots (k_Usage (pe_Worker peer)) =? 0)
                 && (CPU (k_Usage (pe_Worker peer)) =? 0) && (Memory (k_Usage (pe_Worker peer)) =? 0)
  end.

(** src/internal/workers/capacity.go:231-266 [Tick] The first node that may go goes. *)
Fixpoint shrink (now : Z) (status : Status) (p : Pool) (inv : Inventory) (want : Z) (nodes : list Node) (ps : PoolStatus) : TK S PoolStatus :=
  match nodes with
  | [] => mret ps
  | n :: nodes =>
      clocks ← scaler (fun s => pl_Nodes (default zeroPoolState (sc_state s !! po_Name p)));
      let clock := default (mkClock 0 0) (clocks !! nodeKey n) in
      let peer := findPeer status (nd_Worker n) in
      let unhealthy := unhealthyNode now p clock peer in
      let idle := idleNode peer in
      let clock := clock <| ck_Idle := if idle then (if ck_Idle clock =? 0 then now else ck_Idle clock) else 0 |> in
      setPool p (fun st => st <| pl_Nodes ::= <[nodeKey n := clock]> |>) ;;
      if negb unhealthy && negb ((want <? iv_Capacity inv) && idle && (po_IdleTimeout p <=? now - ck_Idle clock))
      then shrink now status p inv want nodes ps
      else
        safe ← broker (drainForRemoval now (nd_Worker n) (now - po_StartupTimeout p) unhealthy);
        match safe with
        | inl e => mret (ps <| ps_Error := errorText e |>)
        | inr false => shrink now status p inv want nodes ps
        | inr true => removeNode now p inv n ps
        end
  end.

(** src/internal/workers/capacity.go:204-268 [Tick] Without an action in flight. *)
Definition settle (now : Z) (status : Status) (p : Pool) (inv : Inventory) (want : Z) (ps : PoolStatus) : TK S unit :=
  if iv_Busy inv then report (ps <| ps_Action := "provisioning" |>)
  else
    (if iv_Capacity inv <=? want then undrain now status (iv_Nodes inv) else mret tt) ;;
    ps ← (if iv_Capacity inv <? want then growPool now p inv want ps else shrink now status p inv want (iv_Nodes inv) ps);
    report ps.

(** src/internal/workers/capacity.go:143-268 [Tick] A pool whose inventory is good. *)
Definition scalePool (now : Z) (status : Status) (p : Pool) (inv : Inventory) (want : Z) (ps : PoolStatus) : TK S unit :=
  setPool p (fun st => st <| pl_Nodes ::= reclock now (iv_Nodes inv) |>) ;;
  action ← scaler (fun s => pl_Action (default zeroPoolState (sc_state s !! po_Name p)));
  match action with
  | Some a =>
      if actionDone inv a then setAction p None ;; settle now status p inv want ps
      else pending now p inv a ps
  | None => settle now status p inv want ps
  end.

(** src/internal/workers/capacity.go:128-269 [Tick] One turn of the loop, and the demand it leaves. *)
Definition tickPool (now : Z) (status : Status) (p : Pool) (demand : list Demand) : TK S (list Demand) :=
  let ps := mkPoolStatus (po_Name p) 0 0 (poolLimit p) f64_zero "" "" in
  r ← inventory p;
  match r with
  | inl e => report (ps <| ps_Error := e |>) ;; mret demand
  | inr inv =>
      match validateInventory inv with
      | Some e => report (ps <| ps_Error := e |>) ;; mret demand
      | None =>
          let '(want, rest) := desired p inv demand in
          let ps := ps <| ps_Nodes := iv_Capacity inv |> <| ps_HourlyCost := f64_mul (f64_of_Z (iv_Capacity inv)) (po_PricePerHour p) |>
                       <| ps_Desired := want |> in
          scalePool now status p inv want ps ;; mret rest
      end
  end.

(** src/internal/workers/capacity.go:128-269 [Tick] *)
Fixpoint tickPools (now : Z) (status : Status) (pools : list Pool) (demand : list Demand) : TK S unit :=
  match pools with
  | [] => mret tt
  | p :: pools => rest ← tickPool now status p demand; tickPools now status pools rest
  end.

(** src/internal/workers/capacity.go:119-123 [Tick] *)
Definition publish (x : Cap S) : Cap S := x <| x_scaler ::= (fun s => s <| sc_published := sc_status s |>) |>.

(** src/internal/workers/capacity.go:114-271 [Tick] *)
Definition Tick (now : Z) (pools : list Pool) : TK S unit := fun x =>
  match Status_ needsJSON now (x_broker x) with
  | (inl e, b) => (inl (errorText e), x <| x_broker := b |>)
  | (inr status, b) =>
      let body : TK S unit := modify (fun s => s <| sc_status := [] |>) ;; tickPools now status pools (st_Demand status) ;; save in
      let '(r, x) := body (x <| x_broker := b |>) in
      (r, publish x)
  end.
End Scaler.

(** What is found where the state file should be: its size, and what decoding makes of it. *)
Inductive StateFile := FileMissing | FileError (err : string) | FileData (size : Z) (json : string + option (gmap string poolState)).

(** src/internal/workers/capacity.go:72-93 [NewScaler] *)
Definition NewScaler (f : StateFile) : string + gmap string poolState :=
  match f with
  | FileMissing => inr ∅
  | FileError e => inl ("capacity state: " +:+ e)
  | FileData size json =>
      if 4194304 <? size then inl "capacity state exceeds limit"
      else match json with
           | inl e => inl ("capacity state: " +:+ e)
           | inr m => inr (default ∅ m)
           end
  end.

(** ** What a tick asks of the providers *)

(** The broker knows nothing of the worker, or nothing is leased to it and it gets nothing. *)
Definition drained (worker : string) (b : Broker) : Prop :=
  match b_peers b !! worker with
  | None => True
  | Some p => p_draining p = true /\ forall row, row ∈ b_jobs b -> w_worker row = worker -> w_state row <> Leased
  end.

Lemma requeue_drained worker rows row :
  row ∈ setWhere (fun r => String.eqb (w_worker r) worker && isState Leased r) requeue rows -> w_worker row = worker -> w_state row <> Leased.
Proof.
  intros (r & -> & Hr)%list_elem_of_fmap. destruct (String.eqb (w_worker r) worker && isState Leased r) eqn:E; [done|].
  intros Hw Hs. rewrite Hw, String.eqb_refl in E. simpl in E. unfold isState in E. by rewrite bool_decide_eq_false in E.
Qed.

Lemma existsb_leased worker rows row :
  existsb (fun r => String.eqb (w_worker r) worker && isState Leased r) rows = false ->
  row ∈ rows -> w_worker row = worker -> w_state row <> Leased.
Proof.
  intros H Hr Hw Hs. apply not_true_iff_false in H. apply H. apply existsb_exists. exists row.
  split; [by apply list_elem_of_In|]. unfold isState. by rewrite Hw, String.eqb_refl, Hs.
Qed.

(** A removal is granted only for a drained worker. *)
Lemma drainForRemoval_drained now worker before offline b :
  wp (drainForRemoval now worker before offline) (fun r b' => r = inr true -> drained worker b') b.
Proof.
  unfold drainForRemoval, removable. wps; try done; cbn [fst snd]; intros b3 [? ->]; wps; try (intros; discriminate); intros _; unfold drained.
  - replace (b_peers _ !! worker) with (Some (p <| p_draining := true |>)) by (symmetry; cbn in E |- *; by rewrite lookup_alter_eq, E).
    split; [done|]. intros row. apply requeue_drained.
  - replace (b_peers _ !! worker) with (Some (p <| p_draining := true |>)) by (symmetry; cbn in E |- *; by rewrite lookup_alter_eq, E).
    split; [done|]. intros row. apply existsb_leased. by apply negb_true_iff.
  - cbn in E |- *. by rewrite E.
Qed.

(** *** Rules for the parts of a tick *)

Section Asks.
Context {S : Type} (V : Provider S) (needsJSON : Requirements -> string).

Definition wpt {A} (m : TK S A) (Q : string + A -> Cap S -> Prop) (x : Cap S) : Prop := Q (fst (m x)) (snd (m x)).

Lemma wpt_mono {A} (m : TK S A) (Q Q' : string + A -> Cap S -> Prop) x : wpt m Q x -> (forall r x', Q r x' -> Q' r x') -> wpt m Q' x.
Proof. unfold wpt. auto. Qed.

Lemma wpt_ret {A} (a : A) Q (x : Cap S) : Q (inr a) x -> wpt (mret a) Q x.
Proof. done. Qed.

Lemma wpt_bind {A B} (m : TK S A) (k : A -> TK S B) Q x :
  wpt m (fun r x' => match r with inl e => Q (inl e) x' | inr a => wpt (k a) Q x' end) x -> wpt (m ≫= k) Q x.
Proof. unfold wpt, mbind, TK_bind. by destruct (m x) as [[e|a] x']. Qed.

Lemma wpt_scaler {A} (f : Scaler -> A) Q (x : Cap S) : Q (inr (f (x_scaler x))) x -> wpt (scaler f) Q x.
Proof. done. Qed.

Lemma wpt_modify f Q (x : Cap S) : Q (inr tt) (x <| x_scaler ::= f |>) -> wpt (modify f) Q x.
Proof. done. Qed.

(** What one pool's turn keeps: the requests sent before, the answers to come apart, and the entries of the
    other pools. *)
Definition others (name : string) (x x' : Cap S) : Prop :=
  forall other, other <> name -> sc_state (x_scaler x') !! other = sc_state (x_scaler x) !! other.

(** A part of a pool's turn that sends nothing. *)
Definition silent (name : string) (x x' : Cap S) : Prop := sc_calls (x_scaler x') = sc_calls (x_scaler x) /\ others name x x'.

Lemma silent_refl name x : silent name x x.
Proof. by split. Qed.

Lemma silent_trans name x y z : silent name x y -> silent name y z -> silent name x z.
Proof. intros [E1 H1] [E2 H2]. split; [congruence|]. intros o Ho. by rewrite H2, H1. Qed.

Definition actionOf (name : string) (m : gmap string poolState) : option poolAction := pl_Action (default zeroPoolState (m !! name)).

Definition onDisk (p : Pool) (kind : string) (r : Request) (f : poolAction -> Prop) : Prop :=
  exists a, actionOf (po_Name p) (rq_Disk r) = Some a /\ f a.

(** A request that keeps to the rules. [before] is the action the pool had in flight as the tick began. *)
Definition rightful (now : Z) (p : Pool) (before : option poolAction) (r : Request) : Prop :=
  rq_Pool r = po_Name p /\ validateInventory (rq_Inventory r) = None /\ iv_Busy (rq_Inventory r) = false /\
  exists saved, actionOf (po_Name p) (rq_Disk r) = Some saved /\ pa_At saved = now /\
    match rq_Mutation r with
    | MGrow n =>
        pa_Kind saved = "grow" /\ pa_Desired saved = n /\ iv_Capacity (rq_Inventory r) <= n <= poolLimit p
    | MRemove node =>
        pa_Kind saved <> "grow" /\ pa_Node saved = node /\
        ((node ∈ iv_Nodes (rq_Inventory r) /\ drained (nd_Worker node) (rq_Broker r)) \/
         exists a, before = Some a /\ pa_Kind a <> "grow" /\ pa_Node a = node /\ po_StartupTimeout p < now - pa_At a)
    end.

(** A pool's turn sends at most one request, a rightful one. *)
Definition asks (now : Z) (p : Pool) (before : option poolAction) (x x' : Cap S) : Prop :=
  others (po_Name p) x x' /\
  exists new, sc_calls (x_scaler x') = sc_calls (x_scaler x) ++ new /\ (length new <= 1)%nat /\ Forall (rightful now p before) new.

Lemma asks_silent now p before x x' : silent (po_Name p) x x' -> asks now p before x x'.
Proof. intros [E H]. split; [done|]. exists []. rewrite app_nil_r. split_and!; [done|simpl; lia|done]. Qed.

Lemma silent_asks now p before x y z : silent (po_Name p) x y -> asks now p before y z -> asks now p before x z.
Proof.
  intros [E1 H1] [H2 (new & E2 & Hl & Hf)]. split; [intros o Ho; by rewrite H2, H1|]. exists new. by rewrite E2, E1.
Qed.

Lemma asks_silent_r now p before x y z : asks now p before x y -> silent (po_Name p) y z -> asks now p before x z.
Proof.
  intros [H2 (new & E2 & Hl & Hf)] [E1 H1]. split; [intros o Ho; by rewrite H1, H2|]. exists new. by rewrite E1, E2.
Qed.

Lemma setPool_silent p f x : wpt (setPool p f) (fun _ x' => silent (po_Name p) x x') x.
Proof. apply wpt_modify. split; [done|]. intros o Ho. cbn. by rewrite lookup_insert_ne. Qed.

Lemma report_silent name ps x : wpt (report ps) (fun _ x' => silent name x x') x.
Proof. by apply wpt_modify. Qed.

Lemma broker_silent {A} name (m : DB A) x : wpt (broker m) (fun _ x' => silent name x x') x.
Proof. unfold wpt, broker. by destruct (m (x_broker x)). Qed.

Lemma inventory_silent name p x : wpt (inventory V p) (fun _ x' => silent name x x') x.
Proof. unfold wpt, inventory. by destruct (v_Inventory V p (x_cloud x)). Qed.

Lemma save_silent name x :
  wpt save (fun r x' => silent name x x' /\ sc_state (x_scaler x') = sc_state (x_scaler x) /\
                        (r = inr tt -> sc_disk (x_scaler x') = sc_state (x_scaler x') /\ x_broker x' = x_broker x)) x.
Proof. unfold wpt, save. by destruct (sc_faults (x_scaler x)) as [|[e|] fs]. Qed.

(** The intent is put down, saved, and only then a request sent, if one is. *)
Lemma intend_asks now p before inv a (ask : TK S (option string)) {B} (k : option string -> TK S B) x :
  ((exists e, ask = mret e) \/
   exists m, ask = request V p inv m /\
     forall b disk, actionOf (po_Name p) disk = Some a -> b = x_broker x -> rightful now p before (mkRequest (po_Name p) inv m disk b)) ->
  (forall err y, wpt (k err) (fun _ y' => silent (po_Name p) y y') y) ->
  wpt (setAction p (Some a) ;; save ;; err ← ask; k err) (fun _ x' => asks now p before x x') x.
Proof.
  intros Hr Hk. apply wpt_bind. set (x1 := snd (setAction p (Some a) x)).
  assert (silent (po_Name p) x x1) as H1 by (apply setPool_silent).
  change (wpt (save ;; err ← ask; k err) (fun _ x' => asks now p before x x') x1).
  apply wpt_bind. eapply wpt_mono; [apply (save_silent (po_Name p))|]. intros [e|[]] x2 (H2 & D2 & Hd).
  { apply asks_silent. by eapply silent_trans. }
  destruct (Hd eq_refl) as (D1 & D3). apply wpt_bind. destruct Hr as [[e ->]|(m & -> & Hr)].
  { apply wpt_ret. eapply wpt_mono; [apply Hk|]. intros r x3 H3. apply asks_silent.
    eapply silent_trans; [exact H1|]. by eapply silent_trans. }
  unfold wpt at 1, request.
  set (err := match m with MGrow n => _ | MRemove n => _ end). destruct err as [err c]. cbn [fst snd].
  match goal with |- wpt _ _ ?y => set (x3 := y) end. eapply wpt_mono; [apply Hk|]. intros r x4 H4.
  eapply silent_asks; [exact H1|]. eapply silent_asks; [exact H2|]. eapply asks_silent_r; [|exact H4].
  split; [done|]. eexists. split; [reflexivity|]. split; [simpl; lia|]. apply Forall_singleton, Hr.
  - unfold actionOf. rewrite D1, D2. cbn. by rewrite lookup_insert_eq.
  - by rewrite D3.
Qed.

Lemma pending_asks now p inv a ps x :
  validateInventory inv = None -> wpt (pending V now p inv a ps) (fun _ x' => asks now p (Some a) x x') x.
Proof.
  intros Hi. unfold pending. cbv zeta. destruct (_ && _) eqn:E; [|eapply wpt_mono; [apply (report_silent (po_Name p))|]; intros r x1 H1; apply asks_silent; exact H1].
  apply andb_true_iff in E as [Et%Z.ltb_lt Eb%negb_true_iff]. apply (intend_asks now p (Some a) inv (a <| pa_At := now |>)).
  - destruct (String.eqb (pa_Kind (a <| pa_At := now |>)) "grow") eqn:Ek; cbn in Ek |- *.
    + apply String.eqb_eq in Ek. destruct (_ && _) eqn:El; [right|left; by eexists]. apply andb_true_iff in El as [E1%Z.leb_le E2%Z.leb_le].
      eexists. split; [reflexivity|]. intros b disk Hd _. split_and!; [done|done|done|]. exists (a <| pa_At := now |>). cbn. by split_and!.
    + apply String.eqb_neq in Ek. right. eexists. split; [reflexivity|]. intros b disk Hd _.
      split_and!; [done|done|done|]. exists (a <| pa_At := now |>). cbn. split_and!; [done|done|done|done|]. right. by exists a.
  - intros err y. apply wpt_bind. eapply wpt_mono; [apply setPool_silent|]. intros [e|[]] y1 H1; [done|].
    eapply wpt_mono; [apply (report_silent (po_Name p))|]. intros r y2 H2. by eapply silent_trans.
Qed.

Lemma undrain_silent name now status nodes x : wpt (undrain now status nodes) (fun _ x' => silent name x x') x.
Proof.
  revert x. induction nodes as [|n nodes IH]; intros x; cbn [undrain]; [by apply wpt_ret, silent_refl|]. apply wpt_bind.
  assert (wpt (match findPeer status (nd_Worker n) with
       | Some peer => if k_Draining (pe_Worker peer) then broker (Drain (nd_Worker n) false) ;; mret tt else mret tt
       | None => mret tt
       end : TK S unit) (fun _ x' => silent name x x') x) as H.
  { destruct (findPeer _ _) as [peer|]; [|by apply wpt_ret, silent_refl]. destruct (k_Draining _); [|by apply wpt_ret, silent_refl].
    apply wpt_bind. eapply wpt_mono; [apply (broker_silent name)|]. by intros [e|r] y Hy. }
  eapply wpt_mono; [exact H|]. intros [e|[]] y Hy; [done|]. eapply wpt_mono; [apply IH|]. intros r z Hz. by eapply silent_trans.
Qed.

(** Noting a failure of the request just sent. *)
Lemma note_silent p (a : poolAction) (ps : PoolStatus) (err : option string) y :
  wpt (match err with
       | Some e => setAction p (Some (a <| pa_Error := e |>)) ;; mret (ps <| ps_Error := e |>)
       | None => mret ps
       end) (fun _ y' => silent (po_Name p) y y') y.
Proof.
  destruct err as [e|]; [|by apply wpt_ret, silent_refl]. apply wpt_bind. eapply wpt_mono; [apply setPool_silent|]. by intros [?|?] z Hz.
Qed.

Lemma growPool_asks now p inv n before ps x :
  validateInventory inv = None -> iv_Busy inv = false -> iv_Capacity inv <= n <= poolLimit p ->
  wpt (growPool V now p inv n ps) (fun _ x' => asks now p before x x') x.
Proof.
  intros Hi Hb Hn. unfold growPool. apply (intend_asks now p before inv (mkAction "grow" "" now n zeroNode)); [|intros; apply note_silent].
  right. eexists. split; [reflexivity|]. intros b disk Hd _. split_and!; [done|done|done|].
  exists (mkAction "grow" "" now n zeroNode). cbn. split_and!; done || lia.
Qed.

Lemma removeNode_asks now p inv n before ps x :
  validateInventory inv = None -> iv_Busy inv = false -> n ∈ iv_Nodes inv -> drained (nd_Worker n) (x_broker x) ->
  wpt (removeNode V now p inv n ps) (fun _ x' => asks now p before x x') x.
Proof.
  intros Hi Hb Hn Hd. unfold removeNode. apply (intend_asks now p before inv (mkAction "remove" "" now 0 n)); [|intros; apply note_silent].
  right. eexists. split; [reflexivity|]. intros b disk Hk ->. split_and!; [done|done|done|].
  exists (mkAction "remove" "" now 0 n). cbn. split_and!; try done. by left.
Qed.

Lemma shrink_asks now status p inv want before nodes ps x :
  validateInventory inv = None -> iv_Busy inv = false -> (forall n, n ∈ nodes -> n ∈ iv_Nodes inv) ->
  wpt (shrink V now status p inv want nodes ps) (fun _ x' => asks now p before x x') x.
Proof.
  intros Hi Hb. revert x. induction nodes as [|n nodes IH]; intros x Hin; cbn [shrink]; [apply wpt_ret, asks_silent, silent_refl|].
  apply wpt_bind, wpt_scaler. cbv zeta. apply wpt_bind. eapply wpt_mono; [apply setPool_silent|]. intros [e|[]] y Hy; [by apply asks_silent|].
  assert (forall z, silent (po_Name p) x z -> wpt (shrink V now status p inv want nodes ps) (fun _ x' => asks now p before x x') z) as IH'.
  { intros z Hz. eapply wpt_mono; [apply IH; set_solver|]. intros r u Hu. by eapply silent_asks. }
  destruct (_ && _); [by apply IH'|]. apply wpt_bind. unfold wpt at 1, broker.
  pose proof (drainForRemoval_drained now (nd_Worker n) (now - po_StartupTimeout p)
    (unhealthyNode now p (default (mkClock 0 0) (pl_Nodes (default zeroPoolState (sc_state (x_scaler x) !! po_Name p)) !! nodeKey n))
       (findPeer status (nd_Worker n))) (x_broker y)) as Hd. unfold wp in Hd.
  destruct (drainForRemoval _ _ _ _ _) as [[e|[]] b]; cbn [fst snd] in Hd |- *.
  - by apply wpt_ret, asks_silent.
  - eapply wpt_mono; [apply (removeNode_asks now p inv n before); [done|done|set_solver|by apply Hd]|].
    intros r z Hz. eapply silent_asks; [exact Hy|]. eapply silent_asks; [|exact Hz]. by split.
  - apply IH'. destruct Hy as [E1 H1]. by split.
Qed.

Lemma desired_limit p inv demand want rest : desired p inv demand = (want, rest) -> want <= poolLimit p.
Proof. unfold desired. destruct (assignPending _ _ _ _). intros [= <- _]. lia. Qed.

Lemma settle_asks now status p inv want before ps x :
  validateInventory inv = None -> want <= poolLimit p -> wpt (settle V now status p inv want ps) (fun _ x' => asks now p before x x') x.
Proof.
  intros Hi Hw. unfold settle. destruct (iv_Busy inv) eqn:Eb.
  { eapply wpt_mono; [apply (report_silent (po_Name p))|]. intros r z Hz. by apply asks_silent. }
  apply wpt_bind. apply (wpt_mono _ (fun _ x' => silent (po_Name p) x x')).
  { destruct (_ <=? _); [apply undrain_silent|by apply wpt_ret, silent_refl]. }
  intros [e|[]] y Hy; [by apply asks_silent|]. apply wpt_bind. apply (wpt_mono _ (fun _ x' => asks now p before y x')).
  { destruct (_ <? _) eqn:E; [apply Z.ltb_lt in E; apply growPool_asks; [done|done|lia]|by apply shrink_asks]. }
  intros [e|ps'] z Hz; [by eapply silent_asks|]. eapply wpt_mono; [apply (report_silent (po_Name p))|].
  intros r u Hu. eapply silent_asks; [exact Hy|]. by eapply asks_silent_r.
Qed.

Lemma tickPool_asks now status p demand x :
  wpt (tickPool V now status p demand) (fun _ x' => asks now p (actionOf (po_Name p) (sc_state (x_scaler x))) x x') x.
Proof.
  set (before := actionOf _ _). unfold tickPool. cbv zeta. apply wpt_bind. unfold wpt at 1, inventory.
  destruct (v_Inventory V p (x_cloud x)) as [r c]. cbn [fst snd]. set (x1 := x <| x_cloud := c |>).
  assert (silent (po_Name p) x x1) as H1 by done.
  assert (forall ps (d : list Demand), wpt (report ps ;; mret d) (fun _ x' => asks now p before x x') x1) as Hrep.
  { intros ps d. apply wpt_bind. eapply wpt_mono; [apply (report_silent (po_Name p))|].
    intros [?|[]] y Hy; apply asks_silent; by eapply silent_trans. }
  destruct r as [e|inv]; [apply Hrep|]. destruct (validateInventory inv) eqn:Ei; [apply Hrep|].
  destruct (desired p inv demand) as [want rest] eqn:Ed. apply desired_limit in Ed. apply wpt_bind.
  apply (wpt_mono _ (fun _ x' => asks now p before x x')); [|by intros [e|[]] y Hy].
  unfold scalePool. apply wpt_bind. unfold setPool, wpt at 1, modify. cbn [fst snd]. set (x2 := x1 <| x_scaler ::= _ |>).
  assert (silent (po_Name p) x x2) as H2 by (eapply silent_trans; [exact H1|apply setPool_silent]).
  assert (actionOf (po_Name p) (sc_state (x_scaler x2)) = before) as E2.
  { unfold x2, actionOf. cbn. by rewrite lookup_insert_eq. }
  apply wpt_bind, wpt_scaler. fold (actionOf (po_Name p) (sc_state (x_scaler x2))). rewrite E2.
  assert (forall m : TK S unit, wpt m (fun _ x' => asks now p before x2 x') x2 -> wpt m (fun _ x' => asks now p before x x') x2) as Hlift.
  { intros m Hm. eapply wpt_mono; [exact Hm|]. intros r y Hy. by eapply silent_asks. }
  destruct before as [a|] eqn:Eb; apply Hlift.
  - destruct (actionDone inv a); [|by apply pending_asks]. apply wpt_bind. eapply wpt_mono; [apply setPool_silent|].
    intros [e|[]] y Hy; [by apply asks_silent|]. eapply wpt_mono; [by apply (settle_asks now status p inv want (Some a))|]. intros r z Hz. by eapply silent_asks.
  - by apply settle_asks.
Qed.

Lemma tickPools_asks now status pools demand x :
  NoDup (po_Name <$> pools) ->
  wpt (tickPools V now status pools demand) (fun _ x' =>
    exists new, sc_calls (x_scaler x') = sc_calls (x_scaler x) ++ new /\ NoDup (rq_Pool <$> new) /\
      Forall (fun r => exists p, p ∈ pools /\ rightful now p (actionOf (po_Name p) (sc_state (x_scaler x))) r) new) x.
Proof.
  revert demand x. induction pools as [|p pools IH]; intros demand x Hnd; cbn [tickPools].
  { apply wpt_ret. exists []. rewrite app_nil_r. split_and!; [done|constructor|done]. }
  apply NoDup_cons in Hnd as [Hp Hnd]. apply wpt_bind. eapply wpt_mono; [apply tickPool_asks|].
  intros r y [Ho (new & E & Hl & Hf)].
  assert (NoDup (rq_Pool <$> new)) as Hn by (destruct new as [|? [|]]; [constructor|apply NoDup_singleton|simpl in Hl; lia]).
  assert (Forall (fun r => exists q, q ∈ p :: pools /\ rightful now q (actionOf (po_Name q) (sc_state (x_scaler x))) r) new) as Hf'
    by (eapply Forall_impl; [exact Hf|]; intros q Hq; exists p; split; [by left|done]).
  destruct r as [e|rest]; [by exists new|]. eapply wpt_mono; [by apply IH|]. intros r z (new' & E' & Hn' & Hf2).
  exists (new ++ new'). rewrite E', E, app_assoc. split; [done|].
  assert (forall q, q ∈ pools -> po_Name q <> po_Name p) as Hq by (intros q Hq Eq; apply Hp; rewrite <- Eq; by apply list_elem_of_fmap_2).
  assert (Forall (fun r => exists q, q ∈ pools /\ rightful now q (actionOf (po_Name q) (sc_state (x_scaler x))) r) new') as Hf3.
  { eapply Forall_impl; [exact Hf2|]. intros u (q & Hin & Hu). exists q. split; [done|]. unfold actionOf in *. by rewrite <- Ho by (by apply Hq). }
  split.
  - rewrite fmap_app. apply NoDup_app. split_and!; [done| |done]. intros name (u & -> & Hu)%list_elem_of_fmap (v & Ev & Hv)%list_elem_of_fmap.
    rewrite Forall_forall in Hf, Hf3. destruct (Hf u Hu) as [Eu _]. destruct (Hf3 v Hv) as (q & Hin & [Eq _]).
    apply (Hq q Hin). congruence.
  - apply Forall_app. split; [done|]. eapply Forall_impl; [exact Hf3|]. intros u (q & Hin & Hu). exists q. split; [by right|done].
Qed.

(** C16. What a tick may ask of a cloud: for each pool at most one change, of an inventory that is valid and
    not busy, and only once the intent is in the state file under this tick's time. Growth goes up
    from the capacity found, and never past the pool's limit. A node is removed only after the broker drained its
    worker, with nothing leased to it, at that moment - or to repeat a removal that has been pending for longer than
    the startup timeout. *)
Theorem scaler_asks_rightfully now pools x res x' :
  NoDup (po_Name <$> pools) -> Tick V needsJSON now pools x = (res, x') ->
  exists new, sc_calls (x_scaler x') = sc_calls (x_scaler x) ++ new /\ NoDup (rq_Pool <$> new) /\
    Forall (fun r => exists p, p ∈ pools /\ rightful now p (actionOf (po_Name p) (sc_state (x_scaler x))) r) new.
Proof.
  intros Hnd. unfold Tick. destruct (Status_ needsJSON now (x_broker x)) as [[e|status] b].
  { intros [= <- <-]. exists []. rewrite app_nil_r. split_and!; [done|constructor|done]. }
  cbv zeta. set (body := modify _ ;; _). set (x0 := x <| x_broker := b |>).
  assert (wpt body (fun _ y => exists new, sc_calls (x_scaler y) = sc_calls (x_scaler x) ++ new /\ NoDup (rq_Pool <$> new) /\
    Forall (fun r => exists p, p ∈ pools /\ rightful now p (actionOf (po_Name p) (sc_state (x_scaler x))) r) new) x0) as H.
  { apply wpt_bind, wpt_modify, wpt_bind. eapply wpt_mono; [by apply tickPools_asks|]. intros [e|[]] y Hy; [done|].
    eapply wpt_mono; [apply (save_silent "")|]. intros r z [[E _] _]. by rewrite E. }
  unfold wpt in H. destruct (body x0) as [r y]. intros [= <- <-]. exact H.
Qed.

(** *** A pending growth beyond the limit *)

(** The pool has a growth to [n] in flight. *)
Definition growing (name : string) (n : Z) (x : Cap S) : Prop :=
  exists a, actionOf name (sc_state (x_scaler x)) = Some a /\ pa_Kind a = "grow" /\ pa_Desired a = n.

(** Nothing was asked for the pool, and its growth is still in flight. *)
Definition wedged (name : string) (n : Z) (x x' : Cap S) : Prop :=
  growing name n x' /\ exists new, sc_calls (x_scaler x') = sc_calls (x_scaler x) ++ new /\ Forall (fun r => rq_Pool r <> name) new.

Lemma growing_others name other n x x' : others other x x' -> name <> other -> growing name n x -> growing name n x'.
Proof. intros Ho Hne (a & E & H). exists a. split; [|done]. unfold actionOf in *. by rewrite Ho. Qed.

Lemma tickPool_growing now status p n demand x :
  growing (po_Name p) n x -> poolLimit p < n ->
  (forall c inv c', v_Inventory V p c = (inr inv, c') -> iv_Capacity inv < n) ->
  wpt (tickPool V now status p demand) (fun _ x' => growing (po_Name p) n x' /\ sc_calls (x_scaler x') = sc_calls (x_scaler x)) x.
Proof.
  intros Hg Hl Hc. unfold tickPool. cbv zeta. apply wpt_bind. unfold wpt at 1, inventory.
  destruct (v_Inventory V p (x_cloud x)) as [r c] eqn:Ev. cbn [fst snd]. destruct r as [e|inv]; [exact (conj Hg eq_refl)|].
  apply Hc in Ev. destruct (validateInventory inv); [exact (conj Hg eq_refl)|]. destruct (desired p inv demand) as [want rest].
  destruct Hg as (a & Ea & Ek & En). apply wpt_bind.
  apply (wpt_mono _ (fun _ x' => growing (po_Name p) n x' /\ sc_calls (x_scaler x') = sc_calls (x_scaler x))); [|by intros [?|[]] y Hy].
  unfold scalePool. apply wpt_bind. unfold setPool, wpt at 1, modify. cbn [fst snd]. set (x1 := x <| x_cloud := c |> <| x_scaler ::= _ |>).
  assert (actionOf (po_Name p) (sc_state (x_scaler x1)) = Some a) as E1.
  { unfold x1, actionOf. cbn. rewrite lookup_insert_eq. exact Ea. }
  apply wpt_bind, wpt_scaler. fold (actionOf (po_Name p) (sc_state (x_scaler x1))). rewrite E1.
  assert (actionDone inv a = false) as ->.
  { unfold actionDone. rewrite Ek, En. replace (n <=? iv_Capacity inv) with false by lia. done. }
  assert (growing (po_Name p) n x1) as G1 by (by exists a).
  assert (String.eqb (pa_Kind (a <| pa_At := now |>)) "grow" = true) as K1 by (cbn; by rewrite Ek).
  assert (pa_Desired (a <| pa_At := now |>) <=? poolLimit p = false) as K2 by (cbn; rewrite En; lia).
  unfold pending. cbv zeta. rewrite K1, K2. cbn [andb]. destruct (_ && _); [|exact (conj G1 eq_refl)].
  apply wpt_bind. set (x2 := snd (setAction p (Some (a <| pa_At := now |>)) x1)).
  assert (growing (po_Name p) n x2 /\ sc_calls (x_scaler x2) = sc_calls (x_scaler x)) as [G2 C2].
  { split; [|done]. exists (a <| pa_At := now |>). split; [|done]. unfold actionOf, x2. cbn. by rewrite lookup_insert_eq. }
  apply (wpt_bind save). eapply wpt_mono; [apply (save_silent (po_Name p))|]. intros r x3 ([C3 _] & D3 & _).
  assert (growing (po_Name p) n x3) as G3 by (destruct G2 as (b & Eb & Hb); exists b; by rewrite D3).
  destruct r as [e|[]]; [split; [exact G3|exact (eq_trans C3 C2)]|]. apply wpt_bind, wpt_ret. cbv zeta. apply wpt_bind. split; [|exact (eq_trans C3 C2)].
  eexists. split; [unfold actionOf; cbn; rewrite lookup_insert_eq; reflexivity|]. done.
Qed.

Lemma tickPools_wedged now status pools p n demand x :
  (forall q, q ∈ pools -> po_Name q = po_Name p -> q = p) ->
  growing (po_Name p) n x -> poolLimit p < n -> (forall c inv c', v_Inventory V p c = (inr inv, c') -> iv_Capacity inv < n) ->
  wpt (tickPools V now status pools demand) (fun _ x' => wedged (po_Name p) n x x') x.
Proof.
  intros Hq Hg Hl Hc. revert demand x Hq Hg. induction pools as [|q pools IH]; intros demand x Hq Hg; cbn [tickPools].
  { apply wpt_ret. split; [done|]. exists []. by rewrite app_nil_r. }
  apply wpt_bind. apply (wpt_mono _ (fun _ y => wedged (po_Name p) n x y)).
  - destruct (decide (po_Name q = po_Name p)) as [E|E].
    + rewrite (Hq q) by (by left || done). eapply wpt_mono; [by apply tickPool_growing|]. intros _ y [Gy Ey].
      split; [exact Gy|]. exists []. by rewrite app_nil_r.
    + eapply wpt_mono; [apply tickPool_asks|]. intros _ y [Ho (new & Ey & _ & Hf)].
      split; [by eapply growing_others|]. exists new. split; [exact Ey|]. eapply Forall_impl; [exact Hf|]. intros r [Er _]. congruence.
  - intros [e|rest] y [Gy (new & Ey & Hf)]; [by split; [|exists new]|].
    eapply wpt_mono; [apply (IH rest y); [|exact Gy]; intros u Hu; apply Hq; by right|].
    intros r z [Gz (new' & Ez & Hf')]. split; [exact Gz|]. exists (new ++ new'). rewrite Ez, Ey, app_assoc. split; [done|by apply Forall_app].
Qed.

(** A growth that was refused outlives the limit it was asked under. While one is in flight to a size that
    the pool's limit no longer admits - the limit was lowered, or the price raised - and the cloud has fewer
    machines, a tick asks nothing of that pool and leaves the growth in flight. So no later tick does either: the pool can
    neither grow to its new limit or its warm floor, nor give back an idle machine, nor
    replace a dead one. *)
Theorem lowered_limit_wedges now pools p n x res x' :
  NoDup (po_Name <$> pools) -> p ∈ pools -> growing (po_Name p) n x -> poolLimit p < n ->
  (forall c inv c', v_Inventory V p c = (inr inv, c') -> iv_Capacity inv < n) ->
  Tick V needsJSON now pools x = (res, x') -> wedged (po_Name p) n x x'.
Proof.
  intros Hnd Hp Hg Hl Hc.
  assert (forall q, q ∈ pools -> po_Name q = po_Name p -> q = p) as Hq.
  { intros q Hq E. apply list_elem_of_lookup in Hp as [i Hi], Hq as [j Hj].
    assert (i = j) as <- by (eapply (NoDup_lookup _ i j (po_Name p)); [exact Hnd|by rewrite list_lookup_fmap, Hi|by rewrite list_lookup_fmap, Hj; simpl; rewrite E]).
    congruence. }
  unfold Tick. destruct (Status_ needsJSON now (x_broker x)) as [[e|status] b].
  { intros [= <- <-]. split; [exact Hg|]. exists []. by rewrite app_nil_r. }
  cbv zeta. set (body := modify _ ;; _). set (x0 := x <| x_broker := b |>).
  assert (wpt body (fun _ y => wedged (po_Name p) n x y) x0) as H.
  { apply wpt_bind, wpt_modify, wpt_bind. eapply wpt_mono; [by apply (tickPools_wedged now status pools p n)|].
    intros [e|[]] y Hy; [exact Hy|]. eapply wpt_mono; [apply (save_silent "")|]. intros r z ([E _] & D & _).
    destruct Hy as [(a & Ea & Ha) (new & Ey & Hf)]. split; [exists a; by rewrite D|]. exists new. by rewrite E. }
  unfold wpt in H. destruct (body x0) as [r y]. intros [= <- <-]. exact H.
Qed.
End Asks.

(** ** Example: one pool *)

Definition demoPool (warm max : Z) : Pool :=
  mkPool "linux" (demoWorker "" "" <| k_UrgentReserve := 0 |>) warm max (600 * demoSec) (300 * demoSec) f64_zero f64_zero.

(** A cloud that refuses every change, and has the machines it is given. *)
Definition refusing (nodes : list Node) : Provider unit := mkProvider
  (fun _ s => (inr (mkInventory "g1" nodes (Z.of_nat (length nodes)) false), s))
  (fun _ _ _ s => (Some "quota exceeded", s)) (fun _ _ _ s => (Some "conflict", s)).

Definition demoCap (b : Broker) : Cap unit := mkCap (mkScaler ∅ [] [] ∅ [] []) b tt.
Definition tickDemo (nodes : list Node) (now : Z) (p : Pool) (x : Cap unit) : Cap unit :=
  snd (Tick (refusing nodes) (fun _ => "{}") now [p] x).

(** Three warm machines are refused; the operator then settles for two at most. *)
Definition refused3 : Cap unit := tickDemo [] (1001 * demoSec) (demoPool 3 3) (demoCap demo1).

Example demo_request :
  map rq_Mutation (sc_calls (x_scaler refused3)) = [MGrow 3] /\
  map (fun s => (ps_Action s, ps_Error s)) (sc_published (x_scaler refused3)) = [("grow", "quota exceeded")].
Proof. vm_compute. auto. Qed.

Lemma scaler_asks_rightfully_witness :
  exists new, map rq_Mutation new = [MGrow 3] /\ NoDup (rq_Pool <$> new) /\
    Forall (fun r => exists p, p ∈ [demoPool 3 3] /\ rightful (1001 * demoSec) p None r) new.
Proof.
  assert (sc_calls (x_scaler (demoCap demo1)) = []) as E0 by reflexivity.
  destruct (scaler_asks_rightfully (refusing []) (fun _ => "{}") (1001 * demoSec) [demoPool 3 3] (demoCap demo1) _ _
    ltac:(apply NoDup_singleton) (surjective_pairing _)) as (new & E & Hn & Hf).
  exists new. split; [|split; [exact Hn|exact Hf]]. rewrite E0 in E. simpl app in E. rewrite <- E. exact (proj1 demo_request).
Defined.

Lemma lowered_limit_wedges_witness :
  growing "linux" 3 refused3 /\ poolLimit (demoPool 1 2) = 2 /\
  wedged "linux" 3 refused3 (tickDemo [] (2000 * demoSec) (demoPool 1 2) refused3).
Proof.
  assert (growing "linux" 3 refused3) as Hg.
  { exists (mkAction "grow" "quota exceeded" (1001 * demoSec) 3 zeroNode). vm_compute. auto. }
  split; [exact Hg|]. split; [reflexivity|].
  apply (lowered_limit_wedges (refusing []) (fun _ => "{}") (2000 * demoSec) [demoPool 1 2] (demoPool 1 2) 3 refused3
    (fst (Tick (refusing []) (fun _ => "{}") (2000 * demoSec) [demoPool 1 2] refused3))).
  - apply NoDup_singleton.
  - by left.
  - exact Hg.
  - reflexivity.
  - intros c inv c' [= <- _]. reflexivity.
  - apply surjective_pairing.
Defined.

(** A removal that was refused is repeated without asking the broker again. Here a node is given up before
    its worker ever spoke; the cloud refuses; the worker starts after all and is given a job;
    and the node is asked to be removed under the running lease. *)
Definition slowNode : Node := mkNode "0" "vm-1" "w1".
Definition givenUp : Cap unit :=
  tickDemo [slowNode] (1400 * demoSec) (demoPool 1 1) (tickDemo [slowNode] (1001 * demoSec) (demoPool 1 1) (demoCap demo1)).
Definition startedLate : Cap unit := givenUp <| x_broker ::= (fun b => snd (Claim (1705 * demoSec) "t1" (demoWorker "w1" "s1") b)) |>.
Definition removedAgain : Cap unit := tickDemo [slowNode] (1710 * demoSec) (demoPool 1 1) startedLate.

Example repeated_removal_kills_a_lease :
  map rq_Mutation (sc_calls (x_scaler removedAgain)) = [MRemove slowNode; MRemove slowNode] /\
  option_map (fun r => map (fun row => (w_worker row, w_state row, 1710 * 1000 <? w_lease_until row)) (b_jobs (rq_Broker r)))
    (last (sc_calls (x_scaler removedAgain))) = Some [("w1", Leased, true)].
Proof. vm_compute. auto. Qed.
