(* ===== verification/ServicePool.v ===== *)
(** The pool of shared services (src/internal/services: pool.go, driver.go,
    record.go): instances of service containers that the checks of many runs use
    at once.

    Every critical section of the pool's mutex, and every call of the container
    runtime outside it, is one step of a thread: a run that ensures its services, holds
    them, may look for dead ones and releases them, or the reaper. What the
    runtime and the file system say is the step's [answer]. [sp_running] is no field of the
    source: it has the containers the pool started and did not remove, by name. Log
    lines are left out. *)
From S2P Require Import Prelude GoString Core Spec.

Open Scope string_scope.
Open Scope list_scope.
Open Scope Z_scope.

(** ** Data *)

(** src/internal/services/driver.go:15-29 [Mode] *)
Inductive SMode := ModeNetwork | ModePublish.

#[export] Instance SMode_eq_dec : EqDecision SMode.
Proof. solve_decision. Defined.

(** src/internal/services/driver.go:34-43 [String] *)
Definition modeString (m : SMode) : string := match m with ModeNetwork => "network" | ModePublish => "publish" end.

(** src/internal/services/driver.go:65-72 [Instance] *)
Record SInstance := mkSInstance {
  in_Name : string;
  in_Key : string;
  in_ContainerID : string;
  in_Mode : SMode;
  in_Host : string;
  in_Port : string;
  in_Spec : Service;
}.

(** src/internal/services/record.go:20-31 [Record] With its endpoint. *)
Record SRecord := mkSRecord {
  rd_Key : string;
  rd_Name : string;
  rd_Repo : string;
  rd_Mode : string;
  rd_Spec : Service;
  rd_ContainerID : string;
  rd_Host : string;
  rd_Port : string;
  rd_Network : string;
  rd_CreatedAt : Z;
  rd_LastUsed : Z;
}.

#[export] Instance SRecord_eta : Eta SRecord := fun r => mkSRecord (rd_Key r) (rd_Name r) (rd_Repo r) (rd_Mode r) (rd_Spec r)
  (rd_ContainerID r) (rd_Host r) (rd_Port r) (rd_Network r) (rd_CreatedAt r) (rd_LastUsed r).

(** src/internal/services/pool.go:28-46 [Config] *)
Record SConfig := mkSConfig { sf_Remote : string; sf_Token : string; sf_Mode : SMode; sf_MaxInstances : Z }.

(** src/internal/services/pool.go:52-56 [Ensured] *)
Record Ensured := mkEnsured { es_Env : list string; es_Networks : list string; es_keys : list string }.

(** src/internal/services/pool.go:65-80 [Pool] A call in flight is a number, and [sp_calls] has the results of the calls whose
    channel is closed; [sp_records] is the state directory. *)
Record SPool := mkSPool {
  sp_instances : gmap string SInstance;
  sp_refcount : gmap string Z;
  sp_lastUsed : gmap string Z;
  sp_createdAt : gmap string Z;
  sp_hits : gmap string Z;
  sp_inflight : gmap string nat;
  sp_reaperArmed : bool;
  sp_pending : Z;
  sp_calls : gmap nat (string + SInstance);
  sp_next : nat;
  sp_records : gmap string SRecord;
  sp_running : gmap string string;
}.

#[export] Instance SPool_eta : Eta SPool := fun p => mkSPool (sp_instances p) (sp_refcount p) (sp_lastUsed p) (sp_createdAt p)
  (sp_hits p) (sp_inflight p) (sp_reaperArmed p) (sp_pending p) (sp_calls p) (sp_next p) (sp_records p) (sp_running p).

(** src/internal/services/pool.go:125-136 [newPool] *)
Definition newPool : SPool := mkSPool ∅ ∅ ∅ ∅ ∅ ∅ false 0 ∅ 0 ∅ ∅.

Section Pool.
Context (cfg : SConfig) (sha256hex : bytes -> string) (durationString : Z -> string).

Definition keyOf (svc : Service) : string := ServiceKey sha256hex (sf_Remote cfg) svc.

(** [key[:12]] *)
Definition keyHash12 (key : string) : string := String.substring 0 12 key.

(** src/internal/services/pool.go:164-166 [networkName] *)
Definition networkName : string := "gauntlet-svc-" +:+ sf_Token cfg.

(** src/internal/services/pool.go:172-174 [namePrefix] *)
Definition namePrefix : string := "gauntlet-svc-" +:+ sf_Token cfg +:+ "-".

(** src/internal/services/pool.go:180-182 [instanceName] *)
Definition instanceName (key : string) : string := namePrefix +:+ keyHash12 key.

(** ** Critical sections *)

(** src/internal/services/pool.go:350-358 [reserveSlot] *)
Definition reserveSlot (p : SPool) : bool * SPool :=
  if sf_MaxInstances cfg <=? Z.of_nat (size (sp_instances p)) + sp_pending p then (false, p)
  else (true, p <| sp_pending ::= Z.succ |>).

(** src/internal/services/pool.go:360-364 [releaseSlot] *)
Definition releaseSlot (p : SPool) : SPool := p <| sp_pending ::= Z.pred |>.

(** src/internal/services/pool.go:246-249 [ensureOne] One more reference. *)
Definition addRef (key : string) (p : SPool) : SPool := p <| sp_refcount ::= (fun m => <[key := default 0 (m !! key) + 1]> m) |>.

(** src/internal/services/pool.go:242-255 [ensureOne] The call to wait for, or a call of one's own. *)
Definition joinOrLead (key : string) (p : SPool) : (nat + nat) * SPool :=
  match sp_inflight p !! key with
  | Some c => (inl c, p)
  | None => (inr (sp_next p), p <| sp_inflight ::= <[key := sp_next p]> |> <| sp_next ::= S |>)
  end.

(** src/internal/services/pool.go:259-264 [ensureOne] *)
Definition endCall (key : string) (res : string + SInstance) (p : SPool) : SPool :=
  let p := p <| sp_inflight ::= delete key |> in
  match res with inr _ => addRef key p | inl _ => p end.

(** src/internal/services/pool.go:290-292 [doEnsure] *)
Definition countHit (key : string) (p : SPool) : SPool := p <| sp_hits ::= (fun m => <[key := default 0 (m !! key) + 1]> m) |>.

(** src/internal/services/pool.go:320-325 [doEnsure] *)
Definition land (now : Z) (key : string) (inst : SInstance) (p : SPool) : SPool :=
  p <| sp_instances ::= <[key := inst]> |> <| sp_lastUsed ::= <[key := now]> |> <| sp_createdAt ::= <[key := now]> |>.

(** src/internal/services/pool.go:327-335 [doEnsure] *)
Definition recordOf (now : Z) (key : string) (svc : Service) (inst : SInstance) : SRecord :=
  mkSRecord key (in_Name inst) (sf_Remote cfg) (modeString (sf_Mode cfg)) svc (in_ContainerID inst) (in_Host inst) (in_Port inst)
    (match sf_Mode cfg with ModeNetwork => networkName | ModePublish => "" end) now now.

(** src/internal/services/pool.go:534-539 [evict] *)
Definition dropEntry (key : string) (p : SPool) : SPool :=
  p <| sp_instances ::= delete key |> <| sp_refcount ::= delete key |> <| sp_lastUsed ::= delete key |> <| sp_createdAt ::= delete key |>.

(** src/internal/services/pool.go:544-545 [evict] The runtime removes by name. *)
Definition destroy (key : string) (inst : SInstance) (removed : bool) (p : SPool) : SPool :=
  let p := if removed then p <| sp_running ::= delete (in_Name inst) |> else p in
  p <| sp_records ::= delete key |>.

(** src/internal/services/pool.go:467-480 [releaseKeys] *)
Definition dropRef (now : Z) (p : SPool) (key : string) : SPool :=
  let n := default 0 (sp_refcount p !! key) in
  let p := if 0 <? n then p <| sp_refcount ::= <[key := n - 1]> |> else p in
  match sp_instances p !! key with
  | Some _ => p <| sp_lastUsed ::= <[key := now]> |>
  | None => p
  end.

(** src/internal/services/pool.go:461-481 [releaseKeys] *)
Definition releaseKeys (now : Z) (keys : list string) (p : SPool) : SPool := fold_left (dropRef now) keys p.

(** src/internal/services/record.go:130-137 [touchRecordLastUsed] *)
Definition touchRecord (now : Z) (key : string) (p : SPool) : SPool :=
  p <| sp_records ::= alter (fun r => r <| rd_LastUsed := now |>) key |>.

(** src/internal/services/pool.go:644-648 [ArmReaper] *)
Definition ArmReaper (p : SPool) : SPool := p <| sp_reaperArmed := true |>.

(** src/internal/services/pool.go:655-670 [Reap] *)
Definition dueKeys (now : Z) (p : SPool) : list string :=
  if sp_reaperArmed p then
    map fst (List.filter (fun ki : string * SInstance =>
      (default 0 (sp_refcount p !! ki.1) <=? 0) && (sv_IdleTTL (in_Spec ki.2) <? now - default 0 (sp_lastUsed p !! ki.1)))
      (map_to_list (sp_instances p)))
  else [].

(** ** Threads *)

(** What came of [create] with the runtime: an error, an instance that never got ready, or one that did. *)
Inductive Created := CreateErr (err : string) | NeverReady (err logs : string) | Ready (containerID host port : string).

(** src/internal/services/pool.go:369-414 [create] *)
Definition createResult (key : string) (svc : Service) (r : Created) : string + SInstance :=
  match r with
  | CreateErr e => inl ("create " +:+ sv_Name svc +:+ ": " +:+ e)
  | NeverReady e logs => inl (sv_Name svc +:+ " not ready within " +:+ durationString (sv_ReadyTimeout svc) +:+ ": " +:+ e
                              +:+ String newline ("last output:" +:+ String newline logs))
  | Ready id host port => inr (mkSInstance (instanceName key) key id (sf_Mode cfg) host port svc)
  end.

(** Where a call of [ensureOne] is. A number is the call in flight. *)
Inductive ensurePC :=
  | EEnter
  | EWait (c : nat)
  | EJoin (inst : SInstance)
  | ELookup (c : nat)
  | EProbe (c : nat) (inst : SInstance)
  | EHit (c : nat) (inst : SInstance)
  | EDrop (c : nat) (inst : SInstance)
  | EDestroy (c : nat) (inst : SInstance)
  | EReserve (c : nat)
  | ECreate (c : nat)
  | ELand (c : nat) (inst : SInstance)
  | EUnreserve (c : nat) (res : string + SInstance) (at_ : Z)
  | ECount (c : nat) (res : string + SInstance)
  | EPublish (c : nat) (res : string + SInstance)
  | EDone (res : string + SInstance).

(** What the runtime or the file system answered, or a thread's choice. *)
Inductive answer :=
  | ANone
  | AProbe (alive ready : bool)
  | ACreate (r : Created)
  | ADone (ok : bool)
  | ACheck
  | AOrder (keys : list string).

(** src/internal/services/pool.go:277-342 [doEnsure] And the sections of [ensureOne] around it (241-269). *)
Definition ensureStep (now : Z) (a : answer) (key : string) (svc : Service) (p : SPool) (pc : ensurePC) : option (SPool * ensurePC) :=
  match pc, a with
  | EEnter, _ =>
      match joinOrLead key p with
      | (inl c, p) => Some (p, EWait c)
      | (inr c, p) => Some (p, ELookup c)
      end
  | EWait c, _ =>
      match sp_calls p !! c with
      | Some (inr inst) => Some (p, EJoin inst)
      | Some (inl e) => Some (p, EDone (inl e))
      | None => None
      end
  | EJoin inst, _ => Some (addRef key p, EDone (inr inst))
  | ELookup c, _ =>
      match sp_instances p !! key with
      | Some inst => Some (p, EProbe c inst)
      | None => Some (p, EReserve c)
      end
  | EProbe c inst, AProbe alive ready => Some (p, if alive && ready then EHit c inst else EDrop c inst)
  | EHit c inst, _ => Some (countHit key p, ECount c (inr inst))
  | EDrop c inst, _ => Some (dropEntry key p, EDestroy c inst)
  | EDestroy c inst, ADone ok => Some (destroy key inst ok p, EReserve c)
  | EReserve c, _ =>
      match reserveSlot p with
      | (true, p) => Some (p, ECreate c)
      | (false, p) => Some (p, ECount c (inl ("max-instances (" +:+ pretty (sf_MaxInstances cfg) +:+ ") reached")))
      end
  | ECreate c, ACreate r =>
      match createResult key svc r with
      | inl e => Some (p, EUnreserve c (inl e) now)
      | inr inst => Some (p <| sp_running ::= <[in_Name inst := in_ContainerID inst]> |>, ELand c inst)
      end
  | ELand c inst, _ => Some (land now key inst p, EUnreserve c (inr inst) now)
  | EUnreserve c res at_, ADone ok =>
      let p := match res, ok with inr inst, true => p <| sp_records ::= <[key := recordOf at_ key svc inst]> |> | _, _ => p end in
      Some (releaseSlot p, ECount c res)
  | ECount c res, _ => Some (endCall key res p, EPublish c res)
  | EPublish c res, _ => Some (p <| sp_calls ::= <[c := res]> |>, EDone res)
  | _, _ => None
  end.

(** Where a run or the reaper is. A run ensures its needs one by one, holds them, may look for dead ones
    ([TCheck]) and releases them; [todo] is what is left of a list. *)
Inductive thread :=
  | TNeeds (svcs : list Service) (e : Ensured) (needs : list string)
  | TEnsure (svcs : list Service) (e : Ensured) (name : string) (svc : Service) (needs : list string) (pc : ensurePC)
  | THold (e : Ensured) (dead : bool)
  | TCheck (e : Ensured) (todo : list string) (dead : bool)
  | TCheckProbe (e : Ensured) (key : string) (inst : SInstance) (todo : list string) (dead : bool)
  | TCheckDrop (e : Ensured) (key : string) (inst : SInstance) (todo : list string)
  | TCheckDestroy (e : Ensured) (key : string) (inst : SInstance) (todo : list string)
  | TRelease (keys : list string) (err : option string)
  | TTouch (at_ : Z) (todo : list string) (err : option string)
  | TOver (err : option string)
  | TReap
  | TReapDue (due : list string)
  | TReapDrop (key : string) (inst : SInstance) (due : list string)
  | TReapDestroy (key : string) (inst : SInstance) (due : list string)
  | TReapForget (key : string) (due : list string).

(** src/internal/services/pool.go:199-202 [EnsureAll] The last service of that name. *)
Definition serviceNamed (svcs : list Service) (name : string) : option Service :=
  last (List.filter (fun s => String.eqb (sv_Name s) name) svcs).

(** src/internal/services/pool.go:221-227 [EnsureAll] *)
Definition addEnsured (name key : string) (inst : SInstance) (e : Ensured) : Ensured :=
  let env := "GAUNTLET_SVC_" +:+ envSafeName name in
  mkEnsured (es_Env e ++ [env +:+ "_HOST=" +:+ in_Host inst; env +:+ "_PORT=" +:+ in_Port inst]) (es_Networks e) (es_keys e ++ [key]).

(** src/internal/services/pool.go:229-232 [EnsureAll] *)
Definition withNetworks (e : Ensured) : Ensured :=
  match sf_Mode cfg, es_keys e with
  | ModeNetwork, _ :: _ => mkEnsured (es_Env e) [networkName] (es_keys e)
  | _, _ => e
  end.

(** src/internal/services/pool.go:198-233 [EnsureAll] *)
Definition needsStep (svcs : list Service) (e : Ensured) (needs : list string) : thread :=
  match needs with
  | [] => THold (withNetworks e) false
  | name :: needs =>
      match serviceNamed svcs name with
      | None => TRelease (es_keys e) (Some ("services: needs " +:+ quoted name +:+ ": no matching service declared"))
      | Some svc => TEnsure svcs e name svc needs EEnter
      end
  end.

(** src/internal/services/pool.go:496-513 [AnyDead] The entry is looked up again at every key. *)
Definition checkStep (e : Ensured) (todo : list string) (dead : bool) (p : SPool) : thread :=
  match todo with
  | [] => THold e dead
  | key :: todo =>
      match sp_instances p !! key with
      | None => TCheck e todo true
      | Some inst => TCheckProbe e key inst todo dead
      end
  end.

(** src/internal/services/pool.go:672-680 [Reap] *)
Definition reapStep (due : list string) (p : SPool) : thread :=
  match due with
  | [] => TReap
  | key :: due =>
      match sp_instances p !! key with
      | Some inst => if default 0 (sp_refcount p !! key) =? 0 then TReapDrop key inst due else TReapDue due
      | None => TReapDue due
      end
  end.

(** The keys of a map, in the order it was ranged over. *)
Definition sameKeys (keys due : list string) : bool :=
  Nat.eqb (length keys) (length due) && forallb (fun key => existsb (String.eqb key) keys) due.

(** src/internal/services/pool.go:654-695 [Reap] And the sections of EnsureAll, Release and AnyDead: one step of a thread;
    [None] where it cannot go on with that answer. *)
Definition step (now : Z) (a : answer) (p : SPool) (t : thread) : option (SPool * thread) :=
  match t, a with
  | TNeeds svcs e needs, _ => Some (p, needsStep svcs e needs)
  | TEnsure svcs e name svc needs (EDone (inr inst)), _ => Some (p, TNeeds svcs (addEnsured name (keyOf svc) inst e) needs)
  | TEnsure svcs e name svc needs (EDone (inl err)), _ =>
      Some (p, TRelease (es_keys e) (Some ("services: ensure " +:+ quoted name +:+ ": " +:+ err)))
  | TEnsure svcs e name svc needs pc, _ =>
      match ensureStep now a (keyOf svc) svc p pc with
      | Some (p, pc) => Some (p, TEnsure svcs e name svc needs pc)
      | None => None
      end
  | THold e dead, ACheck => Some (p, TCheck e (es_keys e) false)
  | THold e dead, _ => Some (p, TRelease (es_keys e) None)
  | TCheck e todo dead, _ => Some (p, checkStep e todo dead p)
  | TCheckProbe e key inst todo dead, AProbe alive _ => Some (p, if alive then TCheck e todo dead else TCheckDrop e key inst todo)
  | TCheckDrop e key inst todo, _ => Some (dropEntry key p, TCheckDestroy e key inst todo)
  | TCheckDestroy e key inst todo, ADone ok => Some (destroy key inst ok p, TCheck e todo true)
  | TRelease keys err, _ => Some (releaseKeys now keys p, TTouch now keys err)
  | TTouch at_ (key :: todo) err, ADone ok => Some (if ok then touchRecord at_ key p else p, TTouch at_ todo err)
  | TTouch _ [] err, _ => Some (p, TOver err)
  | TReap, AOrder keys => if sameKeys keys (dueKeys now p) then Some (p, TReapDue keys) else None
  | TReapDue due, _ => Some (p, reapStep due p)
  | TReapDrop key inst due, _ => Some (dropEntry key p, TReapDestroy key inst due)
  | TReapDestroy key inst due, ADone ok => Some (destroy key inst ok p, TReapForget key due)
  | TReapForget key due, _ => Some (p <| sp_hits ::= delete key |>, TReapDue due)
  | _, _ => None
  end.

(** ** Adoption at boot *)

(** The runtime at boot: names, the key label of a name ([None] without one or on an error), whether an instance is alive and ready. *)
Record Boot := mkBoot { bt_names : list string; bt_key : string -> option string; bt_alive : SInstance -> bool; bt_ready : SInstance -> bool }.

(** src/internal/services/pool.go:601-605 [Adopt] *)
Definition adoptedInstance (name key : string) (rec : SRecord) : SInstance :=
  mkSInstance name key (rd_ContainerID rec) (sf_Mode cfg) (rd_Host rec) (rd_Port rec) (rd_Spec rec).

(** src/internal/services/pool.go:571-635 [Adopt] One name. An instance that is refused is destroyed, its record
    with it once there is one. *)
Definition adoptOne (now : Z) (b : Boot) (records : gmap string SRecord) (p : SPool) (name : string) : SPool :=
  if negb (String.prefix namePrefix name) then p
  else
    let gone := p <| sp_running ::= delete name |> in
    match bt_key b name with
    | None => gone
    | Some key =>
        match records !! key with
        | None => gone
        | Some rec =>
            let inst := adoptedInstance name key rec in
            if negb (String.eqb (rd_Mode rec) (modeString (sf_Mode cfg))) || negb (bt_alive b inst) || negb (bt_ready b inst)
               || (sv_IdleTTL (rd_Spec rec) <? now - rd_LastUsed rec)
            then gone <| sp_records ::= delete key |>
            else p <| sp_instances ::= <[key := inst]> |> <| sp_lastUsed ::= <[key := rd_LastUsed rec]> |>
                   <| sp_createdAt ::= <[key := rd_CreatedAt rec]> |>
        end
    end.

(** src/internal/services/pool.go:554-638 [Adopt] Once, before any check or the reaper; the records were read
    before. *)
Definition Adopt (now : Z) (b : Boot) (p : SPool) : SPool :=
  fold_left (adoptOne now b (sp_records p)) (bt_names b) p.

(** ** Looking at the pool *)

(** src/internal/services/pool.go:703-721 [InstanceStatus] *)
Record InstanceStatus := mkInstanceStatus {
  ii_Service : string;
  ii_Image : string;
  ii_Key : string;
  ii_KeyHash12 : string;
  ii_Mode : SMode;
  ii_Host : string;
  ii_Port : string;
  ii_CreatedAt : Z;
  ii_LastUsed : Z;
  ii_Refcount : Z;
  ii_Hits : Z;
}.

(** src/internal/services/pool.go:739-768 [Snapshot] The instances; the cap and [sp_pending] stand beside them. *)
Definition SnapshotPool (p : SPool) : list InstanceStatus :=
  sort_by (fun a b => if String.eqb (ii_Service a) (ii_Service b) then String.ltb (ii_Key a) (ii_Key b) else String.ltb (ii_Service a) (ii_Service b))
    (map (fun ki : string * SInstance =>
      let (key, inst) := ki in
      mkInstanceStatus (sv_Name (in_Spec inst)) (sv_Image (in_Spec inst)) key (keyHash12 key) (in_Mode inst) (in_Host inst) (in_Port inst)
        (default 0 (sp_createdAt p !! key)) (default 0 (sp_lastUsed p !! key)) (default 0 (sp_refcount p !! key)) (default 0 (sp_hits p !! key)))
      (map_to_list (sp_instances p))).
End Pool.
