(* ===== verification/ServicePoolSpec.v ===== *)
(** What the service pool promises (ServicePool.v), over all interleavings of runs and reaper and all
    answers of the runtime: the cap on instances, one creation per key, and waiters that are
    served. And what it does not: that a service stays while a run holds it. *)
From stdpp Require Import relations.
From S2P Require Import Prelude GoString Core Spec ServicePool.

Open Scope string_scope.
Open Scope list_scope.
Open Scope Z_scope.

Section Spec.
Context (cfg : SConfig) (sha256hex : bytes -> string) (durationString : Z -> string).
Notation keyOf := (keyOf cfg sha256hex).
Notation step := (step cfg sha256hex durationString).
Notation ensureStep := (ensureStep cfg durationString).

(** ** All interleavings *)

Definition config : Type := SPool * list thread.

Inductive cstep : config -> config -> Prop :=
  | cs_step now a i p ts t p' t' : ts !! i = Some t -> step now a p t = Some (p', t') -> cstep (p, ts) (p', <[i := t']> ts)
  | cs_run p ts svcs needs : cstep (p, ts) (p, ts ++ [TNeeds svcs (mkEnsured [] [] []) needs])
  | cs_reaper p ts : cstep (p, ts) (p, ts ++ [TReap])
  | cs_arm p ts : cstep (p, ts) (ArmReaper p, ts).

(** A pool nobody uses yet: a new one, or one after [Adopt]. *)
Definition unused (p : SPool) : Prop := sp_inflight p = ∅ /\ sp_refcount p = ∅ /\ sp_pending p = 0 /\ sp_calls p = ∅.

Definition reachable (p0 : SPool) (c : config) : Prop := unused p0 /\ rtc cstep (p0, []) c.

(** ** What a thread is doing *)

(** The call a thread leads, until its end is entered in the registry. *)
Definition leadsPC (pc : ensurePC) : option nat :=
  match pc with
  | ELookup c | EProbe c _ | EHit c _ | EDrop c _ | EDestroy c _ | EReserve c | ECreate c | ELand c _ | EUnreserve c _ _ | ECount c _ => Some c
  | _ => None
  end.

Definition leads (t : thread) : option (string * nat) :=
  match t with TEnsure _ _ _ svc _ pc => option_map (pair (keyOf svc)) (leadsPC pc) | _ => None end.

(** The key of which the thread knows that no instance is registered. *)
Definition absent (t : thread) : option string :=
  match t with
  | TEnsure _ _ _ svc _ (EDestroy _ _ | EReserve _ | ECreate _ | ELand _ _) => Some (keyOf svc)
  | _ => None
  end.

(** Creating an instance that is not registered yet; with a slot reserved. *)
Definition creating (t : thread) : bool := match t with TEnsure _ _ _ _ _ (ECreate _ | ELand _ _) => true | _ => false end.
Definition slotted (t : thread) : bool :=
  match t with TEnsure _ _ _ _ _ (ECreate _ | ELand _ _ | EUnreserve _ _ _) => true | _ => false end.

(** ** What a step does *)

Definition refsOK (p : SPool) : Prop := forall key n, sp_refcount p !! key = Some n -> 0 <= n.

(** What a step leaves alone. *)
Definition sameLead (p : SPool) (t : thread) (p' : SPool) (t' : thread) : Prop := sp_inflight p' = sp_inflight p /\ leads t' = leads t.
Definition sameSlots (p : SPool) (t : thread) (p' : SPool) (t' : thread) : Prop :=
  sp_pending p' = sp_pending p /\ slotted t' = slotted t /\ creating t' = creating t.

Inductive effect (p : SPool) (t : thread) (p' : SPool) (t' : thread) : Prop :=
  | ef_keep : sameLead p t p' t' -> sameSlots p t p' t' -> sp_instances p' = sp_instances p ->
      (forall key, absent t' = Some key -> sp_instances p !! key = None \/ absent t = Some key) -> effect p t p' t'
  | ef_lead key c : sameSlots p t p' t' -> sp_instances p' = sp_instances p -> absent t' = None ->
      leads t = None -> leads t' = Some (key, c) -> sp_inflight p !! key = None -> sp_inflight p' = <[key := c]> (sp_inflight p) -> effect p t p' t'
  | ef_drop key : sameLead p t p' t' -> sameSlots p t p' t' -> sp_instances p' = delete key (sp_instances p) ->
      absent t' = None \/ absent t' = Some key -> effect p t p' t'
  | ef_reserve : sameLead p t p' t' -> sp_instances p' = sp_instances p -> absent t' = absent t ->
      slotted t = false -> creating t = false -> slotted t' = true -> creating t' = true ->
      Z.of_nat (size (sp_instances p)) + sp_pending p < sf_MaxInstances cfg -> sp_pending p' = sp_pending p + 1 -> effect p t p' t'
  | ef_land key c inst : sameLead p t p' t' -> leads t = Some (key, c) -> absent t = Some key -> absent t' = None ->
      sp_instances p' = <[key := inst]> (sp_instances p) -> sp_pending p' = sp_pending p ->
      slotted t = true -> creating t = true -> slotted t' = true -> creating t' = false -> effect p t p' t'
  | ef_fail : sameLead p t p' t' -> sp_instances p' = sp_instances p -> absent t' = None -> sp_pending p' = sp_pending p ->
      slotted t' = slotted t -> creating t' = false -> effect p t p' t'
  | ef_unreserve : sameLead p t p' t' -> sp_instances p' = sp_instances p -> absent t' = None -> sp_pending p' = sp_pending p - 1 ->
      slotted t = true -> slotted t' = false -> creating t = false -> creating t' = false -> effect p t p' t'
  | ef_end key c : sameSlots p t p' t' -> sp_instances p' = sp_instances p -> absent t' = None ->
      leads t = Some (key, c) -> leads t' = None -> sp_inflight p' = delete key (sp_inflight p) -> effect p t p' t'.

Lemma releaseKeys_same now keys p :
  sp_inflight (releaseKeys now keys p) = sp_inflight p /\ sp_pending (releaseKeys now keys p) = sp_pending p /\
  sp_instances (releaseKeys now keys p) = sp_instances p /\ sp_calls (releaseKeys now keys p) = sp_calls p.
Proof.
  unfold releaseKeys. revert p. induction keys as [|key keys IH]; intros p; [done|]. cbn [fold_left].
  destruct (IH (dropRef now p key)) as (-> & -> & -> & ->). unfold dropRef. cbv zeta.
  destruct (0 <? _); cbn; case_match; done.
Qed.

Lemma ensureStep_effect now a svc p pc p' pc' svcs e name needs :
  ensureStep now a (keyOf svc) svc p pc = Some (p', pc') ->
  effect p (TEnsure svcs e name svc needs pc) p' (TEnsure svcs e name svc needs pc').
Proof.
  destruct pc as [|c|inst|c|c inst|c inst|c inst|c inst|c|c|c inst|c res at_|c res|c res|res]; cbn [ensureStep].
  - unfold joinOrLead. destruct (sp_inflight p !! keyOf svc) as [c|] eqn:E; intros [= <- <-].
    + by apply ef_keep.
    + by apply (ef_lead _ _ _ _ (keyOf svc) (sp_next p)).
  - destruct (sp_calls p !! c) as [[err|inst]|]; intros [= <- <-]; by apply ef_keep.
  - intros [= <- <-]. by apply ef_keep.
  - destruct (sp_instances p !! keyOf svc) as [inst|] eqn:E; intros [= <- <-]; apply ef_keep; try done.
    intros key [= <-]. by left.
  - destruct a as [|alive ready| | | |]; [done| |done..]. destruct (alive && ready); intros [= <- <-]; by apply ef_keep.
  - intros [= <- <-]. by apply ef_keep.
  - intros [= <- <-]. apply (ef_drop _ _ _ _ (keyOf svc)); try done. by right.
  - destruct a as [| | |ok| |]; [done..| |done|done]. intros [= <- <-]. unfold destroy. destruct ok; apply ef_keep; try done; intros key H; by right.
  - unfold reserveSlot. destruct (_ <=? _) eqn:E; intros [= <- <-]; [by apply ef_keep|]. apply Z.leb_gt in E. apply ef_reserve; done || lia.
  - destruct a as [| |r| | |]; [done|done| |done..]. destruct (createResult _ _ _ _) as [err|inst]; intros [= <- <-].
    + by apply ef_fail.
    + apply ef_keep; try done. intros key H. by right.
  - intros [= <- <-]. by apply (ef_land _ _ _ _ (keyOf svc) c inst).
  - destruct a as [| | |ok| |]; [done..| |done|done]. intros [= <- <-]. destruct res, ok; apply ef_unreserve; done || (cbn; lia).
  - intros [= <- <-]. apply (ef_end _ _ _ _ (keyOf svc) c); try done; unfold endCall; by destruct res.
  - intros [= <- <-]. by apply ef_keep.
  - done.
Qed.

(** A step outside [ensureOne] keeps the leads and the slots, and may drop entries. *)
Lemma other_keep p t p' t' :
  sp_inflight p' = sp_inflight p -> sp_pending p' = sp_pending p -> sp_instances p' = sp_instances p ->
  leads t = None -> leads t' = None -> slotted t = false -> slotted t' = false -> creating t = false -> creating t' = false ->
  absent t' = None -> effect p t p' t'.
Proof. intros. apply ef_keep; [split|split_and!|..]; try congruence. Qed.

Lemma other_drop key p t t' :
  leads t = None -> leads t' = None -> slotted t = false -> slotted t' = false -> creating t = false -> creating t' = false ->
  absent t' = None -> effect p t (dropEntry key p) t'.
Proof. intros. apply (ef_drop _ _ _ _ key); [split|split_and!|..]; try done; try congruence. by left. Qed.

Lemma step_effect now a p t p' t' : step now a p t = Some (p', t') -> effect p t p' t'.
Proof.
  destruct t as [svcs e needs|svcs e name svc needs pc|e dead|e todo dead|e key inst todo dead|e key inst todo|e key inst todo
    |keys err|at_ todo err|err| |due|key inst due|key inst due|key due]; cbn [ServicePool.step].
  - intros [= <- <-]. unfold needsStep. destruct needs as [|name needs]; [by apply other_keep|].
    destruct (serviceNamed _ _); [|by apply other_keep]. by apply ef_keep.
  - destruct pc as [|c|inst|c|c inst|c inst|c inst|c inst|c|c|c inst|c res at_|c res|c res|[err|inst]].
    15,16: intros [= <- <-]; by apply other_keep.
    all: destruct (ensureStep _ _ _ _ _ _) as [[p1 pc1]|] eqn:E; [|done]; intros [= <- <-]; by eapply ensureStep_effect.
  - destruct a; intros [= <- <-]; by apply other_keep.
  - intros [= <- <-]. unfold checkStep. destruct todo; [by apply other_keep|]. destruct (_ !! _); by apply other_keep.
  - destruct a as [|alive ready| | | |]; [done| |done..]. intros [= <- <-]. destruct alive; by apply other_keep.
  - intros [= <- <-]. by apply other_drop.
  - destruct a as [| | |ok| |]; [done..| |done|done]. intros [= <- <-]. destruct ok; by apply other_keep.
  - intros [= <- <-]. destruct (releaseKeys_same now keys p) as (? & ? & ? & _). by apply other_keep.
  - destruct todo as [|key todo]; [intros [= <- <-]; by apply other_keep|]. destruct a as [| | |ok| |]; [done..| |done|done].
    intros [= <- <-]. destruct ok; by apply other_keep.
  - done.
  - destruct a as [| | | | |keys]; [done..|]. destruct (sameKeys _ _); [|done]. intros [= <- <-]. by apply other_keep.
  - intros [= <- <-]. unfold reapStep. destruct due; [by apply other_keep|]. destruct (_ !! _); [|by apply other_keep].
    destruct (_ =? _); by apply other_keep.
  - intros [= <- <-]. by apply other_drop.
  - destruct a as [| | |ok| |]; [done..| |done|done]. intros [= <- <-]. destruct ok; by apply other_keep.
  - intros [= <- <-]. by apply other_keep.
Qed.

(** ** The invariant *)

Definition count (f : thread -> bool) (ts : list thread) : Z := Z.of_nat (length (List.filter f ts)).
Definition b2z (b : bool) : Z := if b then 1 else 0.

Lemma count_insert f ts i t t' : ts !! i = Some t -> count f (<[i := t']> ts) = count f ts - b2z (f t) + b2z (f t').
Proof.
  unfold count. revert i. induction ts as [|u ts IH]; intros [|i] H; try done.
  - injection H as ->. cbn. destruct (f t), (f t'); cbn; lia.
  - cbn in H. specialize (IH i H). change (<[S i := t']> (u :: ts)) with (u :: <[i := t']> ts). cbn [List.filter]. destruct (f u); cbn [length]; lia.
Qed.

Lemma count_app f ts t : f t = false -> count f (ts ++ [t]) = count f ts.
Proof. intros H. unfold count. rewrite List.filter_app. cbn. by rewrite H, app_nil_r. Qed.

Record inv (bound : Z) (c : config) : Prop := mkInv {
  i_lead : forall i t key call, snd c !! i = Some t -> leads t = Some (key, call) -> sp_inflight (fst c) !! key = Some call;
  i_one : forall i j ti tj key ci cj, snd c !! i = Some ti -> snd c !! j = Some tj ->
            leads ti = Some (key, ci) -> leads tj = Some (key, cj) -> i = j;
  i_absent : forall i t key, snd c !! i = Some t -> absent t = Some key -> sp_instances (fst c) !! key = None;
  i_cap : Z.of_nat (size (sp_instances (fst c))) + count creating (snd c) <= bound;
  i_pending : sp_pending (fst c) = count slotted (snd c);
}.

Lemma creating_slotted t : creating t = true -> slotted t = true.
Proof. by destruct t as [| ? ? ? ? ? [] | | | | | | | | | | | | |]. Qed.

Lemma count_le ts : count creating ts <= count slotted ts.
Proof.
  unfold count. induction ts as [|t ts IH]; [done|]. cbn [List.filter]. destruct (creating t) eqn:E.
  - rewrite (creating_slotted t E). cbn [length]. lia.
  - destruct (slotted t); cbn [length]; lia.
Qed.

Lemma absent_leads t key : absent t = Some key -> exists c, leads t = Some (key, c).
Proof. destruct t as [| ? ? ? svc ? [] | | | | | | | | | | | | |]; try done; intros [= <-]; eexists; reflexivity. Qed.

Lemma insert_cases {A} (l : list A) i x j y : (i < length l)%nat -> <[i := x]> l !! j = Some y -> (j = i /\ y = x) \/ (j <> i /\ l !! j = Some y).
Proof.
  intros Hlt Hj. destruct (decide (j = i)) as [->|Hne].
  - rewrite list_lookup_insert_eq in Hj by done. left. by injection Hj.
  - rewrite list_lookup_insert_ne in Hj by done. by right.
Qed.

Lemma effect_lead p t p' t' : effect p t p' t' ->
  sameLead p t p' t' \/
  (exists key c, leads t = None /\ leads t' = Some (key, c) /\ sp_inflight p !! key = None /\ sp_inflight p' = <[key := c]> (sp_inflight p)) \/
  (exists key c, leads t = Some (key, c) /\ leads t' = None /\ sp_inflight p' = delete key (sp_inflight p)).
Proof. destruct 1; try (by left); right; [left|right]; by exists key, c. Qed.

Lemma lead_step bound p ts i t p' t' :
  ts !! i = Some t -> effect p t p' t' -> inv bound (p, ts) ->
  (forall j v key call, <[i := t']> ts !! j = Some v -> leads v = Some (key, call) -> sp_inflight p' !! key = Some call) /\
  (forall j k tj tk key cj ck, <[i := t']> ts !! j = Some tj -> <[i := t']> ts !! k = Some tk ->
     leads tj = Some (key, cj) -> leads tk = Some (key, ck) -> j = k).
Proof.
  intros Hi He [L O _ _ _]. cbn [fst snd] in *. pose proof (lookup_lt_Some _ _ _ Hi) as Hlt.
  apply effect_lead in He as [[E1 E2]|[(key0 & c0 & E1 & E2 & En & Ei)|(key0 & c0 & E1 & E2 & Ei)]].
  - rewrite E1. split.
    + intros j v key call [[-> ->]|[_ Hj]]%(insert_cases _ _ _ _ _ Hlt) Hv; [rewrite E2 in Hv|]; eauto.
    + intros j k tj tk key cj ck [[-> ->]|[? Hj]]%(insert_cases _ _ _ _ _ Hlt) [[-> ->]|[? Hk]]%(insert_cases _ _ _ _ _ Hlt) H1 H2; rewrite ?E2 in *; eauto.
  - assert (forall j u call, ts !! j = Some u -> leads u = Some (key0, call) -> False) as Hno by (intros j u call Hj Hu; by rewrite (L _ _ _ _ Hj Hu) in En).
    rewrite Ei. split.
    + intros j v key call [[-> ->]|[_ Hj]]%(insert_cases _ _ _ _ _ Hlt) Hv.
      * rewrite E2 in Hv. injection Hv as -> ->. apply lookup_insert_eq.
      * rewrite lookup_insert_ne; [by eapply L|]. intros <-. by eapply Hno.
    + intros j k tj tk key cj ck [[-> ->]|[? Hj]]%(insert_cases _ _ _ _ _ Hlt) [[-> ->]|[? Hk]]%(insert_cases _ _ _ _ _ Hlt) H1 H2; [done| | |by eauto].
      * rewrite E2 in H1. injection H1 as -> _. by destruct (Hno _ _ _ Hk H2).
      * rewrite E2 in H2. injection H2 as -> _. by destruct (Hno _ _ _ Hj H1).
  - rewrite Ei. split.
    + intros j v key call [[-> ->]|[Hne Hj]]%(insert_cases _ _ _ _ _ Hlt) Hv; [congruence|]. rewrite lookup_delete_ne; [by eapply L|].
      intros <-. by destruct (Hne (O j i v t key0 call c0 Hj Hi Hv E1)).
    + intros j k tj tk key cj ck [[-> ->]|[? Hj]]%(insert_cases _ _ _ _ _ Hlt) [[-> ->]|[? Hk]]%(insert_cases _ _ _ _ _ Hlt) H1 H2; [done|congruence..|by eauto].
Qed.

Lemma absent_step bound p ts i t p' t' :
  ts !! i = Some t -> effect p t p' t' -> inv bound (p, ts) ->
  forall j v key, <[i := t']> ts !! j = Some v -> absent v = Some key -> sp_instances p' !! key = None.
Proof.
  intros Hi He [_ O A _ _] j v key Hj Hv. cbn [fst snd] in *. pose proof (lookup_lt_Some _ _ _ Hi) as Hlt.
  apply (insert_cases _ _ _ _ _ Hlt) in Hj as [[-> ->]|[Hne Hj]].
  - destruct He as [? ? E Hk|? ? ? E Ha|key0 ? ? E Ha|? E Ea|? ? ? ? ? ? Ha|? ? Ha|? ? Ha|? ? ? ? Ha]; try congruence.
    + rewrite E. destruct (Hk key Hv) as [?|?]; [done|by eapply A].
    + destruct Ha as [Ha|Ha]; rewrite Ha in Hv; [done|]. injection Hv as <-. rewrite E. apply lookup_delete_eq.
    + rewrite E. eapply A; [exact Hi|congruence].
  - specialize (A j v key Hj Hv). destruct He as [? ? E Hk|? ? ? E Ha|key0 ? ? E Ha|? E Ea|key0 c inst ? El ? ? E|? E Ha|? E Ha|? ? ? E Ha];
      rewrite E; try done.
    + rewrite lookup_delete_None. by right.
    + rewrite lookup_insert_ne; [done|]. intros <-. destruct (absent_leads v key0 Hv) as [cv Ev]. by destruct (Hne (O j i v t key0 cv c Hj Hi Ev El)).
Qed.

Lemma cap_step bound p ts i t p' t' :
  sf_MaxInstances cfg <= bound -> ts !! i = Some t -> effect p t p' t' -> inv bound (p, ts) ->
  Z.of_nat (size (sp_instances p')) + count creating (<[i := t']> ts) <= bound /\ sp_pending p' = count slotted (<[i := t']> ts).
Proof.
  intros Hb Hi He [_ _ A C P]. cbn [fst snd] in *. rewrite !(count_insert _ _ _ _ _ Hi). pose proof (count_le ts) as Hle.
  destruct He as [? (E1 & E2 & E3) E|? ? (E1 & E2 & E3) E|key0 ? (E1 & E2 & E3) E|? E ? S1 C1 S2 C2 Hm Hp|key0 c inst ? El Ea ? E Hp S1 C1 S2 C2|? E ? Hp S1 C1|? E ? Hp S1 S2 C1 C2|? ? (E1 & E2 & E3) E];
    rewrite E; rewrite ?E1, ?E2, ?E3, ?S1, ?S2, ?C1, ?C2; cbn [b2z]; try lia.
  - assert (size (delete key0 (sp_instances p)) <= size (sp_instances p))%nat by (rewrite map_size_delete; case_match; simpl; lia). lia.
  - rewrite map_size_insert_None by (by eapply A). lia.
  - destruct (creating t); cbn [b2z]; lia.
Qed.

Lemma inv_step bound p ts i t p' t' :
  sf_MaxInstances cfg <= bound -> ts !! i = Some t -> effect p t p' t' -> inv bound (p, ts) -> inv bound (p', <[i := t']> ts).
Proof.
  intros Hb Hi He HI. destruct (lead_step _ _ _ _ _ _ _ Hi He HI) as [H1 H2]. destruct (cap_step _ _ _ _ _ _ _ Hb Hi He HI) as [H3 H4].
  split; cbn [fst snd]; [exact H1|exact H2|by eapply absent_step|exact H3|exact H4].
Qed.

(** A new thread neither leads a call nor holds a slot. *)
Lemma inv_spawn bound p ts t : leads t = None -> absent t = None -> creating t = false -> slotted t = false -> inv bound (p, ts) -> inv bound (p, ts ++ [t]).
Proof.
  intros E1 E2 E3 E4 [L O A C P]. cbn [fst snd] in *.
  assert (forall j u, (ts ++ [t]) !! j = Some u -> u = t \/ ts !! j = Some u) as Hl.
  { intros j u [Hj|[_ Hj]]%lookup_app_Some; [by right|]. left. by apply list_lookup_singleton_Some in Hj as [_ ->]. }
  split; cbn [fst snd].
  - intros j v key call [->|Hj]%Hl Hv; [congruence|by eapply L].
  - intros j k tj tk key cj ck [->|Hj]%Hl [->|Hk]%Hl H1 H2; try congruence. by eapply O.
  - intros j v key [->|Hj]%Hl Hv; [congruence|by eapply A].
  - by rewrite count_app.
  - by rewrite count_app.
Qed.

Lemma inv_cstep bound c c' : sf_MaxInstances cfg <= bound -> cstep c c' -> inv bound c -> inv bound c'.
Proof.
  intros Hb [now a i p ts t p' t' Hi Hs|p ts svcs needs|p ts|p ts] HI.
  - apply step_effect in Hs. by eapply inv_step.
  - by apply inv_spawn.
  - by apply inv_spawn.
  - by destruct HI.
Qed.

Lemma reachable_inv p0 c : reachable p0 c -> inv (Z.max (sf_MaxInstances cfg) (Z.of_nat (size (sp_instances p0)))) c.
Proof.
  intros [(E1 & E2 & E3 & E4) Hs]. set (bound := Z.max _ _).
  assert (inv bound (p0, [])) as H0 by (split; cbn; [done|done|done|unfold count; cbn; lia|done]).
  clear E1 E2 E3 E4. revert H0. induction Hs as [c|c1 c2 c3 H1 _ IH]; [done|]. intros H0. apply IH. eapply inv_cstep; [subst bound; lia|exact H1|exact H0].
Qed.

(** ** Waiting for a call *)

(** The call a thread will publish, and the one it waits for. *)
Definition callOf (t : thread) : option nat :=
  match t with TEnsure _ _ _ _ _ (EPublish c _) => Some c | _ => snd <$> leads t end.
Definition waits (t : thread) : option nat := match t with TEnsure _ _ _ _ _ (EWait c) => Some c | _ => None end.

Definition can_step (p : SPool) (t : thread) : Prop := exists now a r, step now a p t = Some r.
Definition is_over (t : thread) : bool := match t with TOver _ => true | _ => false end.

Lemma sameKeys_refl l : sameKeys l l = true.
Proof.
  unfold sameKeys. rewrite Nat.eqb_refl. apply forallb_forall. intros x Hx. apply existsb_exists. exists x. split; [done|apply String.eqb_refl].
Qed.

Lemma not_waiting_steps p t : is_over t = false -> waits t = None -> can_step p t.
Proof.
  intros Ho Hw. unfold can_step. exists 0.
  destruct t as [svcs e needs|svcs e name svc needs pc|e dead|e todo dead|e key inst todo dead|e key inst todo|e key inst todo
    |keys err|at_ todo err|err| |due|key inst due|key inst due|key due]; try done.
  2: destruct pc as [|c|inst|c|c inst|c inst|c inst|c inst|c|c|c inst|c res at_|c res|c res|[err|inst]]; try done.
  all: try (exists ANone; cbn [ServicePool.step ServicePool.ensureStep]; by eexists).
  - exists ANone. cbn. destruct (joinOrLead _ _) as [[?|?] ?]; by eexists.
  - exists ANone. cbn. destruct (_ !! _); by eexists.
  - exists (AProbe true true). by eexists.
  - exists (ADone true). by eexists.
  - exists ANone. cbn. destruct (reserveSlot _ _) as [[] ?]; by eexists.
  - exists (ACreate (CreateErr "")). by eexists.
  - exists (ADone true). by eexists.
  - exists (AProbe true true). by eexists.
  - exists (ADone true). by eexists.
  - destruct todo; [exists ANone|exists (ADone true)]; by eexists.
  - exists (AOrder (dueKeys 0 p)). cbn [ServicePool.step]. rewrite sameKeys_refl. by eexists.
  - exists (ADone true). by eexists.
Qed.

Lemma other_calls p t p' t' :
  sp_calls p' = sp_calls p -> callOf t = None -> waits t' = None ->
  ((sp_calls p' = sp_calls p /\ (callOf t' = callOf t \/ callOf t = None)) \/
   (exists c res, callOf t = Some c /\ sp_calls p' = <[c := res]> (sp_calls p))) /\
  (forall c, waits t' = Some c -> exists key, sp_inflight p !! key = Some c).
Proof. intros H1 H2 H3. split; [left; auto|]. intros c. congruence. Qed.

(** What a step does to the calls: it may publish its own, and a thread comes to wait only for one in flight. *)
Lemma step_calls now a p t p' t' :
  step now a p t = Some (p', t') ->
  ((sp_calls p' = sp_calls p /\ (callOf t' = callOf t \/ callOf t = None)) \/
   (exists c res, callOf t = Some c /\ sp_calls p' = <[c := res]> (sp_calls p))) /\
  (forall c, waits t' = Some c -> exists key, sp_inflight p !! key = Some c).
Proof.
  destruct t as [svcs e needs|svcs e name svc needs pc|e dead|e todo dead|e key inst todo dead|e key inst todo|e key inst todo
    |keys err|at_ todo err|err| |due|key inst due|key inst due|key due]; cbn [ServicePool.step].
  2: { destruct pc as [|c|inst|c|c inst|c inst|c inst|c inst|c|c|c inst|c res at_|c res|c res|[err|inst]]; cbn [ServicePool.ensureStep].
    - unfold joinOrLead. destruct (sp_inflight p !! keyOf svc) as [c|] eqn:E; intros [= <- <-]; (split; [left; split; [done|by right]|]); [|done].
      intros c' [= <-]. by exists (keyOf svc).
    - destruct (sp_calls p !! c) as [[err|inst]|]; intros [= <- <-]; (split; [left; split; [done|by left]|done]).
    - intros [= <- <-]. split; [left; split; [done|by left]|done].
    - destruct (_ !! _); intros [= <- <-]; (split; [left; split; [done|by left]|done]).
    - destruct a; try done. destruct (_ && _); intros [= <- <-]; (split; [left; split; [done|by left]|done]).
    - intros [= <- <-]. split; [left; split; [done|by left]|done].
    - intros [= <- <-]. split; [left; split; [done|by left]|done].
    - destruct a as [| | |[]| |]; try done; intros [= <- <-]; (split; [left; split; [done|by left]|done]).
    - unfold reserveSlot. destruct (_ <=? _); intros [= <- <-]; (split; [left; split; [done|by left]|done]).
    - destruct a; try done. destruct (createResult _ _ _ _); intros [= <- <-]; (split; [left; split; [done|by left]|done]).
    - intros [= <- <-]. split; [left; split; [done|by left]|done].
    - destruct a as [| | |[]| |]; try done; intros [= <- <-]; (split; [left; split; [by destruct res|by left]|done]).
    - intros [= <- <-]. split; [left; split; [unfold endCall; by destruct res|by left]|done].
    - intros [= <- <-]. split; [right; by exists c, res|done].
    - intros [= <- <-]. split; [left; split; [done|by left]|done].
    - intros [= <- <-]. split; [left; split; [done|by left]|done]. }
  all: repeat (case_match; try done); intros ?; simplify_eq; unfold needsStep, checkStep, reapStep, destroy.
  all: repeat case_match; apply other_calls; try done; apply releaseKeys_same.
Qed.

Record winv (c : config) : Prop := mkWinv {
  w_lead : forall key call, sp_inflight (fst c) !! key = Some call -> exists j u, snd c !! j = Some u /\ leads u = Some (key, call);
  w_wait : forall i t call, snd c !! i = Some t -> waits t = Some call ->
             isSome (sp_calls (fst c) !! call) = true \/ exists j u, snd c !! j = Some u /\ callOf u = Some call;
}.

Lemma leads_callOf t key c : leads t = Some (key, c) -> callOf t = Some c.
Proof. destruct t as [| ? ? ? ? ? [] | | | | | | | | | | | | |]; try done; intros [= _ <-]; done. Qed.

Lemma winv_step bound p ts i t now a p' t' :
  ts !! i = Some t -> step now a p t = Some (p', t') -> inv bound (p, ts) -> winv (p, ts) -> winv (p', <[i := t']> ts).
Proof.
  intros Hi Hs HI [WL WW]. cbn [fst snd] in *. pose proof (lookup_lt_Some _ _ _ Hi) as Hlt.
  destruct (step_calls _ _ _ _ _ _ Hs) as [Hcalls Hwait]. apply step_effect in Hs. split; cbn [fst snd].
  - destruct HI as [L O _ _ _]. cbn [fst snd] in *. intros key call Hk.
    apply effect_lead in Hs as [[E1 E2]|[(key0 & c0 & E1 & E2 & En & Ei)|(key0 & c0 & E1 & E2 & Ei)]].
    + rewrite E1 in Hk. destruct (WL _ _ Hk) as (j & u & Hj & Hu). destruct (decide (j = i)) as [->|Hne].
      * exists i, t'. rewrite list_lookup_insert_eq by done. split; [done|congruence].
      * exists j, u. by rewrite list_lookup_insert_ne.
    + rewrite Ei in Hk. destruct (decide (key = key0)) as [->|Hne].
      * rewrite lookup_insert_eq in Hk. injection Hk as <-. exists i, t'. by rewrite list_lookup_insert_eq.
      * rewrite lookup_insert_ne in Hk by done. destruct (WL _ _ Hk) as (j & u & Hj & Hu). exists j, u.
        rewrite list_lookup_insert_ne; [done|]. intros <-. congruence.
    + rewrite Ei in Hk. apply lookup_delete_Some in Hk as [Hne Hk]. destruct (WL _ _ Hk) as (j & u & Hj & Hu). exists j, u.
      rewrite list_lookup_insert_ne; [done|]. intros <-. congruence.
  - assert (forall call, isSome (sp_calls p !! call) = true \/ (exists j u, ts !! j = Some u /\ callOf u = Some call) ->
      isSome (sp_calls p' !! call) = true \/ exists j u, <[i := t']> ts !! j = Some u /\ callOf u = Some call) as Hkeep.
    { intros call. destruct Hcalls as [[Ec Ho]|(c & res & Ec & Ecs)].
      - rewrite Ec. intros [?|(j & u & Hj & Hu)]; [by left|]. right. destruct (decide (j = i)) as [->|Hne].
        + exists i, t'. rewrite list_lookup_insert_eq by done. split; [done|]. destruct Ho; congruence.
        + exists j, u. by rewrite list_lookup_insert_ne.
      - rewrite Ecs. destruct (decide (call = c)) as [->|Hn]; [left; by rewrite lookup_insert_eq|]. rewrite lookup_insert_ne by done.
        intros [?|(j & u & Hj & Hu)]; [by left|]. right. exists j, u. rewrite list_lookup_insert_ne; [done|]. intros <-. congruence. }
    intros j u call [[-> ->]|[_ Hj]]%(insert_cases _ _ _ _ _ Hlt) Hw; apply Hkeep.
    + destruct (Hwait call Hw) as [key Hk]. destruct (WL _ _ Hk) as (k & v & Hv & Ev). right. exists k, v. split; [done|by eapply leads_callOf].
    + by eapply WW.
Qed.

Lemma winv_spawn p ts t : waits t = None -> winv (p, ts) -> winv (p, ts ++ [t]).
Proof.
  intros E [WL WW]. cbn [fst snd] in *. assert (forall j u, ts !! j = Some u -> (ts ++ [t]) !! j = Some u) as Hl by (intros j u; apply lookup_app_l_Some).
  split; cbn [fst snd].
  - intros key call Hk. destruct (WL _ _ Hk) as (j & u & Hj & Hu). eauto.
  - intros j u call [Hj|[_ Hj]]%lookup_app_Some Hw.
    + destruct (WW _ _ _ Hj Hw) as [?|(k & v & Hk & Hv)]; [by left|]. right. exists k, v. auto.
    + apply list_lookup_singleton_Some in Hj as [_ <-]. congruence.
Qed.

Lemma reachable_winv p0 c : reachable p0 c -> winv c.
Proof.
  intros Hr. destruct Hr as [(E1 & E2 & E3 & E4) Hs].
  assert (winv (p0, [])) as H0 by (split; cbn; [intros key call; rewrite E1; by rewrite lookup_empty|done]).
  assert (inv (Z.max (sf_MaxInstances cfg) (Z.of_nat (size (sp_instances p0)))) (p0, [])) as HI by (apply reachable_inv; split; [done|apply rtc_refl]).
  clear E1 E2 E3 E4. revert H0 HI. set (bound := Z.max _ _). assert (sf_MaxInstances cfg <= bound) as Hb by lia.
  induction Hs as [c|c1 c2 c3 H1 _ IH]; [done|]. intros H0 HI. apply IH; [|by eapply inv_cstep].
  destruct H1 as [now a i p ts t p' t' Hi Hs|p ts svcs needs|p ts|p ts]; [by eapply winv_step|by apply winv_spawn..|by destruct H0].
Qed.

(** C17. The cap on service instances holds under every interleaving of runs and reaper: the instances
    registered and those being created are never more than the maximum, or than what was adopted at boot. A key is created by one
    run at a time: one thread leads the call that is in flight for it, and while it creates, no instance of the key is registered,
    so none is ever overwritten. *)
Theorem services_capped p0 p ts :
  reachable p0 (p, ts) ->
  Z.of_nat (size (sp_instances p)) + count creating ts <= Z.max (sf_MaxInstances cfg) (Z.of_nat (size (sp_instances p0))) /\
  sp_pending p = count slotted ts /\
  (forall i j ti tj key ci cj, ts !! i = Some ti -> ts !! j = Some tj -> leads ti = Some (key, ci) -> leads tj = Some (key, cj) -> i = j) /\
  (forall i t key, ts !! i = Some t -> absent t = Some key -> sp_instances p !! key = None).
Proof. intros H. by destruct (reachable_inv _ _ H) as [L O A C P]. Qed.

(** C19. Nobody waits forever for a service that another run is creating: a thread that has not ended can go on,
    given an answer of the runtime, or it waits for a call that another thread leads and that thread can go on. *)
Theorem services_waiters_served p0 p ts i t :
  reachable p0 (p, ts) -> ts !! i = Some t -> is_over t = false ->
  can_step p t \/ exists j u call, waits t = Some call /\ ts !! j = Some u /\ callOf u = Some call /\ can_step p u.
Proof.
  intros Hr Hi Ho. destruct (waits t) as [call|] eqn:Hw; [|left; by apply not_waiting_steps].
  destruct (reachable_winv _ _ Hr) as [_ WW]. destruct (WW i t call Hi Hw) as [Hc|(j & u & Hj & Hu)]; cbn [fst snd] in *.
  - left. destruct t as [| ? ? ? svc ? [] | | | | | | | | | | | | |]; try done. injection Hw as ->. exists 0, ANone. cbn.
    destruct (sp_calls p !! call) as [[?|?]|]; [by eexists..|done].
  - right. exists j, u, call. split_and!; try done. apply not_waiting_steps; destruct u as [| ? ? ? ? ? [] | | | | | | | | | | | | |]; done.
Qed.
End Spec.

(** ** Example: services that go while a run holds them *)

Section Play.
Context (cfg : SConfig) (sha256hex : bytes -> string) (durationString : Z -> string).

(** Threads taking steps as the script says: which one, when, with what answer. *)
Fixpoint play (script : list (nat * Z * answer)) (c : SPool * list thread) : option (SPool * list thread) :=
  match script with
  | [] => Some c
  | (i, now, a) :: script =>
      match snd c !! i with
      | Some t =>
          match step cfg sha256hex durationString now a (fst c) t with
          | Some (p, t) => play script (p, <[i := t]> (snd c))
          | None => None
          end
      | None => None
      end
  end.

Lemma play_steps script c c' : play script c = Some c' -> rtc (cstep cfg sha256hex durationString) c c'.
Proof.
  revert c. induction script as [|[[i now] a] script IH]; intros [p ts]; cbn [play fst snd]; [intros [= <-]; apply rtc_refl|].
  destruct (ts !! i) as [t|] eqn:Hi; [|done]. destruct (step _ _ _ _ _ _ _) as [[p' t']|] eqn:Hs; [|done].
  intros H. eapply rtc_l; [by eapply cs_step|by apply IH].
Qed.

(** The thread holds a service that is not registered any more and whose container the pool removed. *)
Definition bereft (p : SPool) (t : thread) : Prop :=
  exists e key, t = THold e false /\ key ∈ es_keys e /\ sp_instances p !! key = None /\ sp_running p !! instanceName cfg key = None.
End Play.

Definition demoCfg : SConfig := mkSConfig "git@host:repo" "t0" ModePublish 4.
Definition demoSha (_ : bytes) : string := "0123456789abcdef".
Definition demoSvc : Service := mkService "db" "postgres:17" 5432 [] [] 60000000000 600000000000 "" "".
Definition demoThreads : list thread :=
  let run := TNeeds [demoSvc] (mkEnsured [] [] []) ["db"] in
  [run; run; run; TReap].

Definition sec : Z := 1000000000.

(** A run that creates the service, from its start to holding it; and one that finds it registered. *)
Definition creates (i : nat) (now : Z) (id : string) : list (nat * Z * answer) :=
  [(i, now, ANone); (i, now, ANone); (i, now, ANone); (i, now, ANone); (i, now, ACreate (Ready id "127.0.0.1" "40001"));
   (i, now, ANone); (i, now, ADone true); (i, now, ANone); (i, now, ANone); (i, now, ANone); (i, now, ANone)].
Definition finds (i : nat) (now : Z) : list (nat * Z * answer) :=
  [(i, now, ANone); (i, now, ANone); (i, now, ANone); (i, now, AProbe true true); (i, now, ANone); (i, now, ANone); (i, now, ANone); (i, now, ANone); (i, now, ANone)].

(** Run 0 holds the service when run 1 finds it not ready, evicts it and creates another. As run 0 releases what it
    held, the count of the new instance drops to zero, and the reaper takes it from run 1. *)
Definition countStolen : list (nat * Z * answer) :=
  creates 0 (1 * sec) "c1" ++
  [(1%nat, 2 * sec, ANone); (1%nat, 2 * sec, ANone); (1%nat, 2 * sec, ANone); (1%nat, 2 * sec, AProbe true false); (1%nat, 2 * sec, ANone); (1%nat, 2 * sec, ADone true)] ++
  [(1%nat, 3 * sec, ANone); (1%nat, 3 * sec, ACreate (Ready "c2" "127.0.0.1" "40002"));
   (1%nat, 3 * sec, ANone); (1%nat, 3 * sec, ADone true); (1%nat, 3 * sec, ANone); (1%nat, 3 * sec, ANone); (1%nat, 3 * sec, ANone); (1%nat, 3 * sec, ANone)] ++
  [(0%nat, 4 * sec, ANone); (0%nat, 4 * sec, ANone); (0%nat, 4 * sec, ADone true); (0%nat, 4 * sec, ANone)] ++
  [(3%nat, 700 * sec, AOrder ["0123456789abcdef"]); (3%nat, 700 * sec, ANone); (3%nat, 700 * sec, ANone); (3%nat, 700 * sec, ADone true)].

(** Runs 0 and 1 both find the container of their failed checks dead. Run 0 evicts it, run 2 creates a new
    one, and then run 1 evicts that: entry and container are removed by key and by name. *)
Definition evictedTwice : list (nat * Z * answer) :=
  creates 0 (1 * sec) "c1" ++ finds 1 (2 * sec) ++
  [(0%nat, 3 * sec, ACheck); (0%nat, 3 * sec, ANone); (0%nat, 3 * sec, AProbe false false); (1%nat, 3 * sec, ACheck); (1%nat, 3 * sec, ANone); (1%nat, 3 * sec, AProbe false false)] ++
  [(0%nat, 3 * sec, ANone); (0%nat, 3 * sec, ADone true)] ++ creates 2 (4 * sec) "c2" ++
  [(1%nat, 5 * sec, ANone); (1%nat, 5 * sec, ADone true)].

(** Run 0 released the service long ago. Run 1 finds it alive and ready; before it counts its reference, the reaper
    finds it idle for too long and not referenced. *)
Definition reapedInBetween : list (nat * Z * answer) :=
  creates 0 (1 * sec) "c1" ++ [(0%nat, 4 * sec, ANone); (0%nat, 4 * sec, ANone); (0%nat, 4 * sec, ADone true); (0%nat, 4 * sec, ANone)] ++
  [(1%nat, 700 * sec, ANone); (1%nat, 700 * sec, ANone); (1%nat, 700 * sec, ANone); (1%nat, 700 * sec, AProbe true true)] ++
  [(3%nat, 700 * sec, AOrder ["0123456789abcdef"]); (3%nat, 700 * sec, ANone); (3%nat, 700 * sec, ANone); (3%nat, 700 * sec, ADone true)] ++
  [(1%nat, 701 * sec, ANone); (1%nat, 701 * sec, ANone); (1%nat, 701 * sec, ANone); (1%nat, 701 * sec, ANone); (1%nat, 701 * sec, ANone)].

Definition played (script : list (nat * Z * answer)) : SPool * list thread :=
  default (newPool, []) (play demoCfg demoSha (fun _ => "1m0s") script (ArmReaper newPool, demoThreads)).

Lemma demoThreads_reachable : rtc (cstep demoCfg demoSha (fun _ => "1m0s")) (newPool, []) (ArmReaper newPool, demoThreads).
Proof.
  eapply rtc_l; [apply (cs_run _ _ _ newPool [] [demoSvc] ["db"])|]. eapply rtc_l; [apply (cs_run _ _ _ newPool _ [demoSvc] ["db"])|].
  eapply rtc_l; [apply (cs_run _ _ _ newPool _ [demoSvc] ["db"])|]. eapply rtc_l; [apply cs_reaper|]. apply rtc_once. apply cs_arm.
Qed.

(** C18. A run can lose a service it holds although nothing found that service dead, in three ways: the release of an
    instance that was evicted lowers the count of its replacement, so the reaper takes that for idle; a second
    run that saw the old container dead evicts the new one; and the reaper takes an idle instance between
    its reuse and the counting of the reference. *)
Theorem held_service_destroyed script i :
  (script, i) ∈ [(countStolen, 1%nat); (evictedTwice, 2%nat); (reapedInBetween, 1%nat)] ->
  exists t, reachable demoCfg demoSha (fun _ => "1m0s") newPool (played script) /\ snd (played script) !! i = Some t /\ bereft demoCfg (fst (played script)) t.
Proof.
  intros H. assert (exists c t, play demoCfg demoSha (fun _ => "1m0s") script (ArmReaper newPool, demoThreads) = Some c /\ snd c !! i = Some t /\ bereft demoCfg (fst c) t) as (c & t & Hp & Hi & Hb).
  { rewrite !elem_of_cons in H. destruct H as [[= -> ->]|[[= -> ->]|[[= -> ->]|?%elem_of_nil]]]; [..|done].
    all: eexists _, _; split; [vm_compute; reflexivity|]; split; [vm_compute; reflexivity|]; eexists _, "0123456789abcdef";
      split; [reflexivity|]; split; [by left|]; split; vm_compute; reflexivity. }
  exists t. unfold played. rewrite Hp. cbn [default]. split; [|done]. split; [done|]. etrans; [apply demoThreads_reachable|by eapply play_steps].
Qed.

Lemma held_service_destroyed_witness :
  (exists t, snd (played evictedTwice) !! 2%nat = Some t /\ bereft demoCfg (fst (played evictedTwice)) t) /\
  sp_running (fst (played evictedTwice)) = ∅.
Proof.
  split; [|vm_compute; reflexivity].
  destruct (held_service_destroyed evictedTwice 2 ltac:(right; left)) as (t & _ & Ht & Hb). exists t. exact (conj Ht Hb).
Defined.

(** Run 0 is creating the service, run 1 waits for its call. *)
Definition midway : SPool * list thread := played (take 4 (creates 0 (1 * sec) "c1") ++ [(1%nat, 1 * sec, ANone); (1%nat, 1 * sec, ANone)]).

Lemma midway_reachable : reachable demoCfg demoSha (fun _ => "1m0s") newPool midway.
Proof.
  split; [done|]. etrans; [apply demoThreads_reachable|]. eapply (play_steps _ _ _ (take 4 (creates 0 (1 * sec) "c1") ++ [(1%nat, 1 * sec, ANone); (1%nat, 1 * sec, ANone)])).
  vm_compute. reflexivity.
Qed.

Lemma services_capped_witness :
  count creating (snd midway) = 1 /\
  Z.of_nat (size (sp_instances (fst midway))) + count creating (snd midway) <= 4 /\ sp_pending (fst midway) = count slotted (snd midway).
Proof.
  split; [vm_compute; reflexivity|].
  destruct (services_capped demoCfg demoSha (fun _ => "1m0s") newPool (fst midway) (snd midway)) as (H1 & H2 & _).
  - rewrite <- surjective_pairing. exact midway_reachable.
  - split; [exact H1|exact H2].
Defined.

Lemma services_waiters_served_witness :
  exists t j u call, snd midway !! 1%nat = Some t /\ waits t = Some call /\ snd midway !! j = Some u /\ callOf demoCfg demoSha u = Some call /\
    can_step demoCfg demoSha (fun _ => "1m0s") (fst midway) u.
Proof.
  assert (exists t, snd midway !! 1%nat = Some t /\ is_over t = false /\ waits t = Some 0%nat) as (t & Hi & Ho & Hw)
    by (eexists; split; [vm_compute; reflexivity|split; reflexivity]).
  destruct (services_waiters_served demoCfg demoSha (fun _ => "1m0s") newPool (fst midway) (snd midway) 1 t) as [(now & a & r & Hs)|(j & u & call & H1 & H2 & H3 & H4)].
  - rewrite <- surjective_pairing. exact midway_reachable.
  - exact Hi.
  - exact Ho.
  - exfalso. assert (sp_calls (fst midway) !! 0%nat = None) as Hn by (vm_compute; reflexivity).
    destruct t as [| ? ? ? ? ? [] | | | | | | | | | | | | |]; try discriminate Hw. injection Hw as ->. cbn [step ensureStep] in Hs. rewrite Hn in Hs. discriminate Hs.
  - exists t, j, u, call. split; [exact Hi|]. split; [exact H1|]. split; [exact H2|]. split; [exact H3|exact H4].
Defined.

(** ** Adoption *)

(** What is registered after [Adopt] was found by its label among this daemon's containers, matches a record made in the same mode,
    is alive, ready and not idle beyond its time. *)
Lemma Adopt_only cfg now b p key inst :
  sp_instances p = ∅ -> sp_instances (Adopt cfg now b p) !! key = Some inst ->
  exists name rec, name ∈ bt_names b /\ String.prefix (namePrefix cfg) name = true /\ bt_key b name = Some key /\
    sp_records p !! key = Some rec /\ inst = adoptedInstance cfg name key rec /\ rd_Mode rec = modeString (sf_Mode cfg) /\
    bt_alive b inst = true /\ bt_ready b inst = true /\ now - rd_LastUsed rec <= sv_IdleTTL (rd_Spec rec).
Proof.
  intros Hp. unfold Adopt. set (recs := sp_records p). clearbody recs.
  assert (forall names q, (forall n, n ∈ names -> n ∈ bt_names b) ->
    sp_instances (fold_left (adoptOne cfg now b recs) names q) !! key = Some inst ->
    sp_instances q !! key = Some inst \/
    exists name rec, name ∈ bt_names b /\ String.prefix (namePrefix cfg) name = true /\ bt_key b name = Some key /\
      recs !! key = Some rec /\ inst = adoptedInstance cfg name key rec /\ rd_Mode rec = modeString (sf_Mode cfg) /\
      bt_alive b inst = true /\ bt_ready b inst = true /\ now - rd_LastUsed rec <= sv_IdleTTL (rd_Spec rec)) as H.
  { induction names as [|name names IH]; intros q Hin; [by left|]. cbn [fold_left]. intros H.
    apply IH in H as [H|?]; [|by right|intros n Hn; apply Hin; by right]. unfold adoptOne in H. destruct (negb (String.prefix _ _)) eqn:E1; [by left|].
    apply negb_false_iff in E1. destruct (bt_key b name) as [k|] eqn:E2; [|by left]. destruct (recs !! k) as [rec|] eqn:E3; [|by left].
    cbv zeta in H. destruct (_ || _) eqn:E4; [by left|]. cbn in H. destruct (decide (k = key)) as [->|Hne]; [|rewrite lookup_insert_ne in H by done; by left].
    rewrite lookup_insert_eq in H. injection H as <-. right. rewrite !orb_false_iff, !negb_false_iff, Z.ltb_ge in E4. destruct E4 as [[[E4%String.eqb_eq E5] E6] E7].
    exists name, rec. split_and!; try done. apply Hin. by left. }
  intros HA. destruct (H (bt_names b) p ltac:(done) HA) as [Hx|?]; [|done]. rewrite Hp in Hx. by rewrite lookup_empty in Hx.
Qed.

Lemma Adopt_unused cfg now b p : unused p -> unused (Adopt cfg now b p).
Proof.
  unfold Adopt. generalize (sp_records p). intros recs. revert p. induction (bt_names b) as [|name names IH]; intros p Hp; [done|]. cbn [fold_left]. apply IH.
  unfold adoptOne. repeat case_match; done.
Qed.
