(* ===== verification/Policy.v ===== *)
(** The policy engine (src/internal/policy/policy.go) around the Rego library:
    which queries a daemon compiles, and how their answers become a decision
    that fails closed. *)
From S2P Require Import Prelude GoString.

Open Scope string_scope.
Open Scope list_scope.
Open Scope Z_scope.

(** src/internal/policy/policy.go:22-26 [Requirement] *)
Record Requirement := mkRequirement { rq_Name : string; rq_Satisfied : bool; rq_Reason : string }.

(** src/internal/policy/policy.go:27-31 [Decision] *)
Record Decision := mkDecision { dc_Allow : bool; dc_Requirements : list Requirement; dc_Version : string }.

(** src/internal/policy/policy.go:36-36 [Options] *)
Record Options := mkOptions { op_Replace : list string; op_Extend : list string }.

(** src/internal/policy/policy.go:38-38 [Names] *)
Definition Names : list string := ["scope"; "command"; "submission"; "execution"; "deployment"; "retry"].

(** src/internal/policy/policy.go:40-46 [Engine] [Q] is the library's prepared query. *)
Record Engine (Q : Type) := mkEngine {
  en_queries : gmap string Q;
  en_extensions : gmap string Q;
  en_custom : gset string;
  en_Version : string;
  en_Timeout : Z;
}.
Arguments mkEngine {Q}.
Arguments en_queries {Q}.
Arguments en_extensions {Q}.
Arguments en_custom {Q}.
Arguments en_Version {Q}.
Arguments en_Timeout {Q}.

(** src/internal/policy/policy.go:180-183 [evaluate] What the decoder makes of an answer: the two fields, absent
    as [None]. *)
Record Wire := mkWire { wr_Allow : option bool; wr_Requirements : option (list Requirement) }.

(** The libraries: JSON of the facts, Rego, JSON of an answer. [rg_decode] is
    [None] for unknown fields, trailing data or a value of another shape. *)
Record RegoLib (I Q V : Type) := mkRego {
  rg_prepare : string -> bool -> Q + string;
  rg_version : string -> Options -> string;
  rg_marshal : I -> string + string;
  rg_unmarshal : string -> option string;
  rg_eval : Z -> Q -> string -> list (list V) + string;
  rg_value : V -> string + string;
  rg_decode : string -> option Wire;
}.
Arguments mkRego {I Q V}.
Arguments rg_prepare {I Q V}.
Arguments rg_version {I Q V}.
Arguments rg_marshal {I Q V}.
Arguments rg_unmarshal {I Q V}.
Arguments rg_eval {I Q V}.
Arguments rg_value {I Q V}.
Arguments rg_decode {I Q V}.

Section Policy.
Context {I Q V : Type} (lib : RegoLib I Q V).

(** src/internal/policy/policy.go:79-85 [Compile] The names of both lists, once each. *)
Fixpoint checkNames (seen : gset string) (l : list string) : gset string + string :=
  match l with
  | [] => inl seen
  | name :: rest =>
      if negb (existsb (String.eqb name) Names) || bool_decide (name ∈ seen)
      then inr ("unknown or duplicate policy decision " +:+ quoted name)
      else checkNames ({[name]} ∪ seen) rest
  end.

(** src/internal/policy/policy.go:97-121 [Compile] *)
Fixpoint prepareAll (opts : Options) (l : list string) (e : Engine Q) : Engine Q + string :=
  match l with
  | [] => inl e
  | name :: rest =>
      let replaced := existsb (String.eqb name) (op_Replace opts) in
      let query := if replaced then "data.gauntlet." +:+ name else "data.gauntlet.defaults." +:+ name in
      match rg_prepare lib query replaced with
      | inr err => inr ("compile " +:+ name +:+ " policy: " +:+ err)
      | inl q =>
          let e := mkEngine (<[name := q]> (en_queries e)) (en_extensions e) (en_custom e) (en_Version e) (en_Timeout e) in
          if existsb (String.eqb name) (op_Extend opts)
          then match rg_prepare lib ("data.gauntlet." +:+ name) true with
               | inr err => inr ("compile " +:+ name +:+ " extension: " +:+ err)
               | inl x => prepareAll opts rest
                            (mkEngine (en_queries e) (<[name := x]> (en_extensions e)) (en_custom e) (en_Version e) (en_Timeout e))
               end
          else prepareAll opts rest e
      end
  end.

(** src/internal/policy/policy.go:69-75 [Compile] *)
Definition compileOptions (source : string) (options : option Options) : Options :=
  match options with
  | Some o => o
  | None => mkOptions [] (if String.eqb source "" then [] else ["submission"])
  end.

(** src/internal/policy/policy.go:62-129 [Compile] *)
Definition Compile (source : string) (timeout : Z) (options : option Options) : Engine Q + string :=
  if (1048576 <? Z.of_nat (String.length source)) then inr "policy exceeds 1048576 bytes" else
  let timeout := if timeout <=? 0 then 100000000 else timeout in
  let opts := compileOptions source options in
  if (0 <? length (op_Replace opts) + length (op_Extend opts))%nat && String.eqb source ""
  then inr "custom decisions require Rego source" else
  match checkNames ∅ (op_Replace opts ++ op_Extend opts) with
  | inr err => inr err
  | inl seen =>
      match prepareAll opts Names (mkEngine ∅ ∅ seen "" timeout) with
      | inr err => inr err
      | inl e => inl (mkEngine (en_queries e) (en_extensions e) (en_custom e) (rg_version lib source opts) (en_Timeout e))
      end
  end.

(** src/internal/policy/policy.go:131-131 [HasCustom] *)
Definition HasCustom (e : Engine Q) (name : string) : bool := bool_decide (name ∈ en_custom e).

(** src/internal/policy/policy.go:191-193 [evaluate] *)
Definition badRequirement (r : Requirement) : bool :=
  String.eqb (rq_Name r) "" || (256 <? Z.of_nat (String.length (rq_Name r))) || (2048 <? Z.of_nat (String.length (rq_Reason r))).

(** src/internal/policy/policy.go:165-199 [evaluate] *)
Definition evaluate (e : Engine Q) (query : Q) (input : string) : Decision + string :=
  match rg_eval lib (en_Timeout e) query input with
  | inr err => inr ("policy evaluation: " +:+ err)
  | inl [[v]] =>
      match rg_value lib v with
      | inr err => inr err
      | inl data =>
          if (65536 <? Z.of_nat (String.length data)) then inr "policy decision too large" else
          match rg_decode lib data with
          | Some (mkWire (Some allow) (Some reqs)) =>
              if (128 <? Z.of_nat (length reqs)) then inr "policy must return allow and named requirements"
              else if existsb badRequirement reqs then inr "invalid policy requirement"
              else inl (mkDecision (allow && forallb rq_Satisfied reqs) reqs (en_Version e))
          | _ => inr "policy must return allow and named requirements"
          end
      end
  | inl _ => inr "policy decision is missing or ambiguous"
  end.

(** src/internal/policy/policy.go:132-164 [Decide] *)
Definition Decide (e : Engine Q) (name : string) (input : I) : Decision + string :=
  match rg_marshal lib input with
  | inr err => inr ("invalid policy facts: " +:+ err)
  | inl data =>
      if (1048576 <? Z.of_nat (String.length data)) then inr "policy facts exceed 1048576 bytes" else
      match rg_unmarshal lib data, en_queries e !! name with
      | Some err, _ => inr err
      | None, None => inr ("unknown policy decision " +:+ quoted name)
      | None, Some query =>
          match evaluate e query data, en_extensions e !! name with
          | inr err, _ => inr err
          | inl decision, None => inl decision
          | inl decision, Some extension =>
              match evaluate e extension data with
              | inr err => inr err
              | inl extra => inl (mkDecision (dc_Allow decision && dc_Allow extra)
                                    (dc_Requirements decision ++ dc_Requirements extra) (dc_Version decision))
              end
          end
      end
  end.

(** src/internal/policy/policy.go:200-211 [Reason] *)
Definition Reason (d : Decision) : string :=
  match map (fun r => rq_Name r +:+ ": " +:+ rq_Reason r)
            (List.filter (fun r => negb (rq_Satisfied r)) (dc_Requirements d)) with
  | [] => if dc_Allow d then "" else "policy denied"
  | reasons => String.concat "; " reasons
  end.

(** ** What a decision means *)

(** The query's one answer to the facts says allow, and every requirement it
    names is satisfied. *)
Definition approves (e : Engine Q) (query : Q) (data : string) : Prop :=
  exists v text reqs, rg_eval lib (en_Timeout e) query data = inl [[v]] /\ rg_value lib v = inl text /\
    rg_decode lib text = Some (mkWire (Some true) (Some reqs)) /\
    Forall (fun r => rq_Satisfied r = true /\ rq_Name r <> "") reqs.

Lemma evaluate_spec e query data d :
  evaluate e query data = inl d ->
  (dc_Allow d = true <-> approves e query data) /\ Forall (fun r => rq_Name r <> "") (dc_Requirements d) /\
  (dc_Allow d = true -> Forall (fun r => rq_Satisfied r = true) (dc_Requirements d)).
Proof.
  unfold evaluate. intros H. destruct (rg_eval lib (en_Timeout e) query data) as [rows|err] eqn:Ee; [|done].
  destruct rows as [|[|v []] []]; try done. destruct (rg_value lib v) as [text|err] eqn:Ev; [|done].
  destruct (_ <? _); [done|]. destruct (rg_decode lib text) as [[[allow|] [reqs|]]|] eqn:Ed; try done.
  destruct (_ <? _); [done|]. destruct (existsb badRequirement reqs) eqn:Eb; [done|]. injection H as <-. simpl.
  assert (Forall (fun r => rq_Name r <> "") reqs) as Hn.
  { apply Forall_forall. intros r Hr%list_elem_of_In En. apply not_true_iff_false in Eb. apply Eb. apply existsb_exists.
    exists r. split; [done|]. unfold badRequirement. by rewrite En. }
  assert (allow && forallb rq_Satisfied reqs = true <-> allow = true /\ Forall (fun r => rq_Satisfied r = true) reqs) as Hs.
  { rewrite andb_true_iff, forallb_forall, Forall_forall. setoid_rewrite list_elem_of_In. done. }
  rewrite Hs. split_and!; [split| done | by intros []].
  - intros [-> Hf]. exists v, text, reqs. split_and!; try done. rewrite Forall_forall in *. naive_solver.
  - intros (v' & text' & reqs' & E1 & E2 & E3 & Hf). rewrite Ee in E1. injection E1 as <-. rewrite Ev in E2. injection E2 as <-.
    rewrite Ed in E3. injection E3 as -> <-. split; [done|]. rewrite Forall_forall in *. naive_solver.
Qed.

Lemma concat_nonempty s l : s <> "" -> String.concat "; " (s :: l) <> "".
Proof. destruct s as [|a s]; [done|]. intros _. by destruct l. Qed.

Lemma Reason_denied d : Forall (fun r => rq_Name r <> "") (dc_Requirements d) -> dc_Allow d = false -> Reason d <> "".
Proof.
  intros Hn Ha. unfold Reason. rewrite Ha. destruct (List.filter _ (dc_Requirements d)) as [|r l] eqn:E; [done|]. cbn [map].
  apply concat_nonempty. assert (r ∈ dc_Requirements d) as Hr.
  { apply list_elem_of_In. apply (filter_In (fun r => negb (rq_Satisfied r)) r). rewrite E. by left. }
  rewrite Forall_forall in Hn. specialize (Hn r Hr). by destruct (rq_Name r).
Qed.

(** The engine fails closed: a decision is allowed exactly when the query
    of that name - and its extension, where one was compiled - each gave one
    well-formed answer that says allow and whose requirements, all named, are all
    satisfied; an extension can only restrict. Anything else is an error, and a
    refusal always gives a reason. *)
Theorem policy_fail_closed (e : Engine Q) (name : string) (input : I) (d : Decision) :
  Decide e name input = inl d ->
  (dc_Allow d = true <->
   exists data query, rg_marshal lib input = inl data /\ en_queries e !! name = Some query /\ approves e query data /\
     forall extension, en_extensions e !! name = Some extension -> approves e extension data) /\
  (dc_Allow d = true -> Reason d = "") /\ (dc_Allow d = false -> Reason d <> "").
Proof.
  unfold Decide. intros H. destruct (rg_marshal lib input) as [data|err]; [|done]. destruct (_ <? _); [done|].
  destruct (rg_unmarshal lib data); [done|]. destruct (en_queries e !! name) as [query|]; [|done].
  destruct (evaluate e query data) as [d1|err] eqn:E1; [|done]. destruct (evaluate_spec e query data d1 E1) as (Ha1 & Hn1 & Hs1).
  assert (forall d, (dc_Allow d = true -> Forall (fun r => rq_Satisfied r = true) (dc_Requirements d)) -> dc_Allow d = true -> Reason d = "") as Hr.
  { intros d' Hs Ha. specialize (Hs Ha). unfold Reason. rewrite Ha. enough (List.filter (fun r => negb (rq_Satisfied r)) (dc_Requirements d') = []) as -> by done.
    clear -Hs. induction Hs as [|r l Hr _ IH]; [done|]. cbn [List.filter]. by rewrite Hr. }
  destruct (en_extensions e !! name) as [ext|] eqn:Ex.
  - destruct (evaluate e ext data) as [d2|err] eqn:E2; [|done]. destruct (evaluate_spec e ext data d2 E2) as (Ha2 & Hn2 & Hs2).
    injection H as <-. split_and!.
    + cbn [dc_Allow]. rewrite andb_true_iff, Ha1, Ha2. split.
      * intros [H1 H2]. exists data, query. split_and!; try done. by intros ? [= <-].
      * intros (? & ? & [= <-] & [= <-] & H1 & H2). split; [done|by apply H2].
    + apply Hr. cbn [dc_Allow dc_Requirements]. intros [H1 H2]%andb_true_iff. apply Forall_app. auto.
    + apply Reason_denied. cbn [dc_Requirements]. by apply Forall_app.
  - injection H as <-. split_and!; [|by apply Hr|by apply Reason_denied]. rewrite Ha1. split.
    + intros H1. exists data, query. split_and!; try done.
    + by intros (? & ? & [= <-] & [= <-] & H1 & _).
Qed.
End Policy.

(** ** Example: the defaults, with an operator's extension of submissions *)

Definition demoRego : RegoLib bool string Wire := @mkRego bool string Wire
  (fun query _ => inl query) (fun _ _ => "v1")
  (fun ready => inl (if ready then "ready" else "draft")) (fun _ => None)
  (fun _ query data => inl [[mkWire (Some true)
     (Some (if String.eqb query "data.gauntlet.submission"
            then [mkRequirement "ready" (String.eqb data "ready") "still a draft"] else []))]])
  (fun w => inl (match wr_Requirements w with Some [r] => if rq_Satisfied r then "yes" else "no" | _ => "empty" end))
  (fun text => Some (mkWire (Some true)
     (Some (if String.eqb text "empty" then [] else [mkRequirement "ready" (String.eqb text "yes") "still a draft"])))).

Definition demoEngine : Engine string :=
  match Compile (I := bool) demoRego "package gauntlet" 0 None with inl e => e | inr _ => mkEngine ∅ ∅ ∅ "" 0 end.

Lemma policy_fail_closed_witness :
  Decide demoRego demoEngine "submission" false = inl (mkDecision false [mkRequirement "ready" false "still a draft"] "v1") /\
  Reason (mkDecision false [mkRequirement "ready" false "still a draft"] "v1") <> "".
Proof.
  assert (Decide demoRego demoEngine "submission" false = inl (mkDecision false [mkRequirement "ready" false "still a draft"] "v1")) as E
    by (vm_compute; reflexivity).
  split; [exact E|]. apply (proj2 (proj2 (policy_fail_closed demoRego demoEngine "submission" false _ E))). reflexivity.
Defined.
