(* ===== verification/Flaky.v ===== *)
(** Retrying flaky checks (src/internal/flaky: decision.go, history.go, retry.go):
    a classifier may suggest another execution of a failed check, a policy must
    allow it, a budget must cover it, and only a real execution can pass.

    The history's two tables are the lists and maps of [History]; a statement may fail, by the
    answers of [h_faults]; what is read back is what was written. Executions, the classifier, deadlines and the clock are
    functions of a state of their own ([World_]). Notes appended to log files are left out,
    and the text of the review is a list of its lines. *)
From S2P Require Import Prelude GoString Core Wire TestReport Policy.

Open Scope string_scope.
Open Scope list_scope.
Open Scope Z_scope.

(** ** decision.go *)

(** src/internal/flaky/decision.go:16-23 [Decision] *)
Record FDecision := mkFDecision {
  f_Suspects : list string;
  f_Evidence : list string;
  f_Kind : string;
  f_Action : string;
  f_Confidence : float64;
  f_Reason : string;
}.

Definition isNaN (x : float64) : bool := match x with S754_nan => true | _ => false end.
Definition isInf (x : float64) : bool := match x with S754_infinity _ => true | _ => false end.

(** src/internal/flaky/decision.go:25-47 [Validate] *)
Definition FValidate (d : FDecision) : option string :=
  if negb (existsb (String.eqb (f_Action d)) ["retry"; "abort"; "abstain"]) then Some "invalid decision action"
  else if isNaN (f_Confidence d) || isInf (f_Confidence d) || SFltb (f_Confidence d) f64_zero || SFltb (f64_of_Z 1) (f_Confidence d)
  then Some "invalid decision confidence"
  else if String.eqb (TrimSpace (f_Reason d)) "" || (2048 <? strlen (f_Reason d)) then Some "invalid decision reason"
  else if negb (existsb (String.eqb (f_Kind d)) [""; "flake"; "regression"; "infrastructure"; "unknown"]) then Some "invalid failure kind"
  else if (64 <? Z.of_nat (length (f_Suspects d))) || (16 <? Z.of_nat (length (f_Evidence d))) then Some "too many evidence references"
  else if existsb (fun s => 512 <? strlen s) (f_Suspects d ++ f_Evidence d) then Some "evidence reference too long"
  else None.

Definition zeroDecision : FDecision := mkFDecision [] [] "" "" f64_zero "".

(** src/internal/flaky/decision.go:113-118 [tail] *)
Definition tail (s : string) (n : Z) : string := ToValidUTF8 (lastBytes n s).

(** ** history.go *)

(** src/internal/flaky/history.go:19-27 [Observation] *)
Record Observation := mkObservation {
  o_At : Z;
  o_Run : string;
  o_Check : string;
  o_Revision : string;
  o_Fingerprint : string;
  o_Decision : FDecision;
  o_Error : string;
  o_Retried : bool;
  o_Passed : bool;
  o_TestIDs : list string;
  o_Output : string;
}.

(** src/internal/flaky/history.go:35-35 [OpenHistory] A row of failure_review, and the two
    tables: reviews newest first, budgets with what is used and since when, in seconds. *)
Record Review := mkReview { v_at : Z; v_fingerprint : string; v_check : string; v_data : Observation }.

(** src/internal/flaky/history.go:17-17 [History] *)
Record History := mkHistory {
  h_reviews : list Review;
  h_budget : gmap string (Z * Z);
  h_faults : list (option string);
}.

#[export] Instance History_eta : Eta History := fun h => mkHistory (h_reviews h) (h_budget h) (h_faults h).

(** One statement: its error, if any. *)
Definition hstmt (h : History) : option string * History :=
  match h_faults h with
  | [] => (None, h)
  | f :: fs => (f, h <| h_faults := fs |>)
  end.

Definition Unix (t : Z) : Z := t `div` 1000000000.
Definition month : Z := 2592000000000000.

Section History.
(** sha256 in hexadecimal, and the JSON of some test cases. *)
Context (sha : string -> string) (testsJSON : list TestCase -> string).

(** [strings.Fields]: cutting at the encodings of white space. *)
Fixpoint fields_fuel (fuel : nat) (cur : bytes) (b : bytes) : list bytes :=
  let emit rest := match cur with [] => rest | _ => rev cur :: rest end in
  match fuel, b with
  | O, _ | _, [] => emit []
  | S fuel, a :: t =>
      match strip_any space_encodings b with
      | Some rest => emit (fields_fuel fuel [] rest)
      | None => fields_fuel fuel (a :: cur) t
      end
  end.

Definition Fields (s : string) : list string := map of_bytes (fields_fuel (S (String.length s)) [] (to_bytes s)).

(** src/internal/flaky/history.go:44-49 [fingerprint] *)
Definition fingerprint (check output : string) : string := sha (check +:+ String newline (String.concat " " (Fields output))).

(** src/internal/flaky/history.go:136-145 [failedIDs] *)
Definition failedIDs (tests : list TestCase) : list string := Failed tests.

(** src/internal/flaky/history.go:147-160 [failureSignature] *)
Definition failureSignature (check output : string) (tests : list TestCase) : string :=
  match List.filter (fun t => String.eqb (tc_Status t) "failed") tests with
  | [] => fingerprint check output
  | failed => fingerprint check (testsJSON (sort_by (fun a b => String.ltb (tc_ID a) (tc_ID b)) failed))
  end.

(** src/internal/flaky/history.go:50-72 [Record] What was decided, and how a retry ended; older entries go. *)
Definition Record_ (now : Z) (job : CheckJob) (output : string) (decision : FDecision) (decisionErr : option string)
    (retried passed : bool) (tests : list TestCase) (h : History) : option string * History :=
  let o := mkObservation now (j_RunID job) (j_Name job) (j_MergeSHA job) (failureSignature (j_Name job) output tests) decision
             (default "" decisionErr) retried passed (failedIDs tests) (tail output 4096) in
  if isNaN (f_Confidence decision) || isInf (f_Confidence decision) then (Some "json: unsupported value", h)
  else match hstmt h with
  | (Some e, h) => (Some e, h)
  | (None, h) =>
      let h := h <| h_reviews ::= cons (mkReview (Unix now) (o_Fingerprint o) (o_Check o) o) |> in
      let old := Unix (now - month) in
      match hstmt h with
      | (Some e, h) => (Some e, h)
      | (None, h) =>
          let h := h <| h_reviews ::= (fun l => List.filter (fun v => negb (v_at v <? old)) (take (Z.to_nat 10000) l)) |> in
          match hstmt h with
          | (Some e, h) => (Some e, h)
          | (None, h) => (None, h <| h_budget ::= filter (fun kv => (kv.2).2 <? old = false) |>)
          end
      end
  end.

(** src/internal/flaky/history.go:77-77 [Reserve] INSERT ... ON CONFLICT DO UPDATE ... WHERE used < limit; whether a row changed. *)
Definition charge (now : Z) (key : string) (limit : Z) (budget : gmap string (Z * Z)) : bool * gmap string (Z * Z) :=
  match budget !! key with
  | None => (true, <[key := (1, Unix now)]> budget)
  | Some (used, at_) => if used <? limit then (true, <[key := (used + 1, at_)]> budget) else (false, budget)
  end.

(** src/internal/flaky/history.go:73-83 [Reserve] *)
Definition Reserve (now : Z) (run : string) (limit : Z) (h : History) : (bool + string) * History :=
  match hstmt h with
  | (Some e, h) => (inr e, h)
  | (None, h) =>
      let '(granted, budget) := charge now run limit (h_budget h) in
      (inl granted, h <| h_budget := budget |>)
  end.

(** src/internal/flaky/history.go:87-110 [ReserveEvidence] Both budgets or neither. *)
Definition ReserveEvidence (now : Z) (run identity : string) (runLimit inputLimit : Z) (h : History) : (bool + string) * History :=
  let rollback (h' : History) := h <| h_faults := h_faults h' |> in
  match hstmt h with
  | (Some e, h) => (inr e, h)
  | (None, h1) =>
      match hstmt h1 with
      | (Some e, h2) => (inr e, rollback h2)
      | (None, h2) =>
          match charge now run runLimit (h_budget h2) with
          | (false, _) => (inl false, rollback h2)
          | (true, budget) =>
              match hstmt h2 with
              | (Some e, h3) => (inr e, rollback h3)
              | (None, h3) =>
                  match charge now ("inputs:" +:+ identity) inputLimit budget with
                  | (false, _) => (inl false, rollback h3)
                  | (true, budget) =>
                      match hstmt h3 with
                      | (Some e, h4) => (inr e, rollback h4)
                      | (None, h4) => (inl true, h4 <| h_budget := budget |>)
                      end
                  end
              end
          end
      end
  end.

(** src/internal/flaky/history.go:112-134 [Recent] *)
Definition Recent (check : string) (h : History) : (list Observation + string) * History :=
  match hstmt h with
  | (Some e, h) => (inr e, h)
  | (None, h) => (inl (map v_data (take 20 (List.filter (fun v => String.eqb (v_check v) check) (h_reviews h)))), h)
  end.

(** src/internal/flaky/history.go:174-196 [KnownFlake] The runs, other than this one, in which
    the failure passed on retry; [None] once a retry of it failed. *)
Fixpoint recovered (job : CheckJob) (runs : gset string) (l : list Observation) : option (gset string) :=
  match l with
  | [] => Some runs
  | o :: l =>
      if negb (String.eqb (o_Error o) "") || negb (o_Retried o) then recovered job runs l
      else if negb (o_Passed o) then None
      else if negb (String.eqb (o_Run o) "") && negb (String.eqb (o_Run o) (j_RunID job)) then
        let runs := {[o_Run o]} ∪ runs in
        if 2 <=? Z.of_nat (size runs) then Some runs else recovered job runs l
      else recovered job runs l
  end.

Definition knownDecision : FDecision :=
  mkFDecision [] ["observed failed-to-passed executions"] "flake" "retry" (f64_of_Z 1)
    "This exact failure signature recovered on retry in at least two distinct prior runs.".

(** src/internal/flaky/history.go:164-204 [KnownFlake] *)
Definition KnownFlake (now : Z) (job : CheckJob) (res : CheckResult) (h : History) : (option FDecision + string) * History :=
  let signature := failureSignature (j_Name job) (r_Output res) (r_Tests res) in
  match hstmt h with
  | (Some e, h) => (inr e, h)
  | (None, h) =>
      let rows := take 20 (List.filter (fun v => String.eqb (v_check v) (j_Name job) && String.eqb (v_fingerprint v) signature
                                                 && (Unix (now - month) <=? v_at v)) (h_reviews h)) in
      match recovered job ∅ (map v_data rows) with
      | Some runs => if 2 <=? Z.of_nat (size runs) then (inl (Some knownDecision), h) else (inl None, h)
      | None => (inl None, h)
      end
  end.

(** ** What the history promises *)

Definition used (budget : gmap string (Z * Z)) (key : string) : Z := default 0 (fst <$> budget !! key).

(** What a granted charge does, within the limit; the first charge is always granted. *)
Definition charged (limit : Z) (key : string) (before after : gmap string (Z * Z)) : Prop :=
  used after key = used before key + 1 /\ used after key <= Z.max 1 limit /\ forall other, other <> key -> after !! other = before !! other.

Lemma charge_facts now key limit budget granted budget' :
  charge now key limit budget = (granted, budget') ->
  if granted then charged limit key budget budget' else budget' = budget /\ limit <= used budget key.
Proof.
  unfold charge, charged, used. destruct (budget !! key) as [[n t]|] eqn:E.
  - destruct (n <? limit) eqn:El; intros [= <- <-].
    + apply Z.ltb_lt in El. rewrite lookup_insert_eq. simpl. split_and!; [lia|lia|]. intros o Ho. by rewrite lookup_insert_ne.
    + by apply Z.ltb_ge in El.
  - intros [= <- <-]. rewrite lookup_insert_eq. simpl. split_and!; [lia|lia|]. intros o Ho. by rewrite lookup_insert_ne.
Qed.

Lemma Reserve_charges now run limit h answer h' :
  Reserve now run limit h = (answer, h') ->
  if decide (answer = inl true) then charged limit run (h_budget h) (h_budget h') else h_budget h' = h_budget h.
Proof.
  unfold Reserve. assert (h_budget (hstmt h).2 = h_budget h) as Hb by (unfold hstmt; by destruct (h_faults h)).
  destruct (hstmt h) as [[e|] h1]; simpl in Hb; [by intros [= <- <-]|]. rewrite Hb.
  destruct (charge _ _ _ _) as [[] b] eqn:Ec; apply charge_facts in Ec; intros [= <- <-]; [done|]. by destruct Ec as [-> _].
Qed.

(** Both budgets are charged, each within its limit, or neither is. *)
Lemma ReserveEvidence_charges now run identity runLimit inputLimit h answer h' :
  run <> "inputs:" +:+ identity ->
  ReserveEvidence now run identity runLimit inputLimit h = (answer, h') ->
  if decide (answer = inl true) then
    exists middle, charged runLimit run (h_budget h) middle /\ charged inputLimit ("inputs:" +:+ identity) middle (h_budget h')
  else h_budget h' = h_budget h.
Proof.
  intros Hne. unfold ReserveEvidence.
  assert (forall h, h_budget (hstmt h).2 = h_budget h) as Hb by (intros h0; unfold hstmt; by destruct (h_faults h0)).
  destruct (hstmt h) as [[e|] h1] eqn:E1; [intros [= <- <-]; by rewrite <- (Hb h), E1|].
  destruct (hstmt h1) as [[e|] h2] eqn:E2; [by intros [= <- <-]|].
  destruct (charge now run _ _) as [[] b1] eqn:C1; [|by intros [= <- <-]].
  destruct (hstmt h2) as [[e|] h3]; [by intros [= <- <-]|].
  destruct (charge now ("inputs:" +:+ _) _ _) as [[] b2] eqn:C2; [|by intros [= <- <-]].
  destruct (hstmt h3) as [[e|] h4]; [by intros [= <- <-]|]. intros [= <- <-]. simpl.
  exists b1. apply charge_facts in C1, C2. rewrite <- (Hb h), E1. simpl. rewrite <- (Hb h1), E2. done.
Qed.

Lemma recovered_sound job runs l runs' :
  recovered job runs l = Some runs' ->
  forall run, run ∈ runs' -> run ∈ runs \/
    (run <> "" /\ run <> j_RunID job /\ exists o, o ∈ l /\ o_Run o = run /\ o_Retried o = true /\ o_Passed o = true /\ o_Error o = "").
Proof.
  revert runs. induction l as [|o l IH]; intros runs; cbn [recovered]; [intros [= <-]; by left|].
  destruct (negb (String.eqb (o_Error o) "") || negb (o_Retried o)) eqn:E1.
  { intros H run Hr. destruct (IH _ H run Hr) as [?|(? & ? & x & ? & ?)]; [by left|right]. split_and!; [done|done|]. exists x. split; [by right|done]. }
  apply orb_false_elim in E1 as [E1%negb_false_iff%String.eqb_eq E2%negb_false_iff].
  destruct (o_Passed o) eqn:E3; [|done]. cbn [negb].
  assert (forall runs, (recovered job runs l = Some runs' -> forall run, run ∈ runs' -> run ∈ runs \/
     (run <> "" /\ run <> j_RunID job /\ exists x, x ∈ o :: l /\ o_Run x = run /\ o_Retried x = true /\ o_Passed x = true /\ o_Error x = "")) ) as IH'.
  { intros runs0 H run Hr. destruct (IH _ H run Hr) as [?|(? & ? & x & ? & ?)]; [by left|right]. split_and!; [done|done|]. exists x. split; [by right|done]. }
  destruct (negb _ && negb _) eqn:E4; [|by apply IH'].
  apply andb_true_iff in E4 as [E4%negb_true_iff%String.eqb_neq E5%negb_true_iff%String.eqb_neq].
  assert (forall run, run ∈ ({[o_Run o]} ∪ runs : gset string) -> run ∈ runs \/ (run <> "" /\ run <> j_RunID job /\
     exists x, x ∈ o :: l /\ o_Run x = run /\ o_Retried x = true /\ o_Passed x = true /\ o_Error x = "")) as Ho.
  { intros run [->%elem_of_singleton|?]%elem_of_union; [right|by left]. split_and!; [done|done|]. exists o. split; [by left|done]. }
  cbv zeta. destruct (2 <=? _); [intros [= <-]; exact Ho|]. intros H run Hr. destruct (IH' _ H run Hr) as [Hu|?]; [by apply Ho|by right].
Qed.

(** A known flake rests on two earlier runs, other than this one, in which this very failure of this
    check passed when retried. *)
Lemma KnownFlake_evidence now job res h d h' :
  KnownFlake now job res h = (inl (Some d), h') ->
  d = knownDecision /\ exists runs : gset string, (2 <= size runs)%nat /\
    forall run, run ∈ runs -> run <> "" /\ run <> j_RunID job /\
      exists v, v ∈ h_reviews h /\ v_check v = j_Name job /\ v_fingerprint v = failureSignature (j_Name job) (r_Output res) (r_Tests res) /\
        o_Run (v_data v) = run /\ o_Retried (v_data v) = true /\ o_Passed (v_data v) = true.
Proof.
  unfold KnownFlake. assert (h_reviews (hstmt h).2 = h_reviews h) as Hh by (unfold hstmt; by destruct (h_faults h)).
  destruct (hstmt h) as [[e|] h1]; [done|]. simpl in Hh. rewrite Hh.
  destruct (recovered _ _ _) as [runs|] eqn:Er; [|done]. destruct (2 <=? _) eqn:El; [|done]. intros [= <- <-]. split; [done|].
  exists runs. apply Z.leb_le in El. split; [lia|]. intros run Hr.
  destruct (recovered_sound _ _ _ _ Er run Hr) as [?|(H1 & H2 & o & Ho & H3 & H4 & H5 & _)]; [set_solver|]. split_and!; [done|done|].
  apply list_elem_of_In, in_map_iff in Ho as (v & <- & Hv). apply list_elem_of_In in Hv.
  apply (subseteq_take 20), list_elem_of_In, filter_In in Hv as [Hv [[E1%String.eqb_eq E2%String.eqb_eq]%andb_true_iff _]%andb_true_iff].
  exists v. split_and!; try done. by apply list_elem_of_In.
Qed.
End History.

(** ** retry.go *)

(** src/internal/flaky/retry.go:26-37 [Retrier] A nil retrier and one without a classifier both have [t_Enabled] false. *)
Record Retrier := mkRetrier {
  t_Enabled : bool;
  t_KnownFlakeRetries : Z;
  t_MaxRunRetries : Z;
  t_Model : string;
  t_Checks : list string;
  t_MaxRetries : Z;
  t_MinConfidence : float64;
}.

(** src/internal/flaky/retry.go:112-112 [Run] The facts of the retry policy. *)
Record RetryFacts := mkRetryFacts {
  rf_action : string;
  rf_confidence : float64;
  rf_min_confidence : float64;
  rf_kind : string;
  rf_check : string;
  rf_attempt : Z;
  rf_reason : string;
  rf_evidence : list string;
  rf_source : string;
  rf_test_ids : list string;
  rf_verification_id : string;
}.

(** The lines of the review, from which the library's formatting makes the output. *)
Inductive Line :=
  | LAttempt (attempt : Z) (word output : string)
  | LExhausted
  | LInvalid (err : string)
  | LSuspects (suspects evidence : list string)
  | LPolicyError (err : string)
  | LPolicyDenied (reason : string)
  | LReview (model : string) (decision : FDecision) (threshold : float64) (retry : bool)
  | LBudget.

(** src/internal/flaky/retry.go:253-269 [resultWord] *)
Definition resultWord (res : CheckResult) : string :=
  match r_Err res, r_Status res with
  | Some _, _ => "error"
  | None, CheckPassed => "passed"
  | None, CheckSkipped => "skipped"
  | None, CheckWaived => "waived"
  | None, CheckBlocked => "blocked"
  | None, CheckFailed => "failed"
  end.

(** What the retrier depends on. [w_run] executes a job with its log at a path, [w_expired] is the error of the deadline of one
    decision, [w_ended] whether the run's context is done, and [w_now] the clock. *)
Record World_ (S : Type) := mkWorld_ {
  w_run : CheckJob -> string -> S -> CheckResult * S;
  w_classify : CheckJob -> CheckResult -> S -> (FDecision * option string) * S;
  w_expired : S -> option string * S;
  w_ended : S -> bool * S;
  w_now : S -> Z * S;
}.
Arguments mkWorld_ {S}. Arguments w_run {S}. Arguments w_classify {S}. Arguments w_expired {S}. Arguments w_ended {S}. Arguments w_now {S}.

Section Retrier.
Context {S I Q V : Type} (W : World_ S) (lib : RegoLib I Q V) (engine : Engine Q) (facts : RetryFacts -> I).
Context (sha : string -> string) (testsJSON : list TestCase -> string) (render : list Line -> string).

(** src/internal/flaky/retry.go:42-42 [Run] Checks that are never retried. *)
Definition notRetried (r : Retrier) (job : CheckJob) (res : CheckResult) : bool :=
  negb (t_Enabled r) || j_OperatorOwned job || j_ImageBuild job || j_ReceiptCapture job || j_InputsCapture job
  || negb (existsb (String.eqb (j_Name job)) (t_Checks r)) || isSome (r_Err res) || negb (bool_decide (r_Status res = CheckFailed)).

(** An execution: the job as run, what came of it, and for a retry the decision and
    the verdict that allowed it. *)
Record Execution := mkExecution { x_job : CheckJob; x_log : string; x_raw : CheckResult; x_auth : option (FDecision * Decision) }.

(** src/internal/flaky/retry.go:45-54 [Run] The variables of the loop. [l_execs] only
    records what was executed. *)
Record Loop := mkLoop {
  l_res : CheckResult;
  l_attempts : list TestAttempt;
  l_knownUsed : Z;
  l_audit : list Line;
  l_suspects : list string;
  l_kind : string;
  l_canonical : string;
  l_user : Z;
  l_sys : Z;
  l_peak : Z;
  l_history : option History;
  l_execs : list Execution;
}.

#[local] Instance Loop_eta : Eta Loop := fun l => mkLoop (l_res l) (l_attempts l) (l_knownUsed l) (l_audit l) (l_suspects l) (l_kind l)
  (l_canonical l) (l_user l) (l_sys l) (l_peak l) (l_history l) (l_execs l).

Definition note (x : Line) (l : Loop) : Loop := l <| l_audit ::= (fun a => a ++ [x]) |>.

(** src/internal/flaky/retry.go:85-87 [Run] [Record], whose error is only logged; nothing without a history. *)
Definition record (now : Z) (job : CheckJob) (output : string) (d : FDecision) (err : option string) (retried passed : bool)
    (tests : list TestCase) (l : Loop) : Loop :=
  match l_history l with
  | None => l
  | Some h => l <| l_history := Some (snd (Record_ sha testsJSON now job output d err retried passed tests h)) |>
  end.

(** src/internal/flaky/retry.go:64-83 [Run] The decision, whether history gave it, and its error. *)
Definition decide_ (r : Retrier) (job : CheckJob) (l : Loop) (s : S) : (FDecision * bool * option string) * Loop * S :=
  let '(now, s) := w_now W s in
  let '(asked, l) :=
    if l_knownUsed l <? t_KnownFlakeRetries r then
      match l_history l with
      | None => (None, l)
      | Some h =>
          let '(answer, h) := KnownFlake sha testsJSON now job (l_res l) h in
          (match answer with inl (Some d) => Some d | _ => None end, l <| l_history := Some h |>)
      end
    else (None, l) in
  let '(d, known, err, l, s) :=
    match asked with
    | Some d => (d, true, None, l <| l_knownUsed ::= Z.succ |>, s)
    | None => let '((d, err), s) := w_classify W job (l_res l) s in (d, false, err, l, s)
    end in
  let '(expired, s) := w_expired W s in
  let err := match expired with Some e => Some e | None => err end in
  let err := match err with Some e => Some e | None => FValidate d end in
  ((d, known, err), l, s).

(** src/internal/flaky/retry.go:94-100 [Run] The suspects that are candidates of the run, once each. *)
Definition addSuspects (job : CheckJob) (suspects : list string) (d : FDecision) : list string :=
  fold_left (fun acc ref =>
    if existsb (fun c => String.eqb (c_Ref c) ref) (j_Candidates job) && negb (existsb (String.eqb ref) acc) then acc ++ [ref] else acc)
    (f_Suspects d) suspects.

(** src/internal/flaky/retry.go:112-112 [Run] *)
Definition retryFacts (r : Retrier) (job : CheckJob) (attempt : Z) (d : FDecision) (source : string) (res : CheckResult) : RetryFacts :=
  mkRetryFacts (f_Action d) (f_Confidence d) (t_MinConfidence r) (f_Kind d) (j_Name job) attempt (f_Reason d) (f_Evidence d) source
    (Failed (r_Tests res)) (j_VerificationID job).

(** src/internal/flaky/retry.go:128-140 [Run] Whether the budgets cover one more retry. *)
Definition reserve (r : Retrier) (now : Z) (job : CheckJob) (l : Loop) : bool * Loop :=
  if 0 <? t_MaxRunRetries r then
    match l_history l with
    | None => (false, l)
    | Some h =>
        let '(answer, h) :=
          if String.eqb (j_VerificationID job) "" then Reserve now (j_RunID job) (t_MaxRunRetries r) h
          else ReserveEvidence now (j_RunID job) (j_VerificationID job) (t_MaxRunRetries r) (t_MaxRetries r) h in
        (match answer with inl granted => granted | inr _ => false end, l <| l_history := Some h |>)
    end
  else (true, l).

(** src/internal/flaky/retry.go:143-159 [Run] The next execution, and the tests it must cover. *)
Definition nextExecution (job : CheckJob) (res : CheckResult) : CheckJob * list string :=
  let next := job <| j_PreviousExecution := r_ExecutionID res |> in
  let requested := Failed (r_Tests res) in
  if (0 <? length (j_RetryCommand job))%nat && (0 <? length requested)%nat
  then (next <| j_Command := j_RetryCommand job |> <| j_RetryTests := requested |>, requested)
  else (next, map tc_ID (List.filter (fun t => negb (String.eqb (tc_Status t) "skipped")) (r_Tests res))).

Definition TrimSuffix (s suffix : string) : string :=
  if String.eqb (String.substring (String.length s - String.length suffix) (String.length suffix) s) suffix then String.substring 0 (String.length s - String.length suffix) s
  else s.

(** src/internal/flaky/retry.go:145-147 [Run] *)
Definition attemptLog (logPath : string) (attempt : Z) : string :=
  if String.eqb logPath "" then ""
  else TrimSuffix logPath ".log.zst" +:+ ".attempt-" +:+ pretty (attempt + 1) +:+ ".log.zst".

Definition gauntletNote (note : string) (res : CheckResult) : CheckResult :=
  res <| r_Status := CheckFailed |> <| r_Output ::= (fun o => o +:+ String newline ("gauntlet: " +:+ note)) |>.

(** src/internal/flaky/retry.go:166-177 [Run] What an execution counts for, after the coverage of the tests before it. *)
Definition judged (previous : list TestCase) (requested : list string) (raw : CheckResult) : CheckResult :=
  let res :=
    if (0 <? length previous)%nat && negb (isSome (r_Err raw)) then
      let '(merged, err) := MergeRerun previous (r_Tests raw) requested in
      let res := raw <| r_Tests := merged |> in
      match err with Some e => gauntletNote e res | None => res end
    else raw in
  if negb (isSome (r_Err res)) && bool_decide (r_Status res = CheckSkipped)
  then gauntletNote "a skipped retry cannot clear the original failure." res
  else res.

(** src/internal/flaky/retry.go:181-195 [Run] The costs of the execution and the log of them all. *)
Definition tally (res : CheckResult) (l : Loop) : Loop :=
  let chained := negb (String.eqb (r_ExecutionID res) "") && (1 <? length (r_TestAttempts res))%nat in
  let l := if chained then l <| l_user := r_UserCPU res |> <| l_sys := r_SysCPU res |>
           else l <| l_user ::= (fun u => wrap64 (u + r_UserCPU res)) |> <| l_sys ::= (fun u => wrap64 (u + r_SysCPU res)) |> in
  let l := l <| l_peak ::= Z.max (r_PeakRSS res) |> in
  if String.eqb (l_canonical l) "" then l <| l_canonical := r_LogPath res |>
  else if chained && negb (String.eqb (r_LogPath res) "") then l <| l_canonical := r_LogPath res |>
  else l.

(** src/internal/flaky/retry.go:141-180 [Run] One retry, executed and judged. *)
Definition execute (job : CheckJob) (logPath : string) (attempt : Z) (d : FDecision) (v : Decision) (l : Loop) (s : S) : Loop * S :=
  let previous := l_res l in
  let '(next, requested) := nextExecution job previous in
  let log := attemptLog logPath attempt in
  let '(raw, s) := w_run W next log s in
  let attempts :=
    if (length (l_attempts l) <? length (r_TestAttempts raw))%nat then r_TestAttempts raw
    else l_attempts l ++ [mkTestAttempt "" "" "" (j_Command next) (r_LogPath raw) (attempt + 1) (r_Tests raw)] in
  let res := judged (r_Tests previous) requested raw in
  let '(now, s) := w_now W s in
  let l := l <| l_res := res |> <| l_attempts := attempts |> <| l_execs ::= (fun x => x ++ [mkExecution next log raw (Some (d, v))]) |> in
  let l := record now job (r_Output previous) d None true (negb (isSome (r_Err res)) && bool_decide (r_Status res = CheckPassed))
             (r_Tests previous) l in
  (tally res l, s).

(** src/internal/flaky/retry.go:55-196 [Run] The loop, from the attempt [attempt]; every turn but the last runs the check again. *)
Fixpoint loop (fuel : nat) (r : Retrier) (job : CheckJob) (logPath : string) (attempt : Z) (l : Loop) (s : S) : Loop * S :=
  match fuel with
  | O => (l, s)
  | Datatypes.S fuel =>
      let l := note (LAttempt attempt (resultWord (l_res l)) (tail (r_Output (l_res l)) 12000)) l in
      let '(ended, s) := w_ended W s in
      if isSome (r_Err (l_res l)) || negb (bool_decide (r_Status (l_res l) = CheckFailed)) || ended then (l, s)
      else if t_MaxRetries r <? attempt then (note LExhausted l, s)
      else
        let '((d, known, err), l, s) := decide_ r job l s in
        let '(now, s) := w_now W s in
        match err with
        | Some e => (note (LInvalid e) (record now job (r_Output (l_res l)) d (Some e) false false (r_Tests (l_res l)) l), s)
        | None =>
            let l := l <| l_kind := f_Kind d |> <| l_suspects ::= (fun acc => addSuspects job acc d) |> in
            let l := if (0 <? length (l_suspects l))%nat then note (LSuspects (l_suspects l) (f_Evidence d)) l else l in
            let source := if known : bool then "history" else "codex" in
            let model := if known : bool then "observed-history" else t_Model r in
            let verdict := Decide lib engine "retry" (facts (retryFacts r job attempt d source (l_res l))) in
            let '(ended, s) := w_ended W s in
            let l := match verdict with
                     | inr e => note (LPolicyError e) l
                     | inl v => if dc_Allow v then l else note (LPolicyDenied (Reason v)) l
                     end in
            let retry := match verdict with inl v => dc_Allow v && negb ended | inr _ => false end in
            let l := note (LReview model d (t_MinConfidence r) retry) l in
            match verdict, retry with
            | inl v, true =>
                let '(granted, l) := reserve r now job l in
                if granted : bool then
                  let '(l, s) := execute job logPath attempt d v l s in
                  loop fuel r job logPath (attempt + 1) l s
                else (note LBudget l, s)
            | _, _ => (record now job (r_Output (l_res l)) d None false false (r_Tests (l_res l)) l, s)
            end
        end
  end.

(** src/internal/flaky/retry.go:39-205 [Run] With what was executed. *)
Definition Run (r : Retrier) (job : CheckJob) (logPath : string) (h : option History) (s : S) : CheckResult * list Execution * option History * S :=
  let '(start, s) := w_now W s in
  let '(res, s) := w_run W job logPath s in
  let first := [mkExecution job logPath res None] in
  let '(ended, s) := w_ended W s in
  if notRetried r job res || ended then (res, first, h, s)
  else
    let attempts := match r_TestAttempts res with
                    | [] => [mkTestAttempt "" "" "" (j_Command job) (r_LogPath res) 1 (r_Tests res)]
                    | l => l
                    end in
    let l := mkLoop res attempts 0 [] [] "" (r_LogPath res) (r_UserCPU res) (r_SysCPU res) (r_PeakRSS res) h first in
    let attempt := Z.of_nat (length attempts) in
    let fuel := Datatypes.S (Z.to_nat (t_MaxRetries r - attempt + 1)) in
    let '(l, s) := loop fuel r job logPath attempt l s in
    let '(stop, s) := w_now W s in
    (l_res l <| r_TestAttempts := l_attempts l |> <| r_SuspectedRefs := l_suspects l |> <| r_FailureKind := l_kind l |>
       <| r_Output := tail (render (l_audit l)) 65536 |> <| r_LogPath := l_canonical l |> <| r_Duration := stop - start |>
       <| r_UserCPU := l_user l |> <| r_SysCPU := l_sys l |> <| r_PeakRSS := l_peak l |>, l_execs l, l_history l, s).

(** ** What may happen to a failed check *)

(** The results a check can come to: that of its first execution and, from a plain failure,
    what another execution counts for, when a valid decision was put to the policy and
    the policy allowed it. *)
Inductive retried (r : Retrier) (job : CheckJob) (logPath : string) : list Execution -> CheckResult -> Prop :=
  | retried_first raw : retried r job logPath [mkExecution job logPath raw None] raw
  | retried_again execs res attempt d source v raw :
      retried r job logPath execs res ->
      r_Err res = None -> r_Status res = CheckFailed -> attempt <= t_MaxRetries r ->
      FValidate d = None -> Decide lib engine "retry" (facts (retryFacts r job attempt d source res)) = inl v -> dc_Allow v = true ->
      retried r job logPath (execs ++ [mkExecution (nextExecution job res).1 (attemptLog logPath attempt) raw (Some (d, v))])
        (judged (r_Tests res) (nextExecution job res).2 raw).

Lemma record_res now job o d err a b ts l : l_res (record now job o d err a b ts l) = l_res l.
Proof. unfold record. by destruct (l_history l). Qed.

Lemma record_execs now job o d err a b ts l : l_execs (record now job o d err a b ts l) = l_execs l.
Proof. unfold record. by destruct (l_history l). Qed.

Lemma note_res x l : l_res (note x l) = l_res l.
Proof. reflexivity. Qed.

Lemma note_execs x l : l_execs (note x l) = l_execs l.
Proof. reflexivity. Qed.

Lemma tally_res res l : l_res (tally res l) = l_res l.
Proof. unfold tally. by repeat case_match. Qed.

Lemma tally_execs res l : l_execs (tally res l) = l_execs l.
Proof. unfold tally. by repeat case_match. Qed.

Lemma decide_facts r job l s d known err l' s' :
  decide_ r job l s = ((d, known, err), l', s') ->
  l_res l' = l_res l /\ l_execs l' = l_execs l /\ (err = None -> FValidate d = None).
Proof.
  unfold decide_. destruct (w_now W s) as [now s1].
  set (ask := if l_knownUsed l <? _ then _ else _).
  assert (l_res ask.2 = l_res l /\ l_execs ask.2 = l_execs l) as [E1 E2].
  { subst ask. destruct (_ <? _); [|done]. destruct (l_history l) as [h|]; [|done]. by destruct (KnownFlake _ _ _ _ _ _). }
  destruct ask as [asked l1]. simpl in E1, E2. rewrite <- E1, <- E2.
  destruct asked as [d1|].
  - destruct (w_expired W s1) as [[e|] s2]; intros [= <- <- <- <- <-]; by split_and!.
  - destruct (w_classify W job (l_res l1) s1) as [[d1 err1] s2]. destruct (w_expired W s2) as [[e|] s3]; intros [= <- <- <- <- <-].
    + by split_and!.
    + split_and!; [done|done|]. by destruct err1.
Qed.

Lemma reserve_facts r now job l granted l' :
  reserve r now job l = (granted, l') -> l_res l' = l_res l /\ l_execs l' = l_execs l.
Proof.
  unfold reserve. destruct (_ <? _); [|by intros [= <- <-]]. destruct (l_history l); [|by intros [= <- <-]].
  destruct (if String.eqb _ _ then _ else _). by intros [= <- <-].
Qed.

Lemma execute_facts job logPath attempt d v l s :
  exists raw l' s', execute job logPath attempt d v l s = (l', s') /\
    l_execs l' = l_execs l ++ [mkExecution (nextExecution job (l_res l)).1 (attemptLog logPath attempt) raw (Some (d, v))] /\
    l_res l' = judged (r_Tests (l_res l)) (nextExecution job (l_res l)).2 raw.
Proof.
  unfold execute. destruct (nextExecution job (l_res l)) as [next requested]. cbv zeta.
  destruct (w_run W next _ s) as [raw s1]. destruct (w_now W s1) as [now s2].
  eexists raw, _, _. split; [reflexivity|]. by rewrite tally_execs, tally_res, record_execs, record_res.
Qed.

(** Every turn of the loop keeps to [retried]; the turns that execute are bounded. *)
Lemma loop_retried r job logPath fuel attempt l s l' s' :
  loop fuel r job logPath attempt l s = (l', s') ->
  retried r job logPath (l_execs l) (l_res l) ->
  retried r job logPath (l_execs l') (l_res l') /\ l_execs l `prefix_of` l_execs l' /\
  Z.of_nat (length (l_execs l')) <= Z.of_nat (length (l_execs l)) + Z.max 0 (t_MaxRetries r + 1 - attempt).
Proof.
  revert attempt l s. induction fuel as [|fuel IH]; intros attempt l s; cbn [loop].
  { intros [= <- <-] ?. split_and!; [done|done|lia]. }
  cbv zeta. rewrite !note_res. destruct (w_ended W s) as [ended s1].
  destruct (_ || _) eqn:Eg; [intros [= <- <-] ?; rewrite note_execs; split_and!; [done|done|lia]|].
  apply orb_false_elim in Eg as [[Ee Es%negb_false_iff%bool_decide_eq_true]%orb_false_elim _].
  destruct (t_MaxRetries r <? attempt) eqn:Em; [intros [= <- <-] ?; rewrite !note_execs; split_and!; [done|done|lia]|]. apply Z.ltb_ge in Em.
  destruct (decide_ _ _ _ _) as [[[[d known] err] l1] s2] eqn:Ed. apply decide_facts in Ed as (Er & Ex & Ev).
  rewrite note_res in Er. rewrite note_execs in Ex. destruct (w_now W s2) as [now s3]. destruct err as [e|].
  { intros [= <- <-] ?. rewrite note_execs, note_res, record_execs, record_res, Er, Ex. split_and!; [done|done|lia]. }
  specialize (Ev eq_refl). set (l2 := l1 <| l_kind := _ |> <| l_suspects ::= _ |>).
  set (l3 := if (_ <? _)%nat then _ else l2).
  assert (l_res l3 = l_res l /\ l_execs l3 = l_execs l) as [E1 E2].
  { subst l3. destruct (_ <? _)%nat; rewrite ?note_res, ?note_execs; by subst l2. }
  clearbody l3. clear l2. destruct (w_ended W s3) as [ended' s4].
  assert (r_Err (l_res l) = None) as En by (by destruct (r_Err (l_res l))).
  destruct (Decide _ _ _ _) as [v|e] eqn:Edec.
  2:{ intros [= <- <-] ?. rewrite record_execs, record_res, !note_execs, !note_res, E1, E2. split_and!; [done|done|lia]. }
  set (l4 := note (LReview _ _ _ _) _).
  assert (l_res l4 = l_res l /\ l_execs l4 = l_execs l) as [F1 F2] by (subst l4; by destruct (dc_Allow v)).
  clearbody l4. destruct (dc_Allow v) eqn:Ea; destruct ended'; cbn [andb negb].
  1,3,4: intros [= <- <-] ?; rewrite record_execs, record_res, F1, F2; split_and!; [done|done|lia].
  destruct (reserve _ _ _ _) as [granted l5] eqn:Eres. apply reserve_facts in Eres as [G1 G2].
  destruct granted.
  2:{ intros [= <- <-] ?. rewrite note_execs, note_res, G1, G2, F1, F2. split_and!; [done|done|lia]. }
  destruct (execute_facts job logPath attempt d v l5 s4) as (raw & l6 & s6 & -> & X1 & X2).
  intros Hl Hr. rewrite G1, F1 in X1, X2. rewrite G2, F2 in X1.
  destruct (IH _ _ _ Hl) as (IH1 & IH2 & IH3).
  - rewrite X1, X2. eapply retried_again; [done|done|done|done|done| |done]. rewrite <- E1. exact Edec.
  - rewrite X1 in IH2, IH3. rewrite length_app in IH3. simpl in IH3. split_and!; [exact IH1| |lia].
    etrans; [|exact IH2]. by eexists.
Qed.

(** The fuel of [Run] is enough: the loop never runs out of it. *)
Lemma loop_fuel r job logPath fuel attempt l s :
  (Z.to_nat (t_MaxRetries r - attempt + 1) < fuel)%nat ->
  loop fuel r job logPath attempt l s = loop (Datatypes.S fuel) r job logPath attempt l s.
Proof.
  revert attempt l s. induction fuel as [|fuel IH]; intros attempt l s Hf; [lia|].
  remember (Datatypes.S fuel) as fuel' eqn:E. rewrite E at 1. cbn [loop]. cbv zeta.
  destruct (w_ended W s) as [ended s1]. destruct (_ || _); [done|].
  destruct (t_MaxRetries r <? attempt) eqn:Em; [done|]. apply Z.ltb_ge in Em.
  destruct (decide_ _ _ _ _) as [[[[d known] err] l1] s2]. destruct (w_now W s2) as [now s3]. destruct err; [done|].
  destruct (w_ended W s3) as [ended' s4]. destruct (Decide _ _ _ _) as [v|]; [|done].
  destruct (dc_Allow v && negb ended'); [|done]. destruct (reserve _ _ _ _) as [[] l5]; [|done].
  destruct (execute _ _ _ _ _ _ _) as [l6 s6]. subst fuel'. apply IH. lia.
Qed.

Lemma judged_passed previous requested raw :
  r_Err (judged previous requested raw) = None -> r_Status (judged previous requested raw) = CheckPassed ->
  r_Err raw = None /\ r_Status raw = CheckPassed /\
  (previous = [] \/ MergeRerun previous (r_Tests raw) requested = (r_Tests (judged previous requested raw), None)).
Proof.
  unfold judged. destruct previous as [|t previous]; cbn [length Nat.ltb Nat.leb andb].
  - destruct (negb _ && _) eqn:E; [done|]. by auto.
  - destruct (r_Err raw) eqn:Ee; cbn [isSome negb].
    + destruct (negb _ && _); [done|]. simpl. by rewrite Ee.
    + destruct (MergeRerun _ _ _) as [merged [e|]] eqn:Em; simpl; rewrite Ee; simpl.
      * done.
      * destruct (bool_decide _); [done|]. simpl. by auto.
Qed.

(** The tests that failed are among those the next execution must cover. *)
Lemma nextExecution_covers job res id : id ∈ Failed (r_Tests res) -> id ∈ (nextExecution job res).2.
Proof.
  intros Hid. unfold nextExecution. destruct (_ && _); [done|]. simpl.
  unfold Failed in Hid. rewrite sort_by_Permutation in Hid.
  apply list_elem_of_In, in_map_iff in Hid as (t & <- & [Ht Hs%String.eqb_eq]%filter_In). apply list_elem_of_In, in_map. apply filter_In. by rewrite Hs.
Qed.

Lemma retried_last r job logPath execs res :
  retried r job logPath execs res -> (1 < length execs)%nat -> r_Err res = None -> r_Status res = CheckPassed ->
  exists front before x, execs = front ++ [x] /\ retried r job logPath front before /\
    r_Err (x_raw x) = None /\ r_Status (x_raw x) = CheckPassed /\
    forall id, id ∈ Failed (r_Tests before) ->
      exists t, t ∈ r_Tests (x_raw x) /\ tc_ID t = id /\ (tc_Status t = "passed" \/ tc_Status t = "failed").
Proof.
  intros H Hl Ee Es. destruct H as [raw|execs before attempt d source v raw H]; [simpl in Hl; lia|].
  apply judged_passed in Es as (Hr & Hs & Hm); [|done]. eexists execs, before, _. split_and!; [done|done|done|done|].
  cbn [x_raw]. intros id Hid. apply (nextExecution_covers job) in Hid as Hid'. destruct Hm as [Hm|Hm].
  - unfold Failed in Hid. rewrite Hm in Hid. simpl in Hid. by apply elem_of_nil in Hid.
  - eapply MergeRerun_executed; [exact Hm|done].
Qed.

(** C37. Retrying never invents a result. What a check comes to is the result of its first execution
    or what a later one counts for, and each later one had a valid decision and the policy's
    permission, after a plain failure of a check that may be retried, within the retries configured.
    A check that passes after a retry really passed in its last execution, and every test that failed
    before was executed again in it. *)
Theorem retry_never_invents r job logPath h s final execs h' s' :
  Run r job logPath h s = (final, execs, h', s') ->
  exists raw rest res,
    execs = mkExecution job logPath raw None :: rest /\ retried r job logPath execs res /\
    r_Err final = r_Err res /\ r_Status final = r_Status res /\ r_Tests final = r_Tests res /\
    Z.of_nat (length rest) <= Z.max 0 (t_MaxRetries r + 1 - Z.max 1 (Z.of_nat (length (r_TestAttempts raw)))) /\
    (rest <> [] -> notRetried r job raw = false) /\
    (rest <> [] -> r_Err final = None -> r_Status final = CheckPassed ->
      exists front before x, execs = front ++ [x] /\ retried r job logPath front before /\
        r_Err (x_raw x) = None /\ r_Status (x_raw x) = CheckPassed /\
        forall id, id ∈ Failed (r_Tests before) ->
          exists t, t ∈ r_Tests (x_raw x) /\ tc_ID t = id /\ (tc_Status t = "passed" \/ tc_Status t = "failed")).
Proof.
  unfold Run. destruct (w_now W s) as [start s1]. destruct (w_run W job logPath s1) as [raw s2].
  destruct (w_ended W s2) as [ended s3]. destruct (notRetried r job raw || ended) eqn:Eg.
  { intros [= <- <- <- <-]. exists raw, [], raw. split_and!; try done; [apply retried_first|simpl; lia]. }
  apply orb_false_elim in Eg as [Eg _]. set (attempts := match r_TestAttempts raw with [] => _ | _ => _ end). cbv zeta.
  assert (Z.of_nat (length attempts) = Z.max 1 (Z.of_nat (length (r_TestAttempts raw)))) as El
    by (subst attempts; destruct (r_TestAttempts raw); simpl; lia).
  destruct (loop _ _ _ _ _ _ _) as [l s4] eqn:Eloop. destruct (w_now W s4) as [stop s5]. intros [= <- <- <- <-].
  apply loop_retried in Eloop as (Hr & [rest Hp] & Hn); [|apply retried_first]. simpl in Hp, Hn. rewrite El in Hn.
  rewrite Hp in Hr, Hn |- *. exists raw, rest, (l_res l). simpl in Hn. split_and!; try done; [lia|].
  intros Hne Ee Es. cbn in Ee, Es. apply (retried_last r job logPath _ (l_res l)); try done.
  destruct rest; [done|simpl; lia].
Qed.
End Retrier.

(** ** Example: a flaky test *)

Definition flakyJob : CheckJob := zeroCheckJob <| j_Name := "unit" |> <| j_RunID := "run" |>.

(** The first execution fails test a, the second passes it. *)
Definition flakyWorld : World_ nat := mkWorld_
  (fun _ _ n => (if (n =? 0)%nat then zeroCheckResult <| r_Tests := [mkTestCase "a" "failed" "timeout"] |>
                 else zeroCheckResult <| r_Status := CheckPassed |> <| r_Tests := [mkTestCase "a" "passed" ""] |>, Datatypes.S n))
  (fun _ _ n => ((mkFDecision [] [] "flake" "retry" (f64_of_Z 1) "a timeout", None), n))
  (fun n => (None, n)) (fun n => (false, n)) (fun n => (0, n)).

Definition flakyRetrier : Retrier := mkRetrier true 0 2 "model" ["unit"] 1 f64_zero.

Local Notation flakyRun :=
  (Run flakyWorld demoRego demoEngine (fun _ => true) (fun s => s) (fun _ => "") (fun _ => "review")
    flakyRetrier flakyJob "unit.log.zst" (Some (mkHistory [] ∅ [])) 0%nat).

Example flakyRun_passes :
  let '(final, execs, h, n) := flakyRun in
  r_Status final = CheckPassed /\ r_Err final = None /\ map x_log execs = ["unit.log.zst"; "unit.attempt-2.log.zst"] /\
  option_map (fun h => (used (h_budget h) "run", length (h_reviews h))) h = Some (1, 1%nat).
Proof. vm_compute. auto. Qed.

Lemma retry_never_invents_witness :
  exists final execs h' s' front before x, flakyRun = (final, execs, h', s') /\ r_Status final = CheckPassed /\
    execs = front ++ [x] /\ length front = 1%nat /\ r_Status (x_raw x) = CheckPassed /\
    forall id, id ∈ Failed (r_Tests before) -> exists t, t ∈ r_Tests (x_raw x) /\ tc_ID t = id.
Proof.
  pose proof flakyRun_passes as Hf. destruct flakyRun as [[[final execs] h'] s'] eqn:E. destruct Hf as (Hs & Ee & Hx & _).
  destruct (retry_never_invents _ _ _ _ _ _ _ _ _ _ _ _ _ _ _ _ E) as (raw & rest & res & He & _ & _ & _ & _ & _ & _ & Hp).
  destruct Hp as (front & before & x & Hfx & _ & _ & Hr & Hc); [by intros ->; rewrite He in Hx|done|done|].
  exists final, execs, h', s', front, before, x. split; [done|]. split; [done|]. split; [done|]. split; [|split; [done|]].
  - rewrite Hfx, map_app in Hx. apply (f_equal length) in Hx. rewrite length_app, length_map in Hx. simpl in Hx. lia.
  - intros id Hid. destruct (Hc id Hid) as (t & H1 & H2 & _). exact (ex_intro _ t (conj H1 H2)).
Defined.
