(* ===== verification/Reuse.v ===== *)
(** What the goroutine of a check does (src/internal/queue/checkrun.go, [startCheck]),
    and checks whose results are reused by the identity of their inputs
    (verification.go). Files, executors and services answer in a state of their own
    ([Outside]); the evidence store is Evidence.v. *)
From stdpp Require Import gmap strings.
From Stdlib Require Import Ascii.
From S2P Require Import Prelude GoString Core Wire Daemon Spec TestReport TestParse Evidence ServicePool DaemonConfig Policy Flaky Executor ExecutorSpec.

Open Scope string_scope.
Open Scope list_scope.
Open Scope Z_scope.

#[local] Instance Placement_eta : Eta Placement := fun p => mkPlacement (p_Dir p) (p_LogPath p) (p_ServiceEnv p) (p_Networks p).

(** What a check depends on. *)
Record Outside (S : Type) := mkOutside {
  o_materialize : string -> string -> S -> (string * Z * option string) * S;
  o_exec : CheckJob -> Placement -> S -> CheckResult * S;
  o_ensure : list Service -> list string -> S -> (string + Ensured) * S;
  o_anyDead : Ensured -> S -> bool * S;
  (* [Run] of Flaky.v: a failed check may be run again *)
  o_review : (CheckJob -> string -> S -> CheckResult * S) -> CheckJob -> string -> S -> CheckResult * S;
}.
Arguments mkOutside {S}. Arguments o_materialize {S}. Arguments o_exec {S}. Arguments o_ensure {S}.
Arguments o_anyDead {S}. Arguments o_review {S}.

(** What of the daemon's configuration and state a check reads. *)
Record Setting := mkSetting {
  se_hasStore : bool;                   (* cfg.Verification != nil *)
  se_hasServices : bool;                (* cfg.Services != nil *)
  se_context : string;                  (* cfg.VerificationContext *)
}.

Section Checks.
Context {S : Type} (O : Outside S) (cfg : Setting).

(** [verification.Key] of the values of a check, and SHA-256. *)
Context (checkKey : string -> string -> Check -> list Service -> list string -> string -> string -> string) (sha : string -> string).

(** src/internal/queue/checkrun.go:504-508 [stampConsumedImage] *)
Definition stampConsumedImage (job : CheckJob) (res : CheckResult) : CheckResult :=
  if negb (j_ImageBuild job) && negb (String.eqb (j_Image job) "") then res <| r_Image := j_Image job |> else res.

Definition failedWith (job : CheckJob) (err : string) : CheckResult :=
  zeroCheckResult <| r_Name := j_Name job |> <| r_Err := Some err |>.

(** src/internal/queue/checkrun.go:482-488 [startCheck] A red of a check whose service
    died is an error. *)
Definition withServices (note : string) (ens : Ensured) (pl : Placement) (job : CheckJob) (log : string) (s : S) : CheckResult * S :=
  let '(res, s) := o_exec O job (pl <| p_LogPath := log |>) s in
  if negb (isSome (r_Err res)) && bool_decide (r_Status res = CheckFailed) then
    let '(dead, s) := o_anyDead O ens s in
    (if dead then res <| r_Err := Some note |> else res, s)
  else (res, s).

(** src/internal/queue/checkrun.go:402-493 [startCheck] The goroutine of a check that is
    not reused; [sourceErr] is the error of retaining its sources. *)
Definition runCheck (sourceErr : option string) (isolated remote : bool) (svcs : list Service) (check : Check)
    (tree : string) (job : CheckJob) (pl : Placement) (s : S) : CheckResult * S :=
  match sourceErr with
  | Some err => (zeroCheckResult <| r_Name := k_Name check |> <| r_Err := Some ("retain check sources: " +:+ err) |>, s)
  | None =>
      let failed (materialized : Z) err :=
        zeroCheckResult <| r_Name := k_Name check |> <| r_Command := j_Command job |> <| r_Materialized := materialized |> <| r_Err := Some err |> in
      let '(workspace, s) :=
        if isolated && negb remote then
          match o_materialize O tree (j_MergeSHA job) s with
          | ((_, _, Some err), s) => (inl err, s)
          | ((dir, took, None), s) => (inr (pl <| p_Dir := dir |>, took), s)
          end
        else (inr (pl, 0), s) in
      match workspace with
      | inl err => (failed 0 ("materialize workspace: " +:+ err), s)
      | inr (pl, materialized) =>
          let finish res :=
            stampConsumedImage job (res <| r_Command := j_Command job |> <| r_Materialized ::= Z.add materialized |>) in
          if remote || (length (k_Needs check) =? 0)%nat || negb (se_hasServices cfg) then
            let '(res, s) := o_review O (fun j log => o_exec O j (pl <| p_LogPath := log |>)) job (p_LogPath pl) s in
            (finish res, s)
          else
            match o_ensure O svcs (k_Needs check) s with
            | (inl err, s) => (failed materialized ("service ensure: " +:+ err), s)
            | (inr ens, s) =>
                let pl := pl <| p_ServiceEnv := es_Env ens |> <| p_Networks := es_Networks ens |> in
                let '(res, s) := o_review O (withServices "service died mid-run (park-as-error); check output retained above" ens pl) job (p_LogPath pl) s in
                (finish res, s)
            end
      end
  end.

(** ** Reusable checks *)

(** src/internal/queue/verification.go:33-35 [reusableCheck] The job that identifies the
    inputs. *)
Definition identityJob (check : Check) (job : CheckJob) : CheckJob :=
  job <| j_TestResults := "" |> <| j_RetryCommand := [] |> <| j_RetryTests := [] |> <| j_ServiceNeeds := [] |>
      <| j_Command := default [] (k_Inputs check) |> <| j_InputsCapture := true |>.

(** src/internal/queue/verification.go:37-39 [reusableCheck] *)
Definition identityLog (logPath : string) : string :=
  if String.eqb logPath "" then "" else TrimSuffix logPath ".log.zst" +:+ ".inputs.log.zst".

(** src/internal/queue/verification.go:18-53 [reusableCheck] Up to the evidence store: a
    result, or the key and the job that carries it. *)
Definition identify (remote : bool) (check : Check) (tree : string) (svcs : list Service) (deps : list string)
    (job : CheckJob) (pl : Placement) (s : S) : (CheckResult + string * CheckJob) * S :=
  if negb (se_hasStore cfg) then (inl (failedWith job "input-based checks require a verification store"), s)
  else
    let '(workspace, s) :=
      if negb remote then
        match o_materialize O tree (j_MergeSHA job) s with
        | ((_, _, Some err), s) => (inl err, s)
        | ((dir, _, None), s) => (inr dir, s)
        end
      else (inr "", s) in
    match workspace with
    | inl err => (inl (failedWith job err), s)
    | inr dir =>
        let '(identity, s) := o_exec O (identityJob check job) (pl <| p_Dir := dir |> <| p_LogPath ::= identityLog |>) s in
        let key := r_InputsKey identity in
        if isSome (r_Err identity) || negb (bool_decide (r_Status identity = CheckPassed)) || String.eqb key "" || (4096 <? strlen key) then
          let identity := identity <| r_Name := j_Name job |> in
          (inl (if isSome (r_Err identity) then identity
                else identity <| r_Status := CheckFailed |> <| r_Output ::= fun o => o +:+ onNewLine "gauntlet: input identity could not be established" |>), s)
        else
          let k := checkKey (se_context cfg) (j_Target job) check svcs deps (sha key) (j_Image job) in
          (inr (k, job <| j_VerificationID := k |>), s)
    end.

(** src/internal/queue/verification.go:54-92 [reusableCheck] The execution the evidence
    store runs when nothing is known of the key. *)
Definition evidenceTask (remote : bool) (check : Check) (tree : string) (svcs : list Service) (job : CheckJob) (pl : Placement) (s : S) : CheckResult * S :=
  let '(workspace, s) :=
    if negb remote then
      match o_materialize O tree (j_MergeSHA job) s with
      | ((_, _, Some err), s) => (inl err, s)
      | ((dir, took, None), s) => (inr (dir, took), s)
      end
    else (inr ("", 0), s) in
  match workspace with
  | inl err => (failedWith job err, s)
  | inr (dir, took) =>
      let pl := pl <| p_Dir := dir |> in
      let finish res :=
        let res := if negb (isSome (r_Err res)) && bool_decide (r_Status res = CheckSkipped)
                   then res <| r_Status := CheckFailed |> <| r_Output ::= fun o => o +:+ onNewLine "gauntlet: input-based verification requires a passing execution; skipped is not evidence" |>
                   else res in
        stampConsumedImage job (res <| r_Command := j_Command job |> <| r_Materialized ::= Z.add took |>) in
      if negb remote && (0 <? length (k_Needs check))%nat && se_hasServices cfg then
        match o_ensure O svcs (k_Needs check) s with
        | (inl err, s) => (failedWith job ("service ensure: " +:+ err), s)
        | (inr ens, s) =>
            let pl := pl <| p_ServiceEnv := es_Env ens |> <| p_Networks := es_Networks ens |> in
            let '(res, s) := o_review O (withServices "service died mid-run" ens pl) job (p_LogPath pl) s in
            (finish res, s)
        end
      else
        let '(res, s) := o_review O (fun j log => o_exec O j (pl <| p_LogPath := log |>)) job (p_LogPath pl) s in
        (finish res, s)
  end.

(** Evidence is never a skip: what the store is given as passing was executed and
    passed. *)
Lemma evidenceTask_passed remote check tree svcs job pl s : r_Status (fst (evidenceTask remote check tree svcs job pl s)) <> CheckSkipped \/
  r_Err (fst (evidenceTask remote check tree svcs job pl s)) <> None.
Proof.
  assert (forall took res, let r := stampConsumedImage job ((if negb (isSome (r_Err res)) && bool_decide (r_Status res = CheckSkipped)
      then res <| r_Status := CheckFailed |> <| r_Output ::= fun o => o +:+ onNewLine "gauntlet: input-based verification requires a passing execution; skipped is not evidence" |>
      else res) <| r_Command := j_Command job |> <| r_Materialized ::= Z.add took |>) in r_Status r <> CheckSkipped \/ r_Err r <> None) as Hf.
  { intros took res. unfold stampConsumedImage. destruct (negb (j_ImageBuild job) && _), (r_Err res) eqn:E; cbn; [right; by rewrite E| |right; by rewrite E|].
    all: destruct (decide (r_Status res = CheckSkipped)) as [Hs|Hs]; [rewrite bool_decide_true by done; by left|rewrite bool_decide_false by done; by left]. }
  unfold evidenceTask. destruct (if negb remote then _ else _) as [[err|[dir took]] s1]; [right; done|]. cbv zeta.
  destruct (_ && _ && _).
  - destruct (o_ensure O svcs (k_Needs check) s1) as [[err|ens] s2]; [right; done|]. destruct (o_review O _ _ _ s2) as [res s3]. apply Hf.
  - destruct (o_review O _ _ _ s1) as [res s3]. apply Hf.
Qed.

End Checks.

(** The retries of Flaky.v as what a check depends on: [o_review] of a daemon. *)
Definition reviewed {S I Q V} (W : World_ S) (lib : RegoLib I Q V) (engine : Engine Q) (facts : RetryFacts -> I) (sha : string -> string)
    (testsJSON : list TestCase -> string) (render : list Line -> string) (r : Retrier)
    (run : CheckJob -> string -> S * option History -> CheckResult * (S * option History)) (job : CheckJob) (log : string)
    (s : S * option History) : CheckResult * (S * option History) :=
  let W' := mkWorld_ (fun j l (t : S * option History) => run j l t)
              (fun j res t => let '(d, t1) := w_classify W j res t.1 in (d, (t1, t.2)))
              (fun t => let '(e, t1) := w_expired W t.1 in (e, (t1, t.2)))
              (fun t => let '(b, t1) := w_ended W t.1 in (b, (t1, t.2)))
              (fun t => let '(n, t1) := w_now W t.1 in (n, (t1, t.2))) in
  let '(res, _, h, t) := Flaky.Run W' lib engine facts sha testsJSON render r job log (snd s) s in
  (res, (fst t, h)).

(** ** Identities that are cut *)

Section Identity.
Context (newJSON : string -> JSONDecoder) (newXML : string -> Decoder).

(** The identity a local command's file gives. *)
Lemma identity_read (e : LocalExecutor) environ job pl h data ls r :
  j_InputsCapture job = true -> j_TestResults job = "" -> h_CtxEnd h = None -> h_Run h = None ->
  h_MkdirTemp h = None -> h_WriteResult h = None -> h_Result h = Some data ->
  1 <= strlen (TrimSpace (firstBytes 4097 data)) <= 4096 ->
  LocalRunCheck newJSON newXML e environ job pl h = Some (ls, r) ->
  r_Err r = None /\ r_Status r = CheckPassed /\ r_InputsKey r = TrimSpace (firstBytes 4097 data).
Proof.
  intros Hi Ht H1 H2 H3 H4 H5 Hk%keyed_spec. unfold LocalRunCheck, prepareTestFiles, localResult. rewrite H1, H2, H3, H4, H5, Ht, Hi.
  destruct (captureRusage (h_Usage h)) as [[rss u] s].
  replace (default "" (readReceiptResult (Some data) 4096)) with (firstBytes 4097 data) by done.
  rewrite Hk. cbn. destruct (j_Command job); [done|]. by intros [= _ <-].
Qed.

(** An identity of inputs can be cut, and the evidence of other inputs is then
    reused. The executor reads 4097 bytes of the identity file to see whether there are
    more than 4096, but trims them before it measures them: when white space stands
    there, a longer file passes for its first part. Two runs whose identities agree on
    4097 bytes and differ after them - the last of many input hashes changed - get the
    same key, and once the first has passed, the second is reported green without
    its command being run. *)
Theorem truncated_identity_reused {S} (O : Outside S) cfg checkKey sha (e : LocalExecutor) environ check tree svcs deps job1 job2 pl s1 s2 h1 h2 A B :
  se_hasStore cfg = true -> j_Target job1 = j_Target job2 -> j_Image job1 = j_Image job2 ->
  (forall commit s, snd (fst (o_materialize O tree commit s)) = None) ->
  (forall pl s, exists ls, LocalRunCheck newJSON newXML e environ (identityJob check job1) pl h1 = Some (ls, fst (o_exec O (identityJob check job1) pl s))) ->
  (forall pl s, exists ls, LocalRunCheck newJSON newXML e environ (identityJob check job2) pl h2 = Some (ls, fst (o_exec O (identityJob check job2) pl s))) ->
  Forall (fun h => h_MkdirTemp h = None /\ h_WriteResult h = None /\ h_CtxEnd h = None /\ h_Run h = None) [h1; h2] ->
  h_Result h1 = Some A -> h_Result h2 = Some B ->
  4096 < strlen A -> 4096 < strlen B -> A <> B -> firstBytes 4097 A = firstBytes 4097 B ->
  1 <= strlen (TrimSpace (firstBytes 4097 A)) <= 4096 ->
  exists key s1' s2',
    identify O cfg checkKey sha false check tree svcs deps job1 pl s1 = (inr (key, job1 <| j_VerificationID := key |>), s1') /\
    identify O cfg checkKey sha false check tree svcs deps job2 pl s2 = (inr (key, job2 <| j_VerificationID := key |>), s2') /\
    forall m now at_ r0,
      mg_closed m = false -> mg_active m !! key = None -> mg_evidence m !! key = Some (at_, r0) ->
      (now - Retention) `div` 1000000 <= at_ -> passed r0 -> r_VerificationID r0 = key ->
      exists r, RunBegin now false key (job2 <| j_VerificationID := key |>) None m = (Returned r, m) /\ NodeGreen r = true /\ r_Reused r = true.
Proof.
  intros Hst Htg Him Hmat Hx1 Hx2 Hh HA HB LA LB Hne Hcut Hk.
  apply Forall_cons in Hh as [(F1 & F2 & F3 & F4) [(G1 & G2 & G3 & G4) _]%Forall_cons].
  assert (forall job h D, (forall pl s, exists ls, LocalRunCheck newJSON newXML e environ (identityJob check job) pl h = Some (ls, fst (o_exec O (identityJob check job) pl s))) ->
    h_MkdirTemp h = None -> h_WriteResult h = None -> h_CtxEnd h = None -> h_Run h = None -> h_Result h = Some D ->
    1 <= strlen (TrimSpace (firstBytes 4097 D)) <= 4096 -> forall s, exists s',
    let k := checkKey (se_context cfg) (j_Target job) check svcs deps (sha (TrimSpace (firstBytes 4097 D))) (j_Image job) in
    identify O cfg checkKey sha false check tree svcs deps job pl s = (inr (k, job <| j_VerificationID := k |>), s')) as Hid.
  { intros job h D Hx K1 K2 K3 K4 K5 KD s. unfold identify. rewrite Hst. cbn [negb].
    specialize (Hmat (j_MergeSHA job) s). destruct (o_materialize O tree (j_MergeSHA job) s) as [[[dir took] err] s']. cbn in Hmat. subst err.
    destruct (Hx (pl <| p_Dir := dir |> <| p_LogPath ::= identityLog |>) s') as [ls Hr].
    destruct (o_exec O (identityJob check job) _ s') as [identity s'']. cbn [fst] in Hr.
    eapply identity_read in Hr as (E1 & E2 & E3); [|done..|exact KD]. apply keyed_spec in KD.
    exists s''. cbv zeta. rewrite E1, E2, E3, bool_decide_true by done. cbn [isSome negb orb]. by rewrite KD. }
  destruct (Hid job1 h1 A Hx1 F1 F2 F3 F4 HA Hk s1) as [s1' E1]. rewrite Hcut in Hk, E1.
  destruct (Hid job2 h2 B Hx2 G1 G2 G3 G4 HB Hk s2) as [s2' E2]. cbv zeta in E1, E2. rewrite Htg, Him in E1.
  do 3 eexists. split; [exact E1|]. split; [exact E2|].
  intros m now at_ r0 Hc Ha Hev Hold [P1 P2] Hv. unfold RunBegin, lookupEvidence. rewrite Hc, Ha, Hev.
  rewrite (proj2 (Z.ltb_ge _ _)) by done. rewrite bool_decide_true, Hv, String.eqb_refl by done. cbn [orb andb].
  eexists. split; [done|]. split; [|done]. apply NodeGreen_true. cbn. auto.
Qed.
End Identity.

(** ** A cut identity *)

Fixpoint repeated (n : nat) (c : ascii) (rest : string) : string :=
  match n with O => rest | S n => String c (repeated n c rest) end.

(** 4096 bytes, the end of a line, and one more line that differs. *)
Definition oldInputs : string := repeated 4096 "a"%char (String newline "go.sum 1").
Definition newInputs : string := repeated 4096 "a"%char (String newline "go.sum 2").

Definition identityHost (file : string) : Host :=
  mkHost None None None "/scratch" None None None None false [] None false None ("", None) (Some file) None 0 0 None.

Definition demoExecutor : LocalExecutor := mkLocalExecutor "" "" [] [].
Definition demoInputs : Check := mkCheck "" None (Some ["./inputs"]) "unit" ["make"] [] [] "" "".
Definition demoJobOf (run : string) : CheckJob := zeroCheckJob <| j_Name := "unit" |> <| j_RunID := run |> <| j_Target := "main" |>.
Definition demoPlacement : Placement := mkPlacement "" "" [] [].

Definition hostOf (run : string) : Host := identityHost (if String.eqb run "run1" then oldInputs else newInputs).

Definition demoOutside : Outside unit := mkOutside
  (fun _ _ s => (("/work", 0, None), s))
  (fun job pl s =>
     (match LocalRunCheck noJSON noXML demoExecutor [] job pl (hostOf (j_RunID job)) with
      | Some (_, r) => r | None => zeroCheckResult end, s))
  (fun _ _ s => (inl "", s)) (fun _ s => (false, s)) (fun run job log s => run job log s).

Lemma demo_runs job pl h : j_Command job <> [] ->
  exists ls, LocalRunCheck noJSON noXML demoExecutor [] job pl h =
    Some (ls, match LocalRunCheck noJSON noXML demoExecutor [] job pl h with Some (_, r) => r | None => zeroCheckResult end).
Proof. intros Hc. destruct (local_green noJSON noXML demoExecutor [] job pl h Hc) as (ls & r & -> & _). by exists ls. Qed.

Lemma truncated_identity_reused_witness :
  exists key s1 s2,
    identify demoOutside (mkSetting true false "") (fun _ _ _ _ _ inputs _ => inputs) id false demoInputs "tree" [] [] (demoJobOf "run1") demoPlacement tt
      = (inr (key, demoJobOf "run1" <| j_VerificationID := key |>), s1) /\
    identify demoOutside (mkSetting true false "") (fun _ _ _ _ _ inputs _ => inputs) id false demoInputs "tree" [] [] (demoJobOf "run2") demoPlacement tt
      = (inr (key, demoJobOf "run2" <| j_VerificationID := key |>), s2).
Proof.
  pose proof (truncated_identity_reused noJSON noXML demoOutside (mkSetting true false "") (fun _ _ _ _ _ inputs _ => inputs) id demoExecutor []
    demoInputs "tree" [] [] (demoJobOf "run1") (demoJobOf "run2") demoPlacement tt tt (hostOf (j_RunID (identityJob demoInputs (demoJobOf "run1")))) (hostOf (j_RunID (identityJob demoInputs (demoJobOf "run2")))) oldInputs newInputs
    eq_refl eq_refl eq_refl (fun _ _ => eq_refl)) as H.
  destruct H as (key & s1 & s2 & H1 & H2 & _).
  - intros pl s. exact (demo_runs (identityJob demoInputs (demoJobOf "run1")) pl (hostOf (j_RunID (identityJob demoInputs (demoJobOf "run1")))) ltac:(discriminate)).
  - intros pl s. exact (demo_runs (identityJob demoInputs (demoJobOf "run2")) pl (hostOf (j_RunID (identityJob demoInputs (demoJobOf "run2")))) ltac:(discriminate)).
  - repeat constructor.
  - reflexivity.
  - reflexivity.
  - vm_compute. reflexivity.
  - vm_compute. reflexivity.
  - intros H. apply (f_equal (fun s => String.eqb s newInputs)) in H. vm_compute in H. discriminate.
  - vm_compute. reflexivity.
  - vm_compute. split; discriminate.
  - exists key, s1, s2. exact (conj H1 H2).
Defined.
