(* ===== verification/DeployGraph.v ===== *)
(** The deploy node graph (src/internal/deploy/graph.go): one run of a graph of
    deploy nodes, its scheduler loop driven by the arrivals of finished nodes. *)
From S2P Require Import Prelude GoString Core.

Open Scope string_scope.
Open Scope list_scope.
Open Scope Z_scope.

(** src/internal/deploy/graph.go:41-50 [Node] *)
Record Node := mkNode { n_Name : string; n_After : list string; n_Command : list string; n_Executor : string }.

(** src/internal/deploy/graph.go:101-102 [Scheduler] The callbacks of a run, in order: [OnStart] and [OnFinish]. *)
Inductive graphEvent := NodeStarted (idx : nat) | NodeFinished (idx : nat) (res : CheckResult).

(** src/internal/deploy/graph.go:129-157 [Run] The variables of the loop:
    [inflight] lists the nodes whose goroutine has not reported yet, [cancelled]
    is [ctx.Err() != nil]. *)
Record graphState := mkGraph {
  g_results : gmap string CheckResult;
  g_started : gset nat;
  g_inflight : list nat;
  g_culprit : string;
  g_cancelled : bool;
  g_log : list graphEvent;
}.

#[export] Instance graphState_eta : Eta graphState := fun g => mkGraph
  (g_results g) (g_started g) (g_inflight g) (g_culprit g) (g_cancelled g) (g_log g).

Definition freshGraph : graphState := mkGraph ∅ ∅ [] "" false [].

(** src/internal/deploy/graph.go:269-272 [nodeDone] What the loop learns from outside: a node's message, or the end of the
    context the run was given. *)
Inductive arrival := Done (idx : nat) (res : CheckResult) | Cancelled.

(** src/internal/deploy/graph.go:252-261 [Run] Why a run was concluded without a verdict. *)
Inductive runErr := ContextDone | NeverReady (missing total : nat).

Section Scheduler.
Context (Nodes : list Node) (MaxParallel : Z).

(** src/internal/deploy/graph.go:134-134 [Run] *)
Definition maxParallelOf : Z := Z.max MaxParallel 1.

(** src/internal/deploy/graph.go:157-157 [Run] The closure [keep]. *)
Definition keep (g : graphState) : bool := String.eqb (g_culprit g) "" && negb (g_cancelled g).

(** src/internal/deploy/graph.go:163-163 [Run] [s.Nodes[idx].Name] *)
Definition nodeName (idx : nat) : string := match Nodes !! idx with Some n => n_Name n | None => "" end.

(** src/internal/deploy/graph.go:159-167 [Run] The closure [store]. *)
Definition storeDone (idx : nat) (res : CheckResult) (g : graphState) : graphState :=
  if keep g
  then g <| g_results ::= <[nodeName idx := res]> |> <| g_log ::= (fun l => l ++ [NodeFinished idx res]) |>
  else g.

(** src/internal/deploy/graph.go:181-187 [Run] *)
Definition nodeReady (n : Node) (g : graphState) : bool :=
  forallb (fun dep => match g_results g !! dep with Some res => NodeGreen res | None => false end) (n_After n).

(** src/internal/deploy/graph.go:191-196 [Run] *)
Definition startNode (idx : nat) (g : graphState) : graphState :=
  g <| g_started ::= union {[idx]} |> <| g_inflight ::= (fun l => l ++ [idx]) |>
    <| g_log ::= (fun l => l ++ [NodeStarted idx]) |>.

(** src/internal/deploy/graph.go:173-197 [Run] The scan over the nodes. *)
Fixpoint startNodes (idx : nat) (l : list Node) (g : graphState) : graphState :=
  match l with
  | [] => g
  | n :: rest =>
      if maxParallelOf <=? Z.of_nat (length (g_inflight g)) then g
      else if bool_decide (idx ∈ g_started g) then startNodes (S idx) rest g
      else if nodeReady n g then startNodes (S idx) rest (startNode idx g)
      else startNodes (S idx) rest g
  end.

(** src/internal/deploy/graph.go:172-198 [Run] Step 1. *)
Definition startReadyNodes (g : graphState) : graphState := if keep g then startNodes 0 Nodes g else g.

(** src/internal/deploy/graph.go:220-231 [Run] One receive: every started node
    reports once. *)
Definition arrive (a : arrival) (g : graphState) : graphState :=
  match a with
  | Cancelled => g <| g_cancelled := true |>
  | Done idx res =>
      if bool_decide (idx ∈ g_inflight g)
      then storeDone idx (res <| r_Name := nodeName idx |>)
             (g <| g_inflight ::= List.filter (fun j => negb (j =? idx)%nat) |>)
      else g
  end.

(** src/internal/deploy/graph.go:238-238 [Run] A finished node that is not green. *)
Definition nodeRed (g : graphState) (n : Node) : bool :=
  match g_results g !! n_Name n with Some res => negb (NodeGreen res) | None => false end.

(** src/internal/deploy/graph.go:236-244 [Run] Step 3. *)
Definition cull (g : graphState) : graphState :=
  if keep g then match List.find (nodeRed g) Nodes with
                 | Some n => g <| g_culprit := n_Name n |>
                 | None => g
                 end
  else g.

(** src/internal/deploy/graph.go:169-245 [Run] The loop, each round given the
    arrivals it drains; [None] while it is still waiting for more. *)
Fixpoint runRounds (rounds : list (list arrival)) (g : graphState) : option graphState :=
  let g := startReadyNodes g in
  match g_inflight g with
  | [] => Some g
  | _ => match rounds with
         | [] => None
         | r :: rest => runRounds rest (cull (fold_left (fun g a => arrive a g) r g))
         end
  end.

(** src/internal/deploy/graph.go:335-344 [materialize] *)
Definition blockedRow (results : gmap string CheckResult) (culprit : string) (idx : nat) (n : Node) : CheckResult :=
  let by_ := List.filter (fun dep => match results !! dep with Some res => negb (NodeGreen res) | None => true end)
               (n_After n) in
  zeroCheckResult <| r_Name := n_Name n |> <| r_Seq := Z.of_nat idx + 1 |> <| r_Status := CheckBlocked |>
    <| r_BlockedBy := match by_ with [] => [culprit] | _ => by_ end |>.

(** src/internal/deploy/graph.go:323-347 [materialize] *)
Fixpoint materialize (results : gmap string CheckResult) (culprit : string) (idx : nat) (l : list Node)
  : list CheckResult :=
  match l with
  | [] => []
  | n :: rest =>
      match results !! n_Name n with
      | Some res => (res <| r_Seq := Z.of_nat idx + 1 |>) :: materialize results culprit (S idx) rest
      | None => if String.eqb culprit "" then materialize results culprit (S idx) rest
                else blockedRow results culprit idx n :: materialize results culprit (S idx) rest
      end
  end.

(** src/internal/deploy/graph.go:247-262 [Run] *)
Definition concludeGraph (g : graphState) : list CheckResult * string * option runErr :=
  let '(culprit, err) :=
    if g_cancelled g then ("", Some ContextDone)
    else if String.eqb (g_culprit g) "" && negb (size (g_results g) =? length Nodes)%nat
    then (g_culprit g, Some (NeverReady (length Nodes - size (g_results g)) (length Nodes)))
    else (g_culprit g, None) in
  (materialize (g_results g) culprit 0 Nodes, culprit, err).

(** src/internal/deploy/graph.go:129-265 [Run] [late] tells whether the context
    ended after the last round. *)
Definition RunNodes (rounds : list (list arrival)) (late : bool) : option (list CheckResult * string * option runErr) :=
  option_map (fun g => concludeGraph (g <| g_cancelled ::= orb late |>)) (runRounds rounds freshGraph).
End Scheduler.

(** ** Safety *)

Section Safety.
Context (Nodes : list Node) (MaxParallel : Z).
Implicit Types (g : graphState) (idx : nat).

(** A node starts once, after all its prerequisites have finished green. *)
Definition log_ok (log : list graphEvent) : Prop :=
  forall pre idx post, log = pre ++ NodeStarted idx :: post ->
    (NodeStarted idx ∉ pre) /\
    exists n, Nodes !! idx = Some n /\
      Forall (fun dep => exists j m res, NodeFinished j res ∈ pre /\ Nodes !! j = Some m /\ n_Name m = dep /\ NodeGreen res = true)
             (n_After n).

Record graph_ok g : Prop := {
  go_inflight : NoDup (g_inflight g);
  go_started : forall idx, idx ∈ g_inflight g -> idx ∈ g_started g;
  go_cap : Z.of_nat (length (g_inflight g)) <= maxParallelOf MaxParallel;
  go_bounds : forall idx, idx ∈ g_started g -> is_Some (Nodes !! idx);
  go_started_log : forall idx, idx ∈ g_started g <-> NodeStarted idx ∈ g_log g;
  go_results : forall name res, g_results g !! name = Some res ->
    exists idx n, Nodes !! idx = Some n /\ n_Name n = name /\ r_Name res = name /\ NodeFinished idx res ∈ g_log g /\
                  idx ∈ g_started g /\ (idx ∉ g_inflight g);
  go_log : log_ok (g_log g);
}.

Lemma freshGraph_ok : graph_ok freshGraph.
Proof.
  split.
  - constructor.
  - intros idx H. by apply elem_of_nil in H.
  - unfold maxParallelOf. simpl. lia.
  - intros idx H. by apply elem_of_empty in H.
  - intros idx. simpl. by rewrite elem_of_empty, elem_of_nil.
  - intros name res E. simpl in E. by apply lookup_empty_Some in E.
  - intros pre idx post H. by destruct pre.
Qed.

Lemma log_ok_snoc log ev :
  log_ok log -> (forall idx, ev = NodeStarted idx -> (NodeStarted idx ∉ log) /\
    exists n, Nodes !! idx = Some n /\
      Forall (fun dep => exists j m res, NodeFinished j res ∈ log /\ Nodes !! j = Some m /\ n_Name m = dep /\ NodeGreen res = true)
             (n_After n)) -> log_ok (log ++ [ev]).
Proof.
  intros Hl He pre idx post E. destruct (last post) as [x|] eqn:El.
  - apply last_Some in El as [post' ->].
    rewrite app_comm_cons, app_assoc in E. apply app_inj_tail in E as [-> _]. by apply (Hl _ _ post').
  - apply last_None in El as ->. apply app_inj_tail in E as [-> ->]. by apply He.
Qed.

Lemma nodeReady_log g n :
  graph_ok g -> nodeReady n g = true ->
  Forall (fun dep => exists j m res, NodeFinished j res ∈ g_log g /\ Nodes !! j = Some m /\ n_Name m = dep /\ NodeGreen res = true)
         (n_After n).
Proof.
  intros H Hr. unfold nodeReady in Hr. rewrite forallb_forall in Hr. apply Forall_forall. intros dep Hd%list_elem_of_In.
  specialize (Hr dep Hd). destruct (g_results g !! dep) as [res|] eqn:E; [|done].
  destruct (go_results g H dep res E) as (j & m & Hm & En & _ & Hf & _). by exists j, m, res.
Qed.

Lemma startNode_ok g idx n :
  graph_ok g -> Nodes !! idx = Some n -> idx ∉ g_started g -> nodeReady n g = true ->
  Z.of_nat (length (g_inflight g)) < maxParallelOf MaxParallel -> graph_ok (startNode idx g).
Proof.
  intros H Hn Hns Hr Hlt. pose proof (nodeReady_log g n H Hr) as Hlog. destruct H as [H1 H2 H3 H4 H5 H6 H7]. split; simpl.
  - apply NoDup_app. split_and!; [done| |apply NoDup_singleton]. intros x Hx ->%list_elem_of_singleton. by apply Hns, H2.
  - intros x [Hx| ->%list_elem_of_singleton]%elem_of_app; set_solver.
  - rewrite length_app. simpl. lia.
  - intros x [->%elem_of_singleton|Hx]%elem_of_union; [by eexists|auto].
  - intros x. rewrite elem_of_union, elem_of_singleton, elem_of_app, list_elem_of_singleton, H5.
    split; [intros [->|?]; auto|intros [?|[= ->]]; auto].
  - intros name res E. destruct (H6 name res E) as (j & m & ? & ? & ? & ? & ? & ?). exists j, m. split_and!; try done; [set_solver|set_solver|].
    rewrite elem_of_app, list_elem_of_singleton. intros [?| ->]; [done|]. by apply Hns.
  - apply log_ok_snoc; [done|]. intros ? [= <-]. split; [by rewrite <- H5|by exists n].
Qed.

Lemma startNodes_ok k l g : l = drop k Nodes -> graph_ok g -> graph_ok (startNodes MaxParallel k l g).
Proof.
  revert k g. induction l as [|n l IH]; intros k g El H; cbn [startNodes]; [done|].
  assert (Nodes !! k = Some n) as Hn by (rewrite <- (Nat.add_0_r k), <- lookup_drop, <- El; done).
  assert (l = drop (S k) Nodes) as El' by (rewrite <- Nat.add_1_r, <- drop_drop, <- El; done).
  destruct (maxParallelOf MaxParallel <=? _) eqn:Hc; [done|]. apply Z.leb_gt in Hc.
  case_bool_decide; [by apply IH|]. destruct (nodeReady n g) eqn:Hr; [|by apply IH]. apply IH; [done|]. by eapply startNode_ok.
Qed.

Lemma storeDone_ok g idx n res :
  graph_ok g -> Nodes !! idx = Some n -> idx ∈ g_started g -> idx ∉ g_inflight g -> r_Name res = n_Name n ->
  graph_ok (storeDone Nodes idx res g).
Proof.
  intros H Hn Hs Hi Hname. unfold storeDone. destruct (keep g); [|done]. destruct H as [H1 H2 H3 H4 H5 H6 H7]. split; simpl; try done.
  - intros x. rewrite elem_of_app, list_elem_of_singleton, H5. split; [auto|intros [?|?]; done].
  - unfold nodeName. rewrite Hn. intros name r [[<- <-]|[_ E]]%lookup_insert_Some.
    + exists idx, n. split_and!; try done. rewrite elem_of_app, list_elem_of_singleton. by right.
    + destruct (H6 name r E) as (j & m & ? & ? & ? & ? & ? & ?). exists j, m. split_and!; try done. rewrite elem_of_app. by left.
  - apply log_ok_snoc; [done|]. by intros ? [=].
Qed.

Lemma arrive_ok a g : graph_ok g -> graph_ok (arrive Nodes a g).
Proof.
  intros H. destruct a as [idx res|]; cbn [arrive]; [|by destruct H].
  case_bool_decide as Hi; [|done]. assert (idx ∈ g_started g) as Hs by by apply (go_started g H).
  destruct (go_bounds g H idx Hs) as [n Hn]. set (g1 := g <| g_inflight ::= _ |>).
  assert (forall x, x ∈ g_inflight g1 <-> x ∈ g_inflight g /\ x <> idx) as Hin.
  { intros x. unfold g1. simpl. rewrite !list_elem_of_In, filter_In, negb_true_iff, Nat.eqb_neq. done. }
  apply (storeDone_ok g1 idx n); try done.
  - destruct H as [H1 H2 H3 H4 H5 H6 H7]. split; try done.
    + eapply sublist_NoDup; [exact H1|]. apply sublist_List_filter.
    + intros x [Hx _]%Hin. by apply H2.
    + unfold g1. simpl. pose proof (filter_length_le (fun j => negb (j =? idx)%nat) (g_inflight g)). lia.
    + intros name r E. destruct (H6 name r E) as (j & m & ? & ? & ? & ? & ? & Hj). exists j, m. split_and!; try done.
      intros [Hx _]%Hin. done.
  - rewrite Hin. by intros [].
  - simpl. unfold nodeName. by rewrite Hn.
Qed.

Lemma cull_ok g : graph_ok g -> graph_ok (cull Nodes g).
Proof. intros H. unfold cull. destruct (keep g); [|done]. destruct (List.find _ Nodes); [|done]. by destruct H. Qed.

(** One step of a run: the scan, one message, or the cull. *)
Inductive gstep : graphState -> graphState -> Prop :=
| gs_start g : gstep g (startReadyNodes Nodes MaxParallel g)
| gs_arrive a g : gstep g (arrive Nodes a g)
| gs_cull g : gstep g (cull Nodes g).

Lemma gstep_ok g g' : gstep g g' -> graph_ok g -> graph_ok g'.
Proof.
  intros [] H; [|by apply arrive_ok|by apply cull_ok]. unfold startReadyNodes. destruct (keep _); [|done].
  by apply startNodes_ok.
Qed.

Lemma gsteps_ok g g' : rtc gstep g g' -> graph_ok g -> graph_ok g'.
Proof. induction 1 as [|x y z Hs _ IH]; [done|]. intros H. apply IH. by eapply gstep_ok. Qed.

(** A concluded run stays concluded and calls back no more. *)
Lemma gstep_concluded g g' : gstep g g' -> keep g = false -> keep g' = false /\ g_log g' = g_log g.
Proof.
  intros [] Hk.
  - unfold startReadyNodes. by rewrite Hk.
  - destruct a as [idx res|]; cbn [arrive].
    + case_bool_decide; [|done]. unfold storeDone. set (g1 := g0 <| g_inflight ::= _ |>).
      change (keep g1) with (keep g0). by rewrite Hk.
    + split; [|done]. unfold keep in *. simpl. by rewrite andb_false_r.
  - unfold cull. by rewrite Hk.
Qed.
End Safety.

(** At the top of the loop an unconcluded run has seen nothing red. *)
Definition settled (Nodes : list Node) (g : graphState) : Prop :=
  keep g = true -> forall n, n ∈ Nodes -> nodeRed g n = false.

Lemma cull_settled Nodes g : "" ∉ n_Name <$> Nodes -> settled Nodes (cull Nodes g).
Proof.
  intros Hne. unfold cull. destruct (keep g) eqn:Hk; [|intros E; congruence].
  destruct (List.find (nodeRed g) Nodes) as [n|] eqn:Ef.
  - intros E. unfold keep in E. simpl in E. apply andb_true_iff in E as [E%String.eqb_eq _]. exfalso. apply Hne.
    rewrite <- E. apply list_elem_of_fmap_2. apply find_some in Ef as [Hin _]. by apply list_elem_of_In.
  - intros _ n Hn%list_elem_of_In. by eapply find_none in Ef.
Qed.

(** Starting nodes changes neither results nor verdict. *)
Lemma startNodes_same MaxParallel k l g :
  let g' := startNodes MaxParallel k l g in
  g_results g' = g_results g /\ g_culprit g' = g_culprit g /\ g_cancelled g' = g_cancelled g.
Proof.
  cbv zeta. revert k g. induction l as [|n l IH]; intros k g; cbn [startNodes]; [done|].
  destruct (_ <=? _); [done|]. case_bool_decide; [apply IH|]. destruct (nodeReady n g); [|apply IH].
  apply (IH (S k) (startNode k g)).
Qed.

Lemma startReady_settled Nodes MaxParallel g : settled Nodes g -> settled Nodes (startReadyNodes Nodes MaxParallel g).
Proof.
  intros H. unfold startReadyNodes. destruct (keep g) eqn:Hk; [|intros E; congruence].
  destruct (startNodes_same MaxParallel 0 Nodes g) as (Er & _ & _). intros _ n Hn. unfold nodeRed. rewrite Er. by apply H.
Qed.

(** ** Conclusions *)

(** The prerequisites are declared and acyclic, witnessed by a depth. *)
Definition graph_acyclic (Nodes : list Node) (depth : string -> nat) : Prop :=
  Forall (fun n => Forall (fun dep => dep ∈ n_Name <$> Nodes /\ (depth dep < depth (n_Name n))%nat) (n_After n)) Nodes.

(** Every round brings the message of a node that is in flight. *)
Fixpoint fairRounds (Nodes : list Node) (MaxParallel : Z) (rounds : list (list arrival)) (g : graphState) : Prop :=
  let g := startReadyNodes Nodes MaxParallel g in
  match g_inflight g, rounds with
  | [], _ | _, [] => True
  | l, r :: rest =>
      (exists idx res, idx ∈ l /\ Done idx res ∈ r) /\
      fairRounds Nodes MaxParallel rest (cull Nodes (fold_left (fun g a => arrive Nodes a g) r g))
  end.

Section Conclusions.
Context (Nodes : list Node) (MaxParallel : Z).
Hypothesis Hnames : NoDup (n_Name <$> Nodes).
Hypothesis Hnonempty : "" ∉ n_Name <$> Nodes.
Implicit Types (g : graphState) (idx : nat).

Definition first_red g : Prop :=
  exists k n, Nodes !! k = Some n /\ n_Name n = g_culprit g /\ nodeRed g n = true /\
    forall j m, (j < k)%nat -> Nodes !! j = Some m -> nodeRed g m = false.

Record loop_ok g : Prop := {
  lp_graph : graph_ok Nodes MaxParallel g;
  lp_done : keep g = true -> forall idx n, idx ∈ g_started g -> Nodes !! idx = Some n ->
    idx ∈ g_inflight g \/ is_Some (g_results g !! n_Name n);
  lp_culprit : g_culprit g = "" \/ first_red g;
}.

Definition finished g : nat := (size (g_started g) - length (g_inflight g))%nat.

Lemma inflight_size g : graph_ok Nodes MaxParallel g -> (length (g_inflight g) <= size (g_started g) <= length Nodes)%nat.
Proof.
  intros H. split.
  - rewrite <- (size_list_to_set (C := gset nat) (g_inflight g)) by apply H. apply subseteq_size.
    intros x Hx%elem_of_list_to_set. by apply (go_started _ _ _ H).
  - rewrite <- (size_set_seq (C := gset nat) 0 (length Nodes)). apply subseteq_size. intros x Hx.
    apply elem_of_set_seq. pose proof (lookup_lt_is_Some_1 _ _ (go_bounds _ _ _ H x Hx)). lia.
Qed.

Lemma startNode_loop idx n g :
  loop_ok g -> Nodes !! idx = Some n -> idx ∉ g_started g -> nodeReady n g = true ->
  Z.of_nat (length (g_inflight g)) < maxParallelOf MaxParallel ->
  loop_ok (startNode idx g) /\ finished (startNode idx g) = finished g.
Proof.
  intros [H1 H2 H3] Hn Hs Hr Hlt. split; [split; [by eapply startNode_ok| |]|].
  - intros Hk x m [->%elem_of_singleton|Hx]%elem_of_union Hm; simpl.
    + left. rewrite elem_of_app, list_elem_of_singleton. by right.
    + destruct (H2 Hk x m Hx Hm); [left|by right]. rewrite elem_of_app. by left.
  - exact H3.
  - unfold finished. simpl. rewrite size_union by set_solver. rewrite size_singleton, length_app. simpl.
    pose proof (inflight_size g H1). lia.
Qed.

(** The scan stops at the cap or leaves no ready node unstarted. *)
Lemma startNodes_loop k l g :
  l = drop k Nodes -> loop_ok g ->
  let g' := startNodes MaxParallel k l g in
  loop_ok g' /\ finished g' = finished g /\ g_results g' = g_results g /\ g_culprit g' = g_culprit g /\
  g_cancelled g' = g_cancelled g /\ g_started g ⊆ g_started g' /\
  (maxParallelOf MaxParallel <= Z.of_nat (length (g_inflight g')) \/
   forall j n, (k <= j)%nat -> Nodes !! j = Some n -> j ∈ g_started g' \/ nodeReady n g' = false).
Proof.
  cbv zeta. revert k g. induction l as [|n l IH]; intros k g El H; cbn [startNodes].
  { split_and!; try done. right. intros j n Hj E. exfalso. apply lookup_lt_Some in E.
    apply (f_equal length) in El. rewrite length_drop in El. simpl in El. lia. }
  assert (Nodes !! k = Some n) as Hn by (rewrite <- (Nat.add_0_r k), <- lookup_drop, <- El; done).
  assert (l = drop (S k) Nodes) as El' by (rewrite <- Nat.add_1_r, <- drop_drop, <- El; done).
  destruct (_ <=? _) eqn:Hc; [split_and!; try done; left; lia|]. apply Z.leb_gt in Hc.
  assert (forall g1, g_results g1 = g_results g -> (k ∈ g_started g1 \/ nodeReady n g1 = false) -> loop_ok g1 ->
    finished g1 = finished g -> g_culprit g1 = g_culprit g -> g_cancelled g1 = g_cancelled g -> g_started g ⊆ g_started g1 ->
    let g' := startNodes MaxParallel (S k) l g1 in
    loop_ok g' /\ finished g' = finished g /\ g_results g' = g_results g /\ g_culprit g' = g_culprit g /\
    g_cancelled g' = g_cancelled g /\ g_started g ⊆ g_started g' /\
    (maxParallelOf MaxParallel <= Z.of_nat (length (g_inflight g')) \/
     forall j n, (k <= j)%nat -> Nodes !! j = Some n -> j ∈ g_started g' \/ nodeReady n g' = false)) as Hgo.
  { intros g1 Er Hk H1 E1 E2 E3 E4. cbv zeta. destruct (IH (S k) g1 El' H1) as (? & ? & Er' & ? & ? & Hs' & Hor).
    split_and!; try done; try congruence; [set_solver|]. destruct Hor as [?|Hor]; [by left|right].
    intros j m Hj Hm. destruct (decide (j = k)) as [->|]; [|apply Hor; [lia|done]].
    rewrite Hn in Hm. injection Hm as <-. destruct Hk as [Hk|Hk]; [left; by apply Hs'|right].
    unfold nodeReady in *. by rewrite Er'. }
  case_bool_decide as Hst; [apply Hgo; try done; by left|]. destruct (nodeReady n g) eqn:Hr.
  - destruct (startNode_loop k n g H Hn Hst Hr Hc) as [H1 E1]. apply Hgo; try done.
    + left. simpl. set_solver.
    + simpl. set_solver.
  - apply Hgo; try done. by right.
Qed.

Lemma first_red_same g g' : g_results g' = g_results g -> g_culprit g' = g_culprit g -> first_red g -> first_red g'.
Proof. unfold first_red, nodeRed. by intros -> ->. Qed.

Lemma arrive_loop a g : loop_ok g -> loop_ok (arrive Nodes a g) /\ (finished g <= finished (arrive Nodes a g))%nat.
Proof.
  intros [H1 H2 H3]. pose proof (arrive_ok Nodes MaxParallel a g H1) as H1'. pose proof (inflight_size g H1) as Hsz.
  destruct a as [idx res|]; cbn [arrive] in *; [|split; [split; [done| |done]|done]; unfold keep; simpl; by rewrite andb_false_r].
  case_bool_decide as Hi; [|by split]. set (g1 := g <| g_inflight ::= _ |>) in *.
  assert (g_inflight g1 = List.filter (fun j => negb (j =? idx)%nat) (g_inflight g)) as E1 by done.
  assert (forall x, x ∈ g_inflight g1 <-> x ∈ g_inflight g /\ x <> idx) as Hin.
  { intros x. rewrite E1, !list_elem_of_In, filter_In, negb_true_iff, Nat.eqb_neq. done. }
  split.
  - split; [done| |].
    + unfold storeDone. change (keep g1) with (keep g). destruct (keep g) eqn:Hk; [|change (keep g1) with (keep g); by rewrite Hk].
      intros _ x n Hx Hn. simpl. destruct (decide (x = idx)) as [->|Hne].
      * right. unfold nodeName. rewrite Hn, lookup_insert_eq. by eexists.
      * destruct (H2 eq_refl x n Hx Hn) as [?|Hs]; [left; by apply Hin|right]. rewrite lookup_insert_is_Some'. by right.
    + unfold storeDone. change (keep g1) with (keep g). destruct (keep g) eqn:Hk.
      * left. unfold keep in Hk. apply andb_prop in Hk as [Hk%String.eqb_eq _]. done.
      * destruct H3 as [?|H3]; [by left|right]. by apply (first_red_same g).
  - unfold storeDone. pose proof (filter_length_le (fun j => negb (j =? idx)%nat) (g_inflight g)).
    unfold finished. destruct (keep g1); simpl; lia.
Qed.

(** The message of a node in flight counts. *)
Lemma arrive_finished idx res g :
  loop_ok g -> idx ∈ g_inflight g -> (finished g < finished (arrive Nodes (Done idx res) g))%nat.
Proof.
  intros [H1 _ _] Hi. pose proof (inflight_size g H1) as Hsz. cbn [arrive]. rewrite bool_decide_true by done.
  assert (length (List.filter (fun j => negb (j =? idx)%nat) (g_inflight g)) < length (g_inflight g))%nat as Hlt.
  { revert Hi. clear. induction (g_inflight g) as [|x l IH]; [by intros H%elem_of_nil|]. cbn [List.filter].
    intros [->|H]%elem_of_cons.
    - rewrite Nat.eqb_refl. simpl. pose proof (filter_length_le (fun j => negb (j =? x)%nat) l). lia.
    - specialize (IH H). destruct (negb _); simpl; lia. }
  unfold storeDone, finished. destruct (keep _); simpl; lia.
Qed.

Lemma arrivals_loop r g :
  loop_ok g -> let g' := fold_left (fun g a => arrive Nodes a g) r g in
  loop_ok g' /\ (finished g <= finished g')%nat /\
  ((exists idx res, idx ∈ g_inflight g /\ Done idx res ∈ r) -> (finished g < finished g')%nat) /\
  (g_cancelled g' = true -> g_cancelled g = true \/ Cancelled ∈ r).
Proof.
  cbv zeta. revert g. induction r as [|a r IH]; intros g H; cbn [fold_left].
  { split_and!; [done|done| |by left]. intros (? & ? & _ & Hx). by apply elem_of_nil in Hx. }
  destruct (arrive_loop a g H) as [H1 Hle]. destruct (IH (arrive Nodes a g) H1) as (H2 & Hle2 & Hlt & Hc).
  split_and!; [done|lia| |].
  - intros (idx & res & Hi & Hr). destruct (decide (idx ∈ g_inflight (arrive Nodes a g))) as [Hi'|Hi'].
    + apply elem_of_cons in Hr as [<-|Hr]; [pose proof (arrive_finished idx res g H Hi); lia|].
      specialize (Hlt ltac:(by exists idx, res)). lia.
    + enough (finished g < finished (arrive Nodes a g))%nat by lia. destruct a as [idx' res'|]; [|done].
      destruct (decide (idx' ∈ g_inflight g)) as [Hin|Hin]; [by apply arrive_finished|].
      exfalso. apply Hi'. cbn [arrive]. by rewrite bool_decide_false.
  - intros [Hca|Hca]%Hc; [|right; by right]. destruct a as [idx res|]; [|right; by left]. left.
    revert Hca. cbn [arrive]. case_bool_decide; [|done]. unfold storeDone. by destruct (keep _).
Qed.

Lemma cull_loop g :
  loop_ok g -> loop_ok (cull Nodes g) /\ finished (cull Nodes g) = finished g /\ settled Nodes (cull Nodes g) /\
  g_cancelled (cull Nodes g) = g_cancelled g.
Proof.
  intros H. destruct (H) as [H1 H2 H3]. pose proof (cull_ok Nodes MaxParallel g H1) as H1'. unfold cull in *.
  destruct (keep g) eqn:Hk; [|split_and!; [exact H|done|intros E; congruence|done]].
  destruct (List.find (nodeRed g) Nodes) as [n|] eqn:Ef.
  - assert (first_red (g <| g_culprit := n_Name n |>)) as Hf.
    { clear - Ef. assert (forall l, List.find (nodeRed g) l = Some n -> exists k, l !! k = Some n /\ nodeRed g n = true /\
        forall j m, (j < k)%nat -> l !! j = Some m -> nodeRed g m = false) as H.
      { induction l as [|x l IH]; [done|]. cbn [List.find]. destruct (nodeRed g x) eqn:Ex.
        - intros [= <-]. exists O. split_and!; [done|done|]. intros j m Hj. lia.
        - intros (k & Ek & Hr & Hp)%IH. exists (S k). split_and!; [done|done|]. intros [|j] m Hj; simpl; [by intros [= <-]|].
          apply Hp. lia. }
      destruct (H Nodes Ef) as (k & Ek & Hr & Hp). by exists k, n. }
    assert (keep (g <| g_culprit := n_Name n |>) = false) as Hk'.
    { unfold keep. simpl. apply andb_false_iff. left. apply String.eqb_neq. intros E. apply Hnonempty. rewrite <- E.
      apply list_elem_of_fmap_2. apply find_some in Ef as [Hin _]. by apply list_elem_of_In. }
    split_and!; [|done|intros E; congruence|done]. split; [done|by rewrite Hk'|by right].
  - split_and!; [exact H|done| |done]. intros _ n Hn%list_elem_of_In.
    by eapply find_none in Ef.
Qed.

Lemma startReady_loop g :
  loop_ok g -> settled Nodes g -> let g' := startReadyNodes Nodes MaxParallel g in
  loop_ok g' /\ finished g' = finished g /\ settled Nodes g' /\ g_cancelled g' = g_cancelled g /\
  (g_inflight g' = [] -> keep g' = true -> forall j n, Nodes !! j = Some n -> j ∈ g_started g' \/ nodeReady n g' = false).
Proof.
  intros H Hs. cbv zeta. unfold startReadyNodes. destruct (keep g) eqn:Hk; [|split_and!; try done; intros _ E; by rewrite E in Hk].
  destruct (startNodes_loop 0 Nodes g eq_refl H) as (H1 & E1 & Er & Ec & Ex & _ & Hor). split_and!; try done.
  - intros _ n Hn. unfold nodeRed. rewrite Er. by apply Hs.
  - intros Ei _ j n. destruct Hor as [Hle|Hor]; [rewrite Ei in Hle; unfold maxParallelOf in Hle; simpl in Hle; lia|].
    apply Hor. lia.
Qed.

Lemma runRounds_ends rounds g :
  loop_ok g -> settled Nodes g -> fairRounds Nodes MaxParallel rounds g -> (length Nodes <= finished g + length rounds)%nat ->
  exists g', runRounds Nodes MaxParallel rounds g = Some g' /\ loop_ok g' /\ settled Nodes g' /\ g_inflight g' = [] /\
    (keep g' = true -> forall j n, Nodes !! j = Some n -> j ∈ g_started g' \/ nodeReady n g' = false) /\
    (g_cancelled g' = true -> g_cancelled g = true \/ Cancelled ∈ concat rounds).
Proof.
  revert g. induction rounds as [|r rounds IH]; intros g H Hs Hf Hlen.
  - destruct (startReady_loop g H Hs) as (H1 & E1 & Hs1 & Ec & Hd). cbv zeta in *. cbn [runRounds]. cbv zeta.
    pose proof (inflight_size _ (lp_graph _ H1)) as Hsz. destruct (g_inflight (startReadyNodes _ _ g)) as [|x l] eqn:Ei.
    + eexists. split_and!; [done|done|done|done|by apply Hd|]. rewrite Ec. by left.
    + exfalso. unfold finished in *. simpl in *. rewrite Ei in E1. simpl in *. lia.
  - destruct (startReady_loop g H Hs) as (H1 & E1 & Hs1 & Ec & Hd). cbn [runRounds fairRounds] in *. cbv zeta in *.
    set (g1 := startReadyNodes Nodes MaxParallel g) in *. clearbody g1.
    destruct (g_inflight g1) as [|x l] eqn:Ei.
    { eexists. split_and!; [done|done|done|done|by apply Hd|]. rewrite Ec. by left. }
    destruct Hf as [Hdone Hf]. rewrite <- Ei in Hdone.
    destruct (arrivals_loop r g1 H1) as (H2 & _ & Hlt & Hca). cbv zeta in *. specialize (Hlt Hdone).
    set (g2 := fold_left _ r g1) in *. clearbody g2. destruct (cull_loop g2 H2) as (H3 & E3 & Hs3 & Ec3).
    destruct (IH (cull Nodes g2) H3 Hs3 Hf ltac:(simpl in Hlen; lia)) as (g' & E & ? & ? & ? & ? & Hc).
    exists g'. split_and!; try done. intros [Hx|Hx]%Hc; [|right; simpl; rewrite elem_of_app; by right].
    rewrite Ec3 in Hx. apply Hca in Hx as [Hx|Hx]; [left; congruence|right; simpl; rewrite elem_of_app; by left].
Qed.

(** With nothing in flight and nothing red, every node has a green result. *)
Lemma all_green g depth :
  graph_acyclic Nodes depth -> loop_ok g -> settled Nodes g -> g_inflight g = [] -> keep g = true ->
  (forall j n, Nodes !! j = Some n -> j ∈ g_started g \/ nodeReady n g = false) ->
  forall n, n ∈ Nodes -> exists res, g_results g !! n_Name n = Some res /\ NodeGreen res = true.
Proof.
  intros Hac H Hs Hi Hk Hd. unfold graph_acyclic in Hac. rewrite Forall_forall in Hac.
  assert (forall n, n ∈ Nodes -> is_Some (g_results g !! n_Name n) -> exists res, g_results g !! n_Name n = Some res /\ NodeGreen res = true) as Hg.
  { intros n Hn [res E]. exists res. split; [done|]. pose proof (Hs Hk n Hn) as Hr. unfold nodeRed in Hr. rewrite E in Hr.
    by apply negb_false_iff. }
  enough (forall k n, (depth (n_Name n) < k)%nat -> n ∈ Nodes -> exists res, g_results g !! n_Name n = Some res /\ NodeGreen res = true)
    as Hall by (intros n Hn; apply (Hall (S (depth (n_Name n)))); [lia|done]).
  induction k as [|k IH]; intros n Hlt Hn; [lia|]. apply Hg; [done|].
  pose proof Hn as [j Hj]%list_elem_of_lookup_1. destruct (Hd j n Hj) as [Hst|Hnr].
  - destruct (lp_done g H Hk j n Hst Hj) as [Hx|?]; [|done]. rewrite Hi in Hx. by apply elem_of_nil in Hx.
  - exfalso. apply not_true_iff_false in Hnr. apply Hnr. unfold nodeReady. apply forallb_forall. intros dep Hdep%list_elem_of_In.
    specialize (Hac n Hn). rewrite Forall_forall in Hac. destruct (Hac dep Hdep) as [Hin Hdl].
    apply list_elem_of_fmap in Hin as (m & -> & Hm). destruct (IH m ltac:(lia) Hm) as (res & -> & Hgr). done.
Qed.

(** The row of one node. *)
Definition row_of (results : gmap string CheckResult) (n : Node) (row : CheckResult) : Prop :=
  match results !! n_Name n with
  | Some res => exists seq, row = res <| r_Seq := seq |>
  | None => r_Name row = n_Name n /\ r_Status row = CheckBlocked /\ r_BlockedBy row <> []
  end.

Lemma materialize_rows results culprit k l :
  (culprit = "" -> Forall (fun n => is_Some (results !! n_Name n)) l) ->
  Forall2 (row_of results) l (materialize results culprit k l).
Proof.
  revert k. induction l as [|n l IH]; intros k H; cbn [materialize]; [constructor|].
  assert (culprit = "" -> Forall (fun n => is_Some (results !! n_Name n)) l) as H' by (intros E%H; by inversion E).
  destruct (results !! n_Name n) as [res|] eqn:E.
  - constructor; [|by apply IH]. unfold row_of. rewrite E. by eexists.
  - destruct (String.eqb_spec culprit "") as [Hc|Hc].
    + specialize (H Hc). apply Forall_cons in H as [[res Hr] _]. congruence.
    + constructor; [|by apply IH]. unfold row_of. rewrite E. split_and!; [done|done|]. simpl. by case_match.
Qed.
Lemma materialize_seqs results culprit k l :
  (culprit = "" -> Forall (fun n => is_Some (results !! n_Name n)) l) ->
  r_Seq <$> materialize results culprit k l = (fun i => Z.of_nat i + 1) <$> seq k (length l).
Proof.
  revert k. induction l as [|n l IH]; intros k H; cbn [materialize]; [done|].
  assert (culprit = "" -> Forall (fun n => is_Some (results !! n_Name n)) l) as H' by (intros E%H; by inversion E).
  destruct (results !! n_Name n) as [res|] eqn:E; [|destruct (String.eqb_spec culprit "") as [Hc|Hc]].
  - cbn. f_equal. by apply IH.
  - specialize (H Hc). apply Forall_cons in H as [[res Hr] _]. congruence.
  - cbn. f_equal. by apply IH.
Qed.

Lemma results_size g :
  loop_ok g -> (forall n, n ∈ Nodes -> is_Some (g_results g !! n_Name n)) -> size (g_results g) = length Nodes.
Proof.
  intros H Hall. rewrite <- size_dom. rewrite <- (length_fmap n_Name Nodes), <- (size_list_to_set (C := gset string)) by done.
  f_equal. apply set_eq. intros x. rewrite elem_of_dom, elem_of_list_to_set. split.
  - intros [res E]. destruct (go_results _ _ _ (lp_graph _ H) x res E) as (j & n & Hn & <- & _).
    apply list_elem_of_fmap_2. by eapply list_elem_of_lookup_2.
  - intros (n & -> & Hn)%list_elem_of_fmap. by apply Hall.
Qed.

(** The rows of a run carry the nodes' names. *)
Lemma rows_names g rows :
  loop_ok g -> Forall2 (row_of (g_results g)) Nodes rows -> r_Name <$> rows = n_Name <$> Nodes.
Proof.
  intros H Hr. symmetry. apply list_eq_Forall2, Forall2_fmap. eapply Forall2_impl; [exact Hr|].
  intros n row Hrow. unfold row_of in Hrow. destruct (g_results g !! n_Name n) as [res|] eqn:E; [|by destruct Hrow].
  destruct Hrow as [sq ->]. simpl. by destruct (go_results _ _ _ (lp_graph _ H) _ _ E) as (_ & _ & _ & _ & -> & _).
Qed.

Lemma freshGraph_loop : loop_ok freshGraph /\ settled Nodes freshGraph.
Proof.
  split; [split|].
  - apply freshGraph_ok.
  - intros _ idx n Hi. by apply elem_of_empty in Hi.
  - by left.
  - intros _ n _. unfold nodeRed. simpl. by rewrite lookup_empty.
Qed.
End Conclusions.

(** A run concluded without culprit or error has a green row for every node. *)
Lemma conclude_green Nodes MaxParallel g rows :
  NoDup (n_Name <$> Nodes) -> graph_ok Nodes MaxParallel g -> settled Nodes g ->
  concludeGraph Nodes g = (rows, "", None) ->
  r_Name <$> rows = n_Name <$> Nodes /\ Forall (fun row => NodeGreen row = true) rows.
Proof.
  intros Hnd Hg Hs. unfold concludeGraph. destruct (g_cancelled g) eqn:Hc; [done|].
  destruct (String.eqb_spec (g_culprit g) "") as [Hcul|Hcul]; simpl; [|by intros [= _ ?]].
  destruct (Nat.eqb_spec (size (g_results g)) (length Nodes)) as [Hsz|]; simpl; [|done]. intros [= <- _].
  assert (keep g = true) as Hk by (unfold keep; by rewrite Hcul, Hc). specialize (Hs Hk).
  assert (dom (g_results g) ⊆ list_to_set (C := gset string) (n_Name <$> Nodes)) as Hsub.
  { intros x [res E]%elem_of_dom. destruct (go_results _ _ _ Hg x res E) as (j & n & Hn & <- & _).
    apply elem_of_list_to_set, list_elem_of_fmap_2. by eapply list_elem_of_lookup_2. }
  assert (forall n, n ∈ Nodes -> exists res, g_results g !! n_Name n = Some res /\ NodeGreen res = true /\ r_Name res = n_Name n) as Hall.
  { intros n Hn. assert (n_Name n ∈ dom (g_results g)) as [res E]%elem_of_dom.
    { rewrite (set_subseteq_size_eq _ _ Hsub); [by apply elem_of_list_to_set, list_elem_of_fmap_2|].
      rewrite size_list_to_set by done. rewrite length_fmap, size_dom. lia. }
    exists res. split_and!; [done| |].
    - specialize (Hs n Hn). unfold nodeRed in Hs. rewrite E in Hs. by apply negb_false_iff.
    - by destruct (go_results _ _ _ Hg _ _ E) as (_ & _ & _ & _ & -> & _). }
  clear -Hall. generalize O as k. induction Nodes as [|n l IH]; intros k; cbn [materialize]; [done|].
  destruct (Hall n) as (res & -> & Hgr & Hnm); [by left|]. destruct (IH (fun m Hm => Hall m (list_elem_of_further _ _ _ Hm)) (S k)) as [E1 E2].
  split; [|by constructor]. cbn. by rewrite Hnm, E1.
Qed.

(** A row of a node that never ran. *)
Definition blocked (row : CheckResult) : Prop := r_Status row = CheckBlocked /\ r_BlockedBy row <> [].

(** C26. A run of a deploy graph never has more than its cap in flight, and
    a node starts at most once, only after every prerequisite it names finished
    green in the same run; in every state the loop can reach, whatever messages
    arrive in whatever order. Once a culprit is named or the context has ended, the
    run starts nothing and reports nothing more. *)
Theorem deploy_graph_safe (Nodes : list Node) (MaxParallel : Z) (g : graphState) :
  rtc (gstep Nodes MaxParallel) freshGraph g ->
  Z.of_nat (length (g_inflight g)) <= Z.max MaxParallel 1 /\
  (forall pre idx post, g_log g = pre ++ NodeStarted idx :: post ->
     (NodeStarted idx ∉ pre) /\
     exists n, Nodes !! idx = Some n /\
       Forall (fun dep => exists j m res, NodeFinished j res ∈ pre /\ Nodes !! j = Some m /\ n_Name m = dep /\ NodeGreen res = true)
              (n_After n)) /\
  (forall idx, idx ∈ g_inflight g -> NodeStarted idx ∈ g_log g) /\
  forall g', gstep Nodes MaxParallel g g' -> keep g = false -> keep g' = false /\ g_log g' = g_log g.
Proof.
  intros Hr. assert (graph_ok Nodes MaxParallel g) as H.
  { eapply gsteps_ok; [exact Hr|]. apply freshGraph_ok. }
  split_and!.
  - apply (go_cap _ _ _ H).
  - apply (go_log _ _ _ H).
  - intros idx Hi. apply (go_started_log _ _ _ H). by apply (go_started _ _ _ H).
  - intros g' Hs Hk. by eapply gstep_concluded.
Qed.

Lemma run_concludes (Nodes : list Node) (MaxParallel : Z) (depth : string -> nat) (rounds : list (list arrival)) (late : bool) :
  NoDup (n_Name <$> Nodes) -> "" ∉ n_Name <$> Nodes -> graph_acyclic Nodes depth ->
  fairRounds Nodes MaxParallel rounds freshGraph -> (length Nodes <= length rounds)%nat ->
  exists rows culprit err, RunNodes Nodes MaxParallel rounds late = Some (rows, culprit, err) /\
    ((err = Some ContextDone /\ culprit = "" /\ (late = true \/ Cancelled ∈ concat rounds)) \/
     (err = None /\ r_Name <$> rows = n_Name <$> Nodes /\ r_Seq <$> rows = (fun i => Z.of_nat i + 1) <$> seq 0 (length Nodes) /\
      ((culprit = "" /\ Forall (fun row => NodeGreen row = true) rows) \/
       exists k row, rows !! k = Some row /\ r_Name row = culprit /\ NodeGreen row = false /\
         forall j row', (j < k)%nat -> rows !! j = Some row' -> NodeGreen row' = true \/ blocked row'))).
Proof.
  intros Hnames Hne Hac Hf Hlen. destruct (freshGraph_loop Nodes MaxParallel) as [H0 Hs0].
  destruct (runRounds_ends Nodes MaxParallel Hnames Hne rounds freshGraph H0 Hs0 Hf) as (g & E & H & Hs & Hi & Hd & Hc); [simpl; lia|].
  unfold RunNodes. rewrite E. cbn [option_map]. unfold concludeGraph. simpl.
  destruct (late || g_cancelled g) eqn:Hx.
  { do 3 eexists. split; [done|]. left. split_and!; [done|done|]. apply orb_prop in Hx as [->|Hx]; [by left|right].
    by destruct (Hc Hx). }
  apply orb_false_elim in Hx as [-> Hx]. destruct (String.eqb_spec (g_culprit g) "") as [Hcul|Hcul].
  - assert (keep g = true) as Hk by (unfold keep; by rewrite Hcul, Hx).
    pose proof (all_green Nodes MaxParallel g depth Hac H Hs Hi Hk (Hd Hk)) as Hg.
    assert (forall n, n ∈ Nodes -> is_Some (g_results g !! n_Name n)) as Hall
      by (intros n Hn; destruct (Hg n Hn) as (res & -> & _); by eexists).
    rewrite (results_size Nodes MaxParallel Hnames g H Hall), Nat.eqb_refl. simpl.
    assert (Forall (fun n => is_Some (g_results g !! n_Name n)) Nodes) as HF by by apply Forall_forall.
    pose proof (materialize_rows (g_results g) (g_culprit g) 0 Nodes (fun _ => HF)) as Hrows.
    do 3 eexists. split; [done|]. right. split_and!; [done|by eapply rows_names|by apply materialize_seqs|]. left. split; [done|].
    apply Forall_lookup_2. intros k row Hrow. destruct (Forall2_lookup_r _ _ _ _ _ Hrows Hrow) as (n & Hn & Hro).
    destruct (Hg n) as (res & Er & Hgr); [by eapply list_elem_of_lookup_2|]. unfold row_of in Hro. rewrite Er in Hro.
    by destruct Hro as [sq ->].
  - simpl. pose proof (materialize_rows (g_results g) (g_culprit g) 0 Nodes (fun E => match Hcul E with end)) as Hrows.
    do 3 eexists. split; [done|]. right.
    split_and!; [done|by eapply rows_names|by apply materialize_seqs; intros E'|]. right.
    destruct (lp_culprit _ _ g H) as [?|(k & n & Hn & En & Hr & Hp)]; [done|].
    destruct (Forall2_lookup_l _ _ _ _ _ Hrows Hn) as (row & Hrow & Hro). exists k, row.
    unfold row_of, nodeRed in Hro, Hr. destruct (g_results g !! n_Name n) as [res|] eqn:Er; [|done].
    destruct Hro as [sq ->]. split_and!; [done| |by apply negb_true_iff in Hr|].
    + simpl. by destruct (go_results _ _ _ (lp_graph _ _ _ H) _ _ Er) as (_ & _ & _ & _ & -> & _).
    + intros j row' Hj Hrow'. destruct (Forall2_lookup_r _ _ _ _ _ Hrows Hrow') as (m & Hm & Hro').
      specialize (Hp j m Hj Hm). unfold row_of, nodeRed in Hro', Hp. destruct (g_results g !! n_Name m); [left|right].
      * destruct Hro' as [sq' ->]. by apply negb_false_iff in Hp.
      * unfold blocked. by destruct Hro' as (_ & ? & ?).
Qed.

(** ** Examples *)

Definition demoGraph : list Node :=
  [mkNode "build" [] ["make"] ""; mkNode "migrate" ["build"] ["migrate"] ""; mkNode "docs" [] ["docs"] "";
   mkNode "app" ["migrate"; "build"] ["deploy"] ""].

Definition demoResult (st : CheckStatus) : CheckResult := zeroCheckResult <| r_Status := st |>.

(** The migration fails while the docs are still in flight. *)
Definition demoRounds : list (list arrival) :=
  [[Done 0 (demoResult CheckPassed)]; [Done 1 (demoResult CheckFailed)]; [Done 2 (demoResult CheckPassed)]; []].

Example demo_red : option_map (fun '(rows, culprit, err) => (map (fun r => (r_Name r, r_Status r, r_BlockedBy r)) rows, culprit, err))
    (RunNodes demoGraph 2 demoRounds false) =
  Some ([("build", CheckPassed, []); ("migrate", CheckFailed, []); ("docs", CheckBlocked, ["migrate"]);
         ("app", CheckBlocked, ["migrate"])], "migrate", None).
Proof. vm_compute. reflexivity. Qed.

Lemma demo_fair : fairRounds demoGraph 2 demoRounds freshGraph.
Proof.
  vm_compute. split; [do 2 eexists; split; [left|left]|]. split; [do 2 eexists; split; [right; left|left]|].
  split; [do 2 eexists; split; [left|left]|]. done.
Qed.

Lemma deploy_graph_safe_witness :
  exists g, rtc (gstep demoGraph 2) freshGraph g /\ g_log g = [NodeStarted 0; NodeStarted 2; NodeFinished 0 (demoResult CheckPassed <| r_Name := "build" |>)] /\
    Z.of_nat (length (g_inflight g)) <= Z.max 2 1.
Proof.
  set (g := arrive demoGraph (Done 0 (demoResult CheckPassed)) (startReadyNodes demoGraph 2 freshGraph)).
  assert (rtc (gstep demoGraph 2) freshGraph g) as H.
  { eapply rtc_l; [apply gs_start|]. eapply rtc_l; [apply (gs_arrive _ _ (Done 0 (demoResult CheckPassed)))|]. apply rtc_refl. }
  exists g. split; [exact H|]. split; [vm_compute; reflexivity|]. exact (proj1 (deploy_graph_safe demoGraph 2 g H)).
Defined.
