(* ===== verification/DeployLane.v ===== *)
(** The deploy tracker (src/internal/deploy/deploy.go, run.go, policy.go,
    snapshot.go): each environment's desired and observed refs, the lane that
    closes the gap between them, and the steps its goroutines take. *)
From S2P Require Import Prelude GoString Core Daemon Spec Trial Policy DeployGraph.

Open Scope string_scope.
Open Scope list_scope.
Open Scope Z_scope.

(** ** Data *)

(** src/internal/deploy/deploy.go:78-78 [DesiredRef] *)
Definition DesiredRef (env : string) : string := "refs/heads/deploy/" +:+ env.

(** src/internal/deploy/deploy.go:81-81 [ObservedRef] *)
Definition ObservedRef (env : string) : string := "refs/gauntlet/deployed/" +:+ env.

(** src/internal/deploy/deploy.go:86-93 [ModeTrack] *)
Definition ModeTrack : string := "track".

(** src/internal/deploy/deploy.go:100-103 [OnMoveCancel] *)
Definition OnMoveCancel : string := "cancel".

(** src/internal/deploy/deploy.go:107-128 [Environment] *)
Record Environment := mkEnvironment {
  e_Name : string;
  e_SourceBranch : string;
  e_SourceEnv : string;
  e_Mode : string;
  e_Nodes : list string;
  e_MaxParallel : Z;
  e_OnDesiredMove : string;
}.

(** src/internal/deploy/run.go:131-137 [laneRun] *)
Record laneRun := mkLaneRun {
  lr_runID : string;
  lr_sha : string;
  lr_prev : string;
  lr_startedAt : Z;
  lr_nodes : list string;
}.

#[export] Instance laneRun_eta : Eta laneRun := fun r => mkLaneRun
  (lr_runID r) (lr_sha r) (lr_prev r) (lr_startedAt r) (lr_nodes r).

Definition noRun : laneRun := mkLaneRun "" "" "" 0 [].

(** src/internal/deploy/snapshot.go:115-128 [LanePark] *)
Record LanePark := mkLanePark {
  lp_SHA : string;
  lp_RunID : string;
  lp_Outcome : Outcome;
  lp_Detail : string;
  lp_At : Z;
}.

(** src/internal/deploy/snapshot.go:133-144 [LaneResult] *)
Record LaneResult := mkLaneResult {
  ls_RunID : string;
  ls_DeploySHA : string;
  ls_DeployedSHA : string;
  ls_Outcome : Outcome;
  ls_Culprit : string;
  ls_Detail : string;
  ls_StartedAt : Z;
  ls_EndedAt : Z;
}.

(** src/internal/deploy/run.go:94-126 [lane] [cancel] is the goroutine whose
    context the cancel function ends. *)
Record lane := mkLane {
  l_running : bool;
  l_run : laneRun;
  l_cancel : option nat;
  l_cancelled : bool;
  l_cancelReason : string;
  l_parked : option LanePark;
  l_last : option LaneResult;
  l_syncedSHA : string;
  l_autoRetried : string;
}.

#[export] Instance lane_eta : Eta lane := fun l => mkLane (l_running l) (l_run l) (l_cancel l) (l_cancelled l)
  (l_cancelReason l) (l_parked l) (l_last l) (l_syncedSHA l) (l_autoRetried l).

Definition zeroLane : lane := mkLane false noRun None false "" None None "" "".

(** src/internal/deploy/snapshot.go:25-92 [LaneState] [Running] is a [LaneRun],
    the fields of a [laneRun]. *)
Record LaneState := mkLaneState {
  s_Env : string;
  s_Mode : string;
  s_Source : string;
  s_SourceTip : string;
  s_Desired : string;
  s_Observed : string;
  s_InSync : bool;
  s_Drift : bool;
  s_LastAdvance : Z;
  s_LastError : string;
  s_Pending : bool;
  s_Running : option laneRun;
  s_Parked : option LanePark;
  s_LastResult : option LaneResult;
}.

#[export] Instance LaneState_eta : Eta LaneState := fun s => mkLaneState (s_Env s) (s_Mode s) (s_Source s) (s_SourceTip s)
  (s_Desired s) (s_Observed s) (s_InSync s) (s_Drift s) (s_LastAdvance s) (s_LastError s) (s_Pending s) (s_Running s)
  (s_Parked s) (s_LastResult s).

(** src/internal/deploy/snapshot.go:17-20 [Snapshot] *)
Record Snapshot := mkSnapshot { sn_At : Z; sn_Lanes : list LaneState }.

(** Where a lane goroutine is: about to pin its revision, at the top of the
    scheduler's loop, past its start loop, back in [runGraph] with a verdict, or
    with its lane released and its terminal event still to be emitted. *)
Inductive phase :=
  | Starting
  | Scanning (nodes : list Node) (g : graphState)
  | Waiting (nodes : list Node) (g : graphState)
  | Ended (rows : list CheckResult) (culprit : string) (outcome : Outcome) (detail : string)
  | Released (rec : DeployRecord).

(** src/internal/deploy/run.go:262-272 [runGraph] A lane goroutine: its
    arguments, the instant it started, whether its context is done. *)
Record thread := mkThread {
  th_env : Environment;
  th_runID : string;
  th_desired : string;
  th_observed : string;
  th_startedAt : Z;
  th_cancelled : bool;
  th_phase : phase;
}.

#[export] Instance thread_eta : Eta thread := fun th => mkThread (th_env th) (th_runID th) (th_desired th)
  (th_observed th) (th_startedAt th) (th_cancelled th) (th_phase th).

(** src/internal/deploy/deploy.go:238-279 [Tracker] What changes: the tracker's
    fields, the process-wide run counter, the live lane goroutines and how many
    were ever started, the remote, the local pins and the events emitted. *)
Record Tracker := mkTracker {
  t_lastAdvance : gmap string Z;
  t_lanes : gmap string lane;
  t_draining : bool;
  t_snap : option Snapshot;
  t_counter : Z;
  t_threads : gmap nat thread;
  t_spawned : nat;
  t_git : GitRemote;
  t_pins : gset string;
  t_events : list Event;
}.

#[export] Instance Tracker_eta : Eta Tracker := fun t => mkTracker (t_lastAdvance t) (t_lanes t) (t_draining t)
  (t_snap t) (t_counter t) (t_threads t) (t_spawned t) (t_git t) (t_pins t) (t_events t).

(** src/internal/deploy/deploy.go:174-228 [Params] [Exec] is whether one was
    given; [fmtTime] is [time.Time.Format] in the run ID's layout. *)
Record Params := mkParams {
  p_Environments : list Environment;
  p_Exec : bool;
  p_Emit : bool;
  p_CheckSpec : string;
  p_KnownExecutorProfile : option (string -> bool);
  p_HistoryMtimes : bool;
  p_AutoRetryErrors : bool;
  p_fmtTime : Z -> string;
}.

(** src/internal/deploy/policy.go:10-19 [decideDeployment] The facts: the
    execution nodes in the execution phase, the refs where the operator replaced or
    extended the decision. *)
Record DeployFacts := mkDeployFacts {
  df_phase : string;
  df_environment : Environment;
  df_desired : string;
  df_observed : string;
  df_execution : option (list Node);
  df_current : option (string * string * string);
}.

(** What the outside answers to one consultation of the policy: the refs as they
    are listed, and the engine. *)
Record PolicyWorld := mkPolicyWorld {
  pw_refs : gmap string string + string;
  pw_local : gmap string string + string;
  pw_custom : string -> bool;
  pw_decide : string -> DeployFacts -> Decision + string;
}.

(** What the outside answers to one graph run. *)
Record ExecWorld := mkExecWorld {
  x_pin : option string;
  x_unpin : option string;
  x_file : string + string;
  x_decode : string -> CheckSpec + string;
  x_durationString : Z -> string;
  x_policy : PolicyWorld;
  x_mkdir : option string;
  x_export : option string;
  x_mtimes : option string;
}.


(** src/internal/gitx/git.go:537-541 [CASUpdate] *)
Definition casMessage (ref : string) (e : CASError) : string :=
  "gitx: cas update " +:+ ref +:+ ": " +:+ match e with CASStale => "gitx: CAS failed, ref moved" | CASOther msg => msg end.

(** src/internal/deploy/run.go:802-808 [shortSHA] *)
Definition shortSHA (sha : string) : string := String.substring 0 8 sha.

(** src/internal/deploy/deploy.go:412-417 [sourceDisplay] *)
Definition sourceDisplay (env : Environment) : string :=
  if String.eqb (e_SourceEnv env) "" then e_SourceBranch env else "env=" +:+ e_SourceEnv env.

(** src/internal/deploy/policy.go:9-44 [decideDeployment] [None] lets it pass. *)
Definition decideDeployment (pw : PolicyWorld) (env : Environment) (phase desired observed : string) (nodes : list Node)
  : option string :=
  let execution := String.eqb phase "execution" in
  let name := if execution then "execution" else "deployment" in
  let decide current :=
    match pw_decide pw name (mkDeployFacts phase env desired observed (if execution then Some nodes else None) current) with
    | inr err => Some (name +:+ " policy: " +:+ err)
    | inl d => if dc_Allow d then None else Some (name +:+ " policy: " +:+ Reason d)
    end in
  if pw_custom pw name
  then match pw_refs pw, pw_local pw with
       | inr err, _ => Some ("deployment policy refs: " +:+ err)
       | inl _, inr err => Some ("deployment policy observed refs: " +:+ err)
       | inl refs, inl local =>
           let tip := if String.eqb (e_SourceEnv env) "" then refs !!! ("refs/heads/" +:+ e_SourceBranch env) else ""
                      else local !!! (ObservedRef (e_SourceEnv env)) else "" in
           decide (Some (refs !!! (DesiredRef (e_Name env)) else "", local !!! (ObservedRef (e_Name env)) else "", tip))
       end
  else decide None.

(** The tracker's engine, as one consultation sees it. *)
Definition enginePolicy {Q V} (lib : RegoLib DeployFacts Q V) (e : Engine Q) (refs local : gmap string string + string)
  : PolicyWorld := mkPolicyWorld refs local (HasCustom e) (Decide lib e).

Section Tracker.
Context (p : Params).
Implicit Types (t : Tracker) (env : Environment) (th : thread).

(** src/internal/deploy/run.go:153-157 [stepLane] *)
Definition laneOf t env : lane := t_lanes t !!! (e_Name env) else zeroLane.

(** src/internal/deploy/run.go:156-156 [stepLane] *)
Definition setLane env (l : lane) t : Tracker := t <| t_lanes ::= <[e_Name env := l]> |>.

(** src/internal/deploy/run.go:639-644 [emit] *)
Definition emit (ev : Event) t : Tracker := if p_Emit p then t <| t_events ::= (fun l => l ++ [ev]) |> else t.

(** src/internal/deploy/run.go:338-345 [execGraph] The coordinates every deploy event carries. *)
Definition deployEvent (k : EventKind) (now : Z) th : Event :=
  event k now "" zeroCandidate (th_runID th) <| e_DeployEnv := e_Name (th_env th) |>
    <| e_DeploySHA := th_desired th |> <| e_DeployedSHA := th_observed th |>.

(** src/internal/deploy/run.go:80-86 [newDeployRunID] The counter is an [int64]. *)
Definition newDeployRunID (now : Z) (env sha : string) t : string * Tracker :=
  let sha := if (12 <? String.length sha)%nat then String.substring 0 12 sha else sha in
  let seq := (t_counter t + 1 + 2 ^ 63) mod 2 ^ 64 - 2 ^ 63 in
  ("deploy-" +:+ p_fmtTime p now +:+ "-" +:+ pretty seq +:+ "-" +:+ SanitizeName env +:+ "-" +:+ sha,
   t <| t_counter := seq |>).

(** ** The reconcile pass *)

(** src/internal/deploy/run.go:163-165 [stepLane] *)
Definition unpark (ls : LaneState) (l : lane) : lane :=
  match l_parked l with
  | Some pk => if String.eqb (lp_SHA pk) (s_Desired ls) then l else l <| l_parked := None |>
  | None => l
  end.

(** src/internal/deploy/run.go:215-232 [canStart] *)
Definition canStart t (l : lane) (ls : LaneState) : bool :=
  if negb (p_Exec p) || t_draining t then false
  else if String.eqb (s_Desired ls) "" || String.eqb (s_Desired ls) (s_Observed ls) then false
  else if String.eqb (l_syncedSHA l) (s_Desired ls) then false
  else match l_parked l with Some _ => false | None => true end.

(** src/internal/deploy/run.go:182-182 [stepLane] The call of a cancel function. *)
Definition cancelThread (k : option nat) t : Tracker :=
  match k with
  | Some k => t <| t_threads ::= alter (fun th => th <| th_cancelled := true |>) k |>
  | None => t
  end.

(** src/internal/deploy/run.go:241-253 [startLane] *)
Definition startLane env (now : Z) (ls : LaneState) t : Tracker :=
  let '(runID, t) := newDeployRunID now (e_Name env) (s_Desired ls) t in
  let k := t_spawned t in
  let l := laneOf t env <| l_running := true |> <| l_cancel := Some k |> <| l_cancelled := false |>
             <| l_cancelReason := "" |> <| l_run := mkLaneRun runID (s_Desired ls) (s_Observed ls) now [] |> in
  setLane env l t <| t_spawned := S k |>
    <| t_threads ::= <[k := mkThread env runID (s_Desired ls) (s_Observed ls) now false Starting]> |>.

(** src/internal/deploy/run.go:149-193 [stepLane] Up to the point where an
    admissible run consults the policy without the lock. *)
Definition stepLaneAdmit env (ls : LaneState) t : LaneState * Tracker :=
  let l := unpark ls (laneOf t env) in
  if l_running l
  then if String.eqb (e_OnDesiredMove env) OnMoveCancel && negb (String.eqb (s_Desired ls) "")
          && negb (String.eqb (s_Desired ls) (lr_sha (l_run l))) && negb (l_cancelled l)
       then let reason := "desired ref moved to " +:+ shortSHA (s_Desired ls) +:+ " mid-run (on-desired-move "
                            +:+ quoted OnMoveCancel +:+ ")" in
            (ls, cancelThread (l_cancel l) (setLane env (l <| l_cancelled := true |> <| l_cancelReason := reason |>) t))
       else (ls, setLane env l t)
  else (ls <| s_Pending := canStart t l ls |>, setLane env l t).

(** src/internal/deploy/run.go:195-204 [stepLane] What follows the policy's answer. *)
Definition stepLaneStart env (now : Z) (err : option string) (ls : LaneState) t : LaneState * Tracker :=
  let pending := match err with Some _ => false | None => canStart t (laneOf t env) ls end in
  let ls := ls <| s_Pending := pending |> in
  let ls := match err with Some e => ls <| s_LastError := e |> | None => ls end in
  (ls, if pending then startLane env now ls t else t).

(** src/internal/deploy/run.go:206-208 [stepLane] *)
Definition publishLane env t (ls : LaneState) : LaneState :=
  let l := laneOf t env in
  ls <| s_Running := if l_running l then Some (l_run l) else None |> <| s_Parked := l_parked l |>
     <| s_LastResult := l_last l |>.

(** What the outside does while one environment is reconciled: the other
    goroutines before it and while the lane's lock is open, the policy's answers. *)
Record LaneWorld := mkLaneWorld {
  lw_before : Tracker -> Tracker;
  lw_promotion : PolicyWorld;
  lw_unlocked : Tracker -> Tracker;
  lw_admission : PolicyWorld;
  lw_now : Z;
}.

(** src/internal/deploy/run.go:149-209 [stepLane] *)
Definition stepLane (lw : LaneWorld) env (ls : LaneState) t : LaneState * Tracker :=
  let '(ls, t) := stepLaneAdmit env ls t in
  let '(ls, t) :=
    if s_Pending ls
    then let t := lw_unlocked lw t in
         stepLaneStart env (lw_now lw) (decideDeployment (lw_admission lw) env "admission" (s_Desired ls) (s_Observed ls) []) ls t
    else (ls, t) in
  (publishLane env t ls, t).

(** src/internal/deploy/deploy.go:351-368 [reconcileLane] The lane as the refs describe it. *)
Definition laneRefs env (refs observed : gmap string string) : LaneState :=
  let tip := if negb (String.eqb (e_SourceBranch env) "") then refs !!! ("refs/heads/" +:+ e_SourceBranch env) else ""
             else if negb (String.eqb (e_SourceEnv env) "") then observed !!! (ObservedRef (e_SourceEnv env)) else ""
             else "" in
  mkLaneState (e_Name env) (e_Mode env) (sourceDisplay env) tip (refs !!! (DesiredRef (e_Name env)) else "")
    (observed !!! (ObservedRef (e_Name env)) else "") false false 0 "" false None None None.

(** src/internal/deploy/deploy.go:370-396 [reconcileLane] A tracked environment's desired ref follows its source. *)
Definition advanceDesired (pw : PolicyWorld) env (now : Z) (ls : LaneState) t : LaneState * Tracker :=
  if String.eqb (e_Mode env) ModeTrack && negb (String.eqb (s_SourceTip ls) "")
     && negb (String.eqb (s_Desired ls) (s_SourceTip ls))
  then match decideDeployment pw env "promotion" (s_SourceTip ls) (s_Observed ls) [] with
       | Some err => (ls <| s_LastError := err |>, t)
       | None =>
           let ref := DesiredRef (e_Name env) in
           let '(err, g) := CASUpdate ref (s_Desired ls) (s_SourceTip ls) (t_git t) in
           let t := t <| t_git := g |> in
           match err with
           | None => (ls <| s_Desired := s_SourceTip ls |>, t <| t_lastAdvance ::= <[e_Name env := now]> |>)
           | Some e => (ls <| s_LastError := casMessage ref e |>, t)
           end
       end
  else (ls, t).

(** src/internal/deploy/deploy.go:398-400 [reconcileLane] *)
Definition laneStatus env t (ls : LaneState) : LaneState :=
  ls <| s_LastAdvance := t_lastAdvance t !!! (e_Name env) else 0 |>
     <| s_InSync := negb (String.eqb (s_Desired ls) "") && String.eqb (s_Desired ls) (s_Observed ls) |>
     <| s_Drift := negb (String.eqb (s_SourceTip ls) "") && negb (String.eqb (s_Desired ls) (s_SourceTip ls)) |>.

(** src/internal/deploy/deploy.go:350-408 [reconcileLane] *)
Definition reconcileLane (lw : LaneWorld) env (refs observed : gmap string string) (now : Z) t : LaneState * Tracker :=
  let '(ls, t) := advanceDesired (lw_promotion lw) env now (laneRefs env refs observed) (lw_before lw t) in
  stepLane lw env (laneStatus env t ls) t.

(** src/internal/deploy/deploy.go:340-343 [ReconcileOnce] *)
Fixpoint reconcileLanes (lw : Environment -> LaneWorld) (envs : list Environment) (refs observed : gmap string string)
    (now : Z) t : list LaneState * Tracker :=
  match envs with
  | [] => ([], t)
  | env :: rest =>
      let '(ls, t) := reconcileLane (lw env) env refs observed now t in
      let '(lanes, t) := reconcileLanes lw rest refs observed now t in
      (ls :: lanes, t)
  end.

(** src/internal/deploy/deploy.go:330-346 [ReconcileOnce] *)
Definition ReconcileOnce (lw : Environment -> LaneWorld) (refs observed : gmap string string + string) (now : Z) t
  : option string * Tracker :=
  match refs, observed with
  | inr err, _ => (Some ("deploy: list refs: " +:+ err), t)
  | inl _, inr err => (Some ("deploy: list observed refs: " +:+ err), t)
  | inl refs, inl observed =>
      let '(lanes, t) := reconcileLanes lw (p_Environments p) refs observed now t in
      (None, t <| t_snap := Some (mkSnapshot now lanes) |>)
  end.

(** ** A lane goroutine *)

(** src/internal/deploy/run.go:575-587 [deployGraph] The executor gate of the selected nodes. *)
Fixpoint gateNodes (l : list DeployNode) : list Node + string :=
  match l with
  | [] => inl []
  | d :: rest =>
      if negb (String.eqb (dn_Executor d) "")
         && negb (match p_KnownExecutorProfile p with Some known => known (dn_Executor d) | None => false end)
      then inr ("deploy node " +:+ quoted (dn_Name d) +:+ " selects unknown executor profile " +:+ quoted (dn_Executor d))
      else match gateNodes rest with
           | inl nodes => inl (mkNode (dn_Name d) (dn_After d) (dn_Command d) (dn_Executor d) :: nodes)
           | inr err => inr err
           end
  end.

(** src/internal/deploy/run.go:555-587 [deployGraph] *)
Definition deployGraph (x : ExecWorld) env : list Node + string :=
  let bad err := "deploy spec " +:+ quoted (p_CheckSpec p) +:+ ": " +:+ err in
  match x_file x with
  | inr err => inr (bad err)
  | inl data =>
      match (match x_decode x data with inl cs => checkParsed (x_durationString x) cs | inr err => inr err end) with
      | inr err => inr (bad err)
      | inl spec =>
          match SelectDeployNodes spec (e_Nodes env) with
          | inr err => inr err
          | inl [] => inr "no deploy nodes declared"
          | inl selected => gateNodes selected
          end
      end
  end.

(** src/internal/deploy/run.go:294-298 [execGraph] The deferred release of the pin. *)
Definition unpin (err : option string) th t : Tracker :=
  match err with None => t <| t_pins ::= (fun s => s ∖ {[th_desired th]}) |> | Some _ => t end.

(** src/internal/deploy/run.go:281-345 [execGraph] From the pin to the event that
    opens the graph run, or the verdict of a run that never starts. *)
Definition execBegin (x : ExecWorld) (now : Z) th t : phase * Tracker :=
  match x_pin x with
  | Some err => (Ended [] "" OutcomeError ("pin deploy revision: " +:+ err), t)
  | None =>
      let t := t <| t_pins ::= union {[th_desired th]} |> in
      let stop o detail := (Ended [] "" o detail, unpin (x_unpin x) th t) in
      match deployGraph x (th_env th) with
      | inr reason => stop OutcomeRejected ("spec reject: " +:+ reason)
      | inl nodes =>
          match decideDeployment (x_policy x) (th_env th) "execution" (th_desired th) (th_observed th) nodes with
          | Some err => stop OutcomeRejected err
          | None =>
              match x_mkdir x, x_export x, (if p_HistoryMtimes p then x_mtimes x else None) with
              | Some err, _, _ => stop OutcomeError ("export tree: mkdir temp: " +:+ err)
              | None, Some err, _ => stop OutcomeError ("export tree: " +:+ err)
              | None, None, Some err => stop OutcomeError ("restore mtimes: " +:+ err)
              | None, None, None => (Scanning nodes freshGraph, emit (deployEvent EventDeployStarted now th) t)
              end
          end
      end
  end.

(** src/internal/deploy/run.go:606-610 [nodeStarted] *)
Definition nodeStarted env (name : string) t : Tracker :=
  let l := laneOf t env in setLane env (l <| l_run ::= (fun r => r <| lr_nodes ::= (fun ns => ns ++ [name]) |>) |>) t.

(** src/internal/deploy/run.go:615-620 [nodeFinished] *)
Fixpoint removeFirst (name : string) (l : list string) : list string :=
  match l with [] => [] | n :: rest => if String.eqb n name then rest else n :: removeFirst name rest end.

(** src/internal/deploy/run.go:612-621 [nodeFinished] *)
Definition nodeFinished env (name : string) t : Tracker :=
  let l := laneOf t env in setLane env (l <| l_run ::= (fun r => r <| lr_nodes ::= removeFirst name |>) |>) t.

(** src/internal/deploy/run.go:383-396 [execGraph] The scheduler's callbacks. *)
Definition callback (now : Z) th (nodes : list Node) (ev : graphEvent) t : Tracker :=
  match ev with
  | NodeStarted idx => nodeStarted (th_env th) (nodeName nodes idx) t
  | NodeFinished idx res =>
      emit (deployEvent EventDeployNodeFinished now th <| e_CheckName := nodeName nodes idx |> <| e_Check := Some res |>)
           (nodeFinished (th_env th) (nodeName nodes idx) t)
  end.

(** src/internal/deploy/run.go:383-396 [execGraph] The callbacks between two states of the scheduler. *)
Definition callbacks (now : Z) th (nodes : list Node) (before after : graphState) t : Tracker :=
  fold_left (fun t ev => callback now th nodes ev t) (drop (length (g_log before)) (g_log after)) t.

(** src/internal/deploy/run.go:775-782 [rowFor] *)
Definition rowFor (rows : list CheckResult) (name : string) : option CheckResult :=
  List.find (fun r => String.eqb (r_Name r) name) rows.

(** src/internal/deploy/run.go:626-633 [cancelDetail] *)
Definition cancelDetail (l : lane) (err : string) : string :=
  if String.eqb (l_cancelReason l) "" then "run concluded externally: " +:+ err else l_cancelReason l.

(** src/internal/deploy/graph.go:252-261 [Run] *)
Definition runErrMessage (e : runErr) : string :=
  match e with
  | ContextDone => "context canceled"
  | NeverReady missing total => "deploy: " +:+ pretty missing +:+ " of " +:+ pretty total
      +:+ " nodes never became ready: unsatisfiable after edges"
  end.

(** src/internal/deploy/run.go:423-442 [execGraph] What a green graph earns. *)
Definition publishGraph (pw : PolicyWorld) th (nodes : list Node) t : Outcome * string * Tracker :=
  match decideDeployment pw (th_env th) "publication" (th_desired th) (th_observed th) nodes with
  | Some err => (OutcomeRejected, err, t)
  | None =>
      let ref := ObservedRef (e_Name (th_env th)) in
      let '(err, g) := CASUpdate ref (th_observed th) (th_desired th) (t_git t) in
      let t := t <| t_git := g |> in
      match err with
      | None => (OutcomeLanded, "", t)
      | Some CASStale => (OutcomeError, "advance observed ref: it no longer held " +:+ shortSHA (th_observed th)
                                          +:+ " — another writer moved it", t)
      | Some e => (OutcomeError, "advance observed ref: " +:+ casMessage ref e, t)
      end
  end.

(** src/internal/deploy/run.go:399-443 [execGraph] *)
Definition execEnd (pw : PolicyWorld) th (nodes : list Node) (rows : list CheckResult) (culprit : string)
    (err : option runErr) t : Outcome * string * Tracker :=
  match err with
  | Some e => if th_cancelled th then (OutcomeSkipped, cancelDetail (laneOf t (th_env th)) (runErrMessage e), t)
              else (OutcomeError, runErrMessage e, t)
  | None =>
      if negb (String.eqb culprit "")
      then match rowFor rows culprit with
           | Some row => match r_Err row with
                         | Some e => (OutcomeError, "deploy node " +:+ quoted culprit +:+ ": " +:+ e, t)
                         | None => (OutcomeRejected, "deploy node " +:+ quoted culprit +:+ " failed", t)
                         end
           | None => (OutcomeRejected, "deploy node " +:+ quoted culprit +:+ " failed", t)
           end
      else publishGraph pw th nodes t
  end.

(** src/internal/deploy/run.go:461-464 [finishGraph] The finished record. *)
Definition deployRecord (now : Z) th (rows : list CheckResult) (culprit : string) (o : Outcome) (detail : string)
  : DeployRecord :=
  mkDeployRecord (e_Name (th_env th)) (th_runID th) (th_desired th) (th_observed th) rows o culprit detail
    (th_startedAt th) now.

(** src/internal/deploy/run.go:486-539 [releaseLane] *)
Definition releaseLane env (rec : DeployRecord) t : Tracker :=
  let o := dr_Outcome rec in
  let l := laneOf t env <| l_running := false |> <| l_cancel := None |> <| l_cancelled := false |> <| l_cancelReason := "" |>
    <| l_run := noRun |>
    <| l_last := Some (mkLaneResult (dr_RunID rec) (dr_DeploySHA rec) (dr_DeployedSHA rec) o (dr_Culprit rec) (dr_Detail rec)
                         (dr_StartedAt rec) (dr_EndedAt rec)) |> in
  let l :=
    match o with
    | OutcomeLanded => l <| l_syncedSHA := dr_DeploySHA rec |> <| l_parked := None |>
    | OutcomeSkipped => l
    | _ =>
        if bool_decide (o = OutcomeError) && p_AutoRetryErrors p && negb (t_draining t)
           && negb (String.eqb (l_autoRetried l) (dr_DeploySHA rec))
        then l <| l_autoRetried := dr_DeploySHA rec |> <| l_parked := None |>
        else l <| l_parked := Some (mkLanePark (dr_DeploySHA rec) (dr_RunID rec) o (dr_Detail rec) (dr_EndedAt rec)) |>
    end in
  setLane env l t.

(** src/internal/deploy/run.go:468-477 [finishGraph] The terminal event. *)
Definition terminalEvent th (rec : DeployRecord) : Event :=
  deployEvent EventDeployFinished (dr_EndedAt rec) th <| e_Deploy := Some rec |> <| e_Detail := dr_Detail rec |>.

(** The context of the run, as the scheduler reads it. *)
Definition observeCtx th (g : graphState) : graphState := g <| g_cancelled ::= orb (th_cancelled th) |>.

Definition setPhase (k : nat) (ph : phase) t : Tracker := t <| t_threads ::= alter (fun th => th <| th_phase := ph |>) k |>.

(** src/internal/deploy/run.go:262-274 [runGraph] One stretch of a lane goroutine between two points where
    others can act: [x] is what the outside answers, [r] the messages the scheduler
    drains. *)
Definition threadStep (x : ExecWorld) (r : list arrival) (now : Z) (k : nat) th t : Tracker :=
  let env := th_env th in
  match th_phase th with
  | Starting => let '(ph, t) := execBegin x now th t in setPhase k ph t
  | Scanning nodes g =>
      let g' := startReadyNodes nodes (e_MaxParallel env) (observeCtx th g) in
      setPhase k (Waiting nodes g') (callbacks now th nodes g g' t)
  | Waiting nodes g =>
      match g_inflight g with
      | [] =>
          let '(rows, culprit, err) := concludeGraph nodes (observeCtx th g) in
          let '(o, detail, t) := execEnd (x_policy x) th nodes rows culprit err t in
          setPhase k (Ended rows culprit o detail) (unpin (x_unpin x) th t)
      | _ =>
          let g' := fold_left (fun g a => arrive nodes a g) r g in
          setPhase k (Scanning nodes (cull nodes g')) (callbacks now th nodes g g' t)
      end
  | Ended rows culprit o detail =>
      let rec := deployRecord now th rows culprit o detail in
      setPhase k (Released rec) (releaseLane env rec t)
  | Released rec => emit (terminalEvent th rec) (t <| t_threads ::= delete k |>)
  end.

(** ** Operators *)

(** src/internal/deploy/run.go:661-673 [Retry] *)
Definition Retry (env : string) t : bool * Tracker :=
  match t_lanes t !! env with
  | Some l => match l_parked l with
              | Some _ => (true, t <| t_lanes ::= <[env := l <| l_parked := None |>]> |>)
              | None => (false, t)
              end
  | None => (false, t)
  end.

(** src/internal/deploy/run.go:686-702 [CancelCurrent] *)
Definition CancelCurrent (env : string) t : bool * Tracker :=
  match t_lanes t !! env with
  | Some l =>
      if negb (l_running l) || negb (isSome (l_cancel l)) then (false, t)
      else
        let l' := if l_cancelled l then l else l <| l_cancelled := true |> <| l_cancelReason := "cancelled by operator" |> in
        (true, cancelThread (l_cancel l) (t <| t_lanes ::= <[env := l']> |>))
  | None => (false, t)
  end.

(** src/internal/deploy/run.go:709-716 [Drain] *)
Definition Drain t : Tracker := t <| t_draining := true |>.

(** src/internal/deploy/run.go:725-738 [Wait] Whether it would return: every lane goroutine has ended. *)
Definition waited t : bool := bool_decide (t_threads t = ∅).

(** src/internal/deploy/snapshot.go:150-158 [Snapshot] *)
Definition published t : option Snapshot := t_snap t.

(** The daemon's own context ends, the hard stop of every run. *)
Definition shutdown t : Tracker := t <| t_threads ::= fmap (fun th => th <| th_cancelled := true |>) |>.
End Tracker.

(** src/internal/deploy/deploy.go:282-311 [New] *)
Definition New (git : GitRemote) (counter : Z) : Tracker := mkTracker ∅ ∅ false None counter ∅ 0 git ∅ [].
