(* ===== verification/DeployLaneSpec.v ===== *)
(** What the deploy tracker guarantees, over every interleaving of the reconcile
    pass, the lane goroutines and the operators. *)
From S2P Require Import Prelude GoString Core Daemon Spec Trial Policy DeployGraph DeployLane.

Open Scope string_scope.
Open Scope list_scope.
Open Scope Z_scope.

(** ** The graph a revision declares *)

Lemma gateNodes_spec p l nodes :
  gateNodes p l = inl nodes ->
  nodes = (fun d => mkNode (dn_Name d) (dn_After d) (dn_Command d) (dn_Executor d)) <$> l.
Proof.
  revert nodes. induction l as [|d l IH]; intros nodes; cbn [gateNodes]; [by intros [= <-]|].
  destruct (_ && _); [done|]. destruct (gateNodes p l) as [ns|]; [|done]. intros [= <-]. by rewrite (IH ns).
Qed.

Lemma validate_deploys ds cs : validate ds cs = None -> validateDeploys cs = None.
Proof. unfold validate. rewrite !orelse_None. naive_solver. Qed.

(** The graph a lane runs is never empty, its nodes have distinct, nonempty names
    and their prerequisites are among them, without a cycle. *)
Lemma deployGraph_spec p x env nodes :
  deployGraph p x env = inl nodes ->
  nodes <> [] /\ NoDup (n_Name <$> nodes) /\ ("" ∉ n_Name <$> nodes) /\ exists depth, graph_acyclic nodes depth.
Proof.
  unfold deployGraph. destruct (x_file x) as [data|]; [|done].
  destruct (x_decode x data) as [cs0|]; [|done]. unfold checkParsed. cbv zeta. set (cs := cs0 <| sp_Services ::= _ |>).
  destruct (validate _ cs) eqn:Ev; [done|]. apply validate_deploys in Ev.
  pose proof (SelectDeployNodes_spec cs (e_Nodes env) Ev) as Hsel.
  destruct (SelectDeployNodes cs (e_Nodes env)) as [sel|]; [|done]. destruct Hsel as [Hsub Hsel].
  destruct (validateDeploys_graph cs Ev) as (Hnd & Hne & depth & Hac).
  intros H. assert (sel <> [] /\ gateNodes p sel = inl nodes) as [Hsn H'] by (by destruct sel). apply gateNodes_spec in H'. clear H.
  assert (n_Name <$> nodes = dn_Name <$> sel) as Hnames by (subst nodes; rewrite <- list_fmap_compose; by apply list_fmap_ext).
  rewrite Hnames. assert (sublist (dn_Name <$> sel) (deployNames cs)) as Hsub' by by apply fmap_sublist.
  split_and!.
  - subst nodes. by destruct sel.
  - by eapply sublist_NoDup.
  - intros Hin. apply Hne. by eapply elem_of_sublist.
  - exists depth. unfold graph_acyclic. rewrite Forall_forall. intros n Hn. rewrite Forall_forall. intros dep Hdep.
    rewrite Hnames. subst nodes. apply list_elem_of_fmap in Hn as (d & -> & Hd). simpl in Hdep. simpl.
    apply Hsel in Hd as [Hd Hwant]. destruct (Hac d dep Hd Hdep) as [Hin Hlt]. split; [|done].
    apply list_elem_of_fmap in Hin as (d' & -> & Hd'). apply list_elem_of_fmap_2, Hsel. split; [done|].
    destruct Hwant as [?|(n & Hn & Hr)]; [by left|right]. exists n. split; [done|]. eapply rtc_r; [exact Hr|].
    by exists d.
Qed.

(** C27. A deployment comes to an end: for the graph any revision declares, once every
    round of messages brings the result of a node that is in flight and there are
    as many rounds as nodes, the run of the graph returns. Unless its context ended,
    its rows name every node in declaration order, numbered from one, and either
    every row is green, or the culprit is named: a node that finished red, before
    which every row is green or belongs to a node that never ran and says what
    blocked it. *)
Theorem deploy_graph_concludes p x env nodes rounds late :
  deployGraph p x env = inl nodes ->
  fairRounds nodes (e_MaxParallel env) rounds freshGraph -> (length nodes <= length rounds)%nat ->
  exists rows culprit err, RunNodes nodes (e_MaxParallel env) rounds late = Some (rows, culprit, err) /\
    ((err = Some ContextDone /\ culprit = "" /\ (late = true \/ Cancelled ∈ concat rounds)) \/
     (err = None /\ r_Name <$> rows = n_Name <$> nodes /\ r_Seq <$> rows = (fun i => Z.of_nat i + 1) <$> seq 0 (length nodes) /\
      ((culprit = "" /\ Forall (fun row => NodeGreen row = true) rows) \/
       exists k row, rows !! k = Some row /\ r_Name row = culprit /\ NodeGreen row = false /\
         forall j row', (j < k)%nat -> rows !! j = Some row' -> NodeGreen row' = true \/ blocked row'))).
Proof.
  intros H Hf Hlen. destruct (deployGraph_spec p x env nodes H) as (_ & Hnd & Hne & depth & Hac). by eapply run_concludes.
Qed.

Definition demoEnv : Environment := mkEnvironment "dev" "main" "" ModeTrack [] 2 "finish".

Definition demoParams : Params :=
  mkParams [demoEnv] true true ".gauntlet.kdl" None false false (fun _ => "T").

Definition demoPolicy : PolicyWorld :=
  mkPolicyWorld (inl ∅) (inl ∅) (fun _ => false) (fun _ _ => inl (mkDecision true [] "v1")).

(** A revision that declares the nodes build, migrate, docs and app. *)
Definition demoExec : ExecWorld :=
  mkExecWorld None None (inl "spec")
    (fun _ => inl (trialSpec <| sp_Deploys := map (fun n => mkDeployNode (n_Name n) (n_Command n) (n_After n) "") demoGraph |>))
    (fun _ => "") demoPolicy None None None.

Lemma demo_graph : deployGraph demoParams demoExec demoEnv = inl demoGraph.
Proof. vm_compute. reflexivity. Qed.

Lemma deploy_graph_concludes_witness :
  exists rows culprit err, RunNodes demoGraph 2 demoRounds false = Some (rows, culprit, err).
Proof.
  destruct (deploy_graph_concludes demoParams demoExec demoEnv demoGraph demoRounds false) as (rows & culprit & err & E & _).
  - exact demo_graph.
  - exact demo_fair.
  - vm_compute. lia.
  - exists rows, culprit, err. exact E.
Defined.

(** ** Interleavings *)

(** The reconcile goroutine between two critical sections: the lane whose
    admission it is asking the policy about, if any; and the tracker. *)
Definition sys : Type := option (Environment * LaneState) * Tracker.

(** What acts: the pass moving a desired ref, admitting, starting; a lane
    goroutine; an operator; the end of the daemon's context; the remote. *)
Inductive label :=
  | LDesired (env : Environment)
  | LAdmit (env : Environment) (ls : LaneState)
  | LStart (env : Environment)
  | LThread (k : nat)
  | LRetry (env : string)
  | LCancel (env : string)
  | LDrain | LShutdown | LRemote.

Section System.
Context (p : Params).
(** What the outside may answer about a revision. *)
Context (outside : string -> ExecWorld -> Prop).
Implicit Types (t : Tracker) (env : Environment) (th : thread) (l : lane) (n : string).

Inductive tstep : label -> sys -> sys -> Prop :=
  | st_desired env x refs observed now t :
      env ∈ p_Environments p -> outside (s_SourceTip (laneRefs env refs observed)) x ->
      tstep (LDesired env) (None, t) (None, snd (advanceDesired (x_policy x) env now (laneRefs env refs observed) t))
  | st_admit env ls t ls' t' :
      env ∈ p_Environments p -> s_Pending ls = false -> stepLaneAdmit p env ls t = (ls', t') ->
      tstep (LAdmit env ls) (None, t) (if s_Pending ls' then Some (env, ls') else None, t')
  | st_start env ls now err t :
      tstep (LStart env) (Some (env, ls), t) (None, snd (stepLaneStart p env now err ls t))
  | st_thread k th x r now pc t :
      t_threads t !! k = Some th -> outside (th_desired th) x -> (Cancelled ∈ r -> th_cancelled th = true) ->
      tstep (LThread k) (pc, t) (pc, threadStep p x r now k th t)
  | st_retry n pc t : tstep (LRetry n) (pc, t) (pc, snd (Retry n t))
  | st_cancel n pc t : tstep (LCancel n) (pc, t) (pc, snd (CancelCurrent n t))
  | st_drain pc t : tstep LDrain (pc, t) (pc, Drain t)
  | st_shutdown pc t : tstep LShutdown (pc, t) (pc, shutdown t)
  | st_remote g pc t : tstep LRemote (pc, t) (pc, t <| t_git := g |>).

Inductive reachable : sys -> Prop :=
  | reach_new git counter : reachable (None, New git counter)
  | reach_step a s s' : reachable s -> tstep a s s' -> reachable s'.

(** *** Views: a goroutine that still holds its lane, a lane without its gauge *)

Definition live th : bool := match th_phase th with Released _ => false | _ => true end.

Definition ident : Type := string * string * string * string.
Definition ident_of th : ident := (e_Name (th_env th), th_runID th, th_desired th, th_observed th).
Definition tview t (k : nat) : option ident :=
  match t_threads t !! k with Some th => if live th then Some (ident_of th) else None | None => None end.

Definition erase l : lane := l <| l_run ::= (fun r => r <| lr_nodes := [] |>) |>.
Definition lview t n : option lane := erase <$> t_lanes t !! n.

Definition run_ident n l : ident := (n, lr_runID (l_run l), lr_sha (l_run l), lr_prev (l_run l)).

(** A lane runs exactly while one goroutine holds it, and is then not parked. *)
Definition lane_inv t n : Prop :=
  (forall k id, tview t k = Some id -> id.1.1.1 = n ->
     exists l, lview t n = Some l /\ l_running l = true /\ l_cancel l = Some k /\ run_ident n l = id) /\
  (forall l, lview t n = Some l ->
     if l_running l then l_parked l = None /\ exists k id, l_cancel l = Some k /\ tview t k = Some id /\ id.1.1.1 = n
     else l_cancel l = None /\
          forall pk, l_parked l = Some pk -> lp_Outcome pk = OutcomeRejected \/ lp_Outcome pk = OutcomeError).

Definition verdict (o : Outcome) : Prop :=
  o = OutcomeLanded \/ o = OutcomeSkipped \/ o = OutcomeRejected \/ o = OutcomeError.

Definition thread_inv th : Prop :=
  th_desired th <> "" /\
  match th_phase th with
  | Ended _ _ o _ => verdict o
  | Scanning nodes g | Waiting nodes g =>
      graph_ok nodes (e_MaxParallel (th_env th)) g /\ settled nodes g /\
      exists x, outside (th_desired th) x /\ deployGraph p x (th_env th) = inl nodes /\
        decideDeployment (x_policy x) (th_env th) "execution" (th_desired th) (th_observed th) nodes = None
  | _ => True
  end.

Record sys_inv (s : sys) : Prop := {
  si_lane : forall n, lane_inv (snd s) n;
  si_spawned : forall k th, t_threads (snd s) !! k = Some th -> (k < t_spawned (snd s))%nat;
  si_thread : forall k th, t_threads (snd s) !! k = Some th -> thread_inv th;
  si_pass : forall env ls, fst s = Some (env, ls) ->
    exists l, lview (snd s) (e_Name env) = Some l /\ l_running l = false;
}.

(** *** Frames *)

(** The invariant of a lane depends on the views only. *)
Lemma lane_inv_frame t t' n :
  lview t' n = lview t n -> (forall k id, id.1.1.1 = n -> tview t' k = Some id <-> tview t k = Some id) ->
  lane_inv t n -> lane_inv t' n.
Proof.
  intros El Et [H1 H2]. unfold lane_inv. rewrite El. split.
  - intros k id Hk Hn. apply Et in Hk; [|done]. by apply H1.
  - intros l Hl. specialize (H2 l Hl). destruct (l_running l); [|done]. destruct H2 as (? & k & id & ? & Hk & Hn).
    split; [done|]. exists k, id. split_and!; [done|by apply Et|done].
Qed.

(** Same views, same counters: the whole invariant carries over. *)
Record same_view t t' : Prop := {
  sv_lane : forall n, lview t' n = lview t n;
  sv_thread : forall k, tview t' k = tview t k;
  sv_bound : forall k th, t_threads t' !! k = Some th -> (k < t_spawned t)%nat;
  sv_spawned : t_spawned t' = t_spawned t;
}.

Lemma same_view_inv pc t t' :
  same_view t t' -> (forall k th, t_threads t' !! k = Some th -> thread_inv th) -> sys_inv (pc, t) -> sys_inv (pc, t').
Proof.
  intros [V1 V2 V3 V4] Ht [H1 H2 _ H4]. split; simpl in *.
  - intros n. apply (lane_inv_frame t); [done| |done]. intros k id _. by rewrite V2.
  - intros k th Hk. rewrite V4. by eapply V3.
  - done.
  - intros env ls Hp. destruct (H4 env ls Hp) as (l & Hl & Hr). exists l. by rewrite V1.
Qed.

Lemma lview_setLane env l t n : lview (setLane env l t) n = if decide (n = e_Name env) then Some (erase l) else lview t n.
Proof.
  unfold lview, setLane. simpl. destruct (decide (n = e_Name env)) as [->|Hn]; [by rewrite lookup_insert_eq|].
  by rewrite lookup_insert_ne.
Qed.

Lemma laneOf_view t env l : lview t (e_Name env) = Some l -> erase (laneOf t env) = l.
Proof. unfold lview, laneOf. destruct (t_lanes t !! e_Name env); [|done]. by intros [= <-]. Qed.

Lemma laneOf_none t env : lview t (e_Name env) = None -> laneOf t env = zeroLane.
Proof. unfold lview, laneOf. by destruct (t_lanes t !! e_Name env). Qed.

Lemma cancelThread_view q t k : tview (cancelThread q t) k = tview t k.
Proof.
  unfold cancelThread, tview. destruct q as [q|]; [|done]. simpl. destruct (decide (q = k)) as [->|Hq]; [|by rewrite lookup_alter_ne].
  rewrite lookup_alter_eq. by destruct (t_threads t !! k).
Qed.

Lemma cancelThread_lane q t n : lview (cancelThread q t) n = lview t n.
Proof. by destruct q. Qed.

(** A step that changes one lane's park, flags or reason. *)
Lemma lane_update t t' n0 l' :
  (forall n, n <> n0 -> lview t' n = lview t n) -> lview t' n0 = Some l' -> (forall k, tview t' k = tview t k) ->
  match lview t n0 with
  | Some l => l_running l' = l_running l /\ l_cancel l' = l_cancel l /\ run_ident n0 l' = run_ident n0 l /\
              (l_parked l' = l_parked l \/ l_parked l' = None)
  | None => l_running l' = false /\ l_cancel l' = None /\ l_parked l' = None
  end -> (forall n, lane_inv t n) -> forall n, lane_inv t' n.
Proof.
  intros Hne Hl' Ht Hrel Hinv n. destruct (decide (n = n0)) as [->|Hn].
  - destruct (Hinv n0) as [H1 H2]. split.
    + intros k id Hk Hid. rewrite Ht in Hk. destruct (H1 k id Hk Hid) as (l & Hl & Hr & Hc & Hi). rewrite Hl in Hrel.
      destruct Hrel as (Er & Ec & Ei & _). exists l'. rewrite Er, Ec, Ei. done.
    + intros ? Hl. rewrite Hl' in Hl. injection Hl as <-. destruct (lview t n0) as [l|].
      * destruct Hrel as (Er & Ec & Ei & Ep). specialize (H2 l eq_refl). rewrite Er. destruct (l_running l).
        -- destruct H2 as (Hp & k & id & Hc & Hk & Hid). split; [destruct Ep as [->| ->]; done|].
           exists k, id. rewrite Ec, Ht. done.
        -- rewrite Ec. destruct H2 as [Hc Hp]. split; [done|]. intros pk Hpk. destruct Ep as [Ep|Ep]; rewrite Ep in Hpk; [by apply Hp|done].
      * destruct Hrel as (-> & -> & ->). done.
  - apply (lane_inv_frame t); [by apply Hne| |apply Hinv]. intros k id _. by rewrite Ht.
Qed.

Lemma advanceDesired_frame pw env now ls t :
  let t' := snd (advanceDesired pw env now ls t) in
  t_lanes t' = t_lanes t /\ t_threads t' = t_threads t /\ t_spawned t' = t_spawned t /\ t_draining t' = t_draining t /\
  t_snap t' = t_snap t.
Proof.
  unfold advanceDesired. destruct (_ && _); [|done]. destruct (decideDeployment _ _ _ _ _ _); [done|].
  destruct (CASUpdate _ _ _ _) as [[e|] g]; done.
Qed.

(** Unparking touches the park only. *)
Lemma unpark_view ls l :
  l_running (unpark ls l) = l_running l /\ l_cancel (unpark ls l) = l_cancel l /\ l_run (unpark ls l) = l_run l /\
  (l_parked (unpark ls l) = l_parked l \/ l_parked (unpark ls l) = None).
Proof. unfold unpark. destruct (l_parked l) eqn:Ep; [|auto]. destruct (String.eqb _ _); simpl; auto. Qed.

(** What admission leaves in the lane, and that it pends only an idle lane. *)
Lemma stepLaneAdmit_spec env ls t ls' t' :
  stepLaneAdmit p env ls t = (ls', t') ->
  exists l', lview t' (e_Name env) = Some l' /\ (forall n, n <> e_Name env -> lview t' n = lview t n) /\
    (forall k, tview t' k = tview t k) /\ t_spawned t' = t_spawned t /\ t_git t' = t_git t /\ t_draining t' = t_draining t /\
    (forall k th', t_threads t' !! k = Some th' -> exists th, t_threads t !! k = Some th /\ th_phase th' = th_phase th /\
       th_env th' = th_env th /\ th_desired th' = th_desired th /\ th_observed th' = th_observed th) /\
    l_running l' = l_running (laneOf t env) /\ l_cancel l' = l_cancel (laneOf t env) /\
    erase (l' <| l_cancelled := false |> <| l_cancelReason := "" |>) =
      erase (unpark ls (laneOf t env) <| l_cancelled := false |> <| l_cancelReason := "" |>) /\
    s_Desired ls' = s_Desired ls /\
    (s_Pending ls' = true -> s_Pending ls = false -> l_running l' = false /\ canStart p t (laneOf t' env) ls = true).
Proof.
  unfold stepLaneAdmit. cbv zeta. destruct (unpark_view ls (laneOf t env)) as (Er & Ec & Eu & Ep).
  set (l := unpark ls (laneOf t env)) in *.
  destruct (l_running l) eqn:Hr; [destruct (_ && _)|]; intros [= <- <-].
  - eexists. split_and!.
    + by rewrite cancelThread_lane, lview_setLane, decide_True.
    + intros n Hn. by rewrite cancelThread_lane, lview_setLane, decide_False.
    + intros k. by rewrite cancelThread_view.
    + by destruct (l_cancel l).
    + by destruct (l_cancel l).
    + by destruct (l_cancel l).
    + intros k th' Hk. unfold cancelThread in Hk. destruct (l_cancel l) as [q|]; [|by exists th'].
      simpl in Hk. apply lookup_alter_Some in Hk as [(<- & th & Hk & ->)|[_ Hk]]; [by exists th|by exists th'].
    + by rewrite <- Er.
    + simpl. by rewrite Ec.
    + done.
    + done.
    + intros H1 H2. congruence.
  - exists (erase l). split_and!; try done.
    + unfold setLane, lview. simpl. by rewrite lookup_insert_eq.
    + intros n Hn. unfold lview. simpl. by rewrite lookup_insert_ne.
    + by intros k th' Hk; exists th'.
    + simpl. congruence.
    + simpl. intros H1 H2. congruence.
  - exists (erase l). split_and!; try done.
    + unfold lview, setLane. simpl. by rewrite lookup_insert_eq.
    + intros n Hn. unfold lview. simpl. by rewrite lookup_insert_ne.
    + by intros k th' Hk; exists th'.
    + simpl. congruence.
    + intros Hp _. split; [done|]. unfold laneOf, setLane. simpl. rewrite lookup_insert_eq. exact Hp.
Qed.

(** What the goroutines leave alone while their graph runs. *)
Record calm t t' : Prop := {
  cm_lane : forall n, lview t' n = lview t n;
  cm_threads : t_threads t' = t_threads t;
  cm_spawned : t_spawned t' = t_spawned t;
  cm_git : t_git t' = t_git t;
  cm_draining : t_draining t' = t_draining t;
}.

Lemma calm_refl t : calm t t.
Proof. by split. Qed.

Lemma calm_then t1 t2 t3 : calm t1 t2 -> calm t2 t3 -> calm t1 t3.
Proof. intros [] []. split; intros; congruence. Qed.

Lemma emit_calm ev t : calm t (emit p ev t).
Proof. unfold emit. by destruct (p_Emit p). Qed.

Lemma unpin_calm e th t : calm t (unpin e th t).
Proof. by destruct e. Qed.

Lemma gauge_calm env l t : erase l = erase (laneOf t env) -> is_Some (lview t (e_Name env)) -> calm t (setLane env l t).
Proof.
  intros E [l0 Hl]. split; try done. intros n. rewrite lview_setLane. destruct (decide _) as [->|]; [|done].
  by rewrite E, (laneOf_view t env l0 Hl).
Qed.

Lemma callbacks_calm now th nodes g g' t :
  is_Some (lview t (e_Name (th_env th))) -> calm t (callbacks p now th nodes g g' t).
Proof.
  unfold callbacks. generalize (drop (length (g_log g)) (g_log g')). intros evs. revert t.
  induction evs as [|ev evs IH]; intros t Hl; cbn [fold_left]; [apply calm_refl|].
  assert (calm t (callback p now th nodes ev t)) as H.
  { destruct ev as [idx|idx res]; cbn [callback].
    - by apply gauge_calm.
    - eapply calm_then; [|apply emit_calm]. by apply gauge_calm. }
  eapply calm_then; [exact H|]. apply IH. by rewrite (cm_lane _ _ H).
Qed.

Lemma execBegin_calm x now th t : calm t (snd (execBegin p x now th t)).
Proof.
  unfold execBegin. destruct (x_pin x); [apply calm_refl|]. cbv zeta. set (t1 := t <| t_pins ::= _ |>).
  assert (calm t t1) as H by by split.
  destruct (deployGraph p x (th_env th)); [|eapply calm_then; [exact H|apply unpin_calm]].
  destruct (decideDeployment _ _ _ _ _ _); [eapply calm_then; [exact H|apply unpin_calm]|].
  destruct (x_mkdir x), (x_export x), (if p_HistoryMtimes p then x_mtimes x else None);
    (eapply calm_then; [exact H|]); first [apply unpin_calm|apply emit_calm].
Qed.

(** Where [execGraph] can be after its first stretch. *)
Lemma execBegin_phase x now th t :
  match fst (execBegin p x now th t) with
  | Scanning nodes g => g = freshGraph /\ deployGraph p x (th_env th) = inl nodes /\
      decideDeployment (x_policy x) (th_env th) "execution" (th_desired th) (th_observed th) nodes = None
  | Ended _ _ o _ => o = OutcomeError \/ o = OutcomeRejected
  | _ => False
  end.
Proof.
  unfold execBegin. destruct (x_pin x); [by left|]. cbv zeta. destruct (deployGraph p x (th_env th)); [|by right].
  destruct (decideDeployment _ _ _ _ _ _) eqn:E; [by right|].
  by destruct (x_mkdir x), (x_export x), (if p_HistoryMtimes p then x_mtimes x else None); [left..|].
Qed.

Lemma setPhase_view k ph t th :
  t_threads t !! k = Some th -> live th = true -> (forall rec, ph <> Released rec) ->
  forall j, tview (setPhase k ph t) j = tview t j.
Proof.
  intros Hk Hl Hp j. unfold tview, setPhase. simpl. destruct (decide (k = j)) as [<-|Hj]; [|by rewrite lookup_alter_ne].
  rewrite lookup_alter_eq, Hk. simpl. rewrite Hl. unfold live. simpl. destruct ph; try done. by destruct (Hp rec).
Qed.

Lemma settled_observe nodes th g : settled nodes g -> settled nodes (observeCtx th g).
Proof.
  intros H Hk n Hn. apply H; [|done]. unfold keep, observeCtx in *. simpl in *. apply andb_true_iff in Hk as [-> Hk].
  by destruct (th_cancelled th), (g_cancelled g).
Qed.

Lemma observe_ok nodes mp th g : graph_ok nodes mp g -> graph_ok nodes mp (observeCtx th g).
Proof. by intros []. Qed.

(** A thread's next stretch keeps its graph sound; a verdict holds nothing. *)
Lemma setPhase_threads k ph t th j th' :
  t_threads t !! k = Some th -> t_threads (setPhase k ph t) !! j = Some th' ->
  (j = k /\ th' = th <| th_phase := ph |>) \/ (j <> k /\ t_threads t !! j = Some th').
Proof.
  intros Hk Hj. unfold setPhase in Hj. simpl in Hj. apply lookup_alter_Some in Hj as [(<- & th0 & E & ->)|[Hn Hj]]; [left|right; auto].
  rewrite Hk in E. by injection E as <-.
Qed.

(** A live thread's lane is its own. *)
Lemma live_lane pc t k th :
  sys_inv (pc, t) -> t_threads t !! k = Some th -> live th = true ->
  exists l, lview t (e_Name (th_env th)) = Some l /\ l_running l = true /\ l_cancel l = Some k.
Proof.
  intros H Hk Hl. destruct (si_lane _ H (e_Name (th_env th))) as [H1 _].
  destruct (H1 k (ident_of th)) as (l & ? & ? & ? & _); [unfold tview; simpl; by rewrite Hk, Hl|done|]. eauto.
Qed.

(** A stretch that ends with the goroutine still holding its lane. *)
Lemma stretch_inv pc t t1 k th ph :
  sys_inv (pc, t) -> t_threads t !! k = Some th -> live th = true -> (forall rec, ph <> Released rec) ->
  (forall n, lview t1 n = lview t n) -> t_threads t1 = t_threads t -> t_spawned t1 = t_spawned t ->
  thread_inv (th <| th_phase := ph |>) -> sys_inv (pc, setPhase k ph t1).
Proof.
  intros H Hk Hl Hp Hv Et Es Hth. rewrite <- Et in Hk. apply (same_view_inv pc t).
  - split.
    + intros n. by rewrite <- Hv.
    + intros j. rewrite (setPhase_view k ph t1 th Hk Hl Hp). unfold tview. by rewrite Et.
    + intros j th' Hj. destruct (setPhase_threads k ph t1 th j th' Hk Hj) as [[-> _]|[_ Hj']].
      * rewrite Et in Hk. by apply (si_spawned _ H k th).
      * rewrite Et in Hj'. by apply (si_spawned _ H j th').
    + done.
  - intros j th' Hj. destruct (setPhase_threads k ph t1 th j th' Hk Hj) as [[-> ->]|[_ Hj']]; [done|].
    rewrite Et in Hj'. by apply (si_thread _ H j th').
  - done.
Qed.

Lemma arrivals_ok nodes mp r g : graph_ok nodes mp g -> graph_ok nodes mp (fold_left (fun g a => arrive nodes a g) r g).
Proof. revert g. induction r as [|a r IH]; intros g H; cbn [fold_left]; [done|]. by apply IH, arrive_ok. Qed.

Lemma publishGraph_frame pw th nodes t :
  let t' := snd (publishGraph pw th nodes t) in
  t_lanes t' = t_lanes t /\ t_threads t' = t_threads t /\ t_spawned t' = t_spawned t /\ t_draining t' = t_draining t.
Proof.
  unfold publishGraph. destruct (decideDeployment _ _ _ _ _ _); [done|]. cbv zeta.
  by destruct (CASUpdate _ _ _ _) as [[[]|] g].
Qed.

Lemma execEnd_frame pw th nodes rows culprit err t :
  let t' := snd (execEnd pw th nodes rows culprit err t) in
  t_lanes t' = t_lanes t /\ t_threads t' = t_threads t /\ t_spawned t' = t_spawned t /\ t_draining t' = t_draining t.
Proof.
  unfold execEnd. destruct err as [e|]; [by destruct (th_cancelled th)|].
  destruct (negb _); [|apply publishGraph_frame]. destruct (rowFor rows culprit) as [row|]; [|done]. by destruct (r_Err row).
Qed.

(** Only the final publication moves a ref. *)
Lemma execEnd_git pw th nodes rows culprit err t :
  let t' := snd (execEnd pw th nodes rows culprit err t) in
  t_git t' = t_git t \/
  (err = None /\ culprit = "" /\
   decideDeployment pw (th_env th) "publication" (th_desired th) (th_observed th) nodes = None /\
   t_git t' = snd (CASUpdate (ObservedRef (e_Name (th_env th))) (th_observed th) (th_desired th) (t_git t))).
Proof.
  unfold execEnd. destruct err as [e|]; [left; by destruct (th_cancelled th)|].
  destruct (String.eqb_spec culprit "") as [->|]; simpl.
  - unfold publishGraph. destruct (decideDeployment _ _ _ _ _ _); [by left|]. right. split_and!; [done|done|done|].
    by destruct (CASUpdate _ _ _ _) as [[[]|] g].
  - left. destruct (rowFor rows culprit) as [row|]; [|done]. by destruct (r_Err row).
Qed.

(** The verdict of a run. *)
Lemma execEnd_outcome pw th nodes rows culprit err t :
  verdict (fst (fst (execEnd pw th nodes rows culprit err t))).
Proof.
  unfold verdict, execEnd. destruct err as [e|]; [destruct (th_cancelled th); auto|]. destruct (negb _).
  - destruct (rowFor rows culprit) as [row|]; [|auto]. destruct (r_Err row); auto.
  - unfold publishGraph. destruct (decideDeployment _ _ _ _ _ _); [auto|]. destruct (CASUpdate _ _ _ _) as [[[]|] g]; auto.
Qed.

(** What releasing does to the lane. *)
Lemma releaseLane_view env rec t :
  verdict (dr_Outcome rec) ->
  exists l, lview (releaseLane p env rec t) (e_Name env) = Some l /\ l_running l = false /\ l_cancel l = None /\
    (forall pk, l_parked l = Some pk -> l_parked (laneOf t env) = Some pk \/ lp_Outcome pk = OutcomeRejected \/ lp_Outcome pk = OutcomeError).
Proof.
  unfold verdict. intros Ho. unfold releaseLane. cbv zeta. rewrite lview_setLane, decide_True by done. eexists. split; [reflexivity|].
  destruct (dr_Outcome rec); simpl; try (destruct Ho as [|[|[|]]]; done).
  - split_and!; try done. simpl. intros pk [= <-]; simpl; auto.
  - split_and!; auto.
  - match goal with |- context [if ?b then _ else _] => destruct b end; split_and!; simpl; try done; intros pk [= <-]; simpl; auto.
Qed.

(** Releasing frees the lane and the goroutine's hold on it together. *)
Lemma release_inv pc t k th rec :
  sys_inv (pc, t) -> t_threads t !! k = Some th -> live th = true ->
  verdict (dr_Outcome rec) ->
  sys_inv (pc, setPhase k (Released rec) (releaseLane p (th_env th) rec t)).
Proof.
  intros H Hk Hl Ho. destruct (live_lane pc t k th H Hk Hl) as (l & Hv & Hr & Hc).
  destruct (releaseLane_view (th_env th) rec t Ho) as (l' & Hv' & Hr' & Hc' & Hp').
  set (t1 := releaseLane p (th_env th) rec t) in *.
  assert (forall n, n <> e_Name (th_env th) -> lview t1 n = lview t n) as Hne
    by (intros n Hn; unfold t1, releaseLane; cbv zeta; by rewrite lview_setLane, decide_False).
  assert (t_threads t1 = t_threads t) as Et by done. assert (t_spawned t1 = t_spawned t) as Es by done. clearbody t1.
  assert (forall j id, tview (setPhase k (Released rec) t1) j = Some id <-> tview t j = Some id /\ j <> k) as Hview.
  { intros j id. unfold tview, setPhase. simpl. rewrite Et. destruct (decide (k = j)) as [<-|Hj].
    - rewrite lookup_alter_eq, Hk. simpl. split; [done|by intros []].
    - rewrite lookup_alter_ne by done. naive_solver. }
  assert (forall j id, tview t j = Some id -> id.1.1.1 = e_Name (th_env th) -> j = k) as Huniq.
  { intros j id Hj Hid. destruct (proj1 (si_lane _ H (e_Name (th_env th))) j id Hj Hid) as (l2 & Hl2 & _ & Hc2 & _).
    simpl in Hl2. congruence. }
  split; simpl.
  - intros n. destruct (decide (n = e_Name (th_env th))) as [->|Hn].
    + split.
      * intros j id [Hj Hjk]%Hview Hid. by apply Huniq in Hj.
      * intros l2 Hl2. change (lview (setPhase k (Released rec) t1)) with (lview t1) in Hl2. rewrite Hv' in Hl2. injection Hl2 as <-.
        rewrite Hr'. split; [done|]. intros pk Hpk. destruct (Hp' pk Hpk) as [Hold|?]; [|done].
        pose proof (proj2 (si_lane _ H (e_Name (th_env th))) l Hv) as H2. rewrite Hr in H2. destruct H2 as [H2 _].
        rewrite <- (laneOf_view t _ _ Hv) in H2. simpl in H2. congruence.
    + apply (lane_inv_frame t); [by apply Hne| |apply (si_lane _ H)]. intros j id Hid. rewrite Hview. split; [by intros []|].
      intros Hj. split; [done|]. intros ->. unfold tview in Hj. simpl in Hj. rewrite Hk, Hl in Hj. injection Hj as <-. by apply Hn.
  - intros j th' Hj. rewrite Es. rewrite <- Et in Hk.
    destruct (setPhase_threads k _ t1 th j th' Hk Hj) as [[-> _]|[_ Hj']]; rewrite Et in *; by eapply (si_spawned _ H).
  - intros j th' Hj. rewrite <- Et in Hk. destruct (setPhase_threads k _ t1 th j th' Hk Hj) as [[-> ->]|[_ Hj']].
    + rewrite Et in Hk. split; [by apply (si_thread _ H k th Hk)|done].
    + rewrite Et in Hj'. by eapply (si_thread _ H).
  - intros env ls Hpc. destruct (si_pass _ H env ls Hpc) as (l2 & Hl2 & Hr2). simpl in Hl2.
    change (lview (setPhase k (Released rec) t1)) with (lview t1).
    destruct (decide (e_Name env = e_Name (th_env th))) as [->|Hn]; [eauto|]. exists l2. by rewrite Hne.
Qed.

Lemma threadStep_inv pc t k th x r now :
  sys_inv (pc, t) -> t_threads t !! k = Some th -> outside (th_desired th) x -> sys_inv (pc, threadStep p x r now k th t).
Proof.
  intros H Hk Hx. destruct (si_thread _ H k th Hk) as [Hdes Hth]. unfold threadStep.
  destruct (th_phase th) as [|nodes g|nodes g|rows culprit o detail|rec] eqn:Eph;
    try assert (live th = true) as Hl by (unfold live; by rewrite Eph).
  - pose proof (execBegin_calm x now th t) as Hc. pose proof (execBegin_phase x now th t) as Hp.
    destruct (execBegin p x now th t) as [ph t1]. simpl in Hc, Hp.
    apply (stretch_inv pc t t1 k th ph); try done; try apply Hc; [by destruct ph|].
    split; [done|]. unfold verdict. simpl. destruct ph; try done; [|naive_solver]. destruct Hp as (-> & Hg & Hd).
    split_and!; [apply freshGraph_ok| |by exists x]. intros _ n _. unfold nodeRed. simpl. by rewrite lookup_empty.
  - destruct Hth as (Hg & Hs & Hn). set (g' := startReadyNodes _ _ _).
    pose proof (callbacks_calm now th nodes g g' t) as Hc.
    apply (stretch_inv pc t _ k th); try done; try apply Hc.
    1-3: destruct (live_lane pc t k th H Hk Hl) as (l & -> & _); by eexists.
    split; [done|]. simpl. split_and!; [|by apply startReady_settled, settled_observe|done].
    eapply gstep_ok; [apply gs_start|]. by apply observe_ok.
  - destruct Hth as (Hg & Hs & x0 & Hx0 & Hd & Hdec). destruct (g_inflight g) eqn:Ei.
    + destruct (concludeGraph nodes (observeCtx th g)) as [[rows culprit] err].
      pose proof (execEnd_frame (x_policy x) th nodes rows culprit err t) as Hf.
      pose proof (execEnd_outcome (x_policy x) th nodes rows culprit err t) as Ho. cbv zeta in *.
      destruct (execEnd (x_policy x) th nodes rows culprit err t) as [[o detail] t1]. simpl in *. destruct Hf as (F1 & F2 & F3 & F4).
      pose proof (unpin_calm (x_unpin x) th t1) as Hc.
      apply (stretch_inv pc t _ k th); try done.
      * intros n. rewrite (cm_lane _ _ Hc). unfold lview. by rewrite F1.
      * by rewrite (cm_threads _ _ Hc).
      * by rewrite (cm_spawned _ _ Hc).
    + set (g' := fold_left _ r g). pose proof (callbacks_calm now th nodes g g' t) as Hc.
      apply (stretch_inv pc t _ k th); try done; try apply Hc.
      1-3: destruct (live_lane pc t k th H Hk Hl) as (l1 & -> & _); by eexists.
      split; [done|]. simpl. destruct (deployGraph_spec _ _ _ _ Hd) as (_ & _ & Hne & _).
      split_and!; [|by apply cull_settled|by exists x0]. apply cull_ok. by apply arrivals_ok.
  - apply release_inv; try done.
  - destruct H as [H1 H2 H3 H4].
    assert (tview t k = None) as Hd by (unfold tview; rewrite Hk; unfold live; by rewrite Eph).
    assert (forall ev t1, lview (emit p ev t1) = lview t1 /\ t_threads (emit p ev t1) = t_threads t1 /\ t_spawned (emit p ev t1) = t_spawned t1) as He
      by (intros ev t1; unfold emit; by destruct (p_Emit p)).
    destruct (He (terminalEvent th rec) (t <| t_threads ::= delete k |>)) as (E1 & E2 & E3).
    apply (same_view_inv pc t); [split| |by split].
    + intros n. by rewrite E1.
    + intros j. unfold tview. rewrite E2. simpl. destruct (decide (k = j)) as [<-|Hj].
      * rewrite lookup_delete_eq. symmetry. exact Hd.
      * by rewrite lookup_delete_ne.
    + intros j th' Hj. rewrite E2 in Hj. simpl in Hj. apply lookup_delete_Some in Hj as [_ Hj]. by eapply H2.
    + done.
    + intros j th' Hj. rewrite E2 in Hj. simpl in Hj. apply lookup_delete_Some in Hj as [_ Hj]. by eapply H3.
Qed.

Lemma drop_pass pc t : sys_inv (pc, t) -> sys_inv (None, t).
Proof. intros [H1 H2 H3 _]. by split. Qed.

(** The run a start leaves behind. *)
Lemma startLane_spec env now ls t :
  let k := t_spawned t in let t' := startLane p env now ls t in
  exists runID l', lview t' (e_Name env) = Some l' /\
    l_running l' = true /\ l_cancel l' = Some k /\ run_ident (e_Name env) l' = (e_Name env, runID, s_Desired ls, s_Observed ls) /\
    l_parked l' = l_parked (laneOf t env) /\ (forall n, n <> e_Name env -> lview t' n = lview t n) /\
    t_threads t' = <[k := mkThread env runID (s_Desired ls) (s_Observed ls) now false Starting]> (t_threads t) /\
    t_spawned t' = S k /\ t_git t' = t_git t /\ t_draining t' = t_draining t.
Proof.
  cbv zeta. unfold startLane. destruct (newDeployRunID p now (e_Name env) (s_Desired ls) t) as [runID t1] eqn:E.
  assert (t_lanes t1 = t_lanes t /\ t_threads t1 = t_threads t /\ t_spawned t1 = t_spawned t /\ t_git t1 = t_git t /\ t_draining t1 = t_draining t)
    as (E1 & E2 & E3 & E4 & E5) by (unfold newDeployRunID in E; by injection E as _ <-).
  cbv zeta. exists runID. eexists. split; [unfold lview, setLane; simpl; by rewrite lookup_insert_eq|]. rewrite E3. simpl.
  split_and!; try done.
  - unfold laneOf. by rewrite E1.
  - intros n Hn. unfold lview, setLane. simpl. by rewrite E1, lookup_insert_ne.
  - by rewrite E2.
Qed.

Lemma canStart_true t l ls :
  canStart p t l ls = true ->
  l_parked l = None /\ s_Desired ls <> "" /\ s_Desired ls <> s_Observed ls /\ l_syncedSHA l <> s_Desired ls /\ t_draining t = false.
Proof.
  unfold canStart. intros E. destruct (negb (p_Exec p) || t_draining t) eqn:E1; [done|]. apply orb_false_elim in E1 as [_ E1].
  destruct (String.eqb_spec (s_Desired ls) ""); [done|]. destruct (String.eqb_spec (s_Desired ls) (s_Observed ls)); [done|].
  destruct (String.eqb_spec (l_syncedSHA l) (s_Desired ls)); [done|]. by destruct (l_parked l).
Qed.

Lemma stepLaneStart_inv env ls now err t :
  sys_inv (Some (env, ls), t) -> sys_inv (None, snd (stepLaneStart p env now err ls t)).
Proof.
  intros H. unfold stepLaneStart. cbv zeta. cbn [snd]. destruct (match err with Some _ => false | None => _ end) eqn:Ep;
    [|by eapply drop_pass]. destruct err; [done|]. set (ls1 := ls <| s_Pending := true |>).
  destruct (si_pass _ H env ls eq_refl) as (l & Hv & Hr). simpl in Hv.
  destruct (canStart_true t _ ls Ep) as (Hp & Hdes & _).
  destruct (startLane_spec env now ls1 t) as (runID & l' & Hv' & Hr' & Hc' & Hi' & Hp' & Hne & Et & Es & _). cbv zeta in *.
  set (t' := startLane p env now ls1 t) in *. clearbody t'. set (k := t_spawned t) in *.
  assert (t_threads t !! k = None) as Hfresh.
  { destruct (t_threads t !! k) as [th|] eqn:E; [|done]. pose proof (si_spawned _ H k th E) as Hlt. simpl in Hlt. lia. }
  assert (forall j, tview t' j = if decide (j = k) then Some (e_Name env, runID, s_Desired ls1, s_Observed ls1) else tview t j) as Ht.
  { intros j. unfold tview. rewrite Et. destruct (decide (j = k)) as [->|Hj]; [by rewrite lookup_insert_eq|by rewrite lookup_insert_ne]. }
  assert (forall j id, tview t j = Some id -> id.1.1.1 <> e_Name env) as Hno.
  { intros j id Hj Hid. destruct (proj1 (si_lane _ H (e_Name env)) j id Hj Hid) as (l2 & Hl2 & Hr2 & _). simpl in Hl2. congruence. }
  split; simpl; [| | |done].
  - intros n. destruct (decide (n = e_Name env)) as [->|Hn].
    + split.
      * intros j id Hj Hid. rewrite Ht in Hj. destruct (decide (j = k)) as [->|]; [|by destruct (Hno j id)].
        injection Hj as <-. exists l'. done.
      * intros l2 Hl2. rewrite Hv' in Hl2. injection Hl2 as <-. rewrite Hr', Hp'. split; [done|].
        eexists k, _. split_and!; [done|by rewrite Ht, decide_True|done].
    + apply (lane_inv_frame t); [by apply Hne| |apply (si_lane _ H)]. intros j id Hid. rewrite Ht.
      destruct (decide (j = k)) as [->|]; [|done]. split; [intros [= <-]; simpl in Hid; congruence|].
      unfold tview. by rewrite Hfresh.
  - intros j th Hj. rewrite Es. rewrite Et in Hj. apply lookup_insert_Some in Hj as [[<- _]|[_ Hj]]; [lia|].
    pose proof (si_spawned _ H j th Hj) as Hlt. simpl in Hlt. lia.
  - intros j th Hj. rewrite Et in Hj. apply lookup_insert_Some in Hj as [[<- <-]|[_ Hj]]; [by split|]. by apply (si_thread _ H j th).
Qed.

Lemma thread_inv_cancelled th b : thread_inv th -> thread_inv (th <| th_cancelled := b |>).
Proof. by unfold thread_inv; simpl. Qed.

(** Steps that end contexts leave the goroutines where they are. *)
Lemma cancelled_threads t t' :
  (forall k th', t_threads t' !! k = Some th' -> exists th, t_threads t !! k = Some th /\ th_phase th' = th_phase th /\
     th_env th' = th_env th /\ th_desired th' = th_desired th /\ th_observed th' = th_observed th) ->
  (forall k th, t_threads t !! k = Some th -> thread_inv th) -> forall k th', t_threads t' !! k = Some th' -> thread_inv th'.
Proof.
  intros Hs Hi k th' Hk. destruct (Hs k th' Hk) as (th & Hth & E1 & E2 & E3 & E4). specialize (Hi k th Hth).
  unfold thread_inv in *. by rewrite E1, E2, E3, E4.
Qed.

(** An update of one lane that is no start, with the goroutines left alone. *)
Lemma update_inv pc t t' n0 l' :
  sys_inv (pc, t) -> (forall n, n <> n0 -> lview t' n = lview t n) -> lview t' n0 = Some l' ->
  (forall k, tview t' k = tview t k) -> t_spawned t' = t_spawned t ->
  (forall k th', t_threads t' !! k = Some th' -> exists th, t_threads t !! k = Some th /\ th_phase th' = th_phase th /\
     th_env th' = th_env th /\ th_desired th' = th_desired th /\ th_observed th' = th_observed th) ->
  match lview t n0 with
  | Some l => l_running l' = l_running l /\ l_cancel l' = l_cancel l /\ run_ident n0 l' = run_ident n0 l /\
              (l_parked l' = l_parked l \/ l_parked l' = None)
  | None => l_running l' = false /\ l_cancel l' = None /\ l_parked l' = None
  end -> sys_inv (pc, t').
Proof.
  intros H Hne Hl' Hv Hs Ht Hrel. split; simpl.
  - apply (lane_update t t' n0 l'); try done. apply (si_lane _ H).
  - intros k th Hk. rewrite Hs. destruct (Ht k th Hk) as (th0 & Hk0 & _). by apply (si_spawned _ H k th0).
  - apply (cancelled_threads t t' Ht). apply (si_thread _ H).
  - intros env ls Hp. destruct (si_pass _ H env ls Hp) as (l & Hl & Hr). simpl in Hl.
    destruct (decide (e_Name env = n0)) as [<-|Hn]; [|exists l; by rewrite Hne]. rewrite Hl in Hrel.
    exists l'. split; [done|]. destruct Hrel as (-> & _). done.
Qed.

Lemma admit_inv env ls t ls' t' :
  sys_inv (None, t) -> s_Pending ls = false -> stepLaneAdmit p env ls t = (ls', t') ->
  sys_inv (if s_Pending ls' then Some (env, ls') else None, t').
Proof.
  intros H Hp E. destruct (stepLaneAdmit_spec env ls t ls' t' E) as (l' & Hl' & Hne & Hv & Hs & _ & _ & Ht & Er & Ec & Ee & _ & Hpend).
  destruct (unpark_view ls (laneOf t env)) as (_ & _ & Eu & Epk).
  assert (sys_inv (None, t')) as H'.
  { eapply (update_inv None t t' (e_Name env) l'); try done.
    assert (run_ident (e_Name env) l' = run_ident (e_Name env) (laneOf t env)) as Ei.
    { pose proof (f_equal (run_ident (e_Name env)) Ee) as Ei. unfold run_ident, erase in *. simpl in Ei. by rewrite Ei, Eu. }
    assert (l_parked l' = l_parked (laneOf t env) \/ l_parked l' = None) as Epk'.
    { pose proof (f_equal l_parked Ee) as Epk'. simpl in Epk'. rewrite Epk'. done. }
    destruct (lview t (e_Name env)) as [l|] eqn:El.
    - rewrite <- (laneOf_view t env l El). split_and!; done.
    - rewrite (laneOf_none t env El) in *. split_and!; [done|done|by destruct Epk']. }
  destruct (s_Pending ls') eqn:Ep; [|done]. destruct H' as [G1 G2 G3 G4]. split; try done. simpl.
  intros env0 ls0 [= <- <-]. exists l'. split; [done|]. by apply Hpend.
Qed.

Lemma retry_inv pc n t : sys_inv (pc, t) -> sys_inv (pc, snd (Retry n t)).
Proof.
  intros H. unfold Retry. destruct (t_lanes t !! n) as [l|] eqn:El; [|done]. destruct (l_parked l) eqn:Ep; [|done].
  apply (update_inv pc t _ n (erase (l <| l_parked := None |>))); try done.
  - intros n' Hn. unfold lview. simpl. by rewrite lookup_insert_ne.
  - unfold lview. simpl. by rewrite lookup_insert_eq.
  - by intros k th' Hk; exists th'.
  - unfold lview. rewrite El. simpl. auto.
Qed.

Lemma cancelThread_threads q t k th' :
  t_threads (cancelThread q t) !! k = Some th' -> exists th, t_threads t !! k = Some th /\ th_phase th' = th_phase th /\
    th_env th' = th_env th /\ th_desired th' = th_desired th /\ th_observed th' = th_observed th.
Proof.
  intros Hk. destruct q as [q|]; [|by exists th']. simpl in Hk.
  apply lookup_alter_Some in Hk as [(<- & th & Hk & ->)|[_ Hk]]; [by exists th|by exists th'].
Qed.

Lemma cancel_inv pc n t : sys_inv (pc, t) -> sys_inv (pc, snd (CancelCurrent n t)).
Proof.
  intros H. unfold CancelCurrent. destruct (t_lanes t !! n) as [l|] eqn:El; [|done]. destruct (_ || _); [done|]. cbn [snd].
  set (l' := if l_cancelled l then l else _).
  assert (erase (l' <| l_cancelled := false |> <| l_cancelReason := "" |>) = erase (l <| l_cancelled := false |> <| l_cancelReason := "" |>) /\
    l_running l' = l_running l /\ l_cancel l' = l_cancel l /\ l_parked l' = l_parked l /\ l_run l' = l_run l) as (_ & E1 & E2 & E3 & E4)
    by (unfold l'; by destruct (l_cancelled l)).
  apply (update_inv pc t _ n (erase l')); try done.
  - intros n' Hn. rewrite cancelThread_lane. unfold lview. simpl. by rewrite lookup_insert_ne.
  - rewrite cancelThread_lane. unfold lview. simpl. by rewrite lookup_insert_eq.
  - intros k. by rewrite cancelThread_view.
  - by destruct (l_cancel l).
  - intros k th' Hk. by apply cancelThread_threads in Hk.
  - unfold lview. rewrite El. simpl. unfold run_ident, erase. simpl. rewrite E1, E2, E3, E4. auto.
Qed.

Lemma shutdown_inv pc t : sys_inv (pc, t) -> sys_inv (pc, shutdown t).
Proof.
  intros H. apply (same_view_inv pc t); [split| |done]; try done.
  - intros k. unfold tview, shutdown. simpl. rewrite lookup_fmap. by destruct (t_threads t !! k).
  - intros k th Hk. unfold shutdown in Hk. simpl in Hk. rewrite lookup_fmap in Hk.
    destruct (t_threads t !! k) as [th0|] eqn:E; [|done]. by apply (si_spawned _ H k th0).
  - intros k th Hk. unfold shutdown in Hk. simpl in Hk. rewrite lookup_fmap in Hk.
    destruct (t_threads t !! k) as [th0|] eqn:E; [|done]. injection Hk as <-. apply thread_inv_cancelled. by apply (si_thread _ H k th0).
Qed.

Lemma tstep_inv a s s' : sys_inv s -> tstep a s s' -> sys_inv s'.
Proof.
  intros H Hst. destruct Hst as [env x refs observed now t|env ls t ls' t' _ Hp E|env ls now err t|k th x r now pc t Hk Hx _|n pc t|n pc t|pc t|pc t|g pc t].
  - destruct (advanceDesired_frame (x_policy x) env now (laneRefs env refs observed) t) as (E1 & E2 & E3 & _). cbv zeta in *.
    set (t' := snd (advanceDesired _ _ _ _ _)) in *. apply (same_view_inv None t); [split| |done]; try done.
    + intros n. unfold lview. by rewrite E1.
    + intros k. unfold tview. by rewrite E2.
    + intros k th Hk. rewrite E2 in Hk. by apply (si_spawned _ H k th).
    + intros k th Hk. rewrite E2 in Hk. by apply (si_thread _ H k th).
  - by eapply admit_inv.
  - by apply stepLaneStart_inv.
  - by eapply threadStep_inv.
  - by apply retry_inv.
  - by apply cancel_inv.
  - by destruct H.
  - by apply shutdown_inv.
  - by destruct H.
Qed.

Lemma reach_inv s : reachable s -> sys_inv s.
Proof.
  induction 1 as [git counter|a s s' _ IH Hs]; [|by eapply tstep_inv]. split; simpl.
  - intros n. split; [intros k id Hk; unfold tview in Hk; simpl in Hk; by rewrite lookup_empty in Hk|].
    intros l Hl. unfold lview in Hl. simpl in Hl. by rewrite lookup_empty in Hl.
  - intros k th Hk. by rewrite lookup_empty in Hk.
  - intros k th Hk. by rewrite lookup_empty in Hk.
  - done.
Qed.

(** *** Refs *)

(** What a push did to a ref, if anything. *)
Lemma CASUpdate_moves ref old new g r :
  new <> "" -> gr_refs (snd (CASUpdate ref old new g)) !! r <> gr_refs g !! r ->
  r = ref /\ casApplies ref old (gr_refs g) = true /\ gr_refs (snd (CASUpdate ref old new g)) !! r = Some new.
Proof.
  intros Hnew Hr. pose proof (CASUpdate_spec ref old new g) as H. destruct (CASUpdate ref old new g) as [err g'].
  cbn [snd] in *. destruct H as [[E|[Ha E]] _]; rewrite E in Hr; [done|]. rewrite E. unfold casWrite in *.
  destruct (String.eqb_spec new ""); [done|]. destruct (decide (r = ref)) as [->|Hn].
  - by rewrite lookup_insert_eq.
  - by rewrite lookup_insert_ne in Hr.
Qed.

Lemma advanceDesired_moves pw env now ls t r :
  gr_refs (t_git (snd (advanceDesired pw env now ls t))) !! r <> gr_refs (t_git t) !! r ->
  e_Mode env = ModeTrack /\ s_SourceTip ls <> "" /\ r = DesiredRef (e_Name env) /\
  casApplies r (s_Desired ls) (gr_refs (t_git t)) = true /\
  decideDeployment pw env "promotion" (s_SourceTip ls) (s_Observed ls) [] = None /\
  gr_refs (t_git (snd (advanceDesired pw env now ls t))) !! r = Some (s_SourceTip ls).
Proof.
  unfold advanceDesired. destruct (String.eqb_spec (e_Mode env) ModeTrack) as [Hm|]; [|done].
  destruct (String.eqb_spec (s_SourceTip ls) "") as [|Ht]; [done|]. cbn [andb negb]. destruct (negb _); [|done].
  destruct (decideDeployment _ _ _ _ _ _); [done|]. cbv zeta.
  pose proof (CASUpdate_moves (DesiredRef (e_Name env)) (s_Desired ls) (s_SourceTip ls) (t_git t) r Ht) as H.
  intros Hr. destruct (CASUpdate _ _ _ _) as [err g]. cbn [snd] in H.
  destruct err; simpl in Hr |- *; destruct (H Hr) as (E1 & E2 & E3); rewrite E1 in *; split_and!; done.
Qed.

Lemma threadStep_git x r now k th t :
  (exists l, lview t (e_Name (th_env th)) = Some l) \/ live th = false ->
  t_git (threadStep p x r now k th t) = t_git t \/
  exists nodes g rows, th_phase th = Waiting nodes g /\ g_inflight g = [] /\
    concludeGraph nodes (observeCtx th g) = (rows, "", None) /\
    decideDeployment (x_policy x) (th_env th) "publication" (th_desired th) (th_observed th) nodes = None /\
    t_git (threadStep p x r now k th t) =
      snd (CASUpdate (ObservedRef (e_Name (th_env th))) (th_observed th) (th_desired th) (t_git t)).
Proof.
  intros Hl. unfold threadStep. destruct (th_phase th) as [|nodes g|nodes g|rows culprit o detail|rec] eqn:Eph;
    try (destruct Hl as [[l Hl]|Hl]; [|unfold live in Hl; by rewrite Eph in Hl]).
  - left. pose proof (cm_git _ _ (execBegin_calm x now th t)) as Hc. by destruct (execBegin p x now th t).
  - left. simpl. apply cm_git. apply callbacks_calm. by exists l.
  - destruct (g_inflight g) eqn:Ei; [|left; simpl; apply cm_git, callbacks_calm; by exists l].
    destruct (concludeGraph nodes (observeCtx th g)) as [[rows culprit] err] eqn:Ec.
    pose proof (execEnd_git (x_policy x) th nodes rows culprit err t) as Hg. cbv zeta in Hg.
    destruct (execEnd (x_policy x) th nodes rows culprit err t) as [[o detail] t1]. cbn [snd] in Hg. simpl.
    rewrite (cm_git _ _ (unpin_calm (x_unpin x) th t1)). destruct Hg as [Hg|(-> & -> & Hd & Hg)]; [by left|right].
    exists nodes, g, rows. done.
  - by left.
  - left. unfold emit. by destruct (p_Emit p).
Qed.


(** *** Lanes *)

(** The goroutine [k] has not released the lane [n]. *)
Definition holds t n (k : nat) : Prop :=
  exists th, t_threads t !! k = Some th /\ live th = true /\ e_Name (th_env th) = n.

Lemma holds_view t n k : holds t n k <-> exists id, tview t k = Some id /\ id.1.1.1 = n.
Proof.
  unfold holds, tview. split.
  - intros (th & -> & -> & <-). by exists (ident_of th).
  - intros (id & H & <-). destruct (t_threads t !! k) as [th|]; [|done]. destruct (live th) eqn:El; [|done].
    injection H as <-. by exists th.
Qed.

(** The goroutines a step leaves: those there were, or fewer. *)
Lemma threadStep_threads x r now k th t :
  (exists l, lview t (e_Name (th_env th)) = Some l) \/ live th = false ->
  let t' := threadStep p x r now k th t in
  t_spawned t' = t_spawned t /\ t_draining t' = t_draining t /\ dom (t_threads t') ⊆ dom (t_threads t).
Proof.
  intros Hl. cbv zeta.
  assert (forall ph t1, t_threads t1 = t_threads t -> dom (t_threads (setPhase k ph t1)) ⊆ dom (t_threads t)) as Hd
    by (intros ph t1 E; unfold setPhase; simpl; rewrite E; by rewrite dom_alter_L).
  unfold threadStep. destruct (th_phase th) as [|nodes g|nodes g|rows culprit o detail|rec] eqn:Eph;
    try (destruct Hl as [[l Hl]|Hl]; [|unfold live in Hl; by rewrite Eph in Hl]).
  - pose proof (execBegin_calm x now th t) as Hc. destruct (execBegin p x now th t) as [ph t1]. simpl in Hc.
    split_and!; [apply Hc|apply Hc|apply Hd, Hc].
  - set (g' := startReadyNodes _ _ _). assert (calm t (callbacks p now th nodes g g' t)) as Hc by (apply callbacks_calm; by exists l).
    split_and!; [apply Hc|apply Hc|apply Hd, Hc].
  - destruct (g_inflight g).
    + destruct (concludeGraph nodes (observeCtx th g)) as [[rows culprit] err].
      pose proof (execEnd_frame (x_policy x) th nodes rows culprit err t) as Hf. cbv zeta in Hf.
      destruct (execEnd (x_policy x) th nodes rows culprit err t) as [[o detail] t1]. cbn [snd] in Hf. destruct Hf as (_ & F2 & F3 & F4).
      pose proof (unpin_calm (x_unpin x) th t1) as Hc.
      split_and!; [by rewrite <- F3; apply Hc|by rewrite <- F4; apply Hc|apply Hd; by rewrite <- F2; apply Hc].
    + set (g' := fold_left _ r g). assert (calm t (callbacks p now th nodes g g' t)) as Hc by (apply callbacks_calm; by exists l).
      split_and!; [apply Hc|apply Hc|apply Hd, Hc].
  - split_and!; [done|done|]. by apply Hd.
  - unfold emit. destruct (p_Emit p); simpl; rewrite dom_delete_L; (split_and!; [done|done|set_solver]).
Qed.

Lemma cancelThread_dom q t : dom (t_threads (cancelThread q t)) = dom (t_threads t).
Proof. destruct q; [|done]. simpl. by rewrite dom_alter_L. Qed.

Lemma drained_step pc t a s' :
  sys_inv (pc, t) -> tstep a (pc, t) s' -> t_draining t = true ->
  t_draining (snd s') = true /\ t_spawned (snd s') = t_spawned t /\ dom (t_threads (snd s')) ⊆ dom (t_threads t).
Proof.
  intros H Hst Hd. inversion Hst; subst; cbn [snd]; try done.
  - destruct (advanceDesired_frame (x_policy x) env now (laneRefs env refs observed) t) as (_ & -> & -> & -> & _). done.
  - match goal with E : stepLaneAdmit _ _ _ _ = _ |- _ => revert E end. unfold stepLaneAdmit. cbv zeta.
    destruct (l_running _); [destruct (_ && _)|]; intros [= <- <-]; try done. rewrite cancelThread_dom. by destruct (l_cancel _).
  - unfold stepLaneStart. cbv zeta. cbn [snd]. destruct (match err with Some _ => false | None => _ end) eqn:E; [|done].
    destruct err; [done|]. apply canStart_true in E as (_ & _ & _ & _ & E). congruence.
  - match goal with E : t_threads t !! k = Some th |- _ => rename E into Hk end.
    destruct (threadStep_threads x r now k th t) as (-> & -> & ?); [|done].
    destruct (live th) eqn:El; [left|by right]. destruct (live_lane _ t k th H Hk El) as (l & ? & _). by exists l.
  - unfold Retry. destruct (t_lanes t !! n) as [l|]; [|done]. by destruct (l_parked l).
  - unfold CancelCurrent. destruct (t_lanes t !! n) as [l|]; [|done]. destruct (_ || _); [done|]. cbn [snd].
    rewrite cancelThread_dom. by destruct (l_cancel l).
  - unfold shutdown. simpl. by rewrite dom_fmap_L.
Qed.

(** C11. Lanes are serial. In every reachable state an environment's lane is
    marked running exactly while one goroutine works for it - never two - and
    its cancel function is that goroutine's; a running lane is not parked; no graph
    run has more nodes in flight than its environment allows. Once [Drain] has
    returned, no step starts another run: the goroutines [Wait] waits for only
    become fewer. *)
Theorem deploy_lane_serial pc t :
  reachable (pc, t) ->
  (forall n l, t_lanes t !! n = Some l ->
     (l_running l = true <-> exists k, holds t n k) /\
     (forall k, holds t n k -> l_cancel l = Some k) /\ (l_running l = true -> l_parked l = None)) /\
  (forall n k k', holds t n k -> holds t n k' -> k = k') /\
  (forall k th nodes g, t_threads t !! k = Some th -> (th_phase th = Scanning nodes g \/ th_phase th = Waiting nodes g) ->
     Z.of_nat (length (g_inflight g)) <= Z.max (e_MaxParallel (th_env th)) 1) /\
  (forall a pc' t', t_draining t = true -> tstep a (pc, t) (pc', t') ->
     t_draining t' = true /\ t_spawned t' = t_spawned t /\ dom (t_threads t') ⊆ dom (t_threads t)).
Proof.
  intros Hr. apply reach_inv in Hr as H. split_and!.
  - intros n l Hl. assert (lview t n = Some (erase l)) as Hv by (unfold lview; by rewrite Hl).
    destruct (si_lane _ H n) as [H1 H2]. specialize (H2 _ Hv). cbn [snd] in *.
    assert (forall k, holds t n k -> l_running l = true /\ l_cancel l = Some k) as Hh.
    { intros k (id & Hk & Hid)%holds_view. destruct (H1 k id Hk Hid) as (l2 & E & Er & Ec & _). rewrite Hv in E. injection E as <-. done. }
    split_and!; [split| |].
    + intros Er. change (l_running (erase l)) with (l_running l) in H2. rewrite Er in H2.
      destruct H2 as (_ & k & id & _ & Hk & Hid). exists k. apply holds_view. by exists id.
    + intros [k Hk]. by apply (Hh k).
    + intros k Hk. by apply Hh.
    + intros Er. change (l_running (erase l)) with (l_running l) in H2. rewrite Er in H2. by destruct H2.
  - intros n k k' (id & Hk & Hid)%holds_view (id' & Hk' & Hid')%holds_view.
    destruct (si_lane _ H n) as [H1 _]. destruct (H1 k id Hk Hid) as (l & E & _ & Ec & _).
    destruct (H1 k' id' Hk' Hid') as (l' & E' & _ & Ec' & _). congruence.
  - intros k th nodes g Hk Hp. destruct (si_thread _ H k th Hk) as [_ Hth].
    destruct Hp as [Hp|Hp]; rewrite Hp in Hth; destruct Hth as [Hg _]; by apply (go_cap _ _ _ Hg).
  - intros a pc' t' Hd Hst. by apply (drained_step pc t a (pc', t')).
Qed.

Lemma lview_idle t n l : lview t n = Some (erase l) -> exists l', t_lanes t !! n = Some l' /\ l_parked l' = l_parked l /\ l_running l' = l_running l.
Proof.
  unfold lview. destruct (t_lanes t !! n) as [l'|]; [|done]. intros [=]. by exists l'.
Qed.

(** Goroutines of other lanes leave this one alone. *)
Lemma threadStep_other x r now k th t n :
  (exists l, lview t (e_Name (th_env th)) = Some l) \/ live th = false ->
  e_Name (th_env th) <> n \/ live th = false -> lview (threadStep p x r now k th t) n = lview t n.
Proof.
  intros Hl Hn. unfold threadStep. destruct (th_phase th) as [|nodes g|nodes g|rows culprit o detail|rec] eqn:Eph;
    try (destruct Hl as [[l Hl]|Hl]; [|unfold live in Hl; by rewrite Eph in Hl]);
    try (destruct Hn as [Hn|Hn]; [|unfold live in Hn; by rewrite Eph in Hn]).
  - pose proof (execBegin_calm x now th t) as Hc. destruct (execBegin p x now th t) as [ph t1]. apply (cm_lane _ _ Hc).
  - set (g' := startReadyNodes _ _ _). apply (cm_lane t (callbacks p now th nodes g g' t)), callbacks_calm. by exists l.
  - destruct (g_inflight g).
    + destruct (concludeGraph nodes (observeCtx th g)) as [[rows culprit] err].
      pose proof (execEnd_frame (x_policy x) th nodes rows culprit err t) as Hf. cbv zeta in Hf.
      destruct (execEnd (x_policy x) th nodes rows culprit err t) as [[o detail] t1]. cbn [snd] in Hf. destruct Hf as (F1 & _).
      change (lview (unpin (x_unpin x) th t1) n = lview t n). rewrite (cm_lane _ _ (unpin_calm (x_unpin x) th t1)).
      unfold lview. by rewrite F1.
    + set (g' := fold_left _ r g). apply (cm_lane t (callbacks p now th nodes g g' t)), callbacks_calm. by exists l.
  - change (lview (releaseLane p (th_env th) (deployRecord now th rows culprit o detail) t) n = lview t n).
    unfold releaseLane. cbv zeta. rewrite lview_setLane. by rewrite decide_False.
  - unfold emit. by destruct (p_Emit p).
Qed.

(** A parked lane stays parked through every step but two. *)
Lemma parked_stays pc t n l pk a s' :
  sys_inv (pc, t) -> t_lanes t !! n = Some l -> l_parked l = Some pk -> tstep a (pc, t) s' ->
  (exists l', t_lanes (snd s') !! n = Some l' /\ l_parked l' = Some pk /\ l_running l' = false) \/
  a = LRetry n \/ (exists env ls, a = LAdmit env ls /\ e_Name env = n /\ s_Desired ls <> lp_SHA pk).
Proof.
  intros H Hl Hp Hst. assert (lview t n = Some (erase l)) as Hv by (unfold lview; by rewrite Hl).
  destruct (si_lane _ H n) as [H1 H2]. specialize (H2 _ Hv). cbn [snd] in *.
  assert (l_running l = false) as Hr.
  { destruct (l_running l) eqn:E; [|done]. change (l_running (erase l)) with (l_running l) in H2. rewrite E in H2.
    destruct H2 as [H2 _]. change (l_parked (erase l)) with (l_parked l) in H2. congruence. }
  assert (forall t', lview t' n = lview t n -> exists l', t_lanes t' !! n = Some l' /\ l_parked l' = Some pk /\ l_running l' = false) as Hkeep.
  { intros t' E. rewrite Hv in E. destruct (lview_idle t' n l E) as (l' & ? & ? & ?). exists l'. split_and!; congruence. }
  inversion Hst; subst; cbn [snd]; try (left; by apply Hkeep).
  - left. apply Hkeep. unfold lview. by destruct (advanceDesired_frame (x_policy x) env now (laneRefs env refs observed) t) as (-> & _).
  - destruct (decide (e_Name env = n)) as [<-|Hn].
    + destruct (decide (s_Desired ls = lp_SHA pk)) as [Ed|Ed]; [left|right; right; by exists env, ls].
      match goal with E : stepLaneAdmit _ _ _ _ = _ |- _ => revert E end. unfold stepLaneAdmit. cbv zeta.
      assert (laneOf t env = l) as El by (unfold laneOf; by rewrite Hl).
      assert (unpark ls (laneOf t env) = l) as -> by (unfold unpark; by rewrite El, Hp, Ed, String.eqb_refl).
      rewrite Hr. intros [= <- <-]. exists l. unfold setLane. simpl. by rewrite lookup_insert_eq.
    + left. apply Hkeep. match goal with E : stepLaneAdmit _ _ _ _ = _ |- _ =>
        destruct (stepLaneAdmit_spec _ _ _ _ _ E) as (? & _ & Hne & _) end. by apply Hne.
  - left. unfold stepLaneStart. cbv zeta. cbn [snd]. destruct (match err with Some _ => false | None => _ end) eqn:E; [|by apply Hkeep].
    destruct err; [done|]. apply Hkeep.
    match goal with |- context [startLane p env now ?ls1 t] =>
      destruct (startLane_spec env now ls1 t) as (? & ? & _ & _ & _ & _ & _ & Hne & _) end.
    apply Hne. intros ->. apply canStart_true in E as [E _]. unfold laneOf in E. rewrite Hl in E. simpl in E. congruence.
  - left. apply Hkeep. match goal with E : t_threads t !! k = Some th |- _ => rename E into Hk end.
    destruct (live th) eqn:El; [|apply threadStep_other; by right].
    destruct (live_lane _ t k th H Hk El) as (l2 & Hl2 & Hr2 & _). apply threadStep_other; [left; by exists l2|left].
    intros E. rewrite E, Hv in Hl2. injection Hl2 as <-. simpl in Hr2. congruence.
  - destruct (decide (n0 = n)) as [->|Hn]; [by right; left|left]. apply Hkeep. unfold Retry.
    destruct (t_lanes t !! n0) as [l0|]; [|done]. destruct (l_parked l0); [|done]. unfold lview. simpl. by rewrite lookup_insert_ne.
  - left. apply Hkeep. unfold CancelCurrent. destruct (t_lanes t !! n0) as [l0|] eqn:E0; [|done].
    destruct (negb (l_running l0) || _) eqn:E1; [done|]. cbn [snd]. rewrite cancelThread_lane. unfold lview. simpl.
    destruct (decide (n0 = n)) as [->|Hn]; [|by rewrite lookup_insert_ne]. rewrite Hl in E0. injection E0 as <-. by rewrite Hr in E1.
Qed.

(** Whether an errored run gets its one retry. *)
Definition retried t l th (o : Outcome) : bool :=
  bool_decide (o = OutcomeError) && p_AutoRetryErrors p && negb (t_draining t) && negb (String.eqb (l_autoRetried l) (th_desired th)).

(** Parks are level-triggered. A finished run frees its lane and parks
    it at the revision it deployed exactly when it was rejected or errored and got
    no automatic retry; a landed run marks the revision as deployed, and only an
    errored run, on a tracker that is not draining, with the budget of that
    revision unspent, is retried. A parked lane runs nothing and stays parked
    through every step of the tracker, but for an operator's [Retry] of that lane and
    a pass that reads a desired revision other than the parked one. *)
Theorem parked_lane_waits pc t n l a pc' t' :
  reachable (pc, t) -> t_lanes t !! n = Some l -> tstep a (pc, t) (pc', t') ->
  (forall k th rows culprit o detail, a = LThread k -> t_threads t !! k = Some th -> e_Name (th_env th) = n ->
     th_phase th = Ended rows culprit o detail ->
     exists l', t_lanes t' !! n = Some l' /\ l_running l' = false /\
       l_syncedSHA l' = (if bool_decide (o = OutcomeLanded) then th_desired th else l_syncedSHA l) /\
       l_autoRetried l' = (if retried t l th o then th_desired th else l_autoRetried l) /\
       (l_parked l' = None <-> o = OutcomeLanded \/ o = OutcomeSkipped \/ retried t l th o = true) /\
       forall pk, l_parked l' = Some pk -> lp_SHA pk = th_desired th /\ lp_RunID pk = th_runID th /\ lp_Outcome pk = o /\ lp_Detail pk = detail) /\
  (forall pk, l_parked l = Some pk ->
     (forall k, ~ holds t n k) /\
     ((exists l', t_lanes t' !! n = Some l' /\ l_parked l' = Some pk /\ l_running l' = false) \/
      a = LRetry n \/ exists env ls, a = LAdmit env ls /\ e_Name env = n /\ s_Desired ls <> lp_SHA pk)).
Proof.
  intros Hr Hl Hst. apply reach_inv in Hr as H. assert (lview t n = Some (erase l)) as Hv by (unfold lview; by rewrite Hl).
  destruct (si_lane _ H n) as [H1 H2]. specialize (H2 _ Hv). cbn [snd] in H1, H2. split.
  - intros k th rows culprit o detail -> Hk <- Eph. inversion Hst; subst. cbn [snd].
    match goal with E : t_threads t !! k = Some ?th0 |- _ => rewrite Hk in E; injection E as <- end.
    destruct (si_thread _ H k th Hk) as [_ Hvd]. rewrite Eph in Hvd.
    assert (l_parked l = None) as Hp.
    { destruct (live_lane _ t k th H Hk) as (l2 & Hl2 & Hr2 & _); [unfold live; by rewrite Eph|]. rewrite Hv in Hl2.
      injection Hl2 as <-. rewrite Hr2 in H2. by destruct H2 as [H2 _]. }
    unfold threadStep. rewrite Eph. cbv zeta. unfold setPhase, releaseLane, setLane. cbv zeta. simpl. rewrite lookup_insert_eq.
    eexists. split; [reflexivity|]. unfold laneOf. rewrite Hl. simpl. unfold retried.
    destruct Hvd as [->|[->|[->| ->]]]; simpl.
    + split_and!; try done. split; auto.
    + rewrite Hp. split_and!; try done. split; auto.
    + split_and!; try done; [split; [done|by intros [?|[?|?]]]|]. by intros pk [= <-].
    + destruct (_ && _); simpl; split_and!; try done; [split; auto|split; [done|by intros [?|[?|?]]]|]. by intros pk [= <-].
  - intros pk Hp. split; [|by apply (parked_stays pc t n l pk a (pc', t'))]. intros k (id & Hk & Hid)%holds_view.
    destruct (H1 k id Hk Hid) as (l2 & Hl2 & Hr2 & _). rewrite Hv in Hl2. injection Hl2 as <-. rewrite Hr2 in H2.
    destruct H2 as [H2 _]. simpl in H2. congruence.
Qed.
End System.

(** ** Examples *)

(** One goroutine taken one stretch further. *)
Definition drive (p : Params) (k : nat) (r : list arrival) (t : Tracker) : Tracker :=
  match t_threads t !! k with Some th => threadStep p demoExec r 1 k th t | None => t end.

Definition asked : string -> ExecWorld -> Prop := fun _ x => x = demoExec.

Lemma drive_reach p pc k r t :
  Cancelled ∉ r -> reachable p asked (pc, t) -> reachable p asked (pc, drive p k r t).
Proof.
  intros Hc H. unfold drive. destruct (t_threads t !! k) as [th|] eqn:E; [|done].
  eapply reach_step; [exact H|]. by apply st_thread.
Qed.

Lemma drive_step p pc k t th :
  t_threads t !! k = Some th -> tstep p asked (LThread k) (pc, t) (pc, drive p k [] t).
Proof. intros E. unfold drive. rewrite E. apply st_thread; [done|done|]. by intros ?%elem_of_nil. Qed.

Definition passed (name : nat) : arrival := Done name (demoResult CheckPassed).

(** The messages of a run of [demoGraph] where all is well. *)
Definition wellRounds : list (list arrival) :=
  [[]; []; [passed 0; passed 2]; []; [passed 1]; []; [passed 3]; []; []; []; []].

Definition finish (p : Params) (k : nat) (t : Tracker) : Tracker := fold_left (fun t r => drive p k r t) wellRounds t.

Definition demoGit : GitRemote :=
  mkGit (list_to_map [("refs/heads/main", "B"); ("refs/gauntlet/deployed/dev", "A"); ("refs/gauntlet/deployed/prod", "A")]) [].

Definition demoRefs : gmap string string := gr_refs demoGit.

(** The first pass over [demoEnv], up to the goroutine it starts. *)
Definition demoLs : LaneState := laneRefs demoEnv demoRefs demoRefs.
Definition demoMoved : Tracker := snd (advanceDesired demoPolicy demoEnv 0 demoLs (New demoGit 0)).
Definition demoAdmitted : LaneState * Tracker := stepLaneAdmit demoParams demoEnv (demoLs <| s_Desired := "B" |>) demoMoved.
Definition demoRunning : Tracker := snd (stepLaneStart demoParams demoEnv 0 None (fst demoAdmitted) (snd demoAdmitted)).

Lemma demoRunning_reach : reachable demoParams asked (None, demoRunning).
Proof.
  assert (reachable demoParams asked (None, demoMoved)) as H1.
  { eapply reach_step with (a := LDesired demoEnv); [apply (reach_new _ _ demoGit 0)|].
    by apply (st_desired demoParams asked demoEnv demoExec demoRefs demoRefs 0); [left|]. }
  pose proof (st_admit demoParams asked demoEnv (demoLs <| s_Desired := "B" |>) demoMoved (fst demoAdmitted) (snd demoAdmitted)
    ltac:(by left) eq_refl (surjective_pairing _)) as H2.
  replace (s_Pending (fst demoAdmitted)) with true in H2 by (vm_compute; reflexivity).
  eapply reach_step; [eapply reach_step; [exact H1|exact H2]|]. apply st_start.
Qed.

Definition demoBefore (n : nat) : Tracker := fold_left (fun t r => drive demoParams 0 r t) (take n wellRounds) demoRunning.

Lemma demoBefore_reach n : reachable demoParams asked (None, demoBefore n).
Proof.
  unfold demoBefore. assert (Forall (fun r => Cancelled ∉ r) (take n wellRounds)) as H
    by (apply Forall_take; unfold wellRounds, passed; repeat (constructor; [set_solver|]); constructor).
  pose proof demoRunning_reach as H0. revert H H0. generalize (take n wellRounds) as l, demoRunning as t.
  induction l as [|r l IH]; intros t Hf Ht; cbn [fold_left]; [done|]. apply Forall_cons in Hf as [Hr Hf].
  apply IH; [done|]. by apply drive_reach.
Qed.


Lemma deploy_lane_serial_witness :
  (forall n l, t_lanes (demoBefore 3) !! n = Some l -> (l_running l = true <-> exists k, holds (demoBefore 3) n k)) /\
  option_map l_running (t_lanes (demoBefore 3) !! "dev") = Some true.
Proof.
  split; [|vm_compute; reflexivity]. intros n l Hl.
  exact (proj1 (proj1 (deploy_lane_serial demoParams asked None (demoBefore 3) (demoBefore_reach 3)) n l Hl)).
Defined.

(** The goroutine about to release its lane, and that lane. *)
Definition demoEnded : thread :=
  default (mkThread demoEnv "" "" "" 0 false Starting) (t_threads (demoBefore 9) !! 0%nat).

Definition demoHeld : lane := laneOf (demoBefore 9) demoEnv.

Definition endedRows (th : thread) : list CheckResult :=
  match th_phase th with Ended rows _ _ _ => rows | _ => [] end.

Lemma parked_lane_waits_witness :
  exists l', t_lanes (drive demoParams 0 [] (demoBefore 9)) !! "dev" = Some l' /\
    l_running demoHeld = true /\ l_running l' = false /\ l_syncedSHA l' = "B" /\ l_parked l' = None.
Proof.
  assert (t_threads (demoBefore 9) !! 0%nat = Some demoEnded) as Eth by (vm_compute; reflexivity).
  assert (t_lanes (demoBefore 9) !! "dev" = Some demoHeld) as El by (vm_compute; reflexivity).
  assert (th_phase demoEnded = Ended (endedRows demoEnded) "" OutcomeLanded "") as Eph by (vm_compute; reflexivity).
  assert (e_Name (th_env demoEnded) = "dev") as En by (vm_compute; reflexivity).
  assert (th_desired demoEnded = "B") as Ed by (vm_compute; reflexivity).
  assert (l_running demoHeld = true) as Er by (vm_compute; reflexivity).
  destruct (proj1 (parked_lane_waits demoParams asked None (demoBefore 9) "dev" demoHeld (LThread 0) None _ (demoBefore_reach 9) El
                     (drive_step demoParams None 0 _ _ Eth)) 0%nat demoEnded _ _ _ _ eq_refl Eth En Eph)
    as (l' & Hl' & Hr & Hsy & _ & Hp & _).
  exists l'. split; [exact Hl'|]. split; [exact Er|]. split; [exact Hr|].
  split; [rewrite Ed in Hsy; exact Hsy|]. apply Hp. left. reflexivity.
Defined.

(** ** Findings *)

(** A pass of [demoParams] on the refs as some fetch saw them. *)
Definition quietLane : Environment -> LaneWorld := fun _ => mkLaneWorld id demoPolicy id demoPolicy 0.

Definition pass (p : Params) (fetched : gmap string string) (t : Tracker) : Tracker :=
  snd (ReconcileOnce p quietLane (inl fetched) (inl fetched) 0 t).

Definition push (ref new : string) (t : Tracker) : Tracker :=
  t <| t_git ::= (fun g => mkGit (<[ref := new]> (gr_refs g)) (gr_faults g)) |>.

(** The first run of the lane starts, main moves on, the refs are fetched; then
    the run lands, and the next pass works on what was fetched. *)
Definition staleStart : Tracker := push "refs/heads/main" "C" (pass demoParams demoRefs (New demoGit 0)).
Definition staleFetch : gmap string string := gr_refs (t_git staleStart).
Definition staleLanded : Tracker := finish demoParams 0 staleStart.
Definition staleEnd : Tracker := finish demoParams 1 (pass demoParams staleFetch staleLanded).

(** A tracked lane blames another writer for its own push. The observed ref
    is read from the mirror of the last fetch but pushed to the remote. When a
    run lands after the last fetch and the source has moved, the next pass starts the new
    revision's run from the observed value of the mirror: the marker of the revision
    already deployed covers only that revision. Its graph runs all green,
    the compare-and-swap from the stale value fails against what the same tracker
    wrote, and the lane parks, saying that another writer moved the ref, although
    nobody else ever wrote it and the new revision is deployed. *)
Theorem stale_mirror_parks :
  gr_refs (t_git staleLanded) !! ObservedRef "dev" = Some "B" /\
  gr_refs (t_git staleEnd) !! DesiredRef "dev" = Some "C" /\
  gr_refs (t_git staleEnd) !! ObservedRef "dev" = Some "B" /\
  (exists ev rec, last (t_events staleEnd) = Some ev /\ e_Deploy ev = Some rec /\
     map r_Name (dr_Nodes rec) = map n_Name demoGraph /\ forallb NodeGreen (dr_Nodes rec) = true /\ dr_DeploySHA rec = "C" /\
     dr_DeployedSHA rec = "A") /\
  option_map (fun l => option_map (fun pk => (lp_SHA pk, lp_Outcome pk, lp_Detail pk)) (l_parked l)) (t_lanes staleEnd !! "dev") =
    Some (Some ("C", OutcomeError, "advance observed ref: it no longer held A — another writer moved it")) /\
  option_map l_running (t_lanes (pass demoParams (gr_refs (t_git staleEnd)) staleEnd) !! "dev") = Some false.
Proof.
  split; [vm_compute; reflexivity|]. split; [vm_compute; reflexivity|]. split; [vm_compute; reflexivity|].
  split; [|split; [vm_compute; reflexivity|vm_compute; reflexivity]].
  eexists _, _. split; [vm_compute; reflexivity|]. split; [vm_compute; reflexivity|]. vm_compute. repeat split.
Qed.

(** Two environments deploying the same revision share its one pin: the run that
    ends first releases it under the other. *)
Definition sharedParams : Params :=
  mkParams [demoEnv; mkEnvironment "prod" "main" "" ModeTrack [] 2 "finish"] true true ".gauntlet.kdl" None false false (fun _ => "T").

Definition sharedPins : Tracker :=
  finish sharedParams 0 (drive sharedParams 1 [] (drive sharedParams 1 [] (pass sharedParams demoRefs (New demoGit 0)))).

Example shared_pin_released :
  option_map (fun th => (th_desired th, match th_phase th with Waiting _ g => g_inflight g | _ => [] end)) (t_threads sharedPins !! 1%nat) =
    Some ("B", [0%nat; 2%nat]) /\ t_pins sharedPins = ∅.
Proof. vm_compute. split; reflexivity. Qed.

(** A straggler discarded after the graph went red never leaves the list of
    nodes executing right now, while the run winds down. *)
Definition stragglers : Tracker :=
  fold_left (fun t r => drive demoParams 0 r t)
    [[]; []; [Done 0 (demoResult CheckFailed)]; []; [Done 2 (demoResult CheckPassed)]; []] demoRunning.

Example gauge_keeps_stragglers :
  option_map (fun th => match th_phase th with Waiting _ g => g_inflight g | _ => [7%nat] end) (t_threads stragglers !! 0%nat) = Some [] /\
  option_map (fun l => lr_nodes (l_run l)) (t_lanes stragglers !! "dev") = Some ["docs"].
Proof. vm_compute. split; reflexivity. Qed.
