(* ===== verification/Wiring.v ===== *)
(** How the daemon is put together from its configuration (src/cmd/gauntlet): the
    executors and their routing (executor.go), the check of a spec against a
    configuration (validate.go), what a start sweeps away (sweep.go, main.go,
    gitx/git.go), the credentials of the channels (channels.go, reviews.go,
    failure_review.go), the workers' profiles (workers.go), the deploy tracker
    (deploy.go) and the queue's configuration (main.go). *)
From stdpp Require Import gmap strings.
From Stdlib Require Import Ascii.
From S2P Require Import Prelude GoString Core Daemon Scheduling Spec Trial Wire DaemonConfig DaemonConfigSpec TestReport TestParse Broker WorkerServer BrokerSpec Executor ExecutorSpec Capacity DeployGraph DeployLane TickSpec.

Open Scope string_scope.
Open Scope list_scope.
Open Scope Z_scope.

(** ** Executors *)

(** src/cmd/gauntlet/executor.go:146-155 [envPairs] *)
Definition envPairs (env : list EnvVar) : list string := map (fun ev => assign (ev_Name ev) (ev_Value ev)) env.

Section Build.
Context (scratchDir token gitDir : string) (secretEnv : list string) (remote : bool).

(** src/cmd/gauntlet/executor.go:110-135 [buildOneExecutor] *)
Definition containerParams (e : DaemonConfig.Executor) : Executor.Params :=
  Executor.mkParams (xc_Runtime e) (xc_Image e) (xc_Workdir e)
    (map (fun c => mkCacheVolume (ca_Name c) (ca_Path c)) (xc_Caches e))
    (map (fun m => mkHostMount (mo_Host m) (mo_Path m) (mo_ReadOnly m)) (xc_Mounts e))
    (envPairs (xc_Env e)) (map (fun ah => ah_Host ah +:+ ":" +:+ ah_Gateway ah) (xc_AddHosts e))
    (xc_Memory e) (xc_CPUs e) gitDir scratchDir token.

(** src/cmd/gauntlet/executor.go:96-144 [buildOneExecutor] *)
Definition buildOneExecutor (e : DaemonConfig.Executor) : string + Backend :=
  let label := if String.eqb (xc_Name e) "" then "executor" else "executor " +:+ quoted (xc_Name e) in
  let kind := String.eqb (xc_Kind e) in
  if kind "remote" then if remote then inr Remote else inl "remote executor backend is unavailable"
  else if kind "" || kind "local" then inr (Local (mkLocalExecutor scratchDir gitDir (envPairs (xc_Env e)) secretEnv))
  else if kind "container" then
    match Executor.New (containerParams e) with
    | inl err => inl (label +:+ ": " +:+ err)
    | inr ex => inr (Container ex)
    end
  else inl (label +:+ ": unknown kind " +:+ quoted (xc_Kind e)).

(** What [buildExecutor] returns, and what a job given to it reaches. *)
Inductive Built := Bare (ex : Backend) | Muxed (m : Mux).

Definition dispatch (x : Built) (job : CheckJob) : CheckResult + Backend :=
  match x with Bare ex => inr ex | Muxed m => route m job end.

(** src/cmd/gauntlet/executor.go:51-58 [buildExecutor] The loop over the profiles. *)
Fixpoint buildNamed (l : list DaemonConfig.Executor) (named : gmap string Backend) : string + gmap string Backend :=
  match l with
  | [] => inr named
  | p :: l =>
      match buildOneExecutor p with
      | inl err => inl err
      | inr ex => buildNamed l (<[xc_Name p := ex]> named)
      end
  end.

(** src/cmd/gauntlet/executor.go:43-60 [buildExecutor] *)
Definition buildExecutor (d : DaemonConf) : string + Built :=
  match buildOneExecutor (dc_Executor d) with
  | inl err => inl err
  | inr def =>
      match dc_Profiles d with
      | [] => inr (Bare def)
      | profiles =>
          match buildNamed profiles ∅ with
          | inl err => inl err
          | inr named => inr (Muxed (mkMux def named))
          end
      end
  end.
End Build.

(** src/cmd/gauntlet/executor.go:72-77 [executorPredicates] *)
Definition knownProfile (d : DaemonConf) (name : string) : bool := existsb (fun p => String.eqb (xc_Name p) name) (dc_Profiles d).

(** src/cmd/gauntlet/executor.go:78-89 [executorPredicates] *)
Definition imageCapable (d : DaemonConf) (name : string) : bool :=
  let carries e := String.eqb (xc_Kind e) "container" || String.eqb (xc_Kind e) "remote" && xc_SupportsImages e in
  if String.eqb name "" then carries (dc_Executor d)
  else match List.find (fun p => String.eqb (xc_Name p) name) (dc_Profiles d) with Some p => carries p | None => false end.

(** src/cmd/gauntlet/executor.go:157-165 [remoteExecutorPredicate] *)
Definition remoteProfile (d : DaemonConf) (name : string) : bool :=
  existsb (fun p => String.eqb (xc_Kind p) "remote" && String.eqb (xc_Name p) name) (dc_Profiles d).

(** src/cmd/gauntlet/validate.go:103-109 [crossCheck] *)
Definition crossCheck (d : DaemonConf) (spec : CheckSpec) : option string :=
  SpecRejectReason spec (0 <? length (se_Allow (dc_Services d)))%nat (Some (knownProfile d)) (Some (imageCapable d))
    (isSome (gh_ReceiptNotes (dc_GitHub d))) (Some (remoteProfile d)).

(** ** Services *)

(** src/cmd/gauntlet/main.go:307-322 [run] How services are reached, by which runtime;
    or why the daemon does not start. *)
Definition servicesMode (d : DaemonConf) : option (string + (bool * string)) :=
  match se_Allow (dc_Services d) with
  | [] => None
  | _ =>
      let network := String.eqb (xc_Kind (dc_Executor d)) "container" in
      let runtime := if network then xc_Runtime (dc_Executor d) else se_Runtime (dc_Services d) in
      Some (if network && String.eqb runtime "container"
            then inl "services require docker or podman; Apple's container CLI lacks the shared container network services need"
            else inr (network, runtime))
  end.

(** ** What a start sweeps away *)

(** src/cmd/gauntlet/sweep.go:34-39 [containerNamePrefix] *)
Definition containerNamePrefix (token : string) : string :=
  if String.eqb token "" then "gauntlet-" else "gauntlet-" +:+ token +:+ "-".

(** src/cmd/gauntlet/main.go:398-409 [run] *)
Definition sweptStep (swept : list string) (e : DaemonConfig.Executor) : list string :=
  if String.eqb (xc_Kind e) "container" then
    let runtime := if String.eqb (xc_Runtime e) "" then "container" else xc_Runtime e in
    if memb runtime swept then swept else swept ++ [runtime]
  else swept.

(** src/cmd/gauntlet/main.go:396-410 [run] The runtimes whose containers are swept. *)
Definition sweptRuntimes (d : DaemonConf) : list string := fold_left sweptStep (dc_Executor d :: dc_Profiles d) [].

(** src/cmd/gauntlet/sweep.go:115-128 [listContainerNames] The command that lists the
    containers; its output is the names, or an error. *)
Definition listCommand (runtime : string) : list string :=
  if String.eqb runtime "container" then [runtime; "ls"; "-a"; "--format"; "json"]
  else [runtime; "ps"; "-a"; "--format"; "{{.Names}}"].

(** src/cmd/gauntlet/sweep.go:65-100 [sweepContainerOrphans] The commands that are run. A
    removal that fails is logged. *)
Definition sweepContainerOrphans (runtime token : string) (found : bool) (listing : string + list string) : list (list string) :=
  if String.eqb runtime "" then []
  else if negb found then []
  else
    listCommand runtime ::
    match listing with
    | inl err => []
    | inr names =>
        map (fun name => [runtime; "rm"; "-f"; name])
          (List.filter (fun name => negb (String.prefix "gauntlet-svc-" name) && String.prefix (containerNamePrefix token) name) names)
    end.

(** src/internal/gitx/git.go:457-468 [SweepTrialRefs] *)
Fixpoint sweepRefs (l : list (string * string)) (n : Z) (firstErr : option string) (g : GitRemote) : (Z * option string) * GitRemote :=
  match l with
  | [] => ((n, firstErr), g)
  | (ref, oid) :: l =>
      match CASUpdate ref oid "" g with
      | (Some CASStale, g) => sweepRefs l n firstErr g
      | (Some (CASOther err), g) =>
          sweepRefs l n (match firstErr with None => Some ("gitx: sweep trial refs: delete " +:+ ref +:+ ": " +:+ err) | e => e end) g
      | (None, g) => sweepRefs l (n + 1) firstErr g
      end
  end.

(** src/internal/gitx/git.go:443-470 [SweepTrialRefs] [listing] is what the remote
    answers for the pattern, in the order in which the map is read. *)
Definition SweepTrialRefs (listing : string -> string + list (string * string)) (prefix : string) (g : GitRemote) : (Z * option string) * GitRemote :=
  match listing (prefix +:+ "/*") with
  | inl err => ((0, Some ("gitx: sweep trial refs: " +:+ err)), g)
  | inr refs => sweepRefs refs 0 None g
  end.

(** src/cmd/gauntlet/main.go:249-257 [run] *)
Definition startupSweep (d : DaemonConf) (listing : string -> string + list (string * string)) (g : GitRemote) : GitRemote :=
  if String.eqb (gh_TrialRefPrefix (dc_GitHub d)) "" then g
  else snd (SweepTrialRefs listing (gh_TrialRefPrefix (dc_GitHub d)) g).

(** ** Workers *)

(** src/cmd/gauntlet/workers.go:44-54 [startWorkers] What jobs of the remote profiles need. *)
Fixpoint remoteRequirements (l : list DaemonConfig.Executor) (profiles : gmap string Requirements) : string + gmap string Requirements :=
  match l with
  | [] => inr profiles
  | p :: l =>
      if String.eqb (xc_Kind p) "remote" then
        match ResourceValues (xc_CPUs p) (xc_Memory p) with
        | inl err => inl err
        | inr (cpu, memory) => remoteRequirements l (<[xc_Name p := mkRequirements (xc_Labels p) (mkResources 1 cpu memory)]> profiles)
        end
      else remoteRequirements l profiles
  end.

(** src/cmd/gauntlet/workers.go:243-260 [workerScaler] The pools; the provider is a value
    of its own. *)
Fixpoint scalerPools (l : list WorkerPool) : string + list Pool :=
  match l with
  | [] => inr []
  | p :: l =>
      match ResourceValues (wp_CPUs p) (wp_Memory p) with
      | inl err => inl err
      | inr (cpu, memory) =>
          match scalerPools l with
          | inl err => inl err
          | inr pools =>
              let worker := Broker.mkWorker (wp_ImageProfiles p) (wp_ServiceProfiles p) "" "" (wp_Profiles p) (wp_Labels p)
                              (mkResources (wp_Slots p) cpu memory) (mkResources 0 0 0) (wp_UrgentReserve p) false in
              inr (mkPool (wp_Name p) worker (wp_WarmNodes p) (wp_MaxNodes p) (wp_IdleTimeout p) (wp_StartupTimeout p)
                     (wp_PricePerHour p) (wp_MaxHourlyCost p) :: pools)
          end
      end
  end.

(** src/cmd/gauntlet/workers.go:183-183 [runWorker] *)
Definition workerConf (w : DaemonConfig.Worker) : DaemonConf :=
  emptyDaemon [] <| dc_Executor := wo_Executor w |> <| dc_Profiles := wo_Profiles w |>.

(** src/cmd/gauntlet/workers.go:190-221 [runWorker] The profiles that get a pool of
    services, each with its runtime and whether it is reached over a network. *)
Definition workerServicePools (w : DaemonConfig.Worker) : list (string * (string * bool)) :=
  match se_Allow (wo_Services w) with
  | [] => []
  | _ =>
      omap (fun p =>
        let network := String.eqb (xc_Kind p) "container" in
        let runtime := if network then xc_Runtime p else se_Runtime (wo_Services w) in
        if String.eqb runtime "docker" || String.eqb runtime "podman" then Some (xc_Name p, (runtime, network)) else None)
        (wo_Executor w :: wo_Profiles w)
  end.

(** src/cmd/gauntlet/workers.go:222-238 [runWorker] What the worker says of itself; the
    agent adds the profiles with services. *)
Definition advertisement (w : DaemonConfig.Worker) : string + Broker.Worker :=
  let profiles := "" :: map xc_Name (wo_Profiles w) in
  let container e := String.eqb (xc_Kind e) "container" in
  let images := (if container (wo_Executor w) then [""] else []) ++ map xc_Name (List.filter container (wo_Profiles w)) in
  match ResourceValues (wo_CPUs w) (wo_Memory w) with
  | inl err => inl err
  | inr (cpu, memory) =>
      inr (Broker.mkWorker images (map fst (workerServicePools w)) (wo_Name w) "" profiles (wo_Labels w)
             (mkResources (wo_MaxExecutions w) cpu memory) (mkResources 0 0 0) (wo_UrgentReserve w) false)
  end.

(** ** The queue and the deploy tracker *)

(** src/cmd/gauntlet/main.go:690-733 [run] The queue's configuration; [jsonLen] and the
    formats of instants stand for the standard library. *)
Definition queueConfig (d : DaemonConf) (controlPath : string) (seedParks : option (string -> list ParkSeed))
    (jsonLen : controlState -> Z) (fmtRFC3339 fmtRunID : Z -> string) : option Config :=
  match dc_AutoRetryErrors d with
  | None => None                                  (* a nil pointer is read *)
  | Some retry =>
      Some (mkConfig (map tc_Target (dc_Targets d)) controlPath (negb (String.eqb (gh_TrialRefPrefix (dc_GitHub d)) ""))
        (gh_ReceiptNotes (dc_GitHub d)) retry (dc_CircuitBreaker d) (Some (remoteProfile d)) (String.eqb (dc_Mtimes d) "history")
        (gh_TrialRefPrefix (dc_GitHub d)) (gh_TrialRefRetention (dc_GitHub d)) (dc_CheckSpec d) (isSome (servicesMode d))
        (Some (knownProfile d)) (Some (imageCapable d)) (dc_EmergencyMerges d)
        (isSome (gh_PullRequests (dc_GitHub d)) || isSome (dc_Gerrit d)) seedParks jsonLen fmtRFC3339 fmtRunID)
  end.

(** src/cmd/gauntlet/deploy.go:57-94 [buildDeployTracker] *)
Definition buildDeployTracker (d : DaemonConf) (fmtTime : Z -> string) : option (option DeployLane.Params) :=
  match dc_Deploy d with
  | [] => Some None
  | envs =>
      match dc_AutoRetryErrors d with
      | None => None
      | Some retry =>
          Some (Some (DeployLane.mkParams
            (map (fun e => DeployLane.mkEnvironment (en_Name e) (ds_Branch (en_Source e)) (ds_Env (en_Source e))
                             (if en_Track e then ModeTrack else "manual") (en_Nodes e) (en_MaxParallel e) (en_OnDesiredMove e)) envs)
            true true (dc_CheckSpec d) (Some (knownProfile d)) (String.eqb (dc_Mtimes d) "history") retry fmtTime))
      end
  end.

(** ** Credentials *)

Section Credentials.
(** [os.Getenv], [exec.LookPath], [os.Executable] and opening the history of failures. *)
Context (getenv : string -> string) (LookPath : string -> option string) (Executable : string + string) (OpenHistory : string -> option string).
Context (d : DaemonConf).

(** The provider of installation tokens is there exactly in app mode. *)
Definition appTokens : bool := isSome (gh_Auth (dc_GitHub d)).

Definition unsetFor (what env feature : string) : string := what +:+ ": " +:+ env +:+ " is empty or unset, but " +:+ feature.

(** [None] for the token stands for the provider. *)
Record StatusParams := mkStatusParams {
  st_Owner : string; st_Repo : string; st_APIURL : string; st_DashboardURL : string; st_TrialRefs : bool; st_Token : option string }.

(** src/cmd/gauntlet/channels.go:47-75 [buildGHStatusChannel] *)
Definition buildGHStatusChannel : string + option StatusParams :=
  let g := dc_GitHub d in
  if String.eqb (gh_Repo g) "" then inr None
  else
    match cut_at "/"%char (to_bytes (gh_Repo g)) with
    | None => inl ("github: repo must be " +:+ quoted "owner/name" +:+ ", got " +:+ quoted (gh_Repo g))
    | Some (owner, repo) =>
        let params := mkStatusParams (of_bytes owner) (of_bytes repo) (gh_APIURL g) (db_URL (dc_Dashboard d)) (negb (String.eqb (gh_TrialRefPrefix g) "")) in
        if appTokens then inr (Some (params None))
        else
          let token := getenv (gh_TokenEnv g) in
          if String.eqb token "" then inl (unsetFor "github" (gh_TokenEnv g) ("github is configured for " +:+ gh_Repo g))
          else inr (Some (params (Some token)))
    end.

Record SlackParams := mkSlackParams { sl_Channel : string; sl_AppToken : string; sl_BotToken : string; sl_AllowedUsers : list string }.

(** src/cmd/gauntlet/channels.go:81-100 [buildSlackChannel] *)
Definition buildSlackChannel : string + option SlackParams :=
  let s := dc_Slack d in
  let feature := "slack is configured for channel " +:+ sk_Channel s in
  if String.eqb (sk_Channel s) "" then inr None
  else if String.eqb (getenv (sk_AppTokenEnv s)) "" then inl (unsetFor "slack" (sk_AppTokenEnv s) feature)
  else if String.eqb (getenv (sk_BotTokenEnv s)) "" then inl (unsetFor "slack" (sk_BotTokenEnv s) feature)
  else inr (Some (mkSlackParams (sk_Channel s) (getenv (sk_AppTokenEnv s)) (getenv (sk_BotTokenEnv s)) (sk_AllowedUsers s))).

(** src/cmd/gauntlet/channels.go:159-173 [buildSummarizer] The settings, the token and
    the executable. *)
Definition buildSummarizer : string + option (Summarize * string * string) :=
  match dc_Summarize d with
  | None => inr None
  | Some f =>
      let token := getenv (su_TokenEnv f) in
      if String.eqb token "" then inl ("summarize: " +:+ su_TokenEnv f +:+ " is empty or unset")
      else match LookPath (su_Codex f) with
           | None => inl "summarize: Codex executable unavailable"
           | Some executable => inr (Some (f, token, executable))
           end
  end.

(** src/cmd/gauntlet/failure_review.go:14-44 [buildFailureReview] The settings, the token,
    the executable, the helper, and whether there is a history. *)
Definition buildFailureReview (stateDir : string) : string + option (FailureReview * string * string * string * bool) :=
  match dc_FailureReview d with
  | None => inr None
  | Some f =>
      let token := getenv (fr_TokenEnv f) in
      if String.eqb token "" then inl ("failure-review: " +:+ fr_TokenEnv f +:+ " is empty or unset")
      else match LookPath (fr_Codex f), (if fr_Tools f then Executable else inr "") with
           | None, _ => inl "failure-review: Codex executable unavailable"
           | Some _, inl err => inl err
           | Some executable, inr helper =>
               if String.eqb stateDir "" then inr (Some (f, token, executable, helper, false))
               else match OpenHistory (Join stateDir "failure-review.db") with
                    | Some err => inl ("failure-review history: " +:+ err)
                    | None => inr (Some (f, token, executable, helper, true))
                    end
           end
  end.

(** The targets by branch; of two of one branch the later is kept. *)
Definition branchTargets : gmap string string :=
  fold_left (fun m tc => <[t_Branch (tc_Target tc) := t_Name (tc_Target tc)]> m) (dc_Targets d) ∅.

Record GitHubParams := mkGitHubParams {
  gp_Repo : string; gp_APIURL : string; gp_Targets : gmap string string; gp_Bot : string; gp_Approvals : Z; gp_RequiredChecks : list string;
  gp_PollInterval : Z; gp_EmergencyEnabled : bool; gp_RequireResolvedConversations : bool; gp_DashboardURL : string; gp_AppID : Z;
  gp_Token : option string; gp_PolicyTeams : list string }.

(** src/cmd/gauntlet/reviews.go:20-43 [githubReviewParams] [None]: a nil pointer is read. *)
Definition githubReviewParams (p : GitHubPullRequests) : option GitHubParams :=
  let g := dc_GitHub d in
  match pr_Approvals p with
  | None => None
  | Some approvals =>
      Some (mkGitHubParams (gh_Repo g) (gh_APIURL g) branchTargets (pr_Bot p) approvals (pr_RequiredChecks p) (pr_PollInterval p) (dc_EmergencyMerges d)
        (pr_RequireResolvedConversations p)
        (if negb (String.eqb (db_Bind (dc_Dashboard d)) "") && negb (String.eqb (hi_Path (dc_History d)) "") then db_URL (dc_Dashboard d) else "")
        (match gh_Auth g with Some a => au_AppID a | None => 0 end) (if appTokens then None else Some (getenv (gh_TokenEnv g)))
        (match dc_Policy d with Some p => pl_Teams p | None => [] end))
  end.

Record GerritParams := mkGerritParams {
  rp_APIURL : string; rp_Project : string; rp_Username : string; rp_Token : string; rp_Requirement : string; rp_Targets : gmap string string }.

Inductive ReviewSource := NoReviews | GitHubReviews (p : GitHubParams) (intentPath : string) | GerritReviews (p : GerritParams).

(** src/cmd/gauntlet/reviews.go:45-66 [buildReviewSource] *)
Definition buildReviewSource (stateDir : string) : option (string + ReviewSource) :=
  match gh_PullRequests (dc_GitHub d) with
  | Some pr =>
      match githubReviewParams pr with
      | None => None
      | Some p =>
          Some (if negb appTokens && String.eqb (getenv (gh_TokenEnv (dc_GitHub d))) "" then inl "github review token is unset"
                else inr (GitHubReviews p (Join stateDir "github-emergency-intents.json")))
      end
  | None =>
      Some match dc_Gerrit d with
           | Some g =>
               let p := mkGerritParams (ge_APIURL g) (ge_Project g) (getenv (ge_UsernameEnv g)) (getenv (ge_TokenEnv g)) (ge_VerificationRequirement g) branchTargets in
               if String.eqb (rp_Username p) "" || String.eqb (rp_Token p) "" then inl "Gerrit credentials are unset" else inr (GerritReviews p)
           | None => inr NoReviews
           end
  end.

(** src/cmd/gauntlet/reviews.go:131-150 [buildGitHubWebhook] The secret. *)
Definition buildGitHubWebhook (source : ReviewSource) : string + option string :=
  match gh_PullRequests (dc_GitHub d) with
  | None => inr None
  | Some p =>
      if String.eqb (pr_WebhookSecretEnv p) "" then inr None
      else
        let secret := getenv (pr_WebhookSecretEnv p) in
        if String.eqb secret "" then inl "GitHub webhook secret environment variable is unset"
        else match source with
             | GitHubReviews _ _ => inr (Some secret)
             | _ => inl "GitHub webhook requires GitHub review admission"
             end
  end.

(** src/cmd/gauntlet/workers.go:31-58 [startWorkers] The token of the workers, and what the
    jobs of their profiles need; the broker's database opens. *)
Definition startWorkers : string + option (string * gmap string Requirements * list Pool) :=
  match dc_Workers d with
  | None => inr None
  | Some settings =>
      let token := getenv (wk_TokenEnv settings) in
      if strlen token <? 32 then inl ("workers: " +:+ wk_TokenEnv settings +:+ " must contain at least 32 bytes")
      else match remoteRequirements (dc_Profiles d) ∅ with
           | inl err => inl err
           | inr profiles =>
               match scalerPools (wk_Pools settings) with
               | inl err => inl err
               | inr pools => inr (Some (token, profiles, pools))
               end
           end
  end.
End Credentials.

(** ** A configuration and its executors *)

(** The profile a check selects. *)
Definition executorFor (d : DaemonConf) (name : string) : option DaemonConfig.Executor :=
  if String.eqb name "" then Some (dc_Executor d) else List.find (fun p => String.eqb (xc_Name p) name) (dc_Profiles d).

Definition runtimeKnown (e : DaemonConfig.Executor) : Prop := xc_Kind e = "container" -> runtimeSpecs (orStr (xc_Runtime e) "container") <> None.

Section Routes.
Context (scratchDir token gitDir : string) (secretEnv : list string) (remote : bool).

(** The executor of a profile. *)
Definition backendFor (e : DaemonConfig.Executor) (b : Backend) : Prop :=
  match b with
  | Local l => xc_Kind e = "local" /\ l = mkLocalExecutor scratchDir gitDir (envPairs (xc_Env e)) secretEnv
  | Container c => xc_Kind e = "container" /\ Executor.New (containerParams scratchDir token gitDir e) = inr c
  | Remote => xc_Kind e = "remote" /\ remote = true
  end.

#[local] Abbreviation buildOne := (buildOneExecutor scratchDir token gitDir secretEnv remote).

Lemma buildOne_backend e b : executor_ok e -> buildOne e = inr b -> backendFor e b.
Proof.
  intros [Hk _ _ _ _]. unfold buildOneExecutor. destruct Hk as [E|[E|E]]; rewrite E; cbn -[Executor.New].
  - by intros [= <-].
  - destruct (Executor.New _) eqn:En; [done|]. intros [= <-]. done.
  - destruct remote eqn:Er; [|done]. intros [= <-]. done.
Qed.

Lemma buildOne_builds e : executor_ok e -> (xc_Kind e = "remote" -> remote = true) -> (exists b, buildOne e = inr b) <-> runtimeKnown e.
Proof.
  intros [Hk Hi _ _ _] Hr. unfold buildOneExecutor, runtimeKnown. destruct Hk as [E|[E|E]]; rewrite E; cbn.
  - split; [done|]. intros _. by eexists.
  - assert (String.eqb (xc_Image e) "" = false) as Himg by (by apply String.eqb_neq, Hi). unfold Executor.New, containerParams. cbn.
    unfold orStr. destruct (String.eqb (xc_Runtime e) "") eqn:Er; cbn; rewrite ?Himg; [split; [done|intros _; by eexists]|].
    destruct (runtimeSpecs (xc_Runtime e)) as [spec|].
    + split; [done|]. intros _. by eexists.
    + split; [by intros [? ?]|]. intros H. by destruct (H eq_refl).
  - rewrite (Hr E). split; [done|intros _; by eexists].
Qed.

Lemma buildNamed_spec l named named' :
  buildNamed scratchDir token gitDir secretEnv remote l named = inr named' -> NoDup (xc_Name <$> l) ->
  (forall p, p ∈ l -> exists b, buildOne p = inr b /\ named' !! xc_Name p = Some b) /\
  (forall n, n ∉ xc_Name <$> l -> named' !! n = named !! n).
Proof.
  revert named. induction l as [|p l IH]; intros named H Hnd; cbn [buildNamed] in H.
  { injection H as <-. split; [by intros ? ?%elem_of_nil|done]. }
  rewrite fmap_cons in Hnd. apply NoDup_cons in Hnd as [Hp Hnd]. destruct (buildOne p) as [|b] eqn:E; [done|]. apply IH in H as [H1 H2]; [|done]. split.
  - intros q [->|Hq]%elem_of_cons; [|by apply H1]. exists b. rewrite H2 by done. by rewrite lookup_insert_eq.
  - intros n Hn. rewrite fmap_cons, not_elem_of_cons in Hn. destruct Hn as [Hn1 Hn2]. rewrite H2 by done. by rewrite lookup_insert_ne.
Qed.

Lemma buildNamed_builds l named : (exists m, buildNamed scratchDir token gitDir secretEnv remote l named = inr m) <-> Forall (fun p => exists b, buildOne p = inr b) l.
Proof.
  revert named. induction l as [|p l IH]; intros named; cbn [buildNamed]; [split; [by constructor|by eexists]|]. rewrite Forall_cons.
  destruct (buildOne p) as [err|b]; [|rewrite IH; split; [intros H; split; [by exists b|done]|by intros [_ H]]].
  split; [by intros [? ?]|by intros [[? ?] _]].
Qed.

Lemma find_named d name e : List.find (fun p => String.eqb (xc_Name p) name) (dc_Profiles d) = Some e -> e ∈ dc_Profiles d /\ xc_Name e = name.
Proof. intros H. apply find_some in H as [H1%list_elem_of_In H2%String.eqb_eq]. done. Qed.

(** Profiles that were let through. *)
Record profiles_ok (d : DaemonConf) : Prop := {
  po_default : executor_ok (dc_Executor d);
  po_here : xc_Kind (dc_Executor d) <> "remote";
  po_names : NoDup (xc_Name <$> dc_Profiles d);
  po_profiles : forall p, p ∈ dc_Profiles d -> executor_ok p /\ xc_Name p <> "" /\ (xc_Kind p = "remote" -> remote = true);
}.

(** A name of a profile leads to the executor of the profile. *)
Lemma dispatch_known d x job : profiles_ok d ->
  buildExecutor scratchDir token gitDir secretEnv remote d = inr x -> (j_Executor job <> "" -> knownProfile d (j_Executor job) = true) ->
  exists e b, executorFor d (j_Executor job) = Some e /\ dispatch x job = inr b /\ backendFor e b.
Proof.
  intros [Hd _ Hnd Hps] Hb Hk. unfold buildExecutor in Hb.
  destruct (buildOne (dc_Executor d)) as [|def] eqn:Edef; [done|]. unfold executorFor.
  destruct (String.eqb_spec (j_Executor job) "") as [En|Hn].
  - exists (dc_Executor d), def. split; [done|]. split; [|by apply buildOne_backend].
    destruct (dc_Profiles d); [by injection Hb as <-|]. destruct (buildNamed _ _ _ _ _ _ _); [done|]. injection Hb as <-.
    cbn. unfold route. by rewrite En.
  - specialize (Hk Hn). unfold knownProfile in Hk. apply existsb_exists in Hk as (p & Hin%list_elem_of_In & Hname).
    destruct (List.find _ (dc_Profiles d)) as [e|] eqn:Ef.
    2: { eapply find_none in Ef; [|by apply list_elem_of_In, Hin]. by rewrite Hname in Ef. }
    apply find_named in Ef as [He Hen]. destruct (dc_Profiles d) as [|p0 ps] eqn:Eps; [by apply elem_of_nil in He|]. rewrite <- Eps in *.
    destruct (buildNamed _ _ _ _ _ _ _) as [|named] eqn:Enm; [done|]. injection Hb as <-.
    destruct (buildNamed_spec _ _ _ Enm Hnd) as [H1 _]. destruct (H1 e He) as (b & Hbe & Hlook).
    exists e, b. split; [done|]. split; [|apply buildOne_backend; [by apply Hps|done]].
    cbn. unfold route. cbn. apply String.eqb_neq in Hn. by rewrite Hn, <- Hen, Hlook.
Qed.

End Routes.

Section Load.
Context (url_Parse : string -> option URL) (SplitHost : string -> option string) (isLoopback : string -> bool)
  (templateError : string -> option string) (EqualFold : string -> string -> bool) (ToLower : string -> string)
  (durationString : Z -> string).

#[local] Abbreviation LoadDaemon := (LoadDaemon url_Parse SplitHost isLoopback templateError EqualFold ToLower durationString).

(** The default executor is never remote: only a profile with a name can be. *)
Lemma resolveBlocks_default l seen d d' : resolveBlocks l seen d = inr d' -> xc_Kind (dc_Executor d) <> "remote" -> xc_Kind (dc_Executor d') <> "remote".
Proof.
  revert seen d. induction l as [|e l IH]; intros seen d H Hd; cbn [resolveBlocks] in H; [by injection H as <-|].
  destruct (resolveExecutor e seen d) as [err|[seen1 d1]] eqn:E; [done|]. apply (IH _ _ H). clear IH H l.
  unfold resolveExecutor in E. cbv zeta in E. destruct (String.eqb (xc_Kind e) "").
  - destruct (negb (existsb (String.eqb (xc_Arg e)) ["";"local";"container"])) eqn:Ea; [done|]. apply negb_false_iff in Ea.
    assert (xc_Arg e <> "remote") as Hne by (intros Er; by rewrite Er in Ea).
    repeat (case_match; try discriminate E); by injection E as <- <-.
  - destruct (first_error _) eqn:Ee in E; [done|]. by injection E as <- <-.
Qed.

Lemma loaded_default path d d' : dc_Executor d = zeroExecutor -> LoadDaemon path d = inr d' -> xc_Kind (dc_Executor d') <> "remote".
Proof.
  intros Hz (d1 & Hr & _ & ->)%LoadDaemon_inr. apply resolveBlocks_default in Hr; [|by rewrite Hz]. clear Hz.
  change (xc_Kind (applyExecutorDefaults (dc_Executor d1 <| xc_Kind ::= fun x => orStr x "local" |>)) <> "remote").
  unfold applyExecutorDefaults, orStr. cbn. destruct (String.eqb (xc_Kind (dc_Executor d1)) ""), (String.eqb _ "container"); cbn; done.
Qed.

(** What the executors of a loaded configuration rely on. *)
Lemma loaded_profiles path d d' : dc_Profiles d = [] -> dc_Executor d = zeroExecutor -> LoadDaemon path d = inr d' ->
  profiles_ok (isSome (dc_Workers d')) d'.
Proof.
  intros Hp Hz Hl. pose proof (loaded_default path d d' Hz Hl) as Hdef. apply LoadDaemon_inr in Hl as (d1 & Hr & Hv & ->).
  apply validateDaemon_None in Hv as [_ _ He [Hnd Hps] _ _ _ _ _]. split; [done..|].
  intros p Hin. destruct (Hps p Hin) as [Hok Hw]. split_and!; [done| |done].
  change (p ∈ map applyExecutorDefaults (dc_Profiles d1)) in Hin.
  apply list_elem_of_In, in_map_iff in Hin as (p1 & <- & Hin%list_elem_of_In).
  assert (profile_named p1) as [Hn _] by (eapply resolveBlocks_named; [exact Hr|rewrite Hp; by intros ? ?%elem_of_nil|exact Hin]).
  unfold applyExecutorDefaults. by destruct (String.eqb (xc_Kind p1) "container").
Qed.

Section Routed.
Context (scratchDir token gitDir : string) (secretEnv : list string).
#[local] Abbreviation built d := (buildExecutor scratchDir token gitDir secretEnv (isSome (dc_Workers d)) d).
#[local] Abbreviation runsOn d := (backendFor scratchDir token gitDir secretEnv (isSome (dc_Workers d))).

(** C10. A spec that passes the check against a loaded configuration runs where it is meant
    to. The executors of a loaded configuration can be built exactly when each container
    profile names a runtime that exists, which nothing checks before. Once they are built,
    every command of a spec that is accepted - a check, the build of an image, its
    consumers, the receipt - is handed to the executor of the profile it names, and to no
    other: one with an image never to a local process, nor to workers that do not support
    images; to workers only in an isolated workspace; and one that needs services only
    where the daemon has them, or to workers. *)
Theorem validated_spec_routes path d d' :
  dc_Profiles d = [] -> dc_Executor d = zeroExecutor -> LoadDaemon path d = inr d' ->
  ((exists x, built d' = inr x) <-> Forall runtimeKnown (dc_Executor d' :: dc_Profiles d')) /\
  forall x spec, built d' = inr x -> crossCheck d' spec = None ->
  forall k job, k ∈ buildRunNodes spec -> j_Executor job = k_Executor k ->
    exists e b, executorFor d' (k_Executor k) = Some e /\ dispatch x job = inr b /\ runsOn d' e b /\
      (k_Image k <> "" -> xc_Kind e <> "local" /\ (xc_Kind e = "remote" -> xc_SupportsImages e = true)) /\
      (xc_Kind e = "remote" -> Isolated spec = true) /\
      (k_Needs k <> [] -> xc_Kind e <> "remote" -> servicesMode d' <> None).
Proof.
  intros Hp Hz Hl. pose proof (loaded_profiles path d d' Hp Hz Hl) as Hok. pose proof Hok as [Hd Hdr Hnd Hps]. split.
  - rewrite Forall_cons. transitivity ((exists b, buildOneExecutor scratchDir token gitDir secretEnv (isSome (dc_Workers d')) (dc_Executor d') = inr b) /\
      Forall (fun p => exists b, buildOneExecutor scratchDir token gitDir secretEnv (isSome (dc_Workers d')) p = inr b) (dc_Profiles d')).
    + rewrite <- (buildNamed_builds _ _ _ _ _ _ ∅). unfold buildExecutor. destruct (buildOneExecutor _ _ _ _ _ (dc_Executor d')) as [|def].
      { split; [by intros [? ?]|by intros [[? ?] _]]. }
      destruct (dc_Profiles d') as [|p ps]; [split; intros _; [split|]; by eexists|]. destruct (buildNamed _ _ _ _ _ _ _).
      * split; [by intros [? ?]|by intros [_ [? ?]]].
      * split; intros _; [split|]; by eexists.
    + rewrite buildOne_builds by (done || by intros). apply and_iff_compat_l. rewrite !Forall_forall.
      split; intros H p Hin; destruct (Hps p Hin) as (Hpo & _ & Hw); by eapply buildOne_builds, H.
  - intros x spec Hx Hc k job Hk Hj. apply SpecRejectReason_gates in Hc as [Hc _]. destruct (Hc k Hk) as (Hkn & Him & Hre & Hse). clear Hc.
    destruct (dispatch_known _ _ _ _ _ d' x job Hok Hx) as (e & b & He & Hb & Hr); [by rewrite Hj|]. rewrite Hj in He.
    exists e, b. split_and!; [done..| | |].
    + intros Hi. specialize (Him Hi). cbn in Him. unfold imageCapable in Him. unfold executorFor in He.
      assert (String.eqb (xc_Kind e) "container" || String.eqb (xc_Kind e) "remote" && xc_SupportsImages e = true) as Hcap.
      { destruct (String.eqb (k_Executor k) ""); [by injection He as <-|]. by rewrite He in Him. }
      split; [intros E; by rewrite E in Hcap|]. intros E. by rewrite E in Hcap.
    + intros E. apply Hre. cbn. unfold executorFor in He. destruct (String.eqb_spec (k_Executor k) ""); [injection He as <-; done|].
      apply find_named in He as [Hin Hn]. apply existsb_exists. exists e. split; [by apply list_elem_of_In|].
      rewrite E, Hn. cbn. apply String.eqb_refl.
    + intros Hn E. assert (Spec.accepts (Some (remoteProfile d')) (k_Executor k) = false) as Hnr.
      { apply not_true_iff_false. cbn. intros (p & Hin%list_elem_of_In & [Ek%String.eqb_eq En%String.eqb_eq]%andb_true_iff)%existsb_exists.
        unfold executorFor in He. destruct (String.eqb_spec (k_Executor k) "") as [Ee|_].
        { destruct (Hps p Hin) as (_ & Hne & _). by rewrite En in Hne. }
        apply find_named in He as [Hine Hname]. apply E. rewrite <- Ek. f_equal. rewrite <- En in Hname.
        apply list_elem_of_lookup in Hin as [i Hi], Hine as [j Hj2].
        assert (i = j) as ->; [|congruence]. apply (NoDup_lookup _ i j (xc_Name p) Hnd); rewrite list_lookup_fmap; [by rewrite Hi|rewrite Hj2; simpl; by rewrite Hname]. }
      specialize (Hse Hn Hnr). unfold servicesMode. by destruct (se_Allow (dc_Services d')).
Qed.

End Routed.

(** ** Trial refs at the start *)

(** The same configuration with another prefix for trial refs. *)
Definition setPrefix (p : string) (g : GitHub) : GitHub := g <| gh_TrialRefs ::= option_map (fun tr => mkTrialRefs p (tr_Retention tr)) |>.
Definition withTrialPrefix (p : string) (d : DaemonConf) : DaemonConf := d <| dc_GitHub ::= setPrefix p |>.

Lemma resolveBlocks_withPrefix p l seen d d' : resolveBlocks l seen d = inr d' ->
  dc_GitHub d' = dc_GitHub d /\ resolveBlocks l seen (withTrialPrefix p d) = inr (withTrialPrefix p d').
Proof.
  revert seen d. induction l as [|e l IH]; intros seen d H; cbn [resolveBlocks] in *; [by injection H as <-|].
  destruct (resolveExecutor e seen d) as [err|[seen1 d1]] eqn:E; [done|]. destruct (IH _ _ H) as [Hw Hl]. clear IH H.
  assert (dc_GitHub d1 = dc_GitHub d /\ resolveExecutor e seen (withTrialPrefix p d) = inr (seen1, withTrialPrefix p d1)) as [Hd ->];
    [|by rewrite Hw].
  clear Hl Hw. unfold resolveExecutor in *. cbv zeta in *. change (dc_MaxExecutions (withTrialPrefix p d)) with (dc_MaxExecutions d).
  repeat (case_match; try discriminate E); by injection E as <- <-.
Qed.

(** The prefix as the loader resolves it. *)
Definition resolvedPrefix (p : string) (d : DaemonConf) : DaemonConf :=
  d <| dc_GitHub ::= fun g => setPrefix p g <| gh_TrialRefPrefix := p |> |>.

Lemma gitHubDefaults_withPrefix p g : gh_TrialRefs g <> None -> gh_Repo g <> "" -> p <> "" ->
  gitHubDefaults (setPrefix p g) = setPrefix p (gitHubDefaults g) <| gh_TrialRefPrefix := p |>.
Proof.
  intros Ht Hr%String.eqb_neq Hp%String.eqb_neq. unfold gitHubDefaults. change (gh_Repo (setPrefix p g)) with (gh_Repo g).
  rewrite Hr. destruct g as [pr re te ap au tp tt trs rn]. cbn in Ht. destruct trs; [|done]. unfold setPrefix. cbn.
  assert (forall q, orStr p q = p) as Hq by (intros q; unfold orStr; by rewrite Hp). by destruct au; cbn; rewrite Hq.
Qed.

Lemma defaults_withPrefix path p d : gh_TrialRefs (dc_GitHub d) <> None -> gh_Repo (dc_GitHub d) <> "" -> p <> "" ->
  applyDefaults (withTrialPrefix p d) <| dc_Workers ::= option_map (resolveTLS path) |> =
  resolvedPrefix p (applyDefaults d <| dc_Workers ::= option_map (resolveTLS path) |>).
Proof.
  intros Ht Hr Hp.
  destruct d as [? ? ? ? ? ? ? ? ? ? ? ? ? ? ? ? g]. cbn [dc_GitHub] in Ht, Hr.
  pose proof (gitHubDefaults_withPrefix p (g <| gh_PullRequests ::= option_map pullRequestsDefaults |>)) as E.
  destruct g. specialize (E Ht Hr Hp). unfold setPrefix in E. unfold applyDefaults, withTrialPrefix, resolvedPrefix, setPrefix.
  cbn -[gitHubDefaults pullRequestsDefaults historyDefaults dashboardDefaults slackDefaults applyExecutorDefaults servicesDefaults
    workersDefaults policyDefaults circuitDefaults failureReviewDefaults gerritDefaults orZ orStr resolveTLS] in E |- *.
  rewrite E. reflexivity.
Qed.

Lemma validateTrialRefs_heads g : validateTrialRefs durationString g = None ->
  validateTrialRefs durationString (setPrefix "refs/heads" g <| gh_TrialRefPrefix := "refs/heads" |>) = None.
Proof.
  destruct g as [pr re te ap au tp tt [tr|] rn]; [|done]. unfold validateTrialRefs. cbv zeta.
  cbn [gh_TrialRefs gh_Repo gh_TrialRefPrefix setPrefix over option_map GitHub_eta tr_Retention].
  intros [H1 [_ [_ [_ [H5 _]%Forall_cons]%Forall_cons]%Forall_cons]%Forall_cons]%first_error_None%Forall_cons.
  apply first_error_None. repeat (apply Forall_cons; split); try exact H1; try exact H5; try constructor; vm_compute; reflexivity.
Qed.

Lemma badRef_heads : badRef "refs/heads" = false.
Proof. reflexivity. Qed.

#[local] Abbreviation validateDaemon := (validateDaemon url_Parse SplitHost isLoopback templateError EqualFold ToLower durationString).

(** Validation does not look at the namespace of the prefix. *)
Lemma validate_withPrefix d : validateDaemon d = None -> validateDaemon (resolvedPrefix "refs/heads" d) = None.
Proof.
  pose proof (validateTrialRefs_heads (dc_GitHub d)) as Ht.
  destruct d as [? ? ? ? ? ? ? ? ? ? ? ? ? ? ? ? g], g. unfold validateDaemon, DaemonConfig.validateDaemon, resolvedPrefix, setPrefix in *.
  cbn -[validateWorkers poolsAgree validatePolicy validateCircuit validateSigning validateFailureReview validateBasics validateTargets
    validateHistory validateReviews validateTrialRefs validateReceiptNotes validateAuth validateExecutor validateProfiles validateLimits
    validateServicesBlock validateDeploy validateSummarize] in Ht |- *.
  rewrite !orelse_None. intros (H1 & H2 & H3 & H4 & H5 & H6 & H7 & H8 & H9 & H10 & H11 & H12 & H13 & H14 & H15 & H16 & H17 & H18).
  split_and!; [exact H1|exact H2|exact H3|exact H4|exact H5|exact H6|exact H7|exact H8|exact H9|exact (Ht H10)|exact H11|exact H12|
    exact H13|exact H14|exact H15|exact H16|exact H17|exact H18].
Qed.

Lemma trialRefs_repo d : validateDaemon d = None -> gh_TrialRefs (dc_GitHub d) <> None -> gh_Repo (dc_GitHub d) <> "".
Proof.
  unfold validateDaemon, DaemonConfig.validateDaemon. rewrite !orelse_None. intros (_ & _ & _ & _ & _ & _ & _ & _ & _ & H & _) Ht E.
  unfold validateTrialRefs in H. rewrite E in H. by destruct (gh_TrialRefs (dc_GitHub d)).
Qed.

Lemma defaults_repo path d :
  let d' := applyDefaults d <| dc_Workers ::= option_map (resolveTLS path) |> in
  gh_Repo (dc_GitHub d') = gh_Repo (dc_GitHub d) /\ (gh_TrialRefs (dc_GitHub d) <> None -> gh_TrialRefs (dc_GitHub d') <> None).
Proof.
  cbv zeta. change (dc_GitHub (applyDefaults d <| dc_Workers ::= option_map (resolveTLS path) |>)) with (gitHubDefaults (dc_GitHub d <| gh_PullRequests ::= option_map pullRequestsDefaults |>)).
  unfold gitHubDefaults. destruct (dc_GitHub d) as [pr re te ap au tp tt trs rn]. cbn. by destruct (String.eqb re ""), au, trs.
Qed.

Lemma settled_prefix d : gh_TrialRefPrefix (dc_GitHub (settleTargets (resolvedPrefix "refs/heads" d))) = "refs/heads" /\
  dc_Targets (settleTargets (resolvedPrefix "refs/heads" d)) = dc_Targets (settleTargets d).
Proof. split; [reflexivity|]. destruct d. reflexivity. Qed.

(** Whatever loads with trial refs also loads with the branches as their namespace. *)
Lemma load_withPrefix path d d' : LoadDaemon path d = inr d' -> gh_TrialRefs (dc_GitHub d) <> None ->
  exists d2, LoadDaemon path (withTrialPrefix "refs/heads" d) = inr d2 /\ gh_TrialRefPrefix (dc_GitHub d2) = "refs/heads" /\ dc_Targets d2 = dc_Targets d'.
Proof.
  intros (d1 & Hr & Hv & ->)%LoadDaemon_inr Ht. unfold resolveExecutors in Hr.
  destruct (resolveBlocks_withPrefix "refs/heads" _ _ _ _ Hr) as [Eg Hr2]. rewrite <- Eg in Ht.
  destruct (defaults_repo path d1) as [Er Et]. specialize (Et Ht).
  pose proof (trialRefs_repo _ Hv Et) as Hrepo. rewrite Er in Hrepo.
  pose proof (defaults_withPrefix path "refs/heads" d1 Ht Hrepo ltac:(discriminate)) as E.
  exists (settleTargets (resolvedPrefix "refs/heads" (applyDefaults d1 <| dc_Workers ::= option_map (resolveTLS path) |>))).
  split; [|apply settled_prefix].
  unfold LoadDaemon, DaemonConfig.LoadDaemon, resolveExecutors. change (dc_Executors (withTrialPrefix "refs/heads" d)) with (dc_Executors d).
  rewrite Hr2. cbv zeta. rewrite E, (validate_withPrefix _ Hv). reflexivity.
Qed.

(** ** Credentials stay with the daemon *)

Lemma repo_of_reviews d p : gh_PullRequests (dc_GitHub d) = Some p -> validateReviews url_Parse d = None -> gh_Repo (dc_GitHub d) <> "".
Proof.
  intros E. unfold validateReviews. rewrite E, orelse_None. intros [H _]. noerr. bounds. done.
Qed.

(** What two environments that agree on the secret names agree on. *)
Lemma secret_reads (env1 env2 : string -> string) d : env1 "" = env2 "" -> (forall n, n ∈ SecretEnvNames d -> env1 n = env2 n) ->
  (forall f, dc_FailureReview d = Some f -> env1 (fr_TokenEnv f) = env2 (fr_TokenEnv f)) /\
  (forall w, dc_Workers d = Some w -> env1 (wk_TokenEnv w) = env2 (wk_TokenEnv w)) /\
  (forall g, dc_Gerrit d = Some g -> env1 (ge_UsernameEnv g) = env2 (ge_UsernameEnv g) /\ env1 (ge_TokenEnv g) = env2 (ge_TokenEnv g)) /\
  (gh_Repo (dc_GitHub d) <> "" -> gh_Auth (dc_GitHub d) = None -> env1 (gh_TokenEnv (dc_GitHub d)) = env2 (gh_TokenEnv (dc_GitHub d))) /\
  (forall p, gh_PullRequests (dc_GitHub d) = Some p -> env1 (pr_WebhookSecretEnv p) = env2 (pr_WebhookSecretEnv p)) /\
  (sk_Channel (dc_Slack d) <> "" -> env1 (sk_AppTokenEnv (dc_Slack d)) = env2 (sk_AppTokenEnv (dc_Slack d)) /\
    env1 (sk_BotTokenEnv (dc_Slack d)) = env2 (sk_BotTokenEnv (dc_Slack d))) /\
  (forall s, dc_Summarize d = Some s -> env1 (su_TokenEnv s) = env2 (su_TokenEnv s)).
Proof.
  intros H0 H. assert (forall n, n <> "" -> (if String.eqb n "" then [] else [n]) = [n]) as Hne by (by intros n Hn%String.eqb_neq; rewrite Hn).
  assert (forall n, (n <> "" -> n ∈ SecretEnvNames d) -> env1 n = env2 n) as Hn.
  { intros n Hin. destruct (decide (n = "")) as [->|Hd]; auto. }
  unfold SecretEnvNames in Hn. cbv zeta in Hn.
  split_and!; intros; try split; apply Hn; intros Hd; rewrite ?elem_of_app; repeat match goal with E : dc_FailureReview d = _ |- _ => rewrite E | E : dc_Workers d = _ |- _ => rewrite E
    | E : dc_Gerrit d = _ |- _ => rewrite E | E : gh_PullRequests _ = _ |- _ => rewrite E | E : dc_Summarize d = _ |- _ => rewrite E
    | E : gh_Auth _ = _ |- _ => rewrite E | E : ?x <> "" |- _ => apply String.eqb_neq in E; rewrite E end; cbn [orb isSome app]; rewrite ?elem_of_app, ?elem_of_cons; tauto.
Qed.

(** A loaded configuration that reviews pull requests names their repository. *)
Lemma loaded_repo path d d' p : LoadDaemon path d = inr d' -> gh_PullRequests (dc_GitHub d') = Some p -> gh_Repo (dc_GitHub d') <> "".
Proof.
  intros (d1 & _ & Hv & ->)%LoadDaemon_inr. revert Hv. generalize (applyDefaults d1 <| dc_Workers ::= option_map (resolveTLS path) |>). intros dd Hv.
  assert (dc_GitHub (settleTargets dd) = dc_GitHub dd) as -> by (clear; by destruct dd).
  unfold validateDaemon, DaemonConfig.validateDaemon in Hv. rewrite !orelse_None in Hv.
  destruct Hv as (_ & _ & _ & _ & _ & _ & _ & _ & Hrev & _). intros Hp. exact (repo_of_reviews dd p Hp Hrev).
Qed.

Lemma builders_agree D env1 env2 LookPath Executable OpenHistory stateDir :
  (forall p, gh_PullRequests (dc_GitHub D) = Some p -> gh_Repo (dc_GitHub D) <> "") ->
  env1 "" = env2 "" -> (forall n, n ∈ SecretEnvNames D -> env1 n = env2 n) ->
    buildGHStatusChannel env1 D = buildGHStatusChannel env2 D /\ buildSlackChannel env1 D = buildSlackChannel env2 D /\
    buildSummarizer env1 LookPath D = buildSummarizer env2 LookPath D /\
    buildFailureReview env1 LookPath Executable OpenHistory D stateDir = buildFailureReview env2 LookPath Executable OpenHistory D stateDir /\
    buildReviewSource env1 D stateDir = buildReviewSource env2 D stateDir /\
    (forall source, buildGitHubWebhook env1 D source = buildGitHubWebhook env2 D source) /\
    startWorkers env1 D = startWorkers env2 D.
Proof.
  intros Hrepo H0 Henv.
  destruct (secret_reads env1 env2 D H0 Henv) as (Hfr & Hw & Hg & Hgh & Hpr & Hsl & Hsu). split_and!.
  - unfold buildGHStatusChannel, appTokens. destruct (String.eqb_spec (gh_Repo (dc_GitHub D)) ""); [done|]. destruct (cut_at _ _) as [[]|]; [|done].
    destruct (gh_Auth (dc_GitHub D)) eqn:E; [done|]. cbn [isSome]. by rewrite Hgh.
  - unfold buildSlackChannel. destruct (String.eqb_spec (sk_Channel (dc_Slack D)) "") as [|Hc]; [done|]. by destruct (Hsl Hc) as [-> ->].
  - unfold buildSummarizer. destruct (dc_Summarize D) as [f|]; [|done]. by rewrite (Hsu f eq_refl).
  - unfold buildFailureReview. destruct (dc_FailureReview D) as [f|]; [|done]. by rewrite (Hfr f eq_refl).
  - unfold buildReviewSource, githubReviewParams, appTokens. destruct (gh_PullRequests (dc_GitHub D)) as [p|].
    + destruct (pr_Approvals p); [|done]. destruct (gh_Auth (dc_GitHub D)) eqn:E; [done|]. cbn [isSome]. by rewrite Hgh by (done || by eapply Hrepo).
    + destruct (dc_Gerrit D) as [g|]; [|done]. by destruct (Hg g eq_refl) as [-> ->].
  - intros source. unfold buildGitHubWebhook. destruct (gh_PullRequests (dc_GitHub D)) as [p|]; [|done]. by rewrite (Hpr p eq_refl).
  - unfold startWorkers. destruct (dc_Workers D) as [w|]; [|done]. by rewrite (Hw w eq_refl).
Qed.

(** C33. The credentials of the daemon stay with the daemon. Its channels, its review source
    and webhook, the summaries, the failure review and the workers' entrance read the
    environment only at names that the configuration declares secret: with any other
    variable changed they come out the same. And no such variable reaches what a
    candidate brings along - a check, an image build, a receipt - when a local executor
    runs it, unless the profile itself sets it. *)
Theorem credentials_withheld path d d' :
  LoadDaemon path d = inr d' ->
  (forall env1 env2 LookPath Executable OpenHistory stateDir,
    env1 "" = env2 "" -> (forall n, n ∈ SecretEnvNames d' -> env1 n = env2 n) ->
    buildGHStatusChannel env1 d' = buildGHStatusChannel env2 d' /\ buildSlackChannel env1 d' = buildSlackChannel env2 d' /\
    buildSummarizer env1 LookPath d' = buildSummarizer env2 LookPath d' /\
    buildFailureReview env1 LookPath Executable OpenHistory d' stateDir = buildFailureReview env2 LookPath Executable OpenHistory d' stateDir /\
    buildReviewSource env1 d' stateDir = buildReviewSource env2 d' stateDir /\
    (forall source, buildGitHubWebhook env1 d' source = buildGitHubWebhook env2 d' source) /\
    startWorkers env1 d' = startWorkers env2 d') /\
  (forall newJSON newXML scratchDir token gitDir x job l environ pl h ls r ln,
    buildExecutor scratchDir token gitDir (SecretEnvNames d') (isSome (dc_Workers d')) d' = inr x ->
    dc_Profiles d = [] -> dc_Executor d = zeroExecutor -> (j_Executor job <> "" -> knownProfile d' (j_Executor job) = true) ->
    dispatch x job = inr (Local l) -> j_OperatorOwned job = false -> Forall serviceEntry (p_ServiceEnv pl) ->
    LocalRunCheck newJSON newXML l environ job pl h = Some (ls, r) -> ln ∈ ls ->
    exists env e, ln_Env ln = Some env /\ executorFor d' (j_Executor job) = Some e /\
      forall n, n ∈ SecretEnvNames d' -> plainName n ->
        unset (contract job (Join (h_TempDir h) "result") gitDir ++ testContract job (h_TempDir h)) n ->
        getenv n env = getenv n (envPairs (xc_Env e))).
Proof.
  intros Hl. split.
  - intros. apply builders_agree; [|done..]. intros p Hp. by eapply loaded_repo.
  - intros newJSON newXML scratchDir token gitDir x job l environ pl h ls r ln Hx Hp Hz Hk Hd Hop Hsvc Hr Hln.
    destruct (dispatch_known _ _ _ _ _ d' x job (loaded_profiles path d d' Hp Hz Hl) Hx Hk) as (e & b & He & Hb & Hbk).
    rewrite Hd in Hb. injection Hb as <-. destruct Hbk as [_ ->].
    destruct (local_command _ _ _ _ _ _ _ _ _ _ Hsvc Hr Hln) as (_ & _ & env & Henv & _ & Hu). exists env, e. split_and!; [done..|].
    intros n Hn Hpl Hun. rewrite Hu by done. cbn [le_Env le_SecretEnv]. destruct (getenv n (envPairs (xc_Env e))); [done|].
    by rewrite Hop, (proj2 (memb_In _ _) Hn).
Qed.

(** A pass over refs of which each is as it was listed deletes them all. *)
Lemma sweepRefs_clears l n err refs :
  NoDup l.*1 -> (forall ref oid, (ref, oid) ∈ l -> refs !! ref = Some oid /\ oid <> "") ->
  exists refs', sweepRefs l n err (mkGit refs []) = ((n + Z.of_nat (length l), err), mkGit refs' []) /\
    (forall ref, ref ∈ l.*1 -> refs' !! ref = None) /\ (forall ref, ref ∉ l.*1 -> refs' !! ref = refs !! ref).
Proof.
  revert n refs. induction l as [|[ref oid] l IH]; intros n refs Hnd Hl; cbn [sweepRefs].
  { exists refs. rewrite Z.add_0_r. split; [done|]. split; [by intros ? ?%elem_of_nil|done]. }
  rewrite fmap_cons in Hnd. apply NoDup_cons in Hnd as [Hnew Hnd]. destruct (Hl ref oid ltac:(by left)) as [Href Ho].
  assert (CASUpdate ref oid "" (mkGit refs []) = (None, mkGit (delete ref refs) [])) as ->.
  { unfold CASUpdate, upToDate, casApplies, casWrite. cbn. rewrite Href, String.eqb_refl.
    apply String.eqb_neq in Ho. by rewrite Ho. }
  destruct (IH (n + 1) (delete ref refs) Hnd) as (refs' & -> & H1 & H2).
  { intros r o Hin. rewrite lookup_delete_ne; [apply Hl; by right|]. intros <-. apply Hnew, list_elem_of_fmap. by exists (ref, o). }
  exists refs'. split; [f_equal; f_equal; cbn [length]; lia|]. rewrite fmap_cons. cbn [fst]. split.
  - intros r [->|Hr]%elem_of_cons; [|by apply H1]. rewrite H2 by done. apply lookup_delete_eq.
  - intros r [Hr1 Hr2]%not_elem_of_cons. rewrite H2 by done. by rewrite lookup_delete_ne.
Qed.

(** Whatever the remote answers to the deletions, a ref that was not listed stays. *)
Lemma sweepRefs_other l n err g ref : ref ∉ l.*1 -> gr_refs (snd (sweepRefs l n err g)) !! ref = gr_refs g !! ref.
Proof.
  revert n err g. induction l as [|[r oid] l IH]; intros n err g Hn; [done|]. rewrite fmap_cons, not_elem_of_cons in Hn. cbn [fst] in Hn.
  destruct Hn as [Hne Hn]. cbn [sweepRefs]. destruct (CASUpdate r oid "" g) as [e g1] eqn:E.
  assert (gr_refs g1 !! ref = gr_refs g !! ref) as Hs.
  { unfold CASUpdate, casWrite in E. cbn in E. repeat case_match; injection E as <- <-; cbn; rewrite ?lookup_delete_ne by done; done. }
  destruct e as [[]|]; by rewrite IH.
Qed.

Section Listing.
(** The pattern matching of [git ls-remote]. *)
Context (matches : string -> string -> bool).

(** What the remote lists for a pattern. *)
Definition listed (g : GitRemote) (pattern : string) (l : list (string * string)) : Prop :=
  NoDup l.*1 /\ forall ref oid, (ref, oid) ∈ l <-> gr_refs g !! ref = Some oid /\ matches pattern ref = true.

(** C35. The start of a daemon deletes what lies under the prefix of its trial refs, and
    nothing that validation checks keeps the branches out of there. Whatever the remote
    answers, refs that the prefix does not match stay as they are. But each configuration
    that loads with trial refs also loads with the prefix refs/heads, and its first start
    then deletes every branch of the remote, the targets and the candidates included. *)
Theorem trial_sweep_takes_branches path d d' :
  (forall prefix ref, badRef prefix = false -> matches (prefix +:+ "/*") (prefix +:+ "/" +:+ ref) = true) ->
  LoadDaemon path d = inr d' -> gh_TrialRefs (dc_GitHub d) <> None ->
  (forall g l ref, listed g (gh_TrialRefPrefix (dc_GitHub d') +:+ "/*") l -> matches (gh_TrialRefPrefix (dc_GitHub d') +:+ "/*") ref = false ->
     gr_refs (startupSweep d' (fun _ => inr l) g) !! ref = gr_refs g !! ref) /\
  exists d2, LoadDaemon path (withTrialPrefix "refs/heads" d) = inr d2 /\ dc_Targets d2 = dc_Targets d' /\
    forall refs l, listed (mkGit refs []) "refs/heads/*" l -> (forall ref oid, refs !! ref = Some oid -> oid <> "") ->
      let refs' := gr_refs (startupSweep d2 (fun _ => inr l) (mkGit refs [])) in
      (forall branch, refs' !! ("refs/heads/" +:+ branch) = None) /\
      (forall tc, tc ∈ dc_Targets d2 -> refs' !! targetRefName (tc_Target tc) = None).
Proof.
  intros Hm Hl Ht. split.
  - intros g l ref [_ Hlist] Hn. unfold startupSweep. destruct (String.eqb _ ""); [done|]. unfold SweepTrialRefs.
    apply sweepRefs_other. intros ([r oid] & -> & Hin)%list_elem_of_fmap. apply Hlist in Hin as [_ Hin]. cbn in Hn. congruence.
  - destruct (load_withPrefix path d d' Hl Ht) as (d2 & H2 & Hp & Htg). exists d2. split; [done|]. split; [done|].
    intros refs l [Hnd Hlist] Hoid. unfold startupSweep, SweepTrialRefs. rewrite Hp. cbn [String.eqb].
    destruct (sweepRefs_clears l 0 None refs Hnd) as (refs' & E & H1 & H3).
    { intros ref oid Hin. apply Hlist in Hin as [Hr _]. split; [done|by eapply Hoid]. }
    cbv zeta. rewrite E. cbn [snd gr_refs].
    assert (forall branch, refs' !! ("refs/heads/" +:+ branch) = None) as Hall; [|split; [exact Hall|intros tc _; apply Hall]].
    intros branch. destruct (decide ("refs/heads/" +:+ branch ∈ l.*1)) as [Hin|Hin]; [by apply H1|]. rewrite H3 by done.
    destruct (refs !! ("refs/heads/" +:+ branch)) as [oid|] eqn:Er; [|done]. exfalso. apply Hin, list_elem_of_fmap.
    exists ("refs/heads/" +:+ branch, oid). split; [done|]. apply Hlist. split; [done|].
    exact (Hm "refs/heads" branch badRef_heads).
Qed.

End Listing.
End Load.

(** ** A worker and the jobs it is handed *)

Section Worker.
Context (url_Parse : string -> option URL) (loopbackURL : string -> bool) (hostname : string + string).

Lemma workerProfiles_None seen l : workerProfiles seen l = None ->
  NoDup (xc_Name <$> l) /\ forall p, p ∈ l -> executor_ok p /\ xc_Kind p <> "remote".
Proof.
  intros H. split.
  - eapply (seen_pass xc_Name workerProfiles), H. clear. intros seen x l H. cbn [workerProfiles] in H.
    destruct (String.eqb _ _ || _) eqn:E; [done|]. apply orelse_None in H as [_ Hr]. apply orb_false_iff in E as [_ E]. by seen_case.
  - revert seen H. induction l as [|e l IH]; intros seen H; [by intros ? ?%elem_of_nil|]. cbn [workerProfiles] in H.
    destruct (String.eqb _ _ || _) eqn:E; [done|]. apply orelse_None in H as [Hx Hr]. apply orb_false_iff in E as [E%String.eqb_neq _].
    intros p [->|Hp]%elem_of_cons; [|by eapply IH]. split; [by eapply validateExecutor_None|done].
Qed.

Lemma loadedWorker_profiles w w' : LoadWorker url_Parse loopbackURL hostname w = inr w' -> profiles_ok false (workerConf w').
Proof.
  unfold LoadWorker. cbv zeta. destruct (first_error _); [done|]. destruct (if String.eqb (wo_Name _) "" then _ else _) as [|name]; [done|].
  destruct (validateWorker _ _ _); [done|]. destruct (resolveExecutors _) as [|d] eqn:Er; [done|].
  destruct (_ orelse _) eqn:Ev; [done|]. destruct (workerServices _) as [|s]; [done|]. intros [= <-].
  apply orelse_None in Ev as [Hx%validateExecutor_None [Hnd Hps]%workerProfiles_None]. split; [exact Hx| |exact Hnd|].
  - pose proof (resolveBlocks_default _ _ _ _ Er ltac:(discriminate)) as Hd.
    change (xc_Kind (applyExecutorDefaults (dc_Executor d) <| xc_Kind ::= fun x => orStr x "local" |>) <> "remote").
    unfold applyExecutorDefaults, orStr. destruct (String.eqb (xc_Kind (dc_Executor d)) "container"), (dc_Executor d); cbn in *; by case_match.
  - intros p Hp. destruct (Hps p Hp) as [Hok Hk]. split_and!; [done| |done].
    apply list_elem_of_In, in_map_iff in Hp as (p1 & <- & Hin%list_elem_of_In).
    assert (profile_named p1) as [Hn _] by (eapply resolveBlocks_named; [exact Er|by intros ? ?%elem_of_nil|exact Hin]).
    unfold applyExecutorDefaults. by destruct (String.eqb (xc_Kind p1) "container").
Qed.

(** The advertised profiles are those of the configuration. *)
Lemma advertised w adv : advertisement w = inr adv ->
  (forall n, memb n (k_Profiles adv) = true -> n <> "" -> knownProfile (workerConf w) n = true) /\
  (forall n, memb n (k_ImageProfiles adv) = true -> n = "" /\ xc_Kind (wo_Executor w) = "container" \/
     exists p, p ∈ wo_Profiles w /\ xc_Name p = n /\ xc_Kind p = "container") /\
  k_ServiceProfiles adv = map fst (workerServicePools w).
Proof.
  unfold advertisement. destruct (ResourceValues _ _) as [|[cpu memory]]; [done|]. intros [= <-]. cbn [k_Profiles k_ImageProfiles k_ServiceProfiles].
  split_and!; [| |done].
  - intros n [->|Hn]%memb_In%elem_of_cons; [done|]. intros _. apply list_elem_of_In, in_map_iff in Hn as (p & <- & Hp).
    apply existsb_exists. exists p. split; [done|]. apply String.eqb_refl.
  - intros n [Hn|Hn]%memb_In%elem_of_app.
    + destruct (String.eqb_spec (xc_Kind (wo_Executor w)) "container") as [E|]; [|by apply elem_of_nil in Hn].
      apply list_elem_of_singleton in Hn as ->. by left.
    + apply list_elem_of_In, in_map_iff in Hn as (p & <- & [Hp Hk%String.eqb_eq]%filter_In). right. exists p. by rewrite list_elem_of_In.
Qed.

(** C34. A job goes where it can run. Whatever job the broker picks for a worker that says of
    itself what its configuration makes it say, the worker hands it to an executor of its
    own - the one of the profile that the job names, never to workers again; a job with an
    image, which a local process would run without it, gets a container; and one that
    needs services has a pool that this executor can reach: over a network from a
    container, with the container's own runtime, over the host otherwise. *)
Theorem claimed_job_runs w w' adv adv' scratchDir token gitDir x now available b r :
  LoadWorker url_Parse loopbackURL hostname w = inr w' -> xc_Name (wo_Executor w') = "" ->
  advertisement w' = inr adv -> k_Profiles adv' = k_Profiles adv -> k_ImageProfiles adv' = k_ImageProfiles adv ->
  k_ServiceProfiles adv' ≡ₚ k_ServiceProfiles adv ->
  buildExecutor scratchDir token gitDir [wo_TokenEnv w'] false (workerConf w') = inr x ->
  chooseJob now adv' available b = Some r ->
  exists e ex, executorFor (workerConf w') (j_Executor (w_job r)) = Some e /\ dispatch x (w_job r) = inr ex /\
    backendFor scratchDir token gitDir [wo_TokenEnv w'] false e ex /\ xc_Kind e <> "remote" /\
    (j_Image (w_job r) <> "" -> xc_Kind e = "container") /\
    (j_ServiceNeeds (w_job r) <> [] ->
       (j_Executor (w_job r), (if String.eqb (xc_Kind e) "container" then xc_Runtime e else se_Runtime (wo_Services w'), String.eqb (xc_Kind e) "container"))
         ∈ workerServicePools w').
Proof.
  intros Hl Hname Hadv Ep Ei Es Hx Hch. destruct (chooseJob_elem _ _ _ _ _ Hch) as (_ & _ & Hacc).
  pose proof (loadedWorker_profiles w w' Hl) as Hok. destruct (advertised w' adv Hadv) as (Hprof & Himg & Hsvc).
  set (job := w_job r) in *. assert (accepts adv' job (w_needs r) = true) as Ha.
  { unfold acceptable in Hacc. fold job in Hacc. by destruct (accepts adv' job (w_needs r)). }
  unfold accepts in Ha. rewrite Ep, Ei in Ha.
  destruct (negb (String.eqb (j_Image job) "") && negb (memb (j_Executor job) (k_ImageProfiles adv))) eqn:E1; [done|].
  destruct (negb (Nat.eqb (length (j_ServiceNeeds job)) 0) && negb (memb (j_Executor job) (k_ServiceProfiles adv'))) eqn:E2; [done|].
  destruct (memb (j_Executor job) (k_Profiles adv)) eqn:E3; [|done]. clear Ha.
  destruct (dispatch_known _ _ _ _ _ _ x job Hok Hx) as (e & ex & He & Hd & Hb); [by apply Hprof|].
  assert (forall p, p ∈ wo_Executor w' :: wo_Profiles w' -> xc_Name p = j_Executor job -> p = e) as Huniq.
  { intros p Hp Hn. destruct Hok as [_ _ Hnd Hps]. unfold executorFor in He. cbn [dc_Executor dc_Profiles workerConf over] in He.
    destruct (String.eqb_spec (j_Executor job) "") as [E0|Hne].
    - injection He as <-. apply elem_of_cons in Hp as [->|Hp]; [done|]. destruct (Hps p Hp) as (_ & Hpn & _). by rewrite Hn in Hpn.
    - apply elem_of_cons in Hp as [->|Hp]; [congruence|]. apply (find_named (workerConf w')) in He as [Hin Hen].
      change (dc_Profiles (workerConf w')) with (wo_Profiles w') in *. rewrite <- Hen in Hn.
      apply list_elem_of_lookup in Hp as [i Hi], Hin as [j Hj].
      assert (i = j) as ->; [|congruence]. apply (NoDup_lookup _ i j (xc_Name p) Hnd); rewrite list_lookup_fmap; [by rewrite Hi|rewrite Hj; simpl; by rewrite Hn]. }
  exists e, ex. split_and!; [done..| | |].
  - destruct ex; destruct Hb as [-> ?]; done.
  - intros Hi%String.eqb_neq. rewrite Hi in E1. cbn in E1. apply negb_false_iff in E1. destruct (Himg _ E1) as [[E0 Hk]|(p & Hp & Hpn & Hk)].
    + rewrite <- (Huniq (wo_Executor w')); [done|by left|congruence].
    + rewrite <- (Huniq p); [done|by right|done].
  - intros Hn. assert (Nat.eqb (length (j_ServiceNeeds job)) 0 = false) as Hlen by (by destruct (j_ServiceNeeds job)).
    rewrite Hlen in E2. cbn in E2. apply negb_false_iff, memb_In in E2. rewrite Es, Hsvc in E2.
    apply list_elem_of_In, in_map_iff in E2 as ([n [rt net]] & Hfst & Hin%list_elem_of_In). cbn [fst] in Hfst. subst n.
    unfold workerServicePools in Hin |- *. destruct (se_Allow (wo_Services w')); [by apply elem_of_nil in Hin|].
    pose proof Hin as (p & Hp & Hv)%list_elem_of_omap. apply list_elem_of_omap. exists p. split; [done|].
    destruct (_ || _); [|done]. injection Hv as Hn1 _ _. rewrite <- (Huniq p Hp Hn1). by rewrite Hn1.
Qed.

End Worker.

(** ** Containers left behind *)

(** A token: eight hexadecimal digits ([stateToken]). *)
Definition stateTokenLike (token : string) : Prop :=
  String.length token = 8%nat /\ Forall (fun c => c ∈ to_bytes "0123456789abcdef") (to_bytes token).

Lemma containerNamePrefix_eq token : containerNamePrefix token = namePrefix token.
Proof. unfold containerNamePrefix, namePrefix. by destruct (String.eqb token ""). Qed.

Lemma app_same_length {A} (a b x y : list A) : length a = length b -> a ++ x = b ++ y -> a = b.
Proof.
  revert b. induction a as [|h a IH]; intros [|k b] Hlen; try done. cbn. intros [= -> H]. f_equal. apply (IH b); [by injection Hlen|done].
Qed.

Lemma length_bytes s : length (to_bytes s) = String.length s.
Proof. induction s as [|c s IH]; [done|]. cbn. by f_equal. Qed.

(** What a start removes with a runtime: of the containers there are, those whose names a
    daemon with this token gives to its checks, all of them; never one of another daemon
    on the host, nor a service. *)
Lemma sweep_exact runtime token names : runtime <> "" -> stateTokenLike token ->
  let removed name := [runtime; "rm"; "-f"; name] ∈ sweepContainerOrphans runtime token true (inr names) in
  (forall runID check, containerName token runID check ∈ names -> removed (containerName token runID check)) /\
  (forall other runID check, stateTokenLike other -> other <> token -> ~ removed (containerName other runID check)) /\
  (forall rest, ~ removed ("gauntlet-svc-" +:+ rest)) /\
  (forall name, removed name -> name ∈ names /\ exists rest, name = containerNamePrefix token +:+ rest).
Proof.
  intros Hrt%String.eqb_neq Htok removed.
  assert (forall name, removed name <-> name ∈ names /\ String.prefix "gauntlet-svc-" name = false /\ String.prefix (containerNamePrefix token) name = true) as Hrem.
  { intros name. unfold removed, sweepContainerOrphans. rewrite Hrt. cbn [negb]. rewrite elem_of_cons, list_elem_of_In, in_map_iff. split.
    - intros [H|(n & [= ->] & [Hin Hb]%filter_In)]; [exfalso; revert H; unfold listCommand; by case_match|].
      apply andb_true_iff in Hb as [Hb1%negb_true_iff Hb2]. by rewrite list_elem_of_In.
    - intros (Hin & H1 & H2). right. exists name. split; [done|]. apply filter_In. rewrite <- list_elem_of_In. split; [done|]. by rewrite H1, H2. }
  assert (forall tok runID check, stateTokenLike tok -> exists rest, to_bytes (containerName tok runID check) = to_bytes "gauntlet-" ++ to_bytes tok ++ rest) as Hname.
  { intros tok runID check [Hlen _]. unfold containerName. destruct (String.eqb_spec tok "") as [->|_]; [done|].
    eexists. rewrite !to_bytes_app, <- !app_assoc. reflexivity. }
  assert (to_bytes (containerNamePrefix token) = to_bytes "gauntlet-" ++ to_bytes token ++ to_bytes "-") as Hpre.
  { unfold containerNamePrefix. destruct Htok as [Hlen _]. destruct (String.eqb_spec token "") as [->|_]; [done|]. by rewrite !to_bytes_app. }
  assert (length (to_bytes token) = 8%nat) as Hlen by (rewrite length_bytes; apply Htok). split_and!.
  - intros runID check Hin. apply Hrem. destruct (Hname token runID check Htok) as [rest Hr]. split_and!; [done| |].
    + apply not_true_iff_false. intros [r H]%prefix_bytes. rewrite Hr in H. change (to_bytes "gauntlet-svc-") with (to_bytes "gauntlet-" ++ to_bytes "svc-") in H.
      rewrite <- app_assoc in H. apply app_inv_head in H. destruct Htok as [_ Hhex]. destruct (to_bytes token) as [|c l]; [done|].
      apply Forall_cons in Hhex as [Hc _]. cbn in H. injection H as -> _. revert Hc. apply (bool_decide_unpack (_ ∉ _)). vm_compute. exact I.
    + unfold containerName. fold (namePrefix token). rewrite containerNamePrefix_eq. apply prefix_app.
  - intros other runID check Ho Hne (_ & _ & [r H]%prefix_bytes)%Hrem. destruct (Hname other runID check Ho) as [rest Hr]. rewrite Hr, Hpre, <- !app_assoc in H.
    apply app_inv_head in H. apply app_same_length in H; [by apply Hne, to_bytes_inj|]. rewrite Hlen, length_bytes. apply Ho.
  - intros rest (_ & H & _)%Hrem. by rewrite prefix_app in H.
  - intros name (Hin & _ & [r H]%prefix_bytes)%Hrem. split; [done|]. exists (of_bytes r). apply to_bytes_inj. by rewrite to_bytes_app, to_of_bytes.
Qed.

(** Each runtime that a container profile uses is swept. *)
Lemma sweptRuntimes_all d e : e ∈ dc_Executor d :: dc_Profiles d -> xc_Kind e = "container" -> orStr (xc_Runtime e) "container" ∈ sweptRuntimes d.
Proof.
  assert (forall l acc r, r ∈ acc -> r ∈ fold_left sweptStep l acc) as Hkeep.
  { induction l as [|y l IH]; intros acc r Hr; [done|]. cbn [fold_left]. apply IH. unfold sweptStep. cbv zeta. repeat case_match; rewrite ?elem_of_app; auto. }
  unfold sweptRuntimes. generalize (@nil string). induction (dc_Executor d :: dc_Profiles d) as [|x l IH]; intros acc Hin Hk; [by apply elem_of_nil in Hin|].
  cbn [fold_left]. apply elem_of_cons in Hin as [->|Hin]; [|by apply IH]. apply Hkeep. unfold sweptStep, orStr. rewrite Hk. cbn [String.eqb]. cbv zeta.
  destruct (memb _ acc) eqn:Em; [by apply memb_In|]. apply elem_of_app. right. apply list_elem_of_here.
Qed.

(** ** The configuration of the queue *)

Lemma fold_targets_NoDup d : NoDup ((fun tc => t_Branch (tc_Target tc)) <$> dc_Targets d) ->
  NoDup (map targetRefName (map tc_Target (dc_Targets d))).
Proof.
  intros H. rewrite map_map. assert (map (fun x => targetRefName (tc_Target x)) (dc_Targets d) =
    ((fun b => "refs/heads/" +:+ b) <$> ((fun tc => t_Branch (tc_Target tc)) <$> dc_Targets d))) as -> by (rewrite <- list_fmap_compose; done).
  apply (NoDup_fmap_2_strong _); [|done]. intros x y _ _ E. apply (f_equal to_bytes) in E. rewrite !to_bytes_app in E. by apply app_inv_head, to_bytes_inj in E.
Qed.

(** A loaded configuration keeps apart the names that the queue must keep apart - what the
    theorems about the queue suppose - as long as no target's branch is a candidate's
    and no target's ref lies under the prefix of the trial refs. Neither is validated. *)
Lemma loaded_config_apart url_Parse SplitHost isLoopback templateError EqualFold ToLower durationString path d d' controlPath seed jsonLen f3339 fRunID cfg :
  LoadDaemon url_Parse SplitHost isLoopback templateError EqualFold ToLower durationString path d = inr d' ->
  queueConfig d' controlPath seed jsonLen f3339 fRunID = Some cfg ->
  (forall tc, tc ∈ dc_Targets d' -> parseCandidateRef (targetRefName (tc_Target tc)) = None /\
     String.prefix (gh_TrialRefPrefix (dc_GitHub d') +:+ "/") (targetRefName (tc_Target tc)) = false) ->
  config_apart cfg.
Proof.
  intros (d1 & _ & Hv & ->)%LoadDaemon_inr Hq Hs. apply validateDaemon_None in Hv as [(_ & Hn & Hb & _) _ _ _ _ _ _ _ _].
  revert Hn Hb Hs Hq. generalize (settleTargets (applyDefaults d1 <| dc_Workers ::= option_map (resolveTLS path) |>)). intros D Hn Hb Hs Hq.
  unfold queueConfig in Hq. destruct (dc_AutoRetryErrors D); [|done]. injection Hq as <-.
  assert (forall ref, protected (mkConfig (map tc_Target (dc_Targets D)) controlPath (negb (String.eqb (gh_TrialRefPrefix (dc_GitHub D)) ""))
        (gh_ReceiptNotes (dc_GitHub D)) b (dc_CircuitBreaker D) (Some (remoteProfile D)) (String.eqb (dc_Mtimes D) "history")
        (gh_TrialRefPrefix (dc_GitHub D)) (gh_TrialRefRetention (dc_GitHub D)) (dc_CheckSpec D) (isSome (servicesMode D))
        (Some (knownProfile D)) (Some (imageCapable D)) (dc_EmergencyMerges D)
        (isSome (gh_PullRequests (dc_GitHub D)) || isSome (dc_Gerrit D)) seed jsonLen f3339 fRunID) ref ->
      exists tc, tc ∈ dc_Targets D /\ ref = targetRefName (tc_Target tc)) as Hprot.
  { intros ref (t & Ht & ->). cbn in Ht. apply list_elem_of_In, in_map_iff in Ht as (tc & <- & Htc). exists tc. by rewrite list_elem_of_In. }
  split.
  - cbn. rewrite map_map. exact Hn.
  - cbn. by apply fold_targets_NoDup.
  - intros id (tc & Htc & E)%Hprot. destruct (Hs tc Htc) as [_ Hp]. unfold trialRefName in E. cbn in E. rewrite <- E in Hp.
    apply not_true_iff_false in Hp. apply Hp, prefix_bytes. exists (to_bytes id). by rewrite !to_bytes_app, <- app_assoc.
  - intros ref p Hp (tc & Htc & ->)%Hprot. destruct (Hs tc Htc) as [Hnone _]. by rewrite Hnone in Hp.
Qed.

(** ** Examples *)

#[local] Abbreviation demoLoad :=
  (LoadDaemon (fun _ => None) (fun _ => Some "0.0.0.0") (fun _ => false) (fun _ => None) String.eqb id (fun _ => "") "/etc/gauntlet/daemon.kdl").

Definition wiredSpec : CheckSpec :=
  mkCheckSpec [mkCheck "" None None "unit" ["make"; "test"] [] [] "ci" ""; mkCheck "" None None "lint" ["make"; "lint"] [] [] "" ""] [] [] [] 0 [] "isolated".

Definition builtDemo : Built :=
  match buildExecutor "/state/scratch" "cafe0123" "/state/repo.git" [] true demoLoaded with inr x => x | inl _ => Bare Remote end.

Lemma demo_built : buildExecutor "/state/scratch" "cafe0123" "/state/repo.git" [] true demoLoaded = inr builtDemo.
Proof. vm_compute. reflexivity. Qed.

Lemma validated_spec_routes_witness :
  exists e b, executorFor demoLoaded "ci" = Some e /\ dispatch builtDemo (zeroCheckJob <| j_Executor := "ci" |>) = inr b /\ xc_Kind e = "remote" /\ Isolated wiredSpec = true.
Proof.
  destruct (validated_spec_routes (fun _ => None) (fun _ => Some "0.0.0.0") (fun _ => false) (fun _ => None) String.eqb id (fun _ => "")
    "/state/scratch" "cafe0123" "/state/repo.git" [] "/etc/gauntlet/daemon.kdl" demoDaemon demoLoaded eq_refl eq_refl demo_loads) as [_ H].
  destruct (H builtDemo wiredSpec demo_built ltac:(vm_compute; reflexivity) (mkCheck "" None None "unit" ["make"; "test"] [] [] "ci" "")
    (zeroCheckJob <| j_Executor := "ci" |>)) as (e & b & He & Hb & Hr & _ & Hi & _).
  - vm_compute. apply list_elem_of_here.
  - reflexivity.
  - exists e, b. assert (xc_Kind e = "remote") as Hk by (vm_compute in He; injection He as <-; reflexivity).
    split; [exact He|]. split; [exact Hb|]. split; [exact Hk|exact (Hi Hk)].
Defined.

(** A pattern that ends in a star. *)
Definition starMatches (pattern ref : string) : bool :=
  match strip_prefix (removelast (to_bytes pattern)) (to_bytes ref) with Some _ => true | None => false end.

Lemma starMatches_under prefix ref : starMatches (prefix +:+ "/*") (prefix +:+ "/" +:+ ref) = true.
Proof.
  unfold starMatches. assert (removelast (to_bytes (prefix +:+ "/*")) = to_bytes (prefix +:+ "/")) as ->.
  { change "/*" with ("/" +:+ "*"). rewrite !to_bytes_app. change (to_bytes "*") with ["*"%char]. rewrite app_assoc. apply removelast_last. }
  assert (to_bytes (prefix +:+ "/" +:+ ref) = to_bytes (prefix +:+ "/") ++ to_bytes ref) as -> by (by rewrite !to_bytes_app, <- app_assoc).
  by rewrite (proj2 (strip_prefix_spec _ _ _) eq_refl).
Qed.

Definition demoTrials : DaemonConf :=
  demoDaemon <| dc_GitHub := mkGitHub None "acme/widgets" "" "" None "" 0 (Some (mkTrialRefs "" 0)) None |>.
Definition demoTrialsLoaded : DaemonConf := match demoLoad demoTrials with inr d => d | inl _ => demoTrials end.
Definition demoRemote : gmap string string := <["refs/heads/main" := "m1"]> (<["refs/heads/for/main/ann/fix" := "c1"]> (<["refs/gauntlet/trials/r1" := "t1"]> ∅)).

Lemma trial_sweep_takes_branches_witness :
  exists d2, demoLoad (withTrialPrefix "refs/heads" demoTrials) = inr d2 /\
    gr_refs (startupSweep d2 (fun _ => inr [("refs/heads/main", "m1"); ("refs/heads/for/main/ann/fix", "c1")]) (mkGit demoRemote [])) !! "refs/heads/main" = None.
Proof.
  destruct (trial_sweep_takes_branches (fun _ => None) (fun _ => Some "0.0.0.0") (fun _ => false) (fun _ => None) String.eqb id (fun _ => "") starMatches
    "/etc/gauntlet/daemon.kdl" demoTrials demoTrialsLoaded (fun prefix ref _ => starMatches_under prefix ref) ltac:(vm_compute; reflexivity) ltac:(discriminate))
    as [_ (d2 & H2 & _ & H)].
  exists d2. split; [exact H2|]. destruct (H demoRemote [("refs/heads/main", "m1"); ("refs/heads/for/main/ann/fix", "c1")]) as [Hall _].
  - split; [apply (bool_decide_unpack _); vm_compute; exact I|]. intros ref oid. split.
    + intros [[= -> ->]|[[= -> ->]|[]%elem_of_nil]%elem_of_cons]%elem_of_cons; split; vm_compute; reflexivity.
    + intros [Hl Hm]. cbn [gr_refs] in Hl. unfold demoRemote in Hl. apply lookup_insert_Some in Hl as [[<- <-]|[_ Hl]]; [apply list_elem_of_here|].
      apply lookup_insert_Some in Hl as [[<- <-]|[_ Hl]]; [apply list_elem_of_further, list_elem_of_here|].
      apply lookup_insert_Some in Hl as [[<- <-]|[_ Hl]]; [vm_compute in Hm; discriminate|]. by rewrite lookup_empty in Hl.
  - intros ref oid Hl ->. unfold demoRemote in Hl. repeat (apply lookup_insert_Some in Hl as [[_ ?]|[_ Hl]]; [discriminate|]). by rewrite lookup_empty in Hl.
  - exact (Hall "main").
Defined.

Definition demoQuiet : DaemonConf :=
  emptyDaemon [] <| dc_Remote := "git@example.org:acme/widgets.git" |> <| dc_Committer := ("Bot", "bot@example.org") |>
    <| dc_Targets := [demoTarget "main" "main" "batch" None] |> <| dc_Slack := mkSlack "#queue" "" "" [] |>.
Definition demoQuietLoaded : DaemonConf := match demoLoad demoQuiet with inr d => d | inl _ => demoQuiet end.
Definition demoQuietExecutor : LocalExecutor := mkLocalExecutor "/state/scratch" "/state/repo.git" [] (SecretEnvNames demoQuietLoaded).
Definition demoEnviron : list string := ["SLACK_APP_TOKEN=s3cret"; "HOME=/root"].
Definition demoPlain : Placement := mkPlacement "/trial" "" [] [].

Lemma credentials_withheld_witness :
  buildSlackChannel (fun n => if String.eqb n "" then "" else "x") demoQuietLoaded =
  buildSlackChannel (fun n => if String.eqb n "" then "" else if memb n (SecretEnvNames demoQuietLoaded) then "x" else "y") demoQuietLoaded /\
  exists env, ln_Env <$> (match LocalRunCheck noJSON noXML demoQuietExecutor demoEnviron ExecutorSpec.demoJob demoPlain (demoHost None) with Some (ls, _) => ls | None => [] end)
      = [Some env] /\ getenv "SLACK_APP_TOKEN" env = None.
Proof.
  destruct (credentials_withheld (fun _ => None) (fun _ => Some "0.0.0.0") (fun _ => false) (fun _ => None) String.eqb id (fun _ => "")
    "/etc/gauntlet/daemon.kdl" demoQuiet demoQuietLoaded ltac:(vm_compute; reflexivity)) as [Hb He]. split.
  - destruct (Hb (fun n => if String.eqb n "" then "" else "x")
      (fun n => if String.eqb n "" then "" else if memb n (SecretEnvNames demoQuietLoaded) then "x" else "y")
      (fun _ => None) (inr "") (fun _ => None) "/state" eq_refl) as (_ & H & _); [|exact H].
    intros n Hn. cbv beta. by rewrite (proj2 (memb_In n _) Hn).
  - destruct (LocalRunCheck noJSON noXML demoQuietExecutor demoEnviron ExecutorSpec.demoJob demoPlain (demoHost None)) as [[ls r]|] eqn:E; [|discriminate].
    assert (exists l, ls = [l]) as [l ->] by (injection E as <- _; eexists; reflexivity).
    destruct (He noJSON noXML "/state/scratch" "cafe0123" "/state/repo.git" (Bare (Local demoQuietExecutor)) ExecutorSpec.demoJob demoQuietExecutor
      demoEnviron demoPlain (demoHost None) [l] r l) as (env & e & Henv & Hex & Hn).
    + vm_compute. reflexivity.
    + reflexivity.
    + reflexivity.
    + intros H. by destruct H.
    + reflexivity.
    + reflexivity.
    + constructor.
    + exact E.
    + apply list_elem_of_here.
    + exists env. split; [cbn; by rewrite Henv|]. rewrite (Hn "SLACK_APP_TOKEN").
      * vm_compute in Hex. injection Hex as <-. vm_compute. reflexivity.
      * vm_compute. apply list_elem_of_here.
      * apply (bool_decide_unpack _). vm_compute. exact I.
      * split; [apply (bool_decide_unpack _); vm_compute; exact I|by intros t].
Defined.

Definition demoWorkerConf : DaemonConfig.Worker :=
  DaemonConfig.mkWorker 0 "https://queue.example.org" "w1" "" ["linux"] "4" "8g" 2 1
    [DaemonConfig.mkExecutor [] false "" "" "" "" "" "" [] [] [] [] "" "" 0; DaemonConfig.mkExecutor [] false "box" "container" "" "docker" "golang:1" "" [] [] [] [] "" "" 0]
    zeroExecutor [] (mkServices ["container"] 0 "").

Definition demoURL (_ : string) : option URL := Some (mkURL "https" "queue.example.org" false "" "" "" "").
Definition demoWorkerLoaded : DaemonConfig.Worker :=
  match LoadWorker demoURL (fun _ => false) (inr "host") demoWorkerConf with inr w => w | inl _ => demoWorkerConf end.
Definition demoAdvertised : Broker.Worker := match advertisement demoWorkerLoaded with inr w => w | inl _ => BrokerSpec.demoWorker "" "" end.
Definition demoWorkerBuilt : Built :=
  match buildExecutor "/w/scratch" "cafe0123" "/w/objects.git" [wo_TokenEnv demoWorkerLoaded] false (workerConf demoWorkerLoaded) with inr x => x | inl _ => Bare Remote end.
Definition demoImageJob : CheckJob := zeroCheckJob <| j_Name := "unit" |> <| j_Command := ["make"] |> <| j_Executor := "box" |> <| j_Image := "sha256:1" |> <| j_ServiceNeeds := ["db"] |>.
Definition demoBoard : Broker :=
  mkBroker "e" ∅ false [mkRow "j1" demoImageJob (mkRequirements ["linux"] (mkResources 1 1000 1048576)) 1 0 0 Pending "j1" "" "e" "" "" "" 0 None] ∅ 0 60000000000 120000000000 0 [].

Lemma claimed_job_runs_witness :
  exists e ex, executorFor (workerConf demoWorkerLoaded) "box" = Some e /\ dispatch demoWorkerBuilt demoImageJob = inr ex /\ xc_Kind e = "container" /\
    ("box", ("docker", true)) ∈ workerServicePools demoWorkerLoaded.
Proof.
  assert (LoadWorker demoURL (fun _ => false) (inr "host") demoWorkerConf = inr demoWorkerLoaded) as Hl by (vm_compute; reflexivity).
  assert (advertisement demoWorkerLoaded = inr demoAdvertised) as Ha by (vm_compute; reflexivity).
  assert (buildExecutor "/w/scratch" "cafe0123" "/w/objects.git" [wo_TokenEnv demoWorkerLoaded] false (workerConf demoWorkerLoaded) = inr demoWorkerBuilt) as Hb
    by (vm_compute; reflexivity).
  destruct (claimed_job_runs demoURL (fun _ => false) (inr "host") demoWorkerConf demoWorkerLoaded demoAdvertised demoAdvertised "/w/scratch" "cafe0123" "/w/objects.git"
    demoWorkerBuilt 0 (mkResources 2 4000 8589934592) demoBoard
    (mkRow "j1" demoImageJob (mkRequirements ["linux"] (mkResources 1 1000 1048576)) 1 0 0 Pending "j1" "" "e" "" "" "" 0 None) Hl)
    as (e & ex & He & Hd & _ & _ & Hi & Hs).
  - vm_compute. reflexivity.
  - exact Ha.
  - reflexivity.
  - reflexivity.
  - reflexivity.
  - exact Hb.
  - vm_compute. reflexivity.
  - exists e, ex. split; [exact He|]. split; [exact Hd|]. assert (xc_Kind e = "container") as Hk by (apply Hi; discriminate). split; [exact Hk|].
    specialize (Hs ltac:(discriminate)). vm_compute in He. injection He as <-. exact Hs.
Defined.
