(* ===== verification/Review.v ===== *)
(** Intake of GitHub pull requests (src/internal/review: github.go, policy.go,
    intent.go, conversations.go, instructions.go, feedback.go, progress.go): the
    commands people write in comments, the facts the policy is asked about, the scan
    that turns requests into candidates, the intents an emergency freezes, and the
    comments that answer.

    Everything the forge says is an answer of [Forge], which may depend on all
    that was asked before; nothing is assumed about it. A scan is a program of
    the monad [M]: it asks, remembers the facts it was told, and fails as a whole
    when an answer it needs is missing. *)
From S2P Require Import Prelude GoString Core Daemon Policy Flaky DaemonConfig Reconcile.
From Stdlib Require Import Ascii.

Open Scope string_scope.
Open Scope list_scope.
Open Scope Z_scope.

(** ** Commands *)

(** [strings.Cut] *)
Fixpoint cutBytes (sep b : bytes) : option (bytes * bytes) :=
  match strip_prefix sep b with
  | Some rest => Some ([], rest)
  | None => match b with
            | [] => None
            | a :: t => match cutBytes sep t with Some (x, y) => Some (a :: x, y) | None => None end
            end
  end.

Definition Cut (s sep : string) : string * string * bool :=
  match cutBytes (to_bytes sep) (to_bytes s) with
  | Some (x, y) => (of_bytes x, of_bytes y, true)
  | None => (s, "", false)
  end.

(** src/internal/review/intent.go:16-23 [parsedCommand] *)
Record parsedCommand := mkParsed {
  pc_Action : string; pc_Count : Z;
  pc_Urgent : bool; pc_SkipChecks : bool; pc_OverridePause : bool; pc_Preempt : bool;
  pc_Priority : string; pc_Reason : string;
}.

#[export] Instance parsedCommand_eta : Eta parsedCommand := fun p => mkParsed (pc_Action p) (pc_Count p) (pc_Urgent p)
  (pc_SkipChecks p) (pc_OverridePause p) (pc_Preempt p) (pc_Priority p) (pc_Reason p).

Definition noCommand : parsedCommand := mkParsed "" 0 false false false false "" "".

(** src/internal/review/github.go:149-175 [command] *)
Definition command (body bot : string) : string * Z :=
  match Fields (TrimSpace body) with
  | at_ :: verb :: args =>
      if negb (String.eqb at_ ("@" +:+ bot)) then ("", 0)
      else if String.eqb verb "merge" then
        match args with
        | [] => ("merge", 0)
        | [arg] => if String.eqb arg "stack" then ("merge-through", 0) else ("", 0)
        | _ => ("", 0)
        end
      else if existsb (String.eqb verb) ["merge-stack"; "merge-ready"; "cancel"; "check"] then
        match args with [] => (verb, 0) | _ => ("", 0) end
      else if String.eqb verb "merge-prefix" then
        match args with
        | [arg] => let '(n, ok) := ParseInt arg in if ok && (0 <? n) then (verb, n) else ("", 0)
        | _ => ("", 0)
        end
      else ("", 0)
  | _ => ("", 0)
  end.

Definition priorityWords : list string := ["urgent"; "high"; "normal"; "low"].
Definition flagWords : list string := ["preempt"; "skip-checks"; "override-pause"].

(** src/internal/review/intent.go:32-58 [parseCommand] The modifiers among the fields, each at most
    once and one priority at most; the other fields are kept. *)
Fixpoint modifiers (fields : list string) (seen : gset string) (out : parsedCommand) (rest : list string)
  : option (parsedCommand * list string) :=
  match fields with
  | [] => Some (out, rest)
  | field :: more =>
      if existsb (String.eqb field) (priorityWords ++ flagWords) then
        if bool_decide (field ∈ seen) then None
        else
          let seen := {[field]} ∪ seen in
          if existsb (String.eqb field) priorityWords then
            if String.eqb (pc_Priority out) ""
            then modifiers more seen (out <| pc_Priority := field |> <| pc_Urgent := String.eqb field "urgent" |>) rest
            else None
          else if String.eqb field "preempt" then modifiers more seen (out <| pc_Preempt := true |>) rest
          else if String.eqb field "skip-checks" then modifiers more seen (out <| pc_SkipChecks := true |>) rest
          else modifiers more seen (out <| pc_OverridePause := true |>) rest
      else modifiers more seen out (rest ++ [field])
  end.

(** src/internal/review/intent.go:25-76 [parseCommand] *)
Definition parseCommand (body bot : string) : option parsedCommand :=
  let '(line, reason, hasReason) := Cut (TrimSpace body) " -- " in
  match Fields line with
  | at_ :: verb :: fields =>
      if negb (String.eqb at_ ("@" +:+ bot)) then None else
      match modifiers fields ∅ noCommand [at_; verb] with
      | None => None
      | Some (out, rest) =>
          let '(action, count) := command (String.concat " " rest) bot in
          let out := out <| pc_Action := action |> <| pc_Count := count |> in
          if String.eqb action ""
             || (String.eqb action "cancel" || String.eqb action "check")
                && (negb (String.eqb (pc_Priority out) "") || pc_Preempt out || pc_SkipChecks out || pc_OverridePause out)
          then None else
          let out := if hasReason : bool then out <| pc_Reason := TrimSpace reason |> else out in
          if hasReason && (String.eqb (pc_Reason out) "" || (2048 <? Z.of_nat (String.length (pc_Reason out)))) then None
          else if pc_Preempt out && negb (pc_Urgent out) then None
          else if (pc_SkipChecks out || pc_OverridePause out || pc_Preempt out) && String.eqb (pc_Reason out) "" then None
          else Some out
      end
  | _ => None
  end.

(** src/internal/review/github.go:135-147 [Command] *)
Definition Command (body bot : string) : string * Z :=
  match parseCommand body bot with
  | None => ("", 0)
  | Some parsed => ((if pc_Urgent parsed then pc_Action parsed +:+ "-urgent" else pc_Action parsed), pc_Count parsed)
  end.

Example command_prefix : Command "@gauntlet merge-prefix 3 urgent" "gauntlet" = ("merge-prefix-urgent", 3).
Proof. vm_compute. reflexivity. Qed.
Example command_quoted : Command "please @gauntlet merge" "gauntlet" = ("", 0).
Proof. vm_compute. reflexivity. Qed.
Example command_two_lines : Command ("@gauntlet" +:+ String newline "merge") "gauntlet" = ("merge", 0).
Proof. vm_compute. reflexivity. Qed.
Example command_no_reason : parseCommand "@gauntlet merge skip-checks" "gauntlet" = None.
Proof. vm_compute. reflexivity. Qed.

(** ** What the forge knows *)

(** src/internal/review/github.go:86-92 [ref] *)
Record ref := mkRef { rf_Ref : string; rf_SHA : string; rf_Repo : option string }.

(** src/internal/review/github.go:109-112 [pull] *)
Record pullStack := mkPullStack { ps_Number : Z; ps_Position : Z; ps_Size : Z; ps_Base : ref }.

(** src/internal/review/github.go:101-113 [pull] *)
Record pull := mkPull {
  pr_Number : Z; pr_Title : string; pr_Body : string; pr_State : string; pr_Draft : bool; pr_HTMLURL : string;
  pr_Head : ref; pr_Base : ref; pr_Labels : list string; pr_User : string; pr_Stack : option pullStack;
}.

(** src/internal/review/github.go:115-120 [comment] *)
Record comment := mkComment { cm_ID : Z; cm_Body : string; cm_User : string; cm_ViaApp : option Z }.

(** src/internal/review/github.go:122-133 [request] *)
Record request := mkRequest {
  rs_SkipChecks : bool; rs_OverridePause : bool; rs_Requester : string; rs_Reason : string;
  rs_Urgent : bool; rs_Priority : string; rs_Preempt : bool; rs_PR : pull; rs_ID : Z; rs_Action : string;
  rs_Count : Z; rs_Notified : bool;
}.

#[export] Instance request_eta : Eta request := fun r => mkRequest (rs_SkipChecks r) (rs_OverridePause r) (rs_Requester r)
  (rs_Reason r) (rs_Urgent r) (rs_Priority r) (rs_Preempt r) (rs_PR r) (rs_ID r) (rs_Action r) (rs_Count r) (rs_Notified r).

Definition zeroRef : ref := mkRef "" "" None.
Definition zeroPull : pull := mkPull 0 "" "" "" false "" zeroRef zeroRef [] "" None.
Definition zeroRequest : request := mkRequest false false "" "" false "" false zeroPull 0 "" 0 false.

(** src/internal/review/policy.go:181-187 [collectFacts] *)
Record vote := mkVote { vt_State : string; vt_Commit : string; vt_User : string }.
(** src/internal/review/policy.go:220-226 [collectFacts] *)
Record status := mkStatus { st_Context : string; st_State : string; st_Creator : string }.
(** src/internal/review/policy.go:240-250 [collectFacts] *)
Record checkRun := mkCheckRun { ck_Name : string; ck_Status : string; ck_Conclusion : string; ck_Slug : string; ck_AppID : Z }.
(** src/internal/review/conversations.go:33-48 [conversationsResolved] An absent field is [None]. *)
Record threadPage := mkThreadPage {
  tp_Errors : nat; tp_Nodes : option (list (option bool)); tp_HasNext : option bool; tp_End : string }.

(** The requests to the forge's API, with the types of their answers. Pages
    are numbered from one. *)
Inductive Api : Type -> Type :=
| GetPulls (page : Z) : Api (list pull)
| GetPull (n : Z) : Api pull
| GetStack (n : Z) : Api (string * list Z)
| GetComments (n page : Z) : Api (list comment)
| GetPermission (login : string) : Api string
| GetMembership (org slug user : string) : Api string
| GetFiles (n page : Z) : Api (list (string * string))
| GetReviews (n page : Z) : Api (list vote)
| GetStatuses (sha : string) (page : Z) : Api (list status)
| GetCheckRuns (sha : string) (page : Z) : Api (list checkRun)
| GetThreads (owner repo : string) (n : Z) (cursor : option string) : Api (option threadPage)
| GetUser : Api string
| PostComment (n : Z) (body : string) : Api unit
| CreateComment (n : Z) (body : string) : Api string
| PatchComment (id : Z) (body : string) : Api unit
| ClosePull (n : Z) : Api unit.

Definition method {A} (r : Api A) : string :=
  match r with
  | PostComment _ _ | CreateComment _ _ | GetThreads _ _ _ _ => "POST"
  | PatchComment _ _ | ClosePull _ => "PATCH"
  | _ => "GET"
  end.

(** No reply, or a status with what the decoder makes of the body. *)
Inductive Answer (A : Type) := Unreachable (err : string) | Replied (code : Z) (body : A + string).
Arguments Unreachable {A}.
Arguments Replied {A}.

(** Requests without an output ignore the body. *)
Definition decoded {A} (r : Api A) : A + string -> A + string :=
  match r in Api A return A + string -> A + string with
  | PostComment _ _ => fun _ => inl tt
  | PatchComment _ _ => fun _ => inl tt
  | ClosePull _ => fun _ => inl tt
  | _ => fun body => body
  end.

(** src/internal/review/github.go:94-99 [apiError] *)
Inductive Err := ApiError (status : Z) (method : string) | Fault (msg : string).

Definition errText (e : Err) : string :=
  match e with
  | ApiError st m => "github " +:+ m +:+ ": HTTP " +:+ pretty st
  | Fault msg => msg
  end.

(** ** Facts and questions for the policy *)

(** src/internal/core/types.go:714-721 [Principal] *)
Record Principal := mkPrincipal {
  pp_Source : string; pp_ID : string; pp_Authenticated : bool; pp_AllowedByConfig : bool; pp_Permission : string;
  pp_Teams : gmap string bool;
}.

(** src/internal/policy/input.go:6-16 [Command] Without [Before] and [After], which reviews leave empty. *)
Record PolicyCommand := mkPolicyCommand {
  cd_Priority : string; cd_Preempt : bool; cd_Kind : string; cd_ID : string; cd_Reason : string; cd_Count : Z; cd_Urgent : bool;
}.

(** src/internal/policy/input.go:17-22 [Settings] *)
Record Settings := mkSettings {
  se_Approvals : Z; se_RequiredChecks : list string; se_ResolvedConversations : bool; se_EmergencyEnabled : bool;
}.

(** src/internal/policy/input.go:23-26 [Emergency] *)
Record Emergency := mkEmergency { em_SkipChecks : bool; em_OverridePause : bool }.

(** src/internal/review/policy.go:15-28 [reviewFacts] *)
Record ReviewFacts := mkReviewFacts {
  rv_pr : Z; rv_head_sha : string; rv_draft : bool; rv_state : string; rv_title : string; rv_body : string;
  rv_author : string; rv_labels : list string; rv_repository : string; rv_head_repository : string;
  rv_base_ref : string; rv_base_sha : string;
}.

(** src/internal/review/policy.go:199-199 [collectFacts] *)
Record ReviewVote := mkReviewVote { rw_state : string; rw_commit : string; rw_current : bool; rw_permission : string }.

(** src/internal/review/policy.go:236-236 [collectFacts] *)
Record CheckFact := mkCheckFact {
  cf_name : string; cf_state : string; cf_conclusion : string; cf_producer : string; cf_producer_id : Z; cf_kind : string }.

(** src/internal/review/policy.go:280-283 [collectFacts] *)
Record Facts := mkFacts {
  fa_review : ReviewFacts; fa_reviews : gmap string ReviewVote; fa_resolved : option bool; fa_checks : list CheckFact;
  fa_paths : list string; fa_pathsAvailable : bool; fa_teams : gmap string (gmap string bool);
  fa_requester : option (string * Z * string);
}.

#[export] Instance Facts_eta : Eta Facts := fun f => mkFacts (fa_review f) (fa_reviews f) (fa_resolved f) (fa_checks f)
  (fa_paths f) (fa_pathsAvailable f) (fa_teams f) (fa_requester f).

(** The facts about the forge in a question: of a scope, with the changed paths if they were read; of a
    command; of a command or a submission with everything collected. *)
Inductive ForgeFacts :=
| ScopeFacts (facts : ReviewFacts) (paths : option (list string))
| BriefFacts (pr : Z) (draft : bool) (state : string)
| FullFacts (facts : Facts).

(** The facts about the candidate: source and revision, or all. *)
Inductive CandidateFacts :=
| BriefCandidate (sha : string)
| FullCandidate (ref sha version sourceBase dependsOn requester : string) (urgent : bool).

Record StackFact := mkStackFact { sf_ref : string; sf_sha : string; sf_pr : Z; sf_state : string; sf_draft : bool }.

(** src/internal/policy/input.go:30-50 [Input] The fields reviews fill. *)
Record Input := mkInput {
  in_Phase : string; in_Principal : option Principal; in_Command : option PolicyCommand; in_Settings : Settings;
  in_Emergency : Emergency; in_Target : string; in_Branch : string; in_Candidate : CandidateFacts; in_Forge : ForgeFacts;
  in_Stack : list StackFact; in_Paths : list string; in_PathsAvailable : bool;
}.

(** ** A scan as a program *)

(** What was asked of the outside, in order. *)
Inductive Question :=
| AskedToken
| Invalidated (token : string)
| Sent {A : Type} (token : string) (r : Api A)
| AskedLanded (branch ref sha : string)
| Fetched (source ref sha : string)
| ReadIntents
| WroteIntents
| Ranged (keys : list string).

(** src/internal/review/intent.go:78-82 [frozenIntent] *)
Record frozenIntent := mkFrozen {
  fz_Revisions : list Revision; fz_Reason : string; fz_SkipChecks : bool; fz_OverridePause : bool }.

#[export] Instance frozenIntent_eq_dec : EqDecision frozenIntent.
Proof. solve_decision. Defined.

(** src/internal/review/intent.go:83-87 [intentState] *)
Record intentState := mkIntents { it_Version : Z; it_Floor : Z; it_Requests : gmap Z frozenIntent }.

#[export] Instance intentState_eta : Eta intentState := fun s => mkIntents (it_Version s) (it_Floor s) (it_Requests s).

(** The file of intents: absent, holding a state, or bytes that decode to none. *)
Inductive IntentFile := NoFile | Holds (s : intentState) | Unreadable.

(** The outside: its answers depend on everything asked so far. A write of the
    file of intents may fail before or after it took effect; the keys of a map
    come in some order. *)
Record Forge := mkForge {
  fg_token : list Question -> string + string;
  fg_send : forall A, list Question -> string -> Api A -> Answer A;
  fg_landed : list Question -> string -> string -> string -> bool + string;
  fg_fetch : list Question -> string -> string -> string -> option string;
  fg_readFault : list Question -> option string;
  fg_writeFault : list Question -> option (string * bool);
  fg_order : list Question -> list string -> list string;
}.

(** What a scan remembers: the log of its questions, the facts and permissions it was told
    (the two caches of its context), the login comments are written under, the file of intents, and
    the questions put to the policy about each candidate. *)
Record Scan := mkScan {
  sc_log : list Question;
  sc_facts : gmap (Z * string * bool) Facts;
  sc_paths : gmap (Z * string) (list string);
  sc_perms : gmap string string;
  sc_author : string;
  sc_file : IntentFile;
  sc_inputs : gmap string Input;
}.

#[export] Instance Scan_eta : Eta Scan := fun s => mkScan (sc_log s) (sc_facts s) (sc_paths s) (sc_perms s) (sc_author s)
  (sc_file s) (sc_inputs s).

Definition M (A : Type) : Type := Scan -> (A + Err) * Scan.

#[export] Instance M_ret : MRet M := fun A x s => (inl x, s).
#[export] Instance M_bind : MBind M := fun A B k m s =>
  match m s with (inl a, s') => k a s' | (inr e, s') => (inr e, s') end.

Definition raise {A} (e : Err) : M A := fun s => (inr e, s).
Definition fault {A} (msg : string) : M A := raise (Fault msg).
Definition get {A} (f : Scan -> A) : M A := fun s => (inl (f s), s).
Definition put (f : Scan -> Scan) : M unit := fun s => (inl tt, f s).
Definition lift {A} (x : A + string) : M A := match x with inl a => mret a | inr msg => fault msg end.

(** An error that is the status [code]. *)
Definition isStatus (code : Z) (e : Err) : bool := match e with ApiError st _ => st =? code | Fault _ => false end.

(** The outcome of a program as a value. *)
Definition attempt {A} (m : M A) : M (A + Err) := fun s => let '(r, s') := m s in (inl r, s').

(** A program whose failure is only logged. *)
Definition logged (m : M unit) : M unit := attempt m ;; mret tt.

(** One question: [f] answers it. *)
Definition ask {A} (f : list Question -> A) (e : Question) : M A := fun s =>
  (inl (f (sc_log s)), s <| sc_log ::= fun l => l ++ [e] |>).

Definition when (b : bool) (m : M unit) : M unit := if b then m else mret tt.

Fixpoint foldM {A B} (f : B -> A -> M B) (l : list A) (b : B) : M B :=
  match l with
  | [] => mret b
  | x :: l => b' ← f b x; foldM f l b'
  end.

(** ** The adapter *)

(** src/internal/review/github.go:40-56 [GitHubParams] [Targets] maps branches to names of targets. *)
Record GitHubParams (Q : Type) := mkGitHubParams {
  gp_Policy : Engine Q; gp_EmergencyEnabled : bool; gp_IntentPath : string; gp_PolicyTeams : list string;
  gp_Repo : string; gp_APIURL : string; gp_Bot : string; gp_DashboardURL : string; gp_AppID : Z;
  gp_Targets : gmap string string; gp_Approvals : Z; gp_RequiredChecks : list string;
  gp_RequireResolvedConversations : bool; gp_PollInterval : Z;
}.
Arguments mkGitHubParams {Q}.
Arguments gp_Policy {Q}.
Arguments gp_EmergencyEnabled {Q}.
Arguments gp_IntentPath {Q}.
Arguments gp_PolicyTeams {Q}.
Arguments gp_Repo {Q}.
Arguments gp_APIURL {Q}.
Arguments gp_Bot {Q}.
Arguments gp_DashboardURL {Q}.
Arguments gp_AppID {Q}.
Arguments gp_Targets {Q}.
Arguments gp_Approvals {Q}.
Arguments gp_RequiredChecks {Q}.
Arguments gp_RequireResolvedConversations {Q}.
Arguments gp_PollInterval {Q}.

(** src/internal/review/github.go:73-84 [NewGitHub] The fields it defaults. *)
Definition withDefaults {Q} (default_ : Engine Q) (policy : option (Engine Q)) (p : GitHubParams Q) : GitHubParams Q :=
  mkGitHubParams (default default_ policy) (gp_EmergencyEnabled p) (gp_IntentPath p) (gp_PolicyTeams p) (gp_Repo p)
    (if String.eqb (gp_APIURL p) "" then "https://api.github.com" else gp_APIURL p)
    (if String.eqb (gp_Bot p) "" then "gauntlet" else gp_Bot p) (gp_DashboardURL p) (gp_AppID p) (gp_Targets p)
    (gp_Approvals p) (gp_RequiredChecks p) (gp_RequireResolvedConversations p) (gp_PollInterval p).

(** [%010d] *)
Definition pad10 (n : Z) : string :=
  let digits := pretty (Z.abs n) in
  let width := if n <? 0 then 9%nat else 10%nat in
  (if n <? 0 then "-" else "") +:+ of_bytes (repeat "0"%char (width - String.length digits)) +:+ digits.

(** src/internal/review/github.go:316-318 [slot] *)
Definition slot (target : string) (number : Z) : string := "refs/heads/for/" +:+ target +:+ "/github/pr-" +:+ pad10 number.

(** src/internal/review/github.go:312-314 [stackRejectionMarker] *)
Definition stackRejectionMarker (id : Z) : string := "<!-- gauntlet:stack-required:" +:+ pretty id +:+ " -->".

(** src/internal/review/github.go:689-696 [pullNumber] *)
Definition pullNumber (ref : string) : Z + string :=
  let '(_, tail, _) := Cut ref "/github/pr-" in
  let '(n, ok) := ParseInt tail in
  if negb ok || (n <=? 0) then inr "invalid GitHub review slot" else inl n.

Example slot_12 : pullNumber (slot "main" 12) = inl 12.
Proof. vm_compute. reflexivity. Qed.

(** src/internal/review/feedback.go:113-113 [safeMarkdown] One byte, as the replacer writes it. *)
Definition escapeByte (a : ascii) : bytes :=
  to_bytes (if Ascii.eqb a "&" then "&amp;" else if Ascii.eqb a "<" then "&lt;" else if Ascii.eqb a ">" then "&gt;"
            else if Ascii.eqb a "@" then "&#64;" else if Ascii.eqb a "`" then "&#96;" else if Ascii.eqb a "*" then "&#42;"
            else if Ascii.eqb a "[" then "&#91;" else String a "").

(** src/internal/review/feedback.go:111-118 [safeMarkdown] *)
Definition safeMarkdown (s : string) : string :=
  of_bytes (take 20000 (concat (map escapeByte (to_bytes s)))).

(** src/internal/review/policy.go:345-352 [onlyCheckFailures] *)
Fixpoint onlyCheckFailures_ (l : list Requirement) (failed : bool) : bool :=
  match l with
  | [] => failed
  | r :: rest =>
      if rq_Satisfied r then onlyCheckFailures_ rest failed
      else if negb (String.eqb (rq_Name r) "required-check") then false
      else onlyCheckFailures_ rest true
  end.

(** src/internal/review/policy.go:343-354 [onlyCheckFailures] *)
Definition onlyCheckFailures (d : Decision) : bool := onlyCheckFailures_ (dc_Requirements d) false.

Inductive JVal := JStr (s : string) | JInt (z : Z) | JBool (b : bool).

Section GitHub.
Context {Q V : Type} (lib : RegoLib Input Q V).
(** Unicode case folding, digests of a text and of a JSON array (in hexadecimal), and URL escapes. *)
Context (EqualFold : string -> string -> bool) (sha256 : string -> string) (digest : list JVal -> string).
Context (pathEscape : string -> string) (encodeQuery : list (string * string) -> string).
(** The bytes of the JSON of the intents. *)
Context (intentsLen : intentState -> Z).
Context (forge : Forge) (g : GitHubParams Q).

Definition repoIs (r : ref) : bool :=
  match rf_Repo r with None => true | Some name => EqualFold name (gp_Repo g) end.

(** *** Talking to the forge *)

(** src/internal/review/github.go:190-222 [call] The attempts of one request. *)
Fixpoint attempts (n : nat) (first : bool) {A} (r : Api A) : M A :=
  match n with
  | O => fault "github: authentication failed"
  | S n =>
      answer ← ask (fg_token forge) AskedToken;
      token ← lift answer;
      reply ← ask (fun log => fg_send forge A log token r) (Sent token r);
      match reply with
      | Unreachable err => fault err
      | Replied code body =>
          if (code =? 401) && first then put (fun s => s <| sc_log ::= fun l => l ++ [Invalidated token] |>) ;; attempts n false r
          else if 300 <=? code then raise (ApiError code (method r))
          else lift (decoded r body)
      end
  end.

(** src/internal/review/github.go:181-223 [call] *)
Definition call {A} (r : Api A) : M A := attempts 2 true r.

(** src/internal/review/github.go:229-245 [pages] From page [page] on, of which [n] may be read. *)
Fixpoint pagesFrom (n : nat) (page : Z) {A} (r : Z -> Api (list A)) (all : list A) : M (list A) :=
  match n with
  | O => fault "github pagination exceeds limit"
  | S n =>
      rows ← call (r page);
      let all := all ++ rows in
      if (length rows <? 100)%nat then mret all
      else if 1000 <=? page then fault "github pagination exceeds limit"
      else pagesFrom n (page + 1) r all
  end.

(** src/internal/review/github.go:225-246 [pages] *)
Definition pages {A} (r : Z -> Api (list A)) : M (list A) := pagesFrom 1000 1 r [].

(** src/internal/review/github.go:248-252 [getPull] *)
Definition getPull (n : Z) : M pull := call (GetPull n).

(** src/internal/review/policy.go:77-91 [permission] *)
Definition permission (login : string) : M string :=
  cache ← get sc_perms;
  match cache !! login with
  | Some value => mret value
  | None =>
      outcome ← attempt (call (GetPermission login));
      value ← match outcome with
              | inl value => mret value
              | inr e => if isStatus 404 e then mret "none" else raise e
              end;
      put (fun s => s <| sc_perms ::= insert login value |>) ;;
      mret value
  end.

(** src/internal/review/policy.go:107-119 [teamMember] *)
Definition teamMember (team user : string) : M bool :=
  let '(org, slug, ok) := Cut team "/" in
  if negb ok || String.eqb org "" || String.eqb slug "" then fault "policy team must be org/slug" else
  outcome ← attempt (call (GetMembership org slug user));
  match outcome with
  | inl state => mret (String.eqb state "active")
  | inr e => if isStatus 404 e then mret false else raise e
  end.

(** src/internal/review/policy.go:92-106 [principal] *)
Definition principal (login : string) : M Principal :=
  perm ← permission login;
  teams ← foldM (fun (teams : gmap string bool) team => member ← teamMember team login; mret (<[team := member]> teams))
            (gp_PolicyTeams g) ∅;
  mret (mkPrincipal "github" login (negb (String.eqb login "")) false perm teams).

(** src/internal/review/conversations.go:31-76 [conversationsResolved] From a cursor on. *)
Fixpoint resolvedFrom (n : nat) (owner repo : string) (number : Z) (cursor : option string) : M bool :=
  match n with
  | O => fault "github: review-thread pagination exceeds limit"
  | S n =>
      result ← call (GetThreads owner repo number cursor);
      let gone := fault ("github: review conversations unavailable for PR #" +:+ pretty number) in
      match result with
      | None => gone
      | Some page =>
          if (0 <? tp_Errors page)%nat then gone else
          match tp_Nodes page, tp_HasNext page with
          | Some nodes, Some more =>
              match List.find (fun node => negb (bool_decide (node = Some true))) nodes with
              | Some None => fault "github: missing review-thread resolution"
              | Some (Some _) => mret false
              | None =>
                  if negb more then mret true
                  else if String.eqb (tp_End page) "" || bool_decide (cursor = Some (tp_End page))
                  then fault "github: invalid review-thread cursor"
                  else resolvedFrom n owner repo number (Some (tp_End page))
              end
          | _, _ => fault "github: missing review-thread pagination"
          end
      end
  end.

(** src/internal/review/conversations.go:11-77 [conversationsResolved] *)
Definition conversationsResolved (number : Z) : M bool :=
  let '(owner, repo, ok) := Cut (gp_Repo g) "/" in
  if negb ok then fault "github: invalid repository" else resolvedFrom 1000 owner repo number None.

(** *** Facts and decisions *)

(** src/internal/review/policy.go:15-28 [reviewFacts] *)
Definition reviewFacts (p : pull) : ReviewFacts :=
  mkReviewFacts (pr_Number p) (rf_SHA (pr_Head p)) (pr_Draft p) (pr_State p) (pr_Title p) (pr_Body p) (pr_User p)
    (pr_Labels p) (gp_Repo g) (default "" (rf_Repo (pr_Head p))) (rf_Ref (pr_Base p)) (rf_SHA (pr_Base p)).

(** src/internal/review/policy.go:74-76 [settings] *)
Definition settings : Settings :=
  mkSettings (gp_Approvals g) (gp_RequiredChecks g) (gp_RequireResolvedConversations g) (gp_EmergencyEnabled g).

(** [g.p.Targets[branch]] *)
Definition targetOf (branch : string) : string := default "" (gp_Targets g !! branch).

Definition decide_ (name : string) (input : Input) : M Decision := lift (Policy.Decide lib (gp_Policy g) name input).

(** src/internal/review/policy.go:44-72 [changedPaths] *)
Definition changedPaths (p : pull) : M (list string) :=
  cache ← get sc_paths;
  match cache !! (pr_Number p, rf_SHA (pr_Head p)) with
  | Some paths => mret paths
  | None =>
      files ← pages (GetFiles (pr_Number p));
      if (3000 <=? length files)%nat then fault "GitHub changed-path facts may be truncated" else
      let paths := concat (map (fun f : string * string =>
                     fst f :: (if String.eqb (snd f) "" then [] else [snd f])) files) in
      put (fun s => s <| sc_paths ::= insert (pr_Number p, rf_SHA (pr_Head p)) paths |>) ;;
      mret paths
  end.

(** src/internal/review/policy.go:31-40 [scope] *)
Definition scopeInput (p : pull) (branch : string) (paths : option (list string)) : Input :=
  mkInput "scope" None None settings (mkEmergency false false) (targetOf branch) branch
    (BriefCandidate (rf_SHA (pr_Head p))) (ScopeFacts (reviewFacts p) paths) [] (default [] paths) (bool_decide (is_Some paths)).

(** src/internal/review/policy.go:30-42 [scope] *)
Definition scope (p : pull) (branch : string) : M Decision :=
  paths ← if HasCustom (gp_Policy g) "scope" && negb (String.eqb (targetOf branch) "")
          then paths ← changedPaths p; mret (Some paths) else mret None;
  decide_ "scope" (scopeInput p branch paths).

(** src/internal/review/policy.go:192-201 [collectFacts] *)
Definition collectVotes (p : pull) (votes : list vote) : M (gmap string ReviewVote) :=
  foldM (fun (reviews : gmap string ReviewVote) v =>
    if String.eqb (vt_State v) "COMMENTED" || String.eqb (vt_State v) "PENDING" then mret reviews else
    perm ← permission (vt_User v);
    mret (<[vt_User v := mkReviewVote (vt_State v) (vt_Commit v) (String.eqb (vt_Commit v) (rf_SHA (pr_Head p))) perm]> reviews))
  votes ∅.

(** src/internal/review/policy.go:231-238 [collectFacts] The latest status of each context and creator. *)
Fixpoint latestStatuses (l : list status) (seen : gset string) : list CheckFact :=
  match l with
  | [] => []
  | s :: rest =>
      let key := st_Context s +:+ "/" +:+ st_Creator s in
      if bool_decide (key ∈ seen) then latestStatuses rest seen
      else mkCheckFact (st_Context s) (st_State s) "" (st_Creator s) 0 "status" :: latestStatuses rest ({[key]} ∪ seen)
  end.

(** src/internal/review/policy.go:254-256 [collectFacts] *)
Definition runFact (r : checkRun) : CheckFact :=
  mkCheckFact (ck_Name r) (ck_Status r) (ck_Conclusion r) (ck_Slug r) (ck_AppID r) "check_run".

(** src/internal/review/policy.go:239-263 [collectFacts] *)
Fixpoint checkRunsFrom (n : nat) (sha : string) (page : Z) (checks : list CheckFact) : M (list CheckFact) :=
  match n with
  | O => fault "policy check facts incomplete"
  | S n =>
      runs ← call (GetCheckRuns sha page);
      let checks := checks ++ map runFact runs in
      if (length runs <? 100)%nat then mret checks
      else if 1000 <=? page then fault "policy check facts incomplete"
      else checkRunsFrom n sha (page + 1) checks
  end.

(** src/internal/review/policy.go:219-264 [collectFacts] *)
Definition collectChecks (p : pull) : M (list CheckFact) :=
  statuses ← pages (GetStatuses (rf_SHA (pr_Head p)));
  checkRunsFrom 1000 (rf_SHA (pr_Head p)) 1 (latestStatuses statuses ∅).

(** src/internal/review/policy.go:265-279 [collectFacts] *)
Definition collectTeams (reviews : gmap string ReviewVote) : M (gmap string (gmap string bool)) :=
  foldM (fun (teams : gmap string (gmap string bool)) team =>
    if (100 <? size reviews)%nat then fault "policy reviewer facts exceed limit" else
    users ← ask (fun log => fg_order forge log (fst <$> map_to_list reviews)) (Ranged (fst <$> map_to_list reviews));
    members ← foldM (fun (members : gmap string bool) user =>
                value ← teamMember team user; mret (<[user := value]> members)) users ∅;
    mret (<[team := members]> teams))
  (gp_PolicyTeams g) ∅.

(** src/internal/review/policy.go:180-283 [collectFacts] *)
Definition freshFacts (p : pull) (details : bool) : M Facts :=
  votes ← pages (GetReviews (pr_Number p));
  reviews ← collectVotes p votes;
  resolved ← if gp_RequireResolvedConversations g || details
             then value ← conversationsResolved (pr_Number p); mret (Some value) else mret None;
  paths ← if details then changedPaths p else mret [];
  checks ← if (0 <? length (gp_RequiredChecks g))%nat || details then collectChecks p else mret [];
  teams ← collectTeams reviews;
  mret (mkFacts (reviewFacts p) reviews resolved checks paths details teams None).

(** src/internal/review/policy.go:168-288 [collectFacts] The cache is asked for the details too. *)
Definition collectFacts (p : pull) (details : bool) : M Facts :=
  cache ← get sc_facts;
  let key d := (pr_Number p, rf_SHA (pr_Head p), d) in
  match cache !! key details with
  | Some facts => mret facts
  | None =>
      match (if details then None else cache !! key true) with
      | Some facts => mret facts
      | None =>
          facts ← freshFacts p details;
          put (fun s => s <| sc_facts ::= insert (key details) facts |>) ;;
          mret facts
      end
  end.

(** *** Stacks *)

(** src/internal/review/github.go:349-354 [stack] The open pull requests whose head the base of [p] is. *)
Definition parentsOf (p : pull) (open : list pull) : list pull :=
  List.filter (fun other => String.eqb (rf_Ref (pr_Head other)) (rf_Ref (pr_Base p)) && repoIs (pr_Head other)) open.

(** src/internal/review/github.go:342-360 [stack] The predecessors, bottom first; [fuel] bounds their number. *)
Fixpoint chainDown (fuel : nat) (open : list pull) (seen : gset Z) (bottom : pull) (above : list pull) : list pull + string :=
  match fuel with
  | O => inr "chain exceeds the open pull requests"
  | S fuel =>
      if bool_decide (is_Some (gp_Targets g !! rf_Ref (pr_Base bottom))) then inl (bottom :: above) else
      match parentsOf bottom open with
      | [parent] =>
          if bool_decide (pr_Number parent ∈ seen)
          then inr ("PR #" +:+ pretty (pr_Number bottom) +:+ " has an ambiguous or cyclic base dependency")
          else chainDown fuel open ({[pr_Number parent]} ∪ seen) parent (bottom :: above)
      | _ => inr ("PR #" +:+ pretty (pr_Number bottom) +:+ " has an ambiguous or cyclic base dependency")
      end
  end.

(** src/internal/review/github.go:361-377 [stack] The successors of [top]; [chain] holds its predecessors. *)
Fixpoint chainUp (fuel : nat) (open : list pull) (seen : gset Z) (chain : list pull) (top : pull) : list pull + string :=
  match fuel with
  | O => inr "chain exceeds the open pull requests"
  | S fuel =>
      match List.filter (fun other => String.eqb (rf_Ref (pr_Base other)) (rf_Ref (pr_Head top))
                                 && negb (bool_decide (pr_Number other ∈ seen))) open with
      | [] => inl (chain ++ [top])
      | [child] => chainUp fuel open ({[pr_Number child]} ∪ seen) (chain ++ [top]) child
      | _ => inr ("PR #" +:+ pretty (pr_Number top) +:+ " has multiple stack successors")
      end
  end.

(** src/internal/review/github.go:342-378 [stack] A stack of branches. *)
Definition branchStack (p : pull) (open : list pull) (whole : bool) : (list pull * string) + string :=
  match chainDown (S (S (length open))) open {[pr_Number p]} p [] with
  | inr e => inr e
  | inl below =>
      let base := match below with b :: _ => rf_Ref (pr_Base b) | [] => "" end in
      if whole then
        match chainUp (S (S (length open))) open (list_to_set (map pr_Number below)) (removelast below) p with
        | inr e => inr e
        | inl chain => inl (chain, base)
        end
      else inl (below, base)
  end.

(** src/internal/review/github.go:324-341 [stack] The members the forge lists. *)
Definition nativeStack (number : Z) : M (list pull * string) :=
  s ← call (GetStack number);
  let '(base, numbers) := s in
  members ← foldM (fun members n => p ← getPull n; mret (members ++ [p])) numbers [];
  mret (members, base).

(** src/internal/review/github.go:320-379 [stack] *)
Definition stack (p : pull) (open : list pull) (whole : bool) : M (list pull * string) :=
  match pr_Stack p with
  | Some s => nativeStack (ps_Number s)
  | None => lift (branchStack p open whole)
  end.

(** src/internal/review/policy.go:160-162 [commandDecision] *)
Definition stackFact (target : string) (m : pull) : StackFact :=
  mkStackFact (slot target (pr_Number m)) (rf_SHA (pr_Head m)) (pr_Number m) (pr_State m) (pr_Draft m).

(** src/internal/review/policy.go:139-146 [commandDecision] Up to the first member numbered [n]. *)
Fixpoint throughMember (n : Z) (members : list pull) : list pull :=
  match members with
  | [] => []
  | m :: rest => if pr_Number m =? n then [m] else m :: throughMember n rest
  end.

(** src/internal/review/policy.go:147-158 [commandDecision] Up to the open member that uses up [remaining]. *)
Fixpoint throughOpen (remaining : Z) (members : list pull) : list pull :=
  match members with
  | [] => []
  | m :: rest =>
      if String.eqb (pr_State m) "open"
      then if remaining - 1 =? 0 then [m] else m :: throughOpen (remaining - 1) rest
      else m :: throughOpen remaining rest
  end.

Definition oneOf (s : string) (l : list string) : bool := existsb (String.eqb s) l.

(** src/internal/review/policy.go:121-121 [commandDecision] *)
Definition policyCommand (parsed : parsedCommand) (id : Z) : PolicyCommand :=
  mkPolicyCommand (pc_Priority parsed) (pc_Preempt parsed) (pc_Action parsed) (pretty id) (pc_Reason parsed)
    (pc_Count parsed) (pc_Urgent parsed).

Definition baseBranch (p : pull) : string :=
  match pr_Stack p with Some s => rf_Ref (ps_Base s) | None => rf_Ref (pr_Base p) end.

(** src/internal/review/policy.go:120-126 [commandDecision] *)
Definition commandInput (p : pull) (c : comment) (parsed : parsedCommand) (who : Principal) (target branch : string)
  (facts : ForgeFacts) (members : list StackFact) (paths : list string) (pathsAvailable : bool) : Input :=
  mkInput "command" (Some who) (Some (policyCommand parsed (cm_ID c))) settings
    (mkEmergency (pc_SkipChecks parsed) (pc_OverridePause parsed)) target branch (BriefCandidate (rf_SHA (pr_Head p)))
    facts members paths pathsAvailable.

(** src/internal/review/policy.go:120-166 [commandDecision] *)
Definition commandDecision (p : pull) (c : comment) (parsed : parsedCommand) (who : Principal) (open : list pull) : M Decision :=
  if HasCustom (gp_Policy g) "command" then
    facts ← collectFacts p true;
    s ← stack p open (oneOf (pc_Action parsed) ["merge-stack"; "merge-ready"; "merge-prefix"]);
    let '(members, branch) := s in
    let members := if oneOf (pc_Action parsed) ["merge"; "merge-through"; "check"; "cancel"]
                   then throughMember (pr_Number p) members else members in
    let members := if String.eqb (pc_Action parsed) "merge-prefix" then throughOpen (pc_Count parsed) members else members in
    let target := targetOf branch in
    decide_ "command" (commandInput p c parsed who target branch (FullFacts facts) (map (stackFact target) members)
                         (fa_paths facts) true)
  else
    let branch := baseBranch p in
    decide_ "command" (commandInput p c parsed who (targetOf branch) branch
                         (BriefFacts (pr_Number p) (pr_Draft p) (pr_State p)) [] [] false).

(** src/internal/review/policy.go:303-307 [readiness] *)
Definition submissionInput (c : Candidate) (r : request) (branch : string) (skip : bool) (members : list pull)
  (facts : Facts) (who : Principal) : Input :=
  mkInput "admission" (Some who)
    (Some (mkPolicyCommand (rs_Priority r) (rs_Preempt r) (rs_Action r) (pretty (rs_ID r)) (rs_Reason r) (rs_Count r) (rs_Urgent r)))
    settings (mkEmergency skip (rs_OverridePause r)) (c_Target c) branch
    (FullCandidate (c_Ref c) (c_SHA c) (c_Version c) (c_SourceBase c) (c_DependsOn c) (c_Requester c) (c_Urgent c))
    (FullFacts facts) (map (stackFact (c_Target c)) members) (fa_paths facts) (HasCustom (gp_Policy g) "submission").

(** src/internal/review/policy.go:299-302 [readiness] The requester's own facts. *)
Definition withRequester (facts : Facts) (r : request) (who : Principal) : Facts :=
  facts <| fa_requester := Some (rs_Requester r, rs_ID r, pp_Permission who) |>
        <| fa_teams := map_imap (fun team members =>
                         Some (match pp_Teams who !! team with
                               | Some member => <[rs_Requester r := member]> members
                               | None => members
                               end)) (fa_teams facts) |>.

(** src/internal/review/policy.go:290-310 [readiness] *)
Definition readiness (p : pull) (c : Candidate) (r : request) (branch : string) (skip : bool) (members : list pull)
  : M (Decision * Input) :=
  facts ← collectFacts p (HasCustom (gp_Policy g) "submission");
  who ← principal (rs_Requester r);
  let input := submissionInput c r branch skip members (withRequester facts r who) who in
  decision ← decide_ "submission" input;
  mret (decision, input).

(** *** Comments *)

Definition feedbackMarker : string := "<!-- gauntlet:feedback -->".
(** src/internal/review/instructions.go:9-9 [instructionsMarker] *)
Definition instructionsMarker : string := "<!-- gauntlet:instructions -->".
Definition nl : string := String newline "".
Definition para : string := nl +:+ nl.

Definition trimRightSlashes (s : string) : string :=
  let fix drop (b : bytes) := match b with "/"%char :: t => drop t | _ => b end in
  of_bytes (rev (drop (rev (to_bytes s)))).

(** src/internal/review/progress.go:18-20 [requestIdentity] *)
Definition requestDigest (r : request) : string :=
  digest [JStr (rs_Action r); JInt (rs_Count r); JBool (rs_Urgent r); JStr (rs_Priority r); JBool (rs_Preempt r);
          JBool (rs_SkipChecks r); JBool (rs_OverridePause r); JStr (rs_Requester r); JStr (rs_Reason r)].

(** src/internal/review/progress.go:18-21 [requestIdentity] *)
Definition requestIdentity (r : request) : string := pretty (rs_ID r) +:+ ":" +:+ requestDigest r.

(** src/internal/review/progress.go:23-30 [progressLink] *)
Definition progressLink (c : Candidate) : string :=
  if String.eqb (gp_DashboardURL g) "" || String.eqb (c_Target c) "" || String.eqb (c_Ref c) "" then ""
  else para +:+ "[Follow progress](" +:+ trimRightSlashes (gp_DashboardURL g) +:+ "/change?"
         +:+ encodeQuery [("target", c_Target c); ("ref", c_Ref c)] +:+ ").".

(** *** Receipts

    A receipt is the header of a feedback comment:
    [<!-- gauntlet:request:ID:SHA:DIGEST -->], a line and an empty line. *)
Record receipt := mkReceipt { rc_ID : bytes; rc_SHA : bytes; rc_Digest : bytes; rc_Header : bytes }.

Fixpoint spanBytes (ok : ascii -> bool) (b : bytes) : bytes * bytes :=
  match b with
  | a :: t => if ok a then let '(x, y) := spanBytes ok t in (a :: x, y) else ([], b)
  | [] => ([], [])
  end.

Definition isDigit (a : ascii) : bool := between 48 57 (byte_val a).
Definition isAlnum (a : ascii) : bool := isDigit a || between 65 90 (byte_val a) || between 97 122 (byte_val a).
Definition isLowHex (a : ascii) : bool := isDigit a || between 97 102 (byte_val a).

(** src/internal/review/progress.go:16-16 [receiptHeader] *)
Definition receiptHeader (body : string) : option receipt :=
  b ← strip_prefix (to_bytes "<!-- gauntlet:request:") (to_bytes body);
  let '(id, b) := spanBytes isDigit b in
  b ← strip_prefix (to_bytes ":") b;
  let '(sha, b) := spanBytes isAlnum b in
  b ← strip_prefix (to_bytes ":") b;
  let '(dig, b) := spanBytes isLowHex b in
  b ← strip_prefix (to_bytes (" -->" +:+ nl)) b;
  let '(_, b) := spanBytes (fun a => negb (Ascii.eqb a newline)) b in
  b ← strip_prefix (to_bytes para) b;
  if bool_decide (id = []) || bool_decide (sha = []) || negb (length dig =? 64)%nat then None
  else Some (mkReceipt id sha dig (take (String.length body - length b) (to_bytes body))).

(** src/internal/review/progress.go:56-75 [preserveReceipt] [None] where a newer request holds the comment. *)
Definition preserveReceipt (c : Candidate) (existing body : string) : option string :=
  match receiptHeader body with
  | Some _ => Some body
  | None =>
      match receiptHeader existing with
      | None => Some body
      | Some m =>
          if negb (String.eqb (of_bytes (rc_SHA m)) (c_SHA c)) then Some body else
          let kept := Some (of_bytes (rc_Header m) +:+ body) in
          if String.eqb (c_RequestID c) "" then kept else
          let '(currentID, _) := ParseInt (of_bytes (rc_ID m)) in
          let '(id, dig, _) := Cut (c_RequestID c) ":" in
          let '(resultID, ok) := ParseInt id in
          if negb ok || (resultID <? currentID) || ((currentID =? resultID) && negb (String.eqb dig (of_bytes (rc_Digest m))))
          then None else kept
      end
  end.

(** *** Writing comments *)

(** src/internal/review/instructions.go:49-64 [ownsComment] *)
Definition ownsComment (c : comment) : M bool :=
  if negb (gp_AppID g =? 0) then mret (bool_decide (cm_ViaApp c = Some (gp_AppID g))) else
  author ← get sc_author;
  (if String.eqb author "" then
     login ← call GetUser;
     if String.eqb login "" then fault "GitHub comment identity unavailable"
     else put (fun s => s <| sc_author := login |>)
   else mret tt) ;;
  author ← get sc_author;
  mret (negb (String.eqb (cm_User c) "") && String.eqb (cm_User c) author).

(** src/internal/review/feedback.go:143-172 [commentFeedback] The marked comments, latest first: whether one settles it. *)
Fixpoint updateComment (c : Candidate) (marker body : string) (latestFirst : list comment) : M (option string) :=
  match latestFirst with
  | [] => mret (Some body)
  | v :: rest =>
      if negb (contains marker (cm_Body v)) then updateComment c marker body rest else
      owned ← ownsComment v;
      if negb owned then updateComment c marker body rest else
      match (if String.eqb marker feedbackMarker then preserveReceipt c (cm_Body v) body else Some body) with
      | None => mret None
      | Some body =>
          if String.eqb (cm_Body v) body then mret None else
          outcome ← attempt (call (PatchComment (cm_ID v) body));
          match outcome with
          | inl _ => mret None
          | inr e => if isStatus 403 e || isStatus 404 e then updateComment c marker body rest else raise e
          end
      end
  end.

(** src/internal/review/feedback.go:124-175 [commentFeedback] *)
Definition commentFeedback (c : Candidate) (body marker : string) (allowClosed : bool) : M unit :=
  n ← lift (pullNumber (c_Ref c));
  p ← getPull n;
  if (negb (String.eqb (pr_State p) "open") && negb allowClosed) || negb (String.eqb (rf_SHA (pr_Head p)) (c_SHA c))
  then mret tt else
  comments ← pages (GetComments n);
  left ← updateComment c marker (body +:+ para +:+ marker) (rev comments);
  match left with
  | None => mret tt
  | Some body => call (PostComment n body)
  end.

(** src/internal/review/feedback.go:120-122 [feedback] *)
Definition feedback (c : Candidate) (body : string) (allowClosed : bool) : M unit :=
  commentFeedback c body feedbackMarker allowClosed.

(** src/internal/review/feedback.go:177-183 [admissionFeedback] *)
Definition admissionFeedback (p : pull) (target reason : string) : M unit :=
  let c := zeroCandidate <| c_Ref := slot target (pr_Number p) |> <| c_SHA := rf_SHA (pr_Head p) |> <| c_Target := target |> in
  logged (feedback c ("Gauntlet admission blocked: " +:+ safeMarkdown reason +:+ "." +:+ para
    +:+ "The request remains pending; gates are rechecked automatically." +:+ progressLink c) false).

(** src/internal/review/progress.go:36-45 [acknowledge] Whether a comment of ours starts with the receipt. *)
Fixpoint acknowledged (marker : string) (comments : list comment) : M bool :=
  match comments with
  | [] => mret false
  | c :: rest =>
      if negb (String.prefix (marker +:+ nl) (cm_Body c)) then acknowledged marker rest else
      owned ← ownsComment c;
      if owned : bool then mret true else acknowledged marker rest
  end.

(** src/internal/review/progress.go:32-54 [acknowledge] *)
Definition acknowledge (r : request) (target : string) (comments : list comment) : M unit :=
  let sha := rf_SHA (pr_Head (rs_PR r)) in
  let marker := "<!-- gauntlet:request:" +:+ pretty (rs_ID r) +:+ ":" +:+ sha +:+ ":" +:+ requestDigest r +:+ " -->" in
  done_ ← acknowledged marker comments;
  if done_ : bool then mret tt else
  let c := zeroCandidate <| c_Ref := slot target (pr_Number (rs_PR r)) |> <| c_Target := target |> <| c_SHA := sha |> in
  let url := pr_HTMLURL (rs_PR r) +:+ "#issuecomment-" +:+ pretty (rs_ID r) in
  let body :=
    if String.eqb (rs_Action r) "cancel"
    then marker +:+ nl +:+ "[Queue request](" +:+ url +:+ ") for revision `" +:+ sha +:+ "`." +:+ para
         +:+ "This PR's merge request was withdrawn."
    else marker +:+ nl +:+ "[Merge request](" +:+ url +:+ ") for revision `" +:+ sha +:+ "`." +:+ para
         +:+ "Request received; waiting for admission and verification. The request will be rechecked against current policy before landing." in
  feedback c (body +:+ progressLink c) false.

(** src/internal/review/instructions.go:15-24 [instructions] *)
Definition instructionsBody : string :=
  let bot := gp_Bot g in
  "This PR is managed by Gauntlet. To land it:" +:+ para
  +:+ "- Comment `@" +:+ bot +:+ " check` to see authorization and readiness requirements." +:+ nl
  +:+ "- Comment `@" +:+ bot +:+ " merge` to request this PR when it has no unlanded prerequisites." +:+ nl
  +:+ "- For a stack, explicitly use `@" +:+ bot +:+ " merge stack` to request the stack through this PR, `@" +:+ bot
  +:+ " merge-ready` for its ready prefix, or `@" +:+ bot +:+ " merge-prefix N` for the bottom N PRs." +:+ nl
  +:+ "- Comment `@" +:+ bot +:+ " cancel` to withdraw this PR's request." +:+ para
  +:+ "Gauntlet waits for policy requirements, verifies one squashed commit per PR on the target, and pushes the exact tested commit. Success closes the PR with a commit link; failure posts details here. Use Gauntlet commands instead of GitHub's merge button."
  +:+ para +:+ instructionsMarker.

(** src/internal/review/instructions.go:25-36 [instructions] The first marked comment of ours. *)
Fixpoint ownInstructions (comments : list comment) : M (option comment) :=
  match comments with
  | [] => mret None
  | c :: rest =>
      if negb (contains instructionsMarker (cm_Body c)) then ownInstructions rest else
      owned ← ownsComment c;
      if owned : bool then mret (Some c) else ownInstructions rest
  end.

(** src/internal/review/instructions.go:11-47 [instructions] *)
Definition instructions (p : pull) (comments : list comment) : M unit :=
  own ← ownInstructions comments;
  match own with
  | Some c => if String.eqb (cm_Body c) instructionsBody then mret tt else call (PatchComment (cm_ID c) instructionsBody)
  | None =>
      login ← call (CreateComment (pr_Number p) instructionsBody);
      put (fun s => s <| sc_author := login |>)
  end.

(** *** The latest request on a pull request *)

(** src/internal/review/policy.go:359-370 [commandFeedback] *)
Definition renderRequirements (d : Decision) : string :=
  String.concat "" (map (fun r =>
    nl +:+ "- " +:+ safeMarkdown (rq_Name r) +:+ ": **" +:+ (if rq_Satisfied r then "satisfied" else "blocked") +:+ "**"
    +:+ (if rq_Satisfied r then "" else " — " +:+ safeMarkdown (rq_Reason r))) (dc_Requirements d)).

(** src/internal/review/policy.go:375-393 [commandFeedback] The answer to a check that is allowed. *)
Definition checkFeedback (p : pull) (c : comment) : M string :=
  let branch := baseBranch p in
  let candidate := zeroCandidate <| c_Ref := slot (targetOf branch) (pr_Number p) |> <| c_Target := targetOf branch |>
                     <| c_Source := "github" |> <| c_SHA := rf_SHA (pr_Head p) |> in
  let r := zeroRequest <| rs_PR := p |> <| rs_ID := cm_ID c |> <| rs_Action := "check" |> <| rs_Requester := cm_User c |> in
  outcome ← attempt (readiness p candidate r branch false []);
  mret (match outcome with
        | inr e => para +:+ "Readiness unavailable: " +:+ safeMarkdown (errText e)
        | inl (decision, _) =>
            renderRequirements decision +:+ para +:+
            (if dc_Allow decision
             then "This PR is authorized and ready. Stack prerequisites are checked when a merge is requested. This check does not enqueue a merge."
             else "Authorized; waiting for readiness requirements.")
        end).

(** src/internal/review/policy.go:356-395 [commandFeedback] *)
Definition commandFeedback (p : pull) (c : comment) (parsed : parsedCommand) (decision : Decision) : M unit :=
  more ← if dc_Allow decision && String.eqb (pc_Action parsed) "check" then checkFeedback p c else mret "";
  let body := "Gauntlet policy for request " +:+ pretty (cm_ID c) +:+ " (" +:+ pc_Action parsed +:+ "), revision `"
    +:+ rf_SHA (pr_Head p) +:+ "`:" +:+ nl +:+ (if dc_Allow decision then "" else nl +:+ "Command denied.")
    +:+ renderRequirements decision +:+ more in
  commentFeedback (zeroCandidate <| c_Ref := slot "policy" (pr_Number p) |> <| c_SHA := rf_SHA (pr_Head p) |>) body
    "<!-- gauntlet:policy -->" false.

(** src/internal/review/github.go:296-296 [latestRequest] *)
Definition requestOf (p : pull) (c : comment) (parsed : parsedCommand) : request :=
  mkRequest (pc_SkipChecks parsed) (pc_OverridePause parsed) (cm_User c) (pc_Reason parsed) (pc_Urgent parsed)
    (pc_Priority parsed) (pc_Preempt parsed) p (cm_ID c) (pc_Action parsed) (pc_Count parsed) false.

(** src/internal/review/github.go:274-282 [latestRequest] Who wrote a comment: asked once per scan. *)
Definition principalOf (known : gmap string Principal) (login : string) : M (Principal * gmap string Principal) :=
  match known !! login with
  | Some who => mret (who, known)
  | None => who ← principal login; mret (who, <[login := who]> known)
  end.

(** src/internal/review/github.go:265-298 [latestRequest] One comment. *)
Definition considerComment (p : pull) (open : list pull) (reply : bool) (acc : request * gmap string Principal) (c : comment)
  : M (request * gmap string Principal) :=
  match parseCommand (cm_Body c) (gp_Bot g) with
  | None => mret acc
  | Some parsed =>
      let '(result, known) := acc in
      w ← principalOf known (cm_User c);
      let '(who, known) := w in
      decision ← commandDecision p c parsed who open;
      when (reply && (negb (dc_Allow decision) || String.eqb (pc_Action parsed) "check"))
           (commandFeedback p c parsed decision) ;;
      mret (if negb (String.eqb (pc_Action parsed) "check") && dc_Allow decision && (rs_ID result <? cm_ID c)
            then requestOf p c parsed else result, known)
  end.

(** src/internal/review/github.go:254-310 [latestRequest] *)
Definition latestRequest (p : pull) (known : gmap string Principal) (open : list pull) (reply : bool) (target : string)
  : M (request * gmap string Principal) :=
  cs ← pages (GetComments (pr_Number p));
  let isOpen := String.eqb (pr_State p) "open" in
  when (reply && isOpen) (logged (instructions p cs)) ;;
  acc ← foldM (considerComment p open reply) cs (zeroRequest, known);
  let '(result, known) := acc in
  when (reply && negb (rs_ID result =? 0) && isOpen) (logged (acknowledge result target cs)) ;;
  mret (if existsb (fun c => contains (stackRejectionMarker (rs_ID result)) (cm_Body c)) cs
        then result <| rs_Notified := true |> else result, known).

(** *** Candidates *)

(** src/internal/review/github.go:381-386 [version] *)
Definition version (c : Candidate) : string :=
  digest [JStr (c_SHA c); JStr (c_SourceBase c); JStr (c_Message c); JStr (c_ReviewURL c); JStr (c_RequestID c)].

Definition boolText (b : bool) : string := if b then "true" else "false".

Definition emergency (r : request) : bool := rs_SkipChecks r || rs_OverridePause r.

(** src/internal/review/github.go:557-570 [scan] *)
Definition candidateOf (r : request) (p : pull) (target previous sourceBase : string) : Candidate :=
  let c := mkCandidate "" (rs_SkipChecks r) (rs_OverridePause r) (rs_Requester r) (rs_Reason r) "" (requestIdentity r) 0
    (slot target (pr_Number p)) target (pr_User p) ("pr-" +:+ pretty (pr_Number p)) (rf_SHA (pr_Head p)) "github" sourceBase
    (pr_Title p +:+ " (#" +:+ pretty (pr_Number p) +:+ ")" +:+ para +:+ pr_Body p) (pr_HTMLURL p) "" previous
    (rs_Urgent r) (rs_Priority r) (rs_Preempt r) in
  let v := version c +:+ (if rs_Urgent r then ":urgent" else "") in
  if emergency r
  then c <| c_Version := v +:+ ":" +:+ sha256 (boolText (rs_SkipChecks r) +:+ ":" +:+ boolText (rs_OverridePause r) +:+ ":" +:+ rs_Reason r) |>
         <| c_EmergencyID := pretty (rs_ID r) |>
  else c <| c_Version := v |>.

(** *** Frozen intents *)

(** src/internal/review/intent.go:95-110 [freezeIntent] Reading the file. *)
Definition readIntents : M intentState :=
  problem ← ask (fg_readFault forge) ReadIntents;
  file ← get sc_file;
  match problem, file with
  | Some err, _ => fault err
  | None, NoFile => mret (mkIntents 1 0 ∅)
  | None, Holds s =>
      if (2097152 <? intentsLen s) || negb (it_Version s =? 1) then fault "invalid GitHub emergency intent state" else mret s
  | None, Unreadable => fault "invalid GitHub emergency intent state"
  end.

(** src/internal/statefile/statefile.go:9-36 [Write] An error may come after the file was replaced. *)
Definition writeIntents (s : intentState) : M unit :=
  problem ← ask (fg_writeFault forge) WroteIntents;
  match problem with
  | None => put (fun sc => sc <| sc_file := Holds s |>)
  | Some (err, replaced) =>
      when replaced (put (fun sc => sc <| sc_file := Holds s |>)) ;; fault err
  end.

(** src/internal/review/intent.go:125-136 [freezeIntent] The revisions are, in order, among the old ones. *)
Fixpoint subsequence (revs old : list Revision) : bool :=
  match revs with
  | [] => true
  | rev :: more =>
      (fix seek (old : list Revision) : bool :=
         match old with
         | [] => false
         | o :: rest => if String.eqb (rv_Ref o) (rv_Ref rev) then bool_decide (o = rev) && subsequence more rest else seek rest
         end) old
  end.

(** src/internal/review/intent.go:144-154 [freezeIntent] The old revisions no longer present have landed. *)
Definition goneLanded (branch : string) (present : list Revision) (old : list Revision) : M unit :=
  foldM (fun _ rev =>
    if bool_decide (rv_Ref rev ∈ map rv_Ref present) then mret tt else
    answer ← ask (fun log => fg_landed forge log branch (rv_Ref rev) (rv_SHA rev)) (AskedLanded branch (rv_Ref rev) (rv_SHA rev));
    landed ← lift answer;
    if landed : bool then mret tt else fault "emergency prefix changed; post a new request") old tt.

(** src/internal/review/intent.go:137-143 [freezeIntent] A branch whose target it is. *)
Definition branchOf (target : string) : M string :=
  let keys := fst <$> map_to_list (gp_Targets g) in
  keys ← ask (fun log => fg_order forge log keys) (Ranged keys);
  mret (default "" (List.find (fun b => bool_decide (gp_Targets g !! b = Some target)) keys)).

(** src/internal/review/intent.go:118-157 [freezeIntent] A request frozen before. *)
Definition refreeze (target : string) (old intent : frozenIntent) : M unit :=
  if bool_decide (old = intent) then mret tt else
  if negb (String.eqb (fz_Reason old) (fz_Reason intent)) || negb (Bool.eqb (fz_SkipChecks old) (fz_SkipChecks intent))
     || negb (Bool.eqb (fz_OverridePause old) (fz_OverridePause intent))
     || (length (fz_Revisions old) <=? length (fz_Revisions intent))%nat
  then fault "emergency revisions or request changed; post a new request" else
  if negb (subsequence (fz_Revisions intent) (fz_Revisions old)) then fault "emergency revision changed; post a new request" else
  branch ← branchOf target;
  goneLanded branch (fz_Revisions intent) (fz_Revisions old).

(** The least key. *)
Definition leastID (m : gmap Z frozenIntent) : option Z :=
  foldr (fun id acc => Some (match acc with None => id | Some x => Z.min id x end)) None (map fst (map_to_list m)).

(** src/internal/review/intent.go:158-174 [freezeIntent] Dropping the oldest until the rest fits; [fuel] is
    the number of requests. *)
Fixpoint trimIntents (fuel : nat) (id : Z) (s : intentState) : option intentState :=
  if (size (it_Requests s) <=? 500)%nat && (intentsLen s <=? 1048576) then Some s else
  match fuel, leastID (it_Requests s) with
  | S fuel, Some oldest =>
      let s := s <| it_Floor := oldest |> <| it_Requests ::= delete oldest |> in
      if id <=? oldest then None else trimIntents fuel id s
  | _, _ => None
  end.

(** src/internal/review/intent.go:114-117 [freezeIntent] *)
Definition intentOf (r : request) (members : list Candidate) : frozenIntent :=
  mkFrozen (map (fun c => mkRevision (c_Ref c) (c_SHA c) (c_Version c)) members) (rs_Reason r) (rs_SkipChecks r) (rs_OverridePause r).

(** src/internal/review/intent.go:89-176 [freezeIntent] *)
Definition freezeIntent (r : request) (members : list Candidate) : M unit :=
  if (64 <? length members)%nat then fault "emergency prefix exceeds 64 changes" else
  state ← readIntents;
  if rs_ID r <=? it_Floor state then fault "emergency request expired; post a new request" else
  let intent := intentOf r members in
  match it_Requests state !! rs_ID r with
  | Some old => refreeze (match members with c :: _ => c_Target c | [] => "" end) old intent
  | None =>
      let state := state <| it_Requests ::= insert (rs_ID r) intent |> in
      match trimIntents (size (it_Requests state)) (rs_ID r) state with
      | None => fault "emergency request too large or expired; post a new request"
      | Some state => writeIntents state
      end
  end.

(** *** The scan *)

(** src/internal/review/github.go:410-427 [scan] One pull request: it is active if open, and so is what its
    native stack holds; [native] has the stacks by the numbers of their members. *)
Definition nativeStep (open : list pull) (acc : gset Z * gmap Z (list pull * string) * gset Z) (p : pull)
  : M (gset Z * gmap Z (list pull * string) * gset Z) :=
  let '(active, native, seen) := acc in
  if negb (String.eqb (pr_State p) "open") then mret acc else
  let active := {[pr_Number p]} ∪ active in
  match pr_Stack p with
  | None => mret (active, native, seen)
  | Some s =>
      if bool_decide (ps_Number s ∈ seen) then mret (active, native, seen) else
      st ← stack p open true;
      mret (list_to_set (map pr_Number (fst st)) ∪ active,
            foldl (fun m member => <[pr_Number member := st]> m) native (fst st),
            {[ps_Number s]} ∪ seen)
  end.

(** src/internal/review/github.go:403-427 [scan] *)
Definition nativeStacks (open : list pull) : M (gset Z * gmap Z (list pull * string)) :=
  acc ← foldM (nativeStep open) open (∅, ∅, ∅);
  mret (fst acc).

(** src/internal/review/github.go:430-443 [scan] One pass over the pull requests: the parents of active ones. *)
Definition activatePass (open : list pull) (active : gset Z) : gset Z :=
  foldl (fun active p =>
    if negb (bool_decide (pr_Number p ∈ active)) then active
    else if bool_decide (is_Some (gp_Targets g !! rf_Ref (pr_Base p))) then active
    else foldl (fun active parent =>
           if negb (bool_decide (pr_Number parent ∈ active)) && String.eqb (rf_Ref (pr_Head parent)) (rf_Ref (pr_Base p))
              && repoIs (pr_Head parent)
           then {[pr_Number parent]} ∪ active else active) active open) active open.

(** src/internal/review/github.go:428-444 [scan] Until a pass changes nothing; each other pass activates one. *)
Fixpoint activate (fuel : nat) (open : list pull) (active : gset Z) : gset Z :=
  match fuel with
  | O => active
  | S fuel => let next := activatePass open active in
              if bool_decide (next = active) then active else activate fuel open next
  end.

(** src/internal/review/github.go:445-447 [scan] What the scan knows of the pull requests by
    number, before it looks for requests. *)
Record Found := mkFound { fd_managed : gmap Z bool; fd_branches : gmap Z string; fd_unresolved : gmap Z Err }.

(** src/internal/review/github.go:445-468 [scan] *)
Definition classify (open : list pull) (active : gset Z) (native : gmap Z (list pull * string)) : M Found :=
  foldM (fun found p =>
    if negb (bool_decide (pr_Number p ∈ active)) then mret found else
    branch ← match native !! pr_Number p with
             | Some st => mret (inl (snd st))
             | None => outcome ← attempt (stack p open false);
                       mret (match outcome with inl st => inl (snd st) | inr e => inr e end)
             end;
    match branch with
    | inr e => mret (mkFound (fd_managed found) (fd_branches found) (<[pr_Number p := e]> (fd_unresolved found)))
    | inl branch =>
        outcome ← attempt (scope p branch);
        match outcome with
        | inr e => fault ("PR #" +:+ pretty (pr_Number p) +:+ " scope: " +:+ errText e)
        | inl decision =>
            mret (mkFound (<[pr_Number p := dc_Allow decision && negb (String.eqb (targetOf branch) "")]> (fd_managed found))
                    (<[pr_Number p := branch]> (fd_branches found)) (fd_unresolved found))
        end
    end) open (mkFound ∅ ∅ ∅).

Definition managed (found : Found) (n : Z) : bool := default false (fd_managed found !! n).

(** src/internal/review/github.go:469-485 [scan] *)
Definition collectRequests (fetch : bool) (open : list pull) (active : gset Z) (found : Found) : M (list request) :=
  acc ← foldM (fun (acc : list request * gmap string Principal) p =>
    let '(requests, known) := acc in
    let n := pr_Number p in
    if negb (bool_decide (n ∈ active)) || (negb (managed found n) && negb (bool_decide (is_Some (fd_unresolved found !! n))))
    then mret acc else
    r ← latestRequest p known open (fetch && managed found n) (targetOf (default "" (fd_branches found !! n)));
    let '(r, known) := r in
    if rs_ID r =? 0 then mret (requests, known) else
    match fd_unresolved found !! n with
    | Some e => raise e
    | None => mret (requests ++ [r], known)
    end) open ([], ∅);
  mret (fst acc).

(** src/internal/review/github.go:529-531 [scan] What the members of a stack let in so far. *)
Record Prefix := mkPrefix { px_cands : list Candidate; px_previous : string; px_sourceBase : string; px_remaining : Z }.

(** src/internal/review/github.go:571-590 [scan] Whether a member is ready, and what blocks it if an emergency
    may override that. *)
Definition judge (r : request) (p : pull) (c : Candidate) (branch : string) (bypass : bool) (members : list pull)
  : M (bool * string * string * Input) :=
  answer ← readiness p c r branch (rs_SkipChecks r || bypass) members;
  let '(decision, input) := answer in
  let reason := Policy.Reason decision in
  if dc_Allow decision then mret (true, "", reason, input)
  else if gp_EmergencyEnabled g && onlyCheckFailures decision then mret (true, reason, reason, input)
  else mret (false, "", reason, input).

(** src/internal/review/github.go:529-605 [scan] The members of a request's stack, bottom first. *)
Fixpoint walkMembers (fetch bypass : bool) (found : Found) (r : request) (target branch : string) (all members : list pull)
  (x : Prefix) : M (list Candidate) :=
  match members with
  | [] => mret (px_cands x)
  | p :: rest =>
      let keep := if String.eqb (rs_Action r) "merge-ready" then px_cands x else [] in
      if negb (managed found (pr_Number p)) then
        when (negb (String.eqb (rs_Action r) "merge-ready") && fetch)
             (admissionFeedback (rs_PR r) target ("PR #" +:+ pretty (pr_Number p) +:+ " is outside Gauntlet's scope")) ;;
        mret keep
      else if negb (String.eqb (pr_State p) "open") then
        let s := slot target (pr_Number p) in
        let sha := rf_SHA (pr_Head p) in
        answer ← ask (fun log => fg_landed forge log branch s sha) (AskedLanded branch s sha);
        landed ← lift answer;
        if landed : bool
        then walkMembers fetch bypass found r target branch all rest (mkPrefix (px_cands x) (px_previous x) sha (px_remaining x))
        else mret []
      else
        let c := candidateOf r p target (px_previous x) (px_sourceBase x) in
        verdict ← judge r p c branch bypass all;
        let '(ready, blocked, reason, input) := verdict in
        if negb ready then when fetch (admissionFeedback p target reason) ;; mret keep
        else
          put (fun s => s <| sc_inputs ::= insert (c_Ref c) input |>) ;;
          let cands := px_cands x ++ [c <| c_AdmissionBlocked := blocked |>] in
          let remaining := if String.eqb (rs_Action r) "merge-prefix" then px_remaining x - 1 else px_remaining x in
          if (String.eqb (rs_Action r) "merge" && (pr_Number p =? pr_Number (rs_PR r)))
             || (String.eqb (rs_Action r) "merge-prefix" && (remaining =? 0))
          then mret cands
          else walkMembers fetch bypass found r target branch all rest (mkPrefix cands (c_Ref c) (c_SHA c) remaining)
  end.

(** src/internal/review/github.go:521-521 [scan] *)
Definition notAlone (r : request) : string :=
  "Cannot merge PR #" +:+ pretty (pr_Number (rs_PR r)) +:+ " alone: it has unlanded prerequisite PRs. Use `@" +:+ gp_Bot g
  +:+ " merge stack` to request the stack through this PR; all members must be ready." +:+ para +:+ stackRejectionMarker (rs_ID r).

(** src/internal/review/github.go:511-528 [scan] The members a request is about: [None] where it is rejected. *)
Definition requestedMembers (fetch : bool) (r : request) (target : string) (members : list pull) : M (option (list pull)) :=
  if negb (oneOf (rs_Action r) ["merge"; "merge-through"]) then mret (Some members) else
  match find_index (fun p => pr_Number p =? pr_Number (rs_PR r)) members with
  | None => fault ("PR #" +:+ pretty (pr_Number (rs_PR r)) +:+ " is absent from its stack")
  | Some (end_, _) =>
      if String.eqb (rs_Action r) "merge" && existsb (fun p => String.eqb (pr_State p) "open") (take end_ members) then
        when (fetch && negb (rs_Notified r))
             (feedback (zeroCandidate <| c_Ref := slot target (pr_Number (rs_PR r)) |> <| c_SHA := rf_SHA (pr_Head (rs_PR r)) |>)
                (notAlone r) false) ;;
        mret None
      else mret (Some (take (S end_) members))
  end.

(** src/internal/review/github.go:606-616 [scan] The prefix a request lets in, frozen if it is an emergency. *)
Definition admitPrefix (fetch : bool) (r : request) (target : string) (cands : list Candidate) : M (list Candidate) :=
  if emergency r && (0 <? length cands)%nat then
    outcome ← attempt (freezeIntent r cands);
    match outcome with
    | inr e => when fetch (admissionFeedback (rs_PR r) target (errText e)) ;; mret []
    | inl _ => mret (map (fun c => c <| c_RequestedCount := Z.of_nat (length cands) |>) cands)
    end
  else mret cands.

(** src/internal/review/github.go:488-620 [scan] One request. *)
Definition applyRequest (fetch bypass : bool) (open : list pull) (native : gmap Z (list pull * string)) (found : Found)
  (selected : gmap string Candidate) (r : request) : M (gmap string Candidate) :=
  if emergency r && (String.eqb (rs_Reason r) "" || String.eqb (gp_IntentPath g) "") then mret selected else
  st ← match native !! pr_Number (rs_PR r) with
       | Some st => mret st
       | None => stack (rs_PR r) open (negb (oneOf (rs_Action r) ["merge"; "merge-through"; "cancel"]))
       end;
  let '(members, branch) := st in
  match gp_Targets g !! branch with
  | None => mret selected
  | Some target =>
      if String.eqb (rs_Action r) "cancel" then mret (delete (slot target (pr_Number (rs_PR r))) selected) else
      wanted ← requestedMembers fetch r target members;
      match wanted with
      | None => mret selected
      | Some members =>
          cands ← walkMembers fetch bypass found r target branch members members (mkPrefix [] "" "" (rs_Count r));
          cands ← admitPrefix fetch r target cands;
          mret (foldl (fun m c => <[c_Ref c := c]> m) selected cands)
      end
  end.

(** src/internal/review/github.go:621-639 [scan] Those whose prerequisite is selected, with their revisions fetched. *)
Definition deliver (fetch : bool) (selected : gmap string Candidate) : M (list Candidate) :=
  let keys := fst <$> map_to_list selected in
  keys ← ask (fun log => fg_order forge log keys) (Ranged keys);
  foldM (fun out key =>
    match selected !! key with
    | None => mret out
    | Some c =>
        if negb (String.eqb (c_DependsOn c) "") && negb (bool_decide (is_Some (selected !! c_DependsOn c))) then mret out else
        when fetch (
          number ← lift (pullNumber (c_Ref c));
          let source := "refs/pull/" +:+ pretty number +:+ "/head" in
          let dest := "refs/gauntlet/reviews/github/" +:+ pretty number in
          problem ← ask (fun log => fg_fetch forge log source dest (c_SHA c)) (Fetched source dest (c_SHA c));
          match problem with None => mret tt | Some err => fault err end) ;;
        mret (out ++ [c])
    end) keys [].

Definition byRef (a b : Candidate) : bool := String.ltb (c_Ref a) (c_Ref b).

(** src/internal/review/github.go:391-642 [scan] The caches are new with each scan. *)
Definition scan (fetch bypass : bool) : M (list Candidate) :=
  put (fun s => s <| sc_facts := ∅ |> <| sc_paths := ∅ |> <| sc_perms := ∅ |> <| sc_inputs := ∅ |>) ;;
  open ← pages GetPulls;
  ns ← nativeStacks open;
  let '(seeds, native) := ns in
  let active := activate (S (length open)) open seeds in
  found ← classify open active native;
  requests ← collectRequests fetch open active found;
  selected ← foldM (applyRequest fetch bypass open native found) (sort_by (fun a b => rs_ID a <? rs_ID b) requests) ∅;
  out ← deliver fetch selected;
  mret (sort_by byRef out).

(** *** What the queue asks *)

(** src/internal/review/policy.go:327-336 [ValidatePolicyInputs] *)
Definition stillAdmitted (current : list Candidate) (c : Candidate) : bool :=
  existsb (fun n => String.eqb (c_AdmissionBlocked n) "" && String.eqb (c_Ref n) (c_Ref c) && String.eqb (c_SHA n) (c_SHA c)
                    && String.eqb (c_Version n) (c_Version c)) current.

(** src/internal/review/policy.go:322-341 [ValidatePolicyInputs] Without the invalidation it defers. *)
Definition ValidatePolicyInputs (members : list Candidate) (skip : bool) : M (gmap string Input) :=
  current ← scan false skip;
  inputs ← get sc_inputs;
  if forallb (stillAdmitted current) members then mret inputs
  else fault "review revision, request, dependency, or policy changed".

(** src/internal/review/github.go:684-687 [Validate] *)
Definition Validate (c : Candidate) : M unit := ValidatePolicyInputs [c] false ;; mret tt.

(** src/internal/review/github.go:758-761 [ValidateEmergency] *)
Definition ValidateEmergency (c : Candidate) : M unit := ValidatePolicyInputs [c] true ;; mret tt.

(** src/internal/review/github.go:713-724 [Landed] Whether a comment of ours announces the landing. *)
Fixpoint announced (marker : string) (comments : list comment) (found : bool) : M bool :=
  match comments with
  | [] => mret found
  | v :: rest =>
      if contains marker (cm_Body v) then owned ← ownsComment v; announced marker rest (found || owned)
      else announced marker rest found
  end.

Definition beforePull (url : string) : string := let '(x, _, _) := Cut url "/pull/" in x.

Definition landedMarker (commit : string) : string := "<!-- gauntlet:landed:" +:+ commit +:+ " -->".

(** src/internal/review/github.go:726-731 [Landed] *)
Definition landedBody (c : Candidate) (commit : string) : string :=
  let url := TrimSuffix (beforePull (c_ReviewURL c)) "/" +:+ "/commit/" +:+ commit in
  let short := if (12 <? String.length commit)%nat then String.substring 0 12 commit else commit in
  "Landed by Gauntlet as [" +:+ short +:+ "](" +:+ url +:+ "), from revision `" +:+ c_SHA c +:+ "`." +:+ para
  +:+ "The exact constructed commit was pushed to the target. Gauntlet preserves contributor branches; GitHub’s merge API would create another commit, so this PR is closed with a landing link."
  +:+ para +:+ landedMarker commit.

(** src/internal/review/github.go:698-740 [Landed] Without the invalidation it defers. *)
Definition Landed (c : Candidate) (commit : string) : M unit :=
  n ← lift (pullNumber (c_Ref c));
  p ← getPull n;
  cs ← pages (GetComments n);
  found ← announced (landedMarker commit) cs false;
  when (negb found) (feedback c (landedBody c commit +:+ progressLink c) true) ;;
  if String.eqb (pr_State p) "open" && String.eqb (rf_SHA (pr_Head p)) (c_SHA c) then call (ClosePull n) else mret tt.

(** src/internal/review/github.go:745-751 [Request] *)
Definition requestBody (action : string) (count : Z) : string :=
  (if String.eqb action "merge-through" then "@" +:+ gp_Bot g +:+ " merge stack" else "@" +:+ gp_Bot g +:+ " " +:+ action)
  +:+ (if String.eqb action "merge-prefix" then " " +:+ pretty count else "").

(** src/internal/review/github.go:742-756 [Request] *)
Definition Request (number : Z) (action : string) (count : Z) : M unit :=
  let body := requestBody action count in
  if String.eqb (fst (Command body (gp_Bot g))) "" then fault "invalid queue command" else call (PostComment number body).

(** src/internal/review/feedback.go:89-104 [feedbackSync] A failed check. *)
Definition checkText (runURL : string) (r : CheckResult) : string :=
  if negb (bool_decide (is_Some (r_Err r))) && negb (bool_decide (r_Status r = CheckFailed)) then "" else
  let output := r_Output r in
  let output := if (6000 <? String.length output)%nat then String.substring (String.length output - 6000) 6000 output else output in
  para +:+ "**" +:+ safeMarkdown (r_Name r) +:+ "**" +:+ para +:+ "<pre>" +:+ safeMarkdown output +:+ "</pre>"
  +:+ (if negb (String.eqb runURL "") && negb (String.eqb (r_LogPath r) "")
       then para +:+ "[Full log](" +:+ runURL +:+ "/log/" +:+ pathEscape (r_Name r) +:+ ")." else "")
  +:+ (match r_Err r with Some e => para +:+ "Infrastructure error: " +:+ safeMarkdown e | None => "" end).

(** src/internal/review/feedback.go:76-107 [feedbackSync] *)
Definition failureText (c : Candidate) (rec : RunRecord) : string :=
  let batch := negb (String.eqb (rr_BatchID rec) "") in
  let runID := if batch then rr_BatchID rec else rr_RunID rec in
  let runURL := if String.eqb (gp_DashboardURL g) "" || String.eqb runID "" then ""
                else trimRightSlashes (gp_DashboardURL g) +:+ "/run/" +:+ pathEscape runID in
  "Gauntlet could not land this revision (`" +:+ c_SHA c +:+ "`)." +:+ para +:+ safeMarkdown (rr_Detail rec)
  +:+ (if batch then para +:+ "This was a batch failure. Attribution to this PR is **unconfirmed**; changes will be checked separately." else "")
  +:+ (if String.eqb runURL "" then "" else para +:+ "[Run and failure details](" +:+ runURL +:+ ").")
  +:+ String.concat "" (map (checkText runURL) (rr_Checks rec))
  +:+ (if String.eqb (rr_MergeSHA rec) "" then "" else para +:+ "Constructed revision: `" +:+ rr_MergeSHA rec +:+ "`.").

(** src/internal/review/feedback.go:71-73 [feedbackSync] *)
Definition landedText (c : Candidate) (rec : RunRecord) : string :=
  "Landed by Gauntlet as [" +:+ rr_MergeSHA rec +:+ "](" +:+ beforePull (c_ReviewURL c) +:+ "/commit/" +:+ rr_MergeSHA rec
  +:+ ")." +:+ para +:+ safeMarkdown (rr_Detail rec) +:+ para +:+ landedMarker (rr_MergeSHA rec).

(** src/internal/review/feedback.go:59-109 [feedbackSync] *)
Definition feedbackSync (ev : Event) : M unit :=
  let c := e_Candidate ev in
  if negb (String.eqb (c_Source c) "github") then mret tt else
  match e_Record ev with
  | None =>
      if bool_decide (e_Kind ev = EventTrialClean)
      then feedback c ("Gauntlet is verifying this revision on the proposed target history." +:+ progressLink c) false
      else mret tt
  | Some rec =>
      if bool_decide (rr_Outcome rec = OutcomeLanded)
      then feedback c (landedText c rec +:+ progressLink c) true
      else feedback c (failureText c rec +:+ progressLink c) false
  end.

(** src/internal/review/feedback.go:14-33 [Feedback] The queue of 128 events, once started: whether the event is
    worth a comment, and whether there is room. *)
Definition Feedback (queue : list Event) (ev : Event) : list Event * option string :=
  if (bool_decide (e_Record ev = None) && negb (bool_decide (e_Kind ev = EventTrialClean)))
     || negb (String.eqb (c_Source (e_Candidate ev)) "github") then (queue, None)
  else if (length queue <? 128)%nat then (queue ++ [ev], None) else (queue, Some "review feedback queue full").
End GitHub.

(** ** The snapshot served between polls

    A poll is two critical sections of [Candidates] around a scan, between
    which webhooks and other calls may invalidate what it will find. *)

(** src/internal/review/github.go:65-69 [GitHub] Instants are nanoseconds, 0 the zero time. *)
Record Poll := mkPoll { po_generation : Z; po_cached : list Candidate; po_inputs : gmap string Input; po_nextPoll : Z }.

(** src/internal/review/github.go:644-653 [Invalidate] The generation is a uint64. *)
Definition Invalidate (po : Poll) : Poll := mkPoll ((po_generation po + 1) mod 2 ^ 64) [] (po_inputs po) 0.

(** src/internal/review/github.go:655-663 [Candidates] The snapshot, or the generation to scan for. *)
Definition beginPoll (now : Z) (po : Poll) : list Candidate + Z :=
  if now <? po_nextPoll po then inl (po_cached po) else inr (po_generation po).

(** src/internal/review/github.go:664-682 [Candidates] *)
Definition endPoll (interval now generation : Z) (result : (list Candidate * gmap string Input) + string) (po : Poll)
  : (list Candidate + string) * Poll :=
  match result with
  | inr err => (inr err, mkPoll (po_generation po) [] (po_inputs po) 0)
  | inl (current, inputs) =>
      (inl current,
       if generation =? po_generation po
       then mkPoll (po_generation po) current inputs (now + interval)
       else mkPoll (po_generation po) (po_cached po) inputs (po_nextPoll po))
  end.

(** src/internal/review/policy.go:312-321 [PolicyInput] *)
Definition PolicyInput (po : Poll) (c : Candidate) : Input + string :=
  match po_inputs po !! c_Ref c with
  | Some input =>
      match in_Candidate input with
      | FullCandidate _ _ v _ _ _ _ => if String.eqb v (c_Version c) then inl input else inr "policy intake snapshot unavailable"
      | BriefCandidate _ => inr "policy intake snapshot unavailable"
      end
  | None => inr "policy intake snapshot unavailable"
  end.

(** ** Webhooks *)

(** A delivery as it arrives: its method, its body if it could be read, and its headers. *)
Record Delivery := mkDelivery { dv_Method : string; dv_Body : option string; dv_Signature : string; dv_Event : string }.

(** src/internal/review/webhook.go:14-64 [Webhook] The status of the reply, and whether the snapshot is dropped.
    [hexDecode] is the library's decoder, [mac] the keyed digest, [repository] what JSON says. *)
Definition Webhook (hexDecode : string -> option string) (mac : string -> string -> string) (repository : string -> option string)
  (EqualFold : string -> string -> bool) (repo secret : string) (r : Delivery) : Z * bool :=
  if negb (String.eqb (dv_Method r) "POST") then (405, false)
  else if String.eqb secret "" then (503, false) else
  match dv_Body r with
  | None => (413, false)
  | Some body =>
      let hex := match strip_prefix (to_bytes "sha256=") (to_bytes (dv_Signature r)) with Some t => of_bytes t | None => dv_Signature r end in
      match hexDecode hex with
      | None => (401, false)
      | Some signature =>
          if negb (String.prefix "sha256=" (dv_Signature r)) || negb (String.eqb signature (mac secret body)) then (401, false) else
          match repository body with
          | None => (400, false)
          | Some name =>
              if String.eqb (dv_Event r) "ping" then (204, false)
              else if negb (EqualFold name repo) then (400, false)
              else (204, true)
          end
      end
  end.
