(* ===== verification/ReviewSpec.v ===== *)
(** What the intake of pull requests guarantees (Review.v), for every forge: who may let a
    revision in, what an emergency freezes, what is served between polls, and what
    untrusted text can do in a comment. *)
From S2P Require Import Prelude GoString Core Daemon Policy Flaky DaemonConfig Reconcile Review.
From Stdlib Require Import Ascii.

Open Scope string_scope.
Open Scope list_scope.
Open Scope Z_scope.

Section Spec.
Context {Q V : Type} (lib : RegoLib Input Q V).
Context (EqualFold : string -> string -> bool) (sha256 : string -> string) (digest : list JVal -> string).
Context (pathEscape : string -> string) (encodeQuery : list (string * string) -> string).
Context (intentsLen : intentState -> Z) (forge : Forge) (g : GitHubParams Q).

(** ** Programs between two logs

    [start] is the log a scan begins with and [stop] the log it ends with. What the
    forge was asked in between is what it told the scan. *)
Section Between.
Context (start stop : list Question).

Definition told {A} (r : Api A) (a : A) : Prop :=
  exists log token code body, start `prefix_of` log /\ (log ++ [Sent token r]) `prefix_of` stop /\
    fg_send forge A log token r = Replied code body /\ code < 300 /\ decoded r body = inl a.

(** The permission of a login, as the forge told it; nobody's is "none". *)
Definition permTold (login perm : string) : Prop :=
  told (GetPermission login) perm \/
  (perm = "none" /\ exists log token body, start `prefix_of` log /\ (log ++ [Sent token (GetPermission login)]) `prefix_of` stop /\
     fg_send forge string log token (GetPermission login) = Replied 404 body).

Definition permsOK (s : Scan) : Prop := forall l p, sc_perms s !! l = Some p -> permTold l p.

(** A program only adds to the log and keeps what it remembers of permissions true. *)
Definition keeps {A} (m : M A) : Prop := forall s, start `prefix_of` sc_log s ->
  sc_log s `prefix_of` sc_log (snd (m s)) /\ (permsOK s -> sc_log (snd (m s)) `prefix_of` stop -> permsOK (snd (m s))).

Definition triple {A} (m : M A) (post : A -> Prop) : Prop := forall s a s',
  start `prefix_of` sc_log s -> permsOK s -> m s = (inl a, s') -> sc_log s' `prefix_of` stop -> post a.

(** *** Rules *)

Lemma keeps_ret {A} (a : A) : keeps (mret a).
Proof. by intros s H. Qed.
Lemma keeps_raise {A} e : keeps (raise e : M A).
Proof. by intros s H. Qed.
Lemma keeps_get {A} (f : Scan -> A) : keeps (get f).
Proof. by intros s H. Qed.
Lemma keeps_lift {A} (x : A + string) : keeps (lift x).
Proof. intros s H. by destruct x. Qed.

Lemma keeps_bind {A B} (m : M A) (k : A -> M B) : keeps m -> (forall a, keeps (k a)) -> keeps (m ≫= k).
Proof.
  intros Hm Hk s Hs. unfold mbind, M_bind. specialize (Hm s Hs) as [Hg Hp]. destruct (m s) as [[a|e] s1]; cbn in *; [|done].
  specialize (Hk a s1 (transitivity Hs Hg)) as [Hg' Hp']. destruct (k a s1) as [r s2]; cbn in *. split; [by etrans|].
  intros H H2. apply Hp'; [|done]. apply Hp; [done|by etrans].
Qed.

Lemma keeps_attempt {A} (m : M A) : keeps m -> keeps (attempt m).
Proof. intros Hm s Hs. unfold attempt. specialize (Hm s Hs). by destruct (m s) as [r s1]. Qed.

Lemma keeps_ask {A} (f : list Question -> A) q : keeps (ask f q).
Proof. intros s Hs. cbn. split; [by apply prefix_app_r|done]. Qed.

Lemma keeps_put f : (forall s, sc_log s `prefix_of` sc_log (f s) /\ sc_perms (f s) = sc_perms s) -> keeps (put f).
Proof. intros H s Hs. destruct (H s) as [Hl Hp]. cbn. split; [done|]. unfold permsOK. by rewrite Hp. Qed.

Lemma keeps_when b m : keeps m -> keeps (when b m).
Proof. destruct b; [done|intros; apply keeps_ret]. Qed.

Lemma keeps_logged m : keeps m -> keeps (logged m).
Proof. intros H. apply keeps_bind; [by apply keeps_attempt|intros; apply keeps_ret]. Qed.

Lemma keeps_foldM {A B} (f : B -> A -> M B) l b : (forall b a, keeps (f b a)) -> keeps (foldM f l b).
Proof. intros H. revert b. induction l as [|x l IH]; intros b; cbn [foldM]; [apply keeps_ret|by apply keeps_bind]. Qed.

Lemma triple_weaken {A} (m : M A) (P R : A -> Prop) : triple m P -> (forall a, P a -> R a) -> triple m R.
Proof. intros H HPR s a s' Hs Hp E Hl. eapply HPR, H; eauto. Qed.

Lemma triple_bind {A B} (m : M A) (k : A -> M B) (P : A -> Prop) (R : B -> Prop) :
  keeps m -> (forall a, keeps (k a)) -> triple m P -> (forall a, P a -> triple (k a) R) -> triple (m ≫= k) R.
Proof.
  intros Km Kk Hm Hk s b s' Hs Hp E Hl. unfold mbind, M_bind in E. destruct (Km s Hs) as [Hg Hp']. destruct (m s) as [[a|e] s1] eqn:Em; [|done].
  cbn in *. destruct (Kk a s1 (transitivity Hs Hg)) as [Hg2 _]. rewrite E in Hg2. cbn in Hg2.
  assert (sc_log s1 `prefix_of` stop) as H1 by by etrans.
  eapply (Hk a); [by eapply Hm|by etrans|by apply Hp'|done|done].
Qed.

Lemma triple_any {A} (m : M A) : triple m (fun _ => True).
Proof. by intros s a s' _ _ _ _. Qed.

(** Where nothing of the first program's outcome matters. *)
Lemma triple_next {A B} (m : M A) (k : A -> M B) (R : B -> Prop) :
  keeps m -> (forall a, keeps (k a)) -> (forall a, triple (k a) R) -> triple (m ≫= k) R.
Proof. intros Km Kk Hk. eapply triple_bind; [done|done|apply triple_any|auto]. Qed.

Lemma triple_ret {A} (a : A) (P : A -> Prop) : P a -> triple (mret a) P.
Proof. intros H s a' s' _ _ [= -> _] _. done. Qed.
Lemma triple_raise {A} e (P : A -> Prop) : triple (raise e) P.
Proof. by intros s a s' _ _ E. Qed.
Lemma triple_lift {A} (x : A + string) : triple (lift x) (fun a => x = inl a).
Proof. intros s b s1 _ _ E _. destruct x; [by injection E as ->|done]. Qed.

Lemma triple_attempt {A} (m : M A) (P : A -> Prop) :
  triple m P -> triple (attempt m) (fun r => match r with inl a => P a | inr _ => True end).
Proof.
  intros H s r s' Hs Hp E Hl. unfold attempt in E. destruct (m s) as [[a|e] s1] eqn:Em; injection E as <- ->; [by eapply H|done].
Qed.

Lemma triple_foldM {A B} (f : B -> A -> M B) (I : list A -> B -> Prop) (l : list A) b :
  (forall b a, keeps (f b a)) ->
  (forall done_ x b, x ∈ l -> I done_ b -> triple (f b x) (I (done_ ++ [x]))) -> I [] b -> triple (foldM f l b) (I l).
Proof.
  intros K Hf. enough (forall done_ b, I done_ b -> (forall d x b, x ∈ l -> I d b -> triple (f b x) (I (d ++ [x]))) -> triple (foldM f l b) (I (done_ ++ l))) as H.
  { intros Hb. by apply (H [] b). }
  clear Hf b. induction l as [|x l IH]; intros d b Hb Hf; cbn [foldM].
  - rewrite app_nil_r. by apply triple_ret.
  - eapply (triple_bind _ _ (I (d ++ [x]))); [apply K|intros; by apply keeps_foldM| |].
    + apply Hf; [apply list_elem_of_here|done].
    + intros b' Hb'. replace (d ++ x :: l) with ((d ++ [x]) ++ l) by by rewrite <- app_assoc. apply IH; [done|].
      intros. apply Hf; [by apply list_elem_of_further|done].
Qed.

(** An invariant alone. *)
Lemma triple_foldM_inv {A B} (f : B -> A -> M B) (I : B -> Prop) (l : list A) b :
  (forall b a, keeps (f b a)) -> (forall x b, x ∈ l -> I b -> triple (f b x) I) -> I b -> triple (foldM f l b) I.
Proof. intros K Hf Hb. apply (triple_foldM f (fun _ => I)); auto. Qed.

(** *** Every program of the adapter keeps the log and the permissions *)

Create HintDb keeps.
#[local] Hint Resolve keeps_ret keeps_raise keeps_get keeps_lift keeps_ask keeps_attempt keeps_when keeps_logged : keeps.

Ltac keep_step := first
  [ progress intros
  | solve [ auto with keeps ]
  | apply keeps_raise
  | apply keeps_ask
  | (apply keeps_put; intros []; split; done)
  | apply keeps_bind; [|intro]
  | apply keeps_attempt | apply keeps_when | apply keeps_logged
  | apply keeps_foldM
  | case_match ].
Ltac keep := repeat keep_step.

Lemma keeps_call {A} (r : Api A) : keeps (call forge r).
Proof.
  unfold call. enough (forall n first, keeps (attempts forge n first r)) as H by apply H.
  induction n as [|n IH]; intros first; cbn [attempts]; keep.
  apply keeps_put. intros s. split; [|by destruct s]. destruct s. by apply prefix_app_r.
Qed.
#[local] Hint Resolve keeps_call : keeps.

Lemma keeps_pages {A} (r : Z -> Api (list A)) : keeps (pages forge r).
Proof.
  unfold pages. generalize 1, (@nil A). generalize 1000%nat . intros n. induction n as [|n IH]; intros page all; cbn [pagesFrom]; keep.
Qed.
#[local] Hint Resolve keeps_pages : keeps.

Lemma keeps_getPull n : keeps (getPull forge n).
Proof. unfold getPull. keep. Qed.
Lemma keeps_teamMember team user : keeps (teamMember forge team user).
Proof. unfold teamMember. keep. Qed.
#[local] Hint Resolve keeps_getPull keeps_teamMember : keeps.

Lemma keeps_conversations n : keeps (conversationsResolved forge g n).
Proof.
  unfold conversationsResolved. case_match. case_match. case_match; [apply keeps_raise|].
  generalize (@None string). generalize 1000%nat. intros k. induction k as [|k IH]; intros cur; cbn [resolvedFrom]; keep.
Qed.
#[local] Hint Resolve keeps_conversations : keeps.

(** A call's answer. *)
Lemma told_attempts {A} (r : Api A) : triple (call forge r) (told r) /\
  (forall n first s e s', start `prefix_of` sc_log s -> attempts forge n first r s = (inr e, s') -> sc_log s' `prefix_of` stop ->
    forall m, e = ApiError 404 m -> exists log token body, start `prefix_of` log /\ (log ++ [Sent token r]) `prefix_of` stop /\
      fg_send forge A log token r = Replied 404 body).
Proof.
  split.
  - unfold call. generalize true. generalize 2%nat. intros n. induction n as [|n IH]; intros first; cbn [attempts]; [apply triple_raise|].
    intros s a s' Hs Hp E Hl. unfold mbind, M_bind, ask, lift in E. destruct (fg_token forge (sc_log s)) as [token|err]; [|done].
    cbn in E. set (log := sc_log s ++ [AskedToken]) in *.
    assert (start `prefix_of` log) as Hlog by by apply prefix_app_r.
    destruct (fg_send forge A log token r) as [err|code body] eqn:Es; [done|].
    destruct ((code =? 401) && first) eqn:E4.
    + eapply (IH false); [| |exact E|done]; [cbn; by repeat apply prefix_app_r|done].
    + destruct (300 <=? code) eqn:E3; [done|]. destruct (decoded r body) as [x|err] eqn:Ed; [|done]. injection E as <- <-.
      exists log, token, code, body. split_and!; try done. lia.
  - induction n as [|n IH]; intros first s e s' Hs E Hl m He; cbn [attempts] in E; [by injection E as <- <-|].
    unfold mbind, M_bind, ask, lift in E. destruct (fg_token forge (sc_log s)) as [token|err]; [|injection E as <- <-; done].
    cbn in E. set (log := sc_log s ++ [AskedToken]) in *.
    assert (start `prefix_of` log) as Hlog by by apply prefix_app_r.
    destruct (fg_send forge A log token r) as [err|code body] eqn:Es; [injection E as <- <-; done|].
    destruct ((code =? 401) && first) eqn:E4.
    + eapply (IH false); [|exact E|done|exact He]. cbn. by repeat apply prefix_app_r.
    + destruct (300 <=? code) eqn:E3.
      * injection E as <- <-. injection He as -> _. exists log, token, body. done.
      * destruct (decoded r body) as [x|err] eqn:Ed; [done|]. injection E as <- <-. done.
Qed.

Lemma triple_call {A} (r : Api A) : triple (call forge r) (told r).
Proof. apply told_attempts. Qed.

(** [permission] is the one program that remembers permissions. *)
Definition askPermission (login : string) : M string :=
  outcome ← attempt (call forge (GetPermission login));
  match outcome with inl value => mret value | inr e => if isStatus 404 e then mret "none" else raise e end.

Lemma then_run {A B} (m : M A) (k : A -> M B) s :
  (m ≫= k) s = match m s with (inl a, s') => k a s' | (inr e, s') => (inr e, s') end.
Proof. done. Qed.

Lemma permission_run login s : permission forge login s =
  match sc_perms s !! login with
  | Some value => (inl value, s)
  | None => (value ← askPermission login; put (fun s => s <| sc_perms ::= insert login value |>) ;; mret value) s
  end.
Proof.
  unfold permission. rewrite then_run. unfold get. destruct (sc_perms s !! login); [done|].
  unfold askPermission. rewrite !then_run. by destruct (attempt _ s) as [[[v|e]|e] s1]; [|destruct (isStatus 404 e)|].
Qed.

Lemma triple_askPermission login : triple (askPermission login) (permTold login).
Proof.
  intros s perm s1 Hs Hp E Hl. unfold askPermission in E. rewrite then_run in E. unfold attempt in E.
  destruct (call forge (GetPermission login) s) as [[v|e] s2] eqn:Ec.
  - injection E as <- <-. left. by eapply (triple_call (GetPermission login)).
  - right. destruct e as [code m|msg]; cbn in E; [|done]. destruct (code =? 404) eqn:E4; [|done]. apply Z.eqb_eq in E4 as ->.
    injection E as <- <-. split; [done|]. eapply (proj2 (told_attempts (GetPermission login))); [exact Hs|exact Ec|done|done].
Qed.

Lemma permission_facts login : keeps (permission forge login) /\ triple (permission forge login) (permTold login).
Proof.
  assert (keeps (askPermission login)) as Km by (unfold askPermission; keep).
  split.
  - intros s Hs. rewrite permission_run. destruct (sc_perms s !! login) as [v|] eqn:El; [by split|].
    specialize (Km s Hs) as [Hg Hp]. rewrite then_run. pose proof (triple_askPermission login s) as Ht.
    destruct (askPermission login s) as [[v|e] s1] eqn:Em; cbn in *; [|done]. split; [by destruct s1|].
    intros Hok Hl l p Hlp. change (sc_log s1 `prefix_of` stop) in Hl. change (<[login := v]> (sc_perms s1) !! l = Some p) in Hlp.
    apply lookup_insert_Some in Hlp as [[<- <-]|[_ Hlp]]; [by eapply Ht|by apply (Hp Hok Hl)].
  - intros s perm s' Hs Hp E Hl. rewrite permission_run in E. destruct (sc_perms s !! login) as [v|] eqn:El; [injection E as <- <-; by apply Hp|].
    rewrite then_run in E. destruct (askPermission login s) as [[v|e] s1] eqn:Em; [|done]. injection E as <- <-.
    eapply triple_askPermission; [done|done|exact Em|by destruct s1].
Qed.

Lemma keeps_permission login : keeps (permission forge login).
Proof. apply permission_facts. Qed.
#[local] Hint Resolve keeps_permission : keeps.

Lemma keeps_principal login : keeps (principal forge g login).
Proof. unfold principal. keep. Qed.
#[local] Hint Resolve keeps_principal : keeps.

(** Who somebody is: the login, with the permission the forge told. *)
Definition known (login : string) (who : Principal) : Prop :=
  pp_Source who = "github" /\ pp_ID who = login /\ pp_AllowedByConfig who = false /\ permTold login (pp_Permission who).

Lemma triple_principal login : triple (principal forge g login) (known login).
Proof.
  unfold principal. eapply triple_bind; [auto with keeps|keep|apply permission_facts|]. intros perm Hp.
  apply triple_next; [keep|keep|]. intros teams. by apply triple_ret.
Qed.

Abbreviation decide_ := (decide_ lib g) (only parsing).
Abbreviation collectFacts := (collectFacts forge g) (only parsing).
Abbreviation stack := (stack EqualFold forge g) (only parsing).
Abbreviation scope := (scope lib forge g) (only parsing).
Abbreviation readiness := (readiness lib forge g) (only parsing).
Abbreviation commandDecision := (commandDecision lib EqualFold forge g) (only parsing).

Lemma keeps_changedPaths p : keeps (changedPaths forge p).
Proof. unfold changedPaths. keep. Qed.
#[local] Hint Resolve keeps_changedPaths : keeps.

Lemma keeps_checkRuns n sha page checks : keeps (checkRunsFrom forge n sha page checks).
Proof. revert page checks. induction n as [|n IH]; intros page checks; cbn [checkRunsFrom]; keep. Qed.
#[local] Hint Resolve keeps_checkRuns : keeps.

Lemma keeps_collectChecks p : keeps (collectChecks forge p).
Proof. unfold collectChecks. keep. Qed.
Lemma keeps_collectVotes p votes : keeps (collectVotes forge p votes).
Proof. unfold collectVotes. keep. Qed.
Lemma keeps_collectTeams reviews : keeps (collectTeams forge g reviews).
Proof. unfold collectTeams. keep. Qed.
#[local] Hint Resolve keeps_collectChecks keeps_collectVotes keeps_collectTeams : keeps.

Lemma keeps_freshFacts p details : keeps (freshFacts forge g p details).
Proof. unfold freshFacts. keep. Qed.
#[local] Hint Resolve keeps_freshFacts : keeps.

Lemma keeps_collectFacts p details : keeps (collectFacts p details).
Proof. unfold Review.collectFacts. keep. Qed.
Lemma keeps_decide name input : keeps (decide_ name input).
Proof. unfold Review.decide_. keep. Qed.
Lemma keeps_nativeStack n : keeps (nativeStack forge n).
Proof. unfold nativeStack. keep. Qed.
#[local] Hint Resolve keeps_collectFacts keeps_decide keeps_nativeStack : keeps.

Lemma keeps_stack p open whole : keeps (stack p open whole).
Proof. unfold Review.stack. keep. Qed.
Lemma keeps_scope p branch : keeps (scope p branch).
Proof. unfold Review.scope. keep. Qed.
Lemma keeps_readiness p c r branch skip members : keeps (readiness p c r branch skip members).
Proof. unfold Review.readiness. keep. Qed.
#[local] Hint Resolve keeps_stack keeps_scope keeps_readiness : keeps.

Lemma keeps_commandDecision p c parsed who open : keeps (commandDecision p c parsed who open).
Proof. unfold Review.commandDecision. keep. Qed.
Lemma keeps_ownsComment c : keeps (ownsComment forge g c).
Proof. unfold ownsComment. keep. Qed.
#[local] Hint Resolve keeps_commandDecision keeps_ownsComment : keeps.

Lemma keeps_updateComment c marker body l : keeps (updateComment forge g c marker body l).
Proof. revert body. induction l as [|v l IH]; intros body; cbn [updateComment]; keep. Qed.
Lemma keeps_acknowledged marker l : keeps (acknowledged forge g marker l).
Proof. induction l as [|v l IH]; cbn [acknowledged]; keep. Qed.
Lemma keeps_ownInstructions l : keeps (ownInstructions forge g l).
Proof. induction l as [|v l IH]; cbn [ownInstructions]; keep. Qed.
#[local] Hint Resolve keeps_updateComment keeps_acknowledged keeps_ownInstructions : keeps.

Lemma keeps_commentFeedback c body marker allowClosed : keeps (commentFeedback forge g c body marker allowClosed).
Proof. unfold commentFeedback. keep. Qed.
#[local] Hint Resolve keeps_commentFeedback : keeps.

Lemma keeps_feedback c body allowClosed : keeps (feedback forge g c body allowClosed).
Proof. unfold feedback. keep. Qed.
#[local] Hint Resolve keeps_feedback : keeps.

Abbreviation considerComment := (considerComment lib EqualFold forge g) (only parsing).
Abbreviation latestRequest := (latestRequest lib EqualFold digest encodeQuery forge g) (only parsing).
Abbreviation freezeIntent := (freezeIntent intentsLen forge g) (only parsing).
Abbreviation nativeStacks := (nativeStacks EqualFold forge g) (only parsing).
Abbreviation classify := (classify lib EqualFold forge g) (only parsing).
Abbreviation collectRequests := (collectRequests lib EqualFold digest encodeQuery forge g) (only parsing).
Abbreviation judge := (judge lib forge g) (only parsing).
Abbreviation candidateOf := (candidateOf sha256 digest) (only parsing).
Abbreviation walkMembers := (walkMembers lib sha256 digest encodeQuery forge g) (only parsing).
Abbreviation requestedMembers := (requestedMembers forge g) (only parsing).
Abbreviation admitPrefix := (admitPrefix encodeQuery intentsLen forge g) (only parsing).
Abbreviation applyRequest := (applyRequest lib EqualFold sha256 digest encodeQuery intentsLen forge g) (only parsing).
Abbreviation scan := (scan lib EqualFold sha256 digest encodeQuery intentsLen forge g) (only parsing).

Lemma keeps_admissionFeedback p target reason : keeps (admissionFeedback encodeQuery forge g p target reason).
Proof. unfold admissionFeedback. keep. Qed.
Lemma keeps_acknowledge r target cs : keeps (acknowledge digest encodeQuery forge g r target cs).
Proof. unfold acknowledge. keep. Qed.
Lemma keeps_instructions p cs : keeps (instructions forge g p cs).
Proof. unfold instructions. keep. Qed.
Lemma keeps_checkFeedback p c : keeps (checkFeedback lib forge g p c).
Proof. unfold checkFeedback. keep. Qed.
#[local] Hint Resolve keeps_admissionFeedback keeps_acknowledge keeps_instructions keeps_checkFeedback : keeps.

Lemma keeps_commandFeedback p c parsed d : keeps (commandFeedback lib forge g p c parsed d).
Proof. unfold commandFeedback. keep. Qed.
Lemma keeps_principalOf known_ login : keeps (principalOf forge g known_ login).
Proof. unfold principalOf. keep. Qed.
#[local] Hint Resolve keeps_commandFeedback keeps_principalOf : keeps.

Lemma keeps_considerComment p open reply acc c : keeps (considerComment p open reply acc c).
Proof. unfold Review.considerComment. keep. Qed.
#[local] Hint Resolve keeps_considerComment : keeps.

Lemma keeps_latestRequest p known_ open reply target : keeps (latestRequest p known_ open reply target).
Proof. unfold Review.latestRequest. keep. Qed.

Lemma keeps_refreeze target old new : keeps (refreeze forge g target old new).
Proof. unfold refreeze, branchOf, goneLanded. keep. Qed.
Lemma keeps_freezeIntent r members : keeps (freezeIntent r members).
Proof. unfold Review.freezeIntent, readIntents, writeIntents. pose proof keeps_refreeze. keep. Qed.
#[local] Hint Resolve keeps_latestRequest keeps_freezeIntent : keeps.

Lemma keeps_nativeStacks open : keeps (nativeStacks open).
Proof. unfold Review.nativeStacks, nativeStep. keep. Qed.
Lemma keeps_classify open active native : keeps (classify open active native).
Proof. unfold Review.classify. keep. Qed.
Lemma keeps_collectRequests fetch open active found : keeps (collectRequests fetch open active found).
Proof. unfold Review.collectRequests. keep. Qed.
Lemma keeps_judge r p c branch bypass members : keeps (judge r p c branch bypass members).
Proof. unfold Review.judge. keep. Qed.
#[local] Hint Resolve keeps_nativeStacks keeps_classify keeps_collectRequests keeps_judge : keeps.

Lemma keeps_walkMembers fetch bypass found r target branch all l x : keeps (walkMembers fetch bypass found r target branch all l x).
Proof. revert x. induction l as [|p l IH]; intros x; cbn [Review.walkMembers]; keep. Qed.
Lemma keeps_requestedMembers fetch r target members : keeps (requestedMembers fetch r target members).
Proof. unfold Review.requestedMembers. keep. Qed.
Lemma keeps_admitPrefix fetch r target cands : keeps (admitPrefix fetch r target cands).
Proof. unfold Review.admitPrefix. keep. Qed.
#[local] Hint Resolve keeps_walkMembers keeps_requestedMembers keeps_admitPrefix : keeps.

Lemma keeps_applyRequest fetch bypass open native found selected r :
  keeps (applyRequest fetch bypass open native found selected r).
Proof. unfold Review.applyRequest. keep. Qed.
Lemma keeps_deliver fetch selected : keeps (deliver forge fetch selected).
Proof. unfold deliver. keep. Qed.
#[local] Hint Resolve keeps_applyRequest keeps_deliver : keeps.

(** *** What answers mean *)

Lemma triple_ask {A} (f : list Question -> A) q :
  triple (ask f q) (fun a => exists log, start `prefix_of` log /\ (log ++ [q]) `prefix_of` stop /\ a = f log).
Proof. intros s a s' Hs _ E Hl. injection E as <- <-. by exists (sc_log s). Qed.

(** Every row of a listing was told on some page. *)
Definition listed {A} (r : Z -> Api (list A)) (rows : list A) : Prop :=
  forall x, x ∈ rows -> exists page l, told (r page) l /\ x ∈ l.

Lemma triple_pages {A} (r : Z -> Api (list A)) : triple (pages forge r) (listed r).
Proof.
  unfold pages. assert (listed r []) as H by (by intros x Hx%elem_of_nil). revert H. generalize (@nil A), 1. generalize 1000%nat.
  intros n. induction n as [|n IH]; intros all page Hall; cbn [pagesFrom]; [apply triple_raise|].
  assert (forall n page all, keeps (pagesFrom forge n page r all)) as K by (intros m; induction m; intros; cbn [pagesFrom]; keep).
  eapply triple_bind; [auto with keeps|keep|apply triple_call|]. intros rows Hrows.
  assert (listed r (all ++ rows)) as Hl.
  { intros x [Hx|Hx]%elem_of_app; [by apply Hall|by exists page, rows]. }
  case_match; [by apply triple_ret|]. case_match; [apply triple_raise|by apply IH].
Qed.

Lemma triple_decide name input : triple (decide_ name input) (fun d => Policy.Decide lib (gp_Policy g) name input = inl d).
Proof. apply triple_lift. Qed.

(** The policy's answer about a command. *)
Definition decided (p : pull) (cm : comment) (parsed : parsedCommand) (allow : bool) : Prop :=
  exists who target branch facts members paths available d, known (cm_User cm) who /\
    Policy.Decide lib (gp_Policy g) "command" (commandInput g p cm parsed who target branch facts members paths available) = inl d /\
    dc_Allow d = allow.

Lemma triple_commandDecision p cm parsed who open : known (cm_User cm) who ->
  triple (commandDecision p cm parsed who open) (fun d => decided p cm parsed (dc_Allow d)).
Proof.
  intros Hw. unfold Review.commandDecision. case_match.
  - apply triple_next; [auto with keeps|keep|]. intros facts. apply triple_next; [auto with keeps|keep|]. intros [members branch].
    eapply triple_weaken; [apply triple_decide|]. intros d Hd. exists who. eexists _, _, _, _, _, _, d. split_and!; [done|exact Hd|done].
  - eapply triple_weaken; [apply triple_decide|]. intros d Hd. exists who. eexists _, _, _, _, _, _, d. split_and!; [done|exact Hd|done].
Qed.

(** Everyone a scan knows, it was told about. *)
Definition allKnown (m : gmap string Principal) : Prop := forall login who, m !! login = Some who -> known login who.

Lemma triple_principalOf m login : allKnown m ->
  triple (principalOf forge g m login) (fun w => known login (fst w) /\ allKnown (snd w)).
Proof.
  intros Hm. unfold principalOf. destruct (m !! login) as [who|] eqn:El; [apply triple_ret; split; [by apply Hm|done]|].
  eapply triple_bind; [auto with keeps|keep|apply triple_principal|]. intros who Hw. apply triple_ret. split; [done|].
  cbn [snd]. intros l w [[<- <-]|[_ H]]%lookup_insert_Some; [done|by apply Hm].
Qed.

(** The request [r] on [p] after the comments [cs]: none, or the command of one of them that the policy
    allows, every later command but checks being refused. *)
Definition latest (p : pull) (cs : list comment) (r : request) : Prop :=
  (rs_ID r = 0 \/ exists cm parsed, cm ∈ cs /\ parseCommand (cm_Body cm) (gp_Bot g) = Some parsed /\
     pc_Action parsed <> "check" /\ decided p cm parsed true /\
     r = requestOf p cm parsed <| rs_Notified := rs_Notified r |>) /\
  forall cm parsed, cm ∈ cs -> parseCommand (cm_Body cm) (gp_Bot g) = Some parsed -> pc_Action parsed <> "check" ->
    rs_ID r < cm_ID cm -> decided p cm parsed false.

Lemma latest_snoc p cs r cm : (forall parsed, parseCommand (cm_Body cm) (gp_Bot g) = Some parsed -> pc_Action parsed <> "check" ->
    rs_ID r < cm_ID cm -> decided p cm parsed false) -> latest p cs r -> latest p (cs ++ [cm]) r.
Proof.
  intros Hc [[H0|(cm' & parsed & Hin & H)] Hl]; (split; [|intros cm2 parsed2 [Hin2|Hin2]%elem_of_app; [by apply Hl|]]).
  - by left.
  - apply list_elem_of_singleton in Hin2 as ->. apply Hc.
  - right. exists cm', parsed. split; [|done]. apply elem_of_app. by left.
  - apply list_elem_of_singleton in Hin2 as ->. apply Hc.
Qed.

Lemma triple_considerComment p open reply cs acc cm : latest p cs (fst acc) -> allKnown (snd acc) ->
  triple (considerComment p open reply acc cm) (fun acc => latest p (cs ++ [cm]) (fst acc) /\ allKnown (snd acc)).
Proof.
  intros Hl Hk. unfold Review.considerComment. destruct (parseCommand (cm_Body cm) (gp_Bot g)) as [parsed|] eqn:Ep.
  - destruct acc as [result m]; cbn in Hl, Hk. eapply triple_bind; [auto with keeps|keep|by apply triple_principalOf|].
    intros [who m'] [Hw Hm']. eapply triple_bind; [auto with keeps|keep|by apply triple_commandDecision|]. intros d Hd.
    apply triple_next; [auto with keeps|keep|]. intros _. apply triple_ret. split; [|done]. cbn [fst].
    destruct (String.eqb_spec (pc_Action parsed) "check") as [Ec|Ec]; [|revert Hd; destruct (dc_Allow d) eqn:Ea; intros Hd]; cbn [negb andb].
    + apply latest_snoc; [|done]. intros p' H'. rewrite ?Ea in Hd. simplify_eq. done.
    + destruct (Z.ltb_spec (rs_ID result) (cm_ID cm)) as [Hlt|Hge].
      * split.
        -- right. exists cm, parsed. rewrite Ea in Hd. split_and!; [apply elem_of_app; right; by apply list_elem_of_singleton|done..].
        -- intros cm2 parsed2 [Hin2|Hin2]%elem_of_app Hp2 Ha2 Hlt2; [apply (proj2 Hl); try done; cbn in Hlt2; lia|].
           apply list_elem_of_singleton in Hin2 as ->. cbn in Hlt2. lia.
      * apply latest_snoc; [|done]. intros p' H' _ ?. lia.
    + apply latest_snoc; [|done]. intros p' H'. rewrite ?Ea in Hd. simplify_eq. done.
  - apply triple_ret. split; [|done]. apply latest_snoc; [|done]. intros p' H'. by rewrite Ep in H'.
Qed.

(** What the comments of [p] that the scan read come to. *)
Definition requested (p : pull) (r : request) : Prop :=
  exists cs, listed (GetComments (pr_Number p)) cs /\ latest p cs r.

Lemma triple_latestRequest p m open reply target : allKnown m ->
  triple (latestRequest p m open reply target) (fun x => requested p (fst x) /\ allKnown (snd x)).
Proof.
  intros Hm. unfold Review.latestRequest. eapply triple_bind; [auto with keeps|keep|apply triple_pages|]. intros cs Hcs.
  apply triple_next; [keep|keep|]. intros _.
  eapply triple_bind; [keep|keep|apply (triple_foldM _ (fun cs acc => latest p cs (fst acc) /\ allKnown (snd acc)))|].
  - keep.
  - intros d cm acc _ [Hl Hk]. by apply triple_considerComment.
  - split; [|done]. split; [by left|]. by intros cm parsed Hin%elem_of_nil.
  - intros [r m'] [Hl Hk]. apply triple_next; [keep|keep|]. intros _. apply triple_ret. split; [|by destruct existsb].
    exists cs. split; [done|]. destruct existsb; [|done]. destruct Hl as [Hr Hlater]. split; [|done].
    destruct Hr as [H0|(cm & parsed & H1 & H2 & H3 & H4 & H5)]; [by left|]. right. exists cm, parsed. split_and!; try done.
    cbn [fst] in *. rewrite H5. done.
Qed.

(** The policy has the pull request [n] in its scope. *)
Definition scopedIn (n : Z) : Prop :=
  exists p branch paths d, pr_Number p = n /\ Policy.Decide lib (gp_Policy g) "scope" (scopeInput g p branch paths) = inl d /\
    dc_Allow d = true /\ is_Some (gp_Targets g !! branch).

Definition foundOK (found : Found) : Prop := forall n, managed found n = true -> scopedIn n.

Lemma foundOK_insert found n b branches unresolved : foundOK found -> (b = true -> scopedIn n) ->
  foundOK (mkFound (<[n := b]> (fd_managed found)) branches unresolved).
Proof.
  intros Hf Hb k. unfold managed. cbn [fd_managed]. destruct (decide (k = n)) as [->|Hne].
  - rewrite lookup_insert_eq. apply Hb.
  - rewrite lookup_insert_ne by done. apply Hf.
Qed.

Lemma targetOf_some branch : targetOf g branch <> "" -> is_Some (gp_Targets g !! branch).
Proof. unfold targetOf. by destruct (gp_Targets g !! branch) as [t|]; [eauto|]. Qed.

Lemma triple_classify open active native : triple (classify open active native) foundOK.
Proof.
  unfold Review.classify. apply triple_foldM_inv; [keep| |by intros n].
  intros p found _ Hf. case_match; [by apply triple_ret|].
  apply triple_next; [keep|keep|]. intros [branch|e]; [|apply triple_ret; intros n; apply Hf].
  eapply triple_bind; [keep|keep|apply triple_attempt|].
  { unfold Review.scope. apply triple_next; [keep|keep|]. intros paths.
    eapply triple_weaken; [apply triple_decide|]. intros d Hd. exact (ex_intro (fun ps => Policy.Decide lib (gp_Policy g) "scope" (scopeInput g p branch ps) = inl d) paths Hd). }
  intros [d|e] Hd; [|apply triple_raise]. apply triple_ret, foundOK_insert; [done|]. intros [Ha Ht]%andb_true_iff.
  destruct Hd as [paths Hd]. exists p, branch, paths, d. split_and!; [done..|]. apply targetOf_some. intros E. by rewrite E in Ht.
Qed.

Lemma triple_collectRequests fetch open active found :
  triple (collectRequests fetch open active found) (Forall (fun r => exists p, requested p r /\ rs_ID r <> 0)).
Proof.
  unfold Review.collectRequests. eapply triple_bind; [keep|keep|apply (triple_foldM_inv _ (fun acc => Forall (fun r => exists p, requested p r /\ rs_ID r <> 0) (fst acc) /\ allKnown (snd acc)))|].
  - keep.
  - intros p [rs m] _ [Hr Hm]. cbn [fst snd] in *. case_match; [by apply triple_ret|].
    eapply triple_bind; [keep|keep|by apply triple_latestRequest|]. intros [r m'] [H1 H2]. cbn [fst snd] in *.
    destruct (Z.eqb_spec (rs_ID r) 0) as [|Hn]; [by apply triple_ret|]. case_match; [apply triple_raise|]. apply triple_ret. split; [|done].
    apply Forall_app. split; [done|]. apply Forall_singleton. by exists p.
  - by split.
  - intros [rs m] [H _]. by apply triple_ret.
Qed.

(** The policy's answer about a submission: ready, or blocked by nothing but
    checks, which an emergency may override. *)
Definition cleared (r : request) (c : Candidate) (branch : string) (bypass : bool) (members : list pull) (blocked : string) : Prop :=
  exists facts who d, known (rs_Requester r) who /\
    Policy.Decide lib (gp_Policy g) "submission"
      (submissionInput g c r branch (rs_SkipChecks r || bypass) members (withRequester facts r who) who) = inl d /\
    ((dc_Allow d = true /\ blocked = "") \/
     (dc_Allow d = false /\ gp_EmergencyEnabled g = true /\ onlyCheckFailures d = true /\ blocked = Policy.Reason d)).

Lemma triple_judge r p c branch bypass members :
  triple (judge r p c branch bypass members) (fun '(ready, blocked, _, _) => ready = true -> cleared r c branch bypass members blocked).
Proof.
  unfold Review.judge, Review.readiness.
  eapply (triple_bind _ _ (fun a => exists facts who, known (rs_Requester r) who /\ Policy.Decide lib (gp_Policy g) "submission"
    (submissionInput g c r branch (rs_SkipChecks r || bypass) members (withRequester facts r who) who) = inl (fst a))); [keep|keep| |].
  - apply triple_next; [keep|keep|]. intros facts. eapply triple_bind; [keep|keep|apply triple_principal|]. intros who Hw.
    eapply triple_bind; [keep|keep|apply triple_decide|]. intros d Hd. apply triple_ret. by exists facts, who.
  - intros [d input] (facts & who & Hw & Hd). cbn [fst] in Hd. destruct (dc_Allow d) eqn:Ea.
    { apply triple_ret. intros _. exists facts, who, d. split_and!; [done..|]. by left. }
    destruct (gp_EmergencyEnabled g && onlyCheckFailures d) eqn:Ee; apply triple_ret; [|done].
    apply andb_true_iff in Ee as [Ee Eo]. intros _. exists facts, who, d. split_and!; [done..|]. by right.
Qed.

(** Git says the member's head is on the branch, or its landing is. *)
Definition landedAt (branch target : string) (q : pull) : Prop :=
  exists log, start `prefix_of` log /\
    (log ++ [AskedLanded branch (slot target (pr_Number q)) (rf_SHA (pr_Head q))]) `prefix_of` stop /\
    fg_landed forge log branch (slot target (pr_Number q)) (rf_SHA (pr_Head q)) = inl true.

(** What lets a member of a stack in. *)
Definition letIn (r : request) (target branch : string) (bypass : bool) (all : list pull) (c : Candidate) : Prop :=
  exists p before after previous base blocked, all = before ++ p :: after /\ pr_State p = "open" /\ scopedIn (pr_Number p) /\
    Forall (fun q => pr_State q <> "open" -> landedAt branch target q) before /\
    Forall (fun q => scopedIn (pr_Number q)) before /\
    cleared r (candidateOf r p target previous base) branch bypass all blocked /\
    c = candidateOf r p target previous base <| c_AdmissionBlocked := blocked |>.

Lemma triple_walkMembers fetch bypass found r target branch all l : foundOK found -> forall before x, all = before ++ l ->
  Forall (fun q => pr_State q <> "open" -> landedAt branch target q) before -> Forall (fun q => scopedIn (pr_Number q)) before ->
  Forall (letIn r target branch bypass all) (px_cands x) ->
  triple (walkMembers fetch bypass found r target branch all l x) (Forall (letIn r target branch bypass all)).
Proof.
  intros Hf. induction l as [|p l IH]; intros before x Hall Hb Hs Hx; cbn [Review.walkMembers]; [by apply triple_ret|].
  assert (Forall (letIn r target branch bypass all) (if String.eqb (rs_Action r) "merge-ready" then px_cands x else [])) as Hkeep by by case_match.
  destruct (managed found (pr_Number p)) eqn:Em; cbn [negb]; [|apply triple_next; [keep|keep|]; intros _; by apply triple_ret].
  apply Hf in Em. assert (all = (before ++ [p]) ++ l) as Hall2 by by rewrite <- app_assoc.
  destruct (String.eqb_spec (pr_State p) "open") as [Eo|Eo]; cbn [negb].
  - eapply triple_bind; [keep|keep|apply triple_judge|]. intros [[[ready blocked] reason] input] Hj.
    destruct ready; cbn [negb]; [|apply triple_next; [keep|keep|]; intros _; by apply triple_ret].
    apply triple_next; [keep|keep|]. intros _.
    assert (Forall (letIn r target branch bypass all)
      (px_cands x ++ [candidateOf r p target (px_previous x) (px_sourceBase x) <| c_AdmissionBlocked := blocked |>])) as Hc.
    { apply Forall_app. split; [done|]. apply Forall_singleton. eexists p, before, l, _, _, blocked. split_and!; try done. by apply Hj. }
    match goal with |- triple (if ?b then _ else _) _ => destruct b end; [by apply triple_ret|].
    apply (IH (before ++ [p])); [done|..|done]; apply Forall_app; split; try done; by apply Forall_singleton.
  - eapply triple_bind; [keep|keep|apply triple_ask|]. intros answer (log & Hl1 & Hl2 & ->).
    eapply triple_bind; [keep|keep|apply triple_lift|]. intros landed Hl. destruct landed; [|by apply triple_ret].
    apply (IH (before ++ [p])); [done|..|done]; apply Forall_app; split; try done; apply Forall_singleton; [|done].
    intros _. by exists log.
Qed.

(** The intent of [r] to land [cands] is frozen. *)
Definition frozenIn (r : request) (cands : list Candidate) : Prop :=
  exists s s', start `prefix_of` sc_log s /\ freezeIntent r cands s = (inl tt, s') /\ sc_log s' `prefix_of` stop.

Lemma triple_admitPrefix fetch r target cands : triple (admitPrefix fetch r target cands) (fun out =>
  out = [] \/ (emergency r = false /\ out = cands) \/
  (frozenIn r cands /\ out = map (fun c => c <| c_RequestedCount := Z.of_nat (length cands) |>) cands)).
Proof.
  unfold Review.admitPrefix. destruct (emergency r) eqn:Ee; cbn [andb]; [|apply triple_ret; by right; left].
  case_match eqn:El; [|apply triple_ret; left; destruct cands; [done|by cbn in El]].
  eapply (triple_bind _ _ (fun a => match a with inl _ => frozenIn r cands | inr _ => True end)); [keep|keep|apply triple_attempt|].
  - intros s a s' Hs _ E Hl. destruct a. by exists s, s'.
  - intros [a|e] Ha; [apply triple_ret; by right; right|]. apply triple_next; [keep|keep|]. intros _. apply triple_ret. by left.
Qed.

(** Why a candidate is selected: an allowed request, for a configured target, whose prefix it is of. *)
Definition admitted (bypass : bool) (c : Candidate) : Prop :=
  exists p r target branch all c0 n, requested p r /\ rs_ID r <> 0 /\ rs_Action r <> "cancel" /\ gp_Targets g !! branch = Some target /\
    letIn r target branch bypass all c0 /\ c = c0 <| c_RequestedCount := n |> /\
    (emergency r = true -> rs_Reason r <> "" /\ exists cands, frozenIn r cands /\ c0 ∈ cands).

Definition selectedOK (bypass : bool) (m : gmap string Candidate) : Prop :=
  forall k c, m !! k = Some c -> c_Ref c = k /\ admitted bypass c.

Lemma insert_all_ok bypass l m : Forall (admitted bypass) l -> selectedOK bypass m ->
  selectedOK bypass (foldl (fun m c => <[c_Ref c := c]> m) m l).
Proof.
  intros Hl. revert m. induction Hl as [|c l Hc Hl IH]; intros m Hm; cbn [foldl]; [done|]. apply IH.
  intros k c' [[<- <-]|[_ H]]%lookup_insert_Some; [done|by apply Hm].
Qed.

Lemma triple_applyRequest fetch bypass open native found selected r p : foundOK found -> requested p r -> rs_ID r <> 0 ->
  selectedOK bypass selected -> triple (applyRequest fetch bypass open native found selected r) (selectedOK bypass).
Proof.
  intros Hf Hr Hid Hs. unfold Review.applyRequest.
  destruct (emergency r && (String.eqb (rs_Reason r) "" || String.eqb (gp_IntentPath g) "")) eqn:Ee; [by apply triple_ret|].
  apply triple_next; [keep|keep|]. intros [members branch]. destruct (gp_Targets g !! branch) as [target|] eqn:Et; [|by apply triple_ret].
  destruct (String.eqb_spec (rs_Action r) "cancel") as [|Hc].
  { apply triple_ret. intros k c [_ H]%lookup_delete_Some. by apply Hs. }
  apply triple_next; [keep|keep|]. intros [wanted|]; [|by apply triple_ret].
  eapply triple_bind; [keep|keep| |].
  { eapply (triple_walkMembers fetch bypass found r target branch wanted wanted Hf []); try done; by apply Forall_nil. }
  intros cands Hcands. eapply triple_bind; [keep|keep|apply triple_admitPrefix|]. intros out Hout. apply triple_ret, insert_all_ok; [|done].
  destruct Hout as [->|[[He ->]|[Hz ->]]]; [done| |].
  - eapply Forall_impl; [exact Hcands|]. intros c Hc0. exists p, r, target, branch, wanted, c, (c_RequestedCount c).
    split_and!; try done; [by destruct c|]. by rewrite He.
  - apply Forall_map, Forall_forall. intros c Hin. exists p, r, target, branch, wanted, c, (Z.of_nat (length cands)).
    rewrite Forall_forall in Hcands. split_and!; try done; [by apply Hcands|]. intros He. rewrite He in Ee. cbn [andb] in Ee. split; [|by exists cands].
    intros E. by rewrite E in Ee.
Qed.

(** The revision is in the repository. *)
Definition fetched (c : Candidate) : Prop :=
  exists log source dest, start `prefix_of` log /\ (log ++ [Fetched source dest (c_SHA c)]) `prefix_of` stop /\
    fg_fetch forge log source dest (c_SHA c) = None.

Definition delivered (fetch bypass : bool) (c : Candidate) : Prop :=
  admitted bypass c /\ (fetch = true -> fetched c) /\
  (c_DependsOn c = "" \/ exists c', c_Ref c' = c_DependsOn c /\ admitted bypass c').

Lemma triple_deliver fetch bypass selected : selectedOK bypass selected ->
  triple (deliver forge fetch selected) (Forall (delivered fetch bypass)).
Proof.
  intros Hs. unfold deliver. apply triple_next; [keep|keep|]. intros keys. apply triple_foldM_inv; [keep| |done].
  intros key out _ Hout. destruct (selected !! key) as [c|] eqn:Ek; [|by apply triple_ret].
  destruct (negb (String.eqb (c_DependsOn c) "") && negb (bool_decide (is_Some (selected !! c_DependsOn c)))) eqn:Ed; [by apply triple_ret|].
  eapply (triple_bind _ _ (fun _ => fetch = true -> fetched c)); [keep|keep| |].
  - destruct fetch; [|by apply triple_ret]. apply triple_next; [keep|keep|]. intros number.
    eapply triple_bind; [keep|keep|apply triple_ask|]. intros problem (log & H1 & H2 & ->). cbv zeta.
    destruct (fg_fetch _ _ _ _ _) eqn:E; [apply triple_raise|]. apply triple_ret. intros _. by eexists log, _, _.
  - intros _ Hfetch. apply triple_ret. apply Forall_app. split; [done|]. apply Forall_singleton. apply Hs in Ek as Hc. destruct Hc as [_ Hc].
    split_and!; [done|done|]. destruct (String.eqb_spec (c_DependsOn c) "") as [|Hd]; [by left|]. right. cbn [negb andb] in Ed.
    apply negb_false_iff, bool_decide_eq_true in Ed as [c' Hc']. apply Hs in Hc'. by exists c'.
Qed.

Lemma scan_delivers fetch bypass s out s' : start `prefix_of` sc_log s -> scan fetch bypass s = (inl out, s') ->
  sc_log s' `prefix_of` stop -> Forall (delivered fetch bypass) out.
Proof.
  intros Hs E Hl. unfold Review.scan in E. rewrite then_run in E. cbn [put] in E.
  match type of E with ?m ?s1 = _ => assert (triple m (Forall (delivered fetch bypass))) as Ht; [|eapply (Ht s1); [by destruct s|by intros l p Hp|exact E|done]] end.
  clear s s' E Hs Hl out. apply triple_next; [keep|keep|]. intros open. apply triple_next; [keep|keep|]. intros [seeds native].
  eapply triple_bind; [keep|keep|apply triple_classify|]. intros found Hf.
  eapply triple_bind; [keep|keep|apply triple_collectRequests|]. intros requests Hr.
  eapply (triple_bind _ _ (selectedOK bypass)); [keep|keep|apply triple_foldM_inv; [keep| |by intros k c]|].
  - intros r selected Hin Hsel. rewrite Forall_forall in Hr. destruct (Hr r) as (p & H1 & H2); [|by eapply triple_applyRequest].
    by rewrite sort_by_Permutation in Hin.
  - intros selected Hsel. eapply triple_bind; [keep|keep|by apply triple_deliver|]. intros out Hout. apply triple_ret.
    by rewrite sort_by_Permutation.
Qed.

(** *** Stray pull requests

    An open pull request towards a branch that is no target and no pull request's head. *)
Definition stray (open : list pull) (p : pull) : Prop :=
  pr_State p = "open" /\ gp_Targets g !! rf_Ref (pr_Base p) = None /\ parentsOf EqualFold g p open = [].

Lemma stray_stack open p whole : pr_Stack p = None -> stray open p -> exists e, forall s, stack p open whole s = (inr e, s).
Proof.
  intros Hn (_ & Ht & Hp). unfold Review.stack. rewrite Hn. unfold branchStack. cbn [chainDown]. rewrite Ht, Hp.
  rewrite bool_decide_eq_false_2 by by intros [? [=]]. by eexists.
Qed.

Lemma nativeStacks_plain open s : (forall q, q ∈ open -> pr_Stack q = None) ->
  exists active, nativeStacks open s = (inl (active, ∅), s) /\ forall q, q ∈ open -> pr_State q = "open" -> pr_Number q ∈ active.
Proof.
  intros Hn. unfold Review.nativeStacks. rewrite then_run.
  enough (forall l a, (forall q, q ∈ l -> pr_Stack q = None) -> exists active,
    foldM (nativeStep EqualFold forge g open) l (a, ∅, ∅) s = (inl (active, ∅, ∅), s) /\ a ⊆ active /\
    forall q, q ∈ l -> pr_State q = "open" -> pr_Number q ∈ active) as H.
  { destruct (H open ∅ Hn) as (active & E & _ & Ha). exists active. split; [|done]. by rewrite E. }
  clear Hn. induction l as [|p l IH]; intros a Hn; cbn [foldM].
  - exists a. split_and!; [done..|]. by intros q Hq%elem_of_nil.
  - rewrite then_run. unfold nativeStep at 1. assert (forall q, q ∈ l -> pr_Stack q = None) as Hn' by (intros q Hq; apply Hn; by apply list_elem_of_further).
    rewrite (Hn p) by apply list_elem_of_here. destruct (String.eqb_spec (pr_State p) "open") as [Eo|Eo]; cbn [negb].
    + destruct (IH ({[pr_Number p]} ∪ a) Hn') as (active & E & Hs & Ha). exists active. split_and!; [exact E|set_solver|].
      intros q [->|Hq]%elem_of_cons Hq2; [set_solver|by apply Ha].
    + destruct (IH a Hn') as (active & E & Hs & Ha). exists active. split_and!; [exact E|done|].
      intros q [->|Hq]%elem_of_cons Hq2; [done|by apply Ha].
Qed.

Lemma foldl_grows {A} (f : gset Z -> A -> gset Z) l a : (forall a x, a ⊆ f a x) -> a ⊆ foldl f a l.
Proof. intros H. revert a. induction l as [|x l IH]; intros a; cbn [foldl]; [done|]. etrans; [apply (H a x)|apply IH]. Qed.

Lemma activate_grows fuel open active : active ⊆ activate EqualFold g fuel open active.
Proof.
  revert active. induction fuel as [|fuel IH]; intros active; cbn [activate]; [done|].
  assert (active ⊆ activatePass EqualFold g open active) as H.
  { apply foldl_grows. intros a p. case_match; [done|]. case_match; [done|]. apply foldl_grows. intros b q.
    case_match; [apply union_subseteq_r|done]. }
  case_bool_decide as E; [done|]. etrans; [exact H|apply IH].
Qed.

Lemma classify_stray open active : (forall q, q ∈ open -> pr_Stack q = None) ->
  triple (classify open active ∅) (fun found => forall p, p ∈ open -> stray open p -> pr_Number p ∈ active ->
    is_Some (fd_unresolved found !! pr_Number p)).
Proof.
  intros Hn. unfold Review.classify.
  apply (triple_foldM _ (fun l found => forall p, p ∈ l -> stray open p -> pr_Number p ∈ active -> is_Some (fd_unresolved found !! pr_Number p))).
  - keep.
  - intros l p found Hp Hf. destruct (bool_decide_reflect (pr_Number p ∈ active)) as [Ha|Ha]; cbn [negb].
    + eapply (triple_bind _ _ (fun b => stray open p -> exists e, b = inr e)); [keep|keep| |].
      * rewrite lookup_empty. intros s b s' _ _ E _ Hs. destruct (stray_stack open p false (Hn p Hp) Hs) as [e He].
        rewrite then_run in E. unfold attempt in E. rewrite He in E. injection E as <- <-. by exists e.
      * intros [branch|e] Hb.
        -- apply triple_next; [keep|keep|]. intros [d|e]; [|apply triple_raise]. apply triple_ret.
           intros q [Hq| ->%list_elem_of_singleton]%elem_of_app Hs Ha'; [by apply Hf|]. by destruct (Hb Hs).
        -- apply triple_ret. cbn [fd_unresolved]. intros q [Hq| ->%list_elem_of_singleton]%elem_of_app Hs Ha'.
           ++ destruct (decide (pr_Number q = pr_Number p)) as [->|Hne]; [rewrite lookup_insert_eq; eauto|].
              rewrite lookup_insert_ne by done. by apply Hf.
           ++ rewrite lookup_insert_eq. eauto.
    + apply triple_ret. intros q [Hq| ->%list_elem_of_singleton]%elem_of_app Hs Ha'; [by apply Hf|done].
  - by intros p Hp%elem_of_nil.
Qed.

(** No command on [p] is allowed, of those with an identifier. *)
Definition unanswered (p : pull) : Prop :=
  exists cs, listed (GetComments (pr_Number p)) cs /\ forall cm parsed, cm ∈ cs ->
    parseCommand (cm_Body cm) (gp_Bot g) = Some parsed -> pc_Action parsed <> "check" -> 0 < cm_ID cm -> decided p cm parsed false.

Lemma collectRequests_stray fetch open active found :
  triple (collectRequests fetch open active found) (fun _ => forall p, p ∈ open -> pr_Number p ∈ active ->
    is_Some (fd_unresolved found !! pr_Number p) -> unanswered p).
Proof.
  unfold Review.collectRequests.
  eapply triple_bind; [keep|keep|apply (triple_foldM _ (fun l acc => (forall p, p ∈ l -> pr_Number p ∈ active ->
    is_Some (fd_unresolved found !! pr_Number p) -> unanswered p) /\ allKnown (snd acc)))|].
  - keep.
  - intros l p [rs m] _ [Hl Hm]. cbn [snd] in Hm.
    assert (forall (acc : list request * gmap string Principal), allKnown (snd acc) -> (pr_Number p ∈ active -> is_Some (fd_unresolved found !! pr_Number p) -> unanswered p) ->
      triple (mret acc : M (list request * gmap string Principal)) (fun acc => (forall q, q ∈ l ++ [p] -> pr_Number q ∈ active ->
        is_Some (fd_unresolved found !! pr_Number q) -> unanswered q) /\ allKnown (snd acc))) as Hret.
    { intros acc Hk Hp. apply triple_ret. split; [|done]. intros q [Hq| ->%list_elem_of_singleton]%elem_of_app; auto. }
    case_match eqn:Eg.
    { apply Hret; [done|]. intros Ha Hu. rewrite (bool_decide_eq_true_2 _ Ha), (bool_decide_eq_true_2 _ Hu) in Eg. by rewrite andb_false_r in Eg. }
    eapply triple_bind; [keep|keep|by apply triple_latestRequest|]. intros [r m'] [(cs & Hcs & [_ Hlate]) Hm']. cbn [fst snd] in *.
    destruct (Z.eqb_spec (rs_ID r) 0) as [E0|E0].
    + apply Hret; [done|]. intros _ _. exists cs. split; [done|]. intros cm parsed ????. apply Hlate; try done. lia.
    + destruct (fd_unresolved found !! pr_Number p) eqn:Eu; [apply triple_raise|]. apply Hret; [done|]. by intros _ [? ?].
  - split; [|done]. by intros p Hp%elem_of_nil.
  - intros [rs m] [H _]. by apply triple_ret.
Qed.

Lemma scan_stray fetch bypass s out s' : start `prefix_of` sc_log s -> scan fetch bypass s = (inl out, s') -> sc_log s' `prefix_of` stop ->
  exists open, listed GetPulls open /\
    ((forall q, q ∈ open -> pr_Stack q = None) -> forall p, p ∈ open -> stray open p -> unanswered p).
Proof.
  intros Hs E Hl. unfold Review.scan in E. rewrite then_run in E. cbn [put] in E.
  match type of E with ?m ?s1 = _ => assert (triple m (fun _ => exists open, listed GetPulls open /\
    ((forall q, q ∈ open -> pr_Stack q = None) -> forall p, p ∈ open -> stray open p -> unanswered p))) as Ht;
    [|eapply (Ht s1); [by destruct s|by intros l p Hp|exact E|done]] end.
  clear s s' E Hs Hl out. eapply triple_bind; [keep|keep|apply triple_pages|]. intros open Ho.
  eapply (triple_weaken _ (fun _ => (forall q, q ∈ open -> pr_Stack q = None) -> forall p, p ∈ open -> stray open p -> unanswered p));
    [|intros _ H; by exists open].
  eapply (triple_bind _ _ (fun ns => (forall q, q ∈ open -> pr_Stack q = None) -> snd ns = ∅ /\ forall q, q ∈ open -> pr_State q = "open" -> pr_Number q ∈ fst ns)); [keep|keep| |].
  { intros s a s' _ _ E _ Hn. destruct (nativeStacks_plain open s Hn) as (active & E' & Ha). rewrite E' in E. by injection E as <- <-. }
  intros [seeds native] Hns. cbn [fst snd] in Hns. set (active := activate EqualFold g (S (length open)) open seeds).
  eapply (triple_bind _ _ (fun found => (forall q, q ∈ open -> pr_Stack q = None) -> forall p, p ∈ open -> stray open p -> pr_Number p ∈ active ->
    is_Some (fd_unresolved found !! pr_Number p))); [keep|keep| |].
  { intros s a s' H1 H2 E H3 Hn. destruct (Hns Hn) as [-> _]. by eapply classify_stray. }
  intros found Hf. eapply triple_bind; [keep|keep|apply collectRequests_stray|]. intros requests Hr.
  eapply triple_weaken; [apply triple_any|]. intros _ _ Hn p Hp Hst. destruct (Hns Hn) as [_ Ha].
  assert (pr_Number p ∈ active) as Hin by (apply activate_grows, Ha; [done|apply Hst]). apply Hr; auto.
Qed.
End Between.
End Spec.

(** ** What an emergency freezes *)
Section Frozen.
Context {Q : Type} (intentsLen : intentState -> Z).

Lemma leastID_spec (m : gmap Z frozenIntent) :
  match leastID m with
  | Some x => is_Some (m !! x) /\ forall j, is_Some (m !! j) -> x <= j
  | None => m = ∅
  end.
Proof.
  unfold leastID. assert (forall j, is_Some (m !! j) <-> j ∈ map fst (map_to_list m)) as Hk.
  { intros j. rewrite list_elem_of_fmap. split.
    - intros [F HF]. exists (j, F). split; [done|]. by apply elem_of_map_to_list.
    - intros ([k F] & -> & H%elem_of_map_to_list). by exists F. }
  destruct (map fst (map_to_list m)) as [|a l] eqn:E; cbn [foldr].
  { apply map_empty. intros j. apply eq_None_not_Some. rewrite Hk. apply not_elem_of_nil. }
  clear E. assert (forall l, match foldr (fun id acc => Some (match acc with None => id | Some x => Z.min id x end)) None l with
    | Some x => x ∈ l /\ forall j, j ∈ l -> x <= j | None => l = [] end) as H.
  { clear. induction l as [|b l IH]; cbn [foldr]; [done|]. destruct (foldr _ None l) as [x|].
    - destruct IH as [Hin Hle]. split.
      + destruct (Z.min_spec b x) as [[_ ->]|[_ ->]]; [apply list_elem_of_here|by apply list_elem_of_further].
      + intros j [->|Hj]%elem_of_cons; [lia|]. apply Hle in Hj. lia.
    - subst. split; [apply list_elem_of_here|]. intros j ->%list_elem_of_singleton. lia. }
  specialize (H (a :: l)). cbn [foldr] in H. destruct H as [H1 H2]. rewrite Hk. split; [done|]. intros j Hj%Hk. by apply H2.
Qed.

(** The intent [F] of the request [k] is on file, or the request has expired. *)
Definition recorded (k : Z) (F : frozenIntent) (s : intentState) : Prop :=
  it_Requests s !! k = Some F \/ (k <= it_Floor s /\ forall j, is_Some (it_Requests s !! j) -> it_Floor s < j).

Definition recordedIn (k : Z) (F : frozenIntent) (f : IntentFile) : Prop :=
  match f with Holds s => recorded k F s | _ => False end.

Lemma trimIntents_spec fuel id s s' : trimIntents intentsLen fuel id s = Some s' ->
  (forall k F, recorded k F s -> recorded k F s') /\ (forall F, it_Requests s !! id = Some F -> it_Requests s' !! id = Some F) /\
  (size (it_Requests s') <= 500)%nat /\ intentsLen s' <= 1048576.
Proof.
  revert s. induction fuel as [|fuel IH]; intros s; cbn [trimIntents]; 
    (destruct (_ && _) eqn:E; [apply andb_true_iff in E as [E1%Nat.leb_le E2%Z.leb_le]; intros [= <-]; by split_and!|]); [done|].
  pose proof (leastID_spec (it_Requests s)) as Hl. destruct (leastID (it_Requests s)) as [x|]; [|done]. destruct Hl as [Hx Hmin].
  destruct (Z.leb_spec id x) as [|Hlt]; [done|]. intros H. apply IH in H as (Hr & Hid & H1 & H2). clear IH.
  set (s1 := s <| it_Floor := x |> <| it_Requests ::= delete x |>) in *.
  assert (it_Requests s1 = delete x (it_Requests s)) as Er by done. assert (it_Floor s1 = x) as Ef by done.
  assert (forall j, is_Some (it_Requests s1 !! j) -> x < j) as Habove.
  { intros j [F HF]. rewrite Er in HF. apply lookup_delete_Some in HF as [Hne HF]. specialize (Hmin j). assert (x <= j) by (apply Hmin; eauto). lia. }
  split_and!; [|intros F HF; apply Hid; rewrite Er, lookup_delete_ne; [done|lia]|done|done].
  intros k F [HF|[Hk Hab]]; apply Hr.
  - destruct (decide (k = x)) as [->|Hne]; [right; rewrite Ef; by split; [lia|]|]. left. by rewrite Er, lookup_delete_ne.
  - right. rewrite Ef. split; [|done]. apply Hab in Hx. lia.
Qed.

Lemma subsequence_sublist revs old : subsequence revs old = true -> sublist revs old.
Proof.
  revert old. induction revs as [|rev revs IH]; intros old; cbn [subsequence]; [intros; apply sublist_nil_l|].
  induction old as [|o old IHo]; [done|]. destruct (String.eqb (rv_Ref o) (rv_Ref rev)).
  - intros [->%bool_decide_eq_true H]%andb_true_iff. by apply sublist_skip, IH.
  - intros H. by apply sublist_cons, IHo.
Qed.

(** An intent that is within what was frozen: the same request, and of the frozen revisions those that have
    not landed since. *)
Definition within (forge : Forge) (new frozen : frozenIntent) : Prop :=
  fz_Reason new = fz_Reason frozen /\ fz_SkipChecks new = fz_SkipChecks frozen /\ fz_OverridePause new = fz_OverridePause frozen /\
  sublist (fz_Revisions new) (fz_Revisions frozen) /\
  forall rev, rev ∈ fz_Revisions frozen -> rv_Ref rev ∈ map rv_Ref (fz_Revisions new) \/
    exists log branch, fg_landed forge log branch (rv_Ref rev) (rv_SHA rev) = inl true.

Lemma within_refl forge F : within forge F F.
Proof. split_and!; try done. intros rev Hr. left. by apply list_elem_of_fmap_2. Qed.

Lemma goneLanded_file forge branch present old s : sc_file (snd (goneLanded forge branch present old s)) = sc_file s.
Proof.
  unfold goneLanded. revert s. induction old as [|rev old IH]; intros s; cbn [foldM]; [done|]. rewrite then_run.
  case_bool_decide; [apply IH|]. rewrite then_run. cbn [ask]. rewrite then_run. unfold lift at 1.
  destruct (fg_landed _ _ _ _ _) as [landed|err]; cbn; [|by destruct s]. destruct landed; cbn; [|by destruct s]. rewrite IH. by destruct s.
Qed.

Lemma goneLanded_spec forge branch present old s s' : goneLanded forge branch present old s = (inl tt, s') ->
  sc_file s' = sc_file s /\ forall rev, rev ∈ old -> rv_Ref rev ∈ map rv_Ref present \/
    exists log branch, fg_landed forge log branch (rv_Ref rev) (rv_SHA rev) = inl true.
Proof.
  unfold goneLanded. revert s. induction old as [|rev old IH]; intros s; cbn [foldM]; [intros [= <-]; split; [done|]; by intros rev Hr%elem_of_nil|].
  rewrite then_run. destruct (bool_decide_reflect (rv_Ref rev ∈ map rv_Ref present)) as [Hin|Hin].
  - intros H. apply IH in H as [-> H]. split; [done|]. intros x [->|Hx]%elem_of_cons; auto.
  - rewrite then_run. cbn [ask]. rewrite then_run. unfold lift at 1. destruct (fg_landed _ _ _ _ _) as [landed|err] eqn:El; cbn; [|done].
    destruct landed; cbn; [|done]. intros H. apply IH in H as [Hf H]. split; [by destruct s|].
    intros x [->|Hx]%elem_of_cons; [right; eauto|auto].
Qed.

Lemma refreeze_file forge (g : GitHubParams Q) target old new s : sc_file (snd (refreeze forge g target old new s)) = sc_file s.
Proof.
  unfold refreeze. case_bool_decide; [done|]. case_match; [done|]. case_match; [done|]. rewrite then_run.
  unfold branchOf. rewrite then_run. cbn [ask]. cbn [mret M_ret]. rewrite goneLanded_file. by destruct s.
Qed.

Lemma refreeze_spec forge (g : GitHubParams Q) target old new s s' : refreeze forge g target old new s = (inl tt, s') ->
  sc_file s' = sc_file s /\ within forge new old.
Proof.
  unfold refreeze. case_bool_decide as E; [subst; intros [= <-]; split; [done|apply within_refl]|].
  match goal with |- context [if ?b then _ else _] => destruct b eqn:Eb end; [done|].
  apply orb_false_iff in Eb as [Eb _]. apply orb_false_iff in Eb as [Eb E3%negb_false_iff%Bool.eqb_prop]. apply orb_false_iff in Eb as [E1%negb_false_iff%String.eqb_eq E2%negb_false_iff%Bool.eqb_prop].
  destruct (subsequence _ _) eqn:Es; cbn [negb]; [|done]. rewrite then_run. destruct (branchOf forge g target s) as [[b|e] s1] eqn:Eb; [|done].
  intros H. apply goneLanded_spec in H as [Hf H]. split.
  - rewrite Hf. clear - Eb. unfold branchOf in Eb. rewrite then_run in Eb. cbn [ask] in Eb. injection Eb as _ <-. by destruct s.
  - split_and!; [done..|by apply subsequence_sublist|done].
Qed.

Lemma readIntents_spec forge s : exists s1, sc_file s1 = sc_file s /\
  match readIntents intentsLen forge s with
  | (inl st, s2) => s2 = s1 /\ (sc_file s = Holds st \/ (sc_file s = NoFile /\ st = mkIntents 1 0 ∅))
  | (inr _, s2) => s2 = s1
  end.
Proof.
  exists (s <| sc_log ::= fun l => l ++ [ReadIntents] |>). split; [by destruct s|].
  unfold readIntents. rewrite then_run. cbn [ask]. rewrite then_run. cbn [get].
  destruct (fg_readFault forge (sc_log s)) as [err|]; [done|]. destruct s as [l f p pm a file i]; cbn. destruct file as [|st|]; cbn; [by split; [|right]| |done].
  destruct (_ || _); [done|]. by split; [|left].
Qed.

Lemma writeIntents_spec forge st s : exists s', writeIntents forge st s = (inl tt, s') /\ sc_file s' = Holds st \/
  exists e, writeIntents forge st s = (inr e, s') /\ (sc_file s' = Holds st \/ sc_file s' = sc_file s).
Proof.
  unfold writeIntents. rewrite then_run. cbn [ask]. destruct (fg_writeFault forge (sc_log s)) as [[err replaced]|].
  - rewrite then_run. destruct replaced; eexists; right; eexists; (split; [done|]); [by left|right; by destruct s].
  - eexists. by left.
Qed.

Lemma recorded_insert k F id F' st : id > it_Floor st -> it_Requests st !! id = None -> recorded k F st ->
  recorded k F (st <| it_Requests ::= insert id F' |>).
Proof.
  intros Hid Hn [HF|[Hk Hab]].
  - left. change (<[id := F']> (it_Requests st) !! k = Some F). rewrite lookup_insert_ne; [done|]. intros ->. congruence.
  - right. split; [done|]. intros j Hj. change (is_Some (<[id := F']> (it_Requests st) !! j)) in Hj. cbn.
    destruct (decide (j = id)) as [->|Hne]; [lia|]. rewrite lookup_insert_ne in Hj by done. by apply Hab.
Qed.

(** One attempt to freeze: what it leaves on file, and what success means. *)
Lemma freeze_spec forge (g : GitHubParams Q) r members s :
  let '(res, s') := Review.freezeIntent intentsLen forge g r members s in
  (forall k F, recordedIn k F (sc_file s) -> recordedIn k F (sc_file s')) /\
  (res = inl tt -> (length members <= 64)%nat /\ exists F, recordedIn (rs_ID r) F (sc_file s') /\ within forge (intentOf r members) F /\
     forall F', recordedIn (rs_ID r) F' (sc_file s) -> F' = F).
Proof.
  unfold freezeIntent. destruct (Nat.ltb_spec 64 (length members)) as [|Hlen]; [done|]. rewrite then_run.
  destruct (readIntents_spec forge s) as (s1 & Hf & Hr). destruct (readIntents intentsLen forge s) as [[st|e] s2]; [|subst; rewrite Hf; by split].
  destruct Hr as [-> Hst]. assert (forall k F, recordedIn k F (sc_file s) -> recorded k F st) as Hrec.
  { intros k F. destruct Hst as [->|[-> _]]; [done|]. by intros []. }
  destruct (Z.leb_spec (rs_ID r) (it_Floor st)) as [|Hfl]; [cbn; rewrite Hf; by split|].
  assert (forall F, recorded (rs_ID r) F st -> it_Requests st !! rs_ID r = Some F) as Hon by (intros F [HF|[Hk _]]; [done|lia]).
  destruct (it_Requests st !! rs_ID r) as [old|] eqn:El.
  - destruct (refreeze _ _ _ _ _ s1) as [[[]|e] s3] eqn:Er.
    + apply refreeze_spec in Er as [Hf3 Hw]. rewrite Hf3, Hf. split; [done|]. intros _. split; [done|]. exists old.
      split_and!; [|done|intros F' HF'; apply Hrec, Hon in HF'; congruence]. destruct Hst as [->|[_ ->]]; [by left|]. cbn in El. by rewrite lookup_empty in El.
    + split; [|done]. intros k F HF. enough (sc_file s3 = sc_file s1) as -> by by rewrite Hf. 
      match type of Er with refreeze _ _ ?t ?o ?n _ = _ => pose proof (refreeze_file forge g t o n s1) as Hx end. by rewrite Er in Hx.
  - set (st1 := st <| it_Requests ::= insert (rs_ID r) (intentOf r members) |>).
    destruct (trimIntents _ _ _ st1) as [st2|] eqn:Et; [|cbn; rewrite Hf; by split].
    apply trimIntents_spec in Et as (Hk & Hid & _). assert (it_Requests st2 !! rs_ID r = Some (intentOf r members)) as Hnew.
    { apply Hid. change (<[rs_ID r := intentOf r members]> (it_Requests st) !! rs_ID r = Some (intentOf r members)). apply lookup_insert_eq. }
    assert (forall k F, recordedIn k F (sc_file s) -> recorded k F st2) as Hall by (intros k F HF; apply Hk, recorded_insert; [lia|done|by apply Hrec]).
    destruct (writeIntents_spec forge st2 s1) as (s3 & [[-> H3]|(e & -> & H3)]).
    + rewrite H3. split; [done|]. intros _. split; [done|]. exists (intentOf r members). split_and!; [by left|apply within_refl|].
      intros F' HF'. apply Hrec, Hon in HF'. congruence.
    + split; [|done]. intros k F HF. destruct H3 as [->| ->]; [by apply Hall|by rewrite Hf].
Qed.

(** Later attempts to freeze, by any daemon on the same file. *)
Definition refrozen (f f' : IntentFile) : Prop :=
  exists forge (g : GitHubParams Q) r members s, sc_file s = f /\ f' = sc_file (snd (Review.freezeIntent intentsLen forge g r members s)).

Lemma refrozen_keeps k F f f' : rtc refrozen f f' -> recordedIn k F f -> recordedIn k F f'.
Proof.
  induction 1 as [|f f1 f2 (forge & g & r & members & s & <- & ->) _ IH]; [done|]. intros HF. apply IH.
  pose proof (freeze_spec forge g r members s) as H. destruct (freezeIntent _ _ _ _ _ s) as [res s']. by apply H.
Qed.

End Frozen.

(** ** Commands *)

(** What passes is a whole command: who bypasses a check, a pause or the order of the queue gives a
    reason, of at most 2048 bytes, and nobody preempts without urgency; a withdrawal carries no modifiers. *)
Lemma parseCommand_guarded body bot p : parseCommand body bot = Some p ->
  In (pc_Action p) ["merge"; "merge-through"; "merge-stack"; "merge-ready"; "cancel"; "check"; "merge-prefix"] /\
  (pc_SkipChecks p = true \/ pc_OverridePause p = true \/ pc_Preempt p = true -> pc_Reason p <> "") /\
  (pc_Preempt p = true -> pc_Urgent p = true) /\
  (pc_Action p = "cancel" \/ pc_Action p = "check" ->
     pc_Priority p = "" /\ pc_Preempt p = false /\ pc_SkipChecks p = false /\ pc_OverridePause p = false) /\
  (pc_Action p = "merge-prefix" <-> 0 < pc_Count p).
Proof.
  unfold parseCommand. destruct (Cut (TrimSpace body) " -- ") as [[line reason] hasReason].
  destruct (Fields line) as [|a [|verb fields]]; try done. destruct (negb _); [done|].
  destruct (modifiers fields ∅ noCommand [a; verb]) as [[out rest]|]; [|done].
  assert (forall b, let '(action, count) := command b bot in action = "" \/
    (In action ["merge"; "merge-through"; "merge-stack"; "merge-ready"; "cancel"; "check"] /\ count = 0) \/ (action = "merge-prefix" /\ 0 < count)) as Hc.
  { intros b. unfold command. destruct (Fields (TrimSpace b)) as [|x [|v args]]; [by left..|]. destruct (negb _); [by left|].
    destruct (String.eqb_spec v "merge") as [->|].
    { destruct args as [|arg []]; [right; left; split; [by left|done]| |by left]. destruct (String.eqb arg "stack"); [right; left; split; [by right; left|done]|by left]. }
    destruct (existsb (String.eqb v) ["merge-stack"; "merge-ready"; "cancel"; "check"]) eqn:Ev.
    { destruct args; [|by left]. right; left. split; [|done]. apply existsb_exists in Ev as (w & Hw & ->%String.eqb_eq). by right; right. }
    destruct (String.eqb_spec v "merge-prefix") as [->|]; [|by left]. destruct args as [|arg []]; [by left| |by left].
    destruct (ParseInt arg) as [num ok]. destruct (ok && (0 <? num)) eqn:E; [|by left]. apply andb_true_iff in E as [_ E%Z.ltb_lt]. by right; right. }
  specialize (Hc (String.concat " " rest)). destruct (command (String.concat " " rest) bot) as [action count].
  destruct out as [oa oc ou os op opre opri oreason]. cbn -[String.eqb TrimSpace].
  destruct (String.eqb_spec action "") as [|Hne]; [done|]. cbn [orb].
  destruct ((String.eqb action "cancel" || String.eqb action "check") && (negb (String.eqb opri "") || opre || os || op)) eqn:Eb; [done|].
  set (rsn := if hasReason then _ else _). intros H.
  assert (exists p0, Some p0 = Some p /\ p0 = rsn /\ (pc_SkipChecks p0 || pc_OverridePause p0 || pc_Preempt p0) && String.eqb (pc_Reason p0) "" = false /\
    pc_Preempt p0 && negb (pc_Urgent p0) = false) as (p0 & [= ->] & Hp & H1 & H2).
  { revert H. repeat (match goal with |- context [if ?b then None else _] => destruct b eqn:? end; [done|]). intros [= <-]. exists rsn. by split_and!. }
  assert (pc_Action p = action /\ pc_Count p = count /\ pc_Priority p = opri /\ pc_Preempt p = opre /\ pc_SkipChecks p = os /\ pc_OverridePause p = op /\ pc_Urgent p = ou)
    as (-> & -> & -> & Hpre & Hsk & Hov & Hu) by (rewrite Hp; unfold rsn; by destruct hasReason).
  split_and!.
  - destruct Hc as [?|[[Hin _]|[-> _]]]; [done| |cbn; tauto]. cbn in Hin |- *. tauto.
  - intros Hor Hr. rewrite Hr in H1. cbn in H1. rewrite andb_true_r in H1. apply orb_false_iff in H1 as [H1 ?]. apply orb_false_iff in H1 as [??]. destruct Hor as [?|[?|?]]; congruence.
  - intros Hpr. rewrite Hpr in H2. by destruct (pc_Urgent p).
  - intros Hca. rewrite Hpre, Hsk, Hov. destruct Hca as [-> | ->]; cbn in Eb; destruct (String.eqb_spec opri "") as [->|]; cbn in Eb; try done;
      by destruct opre, os, op.
  - destruct Hc as [?|[[Hin ->]|[-> Hpos]]]; [done| |done]. split; [|lia]. intros ->. cbn in Hin. by repeat destruct Hin as [Hin|Hin].
Qed.

(** ** Comments *)

(** Text from outside is inert in a comment: no tag, no mention, no markup of code, emphasis or links starts in it. *)
Lemma safeMarkdown_inert s a : a ∈ to_bytes (safeMarkdown s) -> ~ In a (to_bytes "<>@`*[").
Proof.
  unfold safeMarkdown. rewrite to_of_bytes. intros Ha Hin. apply elem_of_take in Ha as (i & Ha & _). apply list_elem_of_lookup_2 in Ha.
  apply list_elem_of_In, in_concat in Ha as (l & Hl & Ha). apply in_map_iff in Hl as (b & <- & _).
  unfold escapeByte in Ha.
  repeat match type of Ha with context [if ?c then _ else _] => destruct c eqn:? end;
    (apply Ascii.eqb_neq in Heqb0 || idtac); cbn in Ha, Hin; repeat destruct Ha as [Ha|Ha]; subst; try done;
    repeat destruct Hin as [Hin|Hin]; subst; done.
Qed.

(** ** The snapshot between polls

    Polls and invalidations interleave. [pl_origin] remembers how many invalidations preceded the start of the
    scan that made the present snapshot. *)
Record Polling := mkPolling { pl_poll : Poll; pl_running : list (Z * Z); pl_count : Z; pl_origin : option (Z * list Candidate) }.

Inductive pollStep (interval : Z) : Polling -> Polling -> Prop :=
| PollInvalidate po run n o : pollStep interval (mkPolling po run n o) (mkPolling (Invalidate po) run (n + 1) o)
| PollBegin now po run n o gen : beginPoll now po = inr gen ->
    pollStep interval (mkPolling po run n o) (mkPolling po ((gen, n) :: run) n o)
| PollFailed now po before gen m after n o err :
    pollStep interval (mkPolling po (before ++ (gen, m) :: after) n o)
      (mkPolling (snd (endPoll interval now gen (inr err) po)) (before ++ after) n o)
| PollEnd now po before gen m after n o current inputs :
    pollStep interval (mkPolling po (before ++ (gen, m) :: after) n o)
      (mkPolling (snd (endPoll interval now gen (inl (current, inputs)) po)) (before ++ after) n
         (if gen =? po_generation po then Some (m, current) else o)).

Definition idlePolling : Polling := mkPolling (mkPoll 0 [] ∅ 0) [] 0 None.

Definition pollInv (x : Polling) : Prop :=
  0 <= pl_count x /\ po_generation (pl_poll x) = pl_count x mod 2 ^ 64 /\
  (forall gen m, (gen, m) ∈ pl_running x -> gen = m mod 2 ^ 64 /\ 0 <= m <= pl_count x) /\
  (po_nextPoll (pl_poll x) <> 0 -> pl_count x < 2 ^ 64 -> pl_origin x = Some (pl_count x, po_cached (pl_poll x))).

Lemma pollInv_step interval x y : pollStep interval x y -> pollInv x -> pollInv y.
Proof.
  intros [po run n o|now po run n o gen Hb|now po before gen m after n o err|now po before gen m after n o current inputs] (H0 & Hg & Hr & Ho); cbn in *.
  - split_and!; [cbn; lia|cbn; rewrite Hg, Zplus_mod_idemp_l; done| |done].
    intros gen m Hin. cbn in *. apply Hr in Hin. lia.
  - split_and!; [done|done| |done]. intros gen' m [[= -> ->]|Hin]%elem_of_cons; [|by apply Hr]. unfold beginPoll in Hb.
    destruct (now <? po_nextPoll po); [done|]. injection Hb as <-. cbn. split; [done|lia].
  - split_and!; [done|done| |done]. intros gen' m' Hin. apply Hr. apply elem_of_app in Hin as [Hin|Hin]; apply elem_of_app; [by left|right; by apply list_elem_of_further].
  - assert (gen = m mod 2 ^ 64 /\ 0 <= m <= n) as [Hgm Hm] by (apply Hr, elem_of_app; right; apply list_elem_of_here).
    assert (forall gen' m', (gen', m') ∈ before ++ after -> gen' = m' mod 2 ^ 64 /\ 0 <= m' <= n) as Hr'.
    { intros gen' m' Hin. apply Hr. apply elem_of_app in Hin as [Hin|Hin]; apply elem_of_app; [by left|right; by apply list_elem_of_further]. }
    destruct (Z.eqb_spec gen (po_generation po)) as [E|E]; cbn; split_and!; try done.
    intros _ Hn. cbn in Hn |- *. rewrite Hg in E. rewrite E in Hgm. rewrite !Z.mod_small in Hgm by lia. by rewrite Hgm.
Qed.

(** Fewer than 2^64 invalidations into its life, an adapter serves only a snapshot whose scan began after the
    latest of them. *)
Lemma served_snapshot_fresh interval x now served : rtc (pollStep interval) idlePolling x -> 0 <= now -> pl_count x < 2 ^ 64 ->
  beginPoll now (pl_poll x) = inl served -> pl_origin x = Some (pl_count x, served).
Proof.
  intros Hx Hnow Hn Hb. assert (pollInv x) as (_ & _ & _ & Ho).
  { assert (pollInv idlePolling) as Hi by (split_and!; try done; by intros ?? ?%elem_of_nil). revert Hi. clear - Hx.
    induction Hx as [|a b c Hs _ IH]; [done|]. intros Ha. apply IH. by eapply pollInv_step. }
  unfold beginPoll in Hb. destruct (Z.ltb_spec now (po_nextPoll (pl_poll x))); [|done]. injection Hb as <-. apply Ho; [lia|done].
Qed.

(** ** The theorems *)
Section Theorems.
Context {Q V : Type} (lib : RegoLib Input Q V).
Context (EqualFold : string -> string -> bool) (sha256 : string -> string) (digest : list JVal -> string).
Context (encodeQuery : list (string * string) -> string) (intentsLen : intentState -> Z) (forge : Forge) (g : GitHubParams Q).
Abbreviation scan := (scan lib EqualFold sha256 digest encodeQuery intentsLen forge g) (only parsing).
Abbreviation ValidatePolicyInputs := (ValidatePolicyInputs lib EqualFold sha256 digest encodeQuery intentsLen forge g) (only parsing).
Abbreviation delivered := (delivered lib sha256 digest intentsLen forge g) (only parsing).


(** What a landing is allowed by: each member is admitted by that very scan, unblocked. *)
Lemma landing_revalidated members skip s inputs s' c :
  ValidatePolicyInputs members skip s = (inl inputs, s') -> c ∈ members ->
  exists n, c_Ref n = c_Ref c /\ c_SHA n = c_SHA c /\ c_Version n = c_Version c /\ c_AdmissionBlocked n = "" /\
    delivered (sc_log s) (sc_log s') false skip n.
Proof.
  intros E Hc. unfold Review.ValidatePolicyInputs in E. rewrite then_run in E. destruct (scan false skip s) as [[current|e] s1] eqn:Es; [|done].
  rewrite then_run in E. cbn [get] in E. destruct (forallb (stillAdmitted current) members) eqn:Ef; [|done]. injection E as _ <-.
  rewrite forallb_forall in Ef. specialize (Ef c (proj1 (list_elem_of_In _ _) Hc)). apply existsb_exists in Ef as (n & Hn%list_elem_of_In & Hm).
  apply andb_true_iff in Hm as [[[H1%String.eqb_eq H2%String.eqb_eq]%andb_true_iff H3%String.eqb_eq]%andb_true_iff H4%String.eqb_eq].
  exists n. split_and!; try done. pose proof (scan_delivers lib EqualFold sha256 digest encodeQuery intentsLen forge g (sc_log s) (sc_log s1) false skip s current s1) as H.
  rewrite Forall_forall in H. by apply H.
Qed.

End Theorems.

(** ** Concrete runs

    Two open pull requests: the first towards a target, with a request of a writer, the second towards a
    branch nobody has; a policy that lets writers command and open pull requests in. *)
Definition demoMarshal (i : Input) : string :=
  let yes (b : bool) := if b then "yes" else "no" in
  if String.eqb (in_Phase i) "scope" then yes (negb (String.eqb (in_Target i) ""))
  else match in_Forge i, in_Principal i with
       | FullFacts f, _ => yes (String.eqb (rv_state (fa_review f)) "open")
       | _, Some who => yes (String.eqb (pp_Permission who) "write")
       | _, None => "no"
       end.

Definition demoLib : RegoLib Input string string := mkRego (fun q _ => inl q) (fun _ _ => "v") (fun i => inl (demoMarshal i))
  (fun _ => None) (fun _ _ data => inl [[data]]) inl
  (fun text => Some (mkWire (Some true) (Some [mkRequirement "ready" (String.eqb text "yes") "not ready"]))).

Definition demoEngine : Engine string :=
  mkEngine (list_to_map [("scope", "s"); ("command", "c"); ("submission", "r")]) ∅ ∅ "v" 0.

Definition demoGitHub : GitHubParams string :=
  mkGitHubParams demoEngine true "/var/lib/gauntlet/intents" [] "acme/widgets" "https://api.github.com" "gauntlet" "" 0
    (list_to_map [("main", "main")]) 0 [] false 60000000000.

Definition demoPull (n : Z) (head base : string) : pull :=
  mkPull n "a change" "" "open" false "https://github.com/acme/widgets/pull/1" (mkRef head (head +:+ "sha") None) (mkRef base "" None) [] "alice" None.

Definition demoForge (comments : Z -> list comment) : Forge := mkForge (fun _ => inl "token")
  (fun A _ _ r => match r in Api A return Answer A with
                  | GetPulls _ => Replied 200 (inl [demoPull 1 "topic" "main"; demoPull 2 "other" "old"])
                  | GetPull n => Replied 200 (inl (if n =? 1 then demoPull 1 "topic" "main" else demoPull 2 "other" "old"))
                  | GetComments n _ => Replied 200 (inl (comments n))
                  | GetPermission _ => Replied 200 (inl "write")
                  | GetReviews _ _ => Replied 200 (inl [])
                  | GetUser => Replied 200 (inl "gauntlet-bot")
                  | CreateComment _ _ => Replied 201 (inl "gauntlet-bot")
                  | PostComment _ _ => Replied 201 (inl tt)
                  | PatchComment _ _ => Replied 200 (inl tt)
                  | _ => Replied 404 (inr "not found")
                  end)
  (fun _ _ _ _ => inl true) (fun _ _ _ _ => None) (fun _ => None) (fun _ => None) (fun _ keys => keys).

Definition demoScan : Scan := mkScan [] ∅ ∅ ∅ "" NoFile ∅.

Definition demoComment (id : Z) : comment := mkComment id "@gauntlet merge" "alice" None.

Definition demoIntake (comments : Z -> list comment) : (list Candidate + Err) * Scan :=
  scan demoLib String.eqb id (fun _ => "d1ge57") (fun _ => "query") (fun _ => 100) (demoForge comments) demoGitHub true false demoScan.

Definition onlyFirst (n : Z) : list comment := if n =? 1 then [demoComment 7] else [].
Definition bothPulls (n : Z) : list comment := [demoComment (7 + n)].

Lemma demo_admits : exists c s', demoIntake onlyFirst = (inl [c], s') /\ c_Ref c = slot "main" 1.
Proof. eexists _, _. split; [vm_compute; reflexivity|reflexivity]. Qed.

(** One more comment, on the other pull request, and nothing is admitted. *)
Lemma demo_blocks : fst (demoIntake bothPulls) = inr (Fault "PR #2 has an ambiguous or cyclic base dependency").
Proof. vm_compute. reflexivity. Qed.



Definition demoEmergency : request :=
  mkRequest true false "alice" "outage" false "" false (demoPull 1 "topic" "main") 5 "merge-stack" 0 false.
Definition demoMember (n : Z) : Candidate :=
  zeroCandidate <| c_Ref := slot "main" n |> <| c_SHA := pretty n |> <| c_Version := "v" |> <| c_Target := "main" |>.

Definition demoFreeze (members : list Candidate) (s : Scan) : (unit + Err) * Scan :=
  freezeIntent (fun _ => 100) (demoForge onlyFirst) demoGitHub demoEmergency members s.

Definition demoFrozen : Scan := snd (demoFreeze [demoMember 1; demoMember 2] demoScan).

