(* ===== verification/Gerrit.v ===== *)
(** Intake of Gerrit changes (src/internal/review/gerrit.go): which patch sets become
    candidates, the vote in front of a landing, and what is checked after it.

    The server's answers may depend on everything it was asked before, votes included. *)
From S2P Require Import Prelude GoString Core Daemon Policy Reconcile Review.
From Stdlib Require Import Ascii.

Open Scope string_scope.
Open Scope list_scope.
Open Scope Z_scope.

(** src/internal/review/gerrit.go:41-41 [requirement] *)
Record submitRequirement := mkSubmitRequirement { sr_Name : string; sr_Status : string }.

(** src/internal/review/gerrit.go:49-55 [change] One patch set. *)
Record patchSet := mkPatchSet { pa_Ref : string; pa_Message : string; pa_Parents : list string }.

(** src/internal/review/gerrit.go:42-57 [change] *)
Record change := mkChange {
  ch_Number : Z; ch_Branch : string; ch_Status : string; ch_Subject : string; ch_WorkInProgress : bool;
  ch_CurrentRevision : string; ch_More : bool; ch_Revisions : gmap string patchSet; ch_Requirements : list submitRequirement;
}.

(** A patch set that is not listed reads as the zero value. *)
Definition patchSetOf (c : change) (sha : string) : patchSet := default (mkPatchSet "" "" []) (ch_Revisions c !! sha).

(** src/internal/review/gerrit.go:20-27 [GerritParams] *)
Record GerritParams := mkGerritParams {
  ge_APIURL : string; ge_Project : string; ge_VerificationRequirement : string; ge_Targets : gmap string string }.

(** src/internal/review/gerrit.go:34-39 [NewGerrit] *)
Definition NewGerrit (p : GerritParams) : GerritParams :=
  mkGerritParams (ge_APIURL p) (ge_Project p)
    (if String.eqb (ge_VerificationRequirement p) "" then "Verified" else ge_VerificationRequirement p) (ge_Targets p).

(** What the adapter asks: a page of the open changes, a change, a vote or a message on a patch set; and of git. *)
Inductive GerritQuestion :=
| ListOpen (start : Z)
| Detail (n : Z)
| Files (n : Z) (sha : string)
| Vote (n : Z) (sha label : string) (value : Z)
| Note (n : Z) (sha message : string)
| Import (ref dest sha : string)
| BaseLanded (branch base : string).

(** The server's answers, after what it was asked before: of a change, what the decoder leaves in the variable
    (fields absent from a second answer keep their values). *)
Record GerritServer := mkGerritServer {
  gs_list : list GerritQuestion -> Z -> list change + string;
  gs_detail : list GerritQuestion -> Z -> change + string;
  gs_files : list GerritQuestion -> Z -> string -> list string + string;
  gs_post : list GerritQuestion -> GerritQuestion -> option string;
  gs_import : list GerritQuestion -> string -> string -> string -> option string;
  gs_landed : list GerritQuestion -> string -> string -> bool + string;
}.

(** A program that asks: its answer or its error, and the questions so far. *)
Definition G (A : Type) : Type := list GerritQuestion -> (A + string) * list GerritQuestion.

#[export] Instance G_ret : MRet G := fun A x log => (inl x, log).
#[export] Instance G_bind : MBind G := fun A B k m log =>
  match m log with (inl a, log') => k a log' | (inr e, log') => (inr e, log') end.

Definition failG {A} (msg : string) : G A := fun log => (inr msg, log).

(** A question whose answer is a value or an error. *)
Definition askG {A} (f : list GerritQuestion -> A + string) (q : GerritQuestion) : G A := fun log => (f log, log ++ [q]).

(** A question whose answer is an error or nothing. *)
Definition tellG (f : list GerritQuestion -> option string) (q : GerritQuestion) : G unit := fun log =>
  (match f log with Some e => inr e | None => inl tt end, log ++ [q]).

(** src/internal/review/gerrit.go:115-117 [gerritSlot] *)
Definition gerritSlot (target : string) (number : Z) : string :=
  "refs/heads/for/" +:+ target +:+ "/gerrit/change-" +:+ pad10 number.

(** src/internal/review/gerrit.go:187-191 [Validate] The number in a slot. *)
Definition changeNumber (ref : string) : Z + string :=
  let '(_, tail, _) := Cut ref "/gerrit/change-" in
  let '(n, ok) := ParseInt tail in
  if ok then inl n
  else inr ("strconv.Atoi: parsing " +:+ quoted tail +:+ (if n =? 0 then ": invalid syntax" else ": value out of range")).

(** src/internal/review/gerrit.go:98-98 [gerritChangeID] One line. *)
Definition isChangeID (line : bytes) : bool :=
  match strip_prefix (to_bytes "Change-Id: I") line with
  | None => false
  | Some rest =>
      let '(hex, tail) := spanBytes (fun a => isLowHex a || between 65 70 (byte_val a)) rest in
      (length hex =? 40)%nat && (bool_decide (tail = []) || bool_decide (tail = [ascii_of_nat 13]))
  end.

(** src/internal/review/gerrit.go:149-151 [Candidates] What follows the last empty line. *)
Fixpoint afterLast (b : bytes) : option bytes :=
  match b with
  | [] => None
  | a :: t => match afterLast t with
              | Some rest => Some rest
              | None => strip_prefix [newline; newline] b
              end
  end.

(** src/internal/review/gerrit.go:147-152 [Candidates] *)
Definition changeIDs (message : string) : nat :=
  let m := to_bytes (TrimSpace message) in
  length (List.filter isChangeID (split_lines (default m (afterLast m)))).

Section Gerrit.
Context (server : GerritServer) (g : GerritParams) (digest : list JVal -> string).

(** src/internal/review/gerrit.go:100-113 [eligible] *)
Definition eligible (c : change) (includeVerification : bool) : bool :=
  String.eqb (ch_Status c) "NEW" && negb (ch_WorkInProgress c) && (0 <? length (ch_Requirements c))%nat
  && forallb (fun r => (negb includeVerification && String.eqb (sr_Name r) (ge_VerificationRequirement g))
                       || existsb (String.eqb (sr_Status r)) ["SATISFIED"; "OVERRIDDEN"; "NOT_APPLICABLE"]) (ch_Requirements c).

(** src/internal/review/gerrit.go:120-135 [Candidates] The open changes from [start] on. Every page but the last
    has a change, so the limit of 100000 is met within [fuel]. *)
Fixpoint openChanges (fuel : nat) (start : Z) (all : list change) : G (list change) :=
  match fuel with
  | O => failG "gerrit pagination exceeds limit"
  | S fuel =>
      rows ← askG (fun log => gs_list server log start) (ListOpen start);
      let all := all ++ rows in
      match last rows with
      | None => mret all
      | Some row =>
          if negb (ch_More row) then mret all
          else let start := start + Z.of_nat (length rows) in
               if 100000 <? start then failG "gerrit pagination exceeds limit" else openChanges fuel start all
      end
  end.

(** src/internal/review/gerrit.go:136-139 [Candidates] *)
Definition byRevision (all : list change) : gmap string change :=
  foldl (fun m c => <[ch_CurrentRevision c := c]> m) ∅ all.

(** src/internal/review/gerrit.go:159-160 [Candidates] *)
Definition gerritCandidate (c : change) (target base dependsOn : string) : Candidate :=
  let message := pa_Message (patchSetOf c (ch_CurrentRevision c)) in
  zeroCandidate <| c_Ref := gerritSlot target (ch_Number c) |> <| c_Target := target |> <| c_Topic := ch_Subject c |>
    <| c_SHA := ch_CurrentRevision c |> <| c_Source := "gerrit" |> <| c_SourceBase := base |> <| c_Message := message |>
    <| c_ReviewURL := trimRightSlashes (ge_APIURL g) +:+ "/c/" +:+ ge_Project g +:+ "/+/" +:+ pretty (ch_Number c) |>
    <| c_DependsOn := dependsOn |>.

(** src/internal/review/gerrit.go:179-179 [Candidates] *)
Definition withVersion (c : Candidate) : Candidate := c <| c_Version := Review.version digest c |>.

(** src/internal/review/gerrit.go:141-181 [Candidates] One change: [None] where it is no candidate. *)
Definition admitChange (bySHA : gmap string change) (c : change) : G (option Candidate) :=
  match ge_Targets g !! ch_Branch c with
  | None => mret None
  | Some target =>
      if negb (eligible c false) then mret None else
      let r := patchSetOf c (ch_CurrentRevision c) in
      if negb (changeIDs (pa_Message r) =? 1)%nat
      then failG ("Gerrit change " +:+ pretty (ch_Number c) +:+ " must have exactly one Change-Id trailer") else
      match pa_Parents r with
      | [base] =>
          let parent := bySHA !! base in
          if match parent with Some q => negb (String.eqb (ch_Branch q) (ch_Branch c)) | None => false end then mret None else
          let dest := "refs/gauntlet/reviews/gerrit/" +:+ pretty (ch_Number c) in
          tellG (fun log => gs_import server log (pa_Ref r) dest (ch_CurrentRevision c)) (Import (pa_Ref r) dest (ch_CurrentRevision c)) ;;
          match parent with
          | Some q => mret (Some (withVersion (gerritCandidate c target base (gerritSlot target (ch_Number q)))))
          | None =>
              landed ← askG (fun log => gs_landed server log (ch_Branch c) base) (BaseLanded (ch_Branch c) base);
              mret (if landed : bool then Some (withVersion (gerritCandidate c target base "")) else None)
          end
      | _ => failG ("Gerrit change " +:+ pretty (ch_Number c) +:+ " must have one parent")
      end
  end.

(** src/internal/review/gerrit.go:140-181 [Candidates] *)
Fixpoint collectG (bySHA : gmap string change) (l : list change) (out : list Candidate) : G (list Candidate) :=
  match l with
  | [] => mret out
  | c :: rest => o ← admitChange bySHA c; collectG bySHA rest (out ++ option_list o)
  end.

(** src/internal/review/gerrit.go:119-184 [Candidates] *)
Definition gerritCandidates : G (list Candidate) :=
  all ← openChanges (Z.to_nat 100002) 0 [];
  out ← collectG (byRevision all) all [];
  mret (sort_by byRef out).

(** src/internal/review/gerrit.go:197-199 [Validate] The patch set is the one that was tested. *)
Definition sameRevision (c : Candidate) (current : change) : bool :=
  String.eqb (ch_CurrentRevision current) (c_SHA c)
  && String.eqb (pa_Message (patchSetOf current (c_SHA c))) (c_Message c) && eligible current false.

(** src/internal/review/gerrit.go:186-213 [Validate] *)
Definition gerritValidate (c : Candidate) : G unit :=
  match changeNumber (c_Ref c) with
  | inr _ => failG "invalid Gerrit review slot"
  | inl n =>
      current ← askG (fun log => gs_detail server log n) (Detail n);
      if negb (sameRevision c current) then failG "Gerrit patch set or submit requirements changed" else
      tellG (fun log => gs_post server log (Vote n (c_SHA c) "Verified" 1)) (Vote n (c_SHA c) "Verified" 1) ;;
      current ← askG (fun log => gs_detail server log n) (Detail n);
      if negb (String.eqb (ch_CurrentRevision current) (c_SHA c)) || negb (eligible current true)
      then failG "Gerrit change is not submittable after verification" else mret tt
  end.

(** src/internal/review/gerrit.go:248-248 [ValidateEmergency] *)
Definition emergencyNote : string :=
  "Gauntlet operator emergency: validation checks were waived. The queue will attempt the exact constructed commit with target CAS.".

(** src/internal/review/gerrit.go:233-249 [ValidateEmergency] *)
Definition gerritValidateEmergency (c : Candidate) : G unit :=
  match changeNumber (c_Ref c) with
  | inr e => failG e
  | inl n =>
      current ← askG (fun log => gs_detail server log n) (Detail n);
      if negb (sameRevision c current) then failG "Gerrit revision or non-verification submit requirements changed" else
      tellG (fun log => gs_post server log (Note n (c_SHA c) emergencyNote)) (Note n (c_SHA c) emergencyNote)
  end.

(** src/internal/review/gerrit.go:215-231 [Landed] *)
Definition gerritLanded (c : Candidate) : G unit :=
  match changeNumber (c_Ref c) with
  | inr e => failG e
  | inl n =>
      current ← askG (fun log => gs_detail server log n) (Detail n);
      if String.eqb (ch_Status current) "MERGED" then mret tt
      else failG "target advanced but Gerrit has not recorded the change as merged"
  end.

(** src/internal/review/gerrit.go:279-279 [PolicyFacts] *)
Record GerritFacts := mkGerritFacts {
  gf_change : Z; gf_head_sha : string; gf_state : string; gf_work_in_progress : bool;
  gf_requirements : list submitRequirement; gf_paths : list string }.

(** src/internal/review/gerrit.go:250-280 [PolicyFacts] *)
Definition gerritPolicyFacts (c : Candidate) : G GerritFacts :=
  match changeNumber (c_Ref c) with
  | inr e => failG e
  | inl n =>
      current ← askG (fun log => gs_detail server log n) (Detail n);
      if negb (String.eqb (ch_CurrentRevision current) (c_SHA c)) then failG "Gerrit policy revision changed" else
      files ← askG (fun log => gs_files server log n (c_SHA c)) (Files n (c_SHA c));
      let paths := sort_by String.ltb (List.filter (fun f => negb (String.eqb f "/COMMIT_MSG")) files) in
      mret (mkGerritFacts n (ch_CurrentRevision current) (ch_Status current) (ch_WorkInProgress current)
              (ch_Requirements current) paths)
  end.

(** ** What a vote and an admission are worth *)

(** A change fit for a vote on [sha]. *)
Definition fit (includeVerification : bool) (sha : string) (c : change) : Prop :=
  ch_CurrentRevision c = sha /\ ch_Status c = "NEW" /\ ch_WorkInProgress c = false /\ ch_Requirements c <> [] /\
  forall r, r ∈ ch_Requirements c -> (includeVerification = true \/ sr_Name r <> ge_VerificationRequirement g) ->
    In (sr_Status r) ["SATISFIED"; "OVERRIDDEN"; "NOT_APPLICABLE"].

Lemma eligible_fit c b : eligible c b = true -> fit b (ch_CurrentRevision c) c.
Proof.
  unfold eligible. rewrite !andb_true_iff, forallb_forall. intros [[[Hs%String.eqb_eq H%negb_true_iff] Hl%Nat.ltb_lt] Hf].
  split_and!; try done; [by intros E; rewrite E in Hl; cbn in Hl; lia|]. intros r Hr Hor. apply list_elem_of_In, Hf, orb_true_iff in Hr as [Hr|Hr].
  - apply andb_true_iff in Hr as [Hb%negb_true_iff Hn%String.eqb_eq]. by destruct Hor; [congruence|].
  - apply existsb_exists in Hr as (x & Hx & ->%String.eqb_eq). done.
Qed.

(** A landing of a Gerrit change is let through only with one vote, on the tested patch set and no other:
    just before it that patch set was current with the tested message and everything but the verification
    satisfied, and after it the patch set was still current with everything satisfied. *)
Lemma vote_on_tested c log log' : gerritValidate c log = (inl tt, log') ->
  exists n before after, changeNumber (c_Ref c) = inl n /\
    gs_detail server log n = inl before /\ fit false (c_SHA c) before /\ pa_Message (patchSetOf before (c_SHA c)) = c_Message c /\
    gs_detail server (log ++ [Detail n; Vote n (c_SHA c) "Verified" 1]) n = inl after /\ fit true (c_SHA c) after /\
    log' = log ++ [Detail n; Vote n (c_SHA c) "Verified" 1; Detail n].
Proof.
  unfold gerritValidate. destruct (changeNumber (c_Ref c)) as [n|ce]; [|done]. unfold mbind, G_bind, askG, tellG.
  destruct (gs_detail server log n) as [before|e] eqn:E1; [|done]. destruct (sameRevision c before) eqn:Es; cbn [negb]; [|done].
  destruct (gs_post _ _ _); [done|]. rewrite <- !app_assoc. cbn [app].
  destruct (gs_detail server (log ++ [Detail n; Vote n (c_SHA c) "Verified" 1]) n) as [after|e] eqn:E2; [|done].
  destruct (String.eqb_spec (ch_CurrentRevision after) (c_SHA c)) as [Hc|]; cbn [negb orb]; [|done].
  destruct (eligible after true) eqn:Ea; cbn [negb]; [|done]. intros [= <-].
  unfold sameRevision in Es. apply andb_true_iff in Es as [[Hb%String.eqb_eq Hm%String.eqb_eq]%andb_true_iff Hel].
  exists n, before, after. split_and!; try done; [rewrite <- Hb|rewrite <- Hc]; by apply eligible_fit.
Qed.

(** Whatever comes of it, a landing votes for the tested patch set only, and an emergency for none. *)
Lemma votes_only_tested c log res log' n sha label v : Vote n sha label v ∈ log' ->
  (gerritValidate c log = (res, log') -> Vote n sha label v ∈ log \/ (sha = c_SHA c /\ label = "Verified" /\ v = 1)) /\
  (gerritValidateEmergency c log = (res, log') -> Vote n sha label v ∈ log).
Proof.
  assert (forall l (q : GerritQuestion), Vote n sha label v ∈ l ++ [q] -> Vote n sha label v ∈ l \/ Vote n sha label v = q) as Hq.
  { intros l q [H|H%list_elem_of_singleton]%elem_of_app; auto. }
  intros Hin. split; intros E; revert E Hin.
  - unfold gerritValidate. destruct (changeNumber (c_Ref c)) as [k|ce]; [|intros [= _ <-]; by left]. unfold mbind, G_bind, askG, tellG.
    destruct (gs_detail server log k) as [before|e]; [|intros [= _ <-] [?|?]%Hq; first [by left|done]].
    destruct (negb _); [intros [= _ <-] [?|?]%Hq; first [by left|done]|]. destruct (gs_post _ _ _).
    { intros [= _ <-] [[?|?]%Hq|[= _ -> -> ->]]%Hq; first [by left|by right|done]. }
    destruct (gs_detail _ _ _) as [after|e]; [destruct (_ || _)|]; intros [= _ <-] [[[?|?]%Hq|[= _ -> -> ->]]%Hq|?]%Hq; first [by left|by right|done].
  - unfold gerritValidateEmergency. destruct (changeNumber (c_Ref c)) as [k|ce]; [|by intros [= _ <-]]. unfold mbind, G_bind, askG, tellG.
    destruct (gs_detail server log k) as [before|e]; [|by intros [= _ <-] [?|?]%Hq].
    destruct (negb _); [by intros [= _ <-] [?|?]%Hq|]. by intros [= _ <-] [[?|?]%Hq|?]%Hq.
Qed.
End Gerrit.
